(* ===== verification/_CoqProject ===== *)
-Q . S2P
Prelude.v
Paths.v
GoValue.v
GoTime.v
Model.v
Ids.v
Registry.v
RegistryTheory.v
Sha256.v
Evidence.v
Events.v
EventLog.v
Fixtures.v
LogSpec.v
Command.v
Delegation.v
DelegationTheory.v
Unmarshal.v
Text.v
Json.v
JsonTheory.v
EventCodec.v
EventCodecTheory.v
LimitsTheory.v
Requests.v
Stream.v
StreamTheory.v
MemberRuntime.v
MemberTheory.v
Closeout.v
Lifecycle.v
LifecycleTheory.v
ArgumentGraph.v
ArgumentGraphTheory.v
SelectedRunner.v
SelectedRunnerTheory.v
Council.v
CouncilTheory.v
CouncilWindow.v
Readiness.v
ReadinessTheory.v
ReadinessTimeouts.v
PromptEvidence.v
PromptBuilder.v
PromptTheory.v
RunnerDispatch.v
RunnerDispatchTheory.v
SpeakerDispatch.v
HermesAgent.v
HermesTheory.v
GrantDispatch.v
SpeakerTheory.v
SpeakerPass.v
Session.v
SessionStart.v
SessionTheory.v
StartTheory.v
CouncilIntent.v
CouncilIntentTheory.v
Sweeper.v
Projection.v
Replay.v
ReplayTheory.v
ReplayFixtures.v
ReplayLocal.v
ReplayRows.v
ReplayVotes.v
Transcript.v
TranscriptTheory.v
SpeechRows.v
SummaryTurns.v
ExportBundle.v
BundleTheory.v
QualityStatus.v
CouncilStatus.v
Protocol.v
Daemon.v
GrantFrame.v
DaemonTheory.v
Concurrency.v
