(* ===== verification/Prelude.v ===== *)
(** * Agent Turn Network control plane: verification library

    This library models the core of the Agent Turn Network control plane (Go,
    src/internal/storage, registry, memberruntime and daemon) and proves what its
    users rely on: an append-only event log per session that survives interrupted
    writes, commands that take effect at most once, the rules of delegation and
    council sessions, sessions that are created whole with registered members,
    members that miss no event, and selected speakers that are asked at most
    once, with a complete context, and accounted for.

    ** The program

    A session is a directory with two files.  [channel.jsonl] holds one JSON event
    per line and is the authority; [session.yaml] is a projection of it.  Every
    command of the daemon (src/internal/daemon) runs a storage function that
    checks its arguments, reads the log, and then answers from the log (a retry)
    or appends one event through AppendEvent.  There is no other session state:
    the phase of a session is the phase of its last event, the round, draft, turn,
    votes and windows of a council are scans of its log.  Next to the sessions the
    data home has [registry.yaml], the members and their executables; a session
    keeps a snapshot of it.  A member follows a session with the member runtime,
    from a cursor file that says how far it has come.  A grant in a
    council appends [speaker_selected]; the daemon then asks the runner of the
    selected member (a child process) for the speech: it builds a prompt from the
    log, runs the member's wrapper, records each attempt, and appends the answer
    as the speech.

    ** The files

    - Prelude.v: the result type with the notations [ensure], [reject] and [try]
      (Go's early returns), byte strings with the string functions of Go's
      standard library, 64-bit wrap-around, [run_inv] for inverting a run.
    - Paths.v: path/filepath on slash-separated paths.
    - GoValue.v: decoded JSON values with the Go dynamic type they have, the
      accessors of the handlers ([payloadStringDefault], [anyInt], ...), JSON
      text and what a value becomes when it is written and read back.
    - GoTime.v: instants, RFC 3339 text, its parser and their round trip.
    - Model.v: the records of model.go, the errors of errors.go.
    - Ids.v: session ids, cursors, event ids from command ids (ids.go).
    - Registry.v, RegistryTheory.v: internal/registry over a file system of nodes
      by path, with the schema, wrapper resolution, snapshots and reconciliation
      ([meanwhile] is what another process does to the registry before the last
      check), and EnvForMember of internal/runner.
    - Sha256.v, Evidence.v: the participant evidence put into every speech
      (participant_runtime_evidence.go).
    - Events.v: ReadLogIndex, ValidateEnvelope, AppendEvent and
      appendIdempotentEvent (events.go, stream.go).  [sessions] is the directory
      tree, [world] adds the caller's metadata object, which AppendEvent updates
      through its pointer; [append_fault] is the point where the operating system
      fails the append.
    - Text.v, Json.v, JsonTheory.v: texts cut into lines and fields, the reader of
      encoding/json (scanner, nesting limit, escapes, numbers, decoded values) and
      its round trip with the writer.
    - EventCodec.v, EventCodecTheory.v: the line of an event (model.go, events.go),
      the event of a line, and [channel_of], the log that bytes stand for.
    - EventLog.v, LogSpec.v: the laws of the append path and the abstract
      append-only log that it refines.
    - Command.v: the interface [Command] (a check and a response) of all command
      handlers; [LawfulCommand] and [TerminalSafe] are what the theorems about
      any run of commands need, and every component discharges them.
    - Delegation.v, DelegationTheory.v: delegation.go, with cancel, block, resume
      and limit extension, which apply to councils as well.
    - Stream.v, StreamTheory.v: replay, follow, acknowledgement, delivery
      evidence (stream.go).
    - MemberRuntime.v, MemberTheory.v: internal/memberruntime.  [CursorStore] is the
      interface of the stores of cursors, [CursorStoreLaws] what RunOnce needs of
      one; the cursor files are an instance.
    - Closeout.v: which evidence proves a visible closeout (transcript.go,
      council.go).
    - Lifecycle.v, LifecycleTheory.v: council_discussion_lifecycle.go.
    - ArgumentGraph.v, ArgumentGraphTheory.v: council_argument_graph.go.
    - Council.v, CouncilTheory.v, CouncilWindow.v: council.go.
    - Session.v, SessionTheory.v: session.go and FindActiveSession; [home] is the
      data home, [create_fault] the step at which the creation of a session is
      cut, and a process that dies is a fault without the deferred removal of the
      staging directory.
    - SessionStart.v, StartTheory.v: CreateDelegation, CreateCouncil, and the
      council.new handler, which joins the registry and the sessions.
    - SelectedRunner.v, SelectedRunnerTheory.v: selected_runner_accounting.go, what
      the log proves about the runner of each selection.
    - Readiness.v, ReadinessTheory.v, ReadinessTimeouts.v: runtime_readiness.go,
      the report on the members' runtimes, and the timeouts of attendance and
      preparation.
    - PromptEvidence.v, PromptBuilder.v, PromptTheory.v:
      selected_runner_prompt_evidence.go, the prompt and the evidence about it.
    - RunnerDispatch.v, RunnerDispatchTheory.v: daemon/runrt.go, one command handed
      to a runner in attempts.  [run_state] is the caller's world, the clock, the
      faults to come, and what was handed over and posted so far.
    - SpeakerDispatch.v, GrantDispatch.v: daemon/selected_speaker.go and the council
      commands of daemon/council_handlers.go: readiness preflight, the append, the
      dispatch after a grant, the answer.
    - SpeakerTheory.v, SpeakerPass.v: the theorems about that dispatch, and its
      agreement with the accounting.
    - HermesAgent.v, HermesTheory.v: runner/hermes_agent.go and cost.go, the adapter
      that runs a wrapper: responses, receipts, costs, failures, diagnostics.
    - Concurrency.v: requests that overlap, cut at their accesses to the session;
      [run_schedule] is any interleaving, [serve] one request alone.
    - Unmarshal.v, LimitsTheory.v: encoding/json into the fields of the limits, and
      effective_limits.go.
    - Requests.v, CouncilIntent.v, CouncilIntentTheory.v: the parameters of a request
      (daemn002.go, delegation_handlers.go) and their validation by council.new.
    - Sweeper.v: response_window_sweeper.go, one sweep of all councils.
    - QualityStatus.v, CouncilStatus.v: what the status of a council or a stream says,
      with the quality of its discussion.
    - Protocol.v, Daemon.v: internal/protocol, and the handlers of daemon/server.go,
      daemn002.go, delegation_handlers.go and council_handlers.go, from a request to its
      response.  [GoError] is the interface that the errors of all packages have for
      the daemon.
    - GrantFrame.v, DaemonTheory.v: what a request can touch.
    - Projection.v, Replay.v: the rows of the projection and ReplayProjectionState
      (projection_rows.go, argument_graph_projection.go, projection.go).
      [projectionState] has the tables as maps from the keys of the code.
    - ReplayTheory.v, ReplayLocal.v, ReplayRows.v, ReplayVotes.v: when a replay
      succeeds, that sessions are projected apart from each other, and what the
      tables of sessions and votes then say; ReplayFixtures.v has a home to replay.
    - Transcript.v, ExportBundle.v: transcript.go and summary_turn_accounting.go, the
      renderings of a log and the bundle of files made of them; [bundle_world] is the
      file system with the bytes of its files, [file_fault] what fails in a write.
    - TranscriptTheory.v, SpeechRows.v, SummaryTurns.v, BundleTheory.v: what the
      transcript, its tables and the bundle say.
    - Fixtures.v: a small data home on which witnesses are evaluated.

    ** What is shown

    - The log (LogSpec): runs of AppendEvent under arbitrary faults compute what an
      executable specification says, for the readers and for every caller: it names
      the events that are admitted, and the faults that leave nothing, the whole
      event or a torn line.  An interrupted append leaves nothing, the whole event,
      or a torn line that every reader refuses; however a command id is used again,
      at most one event carries it, and the retry of a stable command that is no
      speech, even of one that reported failure, gets the original cursor.  The bytes of the file
      implement this log (EventCodecTheory): what is read from them is what the
      log says, and a write that is cut at any byte leaves what the model says.
    - Commands (Command, DelegationTheory, CouncilTheory): over any run of
      commands under faults command ids stay unique, each event that is logged
      obeys the rule that the table of moves of the session type has for it (from
      which phases, to which phase, by whom, with what payload), and
      termination-respecting commands leave a terminal session terminal.
    - Delegation: only acceptance of submitted work (or an escalation that
      recorded a terminal phase) ends a delegation; retries after progress are
      answered; block and resume are inverse; the payload rules.
    - Councils: by an invariant that justifies each event by its prefix of the
      log, speeches follow grants and hand raises, members vote once per round,
      and a finalization has the votes of all members on the latest draft.  A
      poll's window is read back exactly, accepts answers until its deadline or
      its last member, and a timeout settles it.
    - Lifecycle and argument graph: the two-pass scan agrees with its
      declarative meaning, visible indexes are bounded and unique, the required
      quality mode accepts exactly what its rules say, links resolve, and
      automatic selection is optimal.
    - Streams: a replay resumes after its cursor; following answers at the first
      poll that finds new events, with exactly those, and leaves no gap.
    - Members: whatever fails between handling, acknowledging and storing the
      cursor, no selected event is passed over; a run without failures catches up.
    - Selected runners: the accounting of selections whose runner was invoked once
      passes exactly when one chain of a start, a success and a speech proves each,
      and the readiness of a council cannot contradict it; a prompt passes exactly when its
      context is complete; a runner is asked only with such a prompt and after the
      log says so, within the allowed attempts; what a dispatch appends; a
      selection is dispatched at most once over all retries and restarts; a
      dispatch that succeeds passes the accounting.
    - Runner adapter (HermesTheory): a run ends with a response exactly when the
      wrapper ran, exited in time and cleanly, and printed one, and a timeout and a
      clean exit without a response have their own classes; its diagnostics hold no marker of a secret and no path, a response
      printed as JSON is the one recorded, and the order in which Go visits a map
      does not decide whether a delivery is accepted.
    - Readiness: a report is ready exactly when each member's evidence is; the
      timeouts answer for those who did not, once.
    - Registry: a resolved wrapper is safe and inside the allowed directories, a
      snapshot reads back, reconciling adds exactly the missing members.
    - Sessions: the specifications that are accepted; a session is created whole
      or not at all under any fault; there is one live session at most; council.new
      starts councils of registered, enabled members only, from requests that say one
      thing about their output, and never one that the timeout policy holds up.
    - Overlap: requests that do not overlap behave as the handlers run one by one,
      which is how all other theorems take them; for those that do, what the log
      keeps and exactly when it becomes unreadable.
    - Limits: an extension takes effect on the effective limits.
    - Sweeper: a sweep settles the expired windows of all councils.
    - Projection: a home can be replayed exactly when it is safe, readable and free of
      shared event and command ids; the rows of a session are those of its own log,
      its row in the table of sessions reports that log, and the table of votes has
      exactly the votes of a council.
    - Requests: a request changes the session that it names and no other, and one that
      is declared read-only changes nothing, a replay that follows and an export apart.
    - Quality: the verdict on a discussion is what its counts say.
    - Transcripts: a JSONL transcript reads back as the log, its costs are those of
      the projection, the speeches of a council are shown as granted, the turn
      summary has its declarative meaning, and a bundle that is cut short leaves each
      of its files as it was or whole.

    ** Conventions and bounds

    Strings are byte strings; Go's [int] is [Z] with [wrap64] where the code can
    overflow.  Loops of the code are structural recursions over the log.  The
    fuel of [trim_left_with] and of the loops of the JSON reader is the length of
    the text, of which each step removes a byte; values nest at most 10000 deep,
    the limit of encoding/json.  In [log_bytes_refine] an event is [writable]: its
    integers fit a machine word, its instant has a year of four digits and its floats
    read back from their text.  Texts are taken to be UTF-8: the replacement of
    other bytes by encoding/json is not written out.  A fault is an argument of the operation and runs quantify
    over it.  time.Now() is an argument ([clock]).  Where a theorem needs counters
    below 2^53 (an integer passes through JSON as a float64) it says so.

    ** Not modelled

    The decoding of session.yaml and registry.yaml (a registry is given as
    undecodable or decoded), the copying of artifact files, the SQLite database that
    the projection is written to and compared with, the text of costs as it stands in
    a line of the log (a transcript shows their values), the locks of the member
    runtime and of the runner dispatch, the sockets and the process of the daemon
    (what VerifyStorage says is an argument of the health request), the transport and
    the command line.  The process of a runner, the poster of
    visible messages and what other commands append while they run are parameters. *)

From stdpp Require Export base tactics decidable option list sorting strings gmap fin_maps pretty.
From Stdlib Require Export ZArith Lia.
From Stdlib Require Ascii String.

Declare Scope go_scope.
Delimit Scope go_scope with go.
#[global] Open Scope string_scope.
#[global] Open Scope list_scope.
#[global] Open Scope Z_scope.
#[global] Open Scope go_scope.

(** String equality test, Go's [==] on strings; [+:+] is concatenation. *)
Notation "a == b" := (String.eqb a b) (at level 70, no associativity) : go_scope.
Notation "a != b" := (negb (String.eqb a b)) (at level 70, no associativity) : go_scope.

(** ** Fallible code

    A Go function returning [(T, error)] is a [result]: [Ok] when the error is
    nil, [Err] otherwise.  The error type is a parameter because the storage
    package, the member runtime and the registry each have their own. *)
Inductive result (E A : Type) : Type :=
| Ok (a : A)
| Err (e : E).

Arguments Ok {E A} a.
Arguments Err {E A} e.

#[global] Instance result_ret {E} : MRet (result E) := fun A a => Ok a.

#[global] Instance result_bind {E} : MBind (result E) := fun A B f r =>
  match r with
  | Ok a => f a
  | Err e => Err e
  end.

#[global] Instance result_fmap {E} : FMap (result E) := fun A B f r =>
  match r with
  | Ok a => Ok (f a)
  | Err e => Err e
  end.

Definition is_ok {E A} (r : result E A) : bool :=
  match r with
  | Ok _ => true
  | Err _ => false
  end.

(** [if !cond { return err }] followed by the rest of the function. *)
Notation "'ensure' b 'or' e ;; k" := (if b then k else Err e)
  (at level 100, b at level 99, e at level 99, k at level 200, right associativity,
   format "'[v' 'ensure'  b  'or'  e  ;; '//' k ']'") : go_scope.

(** [if cond { return err }] followed by the rest of the function. *)
Notation "'reject' b 'with' e ;; k" := (if b then Err e else k)
  (at level 100, b at level 99, e at level 99, k at level 200, right associativity,
   format "'[v' 'reject'  b  'with'  e  ;; '//' k ']'") : go_scope.

(** Monadic bind on [result], spelled as the Go idiom [x, err := c; if err != nil]. *)
Notation "'try' x := c 'in' k" := (mbind (M := result _) (fun x => k) c)
  (at level 100, x binder, c at level 99, k at level 200, right associativity,
   format "'[v' 'try'  x  :=  c  'in' '//' k ']'") : go_scope.

(** ** Machine integers: Go's [int] is 64 bits wide on the supported targets. *)
Definition int_min : Z := - 2 ^ 63.
Definition int_max : Z := 2 ^ 63 - 1.
Definition wrap64 (z : Z) : Z := (z + 2 ^ 63) mod 2 ^ 64 - 2 ^ 63.
Definition in_int (z : Z) : Prop := int_min <= z <= int_max.

(** ** Bytes and strings

    A Go string is a byte string; [String.string] is a list of bytes. *)
Definition bytes (l : list N) : string :=
  foldr (fun n s => String (Ascii.ascii_of_N n) s) EmptyString l.

Definition nl : string := bytes [10%N].
Definition nul : string := bytes [0%N].
Definition dquote : string := bytes [34%N].

Fixpoint drop_prefix (p s : string) : option string :=
  match p, s with
  | EmptyString, _ => Some s
  | String a p', String b s' => if Ascii.eqb a b then drop_prefix p' s' else None
  | String _ _, EmptyString => None
  end.

(** strings.HasPrefix *)
Definition has_prefix (s p : string) : bool :=
  match drop_prefix p s with
  | Some _ => true
  | None => false
  end.

(** strings.TrimPrefix *)
Definition trim_prefix (s p : string) : string :=
  match drop_prefix p s with
  | Some rest => rest
  | None => s
  end.

(** strings.Contains *)
Fixpoint contains (s sub : string) : bool :=
  has_prefix s sub ||
  match s with
  | EmptyString => false
  | String _ s' => contains s' sub
  end.

Fixpoint str_rev_app (s acc : string) : string :=
  match s with
  | EmptyString => acc
  | String a s' => str_rev_app s' (String a acc)
  end.

Definition str_rev (s : string) : string := str_rev_app s EmptyString.

(** UTF-8 encodings of the runes for which unicode.IsSpace holds. *)
Definition space_seqs : list string :=
  map bytes
    ([[9]; [10]; [11]; [12]; [13]; [32]; [194; 133]; [194; 160]; [225; 154; 128];
      [226; 128; 128]; [226; 128; 129]; [226; 128; 130]; [226; 128; 131];
      [226; 128; 132]; [226; 128; 133]; [226; 128; 134]; [226; 128; 135];
      [226; 128; 136]; [226; 128; 137]; [226; 128; 138]; [226; 128; 168];
      [226; 128; 169]; [226; 128; 175]; [226; 129; 159]; [227; 128; 128]])%N.

Fixpoint strip_one (seqs : list string) (s : string) : option string :=
  match seqs with
  | [] => None
  | p :: rest =>
      match drop_prefix p s with
      | Some s' => Some s'
      | None => strip_one rest s
      end
  end.

(** Strips members of [seqs] from the front; [fuel] is the length of the input
    and every strip removes at least one byte. *)
Fixpoint trim_left_with (fuel : nat) (seqs : list string) (s : string) : string :=
  match fuel with
  | O => s
  | S fuel' =>
      match strip_one seqs s with
      | Some s' => trim_left_with fuel' seqs s'
      | None => s
      end
  end.

Definition trim_left (s : string) : string := trim_left_with (String.length s) space_seqs s.

Definition trim_right (s : string) : string :=
  let r := str_rev s in
  str_rev (trim_left_with (String.length r) (map str_rev space_seqs) r).

(** strings.TrimSpace *)
Definition trim_space (s : string) : string := trim_right (trim_left s).

(** [strings.TrimSpace(s) == ""] *)
Definition is_blank (s : string) : bool := String.eqb (trim_space s) "".

(** strings.Join *)
Fixpoint join (sep : string) (l : list string) : string :=
  match l with
  | [] => ""
  | [x] => x
  | x :: rest => x +:+ sep +:+ join sep rest
  end.

(** Decimal text of an integer, [fmt.Sprint] / [%d]. *)
Definition itoa (z : Z) : string := pretty z.

Definition str_len (s : string) : Z := Z.of_nat (String.length s).

(** Membership test of a string list. *)
Definition mem_str (x : string) (l : list string) : bool := existsb (String.eqb x) l.

(** ** Byte order on strings and sort.Strings *)
Definition str_le (a b : string) : Prop := String.leb a b = true.

#[global] Instance str_le_dec : RelDecision str_le.
Proof. intros a b. unfold str_le. apply _. Defined.

Definition sort_strings (l : list string) : list string := merge_sort str_le l.

(** Guarded list indexing with a machine integer, [l[i]] for [0 <= i < len l]. *)
Definition nth_z {A} (l : list A) (i : Z) : option A :=
  if i <? 0 then None else l !! Z.to_nat i.

Definition len_z {A} (l : list A) : Z := Z.of_nat (length l).

(** First index, from [i] on, whose element satisfies [p]. *)
Fixpoint find_from {A} (p : A -> bool) (i : nat) (l : list A) : option (nat * A) :=
  match l with
  | [] => None
  | x :: rest => if p x then Some (i, x) else find_from p (S i) rest
  end.

(** The element of least index, respectively greatest index, satisfying [p]:
    the forward and backward scans of the log. *)
Definition find_first {A} (p : A -> bool) (l : list A) : option A := List.find p l.
Definition find_last {A} (p : A -> bool) (l : list A) : option A := List.find p (rev l).

(** ** Opacity: string scanners never unfold on a variable. *)
#[global] Arguments trim_space : simpl never.
#[global] Arguments is_blank : simpl never.
#[global] Arguments itoa : simpl never.
#[global] Arguments wrap64 : simpl never.
#[global] Arguments String.eqb : simpl never.
#[global] Arguments contains : simpl never.
#[global] Arguments has_prefix : simpl never.

(** ** Tactics *)

(** Turns boolean string and integer tests into propositions. *)
Ltac bool_prop :=
  repeat match goal with
  | H : andb _ _ = true |- _ => apply andb_true_iff in H; destruct H
  | H : andb _ _ = false |- _ => apply andb_false_iff in H
  | H : orb _ _ = false |- _ => apply orb_false_iff in H; destruct H
  | H : orb _ _ = true |- _ => apply orb_true_iff in H
  | H : negb _ = true |- _ => apply negb_true_iff in H
  | H : negb _ = false |- _ => apply negb_false_iff in H
  | H : String.eqb _ _ = true |- _ => apply String.eqb_eq in H
  | H : String.eqb _ _ = false |- _ => apply String.eqb_neq in H
  | H : Z.eqb _ _ = true |- _ => apply Z.eqb_eq in H
  | H : Z.eqb _ _ = false |- _ => apply Z.eqb_neq in H
  | H : Z.ltb _ _ = true |- _ => apply Z.ltb_lt in H
  | H : Z.ltb _ _ = false |- _ => apply Z.ltb_ge in H
  | H : Z.leb _ _ = true |- _ => apply Z.leb_le in H
  | H : Z.leb _ _ = false |- _ => apply Z.leb_gt in H
  end.

Lemma ok_inj {E A} (a b : A) : @Ok E A a = Ok b -> a = b.
Proof. by intros [=]. Qed.

Lemma err_inj {E A} (a b : E) : @Err E A a = Err b -> a = b.
Proof. by intros [=]. Qed.

(** Inverts a successful (or failed) run of fallible code: opens the guards and
    binds of [H : c = Ok _] / [H : c = Err _] one at a time and closes the
    branches that end the other way. *)
Ltac run_step H :=
  lazymatch type of H with
  | Ok _ = Ok _ => apply ok_inj in H
  | Err _ = Err _ => apply err_inj in H
  | Ok _ = Err _ => discriminate H
  | Err _ = Ok _ => discriminate H
  | mbind ?f ?c = ?r =>
      let E := fresh "Hrun" in
      change (match c with Ok a => f a | Err e => Err e end = r) in H;
      destruct c eqn:E; try discriminate H; cbn beta in H
  | (if ?b then _ else _) = _ =>
      let E := fresh "Hguard" in destruct b eqn:E; try discriminate H
  | (match ?x with _ => _ end) = _ =>
      let E := fresh "Hcase" in destruct x eqn:E; try discriminate H
  end.

Ltac run_inv H := repeat (run_step H).

(** ** Generic lemmas *)

Lemma bind_ok {E A B} (f : A -> result E B) (c : result E A) b :
  mbind f c = Ok b -> exists a, c = Ok a /\ f a = Ok b.
Proof. destruct c; simpl; [eauto | discriminate]. Qed.

Lemma wrap64_id z : in_int z -> wrap64 z = z.
Proof.
  unfold in_int, int_min, int_max, wrap64. intros H.
  rewrite Z.mod_small; lia.
Qed.

Lemma wrap64_range z : in_int (wrap64 z).
Proof.
  unfold in_int, int_min, int_max, wrap64.
  pose proof (Z.mod_pos_bound (z + 2 ^ 63) (2 ^ 64) ltac:(lia)). lia.
Qed.

Lemma drop_prefix_spec p s r : drop_prefix p s = Some r <-> s = p +:+ r.
Proof.
  revert s. induction p as [|a p IH]; intros [|b s]; simpl.
  - split; [by intros [= <-] | by intros ->].
  - split; [by intros [= <-] | by intros ->].
  - split; discriminate.
  - destruct (Ascii.eqb_spec a b) as [->|Hne].
    + rewrite IH. split; [by intros -> | by intros [= ->]].
    + split; [discriminate | by intros [= -> _]].
Qed.

Lemma has_prefix_spec s p : has_prefix s p = true <-> exists r, s = p +:+ r.
Proof.
  unfold has_prefix. destruct (drop_prefix p s) as [r|] eqn:E.
  - split; [|done]. intros _. exists r. by apply drop_prefix_spec.
  - split; [done|]. intros [r Hr]. apply drop_prefix_spec in Hr. congruence.
Qed.

(** *** Trimming *)

Lemma str_app_cons x (a b : string) : String x a +:+ b = String x (a +:+ b).
Proof. reflexivity. Qed.

Lemma str_app_assoc (a b c : string) : (a +:+ b) +:+ c = a +:+ b +:+ c.
Proof. induction a as [|x a IH]; [done|]. by rewrite !str_app_cons, IH. Qed.

Lemma str_app_nil_r (a : string) : a +:+ "" = a.
Proof. induction a as [|x a IH]; [done|]. by rewrite str_app_cons, IH. Qed.

Lemma str_rev_app_acc s acc : str_rev_app s acc = str_rev s +:+ acc.
Proof.
  unfold str_rev. revert acc. induction s as [|a s IH]; intros acc; [done|]. simpl.
  by rewrite (IH (String a acc)), (IH (String a "")), str_app_assoc.
Qed.

Lemma str_rev_cons a s : str_rev (String a s) = str_rev s +:+ String a "".
Proof. unfold str_rev at 1. simpl. apply str_rev_app_acc. Qed.

Lemma str_rev_app_distr s t : str_rev (s +:+ t) = str_rev t +:+ str_rev s.
Proof.
  induction s as [|a s IH]; [by rewrite str_app_nil_r|].
  by rewrite str_app_cons, !str_rev_cons, IH, str_app_assoc.
Qed.

Lemma str_rev_involutive s : str_rev (str_rev s) = s.
Proof. induction s as [|a s IH]; [done|]. by rewrite str_rev_cons, str_rev_app_distr, IH. Qed.

Lemma strip_one_None seqs s : strip_one seqs s = None <-> Forall (fun p => drop_prefix p s = None) seqs.
Proof.
  induction seqs as [|p seqs IH]; simpl; [done|]. rewrite Forall_cons, <- IH.
  destruct (drop_prefix p s); split; [done | by intros [? _] | done | by intros [_ ?]].
Qed.

Lemma strip_one_prefix seqs s t : strip_one seqs (s +:+ t) = None -> strip_one seqs s = None.
Proof.
  rewrite !strip_one_None. intros H. eapply Forall_impl; [exact H|]. intros p Hp. cbn beta in *.
  destruct (drop_prefix p s) as [r|] eqn:E; [|done]. apply drop_prefix_spec in E as ->.
  rewrite str_app_assoc, (proj2 (drop_prefix_spec p _ (r +:+ t))) in Hp; done.
Qed.

Lemma strip_one_Some seqs s s' :
  Forall (fun p => p <> "") seqs -> strip_one seqs s = Some s' ->
  exists p, s = p +:+ s' /\ (String.length s' < String.length s)%nat.
Proof.
  induction 1 as [|p seqs Hp _ IH]; simpl; [done|]. destruct (drop_prefix p s) as [r|] eqn:E; [|by apply IH].
  intros [= <-]. apply drop_prefix_spec in E as ->. exists p. split; [done|].
  destruct p as [|a p]; [done|]. rewrite str_app_cons. simpl. clear. induction p as [|b p IH]; [change ("" +:+ r) with r; lia|].
  rewrite str_app_cons. simpl. lia.
Qed.

Lemma trim_left_with_stop seqs fuel s :
  Forall (fun p => p <> "") seqs -> (String.length s <= fuel)%nat ->
  exists p, s = p +:+ trim_left_with fuel seqs s /\ strip_one seqs (trim_left_with fuel seqs s) = None.
Proof.
  intros Hs. revert s. induction fuel as [|fuel IH]; intros s Hl; simpl.
  - destruct s; [|simpl in Hl; lia]. exists "". split; [done|]. apply strip_one_None.
    eapply Forall_impl; [exact Hs|]. intros [|a p]; done.
  - destruct (strip_one seqs s) as [s'|] eqn:E; [|by exists ""].
    destruct (strip_one_Some _ _ _ Hs E) as (p & -> & Hlt).
    destruct (IH s') as (q & Hq & Hn); [lia|]. exists (p +:+ q). split; [|done]. rewrite str_app_assoc. by rewrite <- Hq.
Qed.

Lemma trim_left_with_id seqs fuel s : strip_one seqs s = None -> trim_left_with fuel seqs s = s.
Proof. destruct fuel; simpl; [done|]. by intros ->. Qed.

Lemma trim_space_idemp s : trim_space (trim_space s) = trim_space s.
Proof.
  assert (Hne : Forall (fun p => p <> "") space_seqs) by (repeat constructor; discriminate).
  assert (Hner : Forall (fun p => p <> "") (map str_rev space_seqs)) by (repeat constructor; discriminate).
  unfold trim_space, trim_right. cbv zeta.
  destruct (trim_left_with_stop _ _ s Hne (le_n _)) as (p & _ & Hl). fold (trim_left s) in Hl.
  destruct (trim_left_with_stop _ _ (str_rev (trim_left s)) Hner (le_n _)) as (q & Hq & Hr).
  set (r := trim_left_with _ _ (str_rev (trim_left s))) in *.
  assert (Hlr : strip_one space_seqs (str_rev r) = None).
  { apply (strip_one_prefix _ _ (str_rev q)). rewrite <- str_rev_app_distr, <- Hq. by rewrite str_rev_involutive. }
  assert (Hid : trim_left (str_rev r) = str_rev r) by by apply trim_left_with_id.
  by rewrite Hid, str_rev_involutive, trim_left_with_id.
Qed.

Lemma mem_str_spec x l : mem_str x l = true <-> x ∈ l.
Proof.
  unfold mem_str. rewrite existsb_exists. split.
  - intros (y & Hy & Heq). apply String.eqb_eq in Heq as ->. by apply list_elem_of_In.
  - intros Hx. exists x. split; [by apply list_elem_of_In | apply String.eqb_refl].
Qed.

Lemma find_from_spec {A} (p : A -> bool) i l j x :
  find_from p i l = Some (j, x) ->
  (i <= j)%nat /\ l !! (j - i)%nat = Some x /\ p x = true /\
  forall k y, (k < j - i)%nat -> l !! k = Some y -> p y = false.
Proof.
  revert i. induction l as [|a l IH]; intros i; simpl; [discriminate|].
  destruct (p a) eqn:Hp.
  - intros [= <- <-]. rewrite Nat.sub_diag. repeat split; try done; lia.
  - intros H. apply IH in H as (Hle & Hl & Hpx & Hmin).
    replace (j - i)%nat with (S (j - S i)) by lia. simpl.
    repeat split; try done; [lia|].
    intros [|k] y Hk Hy; simpl in Hy; [congruence | apply (Hmin k); [lia | done]].
Qed.

Lemma find_from_none {A} (p : A -> bool) i l :
  find_from p i l = None <-> forall x, x ∈ l -> p x = false.
Proof.
  revert i. induction l as [|a l IH]; intros i; simpl.
  - split; [intros _ x Hx; set_solver | done].
  - destruct (p a) eqn:Hp.
    + split; [discriminate|]. intros H. rewrite (H a) in Hp; [discriminate | set_solver].
    + rewrite IH. split; [|set_solver].
      intros H x Hx. apply elem_of_cons in Hx as [->|Hx]; auto.
Qed.

Lemma find_from_app_l {A} (p : A -> bool) i l1 l2 r :
  find_from p i l1 = Some r -> find_from p i (l1 ++ l2) = Some r.
Proof.
  revert i. induction l1 as [|a l1 IH]; intros i; simpl; [discriminate|].
  destruct (p a); auto.
Qed.

Lemma find_last_app {A} (p : A -> bool) l x :
  find_last p (l ++ [x]) = if p x then Some x else find_last p l.
Proof. unfold find_last. rewrite rev_app_distr. simpl. by destruct (p x). Qed.

Lemma find_last_Some {A} (p : A -> bool) l x :
  find_last p l = Some x -> x ∈ l /\ p x = true.
Proof.
  unfold find_last. intros H. apply find_some in H as [Hin Hp].
  split; [|done]. apply list_elem_of_In. by apply in_rev.
Qed.

Lemma find_last_None {A} (p : A -> bool) l :
  find_last p l = None <-> forall x, x ∈ l -> p x = false.
Proof.
  unfold find_last. split.
  - intros H x Hx. eapply find_none in H; [exact H|].
    apply in_rev. rewrite rev_involutive. by apply list_elem_of_In.
  - intros H. destruct (List.find p (rev l)) as [x|] eqn:E; [|done].
    apply find_some in E as [Hin Hp]. apply in_rev in Hin.
    rewrite (H x) in Hp; [done | by apply list_elem_of_In].
Qed.

Lemma find_last_app_none {A} (p : A -> bool) l l' :
  (forall x, x ∈ l' -> p x = false) -> find_last p (l ++ l') = find_last p l.
Proof.
  induction l' as [|y l' IH] using rev_ind; intros H; [by rewrite app_nil_r|].
  rewrite app_assoc, find_last_app, (H y) by set_solver. apply IH. intros x Hx. apply H. set_solver.
Qed.

(** The last match splits the list: nothing after it matches. *)
Lemma find_last_split {A} (p : A -> bool) l x :
  find_last p l = Some x -> exists l1 l2, l = l1 ++ x :: l2 /\ p x = true /\ forall y, y ∈ l2 -> p y = false.
Proof.
  induction l as [|y l IH] using rev_ind; [done|]. rewrite find_last_app.
  destruct (p y) eqn:Hy.
  - intros [= ->]. exists l, []. split; [done|]. split; [done|]. intros z Hz. by apply elem_of_nil in Hz.
  - intros H. destruct (IH H) as (l1 & l2 & -> & Hx & Hl2). exists l1, (l2 ++ [y]).
    split; [by rewrite <- app_assoc|]. split; [done|].
    intros z [Hz|Hz%list_elem_of_singleton]%elem_of_app; [by apply Hl2 | by subst].
Qed.

(** A match among the first [i] elements, by its position. *)
Lemma existsb_take {A} (p : A -> bool) i l :
  existsb p (take i l) = true <-> exists j x, (j < i)%nat /\ l !! j = Some x /\ p x = true.
Proof.
  rewrite existsb_exists. split.
  - intros (x & Hx & Hp). apply list_elem_of_In, list_elem_of_lookup in Hx as [j Hj].
    apply lookup_take_Some in Hj as [Hj Hlt]. by exists j, x.
  - intros (j & x & Hlt & Hj & Hp). exists x. split; [|done].
    apply list_elem_of_In, list_elem_of_lookup. exists j. by rewrite lookup_take_lt.
Qed.

Lemma nth_z_lookup {A} (l : list A) i x :
  nth_z l i = Some x <-> 0 <= i /\ l !! Z.to_nat i = Some x.
Proof.
  unfold nth_z. destruct (Z.ltb_spec i 0); split; intros; try lia; try done;
    try (by destruct_and?); split; auto; lia.
Qed.

(** *** Order on strings *)

Lemma str_compare_refl s : String.compare s s = Eq.
Proof. induction s as [|a s IH]; simpl; [done|]. unfold Ascii.compare. by rewrite N.compare_refl. Qed.

Lemma str_leb_cons a s b t :
  String.leb (String a s) (String b t) = true <->
  (Ascii.N_of_ascii a < Ascii.N_of_ascii b)%N \/ (a = b /\ String.leb s t = true).
Proof.
  unfold String.leb. simpl. unfold Ascii.compare.
  destruct (N.compare_spec (Ascii.N_of_ascii a) (Ascii.N_of_ascii b)) as [He|Hlt|Hgt].
  - assert (a = b) as ->.
    { rewrite <- (Ascii.ascii_N_embedding a), <- (Ascii.ascii_N_embedding b). by rewrite He. }
    split; [intros H; right; auto | intros [H|[_ H]]; [lia|done]].
  - split; auto.
  - split; [discriminate|]. intros [H|[-> _]]; lia.
Qed.

#[global] Instance str_le_preorder : PreOrder str_le.
Proof.
  split.
  - intros s. unfold str_le, String.leb. by rewrite str_compare_refl.
  - intros s. unfold str_le. induction s as [|a s IH]; intros [|b t] [|c u] H1 H2; try done.
    apply str_leb_cons in H1. apply str_leb_cons in H2. apply str_leb_cons.
    destruct H1 as [H1|[-> H1]], H2 as [H2|[-> H2]]; [left; lia.. | left; lia | ].
    right. eauto.
Qed.

#[global] Instance str_le_total : Total str_le.
Proof. intros a b. apply String.leb_total. Qed.

#[global] Instance str_le_antisymm : AntiSymm eq str_le.
Proof. intros a b. apply String.leb_antisym. Qed.

Lemma sort_strings_sorted l : Sorted str_le (sort_strings l).
Proof. apply (Sorted_merge_sort str_le). Qed.

Lemma sort_strings_perm l : sort_strings l ≡ₚ l.
Proof. apply merge_sort_Permutation. Qed.

(** Two lists of strings sort to the same list exactly when they are permutations. *)
Lemma sort_strings_unique l1 l2 : l1 ≡ₚ l2 <-> sort_strings l1 = sort_strings l2.
Proof.
  split.
  - intros H. apply (Sorted_unique str_le); try apply sort_strings_sorted.
    by rewrite !sort_strings_perm.
  - intros H. rewrite <- (sort_strings_perm l1), <- (sort_strings_perm l2). by rewrite H.
Qed.

Lemma sort_strings_idemp l : sort_strings (sort_strings l) = sort_strings l.
Proof. apply sort_strings_unique, sort_strings_perm. Qed.

Lemma elem_of_sort_strings x l : x ∈ sort_strings l <-> x ∈ l.
Proof. by rewrite sort_strings_perm. Qed.

(** ** Hints shared by the components *)
Create HintDb atn discriminated.
#[export] Hint Resolve sort_strings_sorted sort_strings_perm wrap64_range : atn.
#[export] Hint Rewrite @find_last_app sort_strings_idemp String.eqb_refl : atn.
