(* ===== verification/Paths.v ===== *)
(** * Lexical paths (path/filepath on Unix)

    [Clean], [Join], [Base], [Dir] and [IsAbs] work on text alone; they decide
    which directory a session, a cursor or a wrapper lies in. *)

From S2P Require Import Prelude.

Fixpoint split_slash (s : string) : list string :=
  match s with
  | EmptyString => [""]
  | String a rest =>
      if (Ascii.N_of_ascii a =? 47)%N then "" :: split_slash rest
      else
        match split_slash rest with
        | p :: ps => String a p :: ps
        | [] => [String a ""]
        end
  end.

(** One component after the cleaned ones, which are kept in reverse. *)
Definition clean_part (rooted : bool) (acc : list string) (part : string) : list string :=
  if (part == "") || (part == ".") then acc
  else if part == ".." then
    match acc with
    | [] => if rooted then [] else [".."]
    | p :: ps => if p == ".." then ".." :: acc else ps
    end
  else part :: acc.

Definition IsAbs (path : string) : bool := has_prefix path "/".

Definition clean_parts (path : string) : list string :=
  rev (foldl (clean_part (IsAbs path)) [] (split_slash path)).

Definition Clean (path : string) : string :=
  let text := join "/" (clean_parts path) in
  if IsAbs path then "/" +:+ text else if text == "" then "." else text.

Fixpoint Join (elems : list string) : string :=
  match elems with
  | [] => ""
  | e :: rest => if e == "" then Join rest else Clean (join "/" elems)
  end.

(** The text without its trailing separators, its last component, and what
    precedes that. *)
Fixpoint strip_slashes (s : string) : string :=
  match s with
  | EmptyString => ""
  | String a rest =>
      let r := strip_slashes rest in
      if (r == "") && (Ascii.N_of_ascii a =? 47)%N then "" else String a r
  end.

Definition Base (path : string) : string :=
  if path == "" then "."
  else
    let s := strip_slashes path in
    if s == "" then "/" else List.last (split_slash s) "".

(** [path[:LastIndex("/")+1]], cleaned *)
Definition Dir (path : string) : string :=
  match rev (split_slash path) with
  | _ :: front => Clean (match front with [] => "" | _ => join "/" (rev front) +:+ "/" end)
  | [] => "."
  end.

(** ids.go [pathContains], wrapper.go [containingAllowlistRoot] for one root. *)
Definition pathContains (root path : string) : bool :=
  let cleanRoot := Clean root in
  let cleanPath := Clean path in
  (cleanPath == cleanRoot)
  || has_prefix cleanPath (if cleanRoot == "/" then cleanRoot else cleanRoot +:+ "/").

#[global] Arguments Clean : simpl never.
#[global] Arguments Join : simpl never.

Example clean_examples :
  map Clean ["/a/./b//c/"; "/../x"; "a/../.."; ""; "/"; "a/b/../c"; "../a"] = ["/a/b/c"; "/x"; ".."; "."; "/"; "a/c"; "../a"] /\
  map Base ["/a/b"; "a"; "a/"; "/"; ""; ".."] = ["b"; "a"; "a"; "/"; "."; ".."] /\
  map Dir ["/a/b"; "a"; "/a"; "a/b/"] = ["/a"; "."; "/"; "a/b"] /\
  Join ["/r"; ".."; "x.cursor"] = "/x.cursor" /\ Join [""; "a"; ""; "b"] = "a/b".
Proof. vm_compute. done. Qed.

(** ** Lemmas *)

(** A component of a cleaned absolute path. *)
Definition plain_part (p : string) : Prop := p <> "" /\ p <> "." /\ p <> ".." /\ contains p "/" = false.

Definition no_slash (p : string) : bool := negb (contains p "/").

Lemma contains_slash_cons a s : contains (String a s) "/" = (Ascii.N_of_ascii a =? 47)%N || contains s "/".
Proof.
  change (contains (String a s) "/") with (has_prefix (String a s) "/" || contains s "/"). f_equal.
  unfold has_prefix. simpl. destruct (N.eqb_spec (Ascii.N_of_ascii a) 47) as [E|E].
  - rewrite <- (Ascii.ascii_N_embedding a), E. done.
  - destruct (Ascii.eqb_spec (Ascii.ascii_of_N 47) a) as [<-|Hne]; [done|]. by apply Ascii.eqb_neq in Hne; simpl in Hne; rewrite Hne.
Qed.

Lemma split_slash_parts s : Forall (fun p => contains p "/" = false) (split_slash s).
Proof.
  induction s as [|a s IH]; [by repeat constructor|]. simpl.
  destruct (Ascii.N_of_ascii a =? 47)%N eqn:E; [by constructor|].
  destruct IH as [|p ps Hp Hps]; constructor; try done; by rewrite contains_slash_cons, E.
Qed.

Lemma clean_fold_rooted parts acc :
  Forall (fun p => contains p "/" = false) parts -> Forall plain_part acc ->
  Forall plain_part (foldl (clean_part true) acc parts).
Proof.
  intros Hp. revert acc. induction Hp as [|p parts Hp _ IH]; intros acc Hacc; [done|]. simpl. apply IH.
  unfold clean_part. destruct (_ || _) eqn:E1; [done|]. bool_prop.
  destruct (String.eqb_spec p "..") as [->|Hne].
  - destruct Hacc as [|q acc (? & ? & Hq & ?) Hacc]; [constructor|].
    apply String.eqb_neq in Hq as ->. done.
  - constructor; [done|]. done.
Qed.

(** Cleaning resolves every dot component of an absolute path. *)
Lemma clean_parts_plain path : IsAbs path = true -> Forall plain_part (clean_parts path).
Proof.
  intros H. unfold clean_parts. rewrite H. apply Forall_rev, clean_fold_rooted; [apply split_slash_parts | constructor].
Qed.

Lemma split_slash_app p s : contains p "/" = false -> split_slash (p +:+ "/" +:+ s) = p :: split_slash s.
Proof.
  induction p as [|a p IH]; intros H; [done|]. rewrite contains_slash_cons in H. apply orb_false_iff in H as [Ha Hp].
  rewrite str_app_cons. simpl. by rewrite Ha, IH.
Qed.

Lemma split_slash_one p : contains p "/" = false -> split_slash p = [p].
Proof.
  induction p as [|a p IH]; intros H; [done|]. rewrite contains_slash_cons in H. apply orb_false_iff in H as [Ha Hp].
  simpl. by rewrite Ha, IH.
Qed.

Lemma split_join p ps : Forall (fun q => contains q "/" = false) (p :: ps) -> split_slash (join "/" (p :: ps)) = p :: ps.
Proof.
  revert p. induction ps as [|q ps IH]; intros p H; inversion H as [|? ? Hp Hps]; subst.
  - by apply split_slash_one.
  - change (join "/" (p :: q :: ps)) with (p +:+ "/" +:+ join "/" (q :: ps)). by rewrite split_slash_app, IH.
Qed.

Lemma join_app p ps q qs : join "/" ((p :: ps) ++ q :: qs) = join "/" (p :: ps) +:+ "/" +:+ join "/" (q :: qs).
Proof.
  revert p. induction ps as [|x ps IH]; intros p; [done|].
  change (join "/" ((p :: x :: ps) ++ q :: qs)) with (p +:+ "/" +:+ join "/" ((x :: ps) ++ q :: qs)).
  rewrite IH. change (join "/" (p :: x :: ps)) with (p +:+ "/" +:+ join "/" (x :: ps)). by rewrite !str_app_assoc.
Qed.

Lemma plain_parts_no_slash l : Forall plain_part l -> Forall (fun q => contains q "/" = false) l.
Proof. intros H. eapply Forall_impl; [exact H|]. by intros q (_ & _ & _ & ?). Qed.

(** Text containment with a separator is containment of components. *)
Lemma join_prefix_parts ps qs rest :
  Forall plain_part ps -> Forall plain_part qs -> ps <> [] ->
  join "/" qs = join "/" ps +:+ "/" +:+ rest -> ps `prefix_of` qs.
Proof.
  intros Hps Hqs Hne Heq. destruct ps as [|p ps]; [done|].
  destruct qs as [|q qs].
  - exfalso. change (join "/" []) with "" in Heq. destruct (join "/" (p :: ps)) as [|a t]; [discriminate Heq|].
    rewrite str_app_cons in Heq. discriminate Heq.
  - apply (f_equal split_slash) in Heq. rewrite split_join in Heq by by apply plain_parts_no_slash.
    rewrite Heq. clear -Hps. apply plain_parts_no_slash in Hps. revert p Hps.
    induction ps as [|x ps IH]; intros p Hps; inversion Hps; subst.
    + rewrite split_slash_app by done. by exists (split_slash rest).
    + change (join "/" (p :: x :: ps)) with (p +:+ "/" +:+ join "/" (x :: ps)).
      rewrite !str_app_assoc, split_slash_app by done. by apply prefix_cons, IH.
Qed.

Lemma clean_abs path : IsAbs path = true -> Clean path = "/" +:+ join "/" (clean_parts path).
Proof. unfold Clean. by intros ->. Qed.

Lemma foldl_plain ps acc : Forall plain_part ps -> foldl (clean_part true) acc ps = rev ps ++ acc.
Proof.
  intros H. revert acc. induction H as [|p ps (H1 & H2 & H3 & _) _ IH]; intros acc; [done|]. simpl. rewrite IH.
  unfold clean_part. apply String.eqb_neq in H1, H2, H3. rewrite H1, H2, H3. cbn [orb]. by rewrite <- app_assoc.
Qed.

Lemma IsAbs_slash s : IsAbs ("/" +:+ s) = true.
Proof. apply has_prefix_spec. by exists s. Qed.

Lemma clean_abs_parts ps : Forall plain_part ps -> clean_parts ("/" +:+ join "/" ps) = ps.
Proof.
  intros H. unfold clean_parts. rewrite IsAbs_slash.
  change (split_slash ("/" +:+ join "/" ps)) with ("" :: split_slash (join "/" ps)). simpl foldl.
  destruct ps as [|p ps]; [done|].
  rewrite split_join by (by apply plain_parts_no_slash). by rewrite foldl_plain, app_nil_r, rev_involutive.
Qed.

(** Cleaning an absolute path again changes nothing. *)
Lemma clean_idemp path : IsAbs path = true -> Clean (Clean path) = Clean path.
Proof.
  intros H. rewrite (clean_abs path H), clean_abs by apply IsAbs_slash.
  by rewrite clean_abs_parts by (by apply clean_parts_plain).
Qed.

Lemma IsAbs_clean path : IsAbs path = true -> IsAbs (Clean path) = true.
Proof. intros H. rewrite (clean_abs path H). apply IsAbs_slash. Qed.

Lemma IsAbs_app p s : IsAbs p = true -> IsAbs (p +:+ s) = true.
Proof. intros H. apply has_prefix_spec in H as [r ->]. rewrite str_app_assoc. apply IsAbs_slash. Qed.

Lemma IsAbs_ne p : IsAbs p = true -> p <> "".
Proof. by intros H ->. Qed.

(** Joining to an absolute path gives a clean absolute path. *)
Lemma join_abs root elems : IsAbs root = true -> exists p, IsAbs p = true /\ Join (root :: elems) = Clean p.
Proof.
  intros H. exists (join "/" (root :: elems)). split.
  - destruct elems; [done|]. by apply IsAbs_app.
  - unfold Join. apply IsAbs_ne, String.eqb_neq in H as ->. done.
Qed.

Lemma split_slash_cons s : exists p ps, split_slash s = p :: ps.
Proof.
  destruct s as [|a s]; simpl; [eauto|]. destruct (_ =? _)%N; [eauto|]. destruct (split_slash s); eauto.
Qed.

Lemma IsAbs_dir path : IsAbs path = true -> IsAbs (Dir path) = true.
Proof.
  intros H. apply has_prefix_spec in H as [s ->]. unfold Dir.
  change (split_slash ("/" +:+ s)) with ("" :: split_slash s). destruct (split_slash_cons s) as (p & ps & Hs).
  destruct (rev (split_slash s)) as [|x front] eqn:Er.
  { apply (f_equal (@length string)) in Er. rewrite length_rev, Hs in Er. discriminate. }
  cbn [rev]. rewrite Er. cbn [app]. destruct (front ++ [""]) as [|y l] eqn:El; [by destruct front|].
  rewrite <- El, rev_app_distr. cbn [rev app]. apply IsAbs_clean. destruct (rev front) as [|z zs]; [done|].
  change (join "/" ("" :: z :: zs)) with ("/" +:+ join "/" (z :: zs)). apply IsAbs_app, IsAbs_slash.
Qed.

(** A path that an absolute root contains lies below it, component by
    component: no dot component is left that could climb out. *)
Lemma pathContains_parts root path :
  IsAbs root = true -> IsAbs path = true -> pathContains root path = true ->
  clean_parts root `prefix_of` clean_parts path /\ Forall plain_part (clean_parts path).
Proof.
  intros Hr Hp H. pose proof (clean_parts_plain _ Hr) as Hpr. pose proof (clean_parts_plain _ Hp) as Hpp.
  split; [|done]. unfold pathContains in H. rewrite !clean_abs in H by done. apply orb_true_iff in H as [H|H].
  - apply String.eqb_eq in H. injection H as H. destruct (clean_parts root) as [|p ps]; [apply prefix_nil|].
    destruct (clean_parts path) as [|q qs].
    + exfalso. simpl in H. inversion Hpr as [|? ? (Hne & _) _]; subst. destruct ps; [by subst|]. by destruct p.
    + change (join "/" (p :: ps)) with ("" +:+ join "/" (p :: ps)) in H.
      assert (H' : join "/" (q :: qs) = join "/" (p :: ps)) by exact H. clear H. rename H' into H.
      apply (f_equal split_slash) in H. rewrite !split_join in H by by apply plain_parts_no_slash. by rewrite H.
  - destruct (clean_parts root) as [|p ps] eqn:Er; [apply prefix_nil|].
    replace ("/" +:+ join "/" (p :: ps) == "/") with false in H.
    + apply has_prefix_spec in H as [rest H]. injection H as H.
      assert (H' : join "/" (clean_parts path) = (join "/" (p :: ps) +:+ "/") +:+ rest) by exact H.
      apply (join_prefix_parts _ _ rest); try done. by rewrite H', str_app_assoc.
    + symmetry. apply String.eqb_neq. intros E. injection E as E. inversion Hpr as [|? ? (Hne & _) _]; subst.
      destruct ps; [by subst|]. by destruct p.
Qed.
