(* ===== verification/GoValue.v ===== *)
(** * Go interface values, their JSON texts, and the payload accessors

    Event payloads are [map[string]any].  An [any] holds either a value the
    daemon built in memory ([int], [[]string], a pointer to a struct) or one
    that encoding/json decoded ([float64], [[]any], [map[string]any]); the
    accessors of projection.go, events.go, stream.go and transcript.go
    distinguish the two, and so does this type.  [json_text] is json.Marshal,
    [json_norm] is the value json.Unmarshal gives back for that text.

    Strings are taken to be valid UTF-8, as encoding/json and yaml deliver them. *)

From S2P Require Import Prelude.

(** ** Values *)
Inductive any : Type :=
| ANil                                  (* nil *)
| ABool (b : bool)                      (* bool *)
| AInt (z : Z)                          (* int, int64 *)
| AFloat (m e : Z)                      (* float64, the value [m * 2^e] *)
| AStr (s : string)                     (* string *)
| AStrs (l : list string)               (* []string *)
| AList (l : list any)                  (* []any *)
| AMap (m : gmap string any)            (* map[string]any *)
| AMaps (l : list (gmap string any))    (* []map[string]any *)
| AStruct (fields : list (string * any)) (* pointer to a struct: its emitted JSON fields in order *).

Abbreviation payload := (gmap string any).

(** ** float64 *)

(** [n / d] rounded to the nearest integer, ties to even. *)
Definition rdiv_even (n d : Z) : Z :=
  let q := n / d in
  let r := n mod d in
  if 2 * r <? d then q
  else if (2 * r =? d) && Z.even q then q
  else q + 1.

(** The binary64 nearest to [n / d] for positive [n] and [d]. *)
Definition f64_round (n d : Z) : Z * Z :=
  let at_exp e := if 0 <=? e then (n, d * 2 ^ e) else (n * 2 ^ (- e), d) in
  let e0 := Z.log2 n - Z.log2 d - 53 in
  let e1 := if 2 ^ 53 <=? fst (at_exp e0) / snd (at_exp e0) then e0 + 1 else e0 in
  let e := Z.max e1 (- 1074) in
  (rdiv_even (fst (at_exp e)) (snd (at_exp e)), e).

(** float64(z) *)
Definition float_of_int (z : Z) : any :=
  if Z.abs z <=? 2 ^ 53 then AFloat z 0
  else let r := f64_round (Z.abs z) 1 in AFloat (Z.sgn z * fst r) (snd r).

(** The float as an integer ratio. *)
Definition float_num (m e : Z) : Z := if 0 <=? e then m * 2 ^ e else m.
Definition float_den (e : Z) : Z := if 0 <=? e then 1 else 2 ^ (- e).

(** int(f): truncation; out of range the amd64 conversion yields the least int. *)
Definition int_of_float (m e : Z) : Z :=
  let t := Z.quot (float_num m e) (float_den e) in
  if (int_min <=? t) && (t <=? int_max) then t else int_min.

Definition float_integral (m e : Z) : option Z :=
  if float_num m e mod float_den e =? 0 then Some (float_num m e / float_den e) else None.

(** Decimal exponent [k] with [10^(k-1) <= n/d < 10^k]. *)
Definition dec_exp (n d : Z) : Z :=
  let guess := (Z.log2 n - Z.log2 d) * 30103 / 100000 in
  let ge k := if 0 <=? k then d * 10 ^ k <=? n else d <=? n * 10 ^ (- k) in
  if ge (guess + 1) then guess + 2
  else if ge guess then guess + 1
  else if ge (guess - 1) then guess
  else guess - 1.

(** Shortest decimal digits that read back as the same float, tried from one
    digit on; seventeen always suffice. *)
Fixpoint shortest_digits (fuel : nat) (digits n d k : Z) : Z * Z :=
  let s := k - digits in
  let c := if 0 <=? s then rdiv_even n (d * 10 ^ s) else rdiv_even (n * 10 ^ (- s)) d in
  match fuel with
  | O => (c, digits)
  | S fuel' =>
      let back := if 0 <=? s then f64_round (c * 10 ^ s) 1 else f64_round c (10 ^ (- s)) in
      if float_num (fst back) (snd back) * d =? n * float_den (snd back) then (c, digits)
      else shortest_digits fuel' (digits + 1) n d k
  end.

Fixpoint zeros (n : nat) : string :=
  match n with
  | O => ""
  | S n' => "0" +:+ zeros n'
  end.

(** Text of the positive float [n/d]: digits [ds] with the point after [k] of
    them.  [pad2] is fmt's two-digit exponent; encoding/json strips the zero of
    a negative one. *)
Definition float_text_pos (lo hi : Z) (pad_neg : bool) (n d : Z) : string :=
  let k0 := dec_exp n d in
  let cd := shortest_digits 16 1 n d k0 in
  let ds := itoa (fst cd) in
  let k := k0 + (str_len ds - snd cd) in
  if (k - 1 <? lo) || (hi <=? k - 1) then
    let x := k - 1 in
    let mant := match ds with
                | String a EmptyString => ds
                | String a rest => String a ("." +:+ rest)
                | EmptyString => ds
                end in
    let ax := Z.abs x in
    let pad := if (ax <? 10) && ((0 <=? x) || pad_neg) then "0" else "" in
    mant +:+ "e" +:+ (if x <? 0 then "-" else "+") +:+ pad +:+ itoa ax
  else if k <=? 0 then "0." +:+ zeros (Z.to_nat (- k)) +:+ ds
  else if str_len ds <=? k then ds +:+ zeros (Z.to_nat (k - str_len ds))
  else String.substring 0 (Z.to_nat k) ds +:+ "." +:+
       String.substring (Z.to_nat k) (String.length ds) ds.

Definition float_text (lo hi : Z) (pad_neg : bool) (m e : Z) : string :=
  match float_integral m e with
  | Some z => if Z.abs z <=? 2 ^ 53 then itoa z
              else (if m <? 0 then "-" else "") +:+
                   float_text_pos lo hi pad_neg (Z.abs (float_num m e)) (float_den e)
  | None => (if m <? 0 then "-" else "") +:+
            float_text_pos lo hi pad_neg (Z.abs (float_num m e)) (float_den e)
  end.

(** encoding/json: exponent form below 1e-6 and from 1e21. *)
Definition json_float : Z -> Z -> string := float_text (-6) 21 false.
(** fmt %v: exponent form below 1e-4 and from 1e21. *)
Definition fmt_float : Z -> Z -> string := float_text (-4) 21 true.

(** ** json.Marshal *)

Definition hex_digit (n : N) : string :=
  String.substring (N.to_nat n) 1 "0123456789abcdef".

(** A backslash followed by [s]. *)
Definition esc (s : string) : string := bytes [92%N] +:+ s.

Definition json_escape_char (n : N) : string :=
  if (n =? 34)%N then esc dquote
  else if (n =? 92)%N then esc (bytes [92%N])
  else if (n =? 8)%N then esc "b"
  else if (n =? 12)%N then esc "f"
  else if (n =? 10)%N then esc "n"
  else if (n =? 13)%N then esc "r"
  else if (n =? 9)%N then esc "t"
  else if (n <? 32)%N || (n =? 60)%N || (n =? 62)%N || (n =? 38)%N
       then esc ("u00" +:+ hex_digit (n / 16) +:+ hex_digit (n mod 16))
  else bytes [n].

(** encoding/json's string escaping, HTML escaping on; U+2028 and U+2029
    (E2 80 A8, E2 80 A9) are escaped too. *)
Fixpoint json_escape (s : string) : string :=
  match s with
  | EmptyString => ""
  | String a ((String b (String c rest)) as tail) =>
      if (Ascii.N_of_ascii a =? 226)%N && (Ascii.N_of_ascii b =? 128)%N
         && ((Ascii.N_of_ascii c =? 168)%N || (Ascii.N_of_ascii c =? 169)%N)
      then esc (if (Ascii.N_of_ascii c =? 168)%N then "u2028" else "u2029") +:+ json_escape rest
      else json_escape_char (Ascii.N_of_ascii a) +:+ json_escape tail
  | String a tail => json_escape_char (Ascii.N_of_ascii a) +:+ json_escape tail
  end.

Definition json_string (s : string) : string := dquote +:+ json_escape s +:+ dquote.

Definition json_array (l : list string) : string := "[" +:+ join "," l +:+ "]".

Definition json_object (l : list (string * string)) : string :=
  "{" +:+ join "," (map (fun kv => json_string kv.1 +:+ ":" +:+ kv.2) l) +:+ "}".

(** Map entries in key order, as encoding/json and fmt print them. *)
Definition key_le {A} (a b : string * A) : Prop := str_le a.1 b.1.
#[global] Instance key_le_dec {A} : RelDecision (@key_le A).
Proof. intros a b. unfold key_le. apply _. Defined.
Definition sorted_entries {A} (m : gmap string A) : list (string * A) :=
  merge_sort key_le (map_to_list m).

Lemma sorted_entries_elem {A} (m : gmap string A) k v : (k, v) ∈ sorted_entries m <-> m !! k = Some v.
Proof.
  unfold sorted_entries. rewrite (merge_sort_Permutation _ (map_to_list m)). apply elem_of_map_to_list.
Qed.

Definition json_bool (b : bool) : string := if b then "true" else "false".

Fixpoint json_text (a : any) : string :=
  match a with
  | ANil => "null"
  | ABool b => json_bool b
  | AInt z => itoa z
  | AFloat m e => json_float m e
  | AStr s => json_string s
  | AStrs l => json_array (map json_string l)
  | AList l => json_array (map json_text l)
  | AMap m => json_object (sorted_entries (json_text <$> m))
  | AMaps l => json_array (map (fun m => json_object (sorted_entries (json_text <$> m))) l)
  | AStruct fs => json_object (map (fun kv => (kv.1, json_text kv.2)) fs)
  end.

(** ** json.Unmarshal of json.Marshal into [any] *)
Fixpoint json_norm (a : any) : any :=
  match a with
  | ANil => ANil
  | ABool b => ABool b
  | AInt z => float_of_int z
  | AFloat m e => AFloat m e
  | AStr s => AStr s
  | AStrs l => AList (map AStr l)
  | AList l => AList (map json_norm l)
  | AMap m => AMap (json_norm <$> m)
  | AMaps l => AList (map (fun m => AMap (json_norm <$> m)) l)
  | AStruct fs => AMap (list_to_map (map (fun kv => (kv.1, json_norm kv.2)) fs))
  end.

(** fmt.Sprint *)
Fixpoint sprint (a : any) : string :=
  match a with
  | ANil => "<nil>"
  | ABool b => json_bool b
  | AInt z => itoa z
  | AFloat m e => fmt_float m e
  | AStr s => s
  | AStrs l => "[" +:+ join " " l +:+ "]"
  | AList l => "[" +:+ join " " (map sprint l) +:+ "]"
  | AMap m => "map[" +:+ join " " (map (fun kv => kv.1 +:+ ":" +:+ kv.2) (sorted_entries (sprint <$> m))) +:+ "]"
  | AMaps l => "[" +:+ join " " (map (fun m => "map[" +:+
                 join " " (map (fun kv => kv.1 +:+ ":" +:+ kv.2) (sorted_entries (sprint <$> m))) +:+ "]") l) +:+ "]"
  | AStruct fs => "&{" +:+ join " " (map (fun kv => sprint kv.2) fs) +:+ "}"
  end.

(** ** Payload accessors *)

(** stream.go [payloadStringDefault] *)
Definition payloadStringDefault (p : payload) (key fallback : string) : string :=
  match p !! key with
  | Some (AStr s) => s
  | _ => fallback
  end.

(** events.go [payloadString] *)
Definition payloadString (p : payload) (key : string) : option string :=
  match p !! key with
  | Some (AStr s) => Some s
  | _ => None
  end.

Fixpoint any_strings (l : list any) : option (list string) :=
  match l with
  | [] => Some []
  | AStr s :: rest => cons s <$> any_strings rest
  | _ => None
  end.

(** events.go [payloadStringSlice] *)
Definition payloadStringSlice (p : payload) (key : string) : option (list string) :=
  match p !! key with
  | Some (AStrs l) => Some l
  | Some (AList l) => any_strings l
  | _ => None
  end.

(** projection.go [anyString]: the first key holding a string, or any non-nil
    value printed by fmt.Sprint. *)
Fixpoint anyString (p : payload) (keys : list string) : string :=
  match keys with
  | [] => ""
  | k :: rest =>
      match p !! k with
      | Some (AStr s) => s
      | Some ANil => anyString p rest
      | Some v => sprint v
      | None => anyString p rest
      end
  end.

Fixpoint anyBool (p : payload) (keys : list string) : bool :=
  match keys with
  | [] => false
  | k :: rest =>
      match p !! k with
      | Some (ABool b) => b
      | _ => anyBool p rest
      end
  end.

(** A Go int held by a value: an int as it is, a float64 truncated. *)
Definition as_int (a : any) : option Z :=
  match a with
  | AInt z => Some z
  | AFloat m e => Some (int_of_float m e)
  | _ => None
  end.

(** projection.go [anyInt], for one key. *)
Definition anyInt (p : payload) (key : string) : Z :=
  match p !! key with
  | Some v => default 0 (as_int v)
  | None => 0
  end.

(** transcript.go [payloadInt] *)
Definition payloadInt (p : payload) (key : string) : option Z :=
  match p !! key with
  | Some v => as_int v
  | None => None
  end.

Fixpoint anyMap (p : payload) (keys : list string) : option payload :=
  match keys with
  | [] => None
  | k :: rest =>
      match p !! k with
      | Some (AMap m) => Some m
      | _ => anyMap p rest
      end
  end.

(** projection.go [anySlice]: only a decoded [[]any] qualifies. *)
Definition anySlice (p : payload) (key : string) : list any :=
  match p !! key with
  | Some (AList l) => l
  | _ => []
  end.

(** council_argument_graph.go [rawObjectSlice] *)
Fixpoint any_objects (l : list any) : option (list payload) :=
  match l with
  | [] => Some []
  | AMap m :: rest => cons m <$> any_objects rest
  | _ => None
  end.

Definition rawObjectSlice (a : any) : option (list payload) :=
  match a with
  | AMaps l => Some l
  | AList l => any_objects l
  | _ => None
  end.

(** transcript.go [asStringMap]; no modelled value is a map[string]string. *)
Definition asStringMap (a : any) : option payload :=
  match a with
  | AMap m => Some m
  | _ => None
  end.

(** transcript.go [stringValue] *)
Definition stringValue (a : option any) : option string :=
  match a with
  | Some (AStr s) => Some s
  | _ => None
  end.

(** council.go [firstNonEmptyString] *)
Fixpoint firstNonEmptyString (values : list string) : string :=
  match values with
  | [] => ""
  | v :: rest => if is_blank v then firstNonEmptyString rest else v
  end.

(** delegation.go [allowedString] *)
Definition allowedString (value : string) (allowed : list string) : bool :=
  existsb (String.eqb value) allowed.

(** delegation.go [defaultString] *)
Definition defaultString (value fallback : string) : string :=
  if is_blank value then fallback else value.

#[global] Arguments json_text : simpl nomatch.
#[global] Arguments json_norm : simpl nomatch.

(** ** Lemmas *)

Lemma as_int_float_of_int z : Z.abs z <= 2 ^ 53 -> as_int (float_of_int z) = Some z.
Proof.
  intros H. unfold float_of_int. destruct (Z.leb_spec (Z.abs z) (2 ^ 53)); [|lia]. simpl.
  unfold int_of_float, float_num, float_den. simpl.
  rewrite Z.mul_1_r, Z.quot_1_r.
  unfold int_min, int_max.
  destruct (Z.leb_spec (- 2 ^ 63) z); simpl; [|lia].
  destruct (Z.leb_spec z (2 ^ 63 - 1)); simpl; [done | lia].
Qed.

Lemma json_float_small z : Z.abs z <= 2 ^ 53 -> json_float z 0 = itoa z.
Proof.
  intros H. unfold json_float, float_text, float_integral, float_num, float_den.
  cbn [Z.leb Z.compare]. simpl (2 ^ 0). rewrite Z.mul_1_r, Z.mod_1_r, Z.div_1_r.
  simpl (0 =? 0). cbv iota. destruct (Z.leb_spec (Z.abs z) (2 ^ 53)); [done | lia].
Qed.

Lemma any_strings_AStr l : any_strings (map AStr l) = Some l.
Proof. induction l as [|s l IH]; simpl; [done | by rewrite IH]. Qed.

(** The accessors that read strings, bools, string lists and objects cannot tell
    a payload from its copy decoded from the log. *)
Lemma payloadStringDefault_norm (p : payload) k d :
  payloadStringDefault (json_norm <$> p) k d = payloadStringDefault p k d.
Proof.
  unfold payloadStringDefault. rewrite lookup_fmap.
  destruct (p !! k) as [[]|]; simpl; try done. unfold float_of_int.
  destruct (Z.abs z <=? 2 ^ 53); done.
Qed.

Lemma payloadStringSlice_norm (p : payload) k l :
  payloadStringSlice p k = Some l -> payloadStringSlice (json_norm <$> p) k = Some l.
Proof.
  unfold payloadStringSlice. rewrite lookup_fmap.
  destruct (p !! k) as [[]|]; simpl; try done.
  - intros [= ->]. apply any_strings_AStr.
  - revert l. induction l0 as [|a l0 IH]; intros l; simpl; [done|].
    destruct a; try done. simpl. destruct (any_strings l0) as [l'|]; [|done].
    simpl. intros [= <-]. by rewrite (IH l').
Qed.

Lemma anyInt_norm (p : payload) k :
  (forall z, p !! k = Some (AInt z) -> Z.abs z <= 2 ^ 53) ->
  anyInt (json_norm <$> p) k = anyInt p k.
Proof.
  unfold anyInt. rewrite lookup_fmap. intros H.
  destruct (p !! k) as [[]|] eqn:E; simpl; try done.
  rewrite as_int_float_of_int; [done | by apply H].
Qed.

(** ** Induction on values, through a size that maps and lists strictly contain *)

Fixpoint any_size (a : any) : nat :=
  match a with
  | AList l => S (sum_list_with any_size l)
  | AMap m => S (map_fold (fun _ v n => any_size v + n)%nat O m)
  | AMaps l => S (sum_list_with (fun m => S (map_fold (fun _ v n => any_size v + n)%nat O m)) l)
  | AStruct fs => S (sum_list_with (fun kv => any_size kv.2) fs)
  | _ => 1%nat
  end.

Lemma map_size_lookup (m : payload) k v :
  m !! k = Some v -> (any_size v <= map_fold (fun _ v n => any_size v + n)%nat O m)%nat.
Proof.
  revert k v. apply (map_fold_weak_ind (fun r m => forall k v, m !! k = Some v -> (any_size v <= r)%nat)).
  - intros k v. by rewrite lookup_empty.
  - intros i x m' r _ IH k v Hk. apply lookup_insert_Some in Hk as [[_ <-]|[_ Hk]]; [lia|].
    specialize (IH _ _ Hk). lia.
Qed.

Lemma list_size_elem {A} (f : A -> nat) l x : x ∈ l -> (f x <= sum_list_with f l)%nat.
Proof.
  induction l as [|y l IH]; intros Hx; [by apply elem_of_nil in Hx|].
  apply elem_of_cons in Hx as [->|Hx]; simpl; [lia|]. specialize (IH Hx). lia.
Qed.

Lemma any_rect_prop (P : any -> Prop) :
  (forall a, match a with
             | AList l => forall x, x ∈ l -> P x
             | AMap m => forall k v, m !! k = Some v -> P v
             | AMaps l => forall m k v, m ∈ l -> m !! k = Some v -> P v
             | AStruct fs => forall k v, (k, v) ∈ fs -> P v
             | _ => True
             end -> P a) ->
  forall a, P a.
Proof.
  intros H a. remember (any_size a) as n eqn:Hn. revert a Hn.
  induction (lt_wf n) as [n _ IH]. intros a ->. apply H.
  destruct a as [| | | | | |l|m|l|fs]; try exact I.
  - intros x Hx. apply (IH (any_size x)); [|done].
    pose proof (list_size_elem any_size l x Hx). simpl. lia.
  - intros k v Hk. apply (IH (any_size v)); [|done].
    pose proof (map_size_lookup m k v Hk). simpl. lia.
  - intros m k v Hm Hk. apply (IH (any_size v)); [|done].
    pose proof (map_size_lookup m k v Hk).
    pose proof (list_size_elem (fun m => S (map_fold (fun _ v n => any_size v + n)%nat O m)) l m Hm).
    simpl in *. lia.
  - intros k v Hk. apply (IH (any_size v)); [|done].
    pose proof (list_size_elem (fun kv : string * any => any_size kv.2) fs (k, v) Hk). simpl in *. lia.
Qed.

Lemma fmap_map {A B C} (f : B -> C) (g : A -> B) (l : list A) :
  f <$> map g l = map (fun x => f (g x)) l.
Proof. induction l as [|x l IH]; [done|]. cbn. f_equal. exact IH. Qed.

(** Decoding is idempotent: a decoded value re-encodes and decodes to itself. *)
Lemma json_norm_idemp a : json_norm (json_norm a) = json_norm a.
Proof.
  induction a as [a IH] using any_rect_prop.
  destruct a as [| | | | | |l|m|l|fs]; simpl; try done.
  - unfold float_of_int. by destruct (_ <=? _).
  - f_equal. rewrite map_map. done.
  - f_equal. rewrite map_map. apply map_ext_in. intros x Hx. apply IH. by apply list_elem_of_In.
  - f_equal. rewrite <- map_fmap_compose. apply map_fmap_ext. intros k v Hk. simpl. eauto.
  - f_equal. rewrite map_map. apply map_ext_in. intros m Hm. simpl. f_equal.
    rewrite <- map_fmap_compose. apply map_fmap_ext. intros k v Hk. simpl.
    apply (IH m k v); [by apply list_elem_of_In | done].
  - f_equal. rewrite <- list_to_map_fmap. f_equal. rewrite fmap_map.
    apply map_ext_in.
    intros [k v] Hk. simpl. f_equal. apply (IH k v). by apply list_elem_of_In.
Qed.

(** *** Values whose text survives the log

    Values without a struct, whose ints float64 represents exactly. *)
Inductive log_stable : any -> Prop :=
| stable_nil : log_stable ANil
| stable_bool b : log_stable (ABool b)
| stable_int z : Z.abs z <= 2 ^ 53 -> log_stable (AInt z)
| stable_float m e : log_stable (AFloat m e)
| stable_str s : log_stable (AStr s)
| stable_strs l : log_stable (AStrs l)
| stable_list l : (forall x, x ∈ l -> log_stable x) -> log_stable (AList l)
| stable_map (m : payload) : (forall k v, m !! k = Some v -> log_stable v) -> log_stable (AMap m)
| stable_maps (l : list payload) :
    (forall m k v, m ∈ l -> m !! k = Some v -> log_stable v) -> log_stable (AMaps l).

Lemma json_text_norm a : log_stable a -> json_text (json_norm a) = json_text a.
Proof.
  induction 1 as [|b|z Hz|m e|s|l|l _ IH|m _ IH|l _ IH]; simpl; try done.
  - unfold float_of_int. replace (Z.abs z <=? 2 ^ 53) with true by lia. simpl.
    by apply json_float_small.
  - by rewrite map_map.
  - f_equal. rewrite map_map. apply map_ext_in. intros x Hx. apply IH. by apply list_elem_of_In.
  - do 2 f_equal. rewrite <- map_fmap_compose. apply map_fmap_ext. intros k v Hk. simpl. eauto.
  - f_equal. rewrite map_map. apply map_ext_in. intros m Hm. simpl. do 2 f_equal.
    rewrite <- map_fmap_compose. apply map_fmap_ext. intros k v Hk. simpl.
    apply (IH m k v); [by apply list_elem_of_In | done].
Qed.

Lemma log_stable_norm a : log_stable (json_norm a).
Proof.
  induction a as [a IH] using any_rect_prop.
  destruct a as [| | | | | |l|m|l|fs]; simpl; try (constructor; done).
  - unfold float_of_int. destruct (_ <=? _); constructor.
  - constructor. intros x Hx. apply list_elem_of_fmap in Hx as (s & -> & _). constructor.
  - constructor. intros x Hx. apply list_elem_of_fmap in Hx as (y & -> & Hy). auto.
  - constructor. intros k v. rewrite lookup_fmap. intros Hk.
    apply fmap_Some in Hk as (y & Hy & ->). eauto.
  - constructor. intros x Hx. apply list_elem_of_fmap in Hx as (m & -> & Hm).
    constructor. intros k v. rewrite lookup_fmap. intros Hk.
    apply fmap_Some in Hk as (y & Hy & ->). eauto.
  - constructor. intros k v Hk. apply elem_of_list_to_map_2 in Hk.
    apply list_elem_of_fmap in Hk as ([k' v'] & [= -> ->] & Hin). eauto.
Qed.

Example json_text_sorted :
  json_text (AMap {[ "b" := AInt 1; "a" := AList [AFloat 1 (-1); ABool true; ANil] ]}) =
  "{" +:+ dquote +:+ "a" +:+ dquote +:+ ":[0.5,true,null]," +:+ dquote +:+ "b" +:+ dquote +:+ ":1}".
Proof. vm_compute. reflexivity. Qed.

Example float_texts :
  let tenth := f64_round 1 10 in
  let big := f64_round (10 ^ 21) 1 in
  let tiny := f64_round 15 (10 ^ 8) in
  (json_float (fst tenth) (snd tenth), json_float (fst big) (snd big), json_float (fst tiny) (snd tiny),
   fmt_float (fst tiny) (snd tiny))
  = ("0.1", "1e+21", "1.5e-7", "1.5e-07").
Proof. vm_compute. reflexivity. Qed.
