(* ===== verification/GoTime.v ===== *)
(** * Instants and their RFC 3339 texts

    A [time.Time] in UTC is its number of nanoseconds since the Unix epoch.
    The council handlers store window deadlines as time.RFC3339Nano text in the
    payload and parse them back ([latestResponseWindowForTurn]), so format and
    parse are defined here with their round trip.  [time_parse] accepts the
    RFC 3339 grammar (one- or two-digit hour, ["Z"] or a numeric offset) that
    time.Parse accepts; a comma before the fraction is not accepted here. *)

From S2P Require Import Prelude.

Abbreviation time := Z.

Definition second : Z := 1000000000.
Definition zero_time : time := - 62135596800 * second.
Definition is_zero (t : time) : bool := t =? zero_time.

(** ** Civil dates (proleptic Gregorian), days counted from 1970-01-01 *)

Definition civil_yoe (doe : Z) : Z := (doe - doe / 1460 + doe / 36524 - doe / 146096) / 365.
Definition year_days (yoe : Z) : Z := 365 * yoe + yoe / 4 - yoe / 100.

Definition civil_from_days (days : Z) : Z * Z * Z :=
  let z := days + 719468 in
  let era := z / 146097 in
  let doe := z mod 146097 in
  let yoe := civil_yoe doe in
  let doy := doe - year_days yoe in
  let mp := (5 * doy + 2) / 153 in
  let d := doy - (153 * mp + 2) / 5 + 1 in
  let m := if mp <? 10 then mp + 3 else mp - 9 in
  (yoe + era * 400 + (if m <=? 2 then 1 else 0), m, d).

Definition days_from_civil (y m d : Z) : Z :=
  let y' := if m <=? 2 then y - 1 else y in
  let era := y' / 400 in
  let yoe := y' mod 400 in
  let mp := if 2 <? m then m - 3 else m + 9 in
  let doy := (153 * mp + 2) / 5 + d - 1 in
  era * 146097 + (year_days yoe + doy) - 719468.

Definition leap_year (y : Z) : bool :=
  (y mod 4 =? 0) && (negb (y mod 100 =? 0) || (y mod 400 =? 0)).

Definition month_days (y m : Z) : Z :=
  if m =? 2 then (if leap_year y then 29 else 28)
  else if (m =? 4) || (m =? 6) || (m =? 9) || (m =? 11) then 30 else 31.

(** ** Digits *)

Definition digit (n : Z) : Ascii.ascii := Ascii.ascii_of_N (48 + Z.to_N n).

Definition digit_value (a : Ascii.ascii) : option Z :=
  let n := Z.of_N (Ascii.N_of_ascii a) in
  if (48 <=? n) && (n <=? 57) then Some (n - 48) else None.

(** [n] in exactly [w] digits. *)
Fixpoint pad_digits (w : nat) (n : Z) : string :=
  match w with
  | O => ""
  | S w' => String (digit (n / 10 ^ Z.of_nat w')) (pad_digits w' (n mod 10 ^ Z.of_nat w'))
  end.

Fixpoint parse_digits (w : nat) (s : string) : option (Z * string) :=
  match w with
  | O => Some (0, s)
  | S w' =>
      match s with
      | String a rest =>
          match digit_value a, parse_digits w' rest with
          | Some v, Some (n, r) => Some (v * 10 ^ Z.of_nat w' + n, r)
          | _, _ => None
          end
      | EmptyString => None
      end
  end.

(** The [w] fraction digits of [n], trailing zeros dropped. *)
Fixpoint frac_digits (w : nat) (n : Z) : string :=
  match w with
  | O => ""
  | S w' =>
      if n =? 0 then ""
      else String (digit (n / 10 ^ Z.of_nat w')) (frac_digits w' (n mod 10 ^ Z.of_nat w'))
  end.

(** Fraction digits read at weight [10^(w-1)] down; those past the ninth are dropped. *)
Fixpoint parse_frac (w : nat) (s : string) : Z * string :=
  match s with
  | String a rest =>
      match digit_value a with
      | Some v =>
          match w with
          | O => parse_frac O rest
          | S w' => let r := parse_frac w' rest in (v * 10 ^ Z.of_nat w' + fst r, snd r)
          end
      | None => (0, s)
      end
  | EmptyString => (0, s)
  end.

Definition expect (p : string) (s : string) : option string := drop_prefix p s.

(** ** time.Time.Format(time.RFC3339Nano) in UTC *)
Definition time_format (t : time) : string :=
  let secs := t / second in
  let ns := t mod second in
  let days := secs / 86400 in
  let sod := secs mod 86400 in
  let '(y, m, d) := civil_from_days days in
  (if (0 <=? y) && (y <=? 9999) then pad_digits 4 y else itoa y) +:+
  "-" +:+ pad_digits 2 m +:+ "-" +:+ pad_digits 2 d +:+
  "T" +:+ pad_digits 2 (sod / 3600) +:+ ":" +:+ pad_digits 2 (sod / 60 mod 60) +:+
  ":" +:+ pad_digits 2 (sod mod 60) +:+
  (if ns =? 0 then "" else "." +:+ frac_digits 9 ns) +:+ "Z".

Definition parse_zone (s : string) : option Z :=
  if s == "Z" then Some 0
  else
    match s with
    | String sign rest =>
        match parse_digits 2 rest with
        | Some (hh, r1) =>
            match expect ":" r1 with
            | Some r2 =>
                match parse_digits 2 r2 with
                | Some (mm, r3) =>
                    let off := hh * 3600 + mm * 60 in
                    if (r3 == "") && (hh <=? 24) && (mm <=? 60) then
                      if (String sign "") == "+" then Some off
                      else if (String sign "") == "-" then Some (- off) else None
                    else None
                | None => None
                end
            | None => None
            end
        | None => None
        end
    | EmptyString => None
    end.

(** The optional fraction of a second: a dot followed by at least one digit. *)
Definition parse_fraction (s : string) : Z * string :=
  match expect "." s with
  | Some (String a _ as r) =>
      match digit_value a with
      | Some _ => parse_frac 9 r
      | None => (0, s)
      end
  | _ => (0, s)
  end.

Definition parse_hour (s : string) : option (Z * string) :=
  match parse_digits 2 s with
  | Some r => Some r
  | None => parse_digits 1 s
  end.

(** time.Parse(time.RFC3339Nano, s), as an instant. *)
Definition time_parse (s : string) : option time :=
  '(y, s1) ← parse_digits 4 s; s2 ← expect "-" s1;
  '(m, s3) ← parse_digits 2 s2; s4 ← expect "-" s3;
  '(d, s5) ← parse_digits 2 s4; s6 ← expect "T" s5;
  '(hh, s7) ← parse_hour s6; s8 ← expect ":" s7;
  '(mi, s9) ← parse_digits 2 s8; s10 ← expect ":" s9;
  '(ss, s11) ← parse_digits 2 s10;
  let fr := parse_fraction s11 in
  off ← parse_zone (snd fr);
  if (1 <=? m) && (m <=? 12) && (1 <=? d) && (d <=? month_days y m)
     && (hh <? 24) && (mi <? 60) && (ss <? 60)
  then Some ((days_from_civil y m d * 86400 + hh * 3600 + mi * 60 + ss - off) * second + fst fr)
  else None.

(** Time.MarshalJSON accepts years 0 to 9999 only. *)
Definition time_year (t : time) : Z := fst (fst (civil_from_days (t / second / 86400))).
Definition time_json_ok (t : time) : bool := (0 <=? time_year t) && (time_year t <=? 9999).

#[global] Arguments time_format : simpl never.
#[global] Arguments time_parse : simpl never.
#[global] Arguments digit : simpl never.
#[global] Arguments digit_value : simpl never.

(** ** Civil dates *)

Lemma yoe_bounds doe :
  0 <= doe < 146097 ->
  0 <= civil_yoe doe < 400 /\ 0 <= doe - year_days (civil_yoe doe) <= 365.
Proof. unfold civil_yoe, year_days. intros. Z.to_euclidean_division_equations. lia. Qed.

(** The 366th day of a computational year (29 February) only exists when the
    civil year it ends in is a leap year. *)
Lemma yoe_last_day doe :
  0 <= doe < 146097 -> doe - year_days (civil_yoe doe) = 365 ->
  (civil_yoe doe + 1) mod 4 = 0 /\
  ((civil_yoe doe + 1) mod 100 <> 0 \/ (civil_yoe doe + 1) mod 400 = 0).
Proof. unfold civil_yoe, year_days. intros. Z.to_euclidean_division_equations. lia. Qed.

Lemma civil_valid days y m d :
  civil_from_days days = (y, m, d) -> 1 <= m <= 12 /\ 1 <= d <= month_days y m.
Proof.
  unfold civil_from_days. intros [= Hy Hm Hd].
  pose proof (Z.mod_pos_bound (days + 719468) 146097 ltac:(lia)) as Hdoe.
  set (doe := (days + 719468) mod 146097) in *.
  pose proof (yoe_bounds doe Hdoe) as [Hyoe Hdoy].
  pose proof (yoe_last_day doe Hdoe) as Hlast.
  set (yoe := civil_yoe doe) in *. set (doy := doe - year_days yoe) in *.
  clearbody doy yoe. set (era := (days + 719468) / 146097) in *. clearbody era.
  assert (0 <= (5 * doy + 2) / 153 <= 11) by (Z.to_euclidean_division_equations; lia).
  set (mp := (5 * doy + 2) / 153) in *.
  assert (Hcase : mp = 0 \/ mp = 1 \/ mp = 2 \/ mp = 3 \/ mp = 4 \/ mp = 5 \/ mp = 6
                  \/ mp = 7 \/ mp = 8 \/ mp = 9 \/ mp = 10 \/ mp = 11) by lia.
  assert (Hleap : doy = 365 -> leap_year (yoe + era * 400 + 1) = true).
  { intros H365. destruct (Hlast H365) as [H4 H100].
    unfold leap_year. set (n := yoe + 1) in *.
    replace (yoe + era * 400 + 1) with (n + era * 400) by lia.
    assert ((n + era * 400) mod 4 = 0) as -> by (rewrite <- H4; Z.to_euclidean_division_equations; lia).
    simpl. apply orb_true_iff. destruct H100 as [H100|H100]; [left | right].
    - apply negb_true_iff, Z.eqb_neq. Z.to_euclidean_division_equations; lia.
    - apply Z.eqb_eq. rewrite <- H100. apply Z.mod_add. lia. }
  assert (Hmp : mp = (5 * doy + 2) / 153) by reflexivity. clearbody mp.
  unfold month_days.
  destruct Hcase as [E|[E|[E|[E|[E|[E|[E|[E|[E|[E|[E|E]]]]]]]]]]]; rewrite E in *;
    simpl in Hm, Hy, Hd; subst m; simpl; (split; [lia|]);
    try (Z.to_euclidean_division_equations; lia).
  (* February *)
  destruct (decide (doy = 365)) as [H365|H365].
  - rewrite <- Hy, (Hleap H365). Z.to_euclidean_division_equations; lia.
  - destruct (leap_year y); Z.to_euclidean_division_equations; lia.
Qed.

Lemma days_civil_roundtrip days y m d :
  civil_from_days days = (y, m, d) -> days_from_civil y m d = days.
Proof.
  unfold civil_from_days, days_from_civil. intros [= <- <- <-].
  pose proof (Z.mod_pos_bound (days + 719468) 146097 ltac:(lia)) as Hdoe.
  pose proof (Z.div_mod (days + 719468) 146097 ltac:(lia)) as Hdm.
  set (doe := (days + 719468) mod 146097) in *.
  set (era := (days + 719468) / 146097) in *. clearbody era.
  pose proof (yoe_bounds doe Hdoe) as [Hyoe Hdoy].
  set (yoe := civil_yoe doe) in *. clearbody yoe.
  set (mp := (5 * (doe - year_days yoe) + 2) / 153) in *.
  assert (0 <= mp <= 11) by (subst mp; Z.to_euclidean_division_equations; lia).
  clearbody mp doe.
  destruct (Z.ltb_spec mp 10) as [Hlt|Hge].
  - replace (mp + 3 <=? 2) with false by lia. replace (2 <? mp + 3) with true by lia.
    replace (yoe + era * 400 + 0) with (yoe + era * 400) by lia.
    rewrite Z.div_add, Z.mod_add, Z.div_small, Z.mod_small by lia.
    replace (mp + 3 - 3) with mp by lia. lia.
  - replace (mp - 9 <=? 2) with true by lia. replace (2 <? mp - 9) with false by lia.
    replace (yoe + era * 400 + 1 - 1) with (yoe + era * 400) by lia.
    rewrite Z.div_add, Z.mod_add, Z.div_small, Z.mod_small by lia.
    replace (mp - 9 + 9) with mp by lia. lia.
Qed.

(** ** Digits *)

Lemma digit_value_digit n : 0 <= n < 10 -> digit_value (digit n) = Some n.
Proof.
  intros H. rewrite <- (Z2Nat.id n) by lia.
  assert (Hc : (Z.to_nat n < 10)%nat) by lia. revert Hc. generalize (Z.to_nat n). clear n H.
  intros k Hk. do 10 (destruct k as [|k]; [reflexivity|]). lia.
Qed.

Lemma split_digits w n :
  0 <= n < 10 ^ Z.of_nat (S w) ->
  0 <= n / 10 ^ Z.of_nat w < 10 /\ 0 <= n mod 10 ^ Z.of_nat w < 10 ^ Z.of_nat w /\
  n / 10 ^ Z.of_nat w * 10 ^ Z.of_nat w + n mod 10 ^ Z.of_nat w = n.
Proof.
  rewrite Nat2Z.inj_succ, Z.pow_succ_r by lia. intros H.
  assert (0 < 10 ^ Z.of_nat w) by (apply Z.pow_pos_nonneg; lia).
  pose proof (Z.div_mod n (10 ^ Z.of_nat w) ltac:(lia)).
  pose proof (Z.mod_pos_bound n (10 ^ Z.of_nat w) ltac:(lia)).
  repeat split; try lia.
  - apply Z.div_pos; lia.
  - apply Z.div_lt_upper_bound; lia.
Qed.

Lemma parse_pad_digits w n r :
  0 <= n < 10 ^ Z.of_nat w -> parse_digits w (pad_digits w n +:+ r) = Some (n, r).
Proof.
  revert n. induction w as [|w IH]; intros n H.
  - simpl in *. f_equal. f_equal. change (10 ^ Z.of_nat 0) with 1 in H. lia.
  - destruct (split_digits w n H) as (Hd & Hm & Heq). simpl.
    rewrite digit_value_digit by lia. rewrite IH by lia. by rewrite Heq.
Qed.

Lemma parse_frac_stop w r :
  match r with String a _ => digit_value a = None | EmptyString => True end ->
  parse_frac w r = (0, r).
Proof. destruct r as [|a r], w; simpl; try done; by intros ->. Qed.

Lemma parse_frac_digits w n r :
  0 <= n < 10 ^ Z.of_nat w ->
  match r with String a _ => digit_value a = None | EmptyString => True end ->
  parse_frac w (frac_digits w n +:+ r) = (n, r).
Proof.
  revert n. induction w as [|w IH]; intros n H Hr.
  - change (10 ^ Z.of_nat 0) with 1 in H. assert (n = 0) as -> by lia. by apply parse_frac_stop.
  - destruct (split_digits w n H) as (Hd & Hm & Heq). simpl.
    destruct (Z.eqb_spec n 0) as [->|Hne]; [by apply (parse_frac_stop (S w))|]. simpl.
    rewrite digit_value_digit by lia. rewrite IH by done. simpl. by rewrite Heq.
Qed.

Lemma expect_app p r : expect p (p +:+ r) = Some r.
Proof. by apply drop_prefix_spec. Qed.

Lemma parse_fraction_text ns :
  0 <= ns < second ->
  parse_fraction ((if ns =? 0 then "" else "." +:+ frac_digits 9 ns) +:+ "Z") = (ns, "Z").
Proof.
  intros Hns. destruct (Z.eqb_spec ns 0) as [->|Hne]; [done|].
  pose proof (parse_frac_digits 9 ns "Z" Hns ltac:(done)) as Hp.
  unfold parse_fraction.
  replace (expect "." _) with (Some (frac_digits 9 ns +:+ "Z"));
    [| symmetry; by apply drop_prefix_spec].
  assert (exists a s, frac_digits 9 ns +:+ "Z" = String a s /\ is_Some (digit_value a))
    as (a & s & Has & [v Hv]).
  { cbn [frac_digits]. destruct (Z.eqb_spec ns 0); [lia|].
    eexists _, _. split; [reflexivity|]. rewrite digit_value_digit; [eauto|].
    by destruct (split_digits 8 ns) as [? _]. }
  rewrite Has in *. by rewrite Hv.
Qed.

Ltac parse_step :=
  first [ rewrite expect_app
        | rewrite parse_pad_digits by (simpl; first [lia | Z.to_euclidean_division_equations; lia]) ];
  cbn [mbind option_bind].

(** ** The round trip *)

(** An instant of a year 0 to 9999 formatted as RFC 3339 reads back as itself,
    to the nanosecond. *)
Lemma time_format_parse t : time_json_ok t = true -> time_parse (time_format t) = Some t.
Proof.
  unfold time_json_ok, time_year, time_format, time_parse. intros Hok.
  set (secs := t / second) in *.
  pose proof (Z.mod_pos_bound secs 86400 ltac:(lia)) as Hsod.
  pose proof (Z.mod_pos_bound t second ltac:(done)) as Hns.
  pose proof (Z.div_mod t second ltac:(done)) as Ht. fold secs in Ht.
  pose proof (Z.div_mod secs 86400 ltac:(lia)) as Hsecs.
  set (ns := t mod second) in *. set (sod := secs mod 86400) in *.
  set (days := secs / 86400) in *.
  destruct (civil_from_days days) as [[y m] d] eqn:Hcivil. simpl in Hok. rewrite Hok.
  pose proof (days_civil_roundtrip _ _ _ _ Hcivil) as Hdays.
  pose proof (civil_valid _ _ _ _ Hcivil) as [Hm Hd].
  assert (month_days y m <= 31) by (unfold month_days; repeat case_match; lia).
  apply andb_true_iff in Hok as [Hy0 Hy1].
  do 6 parse_step. unfold parse_hour. do 5 parse_step.
  rewrite parse_fraction_text by done. cbn [fst snd].
  change (parse_zone "Z") with (Some 0). cbn [mbind option_bind].
  replace (_ && _ && _ && _ && _ && _ && _) with true.
  2: { symmetry. rewrite !andb_true_iff, !Z.leb_le, !Z.ltb_lt.
       Z.to_euclidean_division_equations; lia. }
  f_equal. rewrite Hdays, Ht.
  assert (sod / 3600 * 3600 + sod / 60 mod 60 * 60 + sod mod 60 = sod)
    by (Z.to_euclidean_division_equations; lia).
  replace (_ - 0) with secs by lia. lia.
Qed.
