(* ===== verification/Model.v ===== *)
(** * Session data model (storage/model.go, storage/errors.go) and the phase tables

    Records mirror the Go structs field by field; a nil pointer is [None]. *)

From S2P Require Import Prelude GoValue GoTime.

(** ** Errors (errors.go) *)
Record Issue := mk_issue { is_category : string; is_path : string; is_message : string }.

(** [ValidationError] carries issues; [ProjectionError] wraps another error with
    a kind and a detail. *)
Inductive error :=
| EValidation (issues : list Issue)
| EProjection (kind detail : string) (inner : error).

Definition CategoryInvalidSessionID : string := "storage_invalid_session_id".
Definition CategoryPathUnsafe : string := "storage_path_unsafe".
Definition CategorySessionExists : string := "storage_session_exists".
Definition CategorySessionUnsafe : string := "storage_session_unsafe".
Definition CategorySnapshotRequired : string := "storage_snapshot_required".
Definition CategoryMetadataInvalid : string := "storage_metadata_invalid".
Definition CategoryMetadataWrite : string := "storage_metadata_write_failed".
Definition CategoryInvalidEnvelope : string := "storage_invalid_envelope".
Definition CategoryLogCorrupt : string := "storage_log_corrupt".
Definition CategoryDuplicateEventID : string := "storage_duplicate_event_id".
Definition CategoryAppendFailed : string := "storage_append_failed".
Definition CategoryPrincipalInvalid : string := "storage_principal_invalid".
Definition CategoryCommandConflict : string := "storage_command_conflict".

Definition NewValidationError (category path message : string) : error :=
  EValidation [mk_issue category path message].

Definition NewValidationErrors (issues : list Issue) : error := EValidation issues.

(** Issue.String: the non-empty parts joined by a colon. *)
Definition Issue_String (i : Issue) : string :=
  join ": " (filter (fun s => s <> "") [is_category i; is_path i; is_message i]).

(** ValidationError.Error; a ProjectionError prints kind, detail and cause. *)
Fixpoint error_text (e : error) : string :=
  match e with
  | EValidation [] => "storage validation failed"
  | EValidation [i] => Issue_String i
  | EValidation l => itoa (len_z l) +:+ " storage validation issues: " +:+ join "; " (map Issue_String l)
  | EProjection k d inner => k +:+ ": " +:+ d +:+ ": " +:+ error_text inner
  end.

(** errors.go [Issues]: the issues found in the error chain. *)
Fixpoint Issues (e : error) : list Issue :=
  match e with
  | EValidation l => l
  | EProjection _ _ inner => Issues inner
  end.

(** The category of the first issue, which the protocol layer reports. *)
Definition error_category (e : error) : string :=
  match Issues e with
  | i :: _ => is_category i
  | [] => ""
  end.

Definition error_path (e : error) : string :=
  match Issues e with
  | i :: _ => is_path i
  | [] => ""
  end.

(** ** Session types, phases and statuses

    [SessionType], [Phase] and [Status] are string types in the source, and
    phases read from payloads may be any string. *)
Abbreviation SessionType := string (only parsing).
Abbreviation Phase := string (only parsing).
Abbreviation Status := string (only parsing).

Definition SessionTypeDelegation : SessionType := "delegation".
Definition SessionTypeCouncil : SessionType := "council".
Definition PhaseCreated : Phase := "created".
Definition StatusOpen : Status := "open".
Definition StatusBlocked : Status := "blocked".
Definition StatusTerminal : Status := "terminal".

Definition delegationPhases : list Phase :=
  ["created"; "assigned"; "acknowledged"; "working"; "needs_clarification";
   "waiting_user"; "submitted"; "under_review"; "revision_requested"; "blocked";
   "accepted"; "cancelled"].

Definition councilPhases : list Phase :=
  ["created"; "preparation"; "discussion"; "draft_conclusion"; "consensus_vote";
   "blocked"; "finalized"; "unresolved"; "cancelled"].

Definition runnerStatuses : list string :=
  ["started"; "succeeded"; "failed"; "timeout"; "semantic_error";
   "discarded_after_cancel"; "cancelled"; "interrupted"].

Definition validSessionType (t : SessionType) : bool :=
  (t == SessionTypeDelegation) || (t == SessionTypeCouncil).

Definition validPhase (t : SessionType) (p : Phase) : bool :=
  if t == SessionTypeDelegation then mem_str p delegationPhases
  else if t == SessionTypeCouncil then mem_str p councilPhases
  else false.

(** projection.go [statusFromPhase] *)
Definition statusFromPhase (p : Phase) : Status :=
  if mem_str p ["accepted"; "cancelled"; "finalized"; "unresolved"] then StatusTerminal
  else if p == "blocked" then StatusBlocked
  else StatusOpen.

Definition terminal_phase (p : Phase) : bool := statusFromPhase p == StatusTerminal.

(** ** Structs *)
Record Surface := mk_surface {
  su_kind : string; su_platform : string; su_guild_id : string; su_channel_id : string;
  su_thread_id : string; su_origin_message : string; su_started_by : string;
  su_delivery_owner : string }.

Record LinkedAuthority := mk_linked { la_kanban_card_id : string; la_vault_decision_note : string }.

Record SelectedRunnerTimeoutEvidence := mk_timeout_evidence {
  te_policy_required : bool; te_configured_timeout_sec : Z; te_effective_timeout_sec : Z;
  te_effective_source : string; te_approved_alternative : bool; te_approval_basis : string;
  te_compliant : bool }.

Record DiscussionQualityLimits := mk_quality {
  dq_mode : string; dq_opening_unlinked_turns : Z; dq_require_claims : bool;
  dq_require_stance_links_after_opening : bool; dq_allow_new_axis_with_reason : bool;
  dq_max_consecutive_new_axis : Z }.

Record Limits := mk_limits {
  li_max_turns : Z; li_max_discussion_turns : Z; li_max_consensus_rounds : Z;
  li_consensus_round_warning_threshold : Z; li_no_progress_round_limit : Z;
  li_preparation_timeout_sec : Z; li_hand_raise_research_timeout_sec : Z;
  li_dispatch_timeout_sec : Z; li_clarification_response_timeout_sec : Z;
  li_escalation_response_timeout_sec : Z; li_runner_max_retries : Z; li_max_runner_calls : Z;
  li_max_tokens_total : Z; li_max_usd : Z * Z; li_max_user_escalations : Z;
  li_max_elapsed_sec : Z; li_max_artifact_bytes : Z; li_stream_heartbeat_interval_sec : Z;
  li_stream_stale_threshold_sec : Z; li_stream_repoll_threshold_sec : Z;
  li_discussion_quality : option DiscussionQualityLimits }.

Definition no_limits : Limits :=
  mk_limits 0 0 0 0 0 0 0 0 0 0 0 0 0 (0, 0) 0 0 0 0 0 0 None.

Record SessionState := mk_state {
  st_phase : Phase; st_current_turn : Z; st_last_speaker : string; st_consensus_round : Z }.

Record SnapshotMetadata := mk_snapshot {
  sn_source_path : string; sn_source_sha256 : string; sn_loaded_at : time;
  sn_loaded_by_uid : Z; sn_schema_version : Z }.

(** Cost and escalation summaries are written as zero values and never updated
    by the storage package; they are left out. *)
Record SessionMetadata := mk_metadata {
  md_id : string; md_session_type : SessionType; md_status : Status; md_title : string;
  md_moderator : string; md_participants : list string; md_surface : option Surface;
  md_linked_authority : option LinkedAuthority;
  md_timeout_evidence : option SelectedRunnerTimeoutEvidence;
  md_turn_mode : string; md_created_at : time; md_limits : Limits; md_state : SessionState;
  md_registry_snapshot : SnapshotMetadata }.

Record SessionSpec := mk_spec {
  sp_id : string; sp_session_type : SessionType; sp_title : string; sp_moderator : string;
  sp_participants : list string; sp_surface : option Surface; sp_request_context : payload;
  sp_linked_authority : option LinkedAuthority;
  sp_timeout_evidence : option SelectedRunnerTimeoutEvidence; sp_turn_mode : string;
  sp_limits : Limits; sp_event_id : string; sp_command_id : string; sp_correlation_id : string }.

Record RunnerInfo := mk_runner {
  rn_invocation_id : string; rn_adapter_kind : string; rn_member : string; rn_attempt : Z;
  rn_is_retry : bool; rn_source_command_id : string; rn_status : string;
  rn_duration_sec : option (Z * Z) }.

(** [ev_payload] is [None] for a nil map; [ev_cost] is the decoded raw message,
    [None] when it is empty. *)
Record EventEnvelope := mk_event {
  ev_schema_version : Z; ev_event_id : string; ev_command_id : string;
  ev_causation_event_id : string; ev_correlation_id : string; ev_session_id : string;
  ev_session_type : SessionType; ev_turn : option Z; ev_phase : Phase; ev_type : string;
  ev_from : string; ev_to : list string; ev_created_at : time; ev_runner : option RunnerInfo;
  ev_cost : option any; ev_payload : option payload }.

Record AppendResult := mk_append_result { ar_cursor : string; ar_offset : Z; ar_event_id : string }.

Record LogIndex := mk_index { ix_events : list EventEnvelope; ix_event_ids : gset string }.

Definition SchemaVersion : Z := 1.
Definition daemonPrincipal : string := "atn-controld".

(** Reading a nil map yields zero values. *)
Definition pl (e : EventEnvelope) : payload := default ∅ (ev_payload e).

(** ** JSON forms of the structs ([omitempty] fields dropped when zero) *)
Definition omit_str (k v : string) : list (string * any) := if v == "" then [] else [(k, AStr v)].
Definition omit_int (k : string) (v : Z) : list (string * any) := if v =? 0 then [] else [(k, AInt v)].
Definition omit_bool (k : string) (v : bool) : list (string * any) := if v then [(k, ABool v)] else [].

Definition surface_json (s : Surface) : any :=
  AStruct ([("kind", AStr (su_kind s))] ++ omit_str "platform" (su_platform s) ++
    omit_str "guild_id" (su_guild_id s) ++ omit_str "channel_id" (su_channel_id s) ++
    omit_str "thread_id" (su_thread_id s) ++ omit_str "origin_message_id" (su_origin_message s) ++
    omit_str "started_by" (su_started_by s) ++ omit_str "delivery_owner" (su_delivery_owner s)).

Definition linked_authority_json (l : LinkedAuthority) : any :=
  AStruct (omit_str "kanban_card_id" (la_kanban_card_id l) ++
           omit_str "vault_decision_note" (la_vault_decision_note l)).

Definition timeout_evidence_json (t : SelectedRunnerTimeoutEvidence) : any :=
  AStruct ([("policy_required", ABool (te_policy_required t));
            ("configured_timeout_sec", AInt (te_configured_timeout_sec t));
            ("effective_timeout_sec", AInt (te_effective_timeout_sec t));
            ("effective_source", AStr (te_effective_source t));
            ("approved_alternative", ABool (te_approved_alternative t))] ++
           omit_str "approval_basis" (te_approval_basis t) ++
           [("compliant", ABool (te_compliant t))]).

Definition quality_json (q : DiscussionQualityLimits) : any :=
  AStruct (omit_str "mode" (dq_mode q) ++
    omit_int "opening_unlinked_turns" (dq_opening_unlinked_turns q) ++
    omit_bool "require_claims" (dq_require_claims q) ++
    omit_bool "require_stance_links_after_opening" (dq_require_stance_links_after_opening q) ++
    omit_bool "allow_new_axis_with_reason" (dq_allow_new_axis_with_reason q) ++
    omit_int "max_consecutive_new_axis" (dq_max_consecutive_new_axis q)).

(** [Council] is a struct field, which omitempty never drops. *)
Definition council_limits_json (l : Limits) : any :=
  AStruct (match li_discussion_quality l with
           | Some q => [("discussion_quality", quality_json q)]
           | None => []
           end).

Definition limits_json (l : Limits) : any :=
  AStruct (omit_int "max_turns" (li_max_turns l) ++
    omit_int "max_discussion_turns" (li_max_discussion_turns l) ++
    omit_int "max_consensus_rounds" (li_max_consensus_rounds l) ++
    omit_int "consensus_round_warning_threshold" (li_consensus_round_warning_threshold l) ++
    omit_int "no_progress_round_limit" (li_no_progress_round_limit l) ++
    omit_int "preparation_timeout_sec" (li_preparation_timeout_sec l) ++
    omit_int "hand_raise_research_timeout_sec" (li_hand_raise_research_timeout_sec l) ++
    omit_int "dispatch_timeout_sec" (li_dispatch_timeout_sec l) ++
    omit_int "clarification_response_timeout_sec" (li_clarification_response_timeout_sec l) ++
    omit_int "escalation_response_timeout_sec" (li_escalation_response_timeout_sec l) ++
    omit_int "runner_max_retries" (li_runner_max_retries l) ++
    omit_int "max_runner_calls" (li_max_runner_calls l) ++
    omit_int "max_tokens_total" (li_max_tokens_total l) ++
    (if fst (li_max_usd l) =? 0 then [] else [("max_usd", AFloat (fst (li_max_usd l)) (snd (li_max_usd l)))]) ++
    omit_int "max_user_escalations" (li_max_user_escalations l) ++
    omit_int "max_elapsed_sec" (li_max_elapsed_sec l) ++
    omit_int "max_artifact_bytes" (li_max_artifact_bytes l) ++
    omit_int "stream_heartbeat_interval_sec" (li_stream_heartbeat_interval_sec l) ++
    omit_int "stream_stale_threshold_sec" (li_stream_stale_threshold_sec l) ++
    omit_int "stream_repoll_threshold_sec" (li_stream_repoll_threshold_sec l) ++
    [("council", council_limits_json l)]).

(** ** Principals and members *)

(** events.go [principalAllowed] *)
Definition principalAllowed (md : SessionMetadata) (principal : string) (allowDaemon : bool) : bool :=
  if principal == "" then false
  else if principal == "user" then true
  else if principal == "atn-controld" then allowDaemon
  else mem_str principal (md_participants md).

(** stream.go [Participant] *)
Definition Participant (md : SessionMetadata) (member : string) : bool :=
  if is_blank member then false else mem_str member (md_participants md).

(** delegation.go [allParticipants] *)
Definition allParticipants (md : SessionMetadata) : list string := sort_strings (md_participants md).

(** council.go [councilMembers], [councilMember], [participantsExcept] *)
Definition councilMembers (md : SessionMetadata) : list string :=
  List.filter (fun p => p != md_moderator md) (md_participants md).

Definition councilMember (md : SessionMetadata) (member : string) : bool :=
  mem_str member (councilMembers md).

Definition participantsExcept (md : SessionMetadata) (except : string) : list string :=
  sort_strings (List.filter (fun p => p != except) (md_participants md)).

(** ** Log queries *)

Definition eventByID (ix : LogIndex) (id : string) : option EventEnvelope :=
  find_first (fun e => ev_event_id e == id) (ix_events ix).

Definition eventByIDAndType (ix : LogIndex) (id ty : string) : option EventEnvelope :=
  find_first (fun e => (ev_event_id e == id) && (ev_type e == ty)) (ix_events ix).

(** runtime_readiness.go [latestEventOfType] *)
Definition latestEventOfType (ix : LogIndex) (ty : string) : option EventEnvelope :=
  find_last (fun e => ev_type e == ty) (ix_events ix).

(** stream.go [latestPhase]: the last logged event decides, the metadata phase
    only for an empty log. *)
Definition latestPhase (md : SessionMetadata) (ix : LogIndex) : Phase :=
  match last (ix_events ix) with
  | Some e => ev_phase e
  | None => st_phase (md_state md)
  end.

(** delegation.go [firstNonModerator] *)
Definition firstNonModerator (md : SessionMetadata) : string :=
  match find_first (fun p => p != md_moderator md) (md_participants md) with
  | Some p => p
  | None => md_moderator md
  end.

(** delegation.go [defaultRecipients] *)
Definition defaultRecipients (current : list string) (fallback : string) : list string :=
  match current with
  | [] => if fallback == "" then [] else [fallback]
  | _ => current
  end.

(** ** The encoded event

    AppendEvent writes json.Marshal(event); ReadLogIndex reads it back.  Only
    the payload and the cost hold values of dynamic type. *)
Definition norm_event (e : EventEnvelope) : EventEnvelope :=
  mk_event (ev_schema_version e) (ev_event_id e) (ev_command_id e) (ev_causation_event_id e)
    (ev_correlation_id e) (ev_session_id e) (ev_session_type e) (ev_turn e) (ev_phase e)
    (ev_type e) (ev_from e) (ev_to e) (ev_created_at e) (ev_runner e)
    (json_norm <$> ev_cost e) ((fun p : payload => json_norm <$> p) <$> ev_payload e).

(** ** Lemmas *)

Lemma statusFromPhase_cases p :
  statusFromPhase p = StatusTerminal \/ statusFromPhase p = StatusBlocked \/ statusFromPhase p = StatusOpen.
Proof. unfold statusFromPhase. destruct (mem_str _ _); [auto|]. destruct (_ == _); auto. Qed.

Lemma terminal_phase_spec p :
  terminal_phase p = true <-> p ∈ ["accepted"; "cancelled"; "finalized"; "unresolved"].
Proof.
  unfold terminal_phase, statusFromPhase. rewrite <- mem_str_spec.
  destruct (mem_str p _); [done|]. destruct (p == "blocked"); done.
Qed.

Lemma councilMember_spec md m :
  councilMember md m = true <-> m ∈ md_participants md /\ m <> md_moderator md.
Proof.
  unfold councilMember, councilMembers. rewrite mem_str_spec, list_elem_of_In, filter_In.
  rewrite negb_true_iff, String.eqb_neq, list_elem_of_In. done.
Qed.

Lemma firstNonModerator_spec md :
  firstNonModerator md = md_moderator md \/ councilMember md (firstNonModerator md) = true.
Proof.
  unfold firstNonModerator. destruct (find_first _ _) as [p|] eqn:E; [right|by left].
  apply find_some in E as [Hin Hne]. apply councilMember_spec.
  rewrite list_elem_of_In. apply negb_true_iff, String.eqb_neq in Hne. done.
Qed.

Lemma latestPhase_app md evs e ids :
  latestPhase md (mk_index (evs ++ [e]) ids) = ev_phase e.
Proof. unfold latestPhase. simpl. by rewrite last_snoc. Qed.

Lemma eventByID_Some ix id e :
  eventByID ix id = Some e -> e ∈ ix_events ix /\ ev_event_id e = id.
Proof.
  unfold eventByID. intros H. apply find_some in H as [Hin Heq].
  split; [by apply list_elem_of_In | by apply String.eqb_eq].
Qed.

Lemma eventByIDAndType_Some ix id ty e :
  eventByIDAndType ix id ty = Some e -> e ∈ ix_events ix /\ ev_event_id e = id /\ ev_type e = ty.
Proof.
  unfold eventByIDAndType. intros H. apply find_some in H as [Hin Heq]. bool_prop.
  repeat split; try done. by apply list_elem_of_In.
Qed.

Lemma pl_norm e : pl (norm_event e) = json_norm <$> pl e.
Proof. unfold pl. simpl. destruct (ev_payload e); simpl; [done | by rewrite fmap_empty]. Qed.
