(* ===== verification/Ids.v ===== *)
(** * Identifiers and cursors (storage/ids.go, the id helpers of storage/stream.go)

    Session ids name directories, so [ValidateSessionID] is a safety boundary;
    event ids are derived from command ids by [eventIDFromCommand]; a cursor is
    the textual form of a log offset and the event id found there. *)

From S2P Require Import Prelude GoValue GoTime Model.

Definition SessionsDirName : string := "sessions".
Definition maxSessionIDLength : Z := 128.

Definition in_range (lo hi : N) (a : Ascii.ascii) : bool :=
  (lo <=? Ascii.N_of_ascii a)%N && (Ascii.N_of_ascii a <=? hi)%N.

(** [a-z], [A-Z], [0-9], underscore, dot, dash: the class both scanners use. *)
Definition id_char (a : Ascii.ascii) : bool :=
  in_range 97 122 a || in_range 65 90 a || in_range 48 57 a ||
  (Ascii.N_of_ascii a =? 95)%N || (Ascii.N_of_ascii a =? 46)%N || (Ascii.N_of_ascii a =? 45)%N.

Fixpoint all_chars (p : Ascii.ascii -> bool) (s : string) : bool :=
  match s with
  | EmptyString => true
  | String a rest => p a && all_chars p rest
  end.

Fixpoint any_char (p : Ascii.ascii -> bool) (s : string) : bool :=
  match s with
  | EmptyString => false
  | String a rest => p a || any_char p rest
  end.

Definition is_byte (n : N) (a : Ascii.ascii) : bool := (Ascii.N_of_ascii a =? n)%N.

(** ids.go [ValidateSessionID] *)
Definition ValidateSessionID (id : string) : result error unit :=
  reject id == "" with
    NewValidationError CategoryInvalidSessionID "session_id" "session id is required";;
  reject maxSessionIDLength <? str_len id with
    NewValidationError CategoryInvalidSessionID "session_id" "session id exceeds 128 bytes";;
  reject negb (has_prefix id "sess_") with
    NewValidationError CategoryInvalidSessionID "session_id" "session id must start with sess_";;
  reject any_char (is_byte 0) id || any_char (fun a => is_byte 47 a || is_byte 92 a) id with
    NewValidationError CategoryInvalidSessionID "session_id"
      "session id must not contain path separators or NUL";;
  reject contains id ".." with
    NewValidationError CategoryInvalidSessionID "session_id"
      "session id must not contain dot-dot segments";;
  reject negb (all_chars id_char id) with
    NewValidationError CategoryInvalidSessionID "session_id"
      "session id must use ASCII letters, digits, dot, underscore, or dash";;
  Ok tt.

(** The [strings.Map] of [eventIDFromCommand]: one underscore per rune outside
    the class; the continuation bytes of a multi-byte rune vanish with it. *)
Fixpoint clean_command (s : string) : string :=
  match s with
  | EmptyString => ""
  | String a rest =>
      if id_char a then String a (clean_command rest)
      else if in_range 128 191 a then clean_command rest
      else String (Ascii.ascii_of_N 95) (clean_command rest)
  end.

(** stream.go [eventIDFromCommand] *)
Definition eventIDFromCommand (prefix commandID : string) : string :=
  let clean := clean_command commandID in
  prefix +:+ "_" +:+
  (if 80 <? str_len clean then String.substring 0 80 clean else clean).

(** events.go [cursorFor]: [cur_%012d_%s] *)
Definition cursorFor (offset : Z) (eventID : string) : string :=
  "cur_" +:+ (if (0 <=? offset) && (offset <? 10 ^ 12) then pad_digits 12 offset else itoa offset)
  +:+ "_" +:+ eventID.

(** stream.go [ParseCursor], through [^cur_([0-9]{12})_(.+)$]; a dot does not
    match a newline. *)
Definition ParseCursor (cursor : string) : result error (Z * string) :=
  let malformed := Err (NewValidationError CategoryInvalidEnvelope "cursor" "malformed cursor") in
  match drop_prefix "cur_" cursor with
  | Some s1 =>
      match parse_digits 12 s1 with
      | Some (offset, s2) =>
          match drop_prefix "_" s2 with
          | Some eventID =>
              if (eventID == "") || any_char (is_byte 10) eventID then malformed
              else Ok (offset, eventID)
          | None => malformed
          end
      | None => malformed
      end
  | None => malformed
  end.

#[global] Arguments cursorFor : simpl never.
#[global] Arguments ParseCursor : simpl never.
#[global] Arguments eventIDFromCommand : simpl never.
#[global] Arguments ValidateSessionID : simpl never.

(** ** Lemmas *)

Lemma all_chars_app p s t : all_chars p (s +:+ t) = all_chars p s && all_chars p t.
Proof. induction s as [|a s IH]; simpl; [done|]. by rewrite IH, andb_assoc. Qed.

Lemma any_char_app p s t : any_char p (s +:+ t) = any_char p s || any_char p t.
Proof. induction s as [|a s IH]; simpl; [done|]. by rewrite IH, orb_assoc. Qed.

(** *** Text that trimming cannot empty *)

Lemma any_char_rev_app p s acc : any_char p (str_rev_app s acc) = any_char p s || any_char p acc.
Proof.
  revert acc. induction s as [|a s IH]; intros acc; simpl; [done|]. rewrite IH. simpl.
  destruct (p a), (any_char p s); simpl; done.
Qed.

Lemma any_char_rev p s : any_char p (str_rev s) = any_char p s.
Proof. unfold str_rev. rewrite any_char_rev_app. simpl. apply orb_false_r. Qed.

Lemma strip_one_keeps p seqs s s' :
  Forall (fun q => any_char p q = false) seqs -> strip_one seqs s = Some s' -> any_char p s' = any_char p s.
Proof.
  induction 1 as [|q seqs Hq _ IH]; simpl; [done|].
  destruct (drop_prefix q s) as [r|] eqn:Hd; [|by apply IH]. intros [= <-].
  apply drop_prefix_spec in Hd as ->. by rewrite any_char_app, Hq.
Qed.

Lemma trim_left_keeps p fuel seqs s :
  Forall (fun q => any_char p q = false) seqs -> any_char p (trim_left_with fuel seqs s) = any_char p s.
Proof.
  intros Hs. revert s. induction fuel as [|fuel IH]; intros s; simpl; [done|].
  destruct (strip_one seqs s) as [s'|] eqn:H; [|done]. rewrite IH. by eapply strip_one_keeps.
Qed.

Definition is_letter_c (a : Ascii.ascii) : bool := is_byte 99 a.

(** Trimming keeps the characters that no white space has. *)
Lemma trim_space_keeps p s :
  Forall (fun q => any_char p q = false) space_seqs -> Forall (fun q => any_char p q = false) (map str_rev space_seqs) ->
  any_char p (trim_space s) = any_char p s.
Proof. intros Hs Hr. unfold trim_space, trim_right, trim_left. by rewrite any_char_rev, trim_left_keeps, any_char_rev, trim_left_keeps. Qed.

Lemma trim_space_letters s : any_char is_letter_c (trim_space s) = any_char is_letter_c s.
Proof. apply trim_space_keeps; repeat (constructor; [done|]); constructor. Qed.

(** A text that contains a letter is not blank. *)
Lemma letter_nonblank s : any_char is_letter_c s = true -> is_blank s = false.
Proof.
  intros H. unfold is_blank. apply String.eqb_neq. intros E. rewrite <- trim_space_letters, E in H. done.
Qed.

Lemma clean_command_chars s : all_chars id_char (clean_command s) = true.
Proof.
  induction s as [|a s IH]; simpl; [done|].
  destruct (id_char a) eqn:Ha; simpl; [by rewrite Ha|]. by destruct (in_range _ _ _).
Qed.

Lemma clean_command_id s : all_chars id_char s = true -> clean_command s = s.
Proof.
  induction s as [|a s IH]; simpl; [done|]. intros H. bool_prop.
  rewrite H. by rewrite IH.
Qed.

Lemma substring_chars p n m s : all_chars p s = true -> all_chars p (String.substring n m s) = true.
Proof.
  revert n m. induction s as [|a s IH]; intros [|n] [|m] H; simpl in *; try done; bool_prop.
  - rewrite H. simpl. by apply IH.
  - by apply IH.
  - by apply IH.
Qed.

Lemma substring_length n m s : (String.length (String.substring n m s) <= m)%nat.
Proof.
  revert n m. induction s as [|a s IH]; intros [|n] [|m]; simpl; try lia; try apply IH.
  specialize (IH 0%nat m). lia.
Qed.

(** A validated session id is one non-special path element: non-empty, at most
    128 bytes, without separator, NUL or dot-dot. *)
Lemma ValidateSessionID_ok id :
  ValidateSessionID id = Ok tt <->
  id <> "" /\ str_len id <= 128 /\ has_prefix id "sess_" = true /\
  contains id ".." = false /\ all_chars id_char id = true.
Proof.
  unfold ValidateSessionID. split.
  - intros H. run_inv H. unfold maxSessionIDLength in *. bool_prop. by repeat split.
  - intros (Hne & Hlen & Hp & Hdd & Hc).
    apply String.eqb_neq in Hne as ->.
    replace (maxSessionIDLength <? str_len id) with false by (unfold maxSessionIDLength; lia).
    rewrite Hp, Hdd, Hc. simpl.
    replace (any_char _ id || any_char _ id) with false; [done|].
    symmetry. clear -Hc. induction id as [|a id IH]; simpl in *; [done|].
    apply andb_true_iff in Hc as [Ha Hc]. specialize (IH Hc).
    apply orb_false_iff in IH as [-> ->]. rewrite !orb_false_r.
    unfold id_char, in_range, is_byte in *.
    destruct (N.eqb_spec (Ascii.N_of_ascii a) 0) as [E|_]; [by rewrite E in Ha|].
    destruct (N.eqb_spec (Ascii.N_of_ascii a) 47) as [E|_]; [by rewrite E in Ha|].
    destruct (N.eqb_spec (Ascii.N_of_ascii a) 92) as [E|_]; [by rewrite E in Ha | done].
Qed.

Lemma event_id_nonblank_aux prefix c : eventIDFromCommand prefix c = prefix +:+ "_" +:+
  (if 80 <? str_len (clean_command c) then String.substring 0 80 (clean_command c) else clean_command c).
Proof. reflexivity. Qed.

Lemma parse_cursor_for offset id :
  0 <= offset < 10 ^ 12 -> id <> "" -> any_char (is_byte 10) id = false ->
  ParseCursor (cursorFor offset id) = Ok (offset, id).
Proof.
  intros Ho Hne Hnl. unfold ParseCursor, cursorFor.
  replace ((0 <=? offset) && (offset <? 10 ^ 12)) with true by lia.
  replace (drop_prefix "cur_" _) with (Some (pad_digits 12 offset +:+ "_" +:+ id));
    [| symmetry; by apply drop_prefix_spec].
  rewrite parse_pad_digits by done.
  replace (drop_prefix "_" _) with (Some id); [| symmetry; by apply drop_prefix_spec].
  apply String.eqb_neq in Hne as ->. by rewrite Hnl.
Qed.

Lemma pad_parse_digits w s n r :
  parse_digits w s = Some (n, r) -> 0 <= n < 10 ^ Z.of_nat w /\ s = pad_digits w n +:+ r.
Proof.
  revert s n. induction w as [|w IH]; intros s n; cbn [parse_digits].
  - intros [= <- <-]. split; [simpl; lia | done].
  - destruct s as [|a s]; [done|]. destruct (digit_value a) as [v|] eqn:Hv; [|done].
    destruct (parse_digits w s) as [[n' r']|] eqn:E; [|done]. intros [= <- <-].
    apply IH in E as [Hb ->].
    assert (0 <= v < 10 /\ digit v = a) as [Hv10 Hdig].
    { unfold digit_value in Hv. destruct (_ && _) eqn:Hr; [|done]. injection Hv as <-. bool_prop.
      split; [lia|]. unfold digit.
      replace (48 + Z.to_N (Z.of_N (Ascii.N_of_ascii a) - 48))%N with (Ascii.N_of_ascii a) by lia.
      apply Ascii.ascii_N_embedding. }
    rewrite Nat2Z.inj_succ, Z.pow_succ_r by lia. split; [nia|]. simpl.
    rewrite Z.div_add_l, Z.div_small, Z.add_0_r by lia.
    rewrite Z.add_comm, Z.mod_add, Z.mod_small by lia. by rewrite Hdig.
Qed.

Lemma parse_cursor_inv c offset id :
  ParseCursor c = Ok (offset, id) ->
  c = cursorFor offset id /\ 0 <= offset < 10 ^ 12 /\ id <> "" /\ any_char (is_byte 10) id = false.
Proof.
  unfold ParseCursor. intros H. run_inv H. simplify_eq.
  repeat match goal with
  | H : parse_digits _ _ = Some _ |- _ => apply pad_parse_digits in H as [? ->]
  | H : drop_prefix _ _ = Some _ |- _ => apply drop_prefix_spec in H as ->
  end. bool_prop.
  unfold cursorFor. replace ((0 <=? offset) && (offset <? 10 ^ 12)) with true by lia.
  repeat split; done || lia.
Qed.

(** *** Identifier text is never trimmed *)

Definition starts_outside (q : string) : bool :=
  match q with
  | String a _ => negb (id_char a)
  | EmptyString => false
  end.

Lemma strip_one_id seqs a s : forallb starts_outside seqs = true -> id_char a = true -> strip_one seqs (String a s) = None.
Proof.
  intros Hs Hc. apply strip_one_None. apply Forall_forall. intros q Hq.
  assert (Hq' : starts_outside q = true).
  { apply (proj1 (forallb_forall _ _) Hs). by apply list_elem_of_In. }
  destruct q as [|b q]; [done|]. simpl in *. bool_prop.
  destruct (Ascii.eqb_spec b a) as [->|]; [congruence | done].
Qed.

Lemma all_chars_rev p s : all_chars p (str_rev s) = all_chars p s.
Proof.
  induction s as [|a s IH]; [done|]. rewrite str_rev_cons, all_chars_app, IH. simpl.
  by rewrite andb_true_r, andb_comm.
Qed.

Lemma trim_id_text seqs fuel s :
  forallb starts_outside seqs = true -> all_chars id_char s = true -> trim_left_with fuel seqs s = s.
Proof.
  intros Hs H. destruct s as [|a s].
  - destruct fuel; [done|]. simpl. replace (strip_one seqs "") with (@None string); [done|]. symmetry.
    apply strip_one_None, Forall_forall. intros [|b q] Hq; [|done]. exfalso.
    apply list_elem_of_In in Hq. by apply (proj1 (forallb_forall _ _) Hs) in Hq.
  - simpl in H. bool_prop. apply trim_left_with_id. by apply strip_one_id.
Qed.

Lemma trim_space_id s : all_chars id_char s = true -> trim_space s = s.
Proof.
  intros H. unfold trim_space, trim_right, trim_left. cbv zeta.
  rewrite (trim_id_text space_seqs), trim_id_text, str_rev_involutive; try done. by rewrite all_chars_rev.
Qed.

(** A line of identifier text, read back without its newline. *)
Lemma trim_space_line a s : all_chars id_char (String a s) = true -> trim_space (String a s +:+ nl) = String a s.
Proof.
  intros H. pose proof H as Hc. simpl in Hc. bool_prop. unfold trim_space, trim_right, trim_left. cbv zeta.
  rewrite str_app_cons, (trim_left_with_id space_seqs) by (by apply strip_one_id).
  rewrite <- str_app_cons, str_rev_app_distr. change (str_rev nl) with nl.
  change (nl +:+ str_rev (String a s)) with (String (Ascii.ascii_of_N 10) (str_rev (String a s))).
  simpl String.length. cbn [trim_left_with].
  change (strip_one (map str_rev space_seqs) (String (Ascii.ascii_of_N 10) (str_rev (String a s))))
    with (Some (str_rev (String a s))).
  cbv iota. rewrite trim_id_text, str_rev_involutive; try done. by rewrite all_chars_rev.
Qed.

(** *** Cursors are identifier text *)

Lemma digit_id_char d : 0 <= d < 10 -> id_char (digit d) = true.
Proof.
  intros H. assert (Hd : d ∈ [0; 1; 2; 3; 4; 5; 6; 7; 8; 9]) by (rewrite !elem_of_cons; lia).
  rewrite !elem_of_cons, elem_of_nil in Hd. destruct_or?; subst; done.
Qed.

Lemma pad_digits_id_chars w n : 0 <= n < 10 ^ Z.of_nat w -> all_chars id_char (pad_digits w n) = true.
Proof.
  revert n. induction w as [|w IH]; intros n Hn; [done|]. cbn [pad_digits all_chars].
  rewrite Nat2Z.inj_succ, Z.pow_succ_r in Hn by lia. apply andb_true_iff. split.
  - apply digit_id_char. split; [apply Z.div_pos; lia | apply Z.div_lt_upper_bound; lia].
  - apply IH. apply Z.mod_pos_bound. lia.
Qed.

Lemma cursor_text offset id :
  0 <= offset < 10 ^ 12 -> cursorFor offset id = "cur_" +:+ pad_digits 12 offset +:+ "_" +:+ id.
Proof. intros H. unfold cursorFor. by replace ((0 <=? offset) && (offset <? 10 ^ 12)) with true by lia. Qed.

Lemma cursor_id_chars offset id :
  0 <= offset < 10 ^ 12 -> all_chars id_char id = true -> all_chars id_char (cursorFor offset id) = true.
Proof.
  intros Ho Hid. rewrite cursor_text by done. rewrite !all_chars_app, pad_digits_id_chars, Hid by done. done.
Qed.

Lemma cursor_inj offset offset' id id' :
  0 <= offset < 10 ^ 12 -> 0 <= offset' < 10 ^ 12 -> cursorFor offset id = cursorFor offset' id' ->
  offset = offset' /\ id = id'.
Proof.
  assert (Hd : forall s, drop_prefix "cur_" ("cur_" +:+ s) = Some s) by (intros s; by apply drop_prefix_spec).
  intros Ho Ho' H. rewrite !cursor_text in H by done. apply (f_equal (drop_prefix "cur_")) in H.
  rewrite !Hd in H. apply (inj Some), (f_equal (parse_digits 12)) in H. rewrite !parse_pad_digits in H by done.
  apply (inj Some) in H. injection H as -> H. split; [done | exact H].
Qed.

(** A parseable prefix of a cursor has its offset and a prefix of its id. *)
Lemma cursor_prefix offset id c rest offset' id' :
  0 <= offset < 10 ^ 12 -> c +:+ rest = cursorFor offset id -> ParseCursor c = Ok (offset', id') ->
  offset' = offset /\ id = id' +:+ rest.
Proof.
  intros Ho Hc Hp. apply parse_cursor_inv in Hp as (-> & Ho' & _ & _).
  rewrite (cursor_text offset') in Hc by done. rewrite !str_app_assoc, <- cursor_text in Hc by done.
  by apply cursor_inj in Hc as [-> <-].
Qed.
