(* ===== verification/Registry.v ===== *)
(** * The member registry (src/internal/registry)

    The data home's [registry.yaml]: its schema, the safety checks before it is
    read, the resolution of member wrappers to executables, its snapshots, and
    the reconciliation that adds the members of a council. *)

From S2P Require Import Prelude Paths GoValue GoTime Model Ids.

(** ** Errors *)

Definition CategoryDataHomeUnsafe : string := "registry_data_home_unsafe".
Definition CategoryMissing : string := "registry_missing".
Definition CategoryNotRegular : string := "registry_not_regular".
Definition CategorySymlinkForbidden : string := "registry_symlink_forbidden".
Definition CategoryOwnerUnsafe : string := "registry_owner_unsafe".
Definition CategoryPermissionsUnsafe : string := "registry_permissions_unsafe".
Definition CategorySchemaInvalid : string := "registry_schema_invalid".
Definition CategoryUnknownRuntimeKind : string := "registry_unknown_runtime_kind".
Definition CategoryUnknownAdapterKind : string := "registry_unknown_adapter_kind".
Definition CategoryReservedPrincipalCollision : string := "registry_reserved_principal_collision".
Definition CategoryChangedDuringLoad : string := "registry_changed_during_load".
Definition CategoryWrapperUnresolvable : string := "wrapper_unresolvable".
Definition CategoryWrapperOutsideAllowlist : string := "wrapper_outside_allowlist".
Definition CategoryWrapperPermissionsUnsafe : string := "wrapper_permissions_unsafe".
Definition CategoryEnvAllowlistUnsafe : string := "env_allowlist_unsafe".

(** A validation error of the registry package, or any other error.  Its issues
    have the fields of the storage package's. *)
Inductive reg_error :=
| RegInvalid (issues : list Issue)
| RegOther (message : string).

Definition reg_fail (category path message : string) : reg_error := RegInvalid [mk_issue category path message].

Definition IsValidationError (e : reg_error) : bool :=
  match e with
  | RegInvalid _ => true
  | RegOther _ => false
  end.

Definition reg_issues (e : reg_error) : list Issue :=
  match e with
  | RegInvalid issues => issues
  | RegOther message => [mk_issue CategorySchemaInvalid "" message]
  end.

(** Issue.String *)
Definition issue_text (i : Issue) : string :=
  join ": " (List.filter (fun part => part != "") [is_category i; is_path i; is_message i]).

(** ValidationError.Error, and the text of any other error *)
Definition reg_text (e : reg_error) : string :=
  match e with
  | RegInvalid [] => "registry validation failed"
  | RegInvalid [i] => issue_text i
  | RegInvalid issues => itoa (len_z issues) +:+ " registry validation issues: " +:+ join "; " (map issue_text issues)
  | RegOther message => message
  end.

(** ** The file system, as os.Lstat shows it by path *)

Inductive file_kind :=
| KRegular
| KDir
| KSymlink (target : string)
| KOther.

(** [fi_mode] is the permission bits, [fi_id] the device and inode. *)
Record file_info := mk_info { fi_kind : file_kind; fi_mode : Z; fi_uid : Z; fi_id : Z; fi_size : Z }.

Abbreviation filesystem := (gmap string file_info).

Definition is_dir (i : file_info) : bool := match fi_kind i with KDir => true | _ => false end.
Definition is_regular (i : file_info) : bool := match fi_kind i with KRegular => true | _ => false end.
Definition group_writable (i : file_info) : bool := negb (Z.land (fi_mode i) 18 =? 0).
Definition executable (i : file_info) : bool := negb (Z.land (fi_mode i) 73 =? 0).

(** [%04o] on permission bits *)
Definition octal4 (z : Z) : string :=
  String (digit (z / 512 mod 8)) (String (digit (z / 64 mod 8)) (String (digit (z / 8 mod 8)) (String (digit (z mod 8)) ""))).

Definition unsafe_mode (i : file_info) : string := "mode " +:+ octal4 (fi_mode i) +:+ " is group/world writable".

(** [%q] on text without characters that need escaping *)
Definition quoted (s : string) : string := dquote +:+ s +:+ dquote.

(** The lookups a runtime makes outside the package. *)
Record Runtime := mk_reg_runtime {
  ru_env : string -> option string; ru_home : result reg_error string; ru_uid : Z }.

(** ** The data home *)

Definition RegistryFileName : string := "registry.yaml".

Definition RegistryPath (dataHome : string) : string := Join [Clean dataHome; RegistryFileName].

Definition ResolveDataHome (ru : Runtime) : result reg_error string :=
  match ru_env ru "ATN_HOME" with
  | Some (String _ _ as value) => Ok (Clean value)
  | _ =>
      match ru_env ru "XDG_DATA_HOME" with
      | Some (String _ _ as value) => Ok (Join [Clean value; "agent-turn-network"])
      | _ =>
          try home := ru_home ru in
          reject home == "" with RegOther "resolve home directory: empty home";;
          Ok (Join [home; ".atn"])
      end
  end.

Definition ValidateDataHome (fs : filesystem) (dataHome : string) (ru : Runtime) : result reg_error unit :=
  match fs !! dataHome with
  | None => Err (reg_fail CategoryDataHomeUnsafe dataHome "data home does not exist")
  | Some info =>
      reject negb (is_dir info) with reg_fail CategoryDataHomeUnsafe dataHome "data home is not a directory";;
      reject negb (fi_uid info =? ru_uid ru) with
        reg_fail CategoryDataHomeUnsafe dataHome
          ("owner uid " +:+ itoa (fi_uid info) +:+ " is not current uid " +:+ itoa (ru_uid ru));;
      reject group_writable info with reg_fail CategoryDataHomeUnsafe dataHome (unsafe_mode info);;
      Ok tt
  end.

(** *** Following links, making directories *)

(** os.Stat's target; the kernel gives up after 40 links. *)
Fixpoint follow_links (fuel : nat) (fs : filesystem) (path : string) : option string :=
  match fuel with
  | O => None
  | S fuel' =>
      match fs !! path with
      | Some (mk_info (KSymlink target) _ _ _ _) =>
          follow_links fuel' fs (Clean (if IsAbs target then target else Join [Dir path; target]))
      | _ => Some path
      end
  end.

Definition stat_path (fs : filesystem) (path : string) : option string := follow_links 41 fs path.

(** The directories from the first to the path itself. *)
Definition ancestors (path : string) : list string :=
  let root := if IsAbs path then "/" else "" in
  map (fun n => root +:+ join "/" (take n (clean_parts path))) (seq 1 (length (clean_parts path))).

(** A new directory with mode 0700. *)
Definition private_dir (ru : Runtime) : file_info := mk_info KDir 448 (ru_uid ru) 0 0.

(** One directory of MkdirAll. *)
Definition make_dir (ru : Runtime) (fs : filesystem) (dir : string) : result reg_error filesystem :=
  match fs !! dir with
  | None => Ok (<[dir := private_dir ru]> fs)
  | Some _ =>
      match stat_path fs dir with
      | Some target =>
          match fs !! target with
          | Some info => if is_dir info then Ok fs else Err (RegOther ("mkdir " +:+ dir +:+ ": not a directory"))
          | None => Err (RegOther ("mkdir " +:+ dir +:+ ": file exists"))
          end
      | None => Err (RegOther ("mkdir " +:+ dir +:+ ": too many levels of symbolic links"))
      end
  end.

Fixpoint make_dirs (ru : Runtime) (fs : filesystem) (dirs : list string) : filesystem * result reg_error unit :=
  match dirs with
  | [] => (fs, Ok tt)
  | dir :: rest =>
      match make_dir ru fs dir with
      | Ok fs1 => make_dirs ru fs1 rest
      | Err e => (fs, Err e)
      end
  end.

Definition MkdirAll (ru : Runtime) (fs : filesystem) (path : string) : filesystem * result reg_error unit :=
  make_dirs ru fs (ancestors path).

(** chmod 0700 on what the path names *)
Definition chmod_private (fs : filesystem) (path : string) : filesystem * result reg_error unit :=
  match stat_path fs path with
  | Some target =>
      match fs !! target with
      | Some info => (<[target := mk_info (fi_kind info) 448 (fi_uid info) (fi_id info) (fi_size info)]> fs, Ok tt)
      | None => (fs, Err (RegOther ("chmod " +:+ path +:+ ": no such file or directory")))
      end
  | None => (fs, Err (RegOther ("chmod " +:+ path +:+ ": too many levels of symbolic links")))
  end.

Definition EnsureDataHome (fs : filesystem) (dataHome : string) (ru : Runtime)
    : filesystem * result reg_error bool :=
  match fs !! dataHome with
  | Some _ => (fs, try _ := ValidateDataHome fs dataHome ru in Ok false)
  | None =>
      match MkdirAll ru fs dataHome with
      | (fs1, Err e) => (fs1, Err e)
      | (fs1, Ok _) =>
          match chmod_private fs1 dataHome with
          | (fs2, Err e) => (fs2, Err e)
          | (fs2, Ok _) => (fs2, try _ := ValidateDataHome fs2 dataHome ru in Ok true)
          end
      end
  end.

(** ** The schema *)

Record WrapperResolution := mk_resolution {
  wr_input : string; wr_candidate : string; wr_resolved : string; wr_root : string; wr_via : string; wr_mode : Z }.

Record Member := mk_member {
  me_id : string; me_display_name : string; me_wrapper : string; me_workspace : string; me_role : string;
  me_enabled : bool; me_adapter_kind : string; me_strengths : list string; me_env_allowlist : list string;
  me_notes : string; me_runtime_kind : string; me_autostart : option bool; me_stream_filter : string;
  me_resolved : option WrapperResolution }.

Record Registry := mk_registry {
  rg_schema : Z; rg_members : gmap string Member; rg_allowlist : list string; rg_secrets : list string }.

Record rawMember := mk_raw_member {
  rm_display_name : string; rm_wrapper : string; rm_workspace : string; rm_role : string;
  rm_enabled : option bool; rm_adapter_kind : string; rm_strengths : list string;
  rm_env_allowlist : list string; rm_notes : string; rm_runtime_kind : string; rm_autostart : option bool;
  rm_stream_filter : string }.

Record rawRegistry := mk_raw_registry {
  rr_schema : Z; rr_members : option (gmap string rawMember); rr_allowlist : list string; rr_secrets : list string }.

Definition defaultSchema : Z := 1.

(** [^[A-Za-z0-9][A-Za-z0-9_.-]*$] *)
Definition memberIDPattern (id : string) : bool :=
  match id with
  | String a rest => (in_range 97 122 a || in_range 65 90 a || in_range 48 57 a) && all_chars id_char rest
  | EmptyString => false
  end.

Definition env_char (a : Ascii.ascii) : bool := in_range 97 122 a || in_range 65 90 a || is_byte 95 a.

(** [^[A-Za-z_][A-Za-z0-9_]*$] *)
Definition envNamePattern (name : string) : bool :=
  match name with
  | String a rest => env_char a && all_chars (fun b => env_char b || in_range 48 57 b) rest
  | EmptyString => false
  end.

Definition reserved_principal (id : string) : bool := (id == "user") || (id == "atn-controld").

Definition when_issue (b : bool) (category path message : string) : list Issue :=
  if b then [mk_issue category path message] else [].

Fixpoint env_issues (path : string) (i : Z) (names : list string) : list Issue :=
  match names with
  | [] => []
  | name :: rest =>
      let itemPath := path +:+ "[" +:+ itoa i +:+ "]" in
      (if negb (envNamePattern name)
       then [mk_issue CategoryEnvAllowlistUnsafe itemPath "env allowlist entries must be variable names only"]
       else when_issue (has_prefix name "LD_" || has_prefix name "DYLD_") CategoryEnvAllowlistUnsafe itemPath
              "loader override variables are forbidden")
      ++ env_issues path (i + 1) rest
  end.

Definition ValidateEnvAllowlist (names : list string) (path : string) : list Issue := env_issues path 0 names.

(** The code walks [required] in the order of a map; this is one such order. *)
Definition required_fields (raw : rawMember) : list (string * string) :=
  [("display_name", rm_display_name raw); ("wrapper", rm_wrapper raw); ("workspace", rm_workspace raw);
   ("role", rm_role raw); ("adapter_kind", rm_adapter_kind raw)].

Definition member_of_raw (id : string) (raw : rawMember) : Member :=
  mk_member id (rm_display_name raw) (rm_wrapper raw) (rm_workspace raw) (rm_role raw)
    (default false (rm_enabled raw)) (rm_adapter_kind raw) (rm_strengths raw) (rm_env_allowlist raw)
    (rm_notes raw) (rm_runtime_kind raw) (rm_autostart raw) (rm_stream_filter raw) None.

Definition member_issues (id : string) (raw : rawMember) : list Issue :=
  let path := "members." +:+ id in
  when_issue (reserved_principal id) CategoryReservedPrincipalCollision path "member id is reserved" ++
  when_issue (negb (memberIDPattern id)) CategorySchemaInvalid path
    "member id must use letters, digits, dot, underscore, or dash and start with a letter or digit" ++
  concat (map (fun f => when_issue (is_blank f.2) CategorySchemaInvalid (path +:+ "." +:+ f.1) "required field is empty")
            (required_fields raw)) ++
  when_issue (match rm_enabled raw with None => true | Some _ => false end) CategorySchemaInvalid
    (path +:+ ".enabled") "required field missing" ++
  when_issue ((rm_adapter_kind raw != "") && (rm_adapter_kind raw != "hermes-agent")) CategoryUnknownAdapterKind
    (path +:+ ".adapter_kind") ("unsupported adapter kind " +:+ quoted (rm_adapter_kind raw)) ++
  when_issue ((rm_runtime_kind raw != "") && (rm_runtime_kind raw != "hermes-cli-stream")) CategoryUnknownRuntimeKind
    (path +:+ ".runtime_kind") ("unsupported runtime kind " +:+ quoted (rm_runtime_kind raw)) ++
  when_issue (contains (rm_workspace raw) nul) CategorySchemaInvalid (path +:+ ".workspace") "workspace contains NUL" ++
  ValidateEnvAllowlist (rm_env_allowlist raw) (path +:+ ".env_allowlist").

Definition validateRawMember (id : string) (raw : rawMember) : Member * list Issue :=
  (member_of_raw id raw, member_issues id raw).

#[global] Instance rawMember_eq_dec : EqDecision rawMember.
Proof. solve_decision. Defined.
#[global] Instance rawRegistry_eq_dec : EqDecision rawRegistry.
Proof. solve_decision. Defined.

Section schema.
(** regexp.Compile on a secret pattern: the error text, if it fails. *)
Variable compile_error : string -> option string.

Fixpoint pattern_issues (i : Z) (patterns : list string) : list Issue :=
  match patterns with
  | [] => []
  | p :: rest =>
      match compile_error p with
      | Some message => [mk_issue CategorySchemaInvalid ("secret_patterns[" +:+ itoa i +:+ "]") message]
      | None => []
      end ++ pattern_issues (i + 1) rest
  end.

Definition effective_schema (z : Z) : Z := if z =? 0 then defaultSchema else z.

Definition validateRawRegistry (raw : rawRegistry) : Registry * list Issue :=
  let schema := effective_schema (rr_schema raw) in
  match rr_members raw with
  | None =>
      (mk_registry schema ∅ (rr_allowlist raw) (rr_secrets raw),
       [mk_issue CategorySchemaInvalid "members" "required root key missing"])
  | Some members =>
      (mk_registry schema (map_imap (fun id m => Some (member_of_raw id m)) members) (rr_allowlist raw) (rr_secrets raw),
       when_issue (negb (schema =? defaultSchema)) CategorySchemaInvalid "schema_version"
         ("unsupported schema version " +:+ itoa schema) ++
       pattern_issues 0 (rr_secrets raw) ++
       concat (map (fun p => snd (validateRawMember p.1 p.2)) (sorted_entries members)))
  end.

(** The content of a registry file: undecodable, with the category and text of
    the error, or the decoded document. *)
Inductive registry_doc :=
| DocBad (category message : string)
| DocRaw (raw : rawRegistry).

#[global] Instance registry_doc_eq_dec : EqDecision registry_doc.
Proof. solve_decision. Defined.

Definition checked_registry (raw : rawRegistry) : result reg_error Registry :=
  match validateRawRegistry raw with
  | (registry, []) => Ok registry
  | (_, issues) => Err (RegInvalid issues)
  end.

Definition ParseRegistry (doc : registry_doc) : result reg_error Registry :=
  match doc with
  | DocBad category message => Err (reg_fail category RegistryFileName message)
  | DocRaw raw => checked_registry raw
  end.

End schema.

Definition SortedMemberIDs (rg : Registry) : list string := sort_strings (map fst (map_to_list (rg_members rg))).

Definition EffectiveSchemaVersion (rg : Registry) : Z := effective_schema (rg_schema rg).

(** ** Wrappers *)

Definition DefaultWrapperPathAllowlist : list string := ["/usr/local/bin"; "/opt/hermes"; "~/.local/bin"].

Definition expandHome (path : string) (ru : Runtime) : result reg_error string :=
  if (path == "~") || has_prefix path "~/" then
    try home := ru_home ru in
    Ok (if path == "~" then home else Join [home; trim_prefix path "~/"])
  else Ok path.

Fixpoint expand_roots (ru : Runtime) (seen values : list string) : result reg_error (list string) :=
  match values with
  | [] => Ok []
  | value :: rest =>
      try expanded := expandHome value ru in
      let root := Clean expanded in
      if mem_str root seen then expand_roots ru seen rest
      else try roots := expand_roots ru (root :: seen) rest in Ok (root :: roots)
  end.

Definition expandAllowlist (extra : list string) (ru : Runtime) : result reg_error (list string) :=
  expand_roots ru [] (match extra with [] => DefaultWrapperPathAllowlist | _ => extra end).

Definition containingAllowlistRoot (path : string) (roots : list string) : option string :=
  Clean <$> find_first (fun root => pathContains root path) roots.

(** The path behind a single symbolic link, and how it was reached. *)
Definition follow_link (fs : filesystem) (candidate : string) (info : file_info)
    : result reg_error (string * string * file_info) :=
  match fi_kind info with
  | KSymlink target =>
      let target := if IsAbs target then target else Join [Dir candidate; target] in
      let resolved := Clean target in
      match fs !! resolved with
      | None => Err (reg_fail CategoryWrapperUnresolvable candidate ("lstat " +:+ resolved +:+ ": no such file or directory"))
      | Some info' =>
          match fi_kind info' with
          | KSymlink _ => Err (reg_fail CategoryWrapperUnresolvable candidate "wrapper symlink target is another symlink")
          | _ => Ok (resolved, "single-symlink", info')
          end
      end
  | _ => Ok (candidate, "direct", info)
  end.

Definition validateWrapperCandidate (fs : filesystem) (candidate input : string) (roots : list string) (ru : Runtime)
    : result reg_error (option WrapperResolution) :=
  match fs !! candidate with
  | None => Ok None
  | Some info =>
      try target := follow_link fs candidate info in
      let '(resolved, via, info) := target in
      let unsafe message := reg_fail CategoryWrapperPermissionsUnsafe resolved message in
      reject negb (is_regular info) with unsafe "wrapper target is not a regular file";;
      reject negb (executable info) with unsafe ("mode " +:+ octal4 (fi_mode info) +:+ " is not executable");;
      reject group_writable info with unsafe (unsafe_mode info);;
      reject negb (fi_uid info =? 0) && negb (fi_uid info =? ru_uid ru) with
        unsafe ("owner uid " +:+ itoa (fi_uid info) +:+ " is not current uid " +:+ itoa (ru_uid ru) +:+ " or root");;
      match containingAllowlistRoot resolved roots with
      | None => Err (reg_fail CategoryWrapperOutsideAllowlist resolved
                       "canonical wrapper target is outside wrapper_path_allowlist")
      | Some root => Ok (Some (mk_resolution input candidate (Clean resolved) root via (fi_mode info)))
      end
  end.

(** The first candidate that is accepted, else the first validation error. *)
Fixpoint first_wrapper (fs : filesystem) (wrapper : string) (roots : list string) (ru : Runtime)
    (firstError : option reg_error) (candidates : list string) : result reg_error WrapperResolution :=
  match candidates with
  | [] =>
      Err (default (reg_fail CategoryWrapperUnresolvable wrapper "wrapper could not be resolved in allowlist") firstError)
  | candidate :: rest =>
      match validateWrapperCandidate fs candidate wrapper roots ru with
      | Ok (Some resolution) => Ok resolution
      | Ok None => first_wrapper fs wrapper roots ru firstError rest
      | Err e =>
          let firstError := match firstError with
                            | None => if IsValidationError e then Some e else None
                            | _ => firstError
                            end in
          first_wrapper fs wrapper roots ru firstError rest
      end
  end.

Definition ResolveWrapper (fs : filesystem) (wrapper : string) (allowlist : list string) (ru : Runtime)
    : result reg_error WrapperResolution :=
  reject is_blank wrapper with reg_fail CategoryWrapperUnresolvable "" "wrapper is empty";;
  try roots := expandAllowlist allowlist ru in
  try candidates :=
    (if IsAbs wrapper then Ok [Clean wrapper]
     else if Base wrapper == wrapper then Ok (map (fun root => Join [root; wrapper]) roots)
     else Err (reg_fail CategoryWrapperUnresolvable wrapper "wrapper must be absolute or a bare command name")) in
  first_wrapper fs wrapper roots ru None candidates.

(** ** Loading *)

(** The registry file of a data home: what Lstat says is in [rw_fs]; [rw_doc] is
    its content, when it is a regular file. *)
Record reg_world := mk_reg_world { rw_fs : filesystem; rw_doc : registry_doc }.

(** The bytes a registry was loaded from, by what they are. *)
Inductive source_content :=
| NoContent
| RegistryContent (doc : registry_doc)
| SnapshotContent.

Record LoadedRegistry := mk_loaded {
  ld_data_home : string; ld_source_path : string; ld_sha256 : string; ld_uid : Z;
  ld_registry : Registry; ld_content : source_content }.

Definition same_kind (a b : file_info) : bool :=
  match fi_kind a, fi_kind b with
  | KRegular, KRegular | KDir, KDir | KSymlink _, KSymlink _ | KOther, KOther => true
  | _, _ => false
  end.

Definition compareFileMetadata (path : string) (before after_ : file_info) : result reg_error unit :=
  reject negb (fi_id before =? fi_id after_) with
    reg_fail CategoryChangedDuringLoad path "registry file identity changed during load";;
  reject negb (same_kind before after_) || negb (fi_size before =? fi_size after_) with
    reg_fail CategoryChangedDuringLoad path "registry file metadata changed during load";;
  Ok tt.

Definition validateRegistryFileInfo (path : string) (info : file_info) (ru : Runtime) : result reg_error unit :=
  reject negb (is_regular info) with reg_fail CategoryNotRegular path "registry file is not regular";;
  reject negb (fi_uid info =? 0) && negb (fi_uid info =? ru_uid ru) with
    reg_fail CategoryOwnerUnsafe path
      ("owner uid " +:+ itoa (fi_uid info) +:+ " is not current uid " +:+ itoa (ru_uid ru) +:+ " or root");;
  reject group_writable info with reg_fail CategoryPermissionsUnsafe path (unsafe_mode info);;
  Ok tt.

Definition with_wrapper (m : Member) (r : WrapperResolution) : Member :=
  mk_member (me_id m) (me_display_name m) (me_wrapper m) (me_workspace m) (me_role m) (me_enabled m)
    (me_adapter_kind m) (me_strengths m) (me_env_allowlist m) (me_notes m) (me_runtime_kind m) (me_autostart m)
    (me_stream_filter m) (Some r).

(** One member of [resolveEnabledWrappers]: the members so far and the issues. *)
Definition resolve_member (fs : filesystem) (allowlist : list string) (ru : Runtime)
    (acc : gmap string Member * list Issue) (p : string * Member) : gmap string Member * list Issue :=
  let '(members, issues) := acc in
  let '(id, member) := p in
  if negb (me_enabled member) then (members, issues)
  else
    match ResolveWrapper fs (me_wrapper member) allowlist ru with
    | Ok resolution => (<[id := with_wrapper member resolution]> members, issues)
    | Err e => (members, issues ++ reg_issues e)
    end.

Definition resolveEnabledWrappers (fs : filesystem) (rg : Registry) (ru : Runtime) : result reg_error Registry :=
  let '(members, issues) :=
    foldl (resolve_member fs (rg_allowlist rg) ru) (rg_members rg, []) (sorted_entries (rg_members rg)) in
  match issues with
  | [] => Ok (mk_registry (rg_schema rg) members (rg_allowlist rg) (rg_secrets rg))
  | _ => Err (RegInvalid issues)
  end.

Section load.
Variable compile_error : string -> option string.
(** The SHA-256 text of a file with the given content. *)
Variable digest : registry_doc -> string.

(** [opened] is what Stat says of the file that Open returned. *)
Definition Load (w : reg_world) (opened : file_info -> file_info) (dataHome : string) (ru : Runtime)
    : result reg_error LoadedRegistry :=
  try _ := ValidateDataHome (rw_fs w) dataHome ru in
  let sourcePath := RegistryPath dataHome in
  match rw_fs w !! sourcePath with
  | None => Err (reg_fail CategoryMissing sourcePath "registry file does not exist")
  | Some before =>
      reject match fi_kind before with KSymlink _ => true | _ => false end with
        reg_fail CategorySymlinkForbidden sourcePath "registry symlinks are forbidden";;
      let after_ := opened before in
      try _ := compareFileMetadata sourcePath before after_ in
      try _ := validateRegistryFileInfo sourcePath after_ ru in
      try registry := ParseRegistry compile_error (rw_doc w) in
      try resolved := resolveEnabledWrappers (rw_fs w) registry ru in
      Ok (mk_loaded dataHome sourcePath ("sha256:" +:+ digest (rw_doc w)) (ru_uid ru) resolved (RegistryContent (rw_doc w)))
  end.

End load.

(** ** Snapshots *)

(** [snapshotFile]: the metadata of the registry a session was created with, and
    its members as they would be written. *)
Record snapshotFile := mk_snapshot_file {
  sf_metadata : SnapshotMetadata; sf_allowlist : list string; sf_members : gmap string rawMember }.

Definition raw_of_member (m : Member) : rawMember :=
  mk_raw_member (me_display_name m) (me_wrapper m) (me_workspace m) (me_role m) (Some (me_enabled m))
    (me_adapter_kind m) (me_strengths m) (me_env_allowlist m) (me_notes m) (me_runtime_kind m) (me_autostart m)
    (me_stream_filter m).

Definition membersForSnapshot (rg : Registry) : gmap string rawMember := raw_of_member <$> rg_members rg.

(** The document that WriteSnapshotAtomic puts into the session directory. *)
Definition snapshot_of (loaded : LoadedRegistry) (now : time) : snapshotFile :=
  mk_snapshot_file
    (mk_snapshot (ld_source_path loaded) (ld_sha256 loaded) now (ld_uid loaded) (EffectiveSchemaVersion (ld_registry loaded)))
    (rg_allowlist (ld_registry loaded)) (membersForSnapshot (ld_registry loaded)).

(** The snapshot files of the data home, by path: their bytes as what they
    decode to.  [sw_fs] has their nodes. *)
Inductive snapshot_content :=
| SnapBad (message : string)
| SnapDoc (doc : snapshotFile).

Record snapshot_world := mk_snapshot_world { sw_fs : filesystem; sw_docs : gmap string snapshot_content }.

Definition SnapshotFileName : string := "registry_snapshot.yaml".
Definition CategorySnapshotWriteFailed : string := "registry_snapshot_write_failed".
Definition CategorySnapshotReadFailed : string := "registry_snapshot_read_failed".

(** Where writing the snapshot is cut: creating the temporary file, writing it
    (what it then holds), chmod, sync and close, the rename, the sync of the
    directory. *)
Inductive snapshot_fault :=
| SnapOpen
| SnapWrite (partial : string)
| SnapSync
| SnapRename
| SnapSyncDir.

Definition io_error : string := "input/output error".

Definition new_snapshot_file (ru : Runtime) : file_info := mk_info KRegular 384 (ru_uid ru) 0 0.

Definition put_snapshot (w : snapshot_world) (path : string) (ru : Runtime) (c : snapshot_content) : snapshot_world :=
  mk_snapshot_world (<[path := new_snapshot_file ru]> (sw_fs w)) (<[path := c]> (sw_docs w)).

(** rename(2) of a regular file *)
Definition rename_snapshot (w : snapshot_world) (tmpPath path : string) (ru : Runtime) (c : snapshot_content)
    : snapshot_world :=
  put_snapshot (mk_snapshot_world (delete tmpPath (sw_fs w)) (delete tmpPath (sw_docs w))) path ru c.

(** A symbolic link where the temporary file goes is not modelled: the open
    fails on anything there that is not a regular file. *)
Definition can_open (fs : filesystem) (path : string) : bool :=
  match fs !! path with
  | None => true
  | Some info => is_regular info
  end.

Definition WriteSnapshotAtomic (w : snapshot_world) (sessionDir : string) (loaded : LoadedRegistry) (now : time)
    (ru : Runtime) (fault : option snapshot_fault) : snapshot_world * result reg_error unit :=
  let failed path message := Err (reg_fail CategorySnapshotWriteFailed path message) in
  match MkdirAll ru (sw_fs w) sessionDir with
  | (fs1, Err e) => (mk_snapshot_world fs1 (sw_docs w), failed sessionDir (reg_text e))
  | (fs1, Ok _) =>
      let w1 := mk_snapshot_world fs1 (sw_docs w) in
      let path := Join [sessionDir; SnapshotFileName] in
      let tmpPath := path +:+ ".tmp" in
      if negb (can_open fs1 tmpPath) then (w1, failed tmpPath io_error)
      else
        let doc := SnapDoc (snapshot_of loaded now) in
        let w2 := put_snapshot w1 tmpPath ru doc in
        match fault with
        | Some SnapOpen => (w1, failed tmpPath io_error)
        | Some (SnapWrite partial) => (put_snapshot w1 tmpPath ru (SnapBad partial), failed tmpPath io_error)
        | Some SnapSync => (w2, failed tmpPath io_error)
        | Some SnapRename => (w2, failed path io_error)
        | _ =>
            if match fs1 !! path with Some info => is_dir info | None => false end then (w2, failed path "file exists")
            else
              (rename_snapshot w2 tmpPath path ru doc,
               match fault with Some SnapSyncDir => failed sessionDir io_error | _ => Ok tt end)
        end
  end.

Section snapshot.
Variable compile_error : string -> option string.

Definition parseRegistryFromSnapshot (doc : snapshotFile) : result reg_error Registry :=
  checked_registry compile_error
    (mk_raw_registry (sn_schema_version (sf_metadata doc)) (Some (sf_members doc)) (sf_allowlist doc) []).

Definition LoadSnapshot (w : snapshot_world) (sessionDir : string) (ru : Runtime) : result reg_error LoadedRegistry :=
  let path := Join [sessionDir; SnapshotFileName] in
  let failed message := reg_fail CategorySnapshotReadFailed path message in
  match sw_fs w !! path with
  | None => Err (failed ("lstat " +:+ path +:+ ": no such file or directory"))
  | Some info =>
      reject match fi_kind info with KSymlink _ => true | _ => false end with
        failed "registry snapshot symlinks are forbidden";;
      reject negb (is_regular info) with failed "registry snapshot is not regular";;
      match sw_docs w !! path with
      | None => Err (failed io_error)
      | Some (SnapBad message) => Err (failed message)
      | Some (SnapDoc doc) =>
          try reg := parseRegistryFromSnapshot doc in
          try resolved := resolveEnabledWrappers (sw_fs w) reg ru in
          let md := sf_metadata doc in
          Ok (mk_loaded (Clean (Join [sessionDir; ".."; ".."])) (sn_source_path md) (sn_source_sha256 md)
                (sn_loaded_by_uid md) resolved SnapshotContent)
      end
  end.

End snapshot.

(** ** Reconciling the members of a council *)

Record ReconcileReport := mk_report {
  rc_path : string; rc_before : string; rc_after : string; rc_added : list string }.

Definition ensurePrivateWorkspaceDir (ru : Runtime) (fs : filesystem) (path issuePath : string)
    : filesystem * result reg_error unit :=
  match stat_path fs path with
  | None => (fs, Err (reg_fail CategorySchemaInvalid issuePath
                        "failed to inspect daemon-managed workspace: too many levels of symbolic links"))
  | Some target =>
      match fs !! target with
      | None =>
          match MkdirAll ru fs path with
          | (fs1, Err e) =>
              (fs1, Err (reg_fail CategorySchemaInvalid issuePath
                           ("failed to create daemon-managed workspace: " +:+ reg_text e)))
          | (fs1, Ok _) => chmod_private fs1 path
          end
      | Some info =>
          if negb (is_dir info)
          then (fs, Err (reg_fail CategorySchemaInvalid issuePath "daemon-managed workspace is not a directory"))
          else chmod_private fs path
      end
  end.

Definition workspace_of (dataHome id : string) : string := Join [dataHome; "workspaces"; id].

Definition isDaemonManagedWorkspace (dataHome id workspace : string) : bool :=
  Clean workspace == Clean (workspace_of dataHome id).

(** A step that changes the file system and may fail in the middle: what was
    done stays done. *)
Fixpoint each_dir (step : filesystem -> string -> filesystem * result reg_error unit) (fs : filesystem)
    (ids : list string) : filesystem * result reg_error unit :=
  match ids with
  | [] => (fs, Ok tt)
  | id :: rest =>
      match step fs id with
      | (fs1, Ok _) => each_dir step fs1 rest
      | (fs1, Err e) => (fs1, Err e)
      end
  end.

Definition issue_path (id : string) : string := "members." +:+ id +:+ ".workspace".

(** The trimmed principals, blanks and repetitions left out. *)
Definition distinct_principals (principals : list string) : list string :=
  rev (remove_dups (rev (List.filter (fun id => id != "") (map trim_space principals)))).

Definition ensureCouncilMemberWorkspaces (ru : Runtime) (fs : filesystem) (dataHome : string) (loaded : LoadedRegistry)
    (principals : list string) : filesystem * result reg_error unit :=
  each_dir (fun fs id =>
    match rg_members (ld_registry loaded) !! id with
    | Some member =>
        if isDaemonManagedWorkspace dataHome id (me_workspace member)
        then ensurePrivateWorkspaceDir ru fs (me_workspace member) (issue_path id)
        else (fs, Ok tt)
    | None => (fs, Ok tt)
    end) fs (distinct_principals principals).

Definition ensureDaemonManagedWorkspaceDirs (ru : Runtime) (fs : filesystem) (dataHome : string) (ids : list string)
    : filesystem * result reg_error unit :=
  each_dir (fun fs id => ensurePrivateWorkspaceDir ru fs (workspace_of dataHome id) (issue_path id)) fs ids.

(** One principal: the issue it raises, or whether it is missing. *)
Definition principal_issue (members : gmap string Member) (id : string) : list Issue :=
  if id == "" then [mk_issue CategorySchemaInvalid "council.principals" "principal id is required"]
  else if reserved_principal id then
    [mk_issue CategoryReservedPrincipalCollision ("members." +:+ id) "member id is reserved"]
  else if negb (memberIDPattern id) then
    [mk_issue CategorySchemaInvalid ("members." +:+ id)
       "member id must use letters, digits, dot, underscore, or dash and start with a letter or digit"]
  else
    match members !! id with
    | Some member =>
        when_issue (negb (me_enabled member)) CategorySchemaInvalid ("members." +:+ id +:+ ".enabled")
          "council principal is disabled in loaded registry"
    | None => []
    end.

Fixpoint principals_issues (members : gmap string Member) (seen principals : list string) : list Issue :=
  match principals with
  | [] => []
  | rawID :: rest =>
      let id := trim_space rawID in
      if id == "" then principal_issue members id ++ principals_issues members seen rest
      else if mem_str id seen then principals_issues members seen rest
      else principal_issue members id ++ principals_issues members (id :: seen) rest
  end.

Definition missingCouncilPrincipals (loaded : LoadedRegistry) (principals : list string)
    : result reg_error (list string) :=
  let members := rg_members (ld_registry loaded) in
  match principals_issues members [] principals with
  | [] =>
      Ok (sort_strings (List.filter (fun id => match members !! id with None => true | Some _ => false end)
                          (distinct_principals principals)))
  | issues => Err (RegInvalid issues)
  end.

(** Every root is tried: the resolutions, and the first validation error. *)
Fixpoint wrapper_matches (fs : filesystem) (wrapper : string) (all : list string) (ru : Runtime) (roots : list string)
    : list WrapperResolution * option reg_error :=
  match roots with
  | [] => ([], None)
  | root :: rest =>
      let '(matches, firstError) := wrapper_matches fs wrapper all ru rest in
      match validateWrapperCandidate fs (Join [root; wrapper]) wrapper all ru with
      | Ok (Some resolution) => (resolution :: matches, firstError)
      | Ok None => (matches, firstError)
      | Err e => (matches, if IsValidationError e then Some e else firstError)
      end
  end.

Definition resolveUniqueCouncilWrapper (fs : filesystem) (wrapper : string) (allowlist : list string) (ru : Runtime)
    : result reg_error WrapperResolution :=
  reject is_blank wrapper with reg_fail CategoryWrapperUnresolvable "" "wrapper is empty";;
  try roots := expandAllowlist allowlist ru in
  if IsAbs wrapper || (Base wrapper != wrapper) then ResolveWrapper fs wrapper allowlist ru
  else
    match wrapper_matches fs wrapper roots ru roots with
    | ([m], _) => Ok m
    | (m1 :: m2 :: ms, _) =>
        Err (reg_fail CategoryWrapperUnresolvable wrapper
               ("wrapper name is ambiguous across allowlist roots: "
                +:+ join ", " (sort_strings (map wr_resolved (m1 :: m2 :: ms)))))
    | ([], Some e) => Err e
    | ([], None) => Err (reg_fail CategoryWrapperUnresolvable wrapper "wrapper could not be resolved in allowlist")
    end.

Definition defaultCouncilMember (dataHome id : string) : rawMember :=
  mk_raw_member id id (workspace_of dataHome id) "participant" (Some true) "hermes-agent" [] []
    "Auto-reconciled from an explicit council roster; remove or disable only through an approved registry maintenance action."
    "hermes-cli-stream" None "".

(** The missing members in order: each needs a unique wrapper.  The list is
    those added before the first that has none. *)
Fixpoint add_members (fs : filesystem) (dataHome : string) (allowlist : list string) (ru : Runtime)
    (members : gmap string rawMember) (missing : list string) : list string * result reg_error (gmap string rawMember) :=
  match missing with
  | [] => ([], Ok members)
  | id :: rest =>
      match resolveUniqueCouncilWrapper fs id allowlist ru with
      | Err e => ([], Err e)
      | Ok _ =>
          let '(added, r) := add_members fs dataHome allowlist ru (<[id := defaultCouncilMember dataHome id]> members) rest in
          (id :: added, r)
      end
  end.

Definition set_doc (w : reg_world) (doc : registry_doc) (path : string) (info : file_info) : reg_world :=
  mk_reg_world (<[path := info]> (rw_fs w)) doc.

(** The temporary file is renamed over the registry unless something fails
    before; syncing the directory is best effort. *)
Definition writeRegistryAtomic (w : reg_world) (path : string) (doc : registry_doc) (new_file : file_info)
    (fault : bool) : reg_world * result reg_error unit :=
  if fault then (w, Err (RegOther "input/output error"))
  else
    match rw_fs w !! path with
    | Some (mk_info (KSymlink _) _ _ _ _) =>
        (w, Err (reg_fail CategorySymlinkForbidden path "registry symlinks are forbidden"))
    | Some info =>
        if is_regular info then (set_doc w doc path new_file, Ok tt)
        else (w, Err (reg_fail CategoryNotRegular path "registry file is not regular"))
    | None => (set_doc w doc path new_file, Ok tt)
    end.

Section reconcile.
Variable compile_error : string -> option string.
Variable digest : registry_doc -> string.
(** What Stat says of an opened file, the file the temporary file becomes,
    whether writing it fails, and what another process does to the data home
    while the new registry is being prepared. *)
Variable opened : file_info -> file_info.
Variable new_file : file_info.
Variable write_fault : bool.
Variable meanwhile : reg_world -> reg_world.

Abbreviation load := (Load compile_error digest).

Definition parseRawRegistryForWrite (content : source_content) : result reg_error rawRegistry :=
  match content with
  | RegistryContent (DocRaw raw) => Ok raw
  | RegistryContent (DocBad category message) => Err (reg_fail category RegistryFileName message)
  | _ => Err (reg_fail "registry_parse_error" RegistryFileName "EOF")
  end.

Definition marshalRawRegistry (raw : rawRegistry) : result reg_error registry_doc :=
  let raw1 := mk_raw_registry (effective_schema (rr_schema raw)) (rr_members raw) (rr_allowlist raw) (rr_secrets raw) in
  try _ := ParseRegistry compile_error (DocRaw raw1) in
  Ok (DocRaw raw1).

Definition ensureRegistryUnchanged (w : reg_world) (dataHome : string) (ru : Runtime) (expected : string)
    : result reg_error unit :=
  try current := load w opened dataHome ru in
  reject ld_sha256 current != expected with
    reg_fail CategoryChangedDuringLoad (ld_source_path current) "registry changed during reconcile; reload and retry";;
  Ok tt.

Definition set_fs (w : reg_world) (fs : filesystem) : reg_world := mk_reg_world fs (rw_doc w).

(** The second half: the members are missing from the loaded registry. *)
Definition add_missing (w : reg_world) (dataHome : string) (loaded : LoadedRegistry) (report : ReconcileReport)
    (missing principals : list string) (ru : Runtime) : reg_world * ReconcileReport * result reg_error LoadedRegistry :=
  match parseRawRegistryForWrite (ld_content loaded) with
  | Err e => (w, report, Err e)
  | Ok raw =>
      let '(added, r0) := add_members (rw_fs w) dataHome (rr_allowlist raw) ru (default ∅ (rr_members raw)) missing in
      match r0 with
      | Err e => (w, mk_report (rc_path report) (rc_before report) (rc_after report) added, Err e)
      | Ok members =>
          let report1 := mk_report (rc_path report) (rc_before report) (rc_after report) (sort_strings added) in
          let '(fs1, r1) := ensureDaemonManagedWorkspaceDirs ru (rw_fs w) dataHome missing in
          let w1 := set_fs w fs1 in
          match r1 with
          | Err e => (w1, report1, Err e)
          | Ok _ =>
              match marshalRawRegistry (mk_raw_registry (rr_schema raw) (Some members) (rr_allowlist raw) (rr_secrets raw)) with
              | Err e => (w1, report1, Err e)
              | Ok doc =>
                  let w2 := meanwhile w1 in
                  match ensureRegistryUnchanged w2 dataHome ru (ld_sha256 loaded) with
                  | Err e => (w2, report1, Err e)
                  | Ok _ =>
                      let '(w3, r3) := writeRegistryAtomic w2 (ld_source_path loaded) doc new_file write_fault in
                      match r3 with
                      | Err e => (w3, report1, Err e)
                      | Ok _ =>
                          match load w3 opened dataHome ru with
                          | Err e => (w3, report1, Err e)
                          | Ok reloaded =>
                              let report2 := mk_report (rc_path report1) (rc_before report1) (ld_sha256 reloaded) (rc_added report1) in
                              let '(fs4, r4) := ensureCouncilMemberWorkspaces ru (rw_fs w3) dataHome reloaded principals in
                              (set_fs w3 fs4, report2, try _ := r4 in Ok reloaded)
                          end
                      end
                  end
              end
          end
      end
  end.

Definition no_report : ReconcileReport := mk_report "" "" "" [].

Definition ReconcileCouncilMembers (w : reg_world) (dataHome : string) (principals : list string) (ru : Runtime)
    : reg_world * ReconcileReport * result reg_error LoadedRegistry :=
  let dataHome := Clean dataHome in
  match load w opened dataHome ru with
  | Err e => (w, no_report, Err e)
  | Ok loaded =>
      let report := mk_report (ld_source_path loaded) (ld_sha256 loaded) (ld_sha256 loaded) [] in
      match missingCouncilPrincipals loaded principals with
      | Err e => (w, report, Err e)
      | Ok missing =>
          let '(fs1, r1) := ensureCouncilMemberWorkspaces ru (rw_fs w) dataHome loaded principals in
          let w1 := set_fs w fs1 in
          match r1 with
          | Err e => (w1, report, Err e)
          | Ok _ =>
              match missing with
              | [] => (w1, report, Ok loaded)
              | _ => add_missing w1 dataHome loaded report missing principals ru
              end
          end
      end
  end.

End reconcile.

(** ** The environment of a member's process (runner/env.go) *)

Definition env_value (ru : Runtime) (seen : gmap string string) (name : string) : gmap string string :=
  let name := trim_space name in
  if name == "" then seen
  else
    match ru_env ru name with
    | Some value => <[name := value]> seen
    | None => seen
    end.

Definition EnvForMember (member : Member) (ru : Runtime) : list string :=
  map (fun p => p.1 +:+ "=" +:+ p.2) (sorted_entries (foldl (env_value ru) ∅ (me_env_allowlist member))).
