(* ===== verification/RegistryTheory.v ===== *)
(** * Correctness of the member registry

    A resolved wrapper is a safe executable below an allowed directory; the
    snapshot of a session reads back to the members it was created with;
    reconciling a council adds exactly its missing members. *)

From S2P Require Import Prelude Paths GoValue GoTime Model Ids Registry.

(** ** Wrappers *)

(** The executable a wrapper was resolved to: reached directly or over one link,
    regular, executable, owned by root or the user, writable by its owner alone. *)
Record wrapper_safe (fs : filesystem) (ru : Runtime) (r : WrapperResolution) : Prop := mk_wrapper_safe {
  ws_info : file_info;
  ws_node : fs !! wr_resolved r = Some ws_info;
  ws_regular : is_regular ws_info = true;
  ws_executable : executable ws_info = true;
  ws_writable : group_writable ws_info = false;
  ws_owner : fi_uid ws_info = 0 \/ fi_uid ws_info = ru_uid ru;
  ws_mode : wr_mode r = fi_mode ws_info;
  ws_link : wr_resolved r = wr_candidate r \/
            exists link target, fs !! wr_candidate r = Some link /\ fi_kind link = KSymlink target }.

Lemma find_first_Some {A} (p : A -> bool) l x : find_first p l = Some x -> x ∈ l /\ p x = true.
Proof. unfold find_first. intros H. apply find_some in H as [Hin Hp]. split; [by apply list_elem_of_In | done]. Qed.

Lemma follow_link_ok fs candidate info resolved via info' :
  IsAbs candidate = true -> Clean candidate = candidate -> fs !! candidate = Some info ->
  follow_link fs candidate info = Ok (resolved, via, info') ->
  fs !! resolved = Some info' /\ IsAbs resolved = true /\ Clean resolved = resolved /\
  (resolved = candidate \/ exists target, fi_kind info = KSymlink target).
Proof.
  intros Habs Hclean Hfs H. unfold follow_link in H. destruct (fi_kind info) as [| |target|] eqn:Hk.
  1, 2, 4: injection H as <- <- <-; split_and!; try done; by left.
  cbv zeta in H. set (t := if IsAbs target then target else Join [Dir candidate; target]) in *.
  destruct (fs !! Clean t) as [i|] eqn:Hi; [|done].
  assert (Ht : IsAbs t = true).
  { subst t. destruct (IsAbs target) eqn:E; [done|].
    destruct (join_abs (Dir candidate) [target]) as (p & Hp & ->); [by apply IsAbs_dir | by apply IsAbs_clean]. }
  destruct (fi_kind i) eqn:Hki; try done; injection H as <- <- <-;
    (split_and!; [done | by apply IsAbs_clean | by apply clean_idemp | right; eauto]).
Qed.

Lemma validate_candidate_safe fs candidate input roots ru r :
  IsAbs candidate = true -> Clean candidate = candidate -> Forall (fun x => IsAbs x = true) roots ->
  validateWrapperCandidate fs candidate input roots ru = Ok (Some r) ->
  wrapper_safe fs ru r /\ wr_input r = input /\
  exists root, root ∈ roots /\ wr_root r = Clean root /\ clean_parts root `prefix_of` clean_parts (wr_resolved r) /\
    Forall plain_part (clean_parts (wr_resolved r)).
Proof.
  intros Habs Hclean Hroots H. unfold validateWrapperCandidate in H.
  destruct (fs !! candidate) as [info|] eqn:Hi; [|done].
  destruct (follow_link fs candidate info) as [[[resolved via] info']|] eqn:Hf; [|done]. cbn [mbind result_bind] in H.
  destruct (follow_link_ok _ _ _ _ _ _ Habs Hclean Hi Hf) as (Hn & Ha & Hc & Hlink).
  cbv zeta in H. do 4 run_step H. destruct (containingAllowlistRoot resolved roots) as [root|] eqn:Hr; [|done].
  injection H as <-. bool_prop. unfold containingAllowlistRoot in Hr.
  destruct (find_first _ roots) as [root'|] eqn:Hfirst; [|done]. injection Hr as <-.
  apply find_first_Some in Hfirst as [Hin Hcontains]. rewrite Hc. split; [|split; [done|]].
  - exists info'; cbn; try done.
    + destruct Hguard2; bool_prop; [by left | by right].
    + destruct Hlink as [->|[target Ht]]; [by left | right; by exists info, target].
  - exists root'. cbn. destruct (pathContains_parts root' resolved) as [Hpre Hplain]; try done.
    by apply (proj1 (Forall_forall _ _) Hroots).
Qed.

Lemma first_wrapper_ok fs wrapper roots ru err candidates r :
  first_wrapper fs wrapper roots ru err candidates = Ok r ->
  exists candidate, candidate ∈ candidates /\ validateWrapperCandidate fs candidate wrapper roots ru = Ok (Some r).
Proof.
  revert err. induction candidates as [|c cs IH]; intros err H; [done|]. simpl in H.
  destruct (validateWrapperCandidate fs c wrapper roots ru) as [[r'|]|e] eqn:Hv.
  - injection H as ->. exists c. split; [set_solver | done].
  - apply IH in H as (c' & Hin & Hc). exists c'. split; [set_solver | done].
  - apply IH in H as (c' & Hin & Hc). exists c'. split; [set_solver | done].
Qed.

(** C37. No wrapper escapes the allowlist: with absolute allowlist directories,
    a wrapper that resolves is a regular executable file owned by root or the
    current user and writable by its owner alone, reached directly or over a
    single symbolic link, whose path lies below one of those directories
    component by component, with no dot component left in it. *)
Theorem resolve_wrapper_safe fs wrapper allowlist ru roots r :
  expandAllowlist allowlist ru = Ok roots -> Forall (fun x => IsAbs x = true) roots ->
  ResolveWrapper fs wrapper allowlist ru = Ok r ->
  wrapper_safe fs ru r /\
  exists root, root ∈ roots /\ wr_root r = Clean root /\ clean_parts root `prefix_of` clean_parts (wr_resolved r) /\
    Forall plain_part (clean_parts (wr_resolved r)).
Proof.
  intros Hroots Habs H. unfold ResolveWrapper in H. run_step H. rewrite Hroots in H. cbn [mbind result_bind] in H.
  assert (Hcand : exists candidates, Forall (fun c => IsAbs c = true /\ Clean c = c) candidates /\
    first_wrapper fs wrapper roots ru None candidates = Ok r).
  { destruct (IsAbs wrapper) eqn:Hw; cbn [mbind result_bind] in H.
    - exists [Clean wrapper]. split; [|done]. repeat constructor; [by apply IsAbs_clean | by apply clean_idemp].
    - destruct (Base wrapper == wrapper); [|done]. cbn [mbind result_bind] in H.
      exists (map (fun root => Join [root; wrapper]) roots). split; [|done]. apply Forall_forall. intros c Hin.
      apply list_elem_of_fmap in Hin as (root & -> & Hin).
      apply (proj1 (Forall_forall _ _) Habs) in Hin. destruct (join_abs root [wrapper] Hin) as (p & Hp & ->).
      split; [by apply IsAbs_clean | by apply clean_idemp]. }
  destruct Hcand as (candidates & Hall & Hfirst). apply first_wrapper_ok in Hfirst as (c & Hin & Hv).
  apply (proj1 (Forall_forall _ _) Hall) in Hin as [Ha Hc].
  destruct (validate_candidate_safe _ _ _ _ _ _ Ha Hc Habs Hv) as (? & _ & ?). done.
Qed.

(** ** Schema *)

Lemma concat_nil {A} (l : list (list A)) : concat l = [] -> forall x, x ∈ l -> x = [].
Proof.
  induction l as [|y l IH]; simpl; intros H x Hx; [by apply elem_of_nil in Hx|].
  apply app_nil in H as [-> H]. apply elem_of_cons in Hx as [->|Hx]; [done | by apply IH].
Qed.

Lemma concat_all_nil {A} (l : list (list A)) : (forall x, x ∈ l -> x = []) -> concat l = [].
Proof.
  induction l as [|y l IH]; intros H; simpl; [done|]. rewrite (H y) by set_solver. apply IH. intros x Hx. apply H. set_solver.
Qed.

Lemma member_issues_all members :
  concat (map (fun p => snd (validateRawMember p.1 p.2)) (sorted_entries members)) = [] <->
  forall id raw, members !! id = Some raw -> member_issues id raw = [].
Proof.
  split.
  - intros H id raw Hid. apply sorted_entries_elem in Hid.
    apply (concat_nil _ H). apply list_elem_of_fmap. by exists (id, raw).
  - intros H. apply concat_all_nil. intros x (p & -> & Hp)%list_elem_of_fmap. destruct p as [id raw].
    apply sorted_entries_elem in Hp. by apply H.
Qed.

Section schema.
Context (compile_error : string -> option string).

(** What the schema demands of a decoded document. *)
Definition schema_ok (raw : rawRegistry) (members : gmap string rawMember) : Prop :=
  rr_members raw = Some members /\ effective_schema (rr_schema raw) = defaultSchema /\
  pattern_issues compile_error 0 (rr_secrets raw) = [] /\
  forall id m, members !! id = Some m -> member_issues id m = [].

Definition members_of_raw (members : gmap string rawMember) : gmap string Member :=
  map_imap (fun id m => Some (member_of_raw id m)) members.

Lemma checked_registry_ok raw rg :
  checked_registry compile_error raw = Ok rg <->
  exists members, schema_ok raw members /\
    rg = mk_registry defaultSchema (members_of_raw members) (rr_allowlist raw) (rr_secrets raw).
Proof.
  unfold checked_registry, validateRawRegistry, schema_ok. cbv zeta. destruct (rr_members raw) as [members|].
  2: { split; [done | intros (? & (? & _) & _); done]. }
  split.
  - intros H. destruct (_ ++ _) eqn:E; [|done]. injection H as <-. apply app_nil in E as [E1 E].
    apply app_nil in E as [E2 E3]. exists members.
    unfold when_issue in E1. destruct (effective_schema (rr_schema raw) =? defaultSchema) eqn:Hs; [|done].
    apply Z.eqb_eq in Hs. rewrite Hs. split; [|done]. split; [done|]. split; [done|]. split; [done|].
    by apply member_issues_all.
  - intros (members' & ([= <-] & Hs & Hp & Hm) & ->). rewrite Hs, Hp, (proj2 (member_issues_all _) Hm). done.
Qed.

Lemma member_issues_enabled id raw : member_issues id raw = [] -> exists b, rm_enabled raw = Some b.
Proof.
  unfold member_issues. cbv zeta. intros H. repeat (apply app_nil in H as [? H]).
  destruct (rm_enabled raw) as [b|]; [by exists b | done].
Qed.

(** Writing a valid member out again gives what it was read from. *)
Lemma raw_member_round_trip id raw : member_issues id raw = [] -> raw_of_member (member_of_raw id raw) = raw.
Proof. intros (b & H)%member_issues_enabled. destruct raw. simpl in *. by subst. Qed.

End schema.

(** ** Resolution keeps the members *)

Definition resolved_as (m m' : Member) : Prop := m' = m \/ exists r, m' = with_wrapper m r.

Lemma resolve_fold fs allowlist ru l members issues members' issues' id m' :
  foldl (resolve_member fs allowlist ru) (members, issues) l = (members', issues') ->
  members' !! id = Some m' ->
  members !! id = Some m' \/ exists m, (id, m) ∈ l /\ resolved_as m m'.
Proof.
  revert members issues. induction l as [|[k m] l IH]; intros members issues H Hid; simpl in H.
  - injection H as <- <-. by left.
  - destruct (negb (me_enabled m)).
    { destruct (IH _ _ H Hid) as [?|(x & ? & ?)]; [by left | right; exists x; split; [set_solver | done]]. }
    destruct (ResolveWrapper fs (me_wrapper m) allowlist ru) as [r|e].
    + destruct (IH _ _ H Hid) as [Hl|(x & ? & ?)]; [|right; exists x; split; [set_solver | done]].
      apply lookup_insert_Some in Hl as [[-> <-]|[_ Hl]]; [|by left].
      right. exists m. split; [set_solver | right; by exists r].
    + destruct (IH _ _ H Hid) as [?|(x & ? & ?)]; [by left | right; exists x; split; [set_solver | done]].
Qed.

Lemma resolve_fold_dom fs allowlist ru l members issues :
  dom members ⊆ dom (fst (foldl (resolve_member fs allowlist ru) (members, issues) l)).
Proof.
  revert members issues. induction l as [|[k m] l IH]; intros members issues; simpl; [done|].
  destruct (negb (me_enabled m)); [apply IH|].
  destruct (ResolveWrapper _ _ _ _); [|apply IH]. etransitivity; [|apply IH]. set_solver.
Qed.

Lemma resolve_members fs rg ru rg' :
  resolveEnabledWrappers fs rg ru = Ok rg' ->
  rg_schema rg' = rg_schema rg /\ rg_allowlist rg' = rg_allowlist rg /\ rg_secrets rg' = rg_secrets rg /\
  forall id, match rg_members rg !! id, rg_members rg' !! id with
             | Some m, Some m' => resolved_as m m'
             | None, None => True
             | _, _ => False
             end.
Proof.
  unfold resolveEnabledWrappers. destruct (foldl _ _ _) as [members [|]] eqn:E; [|done]. intros [= <-]. cbn.
  split_and!; try done. intros id.
  pose proof (resolve_fold_dom fs (rg_allowlist rg) ru (sorted_entries (rg_members rg)) (rg_members rg) []) as Hdom.
  rewrite E in Hdom. simpl in Hdom. destruct (members !! id) as [m'|] eqn:Hm'.
  - destruct (resolve_fold _ _ _ _ _ _ _ _ _ _ E Hm') as [->|(m & Hin & Hr)]; [by left|].
    apply sorted_entries_elem in Hin as ->. done.
  - destruct (rg_members rg !! id) as [m|] eqn:Hm; [|done]. exfalso.
    assert (Hd : id ∈ dom (rg_members rg)) by (apply elem_of_dom; eauto). apply Hdom, elem_of_dom in Hd as [? Hd].
    congruence.
Qed.

(** ** Snapshots *)

Section load.
Context (compile_error : string -> option string) (digest : registry_doc -> string).

Lemma load_ok w opened dataHome ru loaded :
  Load compile_error digest w opened dataHome ru = Ok loaded ->
  exists raw members, rw_doc w = DocRaw raw /\ schema_ok compile_error raw members /\
    resolveEnabledWrappers (rw_fs w)
      (mk_registry defaultSchema (members_of_raw members) (rr_allowlist raw) (rr_secrets raw)) ru = Ok (ld_registry loaded) /\
    ld_data_home loaded = dataHome /\ ld_source_path loaded = RegistryPath dataHome /\
    ld_sha256 loaded = "sha256:" +:+ digest (rw_doc w) /\ ld_content loaded = RegistryContent (rw_doc w).
Proof.
  unfold Load. intros H. run_step H. cbv zeta in H. run_step H. run_step H. do 4 run_step H. apply ok_inj in H as <-.
  unfold ParseRegistry in Hrun2. destruct (rw_doc w) as [|raw]; [done|].
  apply checked_registry_ok in Hrun2 as (members & Hok & ->). by exists raw, members.
Qed.

Lemma members_of_raw_lookup members id : members_of_raw members !! id = member_of_raw id <$> members !! id.
Proof. unfold members_of_raw. rewrite map_lookup_imap. by destruct (members !! id). Qed.

Lemma raw_of_resolved m m' : resolved_as m m' -> raw_of_member m' = raw_of_member m.
Proof. by intros [->|[r ->]]. Qed.

Lemma snapshot_members raw members fs ru rg :
  schema_ok compile_error raw members ->
  resolveEnabledWrappers fs (mk_registry defaultSchema (members_of_raw members) (rr_allowlist raw) (rr_secrets raw)) ru = Ok rg ->
  membersForSnapshot rg = members.
Proof.
  intros (_ & _ & _ & Hm) Hr. apply resolve_members in Hr as (_ & _ & _ & Hl). apply map_eq. intros id.
  unfold membersForSnapshot. rewrite lookup_fmap. specialize (Hl id). cbn in Hl. rewrite members_of_raw_lookup in Hl.
  destruct (members !! id) as [m|] eqn:Hid, (rg_members rg !! id) as [m'|]; simpl in *; try done.
  f_equal. rewrite (raw_of_resolved _ _ Hl). by apply raw_member_round_trip, Hm.
Qed.

(** Resolution depends on the file system over ResolveWrapper alone. *)
Lemma resolve_members_same fs fs' allowlist ru l acc :
  (forall p, p ∈ l -> ResolveWrapper fs' (me_wrapper p.2) allowlist ru = ResolveWrapper fs (me_wrapper p.2) allowlist ru) ->
  foldl (resolve_member fs' allowlist ru) acc l = foldl (resolve_member fs allowlist ru) acc l.
Proof.
  revert acc. induction l as [|[id m] l IH]; intros acc Hsame; simpl; [done|].
  rewrite IH by (intros p Hp; apply Hsame; set_solver). f_equal.
  destruct acc. unfold resolve_member. pose proof (Hsame (id, m) ltac:(set_solver)) as Hw. simpl in Hw. by rewrite Hw.
Qed.

(** A snapshot that was written is there, under its name. *)
Lemma write_snapshot_ok w sessionDir loaded now ru w' fault :
  WriteSnapshotAtomic w sessionDir loaded now ru fault = (w', Ok tt) ->
  let path := Join [sessionDir; SnapshotFileName] in
  sw_fs w' !! path = Some (new_snapshot_file ru) /\ sw_docs w' !! path = Some (SnapDoc (snapshot_of loaded now)).
Proof.
  unfold WriteSnapshotAtomic. destruct (MkdirAll ru (sw_fs w) sessionDir) as [fs1 [[]|]]; [|done]. cbv zeta. intros H.
  destruct (negb (can_open _ _)); [done|].
  destruct fault as [[]|]; try done;
    (destruct (match fs1 !! _ with Some info => is_dir info | None => false end); [done|]; try done;
     injection H as <-; cbn; by rewrite !lookup_insert_eq).
Qed.

(** C38. A session keeps its registry: a snapshot that was written for a loaded
    registry loads back, as long as the wrappers on disk resolve as before, with
    the same members, resolved wrappers, allowlist, source and owner; only the
    secret patterns are gone, which a snapshot does not hold. *)
Theorem snapshot_round_trip w opened dataHome ru loaded now sessionDir sw sw' fault :
  Load compile_error digest w opened dataHome ru = Ok loaded ->
  WriteSnapshotAtomic sw sessionDir loaded now ru fault = (sw', Ok tt) ->
  let rg := ld_registry loaded in
  (forall id m, rg_members rg !! id = Some m ->
    ResolveWrapper (sw_fs sw') (me_wrapper m) (rg_allowlist rg) ru = ResolveWrapper (rw_fs w) (me_wrapper m) (rg_allowlist rg) ru) ->
  LoadSnapshot compile_error sw' sessionDir ru =
    Ok (mk_loaded (Clean (Join [sessionDir; ".."; ".."])) (ld_source_path loaded) (ld_sha256 loaded) (ld_uid loaded)
          (mk_registry (rg_schema rg) (rg_members rg) (rg_allowlist rg) []) SnapshotContent).
Proof.
  intros Hload Hwrite rg Hsame. apply write_snapshot_ok in Hwrite as [Hnode Hdoc].
  destruct (load_ok _ _ _ _ _ Hload) as (raw & members & _ & Hok & Hr & _).
  fold rg in Hr. pose proof (snapshot_members _ _ _ _ _ Hok Hr) as Hmem.
  destruct (resolve_members _ _ _ _ Hr) as (Hschema & Hallow & _ & Hl). cbn in Hschema, Hallow, Hl.
  assert (Hparse : parseRegistryFromSnapshot compile_error (snapshot_of loaded now) =
    Ok (mk_registry defaultSchema (members_of_raw members) (rr_allowlist raw) [])).
  { apply checked_registry_ok. exists members. unfold snapshot_of, EffectiveSchemaVersion. fold rg. cbn.
    rewrite Hallow, Hmem, Hschema. split; [|done]. destruct Hok as (_ & _ & _ & Hm). by repeat split. }
  unfold LoadSnapshot. rewrite Hnode, Hdoc, Hparse. cbn [mbind result_bind new_snapshot_file fi_kind is_regular negb].
  unfold resolveEnabledWrappers in *. cbn [rg_members rg_allowlist rg_schema rg_secrets] in *.
  rewrite (resolve_members_same (rw_fs w)).
  2: { intros [id m] Hm%sorted_entries_elem. specialize (Hl id). rewrite Hm in Hl.
       destruct (rg_members rg !! id) as [m'|] eqn:Hm'; [|done]. apply Hsame in Hm'. rewrite Hallow in Hm'.
       by destruct Hl as [->|[r ->]]. }
  destruct (foldl _ _ _) as [ms [|]]; [|done]. injection Hr as <-. done.
Qed.

End load.

(** ** Reconciling *)

Lemma distinct_principals_elem principals id :
  id ∈ distinct_principals principals <-> id <> "" /\ exists p, p ∈ principals /\ trim_space p = id.
Proof.
  unfold distinct_principals. rewrite list_elem_of_In, <- in_rev, <- list_elem_of_In, elem_of_remove_dups.
  rewrite list_elem_of_In, <- in_rev, filter_In, <- list_elem_of_In, list_elem_of_fmap, negb_true_iff, String.eqb_neq.
  split; [intros [(p & -> & Hp) Hne]; eauto | intros [Hne (p & Hp & <-)]; eauto].
Qed.

Lemma principals_issues_nil members seen principals p :
  principals_issues members seen principals = [] -> (forall id, id ∈ seen -> principal_issue members id = []) ->
  p ∈ principals -> principal_issue members (trim_space p) = [].
Proof.
  revert seen. induction principals as [|q l IH]; intros seen H Hseen Hp; [by apply elem_of_nil in Hp|].
  simpl in H. destruct (String.eqb_spec (trim_space q) "") as [Hq|_].
  { apply app_nil in H as [H _]. by rewrite Hq in H. }
  destruct (mem_str (trim_space q) seen) eqn:Hm.
  - apply mem_str_spec in Hm. apply elem_of_cons in Hp as [->|Hp]; [by apply Hseen | by apply (IH seen)].
  - apply app_nil in H as [H1 H2]. apply elem_of_cons in Hp as [->|Hp]; [done|].
    apply (IH (trim_space q :: seen)); try done. intros id [->|Hid]%elem_of_cons; [done | by apply Hseen].
Qed.

Lemma principal_issue_nil members id :
  principal_issue members id = [] ->
  id <> "" /\ reserved_principal id = false /\ memberIDPattern id = true /\
  forall m, members !! id = Some m -> me_enabled m = true.
Proof.
  unfold principal_issue. destruct (String.eqb_spec id ""); [done|]. destruct (reserved_principal id); [done|].
  destruct (memberIDPattern id); [|done]. cbn [negb]. intros H. split_and!; try done. intros m Hm. rewrite Hm in H.
  by destruct (me_enabled m).
Qed.

Lemma add_members_ok fs dataHome allowlist ru members missing added members' :
  add_members fs dataHome allowlist ru members missing = (added, Ok members') ->
  added = missing /\
  forall id, members' !! id = if decide (id ∈ missing) then Some (defaultCouncilMember dataHome id) else members !! id.
Proof.
  revert members added. induction missing as [|x l IH]; intros members added H; simpl in H.
  - injection H as <- <-. split; [done|]. intros id. by rewrite decide_False by (by intros H%elem_of_nil).
  - destruct (resolveUniqueCouncilWrapper fs x allowlist ru); [|done].
    destruct (add_members fs dataHome allowlist ru _ l) as [added' r] eqn:E. injection H as <- ->.
    apply IH in E as [-> Hl]. split; [done|]. intros id. rewrite Hl. destruct (decide (id ∈ l)) as [Hin|Hin].
    + by rewrite decide_True by set_solver.
    + destruct (decide (id = x)) as [->|Hne]; [by rewrite lookup_insert_eq, decide_True by set_solver|].
      by rewrite lookup_insert_ne, decide_False by set_solver.
Qed.

Lemma write_registry_ok w path doc new_file fault w' :
  writeRegistryAtomic w path doc new_file fault = (w', Ok tt) -> rw_doc w' = doc.
Proof.
  unfold writeRegistryAtomic. intros H. destruct fault; [done|].
  destruct (rw_fs w !! path) as [[[]]|]; simpl in H; try done; by injection H as <-.
Qed.

Section reconcile.
Context (compile_error : string -> option string) (digest : registry_doc -> string).

(** An entry of the document and the member read from it. *)
Definition same_member (raw : option rawMember) (m : option Member) : Prop :=
  match raw, m with
  | Some raw, Some m => rm_enabled raw = Some (me_enabled m)
  | None, None => True
  | _, _ => False
  end.

(** A member of the loaded registry, by the document it was read from. *)
Lemma loaded_member raw members fs ru rg id :
  schema_ok compile_error raw members ->
  resolveEnabledWrappers fs (mk_registry defaultSchema (members_of_raw members) (rr_allowlist raw) (rr_secrets raw)) ru = Ok rg ->
  same_member (members !! id) (rg_members rg !! id).
Proof.
  intros (_ & _ & _ & Hm) Hr. unfold same_member. apply resolve_members in Hr as (_ & _ & _ & Hl). specialize (Hl id). cbn in Hl.
  rewrite members_of_raw_lookup in Hl. destruct (members !! id) as [m|] eqn:E, (rg_members rg !! id) as [m'|]; simpl in *; try done.
  apply Hm, member_issues_enabled in E as [b Hb]. destruct Hl as [->|[r ->]]; cbn; by rewrite Hb.
Qed.

(** What reconciling promises, from the document [raw] to [raw']. *)
Record reconciled (dataHome : string) (principals : list string) (raw raw' : rawRegistry) (added : list string)
    (loaded : LoadedRegistry) : Prop := mk_reconciled {
  re_members : gmap string rawMember; re_members' : gmap string rawMember;
  re_before : rr_members raw = Some re_members;
  re_after : rr_members raw' = Some re_members';
  re_rest : rr_allowlist raw' = rr_allowlist raw /\ rr_secrets raw' = rr_secrets raw;
  re_added : forall id, id ∈ added <-> id ∈ distinct_principals principals /\ re_members !! id = None;
  re_entries : forall id, re_members' !! id = if decide (id ∈ added) then Some (defaultCouncilMember dataHome id) else re_members !! id;
  re_principals : forall p, p ∈ principals -> reserved_principal (trim_space p) = false /\
    memberIDPattern (trim_space p) = true /\
    exists m, rg_members (ld_registry loaded) !! trim_space p = Some m /\ me_enabled m = true;
  re_loaded : forall id, same_member (re_members' !! id) (rg_members (ld_registry loaded) !! id) }.

Lemma sha_inj a b : ("sha256:" +:+ a != "sha256:" +:+ b) = false -> a = b.
Proof.
  intros H. bool_prop. assert (Hd : forall s, drop_prefix "sha256:" ("sha256:" +:+ s) = Some s) by (intros s; by apply drop_prefix_spec).
  apply (f_equal (drop_prefix "sha256:")) in H. rewrite !Hd in H. by injection H.
Qed.

Lemma registry_unchanged w opened dataHome ru expected raw :
  (forall d, digest d = digest (DocRaw raw) -> d = DocRaw raw) -> expected = "sha256:" +:+ digest (DocRaw raw) ->
  ensureRegistryUnchanged compile_error digest opened w dataHome ru expected = Ok tt -> rw_doc w = DocRaw raw.
Proof.
  intros Hdig -> H. unfold ensureRegistryUnchanged in H. do 2 run_step H.
  apply load_ok in Hrun as (raw2 & _ & Hraw2 & _ & _ & _ & _ & Hsha & _). rewrite Hsha in Hguard. by apply sha_inj, Hdig in Hguard.
Qed.

Lemma add_missing_ok opened new_file fault meanwhile w dataHome loaded report missing principals ru w' report' loaded' raw :
  (forall d, digest d = digest (DocRaw raw) -> d = DocRaw raw) ->
  ld_content loaded = RegistryContent (DocRaw raw) -> ld_sha256 loaded = "sha256:" +:+ digest (DocRaw raw) ->
  add_missing compile_error digest opened new_file fault meanwhile w dataHome loaded report missing principals ru
    = (w', report', Ok loaded') ->
  exists members' raw' fs,
    rw_doc w' = DocRaw raw' /\ schema_ok compile_error raw' members' /\
    rr_allowlist raw' = rr_allowlist raw /\ rr_secrets raw' = rr_secrets raw /\ rc_added report' = sort_strings missing /\
    (exists fs1, rw_doc (meanwhile (set_fs w fs1)) = DocRaw raw) /\
    resolveEnabledWrappers fs (mk_registry defaultSchema (members_of_raw members') (rr_allowlist raw') (rr_secrets raw')) ru
      = Ok (ld_registry loaded') /\
    forall id, members' !! id = if decide (id ∈ missing) then Some (defaultCouncilMember dataHome id)
                                else default ∅ (rr_members raw) !! id.
Proof.
  intros Hdig Hcontent Hsha H. unfold add_missing in H. rewrite Hcontent in H. cbn [parseRawRegistryForWrite] in H.
  destruct (add_members _ _ _ _ _ missing) as [added [members'|]] eqn:Hadd; [|done].
  apply add_members_ok in Hadd as [-> Hmem]. cbv zeta in H.
  destruct (ensureDaemonManagedWorkspaceDirs _ _ _ _) as [fs1 [[]|]]; [|done].
  destruct (marshalRawRegistry _ _) as [doc|] eqn:Hdoc; [|done].
  destruct (ensureRegistryUnchanged _ _ _ _ _ _ _) as [[]|] eqn:Hsame; [|done].
  apply (registry_unchanged _ _ _ _ _ _ Hdig) in Hsame; [|done].
  destruct (writeRegistryAtomic _ _ _ _ _) as [w3 [[]|]] eqn:Hwrite; [|done]. apply write_registry_ok in Hwrite.
  destruct (Load _ _ w3 opened dataHome ru) as [reloaded|] eqn:Hload; [|done].
  destruct (ensureCouncilMemberWorkspaces _ _ _ _ _) as [fs4 [[]|]]; [|done]. injection H as <- <- <-.
  apply load_ok in Hload as (raw' & members2 & Hraw' & Hok & Hr & _).
  unfold marshalRawRegistry in Hdoc. run_step Hdoc. apply ok_inj in Hdoc as <-.
  rewrite Hwrite in Hraw'. injection Hraw' as <-. assert (members2 = members') as -> by (destruct Hok as ([= ->] & _); done).
  eexists members', _, (rw_fs w3). cbn [rw_doc set_fs]. split; [exact Hwrite|]. split; [exact Hok|].
  split_and!; try done. by exists fs1.
Qed.

Lemma missing_elem rg principals missing loaded id :
  rg = ld_registry loaded -> missingCouncilPrincipals loaded principals = Ok missing ->
  id ∈ missing <-> id ∈ distinct_principals principals /\ rg_members rg !! id = None.
Proof.
  intros -> H. unfold missingCouncilPrincipals in H. cbv zeta in H. destruct (principals_issues _ _ _); [|done].
  apply ok_inj in H as <-. rewrite elem_of_sort_strings, list_elem_of_In, filter_In, <- list_elem_of_In.
  destruct (rg_members _ !! id); split; intros [? ?]; by split.
Qed.

Lemma missing_principals loaded principals missing p :
  missingCouncilPrincipals loaded principals = Ok missing -> p ∈ principals ->
  trim_space p ∈ distinct_principals principals /\ reserved_principal (trim_space p) = false /\
  memberIDPattern (trim_space p) = true /\
  forall m, rg_members (ld_registry loaded) !! trim_space p = Some m -> me_enabled m = true.
Proof.
  intros H Hp. unfold missingCouncilPrincipals in H. cbv zeta in H.
  destruct (principals_issues _ _ _) eqn:E; [|done]. apply (principals_issues_nil _ _ _ p) in E; [|by intros ? ?%elem_of_nil|done].
  apply principal_issue_nil in E as (Hne & ?). split; [|done]. apply distinct_principals_elem. eauto.
Qed.

(** A principal that was accepted, in the registry that was reloaded. *)
Lemma reconciled_principal dataHome raw members members' fs fs' ru rg rg' (missing : list string) id :
  schema_ok compile_error raw members ->
  resolveEnabledWrappers fs (mk_registry defaultSchema (members_of_raw members) (rr_allowlist raw) (rr_secrets raw)) ru = Ok rg ->
  forall raw', schema_ok compile_error raw' members' ->
  resolveEnabledWrappers fs' (mk_registry defaultSchema (members_of_raw members') (rr_allowlist raw') (rr_secrets raw')) ru = Ok rg' ->
  (forall k, members' !! k = if decide (k ∈ missing) then Some (defaultCouncilMember dataHome k) else members !! k) ->
  (rg_members rg !! id = None -> id ∈ missing) ->
  (forall m, rg_members rg !! id = Some m -> me_enabled m = true) ->
  exists m, rg_members rg' !! id = Some m /\ me_enabled m = true.
Proof.
  intros Hok Hr raw' Hok' Hr' Hmem Hmissing Henabled.
  pose proof (loaded_member _ _ _ _ _ id Hok Hr) as H1. pose proof (loaded_member _ _ _ _ _ id Hok' Hr') as H2. unfold same_member in *.
  rewrite Hmem in H2. destruct (decide (id ∈ missing)) as [Hin|Hin].
  - destruct (rg_members rg' !! id) as [m|]; [|done]. exists m. split; [done|]. cbn in H2. congruence.
  - destruct (members !! id) as [m0|], (rg_members rg !! id) as [m1|]; try done; [|by destruct Hin; apply Hmissing].
    destruct (rg_members rg' !! id) as [m|]; [|done]. exists m. split; [done|].
    rewrite H1 in H2. injection H2 as <-. by apply Henabled.
Qed.

Lemma reconcile_ok opened new_file fault meanwhile w dataHome principals ru w' report loaded raw :
  rw_doc w = DocRaw raw -> (forall d, digest d = digest (DocRaw raw) -> d = DocRaw raw) ->
  ReconcileCouncilMembers compile_error digest opened new_file fault meanwhile w dataHome principals ru
    = (w', report, Ok loaded) ->
  exists raw', rw_doc w' = DocRaw raw' /\ reconciled (Clean dataHome) principals raw raw' (rc_added report) loaded /\
    (rc_added report <> [] -> exists fs1, rw_doc (meanwhile (mk_reg_world fs1 (DocRaw raw))) = DocRaw raw).
Proof.
  intros Hdoc Hdig H. unfold ReconcileCouncilMembers in H. cbv zeta in H.
  destruct (Load _ _ w opened _ ru) as [loaded0|] eqn:Hload; [|done].
  apply load_ok in Hload as (raw0 & members & Hraw & Hok & Hr & _ & _ & Hsha & Hcontent).
  rewrite Hdoc in Hraw, Hsha, Hcontent. injection Hraw as <-.
  destruct (missingCouncilPrincipals loaded0 principals) as [missing|] eqn:Hm; [|done].
  destruct (ensureCouncilMemberWorkspaces ru (rw_fs w) _ loaded0 principals) as [fs1 [[]|]]; [|done].
  assert (Hsome : rr_members raw = Some members) by apply Hok.
  pose proof (fun id => missing_elem _ _ _ _ id eq_refl Hm) as Hin.
  assert (Hlack : forall id, rg_members (ld_registry loaded0) !! id = None <-> members !! id = None).
  { intros id. pose proof (loaded_member _ _ _ _ _ id Hok Hr). by destruct (members !! id), (rg_members _ !! id). }
  destruct missing as [|x missing].
  - injection H as <- <- <-. exists raw. cbn [rw_doc set_fs rc_added]. split; [done|]. split; [|done].
    exists members members; try done; try (intros id; by eapply loaded_member).
    + intros id. rewrite <- Hlack. apply Hin.
    + intros p Hp. destruct (missing_principals _ _ _ _ Hm Hp) as (Hd & ? & ? & He). split_and!; try done.
      destruct (rg_members _ !! trim_space p) as [m|] eqn:E; [exists m; auto|].
      assert (Hno : trim_space p ∈ []) by (by apply Hin). by apply elem_of_nil in Hno.
  - destruct (add_missing_ok _ _ _ _ _ _ _ _ _ _ _ _ _ _ raw Hdig Hcontent Hsha H)
      as (members' & raw' & fs2 & Hdoc' & Hok' & Ha & Hs & Hadded & [fs3 Hkept] & Hr' & Hmem).
    exists raw'. split; [done|]. rewrite Hsome in Hmem. cbn [default] in Hmem. split.
    + exists members members'; try done; try apply Hok'; try (intros id; by eapply loaded_member).
      * intros id. rewrite Hadded, elem_of_sort_strings, Hin, Hlack. done.
      * intros id. rewrite Hadded, Hmem. destruct (decide (id ∈ x :: missing)) as [Hd|Hd].
        -- by rewrite decide_True by (by apply elem_of_sort_strings).
        -- by rewrite decide_False by (by rewrite elem_of_sort_strings).
      * intros p Hp. destruct (missing_principals _ _ _ _ Hm Hp) as (Hd & ? & ? & He). split_and!; try done.
        apply (reconciled_principal _ _ _ _ _ _ _ _ _ _ _ Hok Hr _ Hok' Hr' Hmem); [|done]. intros. by apply Hin.
    + intros _. exists fs3. unfold set_fs in Hkept. cbn in Hkept. by rewrite Hdoc in Hkept.
Qed.

(** Reconciling a council adds exactly its missing members: when it succeeds,
    every principal is an enabled member of the registry it returns, the members
    that were added are those the registry lacked, each with the default entry,
    and every other entry, the allowlist and the secret patterns are as they
    were.  An edit that somebody else makes before the last check is not lost:
    the document checked then is the one that was loaded, provided no other
    document has its digest. *)
Theorem reconcile_adds_missing opened new_file fault meanwhile w dataHome principals ru w' report loaded raw :
  rw_doc w = DocRaw raw -> (forall d, digest d = digest (DocRaw raw) -> d = DocRaw raw) ->
  ReconcileCouncilMembers compile_error digest opened new_file fault meanwhile w dataHome principals ru
    = (w', report, Ok loaded) ->
  exists raw', rw_doc w' = DocRaw raw' /\ reconciled (Clean dataHome) principals raw raw' (rc_added report) loaded /\
    (rc_added report <> [] -> exists fs1, rw_doc (meanwhile (mk_reg_world fs1 (DocRaw raw))) = DocRaw raw).
Proof. apply reconcile_ok. Qed.

End reconcile.

(** ** Concrete registries *)

Definition wx_info (k : file_kind) (mode uid : Z) : file_info := mk_info k mode uid 7 64.

(** The data home of user 1000, two wrappers, one of them over a link. *)
Definition wx_fs : filesystem :=
  list_to_map [("/home/u/.atn", wx_info KDir 448 1000); ("/home/u/.atn/registry.yaml", wx_info KRegular 384 1000);
               ("/usr/local/bin/ann", wx_info KRegular 493 0); ("/usr/local/bin/bob", wx_info (KSymlink "../lib/../bin/ann") 511 0);
               ("/usr/local/bin/eve", wx_info (KSymlink "/tmp/eve") 511 0); ("/tmp/eve", wx_info KRegular 493 1000)].

Definition wx_ru : Runtime := mk_reg_runtime (fun _ => None) (Ok "/home/u") 1000.

Definition wx_raw : rawRegistry :=
  mk_raw_registry 0 (Some {["ann" := mk_raw_member "Ann" "ann" "/srv/ann" "participant" (Some true) "hermes-agent" [] ["LANG"] ""
    "" None ""]}) [] ["sk-.*"].

Definition wx_world : reg_world := mk_reg_world wx_fs (DocRaw wx_raw).
Definition wx_digest (d : registry_doc) : string := if decide (d = DocRaw wx_raw) then "aa" else "bb".

Lemma wx_digest_raw d : wx_digest d = wx_digest (DocRaw wx_raw) -> d = DocRaw wx_raw.
Proof. unfold wx_digest. rewrite (decide_True _ _ eq_refl). by case_decide. Qed.

Example resolve_wrapper_safe_witness :
  exists r, ResolveWrapper wx_fs "bob" [] wx_ru = Ok r /\ wr_resolved r = "/usr/local/bin/ann" /\ wrapper_safe wx_fs wx_ru r.
Proof.
  eexists. split; [vm_compute; reflexivity|]. split; [reflexivity|].
  apply (resolve_wrapper_safe wx_fs "bob" [] wx_ru ["/usr/local/bin"; "/opt/hermes"; "/home/u/.local/bin"]); [reflexivity| |].
  - repeat constructor.
  - vm_compute. reflexivity.
Defined.

(** A link that leaves the allowed directories is refused. *)
Example link_outside_refused :
  ResolveWrapper wx_fs "eve" [] wx_ru =
    Err (reg_fail CategoryWrapperOutsideAllowlist "/tmp/eve" "canonical wrapper target is outside wrapper_path_allowlist").
Proof. vm_compute. reflexivity. Qed.

Definition wx_session : string := "/home/u/.atn/sessions/s1".

Definition wx_load : result reg_error LoadedRegistry := Load (fun _ => None) wx_digest wx_world id "/home/u/.atn" wx_ru.

Definition wx_loaded : LoadedRegistry :=
  match wx_load with
  | Ok loaded => loaded
  | Err _ => mk_loaded "" "" "" 0 (mk_registry 0 ∅ [] []) NoContent
  end.

Definition wx_written : snapshot_world * result reg_error unit :=
  WriteSnapshotAtomic (mk_snapshot_world wx_fs ∅) wx_session wx_loaded 0 wx_ru None.

Example snapshot_round_trip_witness :
  wx_load = Ok wx_loaded /\ wx_written = (wx_written.1, Ok tt) /\ rg_secrets (ld_registry wx_loaded) = ["sk-.*"] /\
  exists again, LoadSnapshot (fun _ => None) wx_written.1 wx_session wx_ru = Ok again /\
    ld_data_home again = "/home/u/.atn" /\ rg_secrets (ld_registry again) = [].
Proof.
  split; [vm_compute; reflexivity|]. split; [vm_compute; reflexivity|]. split; [vm_compute; reflexivity|].
  eexists. split; [apply (snapshot_round_trip (fun _ => None) wx_digest wx_world id "/home/u/.atn" wx_ru wx_loaded 0
    wx_session (mk_snapshot_world wx_fs ∅) wx_written.1 None)|].
  - vm_compute. reflexivity.
  - vm_compute. reflexivity.
  - intros id m Hm. apply elem_of_map_to_list in Hm. vm_compute in Hm.
    apply list_elem_of_singleton in Hm as [= -> ->]. vm_compute. reflexivity.
  - split; vm_compute; reflexivity.
Defined.

(** Ann is a member already; Bob is added, and his workspace made. *)
Example reconcile_adds_missing_witness :
  exists w' report loaded,
    ReconcileCouncilMembers (fun _ => None) wx_digest id (wx_info KRegular 384 1000) false id wx_world "/home/u/.atn" ["ann"; " bob "; "bob"] wx_ru
      = (w', report, Ok loaded) /\ rc_added report = ["bob"] /\ is_Some (rw_fs w' !! "/home/u/.atn/workspaces/bob") /\
    exists raw', rw_doc w' = DocRaw raw'.
Proof.
  eexists _, _, _. split; [vm_compute; reflexivity|]. split; [reflexivity|]. split; [by eexists|].
  edestruct (reconcile_adds_missing (fun _ => None) wx_digest id (wx_info KRegular 384 1000) false id wx_world "/home/u/.atn"
    ["ann"; " bob "; "bob"] wx_ru) as (raw' & Hdoc & _); [reflexivity | exact wx_digest_raw | vm_compute; reflexivity |].
  by exists raw'.
Defined.
