(* ===== verification/Sha256.v ===== *)
(** * SHA-256 and hexadecimal text

    crypto/sha256 and encoding/hex as [persistentParticipantHandle] uses them:
    FIPS 180-4 on 32-bit words kept as [Z] modulo [2^32]. *)

From S2P Require Import Prelude.

Definition w32 (z : Z) : Z := z mod 2 ^ 32.
Definition add32 (a b : Z) : Z := w32 (a + b).
Definition rotr (n x : Z) : Z := Z.lor (Z.shiftr x n) (w32 (Z.shiftl x (32 - n))).
Definition shr (n x : Z) : Z := Z.shiftr x n.
Definition not32 (x : Z) : Z := 2 ^ 32 - 1 - x.

Definition ch (x y z : Z) : Z := Z.lxor (Z.land x y) (Z.land (not32 x) z).
Definition maj (x y z : Z) : Z := Z.lxor (Z.lxor (Z.land x y) (Z.land x z)) (Z.land y z).
Definition bsig0 (x : Z) : Z := Z.lxor (Z.lxor (rotr 2 x) (rotr 13 x)) (rotr 22 x).
Definition bsig1 (x : Z) : Z := Z.lxor (Z.lxor (rotr 6 x) (rotr 11 x)) (rotr 25 x).
Definition ssig0 (x : Z) : Z := Z.lxor (Z.lxor (rotr 7 x) (rotr 18 x)) (shr 3 x).
Definition ssig1 (x : Z) : Z := Z.lxor (Z.lxor (rotr 17 x) (rotr 19 x)) (shr 10 x).

Definition round_constants : list Z :=
  [1116352408; 1899447441; 3049323471; 3921009573; 961987163; 1508970993; 2453635748; 2870763221;
   3624381080; 310598401; 607225278; 1426881987; 1925078388; 2162078206; 2614888103; 3248222580;
   3835390401; 4022224774; 264347078; 604807628; 770255983; 1249150122; 1555081692; 1996064986;
   2554220882; 2821834349; 2952996808; 3210313671; 3336571891; 3584528711; 113926993; 338241895;
   666307205; 773529912; 1294757372; 1396182291; 1695183700; 1986661051; 2177026350; 2456956037;
   2730485921; 2820302411; 3259730800; 3345764771; 3516065817; 3600352804; 4094571909; 275423344;
   430227734; 506948616; 659060556; 883997877; 958139571; 1322822218; 1537002063; 1747873779;
   1955562222; 2024104815; 2227730452; 2361852424; 2428436474; 2756734187; 3204031479; 3329325298].

Definition initial_hash : list Z :=
  [1779033703; 3144134277; 1013904242; 2773480762; 1359893119; 2600822924; 528734635; 1541459225].

(** The schedule is kept reversed: its head is [W_(t-1)]. *)
Fixpoint extend (n : nat) (rev_w : list Z) : list Z :=
  match n with
  | O => rev_w
  | S n' =>
      let at_back i := nth i rev_w 0 in
      let w := w32 (ssig1 (at_back 1%nat) + at_back 6%nat + ssig0 (at_back 14%nat) + at_back 15%nat) in
      extend n' (w :: rev_w)
  end.

Definition schedule (block : list Z) : list Z := rev (extend 48 (rev block)).

Definition round (st : list Z) (kw : Z * Z) : list Z :=
  match st with
  | [a; b; c; d; e; f; g; h] =>
      let t1 := w32 (h + bsig1 e + ch e f g + fst kw + snd kw) in
      let t2 := w32 (bsig0 a + maj a b c) in
      [add32 t1 t2; a; b; c; add32 d t1; e; f; g]
  | _ => st
  end.

Definition compress (hash block : list Z) : list Z :=
  zip_with add32 hash (fold_left round (zip round_constants (schedule block)) hash).

Definition bytes_of (s : string) : list Z :=
  map (fun a => Z.of_N (Ascii.N_of_ascii a)) (String.list_ascii_of_string s).

Definition pad_message (m : list Z) : list Z :=
  let len := len_z m in
  let zeros := Z.to_nat ((55 - len) mod 64) in
  m ++ [128] ++ repeat 0 zeros ++
  map (fun i => Z.shiftr (8 * len) (8 * i) mod 256) [7; 6; 5; 4; 3; 2; 1; 0].

Fixpoint words (l : list Z) : list Z :=
  match l with
  | a :: b :: c :: d :: rest => (a * 2 ^ 24 + b * 2 ^ 16 + c * 2 ^ 8 + d) :: words rest
  | _ => []
  end.

(** Sixteen-word blocks; [fuel] is the number of words. *)
Fixpoint hash_blocks (fuel : nat) (hash ws : list Z) : list Z :=
  match fuel, ws with
  | S fuel', _ :: _ => hash_blocks fuel' (compress hash (take 16 ws)) (drop 16 ws)
  | _, _ => hash
  end.

Definition sha256_words (s : string) : list Z :=
  let ws := words (pad_message (bytes_of s)) in
  hash_blocks (length ws) initial_hash ws.

Definition hex_nibble (n : Z) : string := String.substring (Z.to_nat n) 1 "0123456789abcdef".

Definition hex_word (w : Z) : string :=
  fold_right (fun i acc => hex_nibble (Z.shiftr w (4 * i) mod 16) +:+ acc) "" [7; 6; 5; 4; 3; 2; 1; 0].

(** hex.EncodeToString of the digest *)
Definition sha256_hex (s : string) : string := join "" (map hex_word (sha256_words s)).

Example sha256_abc :
  sha256_hex "abc" = "ba7816bf8f01cfea414140de5dae2223b00361a396177a9cb410ff61f20015ad".
Proof. vm_compute. reflexivity. Qed.

Example sha256_two_blocks :
  sha256_hex "abcdbcdecdefdefgefghfghighijhijkijkljklmklmnlmnomnopnopq"
  = "248d6a61d20638b8e5c026930c3e6039a33ce45964ff2167f6ecedd419db06c1".
Proof. vm_compute. reflexivity. Qed.
