(* ===== verification/Evidence.v ===== *)
(** * Participant runtime evidence attached to speeches
    (storage/participant_runtime_evidence.go)

    Every [speech] event carries, in its payload, one row per council member:
    the speaker acknowledges itself, the others observe. *)

From S2P Require Import Prelude GoValue GoTime Model Ids Sha256.

Definition rowString (row : payload) (key : string) : string :=
  match row !! key with
  | Some (AStr s) => trim_space s
  | _ => ""
  end.

Definition persistentParticipantHandle (sessionID member : string) : string :=
  "psh_" +:+ String.substring 0 24 (sha256_hex (trim_space sessionID +:+ nul +:+ trim_space member)).

(** The generation of a row of decoded evidence, when the row is the one looked for. *)
Definition row_generation (sessionID member handle : string) (a : any) : option Z :=
  match a with
  | AMap row =>
      if (rowString row "session_id" == sessionID) && (rowString row "member" == member)
         && (rowString row "participant_session_handle" == handle)
         && (0 <? anyInt row "generation")
      then Some (anyInt row "generation") else None
  | _ => None
  end.

Fixpoint first_generation (sessionID member handle : string) (rows : list any) : option Z :=
  match rows with
  | [] => None
  | r :: rest =>
      match row_generation sessionID member handle r with
      | Some g => Some g
      | None => first_generation sessionID member handle rest
      end
  end.

Definition event_generation (sessionID member handle : string) (e : EventEnvelope) : option Z :=
  match pl e !! "persistent_participant_runtime_evidence" with
  | Some (AMap evidence) =>
      match evidence !! "members" with
      | Some (AList rows) => first_generation sessionID member handle rows
      | _ => None
      end
  | _ => None
  end.

Fixpoint scan_generation (sessionID member handle : string) (evs : list EventEnvelope) : Z :=
  match evs with
  | [] => 1
  | e :: rest =>
      match event_generation sessionID member handle e with
      | Some g => g
      | None => scan_generation sessionID member handle rest
      end
  end.

(** The latest positive generation recorded for the member, else 1. *)
Definition persistentParticipantGeneration (ix : LogIndex) (sessionID member handle : string) : Z :=
  scan_generation sessionID member handle (rev (ix_events ix)).

Definition evidence_row (md : SessionMetadata) (ix : LogIndex) (e : EventEnvelope)
    (cursor member : string) : payload :=
  let handle := persistentParticipantHandle (md_id md) member in
  let generation := persistentParticipantGeneration ix (md_id md) member handle in
  let base : payload :=
    {[ "session_id" := AStr (md_id md); "member" := AStr member;
       "participant_session_handle" := AStr handle; "generation" := AInt generation;
       "coverage_kind" := AStr (if member == ev_from e then "self_ack" else "observe_delta");
       "status" := AStr "ready"; "speech_event_id" := AStr (ev_event_id e);
       "observed_event_id" := AStr (ev_event_id e); "last_event_id" := AStr (ev_event_id e);
       "last_cursor" := AStr cursor; "source" := AStr "control_local_event_log";
       "prslr_scope" := AStr "PRSLR-004"; "updated_at" := AStr (time_format (ev_created_at e)) ]} in
  if is_blank (ev_causation_event_id e) then base
  else <["request_event_id" := AStr (ev_causation_event_id e)]> base.

Definition evidence_handle (md : SessionMetadata) (ix : LogIndex) (member : string) : payload :=
  let handle := persistentParticipantHandle (md_id md) member in
  {[ "session_id" := AStr (md_id md); "member" := AStr member;
     "participant_session_handle" := AStr handle;
     "generation" := AInt (persistentParticipantGeneration ix (md_id md) member handle);
     "status" := AStr "open" ]}.

Definition persistentParticipantRuntimeEvidenceForSpeech (md : SessionMetadata) (ix : LogIndex)
    (e : EventEnvelope) (cursor : string) : payload :=
  let members := councilMembers md in
  {[ "status" := AStr "coverage_complete"; "session_id" := AStr (md_id md);
     "speech_event_id" := AStr (ev_event_id e); "coverage_cursor" := AStr cursor;
     "coverage_scope" := AStr "all_council_members"; "speaker" := AStr (ev_from e);
     "required_members" := AStrs members;
     "members" := AMaps (map (evidence_row md ix e cursor) members);
     "session_registry" := AMaps (map (evidence_handle md ix) members);
     "evidence_kind" := AStr "persistent_participant_runtime_evidence";
     "prslr_scope" := AStr "PRSLR-004" ]}.

Definition set_payload (e : EventEnvelope) (p : payload) : EventEnvelope :=
  mk_event (ev_schema_version e) (ev_event_id e) (ev_command_id e) (ev_causation_event_id e)
    (ev_correlation_id e) (ev_session_id e) (ev_session_type e) (ev_turn e) (ev_phase e)
    (ev_type e) (ev_from e) (ev_to e) (ev_created_at e) (ev_runner e) (ev_cost e) (Some p).

(** [attachPersistentParticipantRuntimeEvidence]; [prepareEventForAppend] is
    only a call of it. *)
Definition attachPersistentParticipantRuntimeEvidence (md : SessionMetadata) (ix : LogIndex)
    (e : EventEnvelope) : EventEnvelope :=
  match ev_payload e with
  | Some p =>
      if ev_type e == "speech" then
        let cursor := cursorFor (len_z (ix_events ix)) (ev_event_id e) in
        set_payload e (<["persistent_participant_runtime_evidence" :=
          AMap (persistentParticipantRuntimeEvidenceForSpeech md ix e cursor)]> p)
      else e
  | None => e
  end.

Definition prepareEventForAppend (md : SessionMetadata) (ix : LogIndex) (e : EventEnvelope) : EventEnvelope :=
  attachPersistentParticipantRuntimeEvidence md ix e.

Definition latestPersistentParticipantRuntimeEvidenceFromIndex (ix : LogIndex) : option payload :=
  let evidence e :=
    match pl e !! "persistent_participant_runtime_evidence" with
    | Some (AMap m) => Some m
    | _ => None
    end in
  match find_last (fun e => (ev_type e == "speech") &&
                            match evidence e with Some _ => true | None => false end) (ix_events ix) with
  | Some e => evidence e
  | None => None
  end.

#[global] Arguments persistentParticipantHandle : simpl never.
#[global] Arguments persistentParticipantRuntimeEvidenceForSpeech : simpl never.
#[global] Arguments prepareEventForAppend : simpl never.

(** ** Lemmas *)

Lemma prepare_non_speech md ix e : ev_type e <> "speech" -> prepareEventForAppend md ix e = e.
Proof.
  intros H. unfold prepareEventForAppend, attachPersistentParticipantRuntimeEvidence.
  destruct (ev_payload e); [|done]. apply String.eqb_neq in H as ->. done.
Qed.

(** The evidence replaces whatever the payload held under its key, so preparing
    twice against the same log is preparing once. *)
Lemma prepare_idemp md ix e :
  prepareEventForAppend md ix (prepareEventForAppend md ix e) = prepareEventForAppend md ix e.
Proof.
  unfold prepareEventForAppend, attachPersistentParticipantRuntimeEvidence.
  destruct (ev_payload e) as [p|] eqn:Hp; [|by rewrite Hp].
  destruct (ev_type e == "speech") eqn:Ht; [|by rewrite Hp, Ht].
  simpl. rewrite Ht. unfold set_payload. simpl. by rewrite insert_insert_eq.
Qed.

Lemma prepare_fields md ix e :
  let e' := prepareEventForAppend md ix e in
  ev_schema_version e' = ev_schema_version e /\ ev_event_id e' = ev_event_id e /\
  ev_command_id e' = ev_command_id e /\ ev_causation_event_id e' = ev_causation_event_id e /\
  ev_correlation_id e' = ev_correlation_id e /\ ev_session_id e' = ev_session_id e /\
  ev_session_type e' = ev_session_type e /\ ev_turn e' = ev_turn e /\ ev_phase e' = ev_phase e /\
  ev_type e' = ev_type e /\ ev_from e' = ev_from e /\ ev_to e' = ev_to e /\
  ev_created_at e' = ev_created_at e /\ ev_runner e' = ev_runner e /\ ev_cost e' = ev_cost e.
Proof.
  unfold prepareEventForAppend, attachPersistentParticipantRuntimeEvidence.
  destruct (ev_payload e); [destruct (_ == _)|]; simpl; by repeat split.
Qed.
