(* ===== verification/Events.v ===== *)
(** * The event log (storage/events.go and the append path of storage/stream.go)

    A session directory holds [channel.jsonl], the append-only authority, and
    [session.yaml], a projection of it.  The model keeps the decoded lines of the
    log, whether bytes follow its last newline, and the decoded metadata; the
    file-system faults that can interrupt an append are explicit. *)

From S2P Require Import Prelude GoValue GoTime Model Ids Evidence.

(** ** Session directories *)

Inductive node_kind := NRegular | NSymlink | NOther.

(** One line of channel.jsonl: blank, not a decodable envelope (with
    encoding/json's message), or an envelope and whether it has a [status] key,
    which is looked for before the envelope is decoded. *)
Inductive log_line :=
| LineBlank
| LineBad (message : string)
| LineEvent (has_status : bool) (e : EventEnvelope).

Record channel := mk_channel {
  ch_kind : node_kind; ch_lines : list log_line; ch_partial : bool }.

(** [sd_dir] is [NOther] for a directory. *)
Record session_dir := mk_session_dir {
  sd_path : string; sd_symlink : bool; sd_is_dir : bool;
  sd_channel : option channel; sd_yaml : option SessionMetadata }.

(** The sessions root of a data home: the directory entries by name. *)
Abbreviation sessions := (gmap string session_dir).

Definition channel_path (sd : session_dir) : string := sd_path sd +:+ "/channel.jsonl".
Definition line_path (path : string) (i : Z) : string := path +:+ ":" +:+ itoa (i + 1).

(** ids.go [safeSessionDirForAppend] *)
Definition safeSessionDirForAppend (sd : session_dir) : result error unit :=
  reject sd_symlink sd with
    NewValidationError CategorySessionUnsafe (sd_path sd) "session directory symlinks are forbidden";;
  reject negb (sd_is_dir sd) with
    NewValidationError CategorySessionUnsafe (sd_path sd) "session path is not a directory";;
  Ok tt.

(** session_yaml.go [LoadSessionYAML], the decoding itself aside. *)
Definition LoadSessionYAML (sd : session_dir) : result error SessionMetadata :=
  try _ := safeSessionDirForAppend sd in
  match sd_yaml sd with
  | Some md => Ok md
  | None => Err (NewValidationError CategoryMetadataInvalid (sd_path sd +:+ "/session.yaml")
                   "session.yaml is missing or undecodable")
  end.

(** ** ValidateEnvelope *)

Definition issue_when (b : bool) (category path message : string) : list Issue :=
  if b then [mk_issue category path message] else [].

Definition result_issues {A} (r : result error A) : list Issue :=
  match r with
  | Ok _ => []
  | Err e => Issues e
  end.

Definition sameStringSet (a b : list string) : bool :=
  (len_z a =? len_z b) && bool_decide (sort_strings a = sort_strings b).

Definition validRunnerCost (raw : any) : bool :=
  match raw with
  | ANil | AMap _ => true
  | _ => false
  end.

(** A string field of an object decoded into a struct: absent, null or a string. *)
Definition struct_string (m : payload) (key : string) : option string :=
  match m !! key with
  | None | Some ANil => Some ""
  | Some (AStr s) => Some s
  | _ => None
  end.

Definition surface_fields : list string :=
  ["platform"; "guild_id"; "channel_id"; "origin_message_id"; "started_by"; "delivery_owner"].

(** [validateSurfaceValue]: the value re-encoded and decoded as a Surface. *)
Definition validateSurfaceValue (value : any) : result error unit :=
  let bad := Err (NewValidationError CategoryInvalidEnvelope "payload.surface"
                    "json: cannot unmarshal payload.surface") in
  match json_norm value with
  | ANil => Ok tt
  | AMap m =>
      match struct_string m "kind", struct_string m "thread_id" with
      | Some kind, Some thread =>
          if forallb (fun k => match struct_string m k with Some _ => true | None => false end) surface_fields
          then
            if (kind == "discord_thread") && is_blank thread
            then Err (NewValidationError CategoryInvalidEnvelope "payload.surface.thread_id"
                        "discord_thread surface requires thread_id")
            else Ok tt
          else bad
      | _, _ => bad
      end
  | _ => bad
  end.

Definition option_eqb (o : option string) (s : string) : bool :=
  match o with
  | Some t => t == s
  | None => false
  end.

Definition validateSessionCreatedPayload (md : SessionMetadata) (e : EventEnvelope) : list Issue :=
  let add := mk_issue CategoryInvalidEnvelope in
  let when (b : bool) path message := if b then [add path message] else [] in
  when (ev_from e != "atn-controld") "from" "session_created must come from atn-controld" ++
  when (ev_phase e != PhaseCreated) "phase" "session_created phase must be created" ++
  match ev_payload e with
  | None => [add "payload" "session_created payload is required"]
  | Some p =>
      when (negb (option_eqb (payloadString p "session_type") (md_session_type md)))
        "payload.session_type" "payload session_type must match metadata" ++
      when (negb (option_eqb (payloadString p "title") (md_title md)))
        "payload.title" "payload title must match metadata" ++
      when (negb (option_eqb (payloadString p "moderator") (md_moderator md)))
        "payload.moderator" "payload moderator must match metadata" ++
      when (match payloadStringSlice p "participants" with
            | Some got => negb (sameStringSet got (md_participants md))
            | None => true
            end)
        "payload.participants" "payload participants must match metadata" ++
      match md_surface md with
      | None => []
      | Some _ =>
          match p !! "surface" with
          | None => [add "payload.surface" "surface is required when session metadata has surface"]
          | Some value => result_issues (validateSurfaceValue value)
          end
      end ++
      match md_linked_authority md with
      | None => []
      | Some _ =>
          when (match p !! "linked_authority" with None => true | Some _ => false end)
            "payload.linked_authority"
            "linked_authority is required when session metadata has linked_authority"
      end
  end.

Fixpoint recipient_issues (md : SessionMetadata) (seen tos : list string) : list Issue :=
  match tos with
  | [] => []
  | to :: rest =>
      issue_when (mem_str to ["all"; "*"; "atn-controld"]) CategoryPrincipalInvalid "to"
        "broadcast shortcuts and daemon recipient are forbidden" ++
      issue_when (negb (principalAllowed md to false)) CategoryPrincipalInvalid "to"
        "recipient is not allowed for this session" ++
      issue_when (mem_str to seen) CategoryPrincipalInvalid "to" "duplicate recipient" ++
      recipient_issues md (to :: seen) rest
  end.

Definition runner_issues (e : EventEnvelope) : list Issue :=
  let has_cost := match ev_cost e with Some _ => true | None => false end in
  match ev_runner e with
  | None => issue_when has_cost CategoryInvalidEnvelope "cost" "cost must be omitted when runner is absent"
  | Some r =>
      issue_when (negb (mem_str (rn_status r) runnerStatuses)) CategoryInvalidEnvelope
        "runner.status" "runner status is not allowed" ++
      if ev_type e == "runner_invocation_started" then
        issue_when has_cost CategoryInvalidEnvelope "cost"
          "cost must be omitted on runner_invocation_started"
      else
        match ev_cost e with
        | None => [mk_issue CategoryInvalidEnvelope "cost"
                     "cost must be present when runner is present on terminal events"]
        | Some c => issue_when (negb (validRunnerCost c)) CategoryInvalidEnvelope "cost"
                      "runner terminal cost must be object or null"
        end
  end.

Definition envelope_issues (md : SessionMetadata) (e : EventEnvelope) : list Issue :=
  issue_when (negb (ev_schema_version e =? SchemaVersion)) CategoryInvalidEnvelope "schema_version"
    ("unsupported schema version " +:+ itoa (ev_schema_version e)) ++
  issue_when (is_blank (ev_event_id e)) CategoryInvalidEnvelope "event_id" "event id is required" ++
  issue_when (ev_session_id e != md_id md) CategoryInvalidEnvelope "session_id"
    "event session_id does not match session metadata" ++
  result_issues (ValidateSessionID (ev_session_id e)) ++
  issue_when (ev_session_type e != md_session_type md) CategoryInvalidEnvelope "session_type"
    "event session_type does not match session metadata" ++
  issue_when (negb (validSessionType (ev_session_type e))) CategoryInvalidEnvelope "session_type"
    "session_type must be delegation or council" ++
  issue_when (negb (validPhase (ev_session_type e) (ev_phase e))) CategoryInvalidEnvelope "phase"
    "phase is not valid for session_type" ++
  issue_when (is_blank (ev_type e)) CategoryInvalidEnvelope "type" "event type is required" ++
  issue_when (is_zero (ev_created_at e)) CategoryInvalidEnvelope "created_at" "created_at is required" ++
  issue_when (negb (principalAllowed md (ev_from e) true)) CategoryPrincipalInvalid "from"
    "from principal is not allowed for this session" ++
  recipient_issues md [] (ev_to e) ++
  runner_issues e ++
  (if ev_type e == "session_created" then validateSessionCreatedPayload md e else []).

Definition ValidateEnvelope (md : SessionMetadata) (e : EventEnvelope) : result error unit :=
  match envelope_issues md e with
  | [] => Ok tt
  | issues => Err (NewValidationErrors issues)
  end.

(** ** ReadLogIndex *)

Definition empty_index : LogIndex := mk_index [] ∅.

Definition index_add (ix : LogIndex) (e : EventEnvelope) : LogIndex :=
  mk_index (ix_events ix ++ [e]) ({[ev_event_id e]} ∪ ix_event_ids ix).

Fixpoint read_lines (md : SessionMetadata) (path : string) (i : Z) (lines : list log_line)
    (ix : LogIndex) : result error LogIndex :=
  match lines with
  | [] => Ok ix
  | LineBlank :: _ => Err (NewValidationError CategoryLogCorrupt (line_path path i) "blank event line")
  | LineBad message :: _ => Err (NewValidationError CategoryLogCorrupt (line_path path i) message)
  | LineEvent has_status e :: rest =>
      reject has_status with
        NewValidationError CategoryInvalidEnvelope (line_path path i) "event envelopes must not contain status";;
      reject bool_decide (ev_event_id e ∈ ix_event_ids ix) with
        NewValidationError CategoryDuplicateEventID (line_path path i) "duplicate event id in channel.jsonl";;
      try _ := ValidateEnvelope md e in
      read_lines md path (i + 1) rest (index_add ix e)
  end.

Definition ReadLogIndex (sd : session_dir) (md : SessionMetadata) : result error LogIndex :=
  try _ := safeSessionDirForAppend sd in
  match sd_channel sd with
  | None => Ok empty_index
  | Some c =>
      match ch_kind c with
      | NSymlink => Err (NewValidationError CategoryLogCorrupt (channel_path sd)
                           "channel.jsonl symlinks are forbidden")
      | NOther => Err (NewValidationError CategoryLogCorrupt (channel_path sd)
                         "channel.jsonl is not regular")
      | NRegular =>
          reject ch_partial c with
            NewValidationError CategoryLogCorrupt (channel_path sd) "channel.jsonl is missing final newline";;
          read_lines md (channel_path sd) 0 (ch_lines c) empty_index
      end
  end.

(** ** AppendEvent *)

(** projection.go [safeSessionEntries]: the visible entries in name order. *)
Fixpoint safe_entries (l : list (string * session_dir)) : result error (list (string * session_dir)) :=
  match l with
  | [] => Ok []
  | (name, sd) :: rest =>
      if has_prefix name "." then safe_entries rest
      else
        match ValidateSessionID name with
        | Err err => Err (EProjection "unsafe_data_home" "unsafe session id" err)
        | Ok _ =>
            if sd_symlink sd || negb (sd_is_dir sd) then
              Err (EProjection "unsafe_data_home" "unsafe session path"
                     (NewValidationError CategorySessionUnsafe (sd_path sd)
                        "session path must be a regular directory"))
            else try r := safe_entries rest in Ok ((name, sd) :: r)
        end
  end.

Definition safeSessionEntries (ss : sessions) : result error (list (string * session_dir)) :=
  safe_entries (sorted_entries ss).

Definition uses_command (ix : LogIndex) (commandID : string) : bool :=
  existsb (fun e => ev_command_id e == commandID) (ix_events ix).

Fixpoint command_unused (md : SessionMetadata) (self commandID : string)
    (entries : list (string * session_dir)) : result error unit :=
  match entries with
  | [] => Ok tt
  | (name, sd) :: rest =>
      if (name == md_id md) || (name == self) then command_unused md self commandID rest
      else
        try other := LoadSessionYAML sd in
        try ix := ReadLogIndex sd other in
        reject uses_command ix commandID with
          NewValidationError CategoryCommandConflict "command_id"
            ("command_id already used by session " +:+ name);;
        command_unused md self commandID rest
  end.

(** [self] is the entry name of the session directory being appended to. *)
Definition validateCommandIDNotUsedInOtherSession (ss : sessions) (self : string)
    (md : SessionMetadata) (commandID : string) : result error unit :=
  let c := trim_space commandID in
  if c == "" then Ok tt
  else try entries := safeSessionEntries ss in command_unused md self c entries.

Definition projectedMetadataPhaseStatus (currentPhase : Phase) (currentStatus : Status)
    (eventPhase : Phase) : Phase * Status :=
  if (currentStatus == StatusTerminal) || (statusFromPhase currentPhase == StatusTerminal)
  then (currentPhase, StatusTerminal)
  else (eventPhase, statusFromPhase eventPhase).

(** The metadata update at the end of AppendEvent. *)
Definition project_metadata (md : SessionMetadata) (e : EventEnvelope) : SessionMetadata :=
  let st := md_state md in
  let '(phase, status) := projectedMetadataPhaseStatus (st_phase st) (md_status md) (ev_phase e) in
  mk_metadata (md_id md) (md_session_type md) status (md_title md) (md_moderator md)
    (md_participants md) (md_surface md) (md_linked_authority md) (md_timeout_evidence md)
    (md_turn_mode md) (md_created_at md) (md_limits md)
    (mk_state phase (default (st_current_turn st) (ev_turn e))
       (if ev_type e == "speech" then ev_from e else st_last_speaker st) (st_consensus_round st))
    (md_registry_snapshot md).

(** The points at which the operating system can fail an append.  A failed
    write may leave part of the line behind. *)
Inductive append_fault :=
| FaultOpen
| FaultWrite (partial : bool)
| FaultChmod
| FaultSync
| FaultClose
| FaultDirSync
| FaultYaml.

Definition ensureChannelFileSafe (sd : session_dir) : result error unit :=
  match sd_channel sd with
  | None => Ok tt
  | Some c =>
      match ch_kind c with
      | NSymlink => Err (NewValidationError CategoryLogCorrupt (channel_path sd)
                           "channel.jsonl symlinks are forbidden")
      | NOther => Err (NewValidationError CategoryLogCorrupt (channel_path sd)
                         "channel.jsonl is not regular")
      | NRegular => Ok tt
      end
  end.

Definition set_channel (sd : session_dir) (c : channel) : session_dir :=
  mk_session_dir (sd_path sd) (sd_symlink sd) (sd_is_dir sd) (Some c) (sd_yaml sd).

Definition set_yaml (sd : session_dir) (md : SessionMetadata) : session_dir :=
  mk_session_dir (sd_path sd) (sd_symlink sd) (sd_is_dir sd) (sd_channel sd) (Some md).

Definition lines_of (sd : session_dir) : list log_line :=
  match sd_channel sd with
  | Some c => ch_lines c
  | None => []
  end.

Definition set_to (e : EventEnvelope) (to : list string) : EventEnvelope :=
  mk_event (ev_schema_version e) (ev_event_id e) (ev_command_id e) (ev_causation_event_id e)
    (ev_correlation_id e) (ev_session_id e) (ev_session_type e) (ev_turn e) (ev_phase e)
    (ev_type e) (ev_from e) to (ev_created_at e) (ev_runner e) (ev_cost e) (ev_payload e).

Definition set_correlation (e : EventEnvelope) (c : string) : EventEnvelope :=
  mk_event (ev_schema_version e) (ev_event_id e) (ev_command_id e) (ev_causation_event_id e)
    c (ev_session_id e) (ev_session_type e) (ev_turn e) (ev_phase e)
    (ev_type e) (ev_from e) (ev_to e) (ev_created_at e) (ev_runner e) (ev_cost e) (ev_payload e).

(** The envelope as it is encoded: recipients sorted, correlation defaulted. *)
Definition finish_event (e : EventEnvelope) : EventEnvelope :=
  let e1 := set_to e (sort_strings (ev_to e)) in
  if ev_correlation_id e1 == "" then set_correlation e1 (ev_session_id e1) else e1.

(** What the checks before any write establish: the log as read and the event
    ready to encode. *)
Definition append_checks (ss : sessions) (name : string) (sd : session_dir) (md : SessionMetadata)
    (e : EventEnvelope) : result error (LogIndex * EventEnvelope) :=
  try _ := safeSessionDirForAppend sd in
  try ix := ReadLogIndex sd md in
  let e1 := prepareEventForAppend md ix e in
  reject bool_decide (ev_event_id e1 ∈ ix_event_ids ix) with
    NewValidationError CategoryDuplicateEventID "event_id" "event id already exists in channel.jsonl";;
  try _ := ValidateEnvelope md e1 in
  try _ := validateCommandIDNotUsedInOtherSession ss name md (ev_command_id e1) in
  let e2 := finish_event e1 in
  ensure time_json_ok (ev_created_at e2) or
    NewValidationError CategoryInvalidEnvelope "event"
      "json: error calling MarshalJSON for type time.Time";;
  try _ := ensureChannelFileSafe sd in
  Ok (ix, e2).

(** The file operations of AppendEvent under at most one fault: the session
    directory and the in-memory metadata they leave, and the outcome. *)
Definition append_io (sd : session_dir) (md : SessionMetadata) (ix : LogIndex) (e : EventEnvelope)
    (fault : option append_fault) : session_dir * SessionMetadata * result error AppendResult :=
  let failed category path := Err (NewValidationError category path "input/output error") in
  let written := set_channel sd (mk_channel NRegular (lines_of sd ++ [LineEvent false (norm_event e)]) false) in
  let md' := project_metadata md e in
  let offset := len_z (ix_events ix) in
  match fault with
  | Some FaultOpen => (sd, md, failed CategoryAppendFailed (channel_path sd))
  | Some (FaultWrite partial) =>
      (set_channel sd (mk_channel NRegular (lines_of sd) partial), md,
       failed CategoryAppendFailed (channel_path sd))
  | Some FaultChmod | Some FaultSync | Some FaultClose =>
      (written, md, failed CategoryAppendFailed (channel_path sd))
  | Some FaultDirSync => (written, md, failed CategoryAppendFailed (sd_path sd))
  | Some FaultYaml => (written, md', failed CategoryMetadataWrite (sd_path sd))
  | None => (set_yaml written md', md',
             Ok (mk_append_result (cursorFor offset (ev_event_id e)) offset (ev_event_id e)))
  end.

(** The state an append runs in: the sessions root, and the caller's metadata
    object, which AppendEvent updates through its pointer. *)
Record world := mk_world { wd_sessions : sessions; wd_md : SessionMetadata }.

Definition AppendEvent (name : string) (w : world) (e : EventEnvelope) (fault : option append_fault)
    : world * result error AppendResult :=
  match wd_sessions w !! name with
  | None => (w, Err (NewValidationError CategorySessionUnsafe name "no such file or directory"))
  | Some sd =>
      match append_checks (wd_sessions w) name sd (wd_md w) e with
      | Err err => (w, Err err)
      | Ok (ix, e') =>
          let '(sd', md', r) := append_io sd (wd_md w) ix e' fault in
          (mk_world (<[name := sd']> (wd_sessions w)) md', r)
      end
  end.

(** ** Idempotent append (stream.go) *)

Definition council_payload_keys : list string :=
  ["session_type"; "title"; "moderator"; "participants"; "surface"; "linked_authority"].

Definition delete_keys (keys : list string) (p : payload) : payload :=
  fold_right (fun k q => delete k q) p keys.

Definition normalizedCommandPayload (e : EventEnvelope) : option payload :=
  match ev_payload e with
  | None => None
  | Some p => Some (if ev_session_type e == SessionTypeCouncil
                    then delete_keys council_payload_keys p else p)
  end.

Definition payload_text (p : option payload) : string :=
  match p with
  | None => "null"
  | Some m => json_text (AMap m)
  end.

Definition commandEquivalent (a b : EventEnvelope) : bool :=
  (ev_type a == ev_type b) && (ev_command_id a == ev_command_id b) &&
  (ev_causation_event_id a == ev_causation_event_id b) && (ev_session_id a == ev_session_id b) &&
  (ev_session_type a == ev_session_type b) && (ev_phase a == ev_phase b) && (ev_from a == ev_from b) &&
  bool_decide (ev_to a = ev_to b) &&
  (payload_text (normalizedCommandPayload a) == payload_text (normalizedCommandPayload b)).

Definition existing_result (offset : nat) (e : EventEnvelope) : AppendResult :=
  mk_append_result (cursorFor (Z.of_nat offset) (ev_event_id e)) (Z.of_nat offset) (ev_event_id e).

Definition command_conflict : error :=
  NewValidationError CategoryCommandConflict "command_id" "command_id already used with different payload".

(** The scan for an event of the same command: [Some] outcome when one exists. *)
Definition replay_command (ix : LogIndex) (e : EventEnvelope) : option (result error AppendResult) :=
  match find_from (fun x => ev_command_id x == ev_command_id e) 0 (ix_events ix) with
  | Some (offset, existing) =>
      Some (if commandEquivalent existing e then Ok (existing_result offset existing)
            else Err command_conflict)
  | None => None
  end.

(** The boolean of a success says whether the command was deduplicated. *)
Definition appendIdempotentEvent (name : string) (w : world) (ix : LogIndex) (e : EventEnvelope)
    (fault : option append_fault) : world * result error (AppendResult * bool) :=
  let e1 := prepareEventForAppend (wd_md w) ix e in
  let replay := if ev_command_id e1 == "" then None else replay_command ix e1 in
  match replay with
  | Some r => (w, (fun a => (a, true)) <$> r)
  | None =>
      let '(w', r) := AppendEvent name w e1 fault in
      (w', (fun a => (a, false)) <$> r)
  end.

#[global] Arguments ReadLogIndex : simpl never.
#[global] Arguments ValidateEnvelope : simpl never.
#[global] Arguments AppendEvent : simpl never.
#[global] Arguments appendIdempotentEvent : simpl never.
#[global] Arguments commandEquivalent : simpl never.
#[global] Arguments append_checks : simpl never.
