(* ===== verification/EventLog.v ===== *)
(** * Laws of the event log

    What the append path of Events.v promises to the command handlers: the log
    only grows, a successful append is read back, the metadata projection keeps
    a terminal status, a faulty append leaves a log that is either unchanged,
    extended by the whole event, or visibly torn, and a retried command is
    answered from the log. *)

From S2P Require Import Prelude GoValue GoTime Model Ids Evidence Events.

(** ** Metadata up to the projected state

    Appends change only the status and the state of the metadata object; every
    reader of the log depends on the other fields alone. *)
Definition same_session (a b : SessionMetadata) : Prop :=
  md_id a = md_id b /\ md_session_type a = md_session_type b /\ md_title a = md_title b /\
  md_moderator a = md_moderator b /\ md_participants a = md_participants b /\
  md_surface a = md_surface b /\ md_linked_authority a = md_linked_authority b /\
  md_timeout_evidence a = md_timeout_evidence b /\ md_turn_mode a = md_turn_mode b /\
  md_created_at a = md_created_at b /\ md_limits a = md_limits b /\
  md_registry_snapshot a = md_registry_snapshot b.

(** The abstract log of a session directory: the events it holds. *)
Definition line_events (l : list log_line) : list EventEnvelope :=
  omap (fun x => match x with LineEvent _ e => Some e | _ => None end) l.

Definition log_of (sd : session_dir) : list EventEnvelope := line_events (lines_of sd).

(** The log of session [name] in a world is readable as [ix]. *)
Definition reads (w : world) (name : string) (ix : LogIndex) : Prop :=
  exists sd, wd_sessions w !! name = Some sd /\ ReadLogIndex sd (wd_md w) = Ok ix.

#[global] Instance same_session_equiv : Equivalence same_session.
Proof.
  split.
  - by repeat split.
  - intros a b H. unfold same_session in *. by destruct_and?.
  - intros a b c H1 H2. unfold same_session in *. destruct_and?.
    repeat split; etransitivity; eauto.
Qed.

(** Reduces [same_session a b] to equality of the frozen fields and substitutes. *)
Ltac open_session H :=
  match type of H with
  | same_session ?a ?b =>
      destruct a, b; unfold same_session in H; simpl in H; destruct_and?; subst
  end.

#[global] Instance principalAllowed_proper : Proper (same_session ==> eq ==> eq ==> eq) principalAllowed.
Proof. intros a b H p ? <- d ? <-. by open_session H. Qed.

#[global] Instance recipient_issues_proper : Proper (same_session ==> eq ==> eq ==> eq) recipient_issues.
Proof.
  intros a b H seen ? <- tos ? <-. revert seen.
  induction tos as [|t tos IH]; intros seen; simpl; [done|].
  by rewrite IH, (principalAllowed_proper a b H t t eq_refl false false eq_refl).
Qed.

#[global] Instance validateSessionCreatedPayload_proper :
  Proper (same_session ==> eq ==> eq) validateSessionCreatedPayload.
Proof. intros a b H e ? <-. by open_session H. Qed.

#[global] Instance envelope_issues_proper : Proper (same_session ==> eq ==> eq) envelope_issues.
Proof. 
  intros a b H e ? <-. unfold envelope_issues.
  rewrite (principalAllowed_proper a b H _ _ eq_refl true true eq_refl),
    (recipient_issues_proper a b H _ _ eq_refl _ _ eq_refl),
    (validateSessionCreatedPayload_proper a b H _ _ eq_refl).
  by open_session H.
Qed.

#[global] Instance ValidateEnvelope_proper : Proper (same_session ==> eq ==> eq) ValidateEnvelope.
Proof. intros a b H e ? <-. unfold ValidateEnvelope.
  by rewrite (envelope_issues_proper a b H _ _ eq_refl).
Qed.

#[global] Instance read_lines_proper :
  Proper (same_session ==> eq ==> eq ==> eq ==> eq ==> eq) read_lines.
Proof.
  intros a b H path ? <- i ? <- l ? <- ix ? <-. revert i ix.
  induction l as [|[|m|s e] l IH]; intros i ix; simpl; try done.
  destruct s; [done|]. destruct (bool_decide _); [done|].
  rewrite (ValidateEnvelope_proper a b H _ _ eq_refl).
  destruct (ValidateEnvelope b e); simpl; [apply IH | done].
Qed.

#[global] Instance ReadLogIndex_proper : Proper (eq ==> same_session ==> eq) ReadLogIndex.
Proof.
  intros sd ? <- a b H. unfold ReadLogIndex. destruct (safeSessionDirForAppend sd); simpl; [|done].
  destruct (sd_channel sd); [|done]. destruct (ch_kind c); try done.
  by rewrite (read_lines_proper a b H _ _ eq_refl _ _ eq_refl _ _ eq_refl _ _ eq_refl).
Qed.

#[global] Instance councilMembers_proper : Proper (same_session ==> eq) councilMembers.
Proof. intros a b H. by open_session H. Qed.

#[global] Instance councilMember_proper : Proper (same_session ==> eq ==> eq) councilMember.
Proof. intros a b H m ? <-. by open_session H. Qed.

Lemma project_metadata_same md e : same_session (project_metadata md e) md.
Proof.
  unfold project_metadata.
  destruct (projectedMetadataPhaseStatus _ _ _) as [p s]. by repeat split.
Qed.

#[export] Hint Resolve project_metadata_same : atn.

(** ** Validation survives the encoding *)

Lemma issue_when_nil b c p m : issue_when b c p m = [] <-> b = false.
Proof. unfold issue_when. by destruct b. Qed.

Lemma recipient_issues_nil md seen tos :
  recipient_issues md seen tos = [] <->
  NoDup tos /\ forall to, to ∈ tos ->
    to ∉ seen /\ mem_str to ["all"; "*"; "atn-controld"] = false /\ principalAllowed md to false = true.
Proof.
  revert seen. induction tos as [|t tos IH]; intros seen; simpl.
  - split; [intros _; split; [constructor | set_solver] | done].
  - rewrite !app_nil, !issue_when_nil, IH, NoDup_cons, negb_false_iff.
    assert (Hm : mem_str t seen = false <-> t ∉ seen).
    { rewrite <- mem_str_spec. by destruct (mem_str t seen). }
    rewrite Hm. set_solver.
Qed.

Lemma runner_issues_norm e : runner_issues e = [] -> runner_issues (norm_event e) = [].
Proof.
  unfold runner_issues. simpl. destruct (ev_runner e) as [r|].
  - rewrite !app_nil. intros [H1 H2]. split; [done|].
    destruct (ev_type e == _); destruct (ev_cost e) as [[]|]; simpl in *; done.
  - by destruct (ev_cost e).
Qed.

Lemma payloadString_norm (p : payload) k : payloadString (json_norm <$> p) k = payloadString p k.
Proof.
  unfold payloadString. rewrite lookup_fmap.
  destruct (p !! k) as [[]|]; simpl; try done. unfold float_of_int. by destruct (_ <=? _).
Qed.

Lemma created_payload_norm md e :
  validateSessionCreatedPayload md e = [] ->
  validateSessionCreatedPayload md (norm_event e) = [].
Proof.
  unfold validateSessionCreatedPayload. simpl. destruct (ev_payload e) as [p|]; simpl; [|done].
  rewrite !payloadString_norm. rewrite !app_nil.
  intros (H1 & H2 & H3 & H4 & H5 & H6 & H7 & H8).
  do 5 (split; [done|]). split; [|split].
  - destruct (payloadStringSlice p "participants") as [got|] eqn:E; [|done].
    by rewrite (payloadStringSlice_norm _ _ _ E).
  - destruct (md_surface md); [|done]. rewrite lookup_fmap.
    destruct (p !! "surface") as [v|]; simpl; [|done].
    unfold validateSurfaceValue in *. by rewrite json_norm_idemp.
  - destruct (md_linked_authority md); [|done]. rewrite lookup_fmap.
    by destruct (p !! "linked_authority").
Qed.

Lemma finish_event_fields e :
  let e' := finish_event e in
  ev_event_id e' = ev_event_id e /\ ev_command_id e' = ev_command_id e /\
  ev_session_id e' = ev_session_id e /\ ev_phase e' = ev_phase e /\ ev_type e' = ev_type e /\
  ev_from e' = ev_from e /\ ev_turn e' = ev_turn e /\ ev_to e' = sort_strings (ev_to e) /\
  ev_payload e' = ev_payload e /\ ev_created_at e' = ev_created_at e.
Proof. unfold finish_event. simpl. destruct (_ == _); by repeat split. Qed.

Lemma envelope_issues_encoded md e :
  envelope_issues md e = [] -> envelope_issues md (norm_event (finish_event e)) = [].
Proof.
  unfold envelope_issues. rewrite !app_nil.
  intros (? & ? & ? & ? & ? & ? & ? & ? & ? & ? & Hto & Hrunner & Hcreated).
  assert (Hfin : exists c, finish_event e = set_correlation (set_to e (sort_strings (ev_to e))) c).
  { unfold finish_event. cbn zeta. destruct (ev_correlation_id (set_to _ _) == "");
    [exists (ev_session_id e) | exists (ev_correlation_id e)]; by destruct e. }
  destruct Hfin as [c ->]. simpl. do 10 (split; [done|]). split; [|split].
  - apply recipient_issues_nil. apply recipient_issues_nil in Hto as [Hnd Hall].
    split; [by rewrite sort_strings_perm|]. intros t Ht. apply Hall. by apply elem_of_sort_strings.
  - apply runner_issues_norm. done.
  - destruct (ev_type e == "session_created"); [|done]. by apply created_payload_norm.
Qed.

(** ** Reading an extended log *)

Lemma read_lines_app md path i l1 l2 ix :
  read_lines md path i (l1 ++ l2) ix =
  mbind (read_lines md path (i + len_z l1) l2) (read_lines md path i l1 ix).
Proof.
  revert i ix. induction l1 as [|[|m|s e] l1 IH]; intros i ix; simpl; try done.
  - by rewrite Z.add_0_r.
  - destruct s; [done|]. destruct (bool_decide _); [done|].
    destruct (ValidateEnvelope md e); simpl; [|done].
    rewrite IH. by replace (i + 1 + len_z l1) with (i + len_z (LineEvent false e :: l1))
      by (unfold len_z; simpl; lia).
Qed.

(** The index read from a log holds exactly its events, in order, and all of
    them are valid and pairwise distinct by id. *)
Lemma read_lines_events md path i l ix ix' :
  read_lines md path i l ix = Ok ix' ->
  ix_events ix' = ix_events ix ++ line_events l /\
  Forall (fun e => envelope_issues md e = []) (line_events l) /\
  ix_event_ids ix' = list_to_set (map ev_event_id (line_events l)) ∪ ix_event_ids ix.
Proof.
  revert i ix. induction l as [|[|m|s e] l IH]; intros i ix H; simpl in H; try done.
  - injection H as <-. simpl. rewrite app_nil_r. split; [done|]. split; [constructor | set_solver].
  - run_inv H. apply IH in H as (Hev & Hall & Hids). simpl in *.
    rewrite <- app_assoc in Hev. repeat split; [done| |].
    + constructor; [|done]. unfold ValidateEnvelope in Hrun. by destruct (envelope_issues md e).
    + rewrite Hids. simpl. set_solver.
Qed.

Definition index_ok (ix : LogIndex) : Prop :=
  NoDup (map ev_event_id (ix_events ix)) /\
  ix_event_ids ix = list_to_set (map ev_event_id (ix_events ix)).

Lemma index_add_ok ix e :
  index_ok ix -> ev_event_id e ∉ ix_event_ids ix -> index_ok (index_add ix e).
Proof.
  intros [Hnd Hids] Hnew. unfold index_ok, index_add. simpl. rewrite map_app. simpl. split.
  - apply NoDup_app. rewrite Hids, elem_of_list_to_set in Hnew. split; [done|].
    split; [|apply NoDup_singleton]. set_solver.
  - rewrite Hids, list_to_set_app_L. set_solver.
Qed.

Lemma read_lines_ok md path i l ix ix' :
  read_lines md path i l ix = Ok ix' -> index_ok ix -> index_ok ix'.
Proof.
  revert i ix. induction l as [|[|m|s e] l IH]; intros i ix H Hok; simpl in H; try done.
  - by injection H as <-.
  - run_inv H. apply IH in H; [done|]. apply index_add_ok; [done|].
    by apply bool_decide_eq_false in Hguard0.
Qed.

(** Every readable log satisfies the index invariant: valid envelopes, ids
    without duplicates, the id set of the index that of its events. *)
Lemma ReadLogIndex_ok sd md ix :
  ReadLogIndex sd md = Ok ix ->
  index_ok ix /\ ix_events ix = log_of sd /\ Forall (fun e => envelope_issues md e = []) (ix_events ix).
Proof.
  unfold ReadLogIndex, log_of, lines_of. intros H.
  assert (Hempty : index_ok empty_index) by (split; [constructor | done]).
  run_inv H; subst.
  - pose proof (read_lines_ok _ _ _ _ _ _ H Hempty).
    apply read_lines_events in H as (Hev & Hall & _). simpl in Hev. rewrite Hev.
    split; [done|]. by split.
  - split; [done|]. split; [done | constructor].
Qed.

Lemma ReadLogIndex_extend sd md ix e :
  ReadLogIndex sd md = Ok ix -> ev_event_id e ∉ ix_event_ids ix -> envelope_issues md e = [] ->
  ReadLogIndex (set_channel sd (mk_channel NRegular (lines_of sd ++ [LineEvent false e]) false)) md =
  Ok (index_add ix e).
Proof.
  intros H Hnew Hval. unfold ReadLogIndex in *.
  replace (safeSessionDirForAppend (set_channel _ _)) with (safeSessionDirForAppend sd) by done.
  replace (channel_path (set_channel _ _)) with (channel_path sd) by done.
  assert (Hlast : forall i ix', ix_event_ids ix' = ix_event_ids ix ->
            read_lines md (channel_path sd) i [LineEvent false e] ix' = Ok (index_add ix' e)).
  { intros i ix' Hids. simpl. rewrite Hids, bool_decide_eq_false_2 by done.
    unfold ValidateEnvelope. by rewrite Hval. }
  unfold lines_of. run_inv H; subst; simpl.
  - rewrite read_lines_app, H. simpl. by apply Hlast.
  - by apply (Hlast 0 empty_index).
Qed.

(** ** What an append does to the world *)

(** The event as it is read back after an append to a log read as [ix]. *)
Definition appended (md : SessionMetadata) (ix : LogIndex) (e : EventEnvelope) : EventEnvelope :=
  norm_event (finish_event (prepareEventForAppend md ix e)).

Lemma appended_fields md ix e :
  let e' := appended md ix e in
  ev_event_id e' = ev_event_id e /\ ev_command_id e' = ev_command_id e /\
  ev_session_id e' = ev_session_id e /\ ev_phase e' = ev_phase e /\ ev_type e' = ev_type e /\
  ev_from e' = ev_from e /\ ev_turn e' = ev_turn e /\ ev_to e' = sort_strings (ev_to e) /\
  ev_created_at e' = ev_created_at e.
Proof.
  unfold appended. cbv zeta. cbn [norm_event ev_event_id ev_command_id ev_session_id ev_phase
    ev_type ev_from ev_turn ev_to ev_created_at].
  pose proof (finish_event_fields (prepareEventForAppend md ix e)) as Hf.
  pose proof (prepare_fields md ix e) as Hp. cbv zeta in Hf, Hp. destruct_and?.
  repeat split; congruence.
Qed.

Lemma appended_payload md ix e p :
  ev_type e <> "speech" -> ev_payload e = Some p -> pl (appended md ix e) = json_norm <$> p.
Proof.
  intros Ht Hp. unfold appended. rewrite prepare_non_speech, pl_norm by done. unfold pl.
  pose proof (finish_event_fields e) as Hf. cbv zeta in Hf. destruct_and?.
  match goal with H : ev_payload (finish_event e) = _ |- _ => by rewrite H, Hp end.
Qed.

Lemma append_checks_ok ss name sd md e ix e' :
  append_checks ss name sd md e = Ok (ix, e') ->
  ReadLogIndex sd md = Ok ix /\ e' = finish_event (prepareEventForAppend md ix e) /\
  ev_event_id e ∉ ix_event_ids ix /\ envelope_issues md (prepareEventForAppend md ix e) = [] /\
  validateCommandIDNotUsedInOtherSession ss name md (ev_command_id e) = Ok tt /\
  time_json_ok (ev_created_at e) = true.
Proof.
  unfold append_checks. intros H. run_inv H. injection H as <- <-.
  pose proof (prepare_fields md a0 e) as Hp. cbv zeta in Hp. destruct_and?.
  pose proof (finish_event_fields (prepareEventForAppend md a0 e)) as Hf. cbv zeta in Hf. destruct_and?.
  unfold ValidateEnvelope in Hrun1.
  destruct (envelope_issues md (prepareEventForAppend md a0 e)) eqn:Hv; [|done].
  apply bool_decide_eq_false in Hguard. destruct a2.
  repeat split; try done; congruence.
Qed.

(** The encoded event is valid and new, so the log extended by it is readable. *)
Lemma append_checks_extend ss name sd md e ix e' :
  append_checks ss name sd md e = Ok (ix, e') ->
  ReadLogIndex (set_channel sd (mk_channel NRegular (lines_of sd ++ [LineEvent false (norm_event e')]) false)) md
  = Ok (index_add ix (norm_event e')).
Proof.
  intros H. apply append_checks_ok in H as (Hr & -> & Hid & Hv & _ & _).
  apply ReadLogIndex_extend; [done| |by apply envelope_issues_encoded].
  pose proof (appended_fields md ix e) as Hf. cbv zeta in Hf. destruct Hf as [Hf _].
  unfold appended in Hf. by rewrite Hf.
Qed.

(** AppendEvent either refuses, leaving the world as it was, or passes its
    checks and performs the file operations. *)
Lemma AppendEvent_cases name w e fault w' r :
  AppendEvent name w e fault = (w', r) ->
  (w' = w /\ is_ok r = false) \/
  exists sd ix sd' md',
    wd_sessions w !! name = Some sd /\
    append_checks (wd_sessions w) name sd (wd_md w) e =
      Ok (ix, finish_event (prepareEventForAppend (wd_md w) ix e)) /\
    append_io sd (wd_md w) ix (finish_event (prepareEventForAppend (wd_md w) ix e)) fault = (sd', md', r) /\
    w' = mk_world (<[name := sd']> (wd_sessions w)) md'.
Proof.
  unfold AppendEvent. intros H.
  destruct (wd_sessions w !! name) as [sd|] eqn:Hsd; [|injection H as <- <-; by left].
  destruct (append_checks (wd_sessions w) name sd (wd_md w) e) as [[ix e']|err] eqn:Hc;
    [|injection H as <- <-; by left].
  right. pose proof (append_checks_ok _ _ _ _ _ _ _ Hc) as (_ & -> & _).
  destruct (append_io _ _ _ _ _) as [[sd' md'] r'] eqn:Hio. injection H as <- <-.
  by exists sd, ix, sd', md'.
Qed.

Lemma append_io_same sd md ix e fault sd' md' r :
  append_io sd md ix e fault = (sd', md', r) -> same_session md' md.
Proof.
  destruct fault as [[]|]; simpl; intros [= <- <- <-]; try reflexivity; apply project_metadata_same.
Qed.

(** Every append keeps the identity of the session the world is about. *)
Lemma AppendEvent_same name w e fault w' r :
  AppendEvent name w e fault = (w', r) -> same_session (wd_md w') (wd_md w).
Proof.
  intros H. apply AppendEvent_cases in H as [[-> _]|(sd & ix & sd' & md' & _ & _ & Hio & ->)];
    [reflexivity|]. by eapply append_io_same.
Qed.

Lemma reads_same w name ix ss md :
  same_session md (wd_md w) -> ss !! name = wd_sessions w !! name ->
  reads w name ix -> reads (mk_world ss md) name ix.
Proof.
  intros Hs Hl (sd & Hsd & Hr). exists sd. simpl. rewrite Hl. split; [done|].
  by rewrite (ReadLogIndex_proper sd sd eq_refl _ _ Hs).
Qed.

Lemma reads_fun w name ix1 ix2 : reads w name ix1 -> reads w name ix2 -> ix1 = ix2.
Proof. intros (sd1 & H1 & R1) (sd2 & H2 & R2). congruence. Qed.

Lemma AppendEvent_ok name w e w' a :
  AppendEvent name w e None = (w', Ok a) ->
  exists ix, reads w name ix /\ reads w' name (index_add ix (appended (wd_md w) ix e)) /\
    wd_md w' = project_metadata (wd_md w) (finish_event (prepareEventForAppend (wd_md w) ix e)) /\
    a = mk_append_result (cursorFor (len_z (ix_events ix)) (ev_event_id e)) (len_z (ix_events ix)) (ev_event_id e) /\
    ev_event_id e ∉ ix_event_ids ix /\ envelope_issues (wd_md w) (appended (wd_md w) ix e) = [].
Proof.
  intros H. apply AppendEvent_cases in H as [[_ Hf]|(sd & ix & sd' & md' & Hsd & Hc & Hio & ->)]; [done|].
  exists ix. pose proof (append_checks_ok _ _ _ _ _ _ _ Hc) as (Hr & _ & Hid & Hv & _).
  pose proof (append_checks_extend _ _ _ _ _ _ _ Hc) as Hext.
  simpl in Hio. injection Hio as <- <- <-.
  assert (Hev : ev_event_id (finish_event (prepareEventForAppend (wd_md w) ix e)) = ev_event_id e)
    by apply (appended_fields (wd_md w) ix e).
  rewrite Hev. split; [by exists sd|]. split.
  - eexists. simpl. rewrite lookup_insert_eq. split; [done|].
    rewrite (ReadLogIndex_proper _ _ eq_refl _ _ (project_metadata_same _ _)).
    exact Hext.
  - repeat split; try done. by apply envelope_issues_encoded.
Qed.

(** ** The log is append-only *)

Lemma append_io_lines sd md ix e fault sd' md' r :
  append_io sd md ix e fault = (sd', md', r) ->
  exists tail, lines_of sd' = lines_of sd ++ tail /\ (length tail <= 1)%nat.
Proof.
  destruct fault as [[]|]; simpl; intros [= <- <- <-]; unfold lines_of; simpl;
    solve [ exists []; rewrite app_nil_r; split; [done | simpl; lia] | eexists; split; [done | simpl; lia] ].
Qed.

(** Under any single fault the lines already in the log stay where they are, at
    most one line is added, and no other session is touched. *)
Lemma AppendEvent_append_only name w e fault w' r :
  AppendEvent name w e fault = (w', r) ->
  forall n sd, wd_sessions w !! n = Some sd ->
    exists sd' tail, wd_sessions w' !! n = Some sd' /\ lines_of sd' = lines_of sd ++ tail /\
      (length tail <= 1)%nat /\ (n <> name -> sd' = sd).
Proof.
  intros H n sd0 Hn.
  assert (Hsame : exists sd' tail, wd_sessions w !! n = Some sd' /\ lines_of sd' = lines_of sd0 ++ tail /\
      (length tail <= 1)%nat /\ (n <> name -> sd' = sd0)).
  { exists sd0, []. rewrite app_nil_r. split; [done|]. split; [done|]. split; [simpl; lia | done]. }
  apply AppendEvent_cases in H as [[-> _]|(sd & ix & sd' & md' & Hsd & _ & Hio & ->)]; [done|].
  simpl. destruct (decide (n = name)) as [->|Hne].
  - apply append_io_lines in Hio as (tail & Hl & Hlen). simplify_eq. exists sd', tail.
    rewrite lookup_insert_eq. by repeat split.
  - by rewrite lookup_insert_ne by done.
Qed.

(** ** Crashes *)

(** A torn log: bytes follow its last newline. *)
Definition torn (w : world) (name : string) : Prop :=
  exists sd err, wd_sessions w !! name = Some sd /\ ReadLogIndex sd (wd_md w) = Err err.

Lemma append_io_fault sd md ix e f sd' md' r :
  ReadLogIndex sd md = Ok ix ->
  ReadLogIndex (set_channel sd (mk_channel NRegular (lines_of sd ++ [LineEvent false (norm_event e)]) false)) md
    = Ok (index_add ix (norm_event e)) ->
  append_io sd md ix e (Some f) = (sd', md', r) ->
  is_ok r = false /\
  (ReadLogIndex sd' md = Ok ix \/ ReadLogIndex sd' md = Ok (index_add ix (norm_event e)) \/
   f = FaultWrite true /\ exists err, ReadLogIndex sd' md = Err err).
Proof.
  intros Hr Hext.
  destruct f as [|[]| | | | |]; simpl; intros [= <- <- <-]; (split; [done|]); auto.
  - right. right. split; [done|]. unfold ReadLogIndex. simpl.
    replace (safeSessionDirForAppend (set_channel _ _)) with (safeSessionDirForAppend sd) by done.
    destruct (safeSessionDirForAppend sd); simpl; eauto.
  - left. revert Hr. unfold ReadLogIndex, lines_of.
    replace (safeSessionDirForAppend (set_channel _ _)) with (safeSessionDirForAppend sd) by done.
    intros H. run_inv H; subst; simpl; done.
Qed.

(** After a faulty append the log reads as before, reads as before plus the
    whole event, or (when the write itself was cut short) is refused by every
    later read: no reader ever sees part of an event. *)
Lemma AppendEvent_crash name w e f ix w' r :
  reads w name ix -> AppendEvent name w e (Some f) = (w', r) ->
  is_ok r = false /\
  (reads w' name ix \/ reads w' name (index_add ix (appended (wd_md w) ix e)) \/
   f = FaultWrite true /\ torn w' name).
Proof.
  intros Hix H. apply AppendEvent_cases in H as [[-> Hf]|(sd & ix' & sd' & md' & Hsd & Hc & Hio & ->)];
    [by auto|].
  assert (Hr : ReadLogIndex sd (wd_md w) = Ok ix') by apply (append_checks_ok _ _ _ _ _ _ _ Hc).
  assert (ix' = ix) as -> by (eapply reads_fun; [by exists sd | done]).
  pose proof (append_io_same _ _ _ _ _ _ _ _ Hio) as Hs.
  destruct (append_io_fault _ _ _ _ _ _ _ _ Hr (append_checks_extend _ _ _ _ _ _ _ Hc) Hio)
    as [Hbad Hcases].
  split; [done|]. unfold reads, torn. cbn [wd_sessions wd_md].
  setoid_rewrite lookup_insert_eq.
  setoid_rewrite (ReadLogIndex_proper _ _ eq_refl _ _ Hs).
  destruct Hcases as [?|[?|[? [err ?]]]]; [left | right; left | right; right]; eauto.
Qed.

(** ** Terminal metadata *)

Definition terminal_metadata (md : SessionMetadata) : bool :=
  (md_status md == StatusTerminal) || terminal_phase (st_phase (md_state md)).

Lemma project_metadata_terminal md e :
  terminal_metadata md = true ->
  md_status (project_metadata md e) = StatusTerminal /\
  st_phase (md_state (project_metadata md e)) = st_phase (md_state md).
Proof.
  intros H. unfold project_metadata, projectedMetadataPhaseStatus.
  unfold terminal_metadata, terminal_phase in H. by rewrite H.
Qed.

Lemma project_metadata_open md e :
  terminal_metadata md = false ->
  md_status (project_metadata md e) = statusFromPhase (ev_phase e) /\
  st_phase (md_state (project_metadata md e)) = ev_phase e.
Proof.
  intros H. unfold project_metadata, projectedMetadataPhaseStatus.
  unfold terminal_metadata, terminal_phase in H. by rewrite H.
Qed.

(** ** Idempotent commands *)

(** [e2] is the envelope a client's retry of [e1] builds: the clock has moved,
    everything the comparison looks at is the same. *)
Definition same_command (e1 e2 : EventEnvelope) : Prop :=
  ev_type e1 = ev_type e2 /\ ev_command_id e1 = ev_command_id e2 /\
  ev_causation_event_id e1 = ev_causation_event_id e2 /\ ev_session_id e1 = ev_session_id e2 /\
  ev_session_type e1 = ev_session_type e2 /\ ev_phase e1 = ev_phase e2 /\ ev_from e1 = ev_from e2 /\
  ev_to e1 = ev_to e2 /\ ev_payload e1 = ev_payload e2.

(** An envelope whose encoding compares equal to the envelope: recipients in
    order, no value that changes its JSON text when decoded. *)
Definition encodes_stably (e : EventEnvelope) : Prop :=
  sort_strings (ev_to e) = ev_to e /\
  forall k v, pl e !! k = Some v -> log_stable v.

Lemma payload_text_norm (p : option payload) :
  (forall k v, default ∅ p !! k = Some v -> log_stable v) ->
  payload_text ((fun q : payload => json_norm <$> q) <$> p) = payload_text p.
Proof.
  destruct p as [q|]; simpl; [|done]. intros H. by apply (json_text_norm (AMap q)), stable_map.
Qed.

Lemma delete_keys_fmap keys (p : payload) :
  delete_keys keys (json_norm <$> p) = json_norm <$> delete_keys keys p.
Proof. induction keys as [|k keys IH]; simpl; [done|]. by rewrite IH, fmap_delete. Qed.

Lemma delete_keys_lookup keys (p : payload) k v :
  delete_keys keys p !! k = Some v -> p !! k = Some v.
Proof.
  induction keys as [|k' keys IH]; simpl; [done|]. intros H. by apply lookup_delete_Some in H as [_ ?%IH].
Qed.

#[local] Arguments delete_keys : simpl never.

Lemma payload_normal_norm e :
  encodes_stably e ->
  payload_text (normalizedCommandPayload (norm_event e)) = payload_text (normalizedCommandPayload e).
Proof.
  intros [_ Hst]. unfold normalizedCommandPayload, pl in *. simpl.
  destruct (ev_payload e) as [p|]; simpl in *; [|done].
  destruct (ev_session_type e == SessionTypeCouncil).
  - rewrite delete_keys_fmap. apply (payload_text_norm (Some _)). simpl.
    intros k v Hk. apply delete_keys_lookup in Hk. eauto.
  - by apply (payload_text_norm (Some p)).
Qed.

(** The stored form of a command is equivalent to any retry of it. *)
Lemma commandEquivalent_retry e1 e2 :
  encodes_stably e1 -> same_command e1 e2 ->
  commandEquivalent (norm_event (finish_event e1)) e2 = true.
Proof.
  intros Hst Hsame. unfold commandEquivalent.
  assert (Hf : ev_type (finish_event e1) = ev_type e1 /\ ev_command_id (finish_event e1) = ev_command_id e1 /\
    ev_causation_event_id (finish_event e1) = ev_causation_event_id e1 /\
    ev_session_id (finish_event e1) = ev_session_id e1 /\ ev_session_type (finish_event e1) = ev_session_type e1 /\
    ev_phase (finish_event e1) = ev_phase e1 /\ ev_from (finish_event e1) = ev_from e1 /\
    ev_to (finish_event e1) = ev_to e1 /\ ev_payload (finish_event e1) = ev_payload e1).
  { destruct Hst as [Hto _]. unfold finish_event. cbv zeta.
    destruct (_ == _); simpl; by rewrite ?Hto. }
  assert (Hst' : encodes_stably (finish_event e1)).
  { destruct Hst as [Hto Hval]. unfold encodes_stably, pl in *. destruct_and?.
    split; [congruence|].
    by match goal with H : ev_payload _ = _ |- _ => rewrite H end. }
  rewrite (payload_normal_norm _ Hst').
  assert (Hn : normalizedCommandPayload (finish_event e1) = normalizedCommandPayload e2).
  { unfold normalizedCommandPayload, same_command in *. destruct_and?.
    repeat match goal with H : ?f (finish_event e1) = _ |- _ => rewrite H; clear H end.
    by repeat match goal with H : ?f e1 = ?f e2 |- _ => rewrite H; clear H end. }
  rewrite Hn. unfold same_command in Hsame. destruct_and?. simpl.
  repeat match goal with H : ?f (finish_event e1) = _ |- _ => rewrite H; clear H end.
  repeat match goal with H : ?f e1 = ?f e2 |- _ => rewrite H; clear H end.
  rewrite !String.eqb_refl. simpl. by rewrite bool_decide_eq_true_2 by done.
Qed.

Lemma find_from_at {A} (p : A -> bool) l x tail i :
  (forall y, y ∈ l -> p y = false) -> p x = true ->
  find_from p i (l ++ x :: tail) = Some ((i + length l)%nat, x).
Proof.
  revert i. induction l as [|a l IH]; intros i Hl Hx; simpl.
  - rewrite Hx. by rewrite Nat.add_0_r.
  - rewrite (Hl a) by set_solver. rewrite IH by set_solver. f_equal. f_equal. simpl. lia.
Qed.

(** A success that was not deduplicated appended the event, and no earlier
    event had its command id. *)
Lemma appendIdempotentEvent_new name w ix e fault w' a :
  appendIdempotentEvent name w ix e fault = (w', Ok (a, false)) ->
  AppendEvent name w (prepareEventForAppend (wd_md w) ix e) fault = (w', Ok a) /\
  (ev_command_id e = "" \/ forall x, x ∈ ix_events ix -> ev_command_id x <> ev_command_id e).
Proof.
  unfold appendIdempotentEvent.
  pose proof (prepare_fields (wd_md w) ix e) as (_ & _ & Hcmd & _). cbv zeta. rewrite Hcmd.
  destruct (ev_command_id e == "") eqn:Hc.
  - destruct (AppendEvent _ _ _ _) as [w1 [r|]]; [|done]. intros [= <- <-].
    bool_prop. auto.
  - unfold replay_command. rewrite Hcmd.
    destruct (find_from _ _ _) as [[off x]|] eqn:Hf.
    { destruct (commandEquivalent x _); done. }
    destruct (AppendEvent _ _ _ _) as [w1 [r|]]; [|done]. intros [= <- <-].
    split; [done|]. right. intros x Hx. rewrite find_from_none in Hf.
    apply String.eqb_neq. by apply Hf.
Qed.

(** A failed or deduplicated command without a fault leaves the world alone. *)
Lemma appendIdempotentEvent_unchanged name w ix e w' r :
  appendIdempotentEvent name w ix e None = (w', r) ->
  (forall a, r <> Ok (a, false)) -> w' = w.
Proof.
  unfold appendIdempotentEvent. destruct (if _ == _ then _ else _) as [q|].
  - by intros [= <- _] _.
  - destruct (AppendEvent _ _ _ _) as [w1 q] eqn:Ha. intros [= <- <-] Hr.
    apply AppendEvent_cases in Ha as [[-> _]|(sd & ix' & sd' & md' & _ & _ & Hio & _)]; [done|].
    simpl in Hio. injection Hio as _ _ <-. by destruct (Hr _ eq_refl).
Qed.

Lemma appendIdempotentEvent_same name w ix e f w' r :
  appendIdempotentEvent name w ix e f = (w', r) -> same_session (wd_md w') (wd_md w).
Proof.
  unfold appendIdempotentEvent. destruct (if _ == _ then _ else _) as [q|].
  - by intros [= <- _].
  - destruct (AppendEvent _ _ _ _) as [w1 q] eqn:Ha. intros [= <- <-].
    by eapply AppendEvent_same.
Qed.
