(* ===== verification/Fixtures.v ===== *)
(** * Concrete inputs

    A small data home with one delegation and one council session, on which the
    definitions are evaluated and the theorems instantiated. *)

From S2P Require Import Prelude GoValue GoTime Model Ids Evidence Events EventLog.

(** 2026-01-02T03:04:05Z and a later instant *)
Definition fx_now : time := 1767323045 * second.
Definition fx_later : time := fx_now + 60 * second.

Definition fx_snapshot : SnapshotMetadata := mk_snapshot "/registry.yaml" "00" fx_now 501 1.

Definition fx_council_md : SessionMetadata :=
  mk_metadata "sess_council" SessionTypeCouncil StatusOpen "Roadmap" "mod" ["mod"; "ann"; "bob"]
    None None None "" fx_now no_limits (mk_state PhaseCreated 0 "" 0) fx_snapshot.

Definition fx_deleg_md : SessionMetadata :=
  mk_metadata "sess_deleg" SessionTypeDelegation StatusOpen "Report" "mod" ["mod"; "ann"]
    None None None "" fx_now no_limits (mk_state PhaseCreated 0 "" 0) fx_snapshot.

Definition fx_created (md : SessionMetadata) : EventEnvelope :=
  mk_event 1 ("evt_session_created_" +:+ md_id md) ("cmd_new_" +:+ md_id md) "" (md_id md) (md_id md)
    (md_session_type md) None PhaseCreated "session_created" "atn-controld" (allParticipants md)
    fx_now None None
    (Some {[ "session_type" := AStr (md_session_type md); "title" := AStr (md_title md);
             "moderator" := AStr (md_moderator md); "participants" := AStrs (md_participants md) ]}).

(** An event of the session with the given command, type, phase, sender,
    recipients and payload. *)
Definition fx_event (md : SessionMetadata) (cmd ty : string) (phase : Phase) (from : string)
    (to : list string) (p : payload) : EventEnvelope :=
  mk_event 1 ("evt_" +:+ cmd) cmd "" (md_id md) (md_id md) (md_session_type md) None phase ty from to
    fx_now None None (Some p).

Definition fx_dir (md : SessionMetadata) (log : list EventEnvelope) : session_dir :=
  mk_session_dir ("/home/sessions/" +:+ md_id md) false true
    (Some (mk_channel NRegular (map (LineEvent false) log) false)) (Some md).

Definition fx_index (log : list EventEnvelope) : LogIndex := foldl index_add empty_index log.

(** Both sessions on disk with the given logs; the council is the current one. *)
Definition fx_world (md : SessionMetadata) (council deleg : list EventEnvelope) : world :=
  mk_world {[ "sess_council" := fx_dir fx_council_md council;
              "sess_deleg" := fx_dir fx_deleg_md deleg ]} md.

Definition fx_log (md : SessionMetadata) : list EventEnvelope := [norm_event (fx_created md)].

Definition fx_w0 : world := fx_world fx_council_md (fx_log fx_council_md) (fx_log fx_deleg_md).
Definition fx_ix0 : LogIndex := fx_index (fx_log fx_council_md).

(** A command of the council session. *)
Definition fx_cmd : EventEnvelope :=
  fx_event fx_council_md "cmd_1" "agenda_locked" "preparation" "mod" ["ann"; "bob"]
    {[ "agenda" := AStr "plan"; "rounds" := AInt 2 ]}.

(** The same event without a command, and one that closes the session. *)
Definition fx_close : EventEnvelope :=
  fx_event fx_council_md "cmd_2" "council_cancelled" "cancelled" "mod" ["ann"; "bob"] ∅.

Definition fx_w1 : world := fst (AppendEvent "sess_council" fx_w0 fx_cmd None).

Example fx_reads : ReadLogIndex (fx_dir fx_council_md (fx_log fx_council_md)) fx_council_md = Ok fx_ix0.
Proof. vm_compute. reflexivity. Qed.

Lemma fx_reads0 : reads fx_w0 "sess_council" fx_ix0.
Proof. exists (fx_dir fx_council_md (fx_log fx_council_md)). split; vm_compute; reflexivity. Qed.

Example fx_append_ok :
  snd (AppendEvent "sess_council" fx_w0 fx_cmd None) =
  Ok (mk_append_result "cur_000000000001_evt_cmd_1" 1 "evt_cmd_1").
Proof. vm_compute. reflexivity. Qed.

(** A delegation that has been assigned to [ann]. *)
Definition fx_assigned : EventEnvelope :=
  fx_event fx_deleg_md "cmd_new_sess_deleg_task" "task_assigned" "assigned" "mod" ["ann"]
    {[ "task" := AStr "write the report" ]}.

Definition fx_deleg_log : list EventEnvelope := fx_log fx_deleg_md ++ [norm_event fx_assigned].
Definition fx_dw0 : world := fx_world fx_deleg_md (fx_log fx_council_md) fx_deleg_log.
Definition fx_dix0 : LogIndex := fx_index fx_deleg_log.

Lemma fx_dreads0 : reads fx_dw0 "sess_deleg" fx_dix0.
Proof. exists (fx_dir fx_deleg_md fx_deleg_log). split; vm_compute; reflexivity. Qed.
