(* ===== verification/LogSpec.v ===== *)
(** * The contract of the event log

    An executable specification of the append-only log (a list of events, or
    corrupt), the theorem that AppendEvent under arbitrary faults computes it, and
    the guarantees clients build on: read-your-writes, append-only growth, crash
    atomicity, commands that take effect at most once. *)

From S2P Require Import Prelude GoValue GoTime Model Ids Evidence Events EventLog Fixtures.

(** ** The specification *)

Inductive log_state :=
| Readable (log : list EventEnvelope)
| Corrupt.

(** An append that is offered to the log: an event, and what the operating system
    does to it. *)
Abbreviation append_call := (EventEnvelope * option append_fault)%type.

Definition log_index (log : list EventEnvelope) : LogIndex := mk_index log (list_to_set (map ev_event_id log)).

(** Where a fault leaves the line of an event. *)
Inductive line_fate := LineKept | LineLost | LineTorn.

Definition fate (f : append_fault) : line_fate :=
  match f with
  | FaultOpen | FaultWrite false => LineLost
  | FaultWrite true => LineTorn
  | _ => LineKept
  end.

Definition no_issues (l : list Issue) : bool :=
  match l with
  | [] => true
  | _ => false
  end.

Section spec.
(** The session, and the command ids that no other session uses. *)
Context (md : SessionMetadata) (free : string -> bool).

(** The event may stand behind the log. *)
Definition admits (log : list EventEnvelope) (e : EventEnvelope) : bool :=
  negb (bool_decide (ev_event_id e ∈ map ev_event_id log)) &&
  no_issues (envelope_issues md (prepareEventForAppend md (log_index log) e)) &&
  free (ev_command_id e) && time_json_ok (ev_created_at e).

(** The specified log: an event that it admits is added whole, not at all or torn,
    as the fault says, and its caller gets the position, or nothing if there was
    a fault; any other event changes nothing; and a log that is corrupt stays so. *)
Definition spec_append (s : log_state) (c : append_call) : log_state * option AppendResult :=
  match s with
  | Corrupt => (Corrupt, None)
  | Readable log =>
      let added := Readable (log ++ [appended md (log_index log) c.1]) in
      if admits log c.1 then
        match c.2 with
        | None => (added, Some (mk_append_result (cursorFor (len_z log) (ev_event_id c.1)) (len_z log) (ev_event_id c.1)))
        | Some f =>
            (match fate f with
             | LineKept => added
             | LineLost => s
             | LineTorn => Corrupt
             end, None)
        end
      else (s, None)
  end.

Fixpoint spec_run (s : log_state) (calls : list append_call) : log_state * list (option AppendResult) :=
  match calls with
  | [] => (s, [])
  | c :: rest =>
      let '(s1, r) := spec_append s c in
      let '(s2, rs) := spec_run s1 rest in
      (s2, r :: rs)
  end.
End spec.

(** The abstraction: what a reader of the session sees. *)
Definition abstracts (w : world) (name : string) (s : log_state) : Prop :=
  match s with
  | Readable log => exists ix, reads w name ix /\ ix_events ix = log
  | Corrupt => torn w name
  end.

(** ** Runs of appends to one session, each under any fault or none *)
Definition success {E A} (r : result E A) : option A :=
  match r with
  | Ok a => Some a
  | Err _ => None
  end.

Fixpoint append_run (name : string) (w : world) (calls : list append_call) : world * list (option AppendResult) :=
  match calls with
  | [] => (w, [])
  | c :: rest =>
      let '(w1, r) := AppendEvent name w c.1 c.2 in
      let '(w2, rs) := append_run name w1 rest in
      (w2, success r :: rs)
  end.

Definition command_free (w : world) (name commandID : string) : bool :=
  is_ok (validateCommandIDNotUsedInOtherSession (wd_sessions w) name (wd_md w) commandID).

Inductive append_step (name : string) (w w' : world) : Prop :=
| do_append e fault r : AppendEvent name w e fault = (w', r) -> append_step name w w'.

Lemma reads_index_ok w name ix : reads w name ix -> index_ok ix.
Proof. intros (sd & _ & H). apply (ReadLogIndex_ok _ _ _ H). Qed.

Lemma index_ids ix e : index_ok ix -> ev_event_id e ∉ ix_event_ids ix -> ev_event_id e ∉ map ev_event_id (ix_events ix).
Proof. intros [_ ->] H. by rewrite elem_of_list_to_set in H. Qed.

Lemma torn_refuses name w e fault w' r :
  torn w name -> AppendEvent name w e fault = (w', r) -> w' = w.
Proof.
  intros (sd & err & Hsd & Hr) H.
  apply AppendEvent_cases in H as [[-> _]|(sd' & ix & sd'' & md' & Hsd' & Hc & _)]; [done|].
  apply append_checks_ok in Hc as (Hok & _). congruence.
Qed.

(** The cases of an append to a readable log, fault or not. *)
Lemma append_outcomes name w ix e fault w' r :
  reads w name ix -> AppendEvent name w e fault = (w', r) ->
  reads w' name ix \/
  (reads w' name (index_add ix (appended (wd_md w) ix e)) /\
   ev_event_id e ∉ ix_event_ids ix /\ envelope_issues (wd_md w) (appended (wd_md w) ix e) = []) \/
  torn w' name.
Proof.
  intros Hix H.
  pose proof (AppendEvent_cases _ _ _ _ _ _ H) as [[-> _]|(sd & ix' & sd' & md' & Hsd & Hc & _ & _)];
    [by left|].
  pose proof (append_checks_ok _ _ _ _ _ _ _ Hc) as (Hr & _ & Hid & Hv & _).
  assert (ix' = ix) as -> by (eapply reads_fun; [by exists sd | done]).
  apply envelope_issues_encoded in Hv.
  destruct fault as [f|].
  - destruct (AppendEvent_crash _ _ _ _ _ _ _ Hix H) as [_ [?|[?|[_ ?]]]]; auto.
  - destruct r as [a|err].
    + apply AppendEvent_ok in H as (ix' & Hix' & Hnew & _).
      rewrite (reads_fun _ _ _ _ Hix' Hix) in *. auto.
    + apply AppendEvent_cases in H as [[-> _]|(sd1 & ix1 & sd2 & md2 & _ & _ & Hio & _)]; [by left|].
      done.
Qed.

Lemma envelope_issues_same a b e : same_session a b -> envelope_issues a e = envelope_issues b e.
Proof. intros H. by apply envelope_issues_proper. Qed.

(** *** The checks of an append are those of the specification *)

#[global] Instance prepareEventForAppend_proper : Proper (same_session ==> eq ==> eq ==> eq) prepareEventForAppend.
Proof. intros a b H ix ? <- e ? <-. unfold prepareEventForAppend. by open_session H. Qed.

Lemma log_index_of ix : index_ok ix -> ix = log_index (ix_events ix).
Proof. destruct ix as [l ids]. intros [_ H]. cbn in H. by subst. Qed.

Lemma reads_log w name log : (exists ix, reads w name ix /\ ix_events ix = log) <-> reads w name (log_index log).
Proof.
  split; [|intros H; by exists (log_index log)]. intros (ix & Hix & <-). by rewrite <- (log_index_of ix) by (by eapply reads_index_ok).
Qed.

(** An entry that a scan of the sessions directory passes. *)
Definition entry_ok (p : string * session_dir) : Prop :=
  has_prefix p.1 "." = true \/ ValidateSessionID p.1 = Ok tt /\ sd_symlink p.2 = false /\ sd_is_dir p.2 = true.

Lemma safe_entries_spec l :
  is_ok (safe_entries l) = true <-> Forall entry_ok l.
Proof.
  induction l as [|[n sd] l IH]; [by split|]. rewrite Forall_cons, <- IH. unfold entry_ok. cbn [safe_entries fst snd].
  destruct (has_prefix n "."); [naive_solver|]. destruct (ValidateSessionID n) as [[]|]; [|naive_solver].
  destruct (sd_symlink sd), (sd_is_dir sd); cbn [orb negb]; [naive_solver..| |naive_solver].
  destruct (safe_entries l); cbn; naive_solver.
Qed.

Lemma safe_entries_elem l r p :
  safe_entries l = Ok r -> p ∈ r <-> p ∈ l /\ has_prefix p.1 "." = false.
Proof.
  revert r. induction l as [|[n sd] l IH]; intros r; cbn [safe_entries]; [intros [= <-]; set_solver|].
  destruct (has_prefix n ".") eqn:Hp.
  - intros H. rewrite (IH _ H), elem_of_cons. split; [naive_solver|]. intros [[->|] ?]; [cbn in *; congruence|done].
  - destruct (ValidateSessionID n); [|done]. destruct (_ || _); [done|]. destruct (safe_entries l) as [r0|]; [|done].
    intros [= <-]. rewrite !elem_of_cons, (IH _ eq_refl). naive_solver.
Qed.

(** A session that does not use the command. *)
Definition silent_about (commandID : string) (sd : session_dir) : Prop :=
  exists md ix, LoadSessionYAML sd = Ok md /\ ReadLogIndex sd md = Ok ix /\ uses_command ix commandID = false.

Lemma silent_about_spec c sd :
  silent_about c sd <-> is_ok (try md := LoadSessionYAML sd in try ix := ReadLogIndex sd md in
                               reject uses_command ix c with NewValidationError "" "" "";; Ok tt) = true.
Proof.
  unfold silent_about. split.
  - intros (md & ix & -> & Hr & Hu). cbn [mbind result_bind]. rewrite Hr. cbn [mbind result_bind]. by rewrite Hu.
  - destruct (LoadSessionYAML sd) as [md|]; cbn [mbind result_bind]; [|done].
    destruct (ReadLogIndex sd md) as [ix|] eqn:Hr; cbn [mbind result_bind]; [|done]. destruct (uses_command ix c) eqn:Hu; [done|]. eauto.
Qed.

Lemma command_unused_spec md self c l :
  is_ok (command_unused md self c l) = true <-> Forall (fun p => p.1 = md_id md \/ p.1 = self \/ silent_about c p.2) l.
Proof.
  induction l as [|[n sd] l IH]; [by split|]. rewrite Forall_cons, <- IH, silent_about_spec. cbn [command_unused fst snd].
  destruct (String.eqb_spec n (md_id md)) as [Hm|Hm]; cbn [orb]; [split; [by auto|by intros [_ ?]]|].
  destruct (String.eqb_spec n self) as [Hn|Hn]; [split; [by auto|by intros [_ ?]]|].
  destruct (LoadSessionYAML sd) as [md'|]; cbn [mbind result_bind]; [|split; [done|by intros [[|[|]] _]]].
  destruct (ReadLogIndex sd md') as [ix|]; cbn [mbind result_bind]; [|split; [done|by intros [[|[|]] _]]].
  destruct (uses_command ix c); [split; [done|by intros [[|[|]] _]]|]. split; [by auto|by intros [_ ?]].
Qed.

Lemma command_free_spec w name c :
  command_free w name c = true <->
  trim_space c = "" \/ forall n sd, wd_sessions w !! n = Some sd ->
    entry_ok (n, sd) /\ (has_prefix n "." = true \/ n = md_id (wd_md w) \/ n = name \/ silent_about (trim_space c) sd).
Proof.
  unfold command_free, validateCommandIDNotUsedInOtherSession. destruct (String.eqb_spec (trim_space c) "") as [->|Hne]; [naive_solver|].
  transitivity (Forall entry_ok (sorted_entries (wd_sessions w)) /\
    forall p, p ∈ sorted_entries (wd_sessions w) -> has_prefix p.1 "." = false ->
      p.1 = md_id (wd_md w) \/ p.1 = name \/ silent_about (trim_space c) p.2).
  - rewrite <- safe_entries_spec. unfold safeSessionEntries.
    destruct (safe_entries (sorted_entries (wd_sessions w))) as [r|] eqn:Hr; cbn [mbind result_bind]; [|naive_solver].
    rewrite command_unused_spec, Forall_forall. split.
    + intros H. split; [done|]. intros p Hp Hd. apply H. by apply (safe_entries_elem _ _ _ Hr).
    + intros [_ H] p [Hp Hd]%(safe_entries_elem _ _ _ Hr). by apply H.
  - rewrite Forall_forall. split.
    + intros [Ho Hs]. right. intros n sd Hn%sorted_entries_elem. split; [by apply Ho|].
      destruct (has_prefix n ".") eqn:Hp; [by left|]. right. by apply (Hs (n, sd)).
    + intros [|H]; [done|]. split; [|intros [n sd] Hp%sorted_entries_elem Hd; destruct (H _ _ Hp) as [_ [|]]; cbn in *; [congruence|done]].
      intros [n sd] Hp%sorted_entries_elem. by apply H.
Qed.

(** What is free does not change while the session is appended to. *)
Lemma AppendEvent_free name w e f w' r c :
  AppendEvent name w e f = (w', r) -> command_free w' name c = command_free w name c.
Proof.
  intros H. pose proof (AppendEvent_same _ _ _ _ _ _ H) as Hid. destruct Hid as [Hid _].
  apply AppendEvent_cases in H as [[-> _]|(sd & ix & sd' & md' & Hsd & _ & Hio & ->)]; [done|].
  assert (Hdir : sd_symlink sd' = sd_symlink sd /\ sd_is_dir sd' = sd_is_dir sd)
    by (destruct f as [[]|]; simpl in Hio; by injection Hio as <- _ _).
  apply eq_true_iff_eq. rewrite !command_free_spec. cbn [wd_sessions wd_md] in *. rewrite Hid. apply or_iff_compat_l. split.
  - intros Hall n sd0 Hn. destruct (decide (n = name)) as [->|Hne].
    + rewrite Hsd in Hn. injection Hn as <-. destruct (Hall name sd') as [Ho _]; [by rewrite lookup_insert_eq|].
      unfold entry_ok in *. cbn [fst snd] in *. destruct Hdir as [<- <-]. auto.
    + apply Hall. by rewrite lookup_insert_ne.
  - intros Hall n sd0. destruct (decide (n = name)) as [->|Hne].
    + rewrite lookup_insert_eq. intros [= <-]. destruct (Hall _ _ Hsd) as [Ho _].
      unfold entry_ok in *. cbn [fst snd] in *. destruct Hdir as [-> ->]. auto.
    + rewrite lookup_insert_ne by done. apply Hall.
Qed.

Lemma append_checks_admits w name sd ix e :
  wd_sessions w !! name = Some sd -> ReadLogIndex sd (wd_md w) = Ok ix ->
  is_ok (append_checks (wd_sessions w) name sd (wd_md w) e) = admits (wd_md w) (command_free w name) (ix_events ix) e.
Proof.
  intros Hsd Hr. pose proof (reads_index_ok w name ix (ex_intro _ sd (conj Hsd Hr))) as Hok.
  unfold append_checks, admits. rewrite <- (log_index_of _ Hok). destruct Hok as [_ Hids].
  destruct (prepare_fields (wd_md w) ix e) as (_ & Hid & Hc & _ & _ & _ & _ & _ & _ & _ & _ & _ & Ht & _).
  assert (Hch : safeSessionDirForAppend sd = Ok tt /\ ensureChannelFileSafe sd = Ok tt).
  { revert Hr. unfold ReadLogIndex, ensureChannelFileSafe. destruct (safeSessionDirForAppend sd) as [[]|]; [|done]. cbn [mbind result_bind].
    destruct (sd_channel sd) as [ch|]; [|done]. by destruct (ch_kind ch). }
  destruct Hch as [-> Hch]. rewrite Hr. cbn [mbind result_bind]. cbv zeta. rewrite Hid, Hids.
  rewrite (bool_decide_ext _ (ev_event_id e ∈ map ev_event_id (ix_events ix))) by apply elem_of_list_to_set.
  destruct (bool_decide _); [done|]. cbn [negb andb]. unfold ValidateEnvelope.
  destruct (envelope_issues _ _); [|done]. cbn [mbind result_bind no_issues]. rewrite Hc. unfold command_free.
  destruct (validateCommandIDNotUsedInOtherSession _ _ _ _) as [[]|]; [|done]. cbn [mbind result_bind is_ok andb].
  pose proof (finish_event_fields (prepareEventForAppend (wd_md w) ix e)) as Hf. cbv zeta in Hf. destruct_and?.
  match goal with H : ev_created_at (finish_event _) = _ |- _ => rewrite H, Ht end.
  destruct (time_json_ok _); [|done]. by rewrite Hch.
Qed.

(** *** One append *)

Lemma append_io_fate sd md ix e f sd' md' r :
  ReadLogIndex sd md = Ok ix ->
  ReadLogIndex (set_channel sd (mk_channel NRegular (lines_of sd ++ [LineEvent false (norm_event e)]) false)) md
    = Ok (index_add ix (norm_event e)) ->
  append_io sd md ix e (Some f) = (sd', md', r) ->
  success r = None /\
  match fate f with
  | LineKept => ReadLogIndex sd' md = Ok (index_add ix (norm_event e))
  | LineLost => ReadLogIndex sd' md = Ok ix
  | LineTorn => exists err, ReadLogIndex sd' md = Err err
  end.
Proof.
  intros Hr Hext Hio. destruct (append_io_fault _ _ _ _ _ _ _ _ Hr Hext Hio) as [Hbad Hcases].
  split; [by destruct r|]. destruct f as [|[]| | | | |]; simpl in Hio |- *; injection Hio as <- <- <-; try done.
  - destruct Hcases as [H|[H|[_ H]]]; [..|done]; exfalso; revert H; unfold ReadLogIndex; cbn;
      destruct (safeSessionDirForAppend _); cbn; done.
  - revert Hr. unfold ReadLogIndex, lines_of.
    replace (safeSessionDirForAppend (set_channel _ _)) with (safeSessionDirForAppend sd) by done.
    intros H. run_inv H; subst; simpl; done.
Qed.

(** One append does what the specification says. *)
Lemma append_refines name w e f w' r s :
  AppendEvent name w e f = (w', r) -> abstracts w name s ->
  let '(s', o) := spec_append (wd_md w) (command_free w name) s (e, f) in abstracts w' name s' /\ success r = o.
Proof.
  intros H Hs. destruct s as [log|]; cbn [spec_append fst snd].
  2: { assert (Hr : is_ok r = false).
       { pose proof (AppendEvent_cases _ _ _ _ _ _ H) as [[_ Hr]|(sd & ix & sd' & md' & Hsd & Hc & _)]; [done|].
         destruct Hs as (sd0 & err & Hsd0 & Hr). apply append_checks_ok in Hc as (Hok & _). congruence. }
       split; [by rewrite (torn_refuses _ _ _ _ _ _ Hs H)|by destruct r]. }
  destruct Hs as (ix & (sd & Hsd & Hix) & <-). rewrite <- (append_checks_admits _ _ _ _ e Hsd Hix).
  rewrite <- (log_index_of ix) by (eapply reads_index_ok; by exists sd). revert H. unfold AppendEvent. rewrite Hsd.
  destruct (append_checks _ _ _ _ _) as [[ix' e']|err] eqn:Hc; cbn [is_ok].
  2: { intros [= <- <-]. split; [|done]. exists ix. split; [by exists sd|done]. }
  pose proof (append_checks_ok _ _ _ _ _ _ _ Hc) as (Hix' & He & _). rewrite Hix in Hix'. injection Hix' as <-.
  pose proof (append_checks_extend _ _ _ _ _ _ _ Hc) as Hext.
  destruct (append_io _ _ _ _ _) as [[sd' md'] r'] eqn:Hio. intros [= <- <-].
  pose proof (append_io_same _ _ _ _ _ _ _ _ Hio) as Hmd. change (appended (wd_md w) ix e) with (norm_event (finish_event (prepareEventForAppend (wd_md w) ix e))).
  rewrite <- He. unfold abstracts, torn. cbn [wd_sessions wd_md].
  assert (Hread : forall ix1, ReadLogIndex sd' (wd_md w) = Ok ix1 -> reads (mk_world (<[name:=sd']> (wd_sessions w)) md') name ix1).
  { intros ix1 Hread. exists sd'. cbn [wd_sessions wd_md]. by rewrite lookup_insert_eq, (ReadLogIndex_proper _ _ eq_refl _ _ Hmd). }
  destruct f as [f|].
  - destruct (append_io_fate _ _ _ _ _ _ _ _ Hix Hext Hio) as [-> Hf]. split; [|done]. destruct (fate f).
    + eexists. split; [by apply Hread|done].
    + exists ix. split; [by apply Hread|done].
    + destruct Hf as [err Hf]. exists sd', err. by rewrite lookup_insert_eq, (ReadLogIndex_proper _ _ eq_refl _ _ Hmd).
  - cbn in Hio. injection Hio as <- <- <-. split; [eexists; split; [apply Hread, Hext|done]|].
    assert (Hid : ev_event_id e' = ev_event_id e) by (rewrite He; apply (appended_fields (wd_md w) ix e)). by rewrite Hid.
Qed.

Lemma spec_append_same a b free free' s c :
  same_session a b -> (forall x, free x = free' x) -> spec_append a free s c = spec_append b free' s c.
Proof.
  intros H Hf. destruct s as [log|]; [|done]. unfold spec_append, admits, appended.
  by rewrite (prepareEventForAppend_proper a b H _ _ eq_refl _ _ eq_refl), (envelope_issues_proper a b H _ _ eq_refl), Hf.
Qed.

Lemma spec_run_same a b free free' s calls :
  same_session a b -> (forall x, free x = free' x) -> spec_run a free s calls = spec_run b free' s calls.
Proof.
  intros H Hf. revert s. induction calls as [|c calls IH]; intros s; [done|]. cbn [spec_run].
  rewrite (spec_append_same a b free free') by done. destruct (spec_append _ _ _ _). by rewrite IH.
Qed.

Lemma append_step_same name w w' : append_step name w w' -> same_session (wd_md w') (wd_md w).
Proof. intros [e f r H]. by eapply AppendEvent_same. Qed.

Lemma append_steps_same name w w' : rtc (append_step name) w w' -> same_session (wd_md w') (wd_md w).
Proof.
  induction 1 as [|w1 w2 w3 H _ IH]; [done|]. rewrite IH. by eapply append_step_same.
Qed.

(** C1. AppendEvent implements the specified log.  For every run of appends to a
    session, whatever events are offered and whatever I/O faults occur, what a
    reader sees afterwards and what every caller was told are what the
    specification computes: an event that is new to the log, valid in its session
    and of a command that no other session uses is added whole at the end, and its
    caller gets its position; a fault leaves it whole, not there, or torn, by its
    kind alone, and its caller gets an error; every other event is refused and
    changes nothing; and nothing is added to a torn log. *)
Theorem append_run_refines_log name w calls s :
  abstracts w name s ->
  let run := append_run name w calls in
  let spec := spec_run (wd_md w) (command_free w name) s calls in
  abstracts run.1 name spec.1 /\ run.2 = spec.2.
Proof.
  revert w s. induction calls as [|[e f] calls IH]; intros w s Hs; [by split|]. cbn [append_run spec_run fst snd].
  destruct (AppendEvent name w e f) as [w1 r] eqn:H. pose proof (append_refines _ _ _ _ _ _ _ H Hs) as Hstep.
  destruct (spec_append _ _ s (e, f)) as [s1 o]. destruct Hstep as [Hs1 <-]. specialize (IH w1 s1 Hs1). cbv zeta in IH.
  rewrite (spec_run_same (wd_md w1) (wd_md w) (command_free w1 name) (command_free w name)) in IH;
    [|by eapply AppendEvent_same|intros x; by eapply AppendEvent_free].
  destruct (append_run name w1 calls), (spec_run _ _ s1 calls). destruct IH as [? ?]. cbn [fst snd] in *. by subst.
Qed.

(** Read your writes: after a successful append the log reads back as what
    it was, plus exactly the event as encoded, and the returned cursor names
    the event's position and parses back to it. *)
Theorem append_read_back name w e w' a :
  AppendEvent name w e None = (w', Ok a) ->
  exists ix, reads w name ix /\
    reads w' name (index_add ix (appended (wd_md w) ix e)) /\
    nth_z (ix_events ix ++ [appended (wd_md w) ix e]) (ar_offset a) = Some (appended (wd_md w) ix e) /\
    ar_event_id a = ev_event_id e /\ ar_cursor a = cursorFor (ar_offset a) (ar_event_id a).
Proof.
  intros H. apply AppendEvent_ok in H as (ix & Hr & Hr' & _ & -> & _). exists ix.
  split; [done|]. split; [done|]. split; [|done]. apply nth_z_lookup. simpl. unfold len_z.
  split; [lia|]. by rewrite Nat2Z.id, lookup_app_r, Nat.sub_diag by lia.
Qed.

(** The log is append-only under faults: whatever fault interrupts an
    append, the lines already on disk stay in place, at most one line is
    added, and every other session directory is untouched. *)
Theorem append_only_under_faults name w e fault w' r :
  AppendEvent name w e fault = (w', r) ->
  forall n sd, wd_sessions w !! n = Some sd ->
    exists sd' tail, wd_sessions w' !! n = Some sd' /\ lines_of sd' = lines_of sd ++ tail /\
      (length tail <= 1)%nat /\ (n <> name -> sd' = sd).
Proof. apply AppendEvent_append_only. Qed.

(** C2. Crash atomicity: an append interrupted by a fault reports an error, and
    afterwards the log reads either as before or as before plus the whole
    event; only a write cut short makes it unreadable, in which case every
    later append is refused without touching the disk. *)
Theorem append_crash_atomic name w e f ix w' r :
  reads w name ix -> AppendEvent name w e (Some f) = (w', r) ->
  is_ok r = false /\
  (reads w' name ix \/ reads w' name (index_add ix (appended (wd_md w) ix e)) \/
   f = FaultWrite true /\ forall e2 f2, fst (AppendEvent name w' e2 f2) = w').
Proof.
  intros Hix H. destruct (AppendEvent_crash _ _ _ _ _ _ _ Hix H) as [Hbad [?|[?|[Hf Ht]]]]; auto.
  split; [done|]. right. right. split; [done|]. intros e2 f2.
  destruct (AppendEvent name w' e2 f2) as [w2 r2] eqn:H2. simpl. by eapply torn_refuses.
Qed.

(** Terminal is final in the projection: once the metadata says terminal,
    no run of appends, whatever phases the events carry, changes the projected
    phase or makes the status anything else. *)
Theorem terminal_metadata_sticky name w w' :
  rtc (append_step name) w w' -> terminal_metadata (wd_md w) = true ->
  terminal_metadata (wd_md w') = true /\
  st_phase (md_state (wd_md w')) = st_phase (md_state (wd_md w)).
Proof.
  induction 1 as [w|w1 w2 w3 [e f r H] _ IH]; intros Ht; [done|].
  assert (Hstep : terminal_metadata (wd_md w2) = true /\
                  st_phase (md_state (wd_md w2)) = st_phase (md_state (wd_md w1))).
  { apply AppendEvent_cases in H as [[-> _]|(sd & ix & sd' & md' & _ & _ & Hio & ->)]; [done|].
    assert (Hp : forall e', terminal_metadata (project_metadata (wd_md w1) e') = true /\
              st_phase (md_state (project_metadata (wd_md w1) e')) = st_phase (md_state (wd_md w1))).
    { intros e'. destruct (project_metadata_terminal _ e' Ht) as [Hs Hph].
      split; [|done]. unfold terminal_metadata. by rewrite Hs. }
    destruct f as [[]|]; simpl in Hio; injection Hio as <- <- <-; simpl; auto. }
  destruct Hstep as [Ht2 Hp2]. destruct (IH Ht2) as [? Hp3]. split; [done | congruence].
Qed.

(** ** Commands *)

Lemma replay_found ix e offset tail l x :
  ix_events ix = l ++ x :: tail -> offset = length l ->
  (forall y, y ∈ l -> ev_command_id y <> ev_command_id e) -> ev_command_id x = ev_command_id e ->
  replay_command ix e =
  Some (if commandEquivalent x e then Ok (existing_result offset x) else Err command_conflict).
Proof.
  intros Hix -> Hl Hx. unfold replay_command. rewrite Hix, find_from_at; [done| |].
  - intros y Hy. apply String.eqb_neq. by apply Hl.
  - by apply String.eqb_eq.
Qed.

(** A command whose event is in the log, first at [length l], is answered from
    the log without touching the world. *)
Lemma retry_answered name w ix l e1 tail e2 f :
  ev_command_id e2 <> "" -> ev_type e2 <> "speech" ->
  ix_events ix = l ++ norm_event (finish_event e1) :: tail ->
  (forall y, y ∈ l -> ev_command_id y <> ev_command_id e2) ->
  encodes_stably e1 -> same_command e1 e2 ->
  appendIdempotentEvent name w ix e2 f =
  (w, Ok (mk_append_result (cursorFor (len_z l) (ev_event_id e1)) (len_z l) (ev_event_id e1), true)).
Proof.
  intros Hcmd Hty Hix Hl Hst Hsame. unfold appendIdempotentEvent.
  rewrite prepare_non_speech by done. cbv zeta. apply String.eqb_neq in Hcmd as ->.
  pose proof (finish_event_fields e1) as (Hid & Hc & _).
  assert (Hx : ev_command_id (norm_event (finish_event e1)) = ev_command_id e2).
  { cbn [norm_event ev_command_id]. rewrite Hc. apply Hsame. }
  rewrite (replay_found ix e2 (length l) tail l _ Hix eq_refl Hl Hx).
  rewrite commandEquivalent_retry by done. simpl. unfold existing_result, len_z.
  cbn [norm_event ev_event_id]. by rewrite Hid.
Qed.

(** A success that was not deduplicated is a new, whole event of a new command. *)
Lemma appendIdempotentEvent_ok name w ix e f w1 a :
  reads w name ix -> appendIdempotentEvent name w ix e f = (w1, Ok (a, false)) ->
  reads w1 name (index_add ix (appended (wd_md w) ix e)) /\
  a = mk_append_result (cursorFor (len_z (ix_events ix)) (ev_event_id e)) (len_z (ix_events ix)) (ev_event_id e) /\
  (ev_command_id e = "" \/ forall x, x ∈ ix_events ix -> ev_command_id x <> ev_command_id e).
Proof.
  intros Hix H. apply appendIdempotentEvent_new in H as [Ha Hnew].
  pose proof (prepare_fields (wd_md w) ix e) as (_ & Hid & _). cbv zeta in Hid.
  destruct f as [f|].
  - by destruct (AppendEvent_crash _ _ _ _ _ _ _ Hix Ha) as [Hbad _].
  - apply AppendEvent_ok in Ha as (ix' & Hix' & Hr & _ & -> & _).
    rewrite (reads_fun _ _ _ _ Hix' Hix) in *. unfold appended in *. rewrite prepare_idemp in Hr.
    by rewrite Hid.
Qed.

(** Whatever uses the id of a command in the log again changes nothing. *)
Lemma retry_unchanged name w ix x e f :
  ev_command_id e <> "" -> x ∈ ix_events ix -> ev_command_id x = ev_command_id e -> (appendIdempotentEvent name w ix e f).1 = w.
Proof.
  intros Hc Hx Hid. unfold appendIdempotentEvent. destruct (prepare_fields (wd_md w) ix e) as (_ & _ & Hcmd & _). cbv zeta in *.
  rewrite Hcmd. apply String.eqb_neq in Hc as ->. unfold replay_command. rewrite Hcmd.
  destruct (find_from _ _ _) as [[off y]|] eqn:Hf; [done|]. rewrite find_from_none in Hf.
  specialize (Hf x Hx). by apply String.eqb_neq in Hf.
Qed.

(** C5. Commands take effect at most once below the rules of the session: when the
    event of a command with a new id was appended, even by an attempt that reported
    an I/O failure, then whatever is appended under this id later changes nothing,
    at any clock and however much the log has grown; and if the command is not a
    speech, its payload reads back as it was written, and the retry is the same
    command, then the retry gets the position of the original event.  (A speech
    gets evidence that depends on the log, so its retry is refused; and the rules
    of a session may refuse a retry before it comes here.) *)
Theorem retry_exactly_once name w ix e f w1 r1 ix1 :
  reads w name ix -> ev_command_id e <> "" ->
  (forall x, x ∈ ix_events ix -> ev_command_id x <> ev_command_id e) ->
  appendIdempotentEvent name w ix e f = (w1, r1) -> reads w1 name ix1 -> ix1 <> ix ->
  let a := mk_append_result (cursorFor (len_z (ix_events ix)) (ev_event_id e))
             (len_z (ix_events ix)) (ev_event_id e) in
  (forall b, r1 = Ok b -> b = (a, false)) /\
  forall w2 ix2 tail e2 f2, ix_events ix2 = ix_events ix1 ++ tail -> ev_command_id e2 = ev_command_id e ->
    (appendIdempotentEvent name w2 ix2 e2 f2).1 = w2 /\
    (ev_type e <> "speech" -> encodes_stably e -> same_command e e2 ->
     appendIdempotentEvent name w2 ix2 e2 f2 = (w2, Ok (a, true))).
Proof.
  intros Hix Hcmd Hfresh Happ Hix1 Hne. cbv zeta.
  assert (Hnew : r1 = (fun a => (a, false)) <$> (AppendEvent name w (prepareEventForAppend (wd_md w) ix e) f).2 /\
                 AppendEvent name w (prepareEventForAppend (wd_md w) ix e) f = (w1, (AppendEvent name w (prepareEventForAppend (wd_md w) ix e) f).2)).
  { revert Happ. unfold appendIdempotentEvent. destruct (prepare_fields (wd_md w) ix e) as (_ & _ & Hc & _). cbv zeta in *.
    rewrite Hc. replace (ev_command_id e == "") with false by (symmetry; by apply String.eqb_neq). unfold replay_command. rewrite Hc.
    rewrite (proj2 (find_from_none _ 0 (ix_events ix))) by (intros x Hx; by apply String.eqb_neq, Hfresh).
    destruct (AppendEvent _ _ _ _) as [w' q]. by intros [= <- <-]. }
  destruct Hnew as [-> Ha]. set (q := (AppendEvent _ _ _ _).2) in *.
  destruct (prepare_fields (wd_md w) ix e) as (_ & Hid & Hpc & _). cbv zeta in Hid, Hpc.
  destruct (append_outcomes _ _ _ _ _ _ _ Hix Ha) as [Hr|[(Hr & _)|(sd & err & Hsd & Hr)]].
  - by destruct (Hne (reads_fun _ _ _ _ Hix1 Hr)).
  - pose proof (reads_fun _ _ _ _ Hix1 Hr) as ->. split.
    + intros b Hb. destruct q as [a|] eqn:Hq; [|done]. injection Hb as <-. destruct f as [f|].
      * by destruct (AppendEvent_crash _ _ _ _ _ _ _ Hix Ha) as [Hbad _].
      * apply AppendEvent_ok in Ha as (ix' & Hix' & _ & _ & -> & _).
        by rewrite (reads_fun _ _ _ _ Hix' Hix), Hid.
    + intros w2 ix2 tail e2 f2 Hix2 He2. split.
      * apply (retry_unchanged _ _ _ (appended (wd_md w) ix (prepareEventForAppend (wd_md w) ix e))); [congruence| |].
        -- rewrite Hix2. cbn. set_solver.
        -- destruct (appended_fields (wd_md w) ix (prepareEventForAppend (wd_md w) ix e)) as (_ & -> & _). congruence.
      * intros Hty Hst Hsame. unfold appended in Hix2. rewrite !prepare_non_speech in Hix2 by (rewrite ?prepare_non_speech; done).
        simpl in Hix2. rewrite <- app_assoc in Hix2. simpl in Hix2.
        pose proof Hsame as (Ht & Hc & _).
        apply (retry_answered name w2 ix2 (ix_events ix) e tail); rewrite <- ?Hc, <- ?Ht; done.
  - destruct Hix1 as (sd' & Hsd' & Hr'). congruence.
Qed.

(** *** Command ids across sessions *)

Lemma safe_entries_ok l r :
  safe_entries l = Ok r ->
  forall name sd, (name, sd) ∈ l -> has_prefix name "." = false -> (name, sd) ∈ r.
Proof.
  revert r. induction l as [|[n s] l IH]; intros r H name sd Hin Hp; [set_solver|].
  simpl in H. apply elem_of_cons in Hin as [[= -> ->]|Hin].
  - rewrite Hp in H. run_inv H. subst. set_solver.
  - destruct (has_prefix n "."); [by eapply IH|]. run_inv H. subst.
    apply elem_of_cons. right. by eapply IH.
Qed.

Lemma command_unused_ok md self c l :
  command_unused md self c l = Ok tt ->
  forall name sd, (name, sd) ∈ l -> name <> md_id md -> name <> self ->
    exists other ix, LoadSessionYAML sd = Ok other /\ ReadLogIndex sd other = Ok ix /\ uses_command ix c = false.
Proof.
  induction l as [|[n s] l IH]; intros H name sd Hin H1 H2; [set_solver|].
  simpl in H. apply elem_of_cons in Hin as [[= -> ->]|Hin].
  - destruct ((n == md_id md) || (n == self)) eqn:E.
    { apply orb_true_iff in E as [E|E]; by apply String.eqb_eq in E. }
    run_inv H. eauto.
  - destruct ((n == md_id md) || (n == self)); [by apply (IH H name)|]. run_inv H. by apply (IH H name).
Qed.

(** Command ids are unique across sessions: a successful append proves that
    no other visible session of the data home, each of which had to be
    readable, holds an event with the same command id. *)
Theorem append_command_unused_elsewhere name w e w' a :
  AppendEvent name w e None = (w', Ok a) -> is_blank (ev_command_id e) = false ->
  forall other sd, wd_sessions w !! other = Some sd -> has_prefix other "." = false ->
    other <> md_id (wd_md w) -> other <> name ->
    exists md ix, LoadSessionYAML sd = Ok md /\ ReadLogIndex sd md = Ok ix /\
      forall x, x ∈ ix_events ix -> ev_command_id x <> trim_space (ev_command_id e).
Proof.
  intros H Hb other sd Ho Hp H1 H2.
  apply AppendEvent_cases in H as [[_ ?]|(sd0 & ix & sd' & md' & Hsd & Hc & _ & _)]; [done|].
  apply append_checks_ok in Hc as (_ & _ & _ & _ & Hv & _).
  unfold validateCommandIDNotUsedInOtherSession, is_blank in *. cbv zeta in Hv. rewrite Hb in Hv.
  run_inv Hv. unfold safeSessionEntries in Hrun.
  assert (Hin : (other, sd) ∈ a0).
  { eapply safe_entries_ok; [done | by apply sorted_entries_elem | done]. }
  destruct (command_unused_ok _ _ _ _ Hv _ _ Hin H1 H2) as (md & ix2 & Hl & Hr & Hu).
  exists md, ix2. split; [done|]. split; [done|]. intros x Hx Heq.
  unfold uses_command in Hu. rewrite <- not_true_iff_false in Hu. apply Hu.
  apply existsb_exists. exists x. split; [by apply list_elem_of_In | by apply String.eqb_eq].
Qed.

(** ** Witnesses *)

(** An event, a retry of it, a torn write, and an event after that. *)
Definition fx_calls : list append_call := [(fx_cmd, None); (fx_cmd, None); (fx_close, Some (FaultWrite true)); (fx_close, None)].

Lemma append_run_refines_log_witness :
  abstracts (append_run "sess_council" fx_w0 fx_calls).1 "sess_council" Corrupt /\
  (append_run "sess_council" fx_w0 fx_calls).2 = [Some (mk_append_result "cur_000000000001_evt_cmd_1" 1 "evt_cmd_1"); None; None; None].
Proof.
  apply (append_run_refines_log "sess_council" fx_w0 fx_calls (Readable (fx_log fx_council_md))).
  exists fx_ix0. split; [apply fx_reads0 | vm_compute; reflexivity].
Defined.

Definition fx_result : AppendResult := mk_append_result "cur_000000000001_evt_cmd_1" 1 "evt_cmd_1".

Lemma append_read_back_witness :
  exists ix, reads fx_w0 "sess_council" ix /\
    reads fx_w1 "sess_council" (index_add ix (appended fx_council_md ix fx_cmd)) /\
    nth_z (ix_events ix ++ [appended fx_council_md ix fx_cmd]) 1 = Some (appended fx_council_md ix fx_cmd) /\
    "evt_cmd_1" = "evt_cmd_1" /\ "cur_000000000001_evt_cmd_1" = cursorFor 1 "evt_cmd_1".
Proof. apply (append_read_back "sess_council" fx_w0 fx_cmd fx_w1 fx_result). vm_compute. reflexivity. Defined.

Definition fx_w_torn : world := fst (AppendEvent "sess_council" fx_w0 fx_cmd (Some (FaultWrite true))).

Lemma append_only_under_faults_witness :
  exists sd' tail, wd_sessions fx_w_torn !! "sess_deleg" = Some sd' /\
    lines_of sd' = lines_of (fx_dir fx_deleg_md (fx_log fx_deleg_md)) ++ tail /\ (length tail <= 1)%nat /\
    ("sess_deleg" <> "sess_council" -> sd' = fx_dir fx_deleg_md (fx_log fx_deleg_md)).
Proof.
  apply (append_only_under_faults "sess_council" fx_w0 fx_cmd (Some (FaultWrite true)) fx_w_torn
           (snd (AppendEvent "sess_council" fx_w0 fx_cmd (Some (FaultWrite true))))).
  - unfold fx_w_torn. apply surjective_pairing.
  - vm_compute. reflexivity.
Defined.

Lemma append_crash_atomic_witness :
  let w' := fst (AppendEvent "sess_council" fx_w0 fx_cmd (Some FaultSync)) in
  is_ok (snd (AppendEvent "sess_council" fx_w0 fx_cmd (Some FaultSync))) = false /\
  (reads w' "sess_council" fx_ix0 \/
   reads w' "sess_council" (index_add fx_ix0 (appended (wd_md fx_w0) fx_ix0 fx_cmd)) \/
   FaultSync = FaultWrite true /\ forall e2 f2, fst (AppendEvent "sess_council" w' e2 f2) = w').
Proof. apply append_crash_atomic; [apply fx_reads0 | apply surjective_pairing]. Defined.

(** A terminal council reopened by no event. *)
Definition fx_w_closed : world := fst (AppendEvent "sess_council" fx_w0 fx_close None).

Lemma terminal_metadata_sticky_witness :
  let w' := fst (AppendEvent "sess_council" fx_w_closed fx_cmd None) in
  terminal_metadata (wd_md w') = true /\
  st_phase (md_state (wd_md w')) = st_phase (md_state (wd_md fx_w_closed)).
Proof.
  apply (terminal_metadata_sticky "sess_council").
  - apply rtc_once, (do_append _ _ _ fx_cmd None (snd (AppendEvent "sess_council" fx_w_closed fx_cmd None))).
    apply surjective_pairing.
  - vm_compute. reflexivity.
Defined.

Lemma fx_cmd_stable : encodes_stably fx_cmd.
Proof.
  split; [vm_compute; reflexivity|]. intros k v.
  change (pl fx_cmd) with ({[ "agenda" := AStr "plan"; "rounds" := AInt 2 ]} : payload).
  rewrite lookup_insert_Some. intros [[_ <-]|[_ H]]; [constructor|].
  apply lookup_singleton_Some in H as [_ <-]. constructor. lia.
Qed.

Lemma retry_exactly_once_witness :
  (forall b, snd (appendIdempotentEvent "sess_council" fx_w0 fx_ix0 fx_cmd (Some FaultYaml)) = Ok b ->
     b = (fx_result, false)) /\
  forall w2 ix2 tail e2 f2,
    ix_events ix2 = ix_events (index_add fx_ix0 (appended (wd_md fx_w0) fx_ix0 fx_cmd)) ++ tail ->
    ev_command_id e2 = "cmd_1" ->
    (appendIdempotentEvent "sess_council" w2 ix2 e2 f2).1 = w2 /\
    ("agenda_locked" <> "speech" -> encodes_stably fx_cmd -> same_command fx_cmd e2 ->
     appendIdempotentEvent "sess_council" w2 ix2 e2 f2 = (w2, Ok (fx_result, true))).
Proof.
  apply (retry_exactly_once "sess_council" fx_w0 fx_ix0 fx_cmd (Some FaultYaml)
           (fst (appendIdempotentEvent "sess_council" fx_w0 fx_ix0 fx_cmd (Some FaultYaml)))).
  - apply fx_reads0.
  - done.
  - intros x Hx. apply list_elem_of_singleton in Hx as ->. vm_compute. done.
  - apply surjective_pairing.
  - eexists. split; [vm_compute; reflexivity|]. vm_compute. reflexivity.
  - intros H. apply (f_equal (fun ix => length (ix_events ix))) in H. vm_compute in H. discriminate H.
Defined.

Lemma append_command_unused_elsewhere_witness :
  exists md ix, LoadSessionYAML (fx_dir fx_deleg_md (fx_log fx_deleg_md)) = Ok md /\
    ReadLogIndex (fx_dir fx_deleg_md (fx_log fx_deleg_md)) md = Ok ix /\
    forall x, x ∈ ix_events ix -> ev_command_id x <> trim_space (ev_command_id fx_cmd).
Proof.
  apply (append_command_unused_elsewhere "sess_council" fx_w0 fx_cmd fx_w1 fx_result)
    with (other := "sess_deleg"); try (vm_compute; reflexivity); vm_compute; discriminate.
Defined.
