(* ===== verification/Command.v ===== *)
(** * Session commands

    Every command handler of the storage package has one shape: check the
    arguments, read the log, then either answer from the log or propose one
    event, which is appended idempotently.  [Command] is that interface;
    [LawfulCommand] is what the log-level theorems need of a handler. *)

From S2P Require Import Prelude GoValue GoTime Model Ids Evidence Events EventLog LogSpec.

(** ** The interface *)

Inductive decision :=
| Replay (a : AppendResult)
| Propose (e : EventEnvelope).

(** [precheck] runs before the log is read; [respond] sees time.Now(). *)
Class Command (C : Type) := {
  precheck : SessionMetadata -> C -> result error unit;
  respond : time -> SessionMetadata -> LogIndex -> C -> result error decision }.

Section run.
Context {C : Type} `{!Command C}.

(** The handler: the world it leaves and its result; the boolean says whether
    the command was answered from the log. *)
Definition run_command (name : string) (w : world) (clock : time) (c : C)
    (fault : option append_fault) : world * result error (AppendResult * bool) :=
  match precheck (wd_md w) c with
  | Err err => (w, Err err)
  | Ok _ =>
      match wd_sessions w !! name with
      | None => (w, Err (NewValidationError CategorySessionUnsafe name "no such file or directory"))
      | Some sd =>
          match ReadLogIndex sd (wd_md w) with
          | Err err => (w, Err err)
          | Ok ix =>
              match respond clock (wd_md w) ix c with
              | Err err => (w, Err err)
              | Ok (Replay a) => (w, Ok (a, true))
              | Ok (Propose e) => appendIdempotentEvent name w ix e fault
              end
          end
      end
  end.
End run.

#[global] Arguments run_command : simpl never.

(** A reply answers from the log: it names the position of the logged event. *)
Definition answers (ix : LogIndex) (commandID : string) (a : AppendResult) : Prop :=
  exists i x, ix_events ix !! i = Some x /\ a = existing_result i x /\ ev_command_id x = commandID.

Class LawfulCommand (C : Type) `{!Command C} := {
  (** proposals belong to the session and carry a command id *)
  propose_session clock md ix (c : C) e :
    respond clock md ix c = Ok (Propose e) ->
    ev_session_id e = md_id md /\ ev_session_type e = md_session_type md /\ ev_command_id e <> "";
  (** replies name logged events *)
  replay_answers clock md ix (c : C) a :
    respond clock md ix c = Ok (Replay a) -> exists cmd, answers ix cmd a }.

(** The commands that respect termination: a proposal made when the last event
    is terminal does not change the phase. *)
Class TerminalSafe (C : Type) `{!Command C} :=
  terminal_safe clock md ix (c : C) e :
    respond clock md ix c = Ok (Propose e) -> terminal_phase (latestPhase md ix) = true ->
    ev_phase e = latestPhase md ix.

(** Two kinds of command offered together. *)
#[global] Instance sum_command {A B} `{!Command A, !Command B} : Command (A + B) := {
  precheck md c := match c with inl a => precheck md a | inr b => precheck md b end;
  respond clock md ix c := match c with inl a => respond clock md ix a | inr b => respond clock md ix b end }.

#[global] Instance sum_lawful {A B} `{!Command A, !Command B, !LawfulCommand A, !LawfulCommand B} :
  LawfulCommand (A + B).
Proof.
  split; intros clock md ix [a|b]; simpl;
    first [apply (propose_session (C := A)) | apply (propose_session (C := B))
          | apply (replay_answers (C := A)) | apply (replay_answers (C := B))].
Qed.

#[global] Instance sum_terminal_safe {A B} `{!Command A, !Command B, !TerminalSafe A, !TerminalSafe B} :
  TerminalSafe (A + B).
Proof. intros clock md ix [a|b]; simpl; [apply (terminal_safe (C := A)) | apply (terminal_safe (C := B))]. Qed.

(** ** Runs *)

Section laws.
Context {C : Type} `{!Command C}.

(** One command, at any clock and under any fault. *)
Inductive command_step (name : string) (w w' : world) : Prop :=
| do_command clock (c : C) fault r : run_command name w clock c fault = (w', r) -> command_step name w w'.

(** A command changes nothing, or proposes an event that is appended. *)
Lemma run_command_cases name w clock c fault w' r :
  run_command name w clock c fault = (w', r) ->
  (w' = w /\ (forall a, r <> Ok (a, false))) \/
  exists ix e, reads w name ix /\ respond clock (wd_md w) ix c = Ok (Propose e) /\
    appendIdempotentEvent name w ix e fault = (w', r) /\ precheck (wd_md w) c = Ok tt.
Proof.
  unfold run_command. intros H.
  destruct (precheck (wd_md w) c) as [[]|]; [|injection H as <- <-; by left].
  destruct (wd_sessions w !! name) as [sd|] eqn:Hsd; [|injection H as <- <-; by left].
  destruct (ReadLogIndex sd (wd_md w)) as [ix|] eqn:Hr; [|injection H as <- <-; by left].
  destruct (respond clock (wd_md w) ix c) as [[a|e]|] eqn:Hd; [| |injection H as <- <-; by left].
  - injection H as <- <-. left. by split.
  - right. exists ix, e. split; [by exists sd | done].
Qed.

(** A command touches only its session. *)
Lemma run_command_frame name w clock c fault w' r n :
  run_command name w clock c fault = (w', r) -> n <> name -> wd_sessions w' !! n = wd_sessions w !! n.
Proof.
  intros H Hn. apply run_command_cases in H as [[-> _]|(ix & e & _ & _ & H & _)]; [done|].
  unfold appendIdempotentEvent in H. cbv zeta in H.
  destruct (if _ == "" then _ else _) as [q|]; [by injection H as <- _|].
  destruct (AppendEvent _ _ _ _) as [w1 q] eqn:Ha. injection H as <- _.
  apply AppendEvent_cases in Ha as [[-> _]|(sd & ix' & sd' & md' & _ & _ & _ & ->)]; [done|]. cbn. by rewrite lookup_insert_ne.
Qed.

Lemma run_command_same name w clock c fault w' r :
  run_command name w clock c fault = (w', r) -> same_session (wd_md w') (wd_md w).
Proof.
  intros H. apply run_command_cases in H as [[-> _]|(ix & e & _ & _ & H & _)]; [done|].
  by eapply appendIdempotentEvent_same.
Qed.

(** A command step of a readable session leaves its log as it was, extends
    it by one proposed event, or tears it. *)
Lemma command_outcomes name w w' ix :
  command_step name w w' -> reads w name ix ->
  reads w' name ix \/ torn w' name \/
  exists clock c e, respond clock (wd_md w) ix c = Ok (Propose e) /\
    reads w' name (index_add ix (appended (wd_md w) ix e)) /\
    (ev_command_id e = "" \/ forall x, x ∈ ix_events ix -> ev_command_id x <> ev_command_id e).
Proof.
  intros [clock c fault r H] Hix.
  apply run_command_cases in H as [[-> _]|(ix' & e & Hix' & Hd & H & _)]; [by left|].
  rewrite (reads_fun _ _ _ _ Hix' Hix) in *. clear ix' Hix'.
  unfold appendIdempotentEvent in H. cbv zeta in H.
  pose proof (prepare_fields (wd_md w) ix e) as (_ & _ & Hcmd & _). cbv zeta in Hcmd.
  rewrite Hcmd in H.
  destruct (if _ == "" then _ else _) as [q|] eqn:Hq; [injection H as <- _; by left|].
  destruct (AppendEvent _ _ _ _) as [w1 q] eqn:Ha. injection H as <- _.
  destruct (append_outcomes _ _ _ _ _ _ _ Hix Ha) as [?|[(Hr & _)|?]]; auto.
  right. right. exists clock, c, e. split; [done|]. unfold appended in *.
  rewrite prepare_idemp in Hr. split; [done|].
  destruct (ev_command_id e == "") eqn:He; [left; by apply String.eqb_eq|]. right.
  unfold replay_command in Hq. rewrite Hcmd in Hq.
  destruct (find_from _ 0 (ix_events ix)) as [[]|] eqn:Hf; [done|].
  intros x Hx. apply String.eqb_neq. by apply (proj1 (find_from_none _ _ _) Hf).
Qed.

Lemma torn_stuck name w w' : rtc (command_step name) w w' -> torn w name -> w' = w.
Proof.
  intros Hrun Ht. induction Hrun as [|w1 w2 w3 [clock c fault r H] _ IH]; [done|].
  assert (w2 = w1) as ->; [|by apply IH].
  destruct Ht as (sd & err & Hsd & Hr). unfold run_command in H.
  destruct (precheck _ _); [|by injection H]. rewrite Hsd, Hr in H. by injection H.
Qed.

Lemma torn_unreadable name w ix : torn w name -> reads w name ix -> False.
Proof. intros (? & ? & ? & ?) (? & ? & ?). congruence. Qed.

(** Induction over runs that end readable: what holds of the log before and
    is kept by every proposal holds of the log after. *)
Lemma command_run_ind (P : LogIndex -> Prop) name w w' ix ix' :
  (forall clock md c i e, same_session md (wd_md w) -> P i -> respond clock md i c = Ok (Propose e) ->
     (ev_command_id e = "" \/ forall x, x ∈ ix_events i -> ev_command_id x <> ev_command_id e) ->
     P (index_add i (appended md i e))) ->
  rtc (command_step name) w w' -> reads w name ix -> P ix -> reads w' name ix' -> P ix'.
Proof.
  intros Hstep Hrun. revert ix Hstep.
  induction Hrun as [w|w w1 w' Hw Hrun IH]; intros ix Hstep Hix HP Hix'.
  { by rewrite (reads_fun _ _ _ _ Hix' Hix). }
  assert (Hs : same_session (wd_md w1) (wd_md w)) by (destruct Hw; by eapply run_command_same).
  assert (Hstep' : forall clock md c i e, same_session md (wd_md w1) -> P i ->
     respond clock md i c = Ok (Propose e) ->
     (ev_command_id e = "" \/ forall x, x ∈ ix_events i -> ev_command_id x <> ev_command_id e) ->
     P (index_add i (appended md i e))).
  { intros clock md c i e Hmd. apply Hstep. by rewrite Hmd. }
  destruct (command_outcomes _ _ _ _ Hw Hix) as [Hr|[Ht|(clock & c & e & Hd & Hr & Hnew)]].
  - by apply (IH ix).
  - rewrite (torn_stuck _ _ _ Hrun Ht) in Hix'. by destruct (torn_unreadable _ _ _ Ht Hix').
  - apply (IH _ Hstep' Hr); [|done]. by apply (Hstep clock (wd_md w) c).
Qed.
End laws.

(** ** Rules for the events of a log *)

(** The phase that a log is in. *)
Definition log_phase (log : list EventEnvelope) : Phase :=
  match last log with
  | Some e => ev_phase e
  | None => ""
  end.

Lemma latestPhase_log md ix : ix_events ix <> [] -> latestPhase md ix = log_phase (ix_events ix).
Proof.
  unfold latestPhase, log_phase. intros H. destruct (last (ix_events ix)) eqn:E; [done|]. by apply last_None in E.
Qed.

(** Each event of [tail] obeys the rule in the log that stands before it. *)
Fixpoint obeys (rule : list EventEnvelope -> EventEnvelope -> Prop) (log tail : list EventEnvelope) : Prop :=
  match tail with
  | [] => True
  | e :: rest => rule log e /\ obeys rule (log ++ [e]) rest
  end.

Lemma obeys_snoc rule log tail e : obeys rule log tail -> rule (log ++ tail) e -> obeys rule log (tail ++ [e]).
Proof.
  revert log. induction tail as [|x tail IH]; intros log; cbn; [by rewrite app_nil_r|].
  intros [Hx Ht] He. split; [done|]. apply IH; [done|]. by rewrite <- app_assoc.
Qed.

(** What a run of commands adds to a log obeys the rule that every proposal obeys. *)
Lemma command_run_rule {C} `{!Command C} (rule : list EventEnvelope -> EventEnvelope -> Prop) name w w' ix ix' :
  (forall clock md i (c : C) e, ix_events i <> [] -> respond clock md i c = Ok (Propose e) -> rule (ix_events i) (appended md i e)) ->
  rtc (command_step (C := C) name) w w' -> reads w name ix -> ix_events ix <> [] -> reads w' name ix' ->
  exists tail, ix_events ix' = ix_events ix ++ tail /\ obeys rule (ix_events ix) tail.
Proof.
  intros Hrule Hrun Hix Hne Hix'.
  apply (command_run_ind (fun i => exists tail, ix_events i = ix_events ix ++ tail /\ obeys rule (ix_events ix) tail) name w w' ix ix');
    [|done..| |done].
  - intros clock md c i e _ (tail & Hi & Ht) Hd _. exists (tail ++ [appended md i e]). cbn [index_add ix_events].
    rewrite app_assoc, <- Hi. split; [done|]. apply obeys_snoc; [done|]. rewrite <- Hi. eapply Hrule; [|exact Hd].
    rewrite Hi. by destruct (ix_events ix).
  - exists []. by rewrite app_nil_r.
Qed.

(** A table of moves: event types with the phases they are for and the phase they
    lead to. *)
Abbreviation moves := (list (string * (list Phase * Phase))).

Definition in_table (table : moves) (log : list EventEnvelope) (e : EventEnvelope) : Prop :=
  exists from, (ev_type e, (from, ev_phase e)) ∈ table /\ log_phase log ∈ from.

(** No two events of the log answer to the same (non-empty) command id. *)
Definition commands_unique (ix : LogIndex) : Prop :=
  NoDup (List.filter (fun c => c != "") (map ev_command_id (ix_events ix))).

Lemma commands_unique_add ix e :
  commands_unique ix ->
  (ev_command_id e = "" \/ forall x, x ∈ ix_events ix -> ev_command_id x <> ev_command_id e) ->
  commands_unique (index_add ix e).
Proof.
  unfold commands_unique, index_add. cbn [ix_events]. intros Hu Hnew.
  rewrite map_app, List.filter_app. cbn [map List.filter].
  destruct (ev_command_id e == "") eqn:Hempty; simpl; [by rewrite app_nil_r|].
  apply String.eqb_neq in Hempty. destruct Hnew as [|Hnew]; [done|].
  apply NoDup_app. split; [done|]. split; [|apply NoDup_singleton].
  intros x Hx ->%list_elem_of_singleton.
  apply list_elem_of_In, filter_In in Hx as [Hx _]. apply in_map_iff in Hx as (y & Hy & Hin).
  apply (Hnew y); [by apply list_elem_of_In | done].
Qed.

Lemma appended_command md ix e : ev_command_id (appended md ix e) = ev_command_id e.
Proof. apply (appended_fields md ix e). Qed.

(** At most once: over any run of session commands, at any clocks and under
    any faults, the log only grows at its end and keeps every command id unique. *)
Theorem command_run_at_most_once {C} `{!Command C} name w w' ix ix' :
  rtc (command_step (C := C) name) w w' -> reads w name ix -> commands_unique ix -> reads w' name ix' ->
  commands_unique ix' /\ exists tail, ix_events ix' = ix_events ix ++ tail.
Proof.
  intros Hrun Hix Hu Hix'.
  apply (command_run_ind (fun i => commands_unique i /\ exists tail, ix_events i = ix_events ix ++ tail)
           name w w' ix ix'); [|done..|by split; [|exists []; rewrite app_nil_r]|done].
  intros clock md c i e _ [Hi [tail Htail]] _ Hnew. split.
  - apply commands_unique_add; [done|]. by rewrite appended_command.
  - exists (tail ++ [appended md i e]). cbn [index_add ix_events]. by rewrite Htail, app_assoc.
Qed.

(** Termination is final: over any run of termination-respecting commands
    from a session whose last event is terminal, the last event keeps that
    terminal phase, whatever the faults. *)
Theorem command_run_terminal_final {C} `{!Command C, !TerminalSafe C} name w w' ix ix' :
  rtc (command_step (C := C) name) w w' -> reads w name ix -> ix_events ix <> [] -> reads w' name ix' ->
  terminal_phase (latestPhase (wd_md w) ix) = true ->
  latestPhase (wd_md w') ix' = latestPhase (wd_md w) ix.
Proof.
  intros Hrun Hix Hne Hix' Hterm.
  assert (Hmd : forall md1 md2 i, ix_events i <> [] -> latestPhase md1 i = latestPhase md2 i).
  { intros md1 md2 i Hi. unfold latestPhase. destruct (last (ix_events i)) eqn:E; [done|].
    by apply last_None in E. }
  apply (command_run_ind (fun i => ix_events i <> [] /\ forall md, latestPhase md i = latestPhase (wd_md w) ix)
           name w w' ix ix'); [|done..|split; auto|done].
  intros clock md c i e _ [Hi Hp] Hd _. split; [by cbn [index_add ix_events]; destruct (ix_events i)|].
  intros md'. unfold index_add. rewrite latestPhase_app.
  pose proof (appended_fields md i e) as (_ & _ & _ & Hph & _). rewrite Hph.
  rewrite <- (Hp md). apply (terminal_safe clock md i c e Hd). by rewrite Hp.
Qed.
