(* ===== verification/Delegation.v ===== *)
(** * Delegation sessions and session control (storage/delegation.go)

    A delegation hands a task to an assignee and moves through the phases of
    [delegationPhases]; every command is a transition proposed from the phase of
    the last event.  Cancelling, blocking, resuming and extending limits apply
    to sessions of either type. *)

From S2P Require Import Prelude GoValue GoTime Model Ids Evidence Events EventLog LogSpec Command.

(** ** Commands *)

(** [ds_ingested] is what copying the artifact sources of the command gives
    when it is attempted: the file copy itself is not modelled. *)
Record DelegationEventSpec := mk_deleg_spec {
  ds_action : string; ds_actor : string; ds_recipients : list string; ds_command_id : string;
  ds_causation : string; ds_payload : option payload; ds_artifact_paths : list string;
  ds_ingested : result error (list payload); ds_now : time }.

Record SessionCancelSpec := mk_cancel {
  cs_actor : string; cs_reason : string; cs_cause : string; cs_command_id : string; cs_now : time }.

Record SessionBlockSpec := mk_block {
  bs_actor : string; bs_category : string; bs_reason : string; bs_command_id : string; bs_now : time }.

Record SessionResumeSpec := mk_resume {
  rs_actor : string; rs_blocked_event : string; rs_reason : string; rs_command_id : string; rs_now : time }.

Record LimitsExtendSpec := mk_extend {
  le_actor : string; le_authorized_by : string; le_blocked_event : string; le_changes : payload;
  le_reason : string; le_command_id : string; le_now : time }.

(** ** Transitions *)

Definition requirePhase (action : string) (current : Phase) (allowed : list Phase) : result error unit :=
  ensure mem_str current allowed or
    NewValidationError CategoryCommandConflict "phase" (action +:+ " is not allowed from phase " +:+ current);;
  Ok tt.

Definition resumePhaseForEscalation (current : Phase) : string :=
  if current == "needs_clarification" then "working" else current.

(** [payload[key] == nil] *)
Definition key_nil (p : payload) (key : string) : bool :=
  match p !! key with
  | None | Some ANil => true
  | _ => false
  end.

(** What a transition decides: event type, phase, sender, recipients, and the
    payload as the transition leaves it. *)
Record transition := mk_transition {
  tr_type : string; tr_phase : Phase; tr_from : string; tr_to : list string; tr_payload : payload }.

Definition escalate_payload (current : Phase) (causation : string) (p : payload) : payload :=
  let p1 := <["batch" := ABool false]> p in
  let p2 := <["prior_phase" := AStr current]> p1 in
  let p3 := if key_nil p2 "resume_phase" || option_eqb (payloadString p2 "resume_phase") ""
            then <["resume_phase" := AStr (resumePhaseForEscalation current)]> p2 else p2 in
  if key_nil p3 "included_event_ids" && (causation != "")
  then <["included_event_ids" := AStrs [causation]]> p3 else p3.

Definition batch_payload (commandID causation : string) (p : payload) : payload :=
  let p1 := <["batch_id" := AStr (defaultString (payloadStringDefault p "batch_id" "")
                                   (eventIDFromCommand "escbatch" commandID))]> p in
  let p2 := <["action" := AStr (defaultString (payloadStringDefault p1 "action" "") "created")]> p1 in
  <["source_event_id" := AStr (defaultString (payloadStringDefault p2 "source_event_id" "") causation)]> p2.

Definition delegationTransition (md : SessionMetadata) (ix : LogIndex) (current : Phase) (action : string)
    (spec : DelegationEventSpec) (commandID : string) (p : payload) : result error transition :=
  let actor := if is_blank (ds_actor spec) then md_moderator md else trim_space (ds_actor spec) in
  reject negb (principalAllowed md actor false) with
    NewValidationError CategoryPrincipalInvalid "actor" "actor is not allowed for this session";;
  let to := ds_recipients spec in
  let moderator := md_moderator md in
  let require := requirePhase action current in
  let go ty phase to := Ok (mk_transition ty phase actor to p) in
  if action == "ack" then
    try _ := require ["assigned"] in
    reject actor == moderator with
      NewValidationError CategoryPrincipalInvalid "actor" "assignee acknowledgement must come from assignee";;
    go "assignee_acknowledged" "acknowledged" (defaultRecipients to moderator)
  else if action == "message" then
    go "delegation_message" current (defaultRecipients to moderator)
  else if action == "clarify" then
    try _ := require ["acknowledged"; "working"; "revision_requested"] in
    go "clarification_requested" "needs_clarification" (defaultRecipients to moderator)
  else if action == "answer-clarification" then
    try _ := require ["needs_clarification"; "waiting_user"] in
    match eventByIDAndType ix (ds_causation spec) "clarification_requested" with
    | None => Err (NewValidationError CategoryInvalidEnvelope "in_reply_to" "must reference clarification_requested")
    | Some _ =>
        let to1 := defaultRecipients to (payloadStringDefault p "assignee" "") in
        go "clarification_answered" "working"
          (match to1 with
           | [] => [firstNonModerator md]
           | t :: _ => if t == "" then [firstNonModerator md] else to1
           end)
    end
  else if action == "update" then
    try _ := require ["acknowledged"; "working"; "revision_requested"] in
    go "assignee_update" "working" (defaultRecipients to moderator)
  else if action == "request-update" then
    go "assignee_update_requested" current (defaultRecipients to (firstNonModerator md))
  else if action == "submit" then
    try _ := require ["acknowledged"; "working"; "revision_requested"] in
    go "work_submitted" "submitted" (defaultRecipients to moderator)
  else if action == "review" then
    try _ := require ["submitted"] in
    go "review_requested" "under_review" (defaultRecipients to (firstNonModerator md))
  else if action == "review-question" then
    try _ := require ["under_review"] in
    go "review_clarification_requested" current (defaultRecipients to (firstNonModerator md))
  else if action == "review-answer" then
    try _ := require ["under_review"] in
    go "review_clarification_answered" current (defaultRecipients to moderator)
  else if action == "review-submit" then
    try _ := require ["under_review"] in
    go "review_submitted" current (defaultRecipients to moderator)
  else if action == "revise" then
    try _ := require ["under_review"] in
    go "revision_requested" "revision_requested" (defaultRecipients to (firstNonModerator md))
  else if action == "accept" then
    try _ := require ["submitted"; "under_review"] in
    go "work_accepted" "accepted" (allParticipants md)
  else if action == "escalate" then
    let p1 := escalate_payload current (ds_causation spec) p in
    if (payloadStringDefault p1 "urgency" "normal" == "low")
       && (payloadStringDefault p1 "batch_policy" "auto" != "never")
    then Ok (mk_transition "escalation_batched" current actor [moderator]
               (batch_payload commandID (ds_causation spec) p1))
    else Ok (mk_transition "user_escalation_requested" "waiting_user" actor ["user"] p1)
  else if action == "escalation-flush" then
    Ok (mk_transition "user_escalation_requested" "waiting_user" "atn-controld" ["user"]
          (<["resume_phase" := AStr (resumePhaseForEscalation current)]>
             (<["prior_phase" := AStr current]> (<["batch" := ABool true]> p))))
  else if action == "resolve-escalation" then
    try _ := require ["waiting_user"] in
    match eventByIDAndType ix (ds_causation spec) "user_escalation_requested" with
    | None => Err (NewValidationError CategoryInvalidEnvelope "escalation" "must reference user_escalation_requested")
    | Some escalation =>
        let phase := payloadStringDefault (pl escalation) "resume_phase" "working" in
        Ok (mk_transition "user_escalation_resolved" phase "user" [moderator]
              (<["resume_phase" := AStr phase]> (<["escalation_event_id" := AStr (ds_causation spec)]> p)))
    end
  else Err (NewValidationError CategoryInvalidEnvelope "action" "unsupported delegation action").

(** ** Payload validation *)

Definition delegationSlice (p : payload) (key : string) : list any :=
  match p !! key with
  | Some (AList l) => l
  | Some (AStrs l) => map AStr l
  | Some (AMaps l) => map AMap l
  | _ => []
  end.

Definition required_keys : list (string * list string) :=
  [("ack", ["understanding"]); ("clarify", ["question"]); ("answer-clarification", ["answer"; "source"]);
   ("message", ["kind"; "message"]); ("update", ["progress_status"; "summary"]);
   ("request-update", ["reason"]); ("submit", ["summary"]); ("review-submit", ["verdict"]);
   ("revise", ["required_changes"]); ("accept", ["final_summary"]); ("escalate", ["question"; "urgency"]);
   ("resolve-escalation", ["answer"])].

Definition required_for (action : string) : list string :=
  match List.find (fun kv => kv.1 == action) required_keys with
  | Some kv => kv.2
  | None => []
  end.

Definition key_given (p : payload) (key : string) : bool :=
  negb (is_blank (payloadStringDefault p key "")) || (0 <? len_z (delegationSlice p key)).

Fixpoint check_required (p : payload) (keys : list string) : result error unit :=
  match keys with
  | [] => Ok tt
  | key :: rest =>
      ensure key_given p key or NewValidationError CategoryInvalidEnvelope key (key +:+ " is required");;
      check_required p rest
  end.

Definition message_kinds : list string :=
  ["note"; "instruction"; "scope_correction"; "priority_update"; "process_guidance"].
Definition progress_statuses : list string := ["working"; "blocked"; "partial"; "testing"; "ready_to_submit"].
Definition verdicts : list string := ["accepted"; "changes_requested"; "rejected"; "needs_clarification"].
Definition severities : list string := ["low"; "medium"; "high"; "critical"].

Fixpoint check_findings (items : list any) : result error unit :=
  match items with
  | [] => Ok tt
  | AMap finding :: rest =>
      ensure allowedString (payloadStringDefault finding "severity" "") severities or
        NewValidationError CategoryInvalidEnvelope "findings.severity" "invalid finding severity";;
      reject payloadStringDefault finding "issue" "" == "" with
        NewValidationError CategoryInvalidEnvelope "findings.issue" "finding issue is required";;
      check_findings rest
  | _ :: _ => Err (NewValidationError CategoryInvalidEnvelope "findings" "finding must be an object")
  end.

Definition validateDelegationPayload (action : string) (p : payload) : result error unit :=
  try _ := check_required p (required_for action) in
  reject (action == "message") && negb (allowedString (payloadStringDefault p "kind" "") message_kinds) with
    NewValidationError CategoryInvalidEnvelope "kind" "invalid delegation message kind";;
  reject (action == "update")
         && negb (allowedString (payloadStringDefault p "progress_status" "") progress_statuses) with
    NewValidationError CategoryInvalidEnvelope "progress_status" "invalid progress status";;
  if action == "review-submit" then
    ensure allowedString (payloadStringDefault p "verdict" "") verdicts or
      NewValidationError CategoryInvalidEnvelope "verdict" "invalid review verdict";;
    check_findings (delegationSlice p "findings")
  else Ok tt.

(** ** RecordDelegationEvent *)

(** [now := spec.Now.UTC(); if now.IsZero() { now = time.Now().UTC() }] *)
Definition event_time (clock now : time) : time := if is_zero now then clock else now.

(** time.Time.UnixNano, wrapping outside the years 1678 to 2262. *)
Definition unix_nano (t : time) : string := itoa (wrap64 t).

(** An event of the session, as every handler builds it. *)
Definition session_event (md : SessionMetadata) (commandID causation : string) (t : transition)
    (now : time) : EventEnvelope :=
  mk_event SchemaVersion (eventIDFromCommand ("evt_" +:+ tr_type t) commandID) commandID causation
    (md_id md) (md_id md) (md_session_type md) None (tr_phase t) (tr_type t) (tr_from t) (tr_to t)
    now None None (Some (tr_payload t)).

Definition sort_to (t : transition) : transition :=
  mk_transition (tr_type t) (tr_phase t) (tr_from t) (sort_strings (tr_to t)) (tr_payload t).

Definition conflict_or {A} (r : result error A) : result error A :=
  match r with
  | Ok a => Ok a
  | Err _ => Err command_conflict
  end.

(** [replayExistingDelegationCommand]; [None] when it does not handle the command. *)
Definition replayExistingDelegationCommand (md : SessionMetadata) (ix : LogIndex) (action : string)
    (spec : DelegationEventSpec) (commandID : string) (p : payload) : option (result error AppendResult) :=
  if is_blank commandID || (0 <? len_z (ds_artifact_paths spec)) then None
  else
    match find_from (fun x => ev_command_id x == commandID) 0 (ix_events ix) with
    | None => None
    | Some (offset, existing) =>
        let priorPhase :=
          match offset with
          | O => st_phase (md_state md)
          | S i => match ix_events ix !! i with Some x => ev_phase x | None => "" end
          end in
        Some (
          try t := conflict_or (delegationTransition md ix priorPhase action spec commandID p) in
          try _ := conflict_or (validateDelegationPayload action (tr_payload t)) in
          let event := session_event md commandID (trim_space (ds_causation spec)) (sort_to t) zero_time in
          if commandEquivalent existing event then Ok (existing_result offset existing)
          else Err command_conflict)
    end.

Definition deleg_command_id (spec : DelegationEventSpec) : string :=
  if is_blank (ds_command_id spec)
  then "cmd_delegate_" +:+ trim_space (ds_action spec) +:+ "_" +:+ unix_nano (ds_now spec)
  else ds_command_id spec.

Definition deleg_propose (clock : time) (md : SessionMetadata) (ix : LogIndex) (spec : DelegationEventSpec)
    : result error EventEnvelope :=
  let current := latestPhase md ix in
  let action := trim_space (ds_action spec) in
  let commandID := deleg_command_id spec in
  reject terminal_phase current with
    NewValidationError CategoryCommandConflict "phase" "delegation session is terminal";;
  try t := delegationTransition md ix current action spec commandID (default ∅ (ds_payload spec)) in
  try p := (match ds_artifact_paths spec with
            | [] => Ok (tr_payload t)
            | _ => try artifacts := ds_ingested spec in Ok (<["artifacts" := AMaps artifacts]> (tr_payload t))
            end) in
  try _ := validateDelegationPayload action p in
  let t1 := mk_transition (tr_type t) (tr_phase t) (tr_from t) (tr_to t) p in
  let causation := trim_space (ds_causation spec) in
  let event := session_event md commandID causation (sort_to t1) (event_time clock (ds_now spec)) in
  reject (causation != "") && match eventByID ix causation with Some _ => false | None => true end with
    NewValidationError CategoryInvalidEnvelope "causation_event_id" "causation event must reference this session";;
  Ok event.

Definition deleg_decide (clock : time) (md : SessionMetadata) (ix : LogIndex) (spec : DelegationEventSpec)
    : result error decision :=
  let action := trim_space (ds_action spec) in
  reject action == "" with
    NewValidationError CategoryInvalidEnvelope "action" "delegation action is required";;
  match replayExistingDelegationCommand md ix action spec (deleg_command_id spec) (default ∅ (ds_payload spec)) with
  | Some r => Replay <$> r
  | None => Propose <$> deleg_propose clock md ix spec
  end.

#[global] Instance RecordDelegationEvent : Command DelegationEventSpec := {
  precheck md _ :=
    ensure md_session_type md == SessionTypeDelegation or
      NewValidationError CategoryMetadataInvalid "session_type" "delegation command requires delegation session";;
    Ok tt;
  respond := deleg_decide }.

(** ** Session control *)

Definition default_command (prefix : string) (clock now : time) (commandID : string) : string :=
  if is_blank commandID then prefix +:+ unix_nano (event_time clock now) else commandID.

Definition cancel_event (clock : time) (md : SessionMetadata) (spec : SessionCancelSpec) : EventEnvelope :=
  let base : payload := {[ "reason" := AStr (trim_space (cs_reason spec)) ]} in
  session_event md (default_command "cmd_cancel_" clock (cs_now spec) (cs_command_id spec)) ""
    (mk_transition "session_cancelled" "cancelled" (cs_actor spec) (allParticipants md)
       (if is_blank (cs_cause spec) then base else <["cause" := AStr (trim_space (cs_cause spec))]> base))
    (event_time clock (cs_now spec)).

Definition cancel_decide (clock : time) (md : SessionMetadata) (ix : LogIndex) (spec : SessionCancelSpec)
    : result error decision :=
  reject negb (Participant md (cs_actor spec)) || (cs_actor spec != md_moderator md) with
    NewValidationError CategoryPrincipalInvalid "actor" "only the moderator may cancel the session";;
  reject is_blank (cs_reason spec) with
    NewValidationError CategoryInvalidEnvelope "reason" "cancel reason is required";;
  let event := cancel_event clock md spec in
  match replay_command ix event with
  | Some r => Replay <$> r
  | None =>
      reject terminal_phase (latestPhase md ix) with
        NewValidationError CategoryCommandConflict "phase" "cannot cancel terminal session";;
      Ok (Propose event)
  end.

#[global] Instance CancelSession : Command SessionCancelSpec := {
  precheck _ _ := Ok tt; respond := cancel_decide }.

Definition allowedBlockCategory (value : string) : bool :=
  allowedString value ["external_dependency"; "user_decision_required"; "scope_conflict";
                       "policy_or_security"; "budget_or_limit"; "other"].

Definition block_decide (clock : time) (md : SessionMetadata) (ix : LogIndex) (spec : SessionBlockSpec)
    : result error decision :=
  let current := latestPhase md ix in
  reject terminal_phase current || (current == "blocked") with
    NewValidationError CategoryCommandConflict "phase" "cannot block terminal or already blocked session";;
  reject bs_actor spec != md_moderator md with
    NewValidationError CategoryPrincipalInvalid "actor" "only the moderator may block the session";;
  ensure allowedBlockCategory (bs_category spec) or
    NewValidationError CategoryInvalidEnvelope "category" "invalid block category";;
  reject is_blank (bs_reason spec) with
    NewValidationError CategoryInvalidEnvelope "reason" "block reason is required";;
  Ok (Propose (session_event md (default_command "cmd_block_" clock (bs_now spec) (bs_command_id spec)) ""
    (mk_transition "session_blocked" "blocked" (bs_actor spec) (allParticipants md)
       {[ "category" := AStr (bs_category spec); "reason" := AStr (bs_reason spec);
          "prior_phase" := AStr current; "resume_phase" := AStr current ]})
    (event_time clock (bs_now spec)))).

#[global] Instance BlockSession : Command SessionBlockSpec := {
  precheck _ _ := Ok tt; respond := block_decide }.

Definition resume_decide (clock : time) (md : SessionMetadata) (ix : LogIndex) (spec : SessionResumeSpec)
    : result error decision :=
  let invalid path message := NewValidationError CategoryInvalidEnvelope path message in
  reject latestPhase md ix != "blocked" with
    NewValidationError CategoryCommandConflict "phase" "session is not blocked";;
  reject rs_actor spec != md_moderator md with
    NewValidationError CategoryPrincipalInvalid "actor" "only the moderator may resume the session";;
  let bad_reference := invalid "blocked_event" "blocked-event must reference the blocking event for this session" in
  match eventByID ix (rs_blocked_event spec) with
  | None => Err bad_reference
  | Some blocking =>
      reject ev_phase blocking != "blocked" with bad_reference;;
      reject ev_type blocking == "session_budget_exceeded" with
        NewValidationError CategoryCommandConflict "blocked_event" "budget/limit blocks require limits extend";;
      ensure mem_str (ev_type blocking) ["session_blocked"; "security_violation"; "escalation_timeout"] or
        invalid "blocked_event" "blocked-event is not manually resumable";;
      let resumePhase := payloadStringDefault (pl blocking) "resume_phase" "" in
      reject (resumePhase == "") || negb (validPhase (md_session_type md) resumePhase)
             || terminal_phase resumePhase || (resumePhase == "blocked") with
        invalid "resume_phase" "blocking event has invalid resume_phase";;
      reject is_blank (rs_reason spec) with invalid "reason" "resume reason is required";;
      Ok (Propose (session_event md (default_command "cmd_resume_" clock (rs_now spec) (rs_command_id spec))
        (rs_blocked_event spec)
        (mk_transition "session_resumed" resumePhase (rs_actor spec) (allParticipants md)
           {[ "blocked_event_id" := AStr (rs_blocked_event spec); "reason" := AStr (rs_reason spec);
              "resume_phase" := AStr resumePhase; "resolved_by" := AStr (rs_actor spec) ]})
        (event_time clock (rs_now spec))))
  end.

#[global] Instance ResumeSession : Command SessionResumeSpec := {
  precheck _ _ := Ok tt; respond := resume_decide }.

Definition extend_decide (clock : time) (md : SessionMetadata) (ix : LogIndex) (spec : LimitsExtendSpec)
    : result error decision :=
  let invalid path message := NewValidationError CategoryInvalidEnvelope path message in
  reject latestPhase md ix != "blocked" with
    NewValidationError CategoryCommandConflict "phase" "session is not blocked";;
  reject le_actor spec != md_moderator md with
    NewValidationError CategoryPrincipalInvalid "actor" "only the moderator may extend limits";;
  reject le_authorized_by spec != "user" with
    NewValidationError CategoryPrincipalInvalid "authorized_by" "limits extend requires user authorization";;
  let bad_reference := invalid "blocked_event" "limits extend requires a session_budget_exceeded blocked event" in
  match eventByID ix (le_blocked_event spec) with
  | None => Err bad_reference
  | Some blocking =>
      reject ev_type blocking != "session_budget_exceeded" with bad_reference;;
      reject bool_decide (le_changes spec = ∅) with invalid "changes" "limits changes are required";;
      let resume := payloadStringDefault (pl blocking) "resume_phase" "" in
      let resumePhase := if resume == "" then payloadStringDefault (pl blocking) "prior_phase" "working" else resume in
      reject negb (validPhase (md_session_type md) resumePhase) || (statusFromPhase resumePhase != StatusOpen) with
        invalid "resume_phase" "blocking event has invalid resume_phase";;
      let base : payload :=
        {[ "authorized_by" := AStr (le_authorized_by spec); "blocked_event_id" := AStr (le_blocked_event spec);
           "changes" := AMap (le_changes spec); "resume_phase" := AStr resumePhase ]} in
      Ok (Propose (session_event md (default_command "cmd_limits_extend_" clock (le_now spec) (le_command_id spec))
        (le_blocked_event spec)
        (mk_transition "limits_extended" resumePhase (le_actor spec) (allParticipants md)
           (if is_blank (le_reason spec) then base else <["reason" := AStr (trim_space (le_reason spec))]> base))
        (event_time clock (le_now spec))))
  end.

#[global] Instance ExtendLimits : Command LimitsExtendSpec := {
  precheck _ _ := Ok tt; respond := extend_decide }.

(** ** Escalation batches *)

Record EscalationBatchSummary := mk_batch {
  eb_batch_id : string; eb_pending : Z; eb_first_event : string; eb_deadline : string;
  eb_phase : string; eb_can_flush : bool; eb_latest_event : string }.

Definition batch_add (batchID : string) (e : EventEnvelope) (b : option EscalationBatchSummary) : EscalationBatchSummary :=
  let b0 := default (mk_batch batchID 0 (ev_event_id e) "" "" true "") b in
  mk_batch (eb_batch_id b0) (wrap64 (eb_pending b0 + 1)) (eb_first_event b0)
    (payloadStringDefault (pl e) "batch_deadline_at" (eb_deadline b0))
    (payloadStringDefault (pl e) "prior_phase" (ev_phase e)) (eb_can_flush b0) (ev_event_id e).

Definition batch_step (batches : gmap string EscalationBatchSummary) (e : EventEnvelope)
    : gmap string EscalationBatchSummary :=
  let batchID := payloadStringDefault (pl e) "batch_id" "" in
  if batchID == "" then batches
  else if ev_type e == "escalation_batched" then
    <[batchID := batch_add batchID e (batches !! batchID)]> batches
  else if mem_str (ev_type e) ["user_escalation_requested"; "escalation_rate_limited"] then
    match batches !! batchID with
    | Some b => <[batchID := mk_batch (eb_batch_id b) 0 (eb_first_event b) (eb_deadline b) (eb_phase b) false
                               (ev_event_id e)]> batches
    | None => batches
    end
  else batches.

Definition batches_of (evs : list EventEnvelope) : gmap string EscalationBatchSummary :=
  foldl batch_step ∅ evs.

(** The pending batches in id order. *)
Definition ListEscalationBatches (ix : LogIndex) : list EscalationBatchSummary :=
  map snd (List.filter (fun kb => 0 <? eb_pending kb.2) (sorted_entries (batches_of (ix_events ix)))).
