(* ===== verification/DelegationTheory.v ===== *)
(** * Correctness of delegation sessions and session control

    The handlers of Delegation.v are lawful commands that respect termination;
    what their proposals look like, when a delegation can end, that retries are
    answered after the phase has moved on, and that blocking and resuming
    return to the phase they left. *)

From S2P Require Import Prelude GoValue GoTime Model Ids Evidence Events EventLog LogSpec Command Delegation Fixtures.

#[local] Arguments delegationTransition : simpl never.
#[local] Arguments validateDelegationPayload : simpl never.
#[local] Arguments allowedString : simpl never.

(** ** Command ids are never empty *)

Lemma nonblank_ne s : is_blank s = false -> s <> "".
Proof. by intros H ->. Qed.

Lemma default_command_ne p a clock now c : default_command (String a p) clock now c <> "".
Proof. unfold default_command. destruct (is_blank c) eqn:E; [done | by apply nonblank_ne]. Qed.

Lemma deleg_command_id_ne spec : deleg_command_id spec <> "".
Proof. unfold deleg_command_id. destruct (is_blank _) eqn:E; [done | by apply nonblank_ne]. Qed.

(** ** The handlers are lawful *)

Lemma replay_command_answers ix e a :
  replay_command ix e = Some (Ok a) -> answers ix (ev_command_id e) a.
Proof.
  unfold replay_command. destruct (find_from _ 0 (ix_events ix)) as [[i x]|] eqn:Hf; [|done].
  destruct (commandEquivalent x e); [|done]. intros [= <-].
  apply find_from_spec in Hf as (_ & Hl & Hp & _). rewrite Nat.sub_0_r in Hl.
  exists i, x. by apply String.eqb_eq in Hp.
Qed.

Lemma deleg_replay_answers md ix action spec cmd p a :
  replayExistingDelegationCommand md ix action spec cmd p = Some (Ok a) -> answers ix cmd a.
Proof.
  unfold replayExistingDelegationCommand. destruct (_ || _); [done|].
  destruct (find_from _ 0 (ix_events ix)) as [[i x]|] eqn:Hf; [|done].
  intros H. injection H as H. run_inv H. subst.
  apply find_from_spec in Hf as (_ & Hl & Hp & _). rewrite Nat.sub_0_r in Hl.
  exists i, x. by apply String.eqb_eq in Hp.
Qed.

(** What a delegation command proposes. *)
Lemma deleg_propose_ok clock md ix spec e :
  deleg_propose clock md ix spec = Ok e ->
  exists t p,
    terminal_phase (latestPhase md ix) = false /\
    delegationTransition md ix (latestPhase md ix) (trim_space (ds_action spec)) spec
      (deleg_command_id spec) (default ∅ (ds_payload spec)) = Ok t /\
    validateDelegationPayload (trim_space (ds_action spec)) p = Ok tt /\
    (ds_artifact_paths spec = [] -> p = tr_payload t) /\
    e = session_event md (deleg_command_id spec) (trim_space (ds_causation spec))
          (sort_to (mk_transition (tr_type t) (tr_phase t) (tr_from t) (tr_to t) p))
          (event_time clock (ds_now spec)).
Proof.
  unfold deleg_propose. cbv zeta. intros H.
  destruct (terminal_phase _) eqn:Hterm; [done|].
  run_step H. run_step H. run_step H. run_step H. run_step H. subst e.
  exists a, a0. destruct a1. repeat split; try done.
  intros Hp. rewrite Hp in Hrun0. by injection Hrun0.
Qed.

Lemma deleg_decide_propose clock md ix spec e :
  deleg_decide clock md ix spec = Ok (Propose e) -> deleg_propose clock md ix spec = Ok e.
Proof.
  unfold deleg_decide. cbv zeta. destruct (_ == ""); [done|].
  destruct (replayExistingDelegationCommand _ _ _ _ _ _) as [[]|]; [done..|].
  by destruct (deleg_propose clock md ix spec); [intros [= ->]|].
Qed.

#[global] Instance delegation_lawful : LawfulCommand DelegationEventSpec.
Proof.
  split.
  - intros clock md ix spec e (t & p & _ & _ & _ & _ & ->)%deleg_decide_propose%deleg_propose_ok.
    repeat split. apply deleg_command_id_ne.
  - intros clock md ix spec a H. exists (deleg_command_id spec). simpl in H. unfold deleg_decide in H.
    destruct (_ == ""); [done|].
    destruct (replayExistingDelegationCommand _ _ _ _ _ _) as [r|] eqn:Hr.
    + destruct r as [b|]; [|done]. injection H as ->. by eapply deleg_replay_answers.
    + by destruct (deleg_propose clock md ix spec).
Qed.

#[global] Instance delegation_terminal_safe : TerminalSafe DelegationEventSpec.
Proof.
  intros clock md ix spec e (t & p & Hterm & _)%deleg_decide_propose%deleg_propose_ok. congruence.
Qed.

#[global] Instance cancel_lawful : LawfulCommand SessionCancelSpec.
Proof.
  split; intros clock md ix spec; simpl; unfold cancel_decide.
  - intros e H. run_step H. run_step H. destruct (replay_command ix _) as [[]|]; [done..|].
    run_inv H. injection H as <-. repeat split. apply default_command_ne.
  - intros a H. exists (ev_command_id (cancel_event clock md spec)). run_step H. run_step H.
    destruct (replay_command ix _) as [[b|]|] eqn:Hr; [|done|by run_inv H].
    injection H as ->. by apply replay_command_answers.
Qed.

#[global] Instance cancel_terminal_safe : TerminalSafe SessionCancelSpec.
Proof.
  intros clock md ix spec e H Hterm. simpl in H. unfold cancel_decide in H. run_step H. run_step H.
  destruct (replay_command ix _) as [[]|]; [done..|]. by rewrite Hterm in H.
Qed.

#[global] Instance block_lawful : LawfulCommand SessionBlockSpec.
Proof.
  split; intros clock md ix spec x; simpl; unfold block_decide; intros H; run_inv H; try done;
    injection H as <-; (repeat split); apply default_command_ne.
Qed.

#[global] Instance block_terminal_safe : TerminalSafe SessionBlockSpec.
Proof. intros clock md ix spec e H Hterm. simpl in H. unfold block_decide in H. by rewrite Hterm in H. Qed.

#[global] Instance resume_lawful : LawfulCommand SessionResumeSpec.
Proof.
  split; intros clock md ix spec x; simpl; unfold resume_decide; intros H; run_inv H; try done;
    injection H as <-; (repeat split); apply default_command_ne.
Qed.

Lemma blocked_open p : (p != "blocked") = false -> terminal_phase p = false.
Proof. intros H. bool_prop. by subst. Qed.

#[global] Instance resume_terminal_safe : TerminalSafe SessionResumeSpec.
Proof.
  intros clock md ix spec e H Hterm. simpl in H. unfold resume_decide in H. run_step H.
  apply blocked_open in Hguard. congruence.
Qed.

#[global] Instance extend_lawful : LawfulCommand LimitsExtendSpec.
Proof.
  split; intros clock md ix spec x; simpl; unfold extend_decide; intros H; run_inv H; try done;
    injection H as <-; (repeat split); apply default_command_ne.
Qed.

#[global] Instance extend_terminal_safe : TerminalSafe LimitsExtendSpec.
Proof.
  intros clock md ix spec e H Hterm. simpl in H. unfold extend_decide in H. run_step H.
  apply blocked_open in Hguard. congruence.
Qed.

(** ** The phase machine of a delegation *)

(** The moves of a delegation that its phase alone allows. *)
Definition delegation_moves : moves :=
  [("assignee_acknowledged", (["assigned"], "acknowledged"));
   ("clarification_requested", (["acknowledged"; "working"; "revision_requested"], "needs_clarification"));
   ("clarification_answered", (["needs_clarification"; "waiting_user"], "working"));
   ("assignee_update", (["acknowledged"; "working"; "revision_requested"], "working"));
   ("work_submitted", (["acknowledged"; "working"; "revision_requested"], "submitted"));
   ("review_requested", (["submitted"], "under_review"));
   ("review_clarification_requested", (["under_review"], "under_review"));
   ("review_clarification_answered", (["under_review"], "under_review"));
   ("review_submitted", (["under_review"], "under_review"));
   ("revision_requested", (["under_review"], "revision_requested"));
   ("work_accepted", (["submitted"; "under_review"], "accepted"))].

(** What session control may do, in a session of any type: a block records the
    phase it interrupts, and a session goes on in the phase that a blocking event
    of its log recorded. *)
Inductive control_rule (log : list EventEnvelope) (e : EventEnvelope) : Prop :=
| rule_cancel :
    ev_type e = "session_cancelled" -> ev_phase e = "cancelled" -> terminal_phase (log_phase log) = false -> control_rule log e
| rule_block :
    ev_type e = "session_blocked" -> ev_phase e = "blocked" -> terminal_phase (log_phase log) = false ->
    log_phase log <> "blocked" -> payloadStringDefault (pl e) "resume_phase" "" = log_phase log -> control_rule log e
| rule_resume b :
    ev_type e = "session_resumed" -> log_phase log = "blocked" -> b ∈ log -> ev_phase b = "blocked" ->
    ev_type b ∈ ["session_blocked"; "security_violation"; "escalation_timeout"] ->
    ev_phase e = payloadStringDefault (pl b) "resume_phase" "" -> terminal_phase (ev_phase e) = false ->
    ev_phase e <> "blocked" -> control_rule log e
| rule_extend b :
    ev_type e = "limits_extended" -> log_phase log = "blocked" -> b ∈ log -> ev_type b = "session_budget_exceeded" ->
    ev_phase e ∈ [payloadStringDefault (pl b) "resume_phase" ""; payloadStringDefault (pl b) "prior_phase" "working"] ->
    statusFromPhase (ev_phase e) = StatusOpen -> control_rule log e.

(** The rules of a delegation.  The answer to an escalation leads to the phase that
    the request recorded. *)
Inductive delegation_rule (log : list EventEnvelope) (e : EventEnvelope) : Prop :=
| rule_move : in_table delegation_moves log e -> delegation_rule log e
| rule_note :
    ev_type e ∈ ["delegation_message"; "assignee_update_requested"; "escalation_batched"] ->
    ev_phase e = log_phase log -> terminal_phase (log_phase log) = false -> delegation_rule log e
| rule_escalate :
    ev_type e = "user_escalation_requested" -> ev_phase e = "waiting_user" -> terminal_phase (log_phase log) = false ->
    delegation_rule log e
| rule_resolve b :
    ev_type e = "user_escalation_resolved" -> log_phase log = "waiting_user" -> b ∈ log ->
    ev_type b = "user_escalation_requested" -> ev_phase e = payloadStringDefault (pl b) "resume_phase" "working" ->
    delegation_rule log e
| rule_control : control_rule log e -> delegation_rule log e.

Lemma requirePhase_ok action current allowed r :
  requirePhase action current allowed = Ok r -> current ∈ allowed.
Proof. unfold requirePhase. intros H. run_step H. by apply mem_str_spec. Qed.

(** Opens a successful transition: one goal per action that can produce it. *)
Ltac open_transition H :=
  unfold delegationTransition in H; cbv zeta in H; run_inv H;
  repeat match goal with
  | R : requirePhase _ _ _ = Ok _ |- _ => apply requirePhase_ok in R
  end; subst; cbn [tr_type tr_phase tr_from tr_to tr_payload].

(** The rule of each action, for the event made of its transition. *)
Lemma delegationTransition_rule md ix action spec cmd p t e :
  terminal_phase (log_phase (ix_events ix)) = false -> delegationTransition md ix (log_phase (ix_events ix)) action spec cmd p = Ok t ->
  ev_type e = tr_type t -> ev_phase e = tr_phase t -> delegation_rule (ix_events ix) e.
Proof.
  intros Hterm H Ht Hp. open_transition H; cbn [tr_type tr_phase] in Ht, Hp.
  all: try (apply rule_move; rewrite <- ?Hp;
       match goal with R : log_phase _ ∈ ?l |- _ => exists l; rewrite Ht, Hp; split; [|exact R] end;
       first [apply (bool_decide_unpack _); vm_compute; exact I
             | apply list_elem_of_singleton in Hrun as ->; apply (bool_decide_unpack _); vm_compute; exact I]).
  all: try (apply rule_note; [rewrite Ht; set_solver|done|done]).
  all: try (by apply rule_escalate).
  apply list_elem_of_singleton in Hrun. unfold eventByIDAndType in *.
  match goal with R : find_first _ _ = Some ?b |- _ => apply List.find_some in R as [Hin Heq]; bool_prop; eapply (rule_resolve _ _ b) end;
    [done..|by apply list_elem_of_In|done|done].
Qed.

(** When a delegation command ends the session. *)
Lemma delegationTransition_terminal md ix current action spec cmd p t :
  terminal_phase current = false ->
  delegationTransition md ix current action spec cmd p = Ok t -> terminal_phase (tr_phase t) = true ->
  (tr_type t = "work_accepted" /\ tr_phase t = "accepted" /\ current ∈ ["submitted"; "under_review"]) \/
  (tr_type t = "user_escalation_resolved" /\ current = "waiting_user" /\
   exists x, eventByIDAndType ix (ds_causation spec) "user_escalation_requested" = Some x /\
     tr_phase t = payloadStringDefault (pl x) "resume_phase" "working").
Proof.
  intros Hterm H Hend. open_transition H; cbn [tr_phase] in Hend; try congruence; try discriminate Hend.
  - left. done.
  - right. apply list_elem_of_singleton in Hrun. eauto.
Qed.

(** How a delegation command ends a session: only by accepting submitted or
    reviewed work, or by resolving an escalation whose request recorded a
    terminal phase to resume to. *)
Theorem delegation_ends_by_acceptance clock md ix (spec : DelegationEventSpec) e :
  respond clock md ix spec = Ok (Propose e) -> terminal_phase (ev_phase e) = true ->
  (ev_type e = "work_accepted" /\ ev_phase e = "accepted" /\
   latestPhase md ix ∈ ["submitted"; "under_review"]) \/
  (ev_type e = "user_escalation_resolved" /\ latestPhase md ix = "waiting_user" /\
   exists x, eventByIDAndType ix (ds_causation spec) "user_escalation_requested" = Some x /\
     ev_phase e = payloadStringDefault (pl x) "resume_phase" "working").
Proof.
  intros H Hend. apply deleg_decide_propose, deleg_propose_ok in H as (t & p & Hterm & Ht & _ & _ & ->).
  by apply (delegationTransition_terminal _ _ _ _ _ _ _ _ Hterm Ht).
Qed.

(** Session control, common to both types of session. *)
Abbreviation session_control :=
  (SessionCancelSpec + (SessionBlockSpec + (SessionResumeSpec + LimitsExtendSpec)))%type.

(** Everything that can be asked of a delegation session. *)
Abbreviation delegation_command := (DelegationEventSpec + session_control)%type.

Lemma open_phase p : statusFromPhase p = StatusOpen -> terminal_phase p = false /\ p <> "blocked".
Proof. intros H. unfold terminal_phase. rewrite H. split; [done|]. by intros ->. Qed.

(** What a control command proposes, by the phase it finds and the phase it leaves. *)
Lemma control_phase clock md ix (c : session_control) e :
  respond clock md ix c = Ok (Propose e) ->
  (ev_type e = "session_cancelled" /\ ev_phase e = "cancelled" /\ terminal_phase (latestPhase md ix) = false) \/
  (ev_type e = "session_blocked" /\ ev_phase e = "blocked" /\
   terminal_phase (latestPhase md ix) = false /\ latestPhase md ix <> "blocked") \/
  (ev_type e ∈ ["session_resumed"; "limits_extended"] /\ latestPhase md ix = "blocked" /\
   terminal_phase (ev_phase e) = false /\ ev_phase e <> "blocked").
Proof.
  destruct c as [spec|[spec|[spec|spec]]]; simpl; intros H.
  - unfold cancel_decide in H. run_step H. run_step H.
    destruct (replay_command ix _) as [[]|]; [done..|]. run_inv H. injection H as <-. by left.
  - unfold block_decide in H. run_inv H. injection H as <-. bool_prop. right. by left.
  - unfold resume_decide in H. run_inv H. injection H as <-. bool_prop. right. right.
    repeat split; try done. set_solver.
  - unfold extend_decide in H. run_inv H; injection H as <-; bool_prop; right; right;
      match goal with R : statusFromPhase _ = StatusOpen |- _ => apply open_phase in R as [??] end;
      repeat split; try done; set_solver.
Qed.


Ltac facts_of Happ :=
  match goal with
  | |- control_rule _ (appended _ _ (session_event _ ?cmd ?cause ?t ?now)) => destruct (Happ t cmd cause now) as (Hty & Hph & Hpl)
  end.

Lemma control_command_rule clock md ix (c : session_control) e :
  ix_events ix <> [] -> respond clock md ix c = Ok (Propose e) -> control_rule (ix_events ix) (appended md ix e).
Proof.
  intros Hne. pose proof (latestPhase_log md ix Hne) as Hp.
  assert (Happ : forall t cmd cause now, ev_type (appended md ix (session_event md cmd cause t now)) = tr_type t /\
    ev_phase (appended md ix (session_event md cmd cause t now)) = tr_phase t /\
    (tr_type t <> "speech" -> pl (appended md ix (session_event md cmd cause t now)) = json_norm <$> tr_payload t)).
  { intros t cmd cause now. destruct (appended_fields md ix (session_event md cmd cause t now)) as (_ & _ & _ & -> & -> & _).
    split; [done|]. split; [done|]. intros Hty. by apply appended_payload. }
  destruct c as [spec|[spec|[spec|spec]]]; simpl; intros H.
  - unfold cancel_decide in H. run_step H. run_step H.
    destruct (replay_command ix _) as [[]|]; [done..|]. run_inv H. injection H as <-. bool_prop. rewrite Hp in *.
    unfold cancel_event. facts_of Happ. by apply rule_cancel.
  - unfold block_decide in H. run_inv H. injection H as <-. bool_prop. rewrite Hp in *. facts_of Happ.
    apply rule_block; try done. rewrite Hpl, payloadStringDefault_norm by done. reflexivity.
  - unfold resume_decide in H. run_inv H. injection H as <-. bool_prop. rewrite Hp in *. facts_of Happ.
    match goal with R : eventByID ix _ = Some ?b |- _ => apply eventByID_Some in R as [Hin _]; apply (rule_resume _ _ b) end;
      try done; rewrite ?Hph; try done. by apply mem_str_spec.
  - unfold extend_decide in H. run_inv H; injection H as <-; bool_prop; rewrite Hp in *; facts_of Happ;
      match goal with R : eventByID ix _ = Some ?b |- _ => apply eventByID_Some in R as [Hin _]; apply (rule_extend _ _ b) end;
      try done; rewrite Hph; cbn [tr_phase]; try done;
      destruct (_ == ""); first [apply list_elem_of_here | apply list_elem_of_further, list_elem_of_here].
Qed.

Lemma delegation_command_rule clock md ix (c : delegation_command) e :
  ix_events ix <> [] -> respond clock md ix c = Ok (Propose e) -> delegation_rule (ix_events ix) (appended md ix e).
Proof.
  intros Hne. destruct c as [spec|c]; [|intros H; by eapply rule_control, (control_command_rule clock md ix c)].
  intros (t & p & Hterm & Ht & _ & _ & ->)%deleg_decide_propose%deleg_propose_ok. rewrite (latestPhase_log md ix Hne) in *.
  match goal with |- delegation_rule _ (appended md ix ?e) => destruct (appended_fields md ix e) as (_ & _ & _ & Hph & Hty & _) end.
  by eapply delegationTransition_rule.
Qed.

(** C22. A delegation keeps its rules: over any run of delegation and session-control
    commands, under any faults, the log only grows, and each event that is added is
    one that its type, the phase of the log before it and, where it ends a block
    or an escalation, the event that it answers allow: submitted or reviewed work
    is accepted, a resumed session is in the phase that the block interrupted, and
    so on for all types of event. *)
Theorem delegation_refines_phase_machine name w w' ix ix' :
  rtc (command_step (C := delegation_command) name) w w' -> reads w name ix -> ix_events ix <> [] ->
  reads w' name ix' ->
  exists tail, ix_events ix' = ix_events ix ++ tail /\ obeys delegation_rule (ix_events ix) tail.
Proof. apply command_run_rule, delegation_command_rule. Qed.

(** ** Retries after the phase has moved on *)

(** A log that extends another answers its id look-ups the same way. *)
Lemma eventByIDAndType_extend ix ix' tail id ty x :
  ix_events ix' = ix_events ix ++ tail -> eventByIDAndType ix id ty = Some x ->
  eventByIDAndType ix' id ty = Some x.
Proof.
  unfold eventByIDAndType, find_first. intros ->. induction (ix_events ix) as [|y l IH]; simpl; [done|].
  by destruct (_ && _).
Qed.

Lemma delegationTransition_extend md md' ix ix' tail current action spec cmd p t :
  same_session md' md -> ix_events ix' = ix_events ix ++ tail ->
  delegationTransition md ix current action spec cmd p = Ok t ->
  delegationTransition md' ix' current action spec cmd p = Ok t.
Proof.
  intros Hs Hix H.
  assert (Hmd : forall i, delegationTransition md' i current action spec cmd p =
                          delegationTransition md i current action spec cmd p).
  { intros i. open_session Hs. reflexivity. }
  rewrite Hmd. clear Hmd. unfold delegationTransition, mbind, result_bind in *. cbv zeta in *.
  repeat first
    [ lazymatch type of H with
      | match requirePhase ?a ?c ?l with _ => _ end = _ => destruct (requirePhase a c l)
      | match eventByIDAndType ix ?i ?ty with _ => _ end = _ =>
          let E := fresh "E" in
          destruct (eventByIDAndType ix i ty) eqn:E; [rewrite (eventByIDAndType_extend _ _ _ _ _ _ Hix E)|]
      | (if ?b then _ else _) = _ => destruct b
      end
    | discriminate H
    | exact H ].
Qed.

(** The transition writes only strings, booleans and string lists. *)
Definition payload_stable (p : payload) : Prop := forall k v, p !! k = Some v -> log_stable v.

Lemma payload_stable_insert p k v : log_stable v -> payload_stable p -> payload_stable (<[k := v]> p).
Proof. intros Hv Hp k' v' Hk. apply lookup_insert_Some in Hk as [[_ <-]|[_ Hk]]; [done | by eapply Hp]. Qed.

Lemma payload_stable_empty : payload_stable ∅.
Proof. intros k v Hk. by rewrite lookup_empty in Hk. Qed.

#[export] Hint Resolve payload_stable_insert payload_stable_empty : atn.
#[export] Hint Constructors log_stable : atn.

Lemma escalate_payload_stable current causation p :
  payload_stable p -> payload_stable (escalate_payload current causation p).
Proof.
  intros Hp. unfold escalate_payload. cbv zeta.
  destruct (_ && _); destruct (_ || _); eauto 7 with atn.
Qed.

Lemma delegationTransition_stable md ix current action spec cmd p t :
  payload_stable p -> delegationTransition md ix current action spec cmd p = Ok t ->
  payload_stable (tr_payload t).
Proof.
  intros Hp H. open_transition H; try done.
  all: unfold batch_payload; cbv zeta; eauto 8 using escalate_payload_stable with atn.
Qed.

Lemma latestPhase_last md ix l x :
  ix_events ix = l -> last l = Some x -> latestPhase md ix = ev_phase x.
Proof. unfold latestPhase. by intros -> ->. Qed.


Lemma deleg_replay_hit md ix l x tail action spec cmd p t y :
  is_blank cmd = false -> ds_artifact_paths spec = [] -> ix_events ix = l ++ x :: tail -> last l = Some y ->
  (forall z, z ∈ l -> ev_command_id z <> cmd) -> ev_command_id x = cmd ->
  delegationTransition md ix (ev_phase y) action spec cmd p = Ok t ->
  validateDelegationPayload action (tr_payload t) = Ok tt ->
  commandEquivalent x (session_event md cmd (trim_space (ds_causation spec)) (sort_to t) zero_time) = true ->
  replayExistingDelegationCommand md ix action spec cmd p = Some (Ok (existing_result (length l) x)).
Proof.
  intros Hb Ha Hix Hlast Hl Hx Ht Hv He. unfold replayExistingDelegationCommand. rewrite Hb, Ha. simpl.
  rewrite Hix, find_from_at; [|intros z Hz; by apply String.eqb_neq, Hl|by apply String.eqb_eq]. simpl.
  destruct l as [|z l]; [done|]. simpl length. cbn iota beta.
  rewrite last_lookup in Hlast. simpl in Hlast.
  rewrite lookup_app_l, Hlast by (simpl; lia). cbv zeta. rewrite Ht. simpl. rewrite Hv. simpl. by rewrite He.
Qed.

Lemma delegationTransition_not_speech md ix current action spec cmd p t :
  delegationTransition md ix current action spec cmd p = Ok t -> tr_type t <> "speech".
Proof. intros H. by open_transition H. Qed.

(** The stored form of a transition's event equals any later rebuild of it. *)
Lemma session_event_equivalent md md' ix cmd causation t now now' :
  same_session md' md -> payload_stable (tr_payload t) -> tr_type t <> "speech" ->
  commandEquivalent (appended md ix (session_event md cmd causation (sort_to t) now))
    (session_event md' cmd causation (sort_to t) now') = true.
Proof.
  intros Hs Hp Ht. unfold appended. rewrite prepare_non_speech by done.
  apply commandEquivalent_retry.
  - split; [apply sort_strings_idemp | exact Hp].
  - destruct Hs as (Hid & Hty & _). unfold same_command, session_event. simpl. by rewrite Hid, Hty.
Qed.

(** Retries survive progress: a delegation command without artifacts that
    was appended is answered, whatever has been appended since and although
    the phase gate would now refuse it, with the cursor of its event. *)
Theorem delegation_retry_after_progress name w ix clock spec f w1 a w2 ix2 tail clock2 now2 f2 :
  reads w name ix -> ix_events ix <> [] ->
  is_blank (ds_command_id spec) = false -> ds_artifact_paths spec = [] ->
  payload_stable (default ∅ (ds_payload spec)) ->
  run_command name w clock spec f = (w1, Ok (a, false)) ->
  same_session (wd_md w2) (wd_md w) -> reads w2 name ix2 ->
  (forall ix1, reads w1 name ix1 -> ix_events ix2 = ix_events ix1 ++ tail) ->
  let retry := mk_deleg_spec (ds_action spec) (ds_actor spec) (ds_recipients spec) (ds_command_id spec)
    (ds_causation spec) (ds_payload spec) [] (ds_ingested spec) now2 in
  run_command name w2 clock2 retry f2 = (w2, Ok (a, true)).

Proof.
  intros Hix Hne Hb Ha Hst Hrun Hs Hix2 Htail. cbv zeta.
  apply run_command_cases in Hrun as [[_ Hno]|(ix' & e & Hix' & Hd & Happ & Hpre)];
    [by destruct (Hno a)|].
  rewrite (reads_fun _ _ _ _ Hix' Hix) in *. clear ix' Hix'.
  destruct (appendIdempotentEvent_ok _ _ _ _ _ _ _ Hix Happ) as (Hr1 & -> & Hnew).
  specialize (Htail _ Hr1). cbn [index_add ix_events] in Htail. rewrite <- app_assoc in Htail. simpl in Htail.
  pose proof Hd as Hact. simpl in Hact. unfold deleg_decide in Hact. cbv zeta in Hact.
  destruct (trim_space (ds_action spec) == "") eqn:Haction; [done|]. clear Hact.
  apply deleg_decide_propose, deleg_propose_ok in Hd as (t & p & _ & Ht & Hv & Hp & ->).
  rewrite (Hp Ha) in *. clear p Hp.
  assert (Hid : deleg_command_id spec = ds_command_id spec) by (unfold deleg_command_id; by rewrite Hb).
  rewrite Hid in *. unfold session_event in Hnew. simpl in Hnew.
  destruct Hnew as [Hz|Hnew]; [by rewrite Hz in Hb|].
  destruct (last (ix_events ix)) as [y|] eqn:Hlast; [|by apply last_None in Hlast].
  rewrite (latestPhase_last _ _ _ _ eq_refl Hlast) in Ht.
  set (retry := mk_deleg_spec _ _ _ _ _ _ _ _ _).
  assert (Hid2 : deleg_command_id retry = ds_command_id spec) by (unfold deleg_command_id; simpl; by rewrite Hb).
  assert (Hreplay : replayExistingDelegationCommand (wd_md w2) ix2 (trim_space (ds_action spec)) retry
            (ds_command_id spec) (default ∅ (ds_payload spec)) =
          Some (Ok (existing_result (length (ix_events ix)) (appended (wd_md w) ix
            (session_event (wd_md w) (ds_command_id spec) (trim_space (ds_causation spec)) (sort_to t)
               (event_time clock (ds_now spec))))))).
  { apply (deleg_replay_hit _ _ _ _ tail _ _ _ _ t y);
      [exact Hb | reflexivity | exact Htail | exact Hlast | exact Hnew | | | exact Hv |].
    - apply appended_command.
    - change (delegationTransition (wd_md w2) ix2 (ev_phase y) (trim_space (ds_action spec)) spec
        (ds_command_id spec) (default ∅ (ds_payload spec)) = Ok t).
      by eapply delegationTransition_extend.
    - apply session_event_equivalent; [done| |].
      + by eapply delegationTransition_stable.
      + by eapply delegationTransition_not_speech. }
  unfold run_command. simpl. simpl in Hpre. destruct Hix2 as (sd2 & Hsd2 & Hr2).
  assert (Hty : md_session_type (wd_md w2) = md_session_type (wd_md w)) by apply Hs.
  rewrite Hty. destruct (md_session_type (wd_md w) == _); [|done]. rewrite Hsd2, Hr2.
  unfold deleg_decide. cbv zeta. rewrite Hid2. change (ds_action retry) with (ds_action spec).
  change (ds_payload retry) with (ds_payload spec). rewrite Haction, Hreplay. simpl. unfold existing_result.
  pose proof (appended_fields (wd_md w) ix (session_event (wd_md w) (ds_command_id spec)
    (trim_space (ds_causation spec)) (sort_to t) (event_time clock (ds_now spec)))) as [Hev _].
  by rewrite Hev.
Qed.

(** ** Blocking and resuming *)

Lemma envelope_valid_phase md e : envelope_issues md e = [] -> validPhase (ev_session_type e) (ev_phase e) = true.
Proof. unfold envelope_issues. rewrite !app_nil, !issue_when_nil. intros H. destruct_and?. by bool_prop. Qed.

Lemma envelope_session_type md e : envelope_issues md e = [] -> ev_session_type e = md_session_type md.
Proof. unfold envelope_issues. rewrite !app_nil, !issue_when_nil. intros H. destruct_and?. by bool_prop. Qed.

(** The phase of a readable, non-empty log is a phase of the session type. *)
Lemma reads_valid_phase w name ix :
  reads w name ix -> ix_events ix <> [] ->
  validPhase (md_session_type (wd_md w)) (latestPhase (wd_md w) ix) = true.
Proof.
  intros (sd & _ & Hr) Hne. apply ReadLogIndex_ok in Hr as (_ & _ & Hall).
  unfold latestPhase. destruct (last (ix_events ix)) as [e|] eqn:E; [|by apply last_None in E].
  apply last_Some_elem_of in E. rewrite Forall_forall in Hall. specialize (Hall e E).
  rewrite <- (envelope_session_type _ _ Hall). by eapply envelope_valid_phase.
Qed.

Lemma valid_phase_nonempty ty p : validPhase ty p = true -> p <> "".
Proof.
  unfold validPhase. intros H ->. destruct (ty == SessionTypeDelegation); [done|].
  by destruct (ty == SessionTypeCouncil).
Qed.

Lemma eventByID_added ix e :
  ev_event_id e ∉ map ev_event_id (ix_events ix) -> eventByID (index_add ix e) (ev_event_id e) = Some e.
Proof.
  unfold eventByID, find_first, index_add. cbn [ix_events]. intros Hnew.
  induction (ix_events ix) as [|x l IH]; simpl; [by rewrite String.eqb_refl|].
  destruct (ev_event_id x == ev_event_id e) eqn:E.
  - apply String.eqb_eq in E. simpl in Hnew. set_solver.
  - apply IH. simpl in Hnew. set_solver.
Qed.

Lemma block_decide_ok clock md ix spec e :
  block_decide clock md ix spec = Ok (Propose e) ->
  terminal_phase (latestPhase md ix) = false /\ latestPhase md ix <> "blocked" /\
  ev_phase e = "blocked" /\ ev_type e = "session_blocked" /\
  payloadStringDefault (pl e) "resume_phase" "" = latestPhase md ix.
Proof.
  unfold block_decide. intros H. run_inv H. injection H as <-. bool_prop. by repeat split.
Qed.

(** Blocking and resuming is a round trip: after a session is blocked, a
    resume by the moderator that names the blocking event and gives a reason is
    accepted and proposes the phase the session was in before the block. *)
Theorem block_resume_round_trip name w ix clock (spec : SessionBlockSpec) w1 a :
  reads w name ix -> ix_events ix <> [] ->
  run_command name w clock spec None = (w1, Ok (a, false)) ->
  exists ix1, reads w1 name ix1 /\ latestPhase (wd_md w1) ix1 = "blocked" /\
    forall clock2 (rspec : SessionResumeSpec),
      rs_actor rspec = md_moderator (wd_md w) -> rs_blocked_event rspec = ar_event_id a ->
      is_blank (rs_reason rspec) = false ->
      exists e2, respond clock2 (wd_md w1) ix1 rspec = Ok (Propose e2) /\
        ev_phase e2 = latestPhase (wd_md w) ix.
Proof.
  intros Hix Hne Hrun.
  pose proof (run_command_same _ _ _ _ _ _ _ Hrun) as Hs.
  apply run_command_cases in Hrun as [[_ Hno]|(ix' & e & Hix' & Hd & Happ & _)]; [by destruct (Hno a)|].
  rewrite (reads_fun _ _ _ _ Hix' Hix) in *. clear ix' Hix'.
  destruct (appendIdempotentEvent_ok _ _ _ _ _ _ _ Hix Happ) as (Hr1 & -> & _).
  exists (index_add ix (appended (wd_md w) ix e)). split; [done|].
  apply block_decide_ok in Hd as (Hterm & Hnb & Hph & Hty & Hres).
  pose proof (appended_fields (wd_md w) ix e) as (Hid & _ & _ & Hph' & Hty' & _).
  assert (Hb : latestPhase (wd_md w1) (index_add ix (appended (wd_md w) ix e)) = "blocked")
    by (unfold index_add; rewrite latestPhase_app; congruence).
  split; [done|]. intros clock2 rspec Hactor Hev Hreason. simpl in Hev. simpl. unfold resume_decide.
  assert (Hmod : md_moderator (wd_md w1) = md_moderator (wd_md w)) by apply Hs.
  assert (Hsty : md_session_type (wd_md w1) = md_session_type (wd_md w)) by apply Hs.
  assert (Hfind : eventByID (index_add ix (appended (wd_md w) ix e)) (rs_blocked_event rspec) =
            Some (appended (wd_md w) ix e)).
  { rewrite Hev, <- Hid. apply eventByID_added. apply reads_index_ok in Hr1 as [Hnd _].
    unfold index_add in Hnd. cbn [ix_events] in Hnd. rewrite map_app in Hnd.
    apply NoDup_app in Hnd as (_ & Hnd & _). intros Hin. apply (Hnd _ Hin). simpl. set_solver. }
  rewrite Hb, Hmod, Hsty, Hfind, Hactor, Hph', Hph, Hty', Hty, Hreason, !String.eqb_refl. simpl.
  assert (Hp : payloadStringDefault (pl (appended (wd_md w) ix e)) "resume_phase" "" = latestPhase (wd_md w) ix).
  { unfold appended. rewrite pl_norm, payloadStringDefault_norm, <- Hres.
    unfold pl. pose proof (finish_event_fields (prepareEventForAppend (wd_md w) ix e)) as Hf.
    cbv zeta in Hf. destruct_and?. rewrite prepare_non_speech in * by (rewrite Hty; done). congruence. }
  rewrite Hp, (reads_valid_phase _ _ _ Hix Hne), Hterm.
  pose proof (valid_phase_nonempty _ _ (reads_valid_phase _ _ _ Hix Hne)) as Hnz.
  apply String.eqb_neq in Hnz, Hnb. rewrite Hnz, Hnb. eexists. by split.
Qed.

(** ** Escalation batches *)

(** The events after the last one satisfying [p]. *)
Definition since_last (p : EventEnvelope -> bool) (l : list EventEnvelope) : list EventEnvelope :=
  foldl (fun acc x => if p x then [] else acc ++ [x]) [] l.

Definition of_batch (id : string) (e : EventEnvelope) : bool := payloadStringDefault (pl e) "batch_id" "" == id.

Definition batched (id : string) (e : EventEnvelope) : bool :=
  of_batch id e && (ev_type e == "escalation_batched").

Definition flushed (id : string) (e : EventEnvelope) : bool :=
  of_batch id e && mem_str (ev_type e) ["user_escalation_requested"; "escalation_rate_limited"].

Lemma wrap64_succ z : wrap64 (wrap64 z + 1) = wrap64 (z + 1).
Proof.
  unfold wrap64. replace ((z + 2 ^ 63) mod 2 ^ 64 - 2 ^ 63 + 1 + 2 ^ 63) with ((z + 2 ^ 63) mod 2 ^ 64 + 1) by lia.
  rewrite Zplus_mod_idemp_l. f_equal. f_equal. lia.
Qed.

Lemma since_last_snoc p l x : since_last p (l ++ [x]) = if p x then [] else since_last p l ++ [x].
Proof. unfold since_last. by rewrite foldl_app. Qed.

Lemma batches_of_snoc l x : batches_of (l ++ [x]) = batch_step (batches_of l) x.
Proof. unfold batches_of. by rewrite foldl_app. Qed.

Lemma find_first_snoc {A} (p : A -> bool) l x :
  find_first p (l ++ [x]) = match find_first p l with Some y => Some y | None => if p x then Some x else None end.
Proof. unfold find_first. induction l as [|y l IH]; simpl; [done|]. by destruct (p y). Qed.

(** The summary the log implies for one batch id. *)
Definition batch_summary_ok (id : string) (evs : list EventEnvelope) (b : EscalationBatchSummary) : Prop :=
  eb_batch_id b = id /\ 
  (exists x, find_first (batched id) evs = Some x /\ eb_first_event b = ev_event_id x) /\
  eb_pending b = wrap64 (len_z (List.filter (batched id) (since_last (flushed id) evs))).

Definition batch_close (x : EventEnvelope) (b : EscalationBatchSummary) : EscalationBatchSummary :=
  mk_batch (eb_batch_id b) 0 (eb_first_event b) (eb_deadline b) (eb_phase b) false (ev_event_id x).

Lemma batch_step_lookup m x id :
  id <> "" ->
  batch_step m x !! id =
    if batched id x then Some (batch_add id x (m !! id))
    else if flushed id x then batch_close x <$> m !! id else m !! id.
Proof.
  intros Hid. unfold batch_step, batched, flushed, of_batch. cbv zeta.
  destruct (String.eqb_spec (payloadStringDefault (pl x) "batch_id" "") id) as [->|Hne]; cbn [andb].
  - apply String.eqb_neq in Hid. rewrite Hid.
    destruct (ev_type x == "escalation_batched"); [by rewrite lookup_insert_eq|].
    destruct (mem_str _ _); [|done]. destruct (m !! id) eqn:E; simpl; [by rewrite lookup_insert_eq | done].
  - destruct (_ == ""); [done|]. destruct (ev_type x == "escalation_batched"); [by rewrite lookup_insert_ne|].
    destruct (mem_str _ _); [|done]. destruct (m !! payloadStringDefault _ _ _); [by rewrite lookup_insert_ne | done].
Qed.

Lemma batched_not_flushed id x : batched id x = true -> flushed id x = false.
Proof.
  unfold batched, flushed. intros H. apply andb_true_iff in H as [-> H]. apply String.eqb_eq in H. by rewrite H.
Qed.

Lemma len_z_snoc {A} (l : list A) x : len_z (l ++ [x]) = len_z l + 1.
Proof. unfold len_z. rewrite length_app. simpl. lia. Qed.

Lemma batches_lookup id evs :
  id <> "" ->
  match batches_of evs !! id with
  | Some b => batch_summary_ok id evs b
  | None => find_first (batched id) evs = None /\ List.filter (batched id) (since_last (flushed id) evs) = []
  end.
Proof.
  intros Hid. induction evs as [|x evs IH] using rev_ind; [by unfold batches_of; simpl; rewrite lookup_empty|].
  unfold batch_summary_ok in *.
  rewrite batches_of_snoc, !find_first_snoc, since_last_snoc, batch_step_lookup by done.
  destruct (batched id x) eqn:Hb.
  - rewrite (batched_not_flushed _ _ Hb), List.filter_app. simpl. rewrite Hb, len_z_snoc.
    destruct (batches_of evs !! id) as [b|]; simpl.
    + destruct IH as (-> & (y & -> & ->) & ->). rewrite wrap64_succ. eauto.
    + destruct IH as (-> & ->). eauto.
  - destruct (flushed id x) eqn:Hf; simpl.
    + destruct (batches_of evs !! id) as [b|]; simpl; [|by destruct IH as (-> & _)].
      destruct IH as (-> & (y & -> & ->) & _). eauto.
    + rewrite List.filter_app. simpl. rewrite Hb, app_nil_r.
      destruct (batches_of evs !! id) as [b|]; [|by destruct IH as (-> & ->)].
      destruct IH as (-> & (y & -> & ->) & ->). eauto.
Qed.

Lemma batches_domain id evs b : batches_of evs !! id = Some b -> id <> "".
Proof.
  revert b. induction evs as [|x evs IH] using rev_ind; intros b.
  { unfold batches_of. simpl. intros H. by rewrite lookup_empty in H. }
  rewrite batches_of_snoc. unfold batch_step. cbv zeta. destruct (_ == "") eqn:E; [by eauto|]. bool_prop.
  assert (Hins : forall v, <[payloadStringDefault (pl x) "batch_id" "" := v]> (batches_of evs) !! id = Some b -> id <> "").
  { intros v H. apply lookup_insert_Some in H as [[<- _]|[_ H]]; eauto. }
  destruct (ev_type x == "escalation_batched"); [by eauto|].
  destruct (mem_str _ _); [|by eauto]. destruct (batches_of evs !! payloadStringDefault _ _ _); eauto.
Qed.

(** The pending batches are those of the log: a summary is listed exactly
    when its batch has [escalation_batched] events after its last flush; it
    counts them (in a Go int) and names the first event of the batch. *)
Theorem escalation_batches_pending ix b :
  b ∈ ListEscalationBatches ix <->
  eb_batch_id b <> "" /\ batches_of (ix_events ix) !! eb_batch_id b = Some b /\
  batch_summary_ok (eb_batch_id b) (ix_events ix) b /\ 0 < eb_pending b.
Proof.
  unfold ListEscalationBatches. rewrite list_elem_of_fmap. split.
  - intros ([id b'] & -> & Hin). simpl. apply list_elem_of_In, filter_In in Hin as [Hin Hp].
    apply list_elem_of_In, sorted_entries_elem in Hin. simpl in Hp.
    pose proof (batches_domain _ _ _ Hin) as Hid. pose proof (batches_lookup id (ix_events ix) Hid) as Hok.
    rewrite Hin in Hok. pose proof Hok as [Heq _]. rewrite Heq.
    apply Z.ltb_lt in Hp. by split_and!.
  - intros (Hid & Hl & _ & Hp). exists (eb_batch_id b, b). split; [done|].
    apply list_elem_of_In, filter_In. split; [by apply list_elem_of_In, sorted_entries_elem|].
    by apply Z.ltb_lt.
Qed.

(** ** Payloads *)

Lemma check_required_ok p keys : check_required p keys = Ok tt <-> Forall (fun k => key_given p k = true) keys.
Proof.
  induction keys as [|k keys IH]; simpl; [by split|]. rewrite Forall_cons, <- IH.
  destruct (key_given p k); [by intuition | split; [done | by intros [? _]]].
Qed.

Lemma check_findings_ok items :
  check_findings items = Ok tt <->
  Forall (fun i => exists f, i = AMap f /\ payloadStringDefault f "severity" "" ∈ severities /\
                    payloadStringDefault f "issue" "" <> "") items.
Proof.
  assert (Ha : forall s l, allowedString s l = true <-> s ∈ l) by (intros; apply mem_str_spec).
  induction items as [|i items IH]; cbn [check_findings]; [by split|]. rewrite Forall_cons, <- IH.
  destruct i; try (split; [done | by intros [(f & ? & _) _]]).
  destruct (allowedString (payloadStringDefault m "severity" "") severities) eqn:Hs.
  - apply Ha in Hs. destruct (String.eqb_spec (payloadStringDefault m "issue" "") "") as [Hi|Hi].
    + split; [done|]. by intros [(f & [= <-] & _ & ?) _].
    + split; [intros ->; eauto 10 | by intros [_ ?]].
  - split; [done|]. intros [(f & [= <-] & Hin & _) _]. apply Ha in Hin. congruence.
Qed.

(** The payload rules, exactly: a delegation payload is accepted when every
    key its action requires holds a non-blank string or a non-empty list, and
    the action's enumerations and findings are in order. *)
Theorem delegation_payload_rules action p :
  validateDelegationPayload action p = Ok tt <->
  Forall (fun k => key_given p k = true) (required_for action) /\
  (action = "message" -> payloadStringDefault p "kind" "" ∈ message_kinds) /\
  (action = "update" -> payloadStringDefault p "progress_status" "" ∈ progress_statuses) /\
  (action = "review-submit" ->
     payloadStringDefault p "verdict" "" ∈ verdicts /\
     Forall (fun i => exists f, i = AMap f /\ payloadStringDefault f "severity" "" ∈ severities /\
                       payloadStringDefault f "issue" "" <> "") (delegationSlice p "findings")).
Proof.
  assert (Ha : forall s l, s ∈ l <-> allowedString s l = true) by (intros; symmetry; apply mem_str_spec).
  unfold validateDelegationPayload. rewrite <- check_required_ok, <- check_findings_ok, !Ha.
  destruct (check_required p (required_for action)) as [[]|]; simpl; [|by split; [|intros [? _]]].
  destruct (String.eqb_spec action "message") as [->|Hm]; cbn [andb].
  { change ("message" == "update") with false. change ("message" == "review-submit") with false. cbn [andb].
    destruct (allowedString (payloadStringDefault p "kind" "") message_kinds); simpl.
    - split; [|done]. intros _. by split_and!.
    - split; [done|]. intros (_ & H & _). by specialize (H eq_refl). }
  destruct (String.eqb_spec action "update") as [->|Hu]; cbn [andb].
  { change ("update" == "review-submit") with false. cbn [andb].
    destruct (allowedString (payloadStringDefault p "progress_status" "") progress_statuses); simpl.
    - split; [|done]. intros _. by split_and!.
    - split; [done|]. intros (_ & _ & H & _). by specialize (H eq_refl). }
  destruct (String.eqb_spec action "review-submit") as [->|Hr]; [|split; [|done]; intros _; by split_and!].
  destruct (allowedString (payloadStringDefault p "verdict" "") verdicts); simpl.
  - split; [intros H; by split_and! | intros (_ & _ & _ & H); by apply H].
  - split; [done|]. intros (_ & _ & _ & H). by destruct (H eq_refl).
Qed.

(** ** Concrete runs *)

Definition fx_deleg (action actor cmd causation : string) (p : payload) : DelegationEventSpec :=
  mk_deleg_spec action actor [] cmd causation (Some p) [] (Ok []) fx_now.

Definition fx_run {C} `{!Command C} (w : world) (c : C) : world :=
  fst (run_command "sess_deleg" w fx_later c None).

Definition fx_phase (w : world) : result error Phase :=
  match wd_sessions w !! "sess_deleg" with
  | Some sd => (latestPhase (wd_md w)) <$> ReadLogIndex sd (wd_md w)
  | None => Err command_conflict
  end.

Definition fx_ack : DelegationEventSpec := fx_deleg "ack" "ann" "cmd_ack" "" {[ "understanding" := AStr "clear" ]}.
Definition fx_submit : DelegationEventSpec := fx_deleg "submit" "ann" "cmd_submit" "" {[ "summary" := AStr "done" ]}.
Definition fx_accept (actor : string) : DelegationEventSpec :=
  fx_deleg "accept" actor "cmd_accept" "" {[ "final_summary" := AStr "ok" ]}.
Definition fx_block : SessionBlockSpec := mk_block "mod" "external_dependency" "waiting for data" "cmd_block" fx_now.

Definition fx_dw_ack : world := fx_run fx_dw0 fx_ack.
Definition fx_dw_submitted : world := fx_run fx_dw_ack fx_submit.

(** The normal life of a delegation. *)
Example fx_happy_path :
  fx_phase (fx_run fx_dw_submitted (fx_accept "mod")) = Ok "accepted".
Proof. vm_compute. reflexivity. Qed.

(** The assignee can accept its own work: the transition checks the phase but
    not that the actor is the moderator. *)
Example assignee_accepts_own_work :
  fx_phase (fx_run fx_dw_submitted (fx_accept "ann")) = Ok "accepted".
Proof. vm_compute. reflexivity. Qed.

(** An escalation whose payload asks to resume at [accepted] ends a delegation
    on which no work was ever submitted. *)
Example escalation_reaches_accepted :
  let w1 := fx_run fx_dw0 (fx_deleg "escalate" "ann" "cmd_esc" ""
              {[ "question" := AStr "ok?"; "urgency" := AStr "high"; "resume_phase" := AStr "accepted" ]}) in
  fx_phase (fx_run w1 (fx_deleg "resolve-escalation" "ann" "cmd_res" "evt_user_escalation_requested_cmd_esc"
              {[ "answer" := AStr "yes" ]})) = Ok "accepted".
Proof. vm_compute. reflexivity. Qed.

(** A retried block is refused by the phase guard instead of deduplicated. *)
Example block_retry_refused :
  snd (run_command "sess_deleg" (fx_run fx_dw_ack fx_block) fx_later fx_block None) =
  Err (NewValidationError CategoryCommandConflict "phase" "cannot block terminal or already blocked session").
Proof. vm_compute. reflexivity. Qed.

(** Two different command ids can name the same event id. *)
Example distinct_commands_same_event :
  eventIDFromCommand "evt_delegation_message" "a/b" = eventIDFromCommand "evt_delegation_message" "a:b".
Proof. vm_compute. reflexivity. Qed.

(** ** Witnesses *)

Definition fx_result_of {C} `{!Command C} (w : world) (c : C) : result error (AppendResult * bool) :=
  snd (run_command "sess_deleg" w fx_later c None).

(** The index a readable session reads as. *)
Definition fx_read (w : world) : LogIndex :=
  match wd_sessions w !! "sess_deleg" with
  | Some sd => match ReadLogIndex sd (wd_md w) with Ok ix => ix | Err _ => empty_index end
  | None => empty_index
  end.

Definition is_readable (w : world) : bool :=
  match wd_sessions w !! "sess_deleg" with
  | Some sd => is_ok (ReadLogIndex sd (wd_md w))
  | None => false
  end.

Lemma fx_read_reads w : is_readable w = true -> reads w "sess_deleg" (fx_read w).
Proof.
  unfold is_readable, fx_read. destruct (wd_sessions w !! "sess_deleg") as [sd|] eqn:E; [|done].
  destruct (ReadLogIndex sd (wd_md w)) eqn:R; [|done]. intros _. by exists sd.
Qed.

Lemma fx_run_step {C} `{!Command C} w (c : C) : command_step (C := C) "sess_deleg" w (fx_run w c).
Proof. apply (do_command _ _ _ fx_later c None (fx_result_of w c)). apply surjective_pairing. Qed.

Lemma command_run_at_most_once_witness :
  commands_unique (fx_read fx_dw_ack) /\
  exists tail, ix_events (fx_read fx_dw_ack) = ix_events fx_dix0 ++ tail.
Proof.
  apply (command_run_at_most_once (C := DelegationEventSpec) "sess_deleg" fx_dw0 fx_dw_ack).
  - apply rtc_once, fx_run_step.
  - apply fx_dreads0.
  - vm_compute. repeat (constructor; [set_solver|]). constructor.
  - apply fx_read_reads. vm_compute. reflexivity.
Defined.

Definition fx_dw_done : world := fx_run fx_dw_submitted (fx_accept "mod").

Lemma command_run_terminal_final_witness :
  latestPhase (wd_md (fx_run fx_dw_done fx_ack)) (fx_read (fx_run fx_dw_done fx_ack)) =
  latestPhase (wd_md fx_dw_done) (fx_read fx_dw_done).
Proof.
  apply (command_run_terminal_final (C := DelegationEventSpec) "sess_deleg").
  - apply rtc_once, fx_run_step.
  - apply fx_read_reads. vm_compute. reflexivity.
  - vm_compute. discriminate.
  - apply fx_read_reads. vm_compute. reflexivity.
  - vm_compute. reflexivity.
Defined.

Definition fx_proposal {C} `{!Command C} (w : world) (c : C) : EventEnvelope :=
  match respond fx_later (wd_md w) (fx_read w) c with
  | Ok (Propose e) => e
  | _ => fx_assigned
  end.

Lemma delegation_ends_by_acceptance_witness :
  let e := fx_proposal fx_dw_submitted (fx_accept "mod") in
  (ev_type e = "work_accepted" /\ ev_phase e = "accepted" /\
   latestPhase (wd_md fx_dw_submitted) (fx_read fx_dw_submitted) ∈ ["submitted"; "under_review"]) \/
  (ev_type e = "user_escalation_resolved" /\
   latestPhase (wd_md fx_dw_submitted) (fx_read fx_dw_submitted) = "waiting_user" /\
   exists x, eventByIDAndType (fx_read fx_dw_submitted) "" "user_escalation_requested" = Some x /\
     ev_phase e = payloadStringDefault (pl x) "resume_phase" "working").
Proof.
  apply (delegation_ends_by_acceptance fx_later _ _ (fx_accept "mod")); vm_compute; reflexivity.
Defined.

Lemma delegation_refines_phase_machine_witness :
  exists tail, ix_events (fx_read (fx_run fx_dw0 (inl fx_ack : delegation_command))) = ix_events fx_dix0 ++ tail /\
    obeys delegation_rule (ix_events fx_dix0) tail.
Proof.
  apply (delegation_refines_phase_machine "sess_deleg" fx_dw0 (fx_run fx_dw0 (inl fx_ack : delegation_command))).
  - apply rtc_once, (fx_run_step (C := delegation_command)).
  - apply fx_dreads0.
  - vm_compute. discriminate.
  - apply fx_read_reads. vm_compute. reflexivity.
Defined.

Definition fx_ack_result : AppendResult :=
  mk_append_result "cur_000000000002_evt_assignee_acknowledged_cmd_ack" 2 "evt_assignee_acknowledged_cmd_ack".

Lemma delegation_retry_after_progress_witness :
  run_command "sess_deleg" fx_dw_submitted fx_later fx_ack None = (fx_dw_submitted, Ok (fx_ack_result, true)).
Proof.
  apply (delegation_retry_after_progress "sess_deleg" fx_dw0 fx_dix0 fx_later fx_ack None fx_dw_ack fx_ack_result
           fx_dw_submitted (fx_read fx_dw_submitted) (drop 3 (ix_events (fx_read fx_dw_submitted)))).
  - apply fx_dreads0.
  - vm_compute. discriminate.
  - vm_compute. reflexivity.
  - reflexivity.
  - intros k v H. change (({[ "understanding" := AStr "clear" ]} : payload) !! k = Some v) in H.
    apply lookup_singleton_Some in H as [_ <-]. constructor.
  - vm_compute. reflexivity.
  - vm_compute. repeat split.
  - apply fx_read_reads. vm_compute. reflexivity.
  - intros ix1 H. rewrite (reads_fun _ _ _ _ H (fx_read_reads fx_dw_ack eq_refl)). vm_compute. reflexivity.
Defined.

Lemma block_resume_round_trip_witness :
  exists ix1, reads (fx_run fx_dw_ack fx_block) "sess_deleg" ix1 /\
    latestPhase (wd_md (fx_run fx_dw_ack fx_block)) ix1 = "blocked" /\
    forall clock2 (rspec : SessionResumeSpec),
      rs_actor rspec = md_moderator (wd_md fx_dw_ack) ->
      rs_blocked_event rspec = "evt_session_blocked_cmd_block" -> is_blank (rs_reason rspec) = false ->
      exists e2, respond clock2 (wd_md (fx_run fx_dw_ack fx_block)) ix1 rspec = Ok (Propose e2) /\
        ev_phase e2 = latestPhase (wd_md fx_dw_ack) (fx_read fx_dw_ack).
Proof.
  apply (block_resume_round_trip "sess_deleg" fx_dw_ack (fx_read fx_dw_ack) fx_later fx_block _
           (mk_append_result "cur_000000000003_evt_session_blocked_cmd_block" 3 "evt_session_blocked_cmd_block")).
  - apply fx_read_reads. vm_compute. reflexivity.
  - vm_compute. discriminate.
  - vm_compute. reflexivity.
Defined.
