(* ===== verification/Unmarshal.v ===== *)
(** * Decoding objects into structs (encoding/json), and the effective limits
    (storage/effective_limits.go)

    json.Unmarshal of the JSON text of a [map[string]any] into a struct: entries
    come in key order, a key names a field exactly or up to case, null changes
    nothing, and the first value of a wrong type is the error that is reported
    after the rest was decoded. *)

From S2P Require Import Prelude GoValue GoTime Model Ids Evidence Events.

(** ** Fields *)

Inductive field_kind :=
| KInt
| KFloat
| KBool
| KString
| KStruct (type : string) (fields : list (string * field_kind)).

(** encoding/json folds the keys: letters to upper case, and the two other runes
    that fold to a letter, the long s and the Kelvin sign. *)
Definition upper (a : Ascii.ascii) : Ascii.ascii :=
  let n := Ascii.N_of_ascii a in
  if (97 <=? n)%N && (n <=? 122)%N then Ascii.ascii_of_N (n - 32) else a.

Fixpoint fold_key (s : string) : string :=
  match s with
  | EmptyString => EmptyString
  | String a rest =>
      match rest with
      | String b rest1 =>
          if is_byte 197 a && is_byte 191 b then String (Ascii.ascii_of_N 83) (fold_key rest1)
          else
            match rest1 with
            | String c rest2 =>
                if is_byte 226 a && is_byte 132 b && is_byte 170 c then String (Ascii.ascii_of_N 75) (fold_key rest2)
                else String (upper a) (fold_key rest)
            | EmptyString => String (upper a) (fold_key rest)
            end
      | EmptyString => String (upper a) (fold_key rest)
      end
  end.

(** The field a key names: an exact match first. *)
Definition field_at {A} (fields : list (string * A)) (key : string) : option (string * A) :=
  match find_first (fun f => f.1 == key) fields with
  | Some f => Some f
  | None => find_first (fun f => fold_key f.1 == fold_key key) fields
  end.

(** The entries of an object, in the order of its text. *)
Definition object_of (v : any) : option (list (string * any)) :=
  match v with
  | AMap m => Some (sorted_entries m)
  | AStruct fs => Some fs
  | _ => None
  end.

Fixpoint decimal (s : string) (acc : Z) : option Z :=
  match s with
  | EmptyString => Some acc
  | String a rest =>
      match digit_value a with
      | Some d => decimal rest (acc * 10 + d)
      | None => None
      end
  end.

(** strconv.ParseInt of a JSON number. *)
Definition parse_int (s : string) : option Z :=
  let value := match drop_prefix "-" s with
               | Some rest => Z.opp <$> decimal rest 0
               | None => decimal s 0
               end in
  match value with
  | Some z => if (int_min <=? z) && (z <=? int_max) then Some z else None
  | None => None
  end.

(** Numbers, as the decoder of each kind of field takes them. *)
Definition int_of_json (v : any) : option Z :=
  match v with
  | AInt _ | AFloat _ _ => parse_int (json_text v)
  | _ => None
  end.

Definition float_of_json (v : any) : option (Z * Z) :=
  match v with
  | AInt z => match float_of_int z with AFloat m e => Some (m, e) | _ => None end
  | AFloat m e => Some (m, e)
  | _ => None
  end.

Definition bool_of_json (v : any) : option bool :=
  match v with
  | ABool b => Some b
  | _ => None
  end.

Definition string_of_json (v : any) : option string :=
  match v with
  | AStr s => Some s
  | _ => None
  end.

(** ** Errors *)

Definition json_kind (v : any) : string :=
  match v with
  | ANil => "null"
  | ABool _ => "bool"
  | AInt _ | AFloat _ _ => "number"
  | AStr _ => "string"
  | AStrs _ | AList _ | AMaps _ => "array"
  | AMap _ | AStruct _ => "object"
  end.

Definition is_number (v : any) : bool := json_kind v == "number".

(** json.UnmarshalTypeError *)
Definition mismatch (what struct path type : string) : string :=
  "json: cannot unmarshal " +:+ what +:+ " into Go struct field " +:+ struct +:+ "." +:+ path +:+ " of type " +:+ type.

Fixpoint first_some {A B} (f : A -> option B) (l : list A) : option B :=
  match l with
  | [] => None
  | a :: rest => match f a with Some b => Some b | None => first_some f rest end
  end.

(** The first mismatch met while decoding a value into a field. *)
Fixpoint field_error (kind : field_kind) (struct path : string) (v : any) : option string :=
  match v with
  | ANil => None
  | _ =>
      match kind with
      | KInt =>
          match int_of_json v with
          | Some _ => None
          | None => Some (mismatch (if is_number v then "number " +:+ json_text v else json_kind v) struct path "int")
          end
      | KFloat => if is_number v then None else Some (mismatch (json_kind v) struct path "float64")
      | KBool => match v with ABool _ => None | _ => Some (mismatch (json_kind v) struct path "bool") end
      | KString => match v with AStr _ => None | _ => Some (mismatch (json_kind v) struct path "string") end
      | KStruct type fields =>
          let errors := map (fun f => (f.1, field_error f.2)) fields in
          match object_of v with
          | None => Some (mismatch (json_kind v) struct path ("storage." +:+ type))
          | Some entries =>
              first_some (fun kv => match field_at errors kv.1 with
                                    | Some (name, err) => err type (path +:+ "." +:+ name) kv.2
                                    | None => None
                                    end) entries
          end
      end
  end.

(** The error of decoding an object into the struct. *)
Definition struct_error (type : string) (fields : list (string * field_kind)) (entries : list (string * any)) : option string :=
  first_some (fun kv => match field_at fields kv.1 with
                        | Some (name, kind) => field_error kind type name kv.2
                        | None => None
                        end) entries.

(** ** Values *)

(** What the field has after decoding: the last entry for it that fits. *)
Definition decoded {A} (fields : list (string * field_kind)) (entries : list (string * any)) (decode : any -> option A)
    (name : string) (old : A) : A :=
  foldl (fun old kv => match field_at fields kv.1 with
                       | Some (n, _) => if n == name then default old (decode kv.2) else old
                       | None => old
                       end) old entries.

Definition surface_struct : list (string * field_kind) :=
  map (fun k => (k, KString))
    ["kind"; "platform"; "guild_id"; "channel_id"; "thread_id"; "origin_message_id"; "started_by"; "delivery_owner"].

Definition decode_surface (entries : list (string * any)) : Surface :=
  let text name := decoded surface_struct entries string_of_json name "" in
  mk_surface (text "kind") (text "platform") (text "guild_id") (text "channel_id") (text "thread_id") (text "origin_message_id")
    (text "started_by") (text "delivery_owner").

Definition linked_struct : list (string * field_kind) := [("kanban_card_id", KString); ("vault_decision_note", KString)].

Definition decode_linked (entries : list (string * any)) : LinkedAuthority :=
  let text name := decoded linked_struct entries string_of_json name "" in
  mk_linked (text "kanban_card_id") (text "vault_decision_note").

Definition quality_struct : list (string * field_kind) :=
  [("mode", KString); ("opening_unlinked_turns", KInt); ("require_claims", KBool); ("require_stance_links_after_opening", KBool);
   ("allow_new_axis_with_reason", KBool); ("max_consecutive_new_axis", KInt)].

Definition no_quality : DiscussionQualityLimits := mk_quality "" 0 false false false 0.

Definition decode_quality (entries : list (string * any)) (q : DiscussionQualityLimits) : DiscussionQualityLimits :=
  let int name old := decoded quality_struct entries int_of_json name old in
  let flag name old := decoded quality_struct entries bool_of_json name old in
  mk_quality (decoded quality_struct entries string_of_json "mode" (dq_mode q))
    (int "opening_unlinked_turns" (dq_opening_unlinked_turns q)) (flag "require_claims" (dq_require_claims q))
    (flag "require_stance_links_after_opening" (dq_require_stance_links_after_opening q))
    (flag "allow_new_axis_with_reason" (dq_allow_new_axis_with_reason q))
    (int "max_consecutive_new_axis" (dq_max_consecutive_new_axis q)).

(** The pointer [discussion_quality] of the council limits: null clears it, and
    any other value allocates it when it is nil. *)
Definition decode_council (v : any) (q : option DiscussionQualityLimits) : option DiscussionQualityLimits :=
  foldl (fun q kv => match field_at [("discussion_quality", KStruct "DiscussionQualityLimits" quality_struct)] kv.1, kv.2 with
                     | None, _ => q
                     | Some _, ANil => None
                     | Some _, v => Some (decode_quality (default [] (object_of v)) (default no_quality q))
                     end) q (default [] (object_of v)).

Definition int_limits : list string :=
  ["max_turns"; "max_discussion_turns"; "max_consensus_rounds"; "consensus_round_warning_threshold"; "no_progress_round_limit";
   "preparation_timeout_sec"; "hand_raise_research_timeout_sec"; "dispatch_timeout_sec"; "clarification_response_timeout_sec";
   "escalation_response_timeout_sec"; "runner_max_retries"; "max_runner_calls"; "max_tokens_total"; "max_user_escalations";
   "max_elapsed_sec"; "max_artifact_bytes"; "stream_heartbeat_interval_sec"; "stream_stale_threshold_sec";
   "stream_repoll_threshold_sec"].

Definition limits_struct : list (string * field_kind) :=
  map (fun k => (k, KInt)) int_limits ++
  [("max_usd", KFloat);
   ("council", KStruct "CouncilLimits" [("discussion_quality", KStruct "DiscussionQualityLimits" quality_struct)])].

Definition decode_limits (entries : list (string * any)) (l : Limits) : Limits :=
  let int name old := decoded limits_struct entries int_of_json name old in
  mk_limits (int "max_turns" (li_max_turns l)) (int "max_discussion_turns" (li_max_discussion_turns l))
    (int "max_consensus_rounds" (li_max_consensus_rounds l))
    (int "consensus_round_warning_threshold" (li_consensus_round_warning_threshold l))
    (int "no_progress_round_limit" (li_no_progress_round_limit l)) (int "preparation_timeout_sec" (li_preparation_timeout_sec l))
    (int "hand_raise_research_timeout_sec" (li_hand_raise_research_timeout_sec l))
    (int "dispatch_timeout_sec" (li_dispatch_timeout_sec l))
    (int "clarification_response_timeout_sec" (li_clarification_response_timeout_sec l))
    (int "escalation_response_timeout_sec" (li_escalation_response_timeout_sec l))
    (int "runner_max_retries" (li_runner_max_retries l)) (int "max_runner_calls" (li_max_runner_calls l))
    (int "max_tokens_total" (li_max_tokens_total l)) (decoded limits_struct entries float_of_json "max_usd" (li_max_usd l))
    (int "max_user_escalations" (li_max_user_escalations l)) (int "max_elapsed_sec" (li_max_elapsed_sec l))
    (int "max_artifact_bytes" (li_max_artifact_bytes l)) (int "stream_heartbeat_interval_sec" (li_stream_heartbeat_interval_sec l))
    (int "stream_stale_threshold_sec" (li_stream_stale_threshold_sec l))
    (int "stream_repoll_threshold_sec" (li_stream_repoll_threshold_sec l))
    (foldl (fun q kv => match field_at limits_struct kv.1 with
                        | Some (n, _) => if n == "council" then decode_council kv.2 q else q
                        | None => q
                        end) (li_discussion_quality l) entries).

(** json.Unmarshal into Limits that have values already. *)
Definition unmarshal_limits (m : payload) (l : Limits) : result string Limits :=
  match struct_error "Limits" limits_struct (sorted_entries m) with
  | Some text => Err text
  | None => Ok (decode_limits (sorted_entries m) l)
  end.

(** ** EffectiveLimits

    The limits that the code returns beside an error are not used. *)

Definition limits_step (limits : result error Limits) (e : EventEnvelope) : result error Limits :=
  try l := limits in
  if ev_type e != "limits_extended" then Ok l
  else
    let invalid message := NewValidationError CategoryInvalidEnvelope "changes" message in
    match pl e !! "changes" with
    | Some (AMap changes) =>
        reject bool_decide (changes = ∅) with invalid "limits_extended event requires changes";;
        match unmarshal_limits changes l with
        | Ok l' => Ok l'
        | Err text => Err (invalid text)
        end
    | _ => Err (invalid "limits_extended event requires changes")
    end.

Definition EffectiveLimits (sd : session_dir) (md : SessionMetadata) : result error Limits :=
  try ix := ReadLogIndex sd md in
  foldl limits_step (Ok (md_limits md)) (ix_events ix).

(** What is decoded of some objects: keys up to case, null without effect, the
    shortest decimal of a float read as an integer. *)
Example ux_decoded :
  let read m := (fun l => (li_max_turns l, li_dispatch_timeout_sec l, li_discussion_quality l)) <$> unmarshal_limits m no_limits in
  let old := mk_limits 5 0 0 0 0 0 0 150 0 0 0 0 0 (0, 0) 0 0 0 0 0 0 (Some no_quality) in
  read {[ "max_turns" := AFloat 7 0; "Dispatch_Timeout_Sec" := AFloat 90 0; "unknown" := ABool true ]} = Ok (7, 90, None) /\
  read {[ "max_turns" := AFloat 1 60 ]} = Ok (1152921504606847000, 0, None) /\
  read {[ "max_turns" := AStr "7" ]} =
    Err "json: cannot unmarshal string into Go struct field Limits.max_turns of type int" /\
  read {[ "dispatch_timeout_sec" := AFloat 3 (-1) ]} =
    Err "json: cannot unmarshal number 1.5 into Go struct field Limits.dispatch_timeout_sec of type int" /\
  read {[ "council" := AMap {[ "discussion_quality" := AMap {[ "mode" := ABool true ]} ]} ]} =
    Err ("json: cannot unmarshal bool into Go struct field DiscussionQualityLimits.council.discussion_quality.mode of type string") /\
  unmarshal_limits {[ "max_turns" := ANil; "council" := ANil ]} old = Ok old /\
  unmarshal_limits {[ "council" := AMap {[ "discussion_quality" := ANil ]} ]} old =
    Ok (mk_limits 5 0 0 0 0 0 0 150 0 0 0 0 0 (0, 0) 0 0 0 0 0 0 None).
Proof. vm_compute. repeat split. Qed.
