(* ===== verification/Text.v ===== *)
(** * Lines and fields of texts (strings, bytes)

    strings.Split on a byte, HasSuffix and TrimSuffix, Fields and Cut, as the
    event log and the output of runners are taken apart with them. *)

From S2P Require Import Prelude Ids.

(** strings.Split at a separator of one byte: never empty. *)
Fixpoint split_on (c : N) (s : string) : list string :=
  match s with
  | EmptyString => [""]
  | String a rest =>
      if is_byte c a then "" :: split_on c rest
      else
        match split_on c rest with
        | [] => [String a ""]
        | x :: xs => String a x :: xs
        end
  end.

Definition split_nl : string -> list string := split_on 10.

(** strings.HasSuffix and strings.TrimSuffix *)
Definition has_suffix (s p : string) : bool := has_prefix (str_rev s) (str_rev p).
Definition trim_suffix (s p : string) : string := str_rev (trim_prefix (str_rev s) (str_rev p)).

(** strings.Cut at a separator of one byte. *)
Fixpoint cut (c : N) (s : string) : option (string * string) :=
  match s with
  | EmptyString => None
  | String a rest =>
      if is_byte c a then Some ("", rest)
      else match cut c rest with
           | Some (k, v) => Some (String a k, v)
           | None => None
           end
  end.

(** The bytes before the next white space, and the text from there. *)
Fixpoint span_word (s : string) : string * string :=
  match s with
  | EmptyString => ("", "")
  | String a rest =>
      match strip_one space_seqs s with
      | Some _ => ("", s)
      | None => (String a (fst (span_word rest)), snd (span_word rest))
      end
  end.

(** strings.Fields; every field takes at least one byte. *)
Fixpoint fields_with (fuel : nat) (s : string) : list string :=
  match fuel with
  | O => []
  | S fuel' =>
      let t := trim_left s in
      if t == "" then [] else fst (span_word t) :: fields_with fuel' (snd (span_word t))
  end.

Definition str_fields (s : string) : list string := fields_with (S (String.length s)) s.

(** s[:n], for [n] up to the length. *)
Definition str_take (n : nat) (s : string) : string := String.substring 0 n s.

Example text_parts :
  split_nl ("a" +:+ nl +:+ nl +:+ "b") = ["a"; ""; "b"] /\ split_nl "" = [""] /\
  str_fields ("  a" +:+ nl +:+ "bc d ") = ["a"; "bc"; "d"] /\
  cut 61 "k=v=w" = Some ("k", "v=w") /\ trim_suffix ("a" +:+ nl) nl = "a".
Proof. vm_compute. repeat split. Qed.

(** ** Lemmas *)

Definition no_byte (c : N) (s : string) : Prop := any_char (is_byte c) s = false.

Lemma split_on_nonempty c s : split_on c s <> [].
Proof. destruct s as [|a s]; simpl; [done|]. destruct (is_byte c a); [done|]. by destruct (split_on c s). Qed.

Lemma split_on_one c s : no_byte c s -> split_on c s = [s].
Proof.
  unfold no_byte. induction s as [|a s IH]; simpl; [done|]. intros H. apply orb_false_iff in H as [Ha H].
  by rewrite Ha, (IH H).
Qed.

(** Text after the last separator joins what was there. *)
Lemma split_on_app c s t :
  split_on c (s +:+ t) =
  removelast (split_on c s) ++
  match split_on c t with
  | [] => []
  | x :: xs => (List.last (split_on c s) "" +:+ x) :: xs
  end.
Proof.
  induction s as [|a s IH].
  - simpl. destruct (split_on c t) as [|x xs] eqn:E; [by apply split_on_nonempty in E|done].
  - rewrite str_app_cons. cbn [split_on]. rewrite IH. pose proof (split_on_nonempty c s) as Hne.
    pose proof (split_on_nonempty c t) as Ht. destruct (split_on c t) as [|x xs]; [done|].
    destruct (is_byte c a).
    + destruct (split_on c s) as [|y ys]; [done|]. done.
    + destruct (split_on c s) as [|y [|z zs]]; [done|done|]. done.
Qed.

Lemma split_on_sep c s t :
  no_byte c s -> (c < 256)%N -> split_on c (s +:+ bytes [c] +:+ t) = s :: split_on c t.
Proof.
  intros Hs Hc. rewrite split_on_app, (split_on_one c s Hs). cbn [removelast List.last app].
  change (bytes [c] +:+ t) with (String (Ascii.ascii_of_N c) t). cbn [split_on]. unfold is_byte.
  rewrite Ascii.N_ascii_embedding, N.eqb_refl by done. by rewrite str_app_nil_r.
Qed.

Lemma split_on_end c s : (c < 256)%N -> split_on c (s +:+ bytes [c]) = split_on c s ++ [""].
Proof.
  intros Hc. induction s as [|a s IH].
  - simpl. unfold is_byte. by rewrite Ascii.N_ascii_embedding, N.eqb_refl.
  - rewrite str_app_cons. cbn [split_on]. rewrite IH. destruct (is_byte c a); [done|].
    destruct (split_on c s) eqn:Hs; [by apply split_on_nonempty in Hs|done].
Qed.

(** A text whose last part is empty is empty or ends in the separator. *)
Lemma split_on_last c s :
  (c < 256)%N -> List.last (split_on c s) "" = "" -> s = "" \/ exists t, s = t +:+ bytes [c].
Proof.
  intros Hc. induction s as [|a s IH]; [by left|]. cbn [split_on]. intros H. right.
  destruct (is_byte c a) eqn:E.
  - apply N.eqb_eq in E. assert (a = Ascii.ascii_of_N c) as -> by by rewrite <- E, Ascii.ascii_N_embedding.
    destruct IH as [->|[t ->]]; [|by exists ""|by exists (String (Ascii.ascii_of_N c) t)].
    destruct (split_on c s) eqn:Hs; [by apply split_on_nonempty in Hs|done].
  - destruct (split_on c s) as [|x [|y ys]] eqn:Hs; [by apply split_on_nonempty in Hs|done|].
    destruct IH as [->|[t ->]]; [done|done|]. by exists (String a t).
Qed.

Lemma no_byte_app c s t : no_byte c (s +:+ t) <-> no_byte c s /\ no_byte c t.
Proof.
  unfold no_byte. induction s as [|a s IH]; [simpl; tauto|]. rewrite str_app_cons. simpl.
  rewrite !orb_false_iff, IH. tauto.
Qed.

Lemma no_byte_take c n s : no_byte c s -> no_byte c (str_take n s).
Proof.
  unfold no_byte, str_take. revert n. induction s as [|a s IH]; intros [|n]; simpl; try done.
  rewrite !orb_false_iff. intros [Ha Hs]. split; [done|by apply IH].
Qed.

Lemma has_suffix_spec s p : has_suffix s p = true <-> exists t, s = t +:+ p.
Proof.
  unfold has_suffix. rewrite has_prefix_spec. split.
  - intros [r Hr]. exists (str_rev r). rewrite <- (str_rev_involutive s), Hr, str_rev_app_distr. by rewrite str_rev_involutive.
  - intros [t ->]. exists (str_rev t). apply str_rev_app_distr.
Qed.

Lemma trim_suffix_app t p : trim_suffix (t +:+ p) p = t.
Proof.
  unfold trim_suffix, trim_prefix. rewrite str_rev_app_distr.
  replace (drop_prefix (str_rev p) (str_rev p +:+ str_rev t)) with (Some (str_rev t)).
  - apply str_rev_involutive.
  - symmetry. by apply drop_prefix_spec.
Qed.

Lemma str_take_all s : str_take (String.length s) s = s.
Proof. unfold str_take. induction s as [|a s IH]; simpl; [done|by rewrite IH]. Qed.

Lemma str_take_app n s t : (n <= String.length s)%nat -> str_take n (s +:+ t) = str_take n s.
Proof.
  unfold str_take. revert n. induction s as [|a s IH]; intros [|n] H; simpl in *; try lia; try done.
  - by destruct t.
  - f_equal. apply IH. lia.
Qed.

Lemma str_take_nil n s : (0 < n)%nat -> s <> "" -> str_take n s <> "".
Proof. destruct n, s; simpl; by try lia. Qed.
