(* ===== verification/Json.v ===== *)
(** * JSON texts (encoding/json)

    The reader of JSON text that the event log and the runner adapter rely on:
    the scanner with its limit on nesting, the literals it leaves in the tree,
    their values in an [any], and the two entry points, json.Unmarshal of a whole
    text and the first value of a json.Decoder.  [to_json] is the tree whose text
    json.Marshal writes.

    Texts are taken to be valid UTF-8, as elsewhere; negative zero is zero. *)

From S2P Require Import Prelude GoValue GoTime Ids Unmarshal.

(** ** Trees

    Numbers and strings are kept as the literals of the text, strings without
    their quotes, and objects as their entries in order: decoding into a struct
    needs all of it. *)
Inductive json : Type :=
| JNull
| JBool (b : bool)
| JNum (literal : string)
| JStr (raw : string)
| JArr (l : list json)
| JObj (l : list (string * json)).

Definition quoted (raw : string) : string := dquote +:+ raw +:+ dquote.

Fixpoint print (j : json) : string :=
  match j with
  | JNull => "null"
  | JBool b => json_bool b
  | JNum literal => literal
  | JStr raw => quoted raw
  | JArr l => "[" +:+ join "," (map print l) +:+ "]"
  | JObj l => "{" +:+ join "," (map (fun kv => quoted kv.1 +:+ ":" +:+ print kv.2) l) +:+ "}"
  end.

(** ** Scanning *)

Definition is_ws (a : Ascii.ascii) : bool := is_byte 32 a || is_byte 9 a || is_byte 10 a || is_byte 13 a.

Fixpoint skip_ws (s : string) : string :=
  match s with
  | String a rest => if is_ws a then skip_ws rest else s
  | EmptyString => EmptyString
  end.

Definition hex_value (a : Ascii.ascii) : option N :=
  let n := Ascii.N_of_ascii a in
  if ((48 <=? n) && (n <=? 57))%N then Some (n - 48)%N
  else if ((97 <=? n) && (n <=? 102))%N then Some (n - 87)%N
  else if ((65 <=? n) && (n <=? 70))%N then Some (n - 55)%N
  else None.

Definition hex4 (a b c d : Ascii.ascii) : option N :=
  match hex_value a, hex_value b, hex_value c, hex_value d with
  | Some w, Some x, Some y, Some z => Some (w * 4096 + x * 256 + y * 16 + z)%N
  | _, _, _, _ => None
  end.

(** The byte that a one-letter escape stands for. *)
Definition simple_escape (a : Ascii.ascii) : option N :=
  let n := Ascii.N_of_ascii a in
  if ((n =? 34) || (n =? 92) || (n =? 47))%N then Some n
  else if (n =? 98)%N then Some 8%N
  else if (n =? 102)%N then Some 12%N
  else if (n =? 110)%N then Some 10%N
  else if (n =? 114)%N then Some 13%N
  else if (n =? 116)%N then Some 9%N
  else None.

Definition before (p : string) (r : option (string * string)) : option (string * string) :=
  match r with
  | Some (s, rest) => Some (p +:+ s, rest)
  | None => None
  end.

(** The literal of a string up to its closing quote, and the text after it. *)
Fixpoint scan_string (s : string) : option (string * string) :=
  match s with
  | EmptyString => None
  | String a rest =>
      if is_byte 34 a then Some ("", rest)
      else if is_byte 92 a then
        match rest with
        | String b rest1 =>
            match simple_escape b with
            | Some _ => before (String a (String b "")) (scan_string rest1)
            | None =>
                if is_byte 117 b then
                  match rest1 with
                  | String c (String d (String e (String f rest2))) =>
                      match hex4 c d e f with
                      | Some _ =>
                          before (String a (String b (String c (String d (String e (String f "")))))) (scan_string rest2)
                      | None => None
                      end
                  | _ => None
                  end
                else None
            end
        | EmptyString => None
        end
      else if (Ascii.N_of_ascii a <? 32)%N then None
      else before (String a "") (scan_string rest)
  end.

Definition is_digit (a : Ascii.ascii) : bool :=
  match digit_value a with Some _ => true | None => false end.

Fixpoint span_digits (s : string) : string * string :=
  match s with
  | String a rest => if is_digit a then (String a (fst (span_digits rest)), snd (span_digits rest)) else ("", s)
  | EmptyString => ("", "")
  end.

(** At least one digit. *)
Definition digits1 (s : string) : option (string * string) :=
  if fst (span_digits s) == "" then None else Some (span_digits s).

(** The integer part: a zero alone, or digits that do not start with one. *)
Definition scan_int (s : string) : option (string * string) :=
  match s with
  | String a rest => if is_byte 48 a then Some (String a "", rest) else digits1 s
  | EmptyString => None
  end.

Definition scan_frac (s : string) : option (string * string) :=
  match s with
  | String a rest => if is_byte 46 a then before (String a "") (digits1 rest) else Some ("", s)
  | EmptyString => Some ("", s)
  end.

Definition scan_exp (s : string) : option (string * string) :=
  match s with
  | String a rest =>
      if is_byte 101 a || is_byte 69 a then
        match rest with
        | String b rest1 =>
            if is_byte 43 b || is_byte 45 b then before (String a (String b "")) (digits1 rest1)
            else before (String a "") (digits1 rest)
        | EmptyString => None
        end
      else Some ("", s)
  | EmptyString => Some ("", s)
  end.

(** The four parts of a number literal, and the text after it. *)
Definition scan_parts (s : string) : option (string * string * string * string * string) :=
  let '(sign, s0) := match drop_prefix "-" s with Some r => ("-", r) | None => ("", s) end in
  match scan_int s0 with
  | None => None
  | Some (int, s1) =>
      match scan_frac s1 with
      | None => None
      | Some (frac, s2) =>
          match scan_exp s2 with
          | None => None
          | Some (exp, rest) => Some (sign, int, frac, exp, rest)
          end
      end
  end.

Definition scan_number (s : string) : option (string * string) :=
  match scan_parts s with
  | Some (sign, int, frac, exp, rest) => Some (sign +:+ int +:+ frac +:+ exp, rest)
  | None => None
  end.

(** ** Parsing *)

Section Items.
Variable value : string -> option (json * string).

(** The items of an array after its bracket; each takes at least one byte. *)
Fixpoint parse_items (fuel : nat) (s : string) : option (list json * string) :=
  match fuel with
  | O => None
  | S fuel' =>
      match value s with
      | None => None
      | Some (v, r) =>
          match skip_ws r with
          | EmptyString => None
          | String a r1 =>
              if is_byte 44 a then
                match parse_items fuel' r1 with
                | Some (vs, r2) => Some (v :: vs, r2)
                | None => None
                end
              else if is_byte 93 a then Some ([v], r1)
              else None
          end
      end
  end.

Definition parse_member (s : string) : option ((string * json) * string) :=
  match skip_ws s with
  | EmptyString => None
  | String a r =>
      if is_byte 34 a then
        match scan_string r with
        | None => None
        | Some (key, r1) =>
            match skip_ws r1 with
            | EmptyString => None
            | String c r2 =>
                if is_byte 58 c then
                  match value r2 with
                  | Some (v, r3) => Some ((key, v), r3)
                  | None => None
                  end
                else None
            end
        end
      else None
  end.

Fixpoint parse_members (fuel : nat) (s : string) : option (list (string * json) * string) :=
  match fuel with
  | O => None
  | S fuel' =>
      match parse_member s with
      | None => None
      | Some (kv, r) =>
          match skip_ws r with
          | EmptyString => None
          | String a r1 =>
              if is_byte 44 a then
                match parse_members fuel' r1 with
                | Some (kvs, r2) => Some (kv :: kvs, r2)
                | None => None
                end
              else if is_byte 125 a then Some ([kv], r1)
              else None
          end
      end
  end.
End Items.

Definition after_close {A} (close : N) (empty : A) (rest : string) (items : option (A * string)) : option (A * string) :=
  match skip_ws rest with
  | String a r => if is_byte close a then Some (empty, r) else items
  | EmptyString => None
  end.

Definition tag {A} (f : A -> json) (r : option (A * string)) : option (json * string) :=
  match r with
  | Some (a, rest) => Some (f a, rest)
  | None => None
  end.

(** The first value of a text; [depth] more containers may be entered. *)
Fixpoint parse_value (depth : nat) (s : string) : option (json * string) :=
  let t := skip_ws s in
  match t with
  | EmptyString => None
  | String a r =>
      if is_byte 123 a then
        match depth with
        | O => None
        | S d => tag JObj (after_close 125 [] r (parse_members (parse_value d) (String.length r) r))
        end
      else if is_byte 91 a then
        match depth with
        | O => None
        | S d => tag JArr (after_close 93 [] r (parse_items (parse_value d) (String.length r) r))
        end
      else if is_byte 34 a then tag JStr (scan_string r)
      else
        match drop_prefix "null" t, drop_prefix "true" t, drop_prefix "false" t with
        | Some r, _, _ => Some (JNull, r)
        | _, Some r, _ => Some (JBool true, r)
        | _, _, Some r => Some (JBool false, r)
        | None, None, None => tag JNum (scan_number t)
        end
  end.

(** encoding/json's maxNestingDepth. *)
Definition max_depth : nat := N.to_nat 10000.

(** json.Decoder.Decode: the first value of a stream and what follows it. *)
Definition first_value (s : string) : option (json * string) := parse_value max_depth s.

(** A whole text, as json.Unmarshal reads it. *)
Definition parse (s : string) : option json :=
  match first_value s with
  | Some (j, rest) => if skip_ws rest == "" then Some j else None
  | None => None
  end.

(** ** Values of literals *)

(** UTF-8 of a rune. *)
Definition utf8 (r : N) : string :=
  if (r <? 128)%N then bytes [r]
  else if (r <? 2048)%N then bytes [192 + r / 64; 128 + r mod 64]%N
  else if (r <? 65536)%N then bytes [224 + r / 4096; 128 + r / 64 mod 64; 128 + r mod 64]%N
  else bytes [240 + r / 262144; 128 + r / 4096 mod 64; 128 + r / 64 mod 64; 128 + r mod 64]%N.

Definition replacement : N := 65533.
Definition is_surrogate (r : N) : bool := ((55296 <=? r) && (r <? 57344))%N.

(** utf16.DecodeRune of two surrogates in order. *)
Definition surrogate_pair (hi lo : N) : option N :=
  if ((55296 <=? hi) && (hi <? 56320) && (56320 <=? lo) && (lo <? 57344))%N
  then Some ((hi - 55296) * 1024 + (lo - 56320) + 65536)%N else None.

(** The string a literal stands for. *)
Fixpoint unquote (s : string) : string :=
  match s with
  | EmptyString => ""
  | String a rest =>
      if is_byte 92 a then
        match rest with
        | EmptyString => ""
        | String b rest1 =>
            match simple_escape b with
            | Some n => String (Ascii.ascii_of_N n) (unquote rest1)
            | None =>
                match rest1 with
                | String c (String d (String e (String f rest2))) =>
                    let r := default 0%N (hex4 c d e f) in
                    if is_surrogate r then
                      match rest2 with
                      | String g (String h (String i (String k (String l (String m rest3))))) =>
                          let low := if is_byte 92 g && is_byte 117 h then default 0%N (hex4 i k l m) else 0%N in
                          match surrogate_pair r low with
                          | Some r2 => utf8 r2 +:+ unquote rest3
                          | None => utf8 replacement +:+ unquote rest2
                          end
                      | _ => utf8 replacement +:+ unquote rest2
                      end
                    else utf8 r +:+ unquote rest2
                | _ => ""
                end
            end
        end
      else String a (unquote rest)
  end.

(** strconv's exponent, which stops growing at five digits. *)
Fixpoint exp_digits (s : string) (acc : Z) : Z :=
  match s with
  | EmptyString => acc
  | String a rest => exp_digits rest (if acc <? 10000 then acc * 10 + default 0 (digit_value a) else acc)
  end.

Definition exp_value (s : string) : Z :=
  match s with
  | String _ (String b rest as digits) =>
      if is_byte 45 b then - exp_digits rest 0
      else if is_byte 43 b then exp_digits rest 0
      else exp_digits digits 0
  | _ => 0
  end.

(** The float64 nearest to [n / d]; [None] when it is out of range. *)
Definition float_of_ratio (neg : bool) (n d : Z) : option (Z * Z) :=
  let sign := if neg then -1 else 1 in
  if (n mod d =? 0) && (n / d <=? 2 ^ 53) then Some (sign * (n / d), 0)
  else
    let '(m, e) := f64_round n d in
    if 2 ^ 1024 * float_den e <=? float_num m e then None else Some (sign * m, e).

(** strconv.ParseFloat of a number literal. *)
Definition number_value (literal : string) : option (Z * Z) :=
  match scan_parts literal with
  | None => None
  | Some (sign, int, frac, exp, _) =>
      let point := match frac with String _ ds => ds | EmptyString => "" end in
      match decimal (int +:+ point) 0 with
      | None => None
      | Some n =>
          let x := exp_value exp - str_len point in
          float_of_ratio (sign == "-") (if 0 <=? x then n * 10 ^ x else n) (if 0 <=? x then 1 else 10 ^ (- x))
      end
  end.

(** A value decoded into an [any]: the last of equal keys wins. *)
Fixpoint value_of (j : json) : option any :=
  match j with
  | JNull => Some ANil
  | JBool b => Some (ABool b)
  | JNum literal => match number_value literal with Some (m, e) => Some (AFloat m e) | None => None end
  | JStr raw => Some (AStr (unquote raw))
  | JArr l =>
      (fix go (l : list json) (acc : list any) : option any :=
         match l with
         | [] => Some (AList (rev acc))
         | x :: rest => match value_of x with Some v => go rest (v :: acc) | None => None end
         end) l []
  | JObj l =>
      (fix go (l : list (string * json)) (acc : payload) : option any :=
         match l with
         | [] => Some (AMap acc)
         | (k, x) :: rest => match value_of x with Some v => go rest (<[unquote k := v]> acc) | None => None end
         end) l ∅
  end.

(** json.Unmarshal into an [any]. *)
Definition unmarshal (s : string) : option any :=
  match parse s with
  | Some j => value_of j
  | None => None
  end.

(** ** The tree json.Marshal writes *)
Fixpoint to_json (a : any) : json :=
  let object (m : payload) := JObj (map (fun kv => (json_escape kv.1, kv.2)) (sorted_entries (to_json <$> m))) in
  match a with
  | ANil => JNull
  | ABool b => JBool b
  | AInt z => JNum (itoa z)
  | AFloat m e => JNum (json_float m e)
  | AStr s => JStr (json_escape s)
  | AStrs l => JArr (map (fun s => JStr (json_escape s)) l)
  | AList l => JArr (map to_json l)
  | AMap m => object m
  | AMaps l => JArr (map object l)
  | AStruct fs => JObj (map (fun kv => (json_escape kv.1, to_json kv.2)) fs)
  end.

#[global] Arguments unquote : simpl nomatch.
#[global] Arguments to_json : simpl nomatch.

(** What some texts decode to: nesting, escapes with a surrogate pair, numbers,
    equal keys, and texts that are refused. *)
Example jx_values :
  let q := dquote in
  let back := bytes [92]%N in
  unmarshal (" { " +:+ q +:+ "a" +:+ q +:+ " : [1, -2.50e1 ,true,null] }" +:+ nl) =
    Some (AMap {[ "a" := AList [AFloat 1 0; AFloat (-25) 0; ABool true; ANil] ]}) /\
  unmarshal (q +:+ back +:+ "ud83d" +:+ back +:+ "ude00" +:+ back +:+ "n" +:+ back +:+ "ud800!" +:+ q) =
    Some (AStr (bytes [240; 159; 152; 128; 10; 239; 191; 189; 33]%N)) /\
  unmarshal ("{" +:+ q +:+ "k" +:+ q +:+ ":1," +:+ q +:+ back +:+ "u006b" +:+ q +:+ ":2}") = Some (AMap {[ "k" := AFloat 2 0 ]}) /\
  unmarshal "0.1" = (fun p => AFloat p.1 p.2) <$> Some (f64_round 1 10) /\
  unmarshal "01" = None /\ unmarshal "1." = None /\ unmarshal "[1,]" = None /\ unmarshal "1e999" = None /\
  unmarshal "{} {}" = None /\ unmarshal "" = None.
Proof. vm_compute. repeat split. Qed.
