(* ===== verification/JsonTheory.v ===== *)
(** * Laws of the JSON reader

    The reader inverts the printer: a well-formed tree is read back from its
    text, and what json.Marshal writes for a value decodes to its normal form.
    Texts are walked unit by unit, a unit being a plain byte or one escape. *)

From S2P Require Import Prelude GoValue GoTime Ids Unmarshal Json.

(** ** Induction on trees *)
Section Induction.
Variable P : json -> Prop.
Hypothesis Hnull : P JNull.
Hypothesis Hbool : forall b, P (JBool b).
Hypothesis Hnum : forall literal, P (JNum literal).
Hypothesis Hstr : forall raw, P (JStr raw).
Hypothesis Harr : forall l, Forall P l -> P (JArr l).
Hypothesis Hobj : forall l, Forall (fun kv => P kv.2) l -> P (JObj l).

Fixpoint json_tree_ind (j : json) : P j :=
  match j with
  | JNull => Hnull
  | JBool b => Hbool b
  | JNum n => Hnum n
  | JStr r => Hstr r
  | JArr l =>
      Harr l ((fix go (l : list json) : Forall P l :=
                 match l with
                 | [] => Forall_nil_2 _
                 | x :: rest => Forall_cons_2 _ _ _ (json_tree_ind x) (go rest)
                 end) l)
  | JObj l =>
      Hobj l ((fix go (l : list (string * json)) : Forall (fun kv => P kv.2) l :=
                 match l with
                 | [] => Forall_nil_2 _
                 | kv :: rest => Forall_cons_2 _ _ _ (json_tree_ind kv.2) (go rest)
                 end) l)
  end.
End Induction.

(** ** String literals *)

(** [u] is a unit of a literal that stands for [x]. *)
Definition unit_of (u x : string) : Prop :=
  forall t, scan_string (u +:+ t) = before u (scan_string t) /\ unquote (u +:+ t) = x +:+ unquote t.

Lemma escape_char_unit a : unit_of (json_escape_char (Ascii.N_of_ascii a)) (String a "").
Proof. intros t. destruct a as [[] [] [] [] [] [] [] []]; split; reflexivity. Qed.

Lemma line_separator_unit (b : bool) :
  unit_of (esc (if b then "u2028" else "u2029")) (bytes [226; 128; if b then 168 else 169]%N).
Proof. intros t. destruct b; split; reflexivity. Qed.

Lemma ascii_N_eq a n : (n < 256)%N -> (Ascii.N_of_ascii a =? n)%N = true -> a = Ascii.ascii_of_N n.
Proof. intros Hn H. apply N.eqb_eq in H. by rewrite <- H, Ascii.ascii_N_embedding. Qed.

Lemma json_escape_step s :
  s = "" \/ exists u x s', unit_of u x /\ json_escape s = u +:+ json_escape s' /\ s = x +:+ s' /\
            (String.length s' < String.length s)%nat.
Proof.
  destruct s as [|a s]; [by left|]. right.
  assert (Hone : json_escape (String a s) = json_escape_char (Ascii.N_of_ascii a) +:+ json_escape s ->
    exists u x s', unit_of u x /\ json_escape (String a s) = u +:+ json_escape s' /\ String a s = x +:+ s' /\
      (String.length s' < String.length (String a s))%nat).
  { intros H. exists (json_escape_char (Ascii.N_of_ascii a)), (String a ""), s.
    split; [apply escape_char_unit|]. simpl. auto. }
  destruct s as [|b [|c s]]; [by apply Hone..|].
  destruct ((Ascii.N_of_ascii a =? 226)%N && (Ascii.N_of_ascii b =? 128)%N
            && ((Ascii.N_of_ascii c =? 168)%N || (Ascii.N_of_ascii c =? 169)%N)) eqn:E.
  2: { apply Hone. cbn [json_escape]. by rewrite E. }
  cbn [json_escape]. rewrite E. apply andb_true_iff in E as [E Hc]. apply andb_true_iff in E as [Ha Hb].
  apply ascii_N_eq in Ha as ->; [|done]. apply ascii_N_eq in Hb as ->; [|done].
  exists (esc (if (Ascii.N_of_ascii c =? 168)%N then "u2028" else "u2029")),
    (bytes [226; 128; if (Ascii.N_of_ascii c =? 168)%N then 168 else 169]%N), s.
  split; [apply line_separator_unit|]. split; [done|]. split; [|simpl; lia].
  destruct (Ascii.N_of_ascii c =? 168)%N eqn:Hc8; [|simpl in Hc];
    [apply ascii_N_eq in Hc8 as ->|apply ascii_N_eq in Hc as ->]; done.
Qed.

(** A literal that ends where its quote says. *)
Definition literal_ok (raw : string) : Prop := forall rest, scan_string (raw +:+ dquote +:+ rest) = Some (raw, rest).

Lemma json_escape_ok s : literal_ok (json_escape s) /\ unquote (json_escape s) = s.
Proof.
  remember (String.length s) as n eqn:Hn. revert s Hn.
  induction (lt_wf n) as [n _ IH]. intros s ->. unfold literal_ok.
  destruct (json_escape_step s) as [->|(u & x & s' & Hu & He & Hs & Hlen)]; [done|].
  specialize (IH _ Hlen s' eq_refl) as [Hok Hun]. rewrite He. split.
  - intros rest. rewrite str_app_assoc. destruct (Hu (json_escape s' +:+ dquote +:+ rest)) as [-> _].
    by rewrite Hok.
  - destruct (Hu (json_escape s')) as [_ ->]. by rewrite Hun.
Qed.

Lemma unquote_escape s : unquote (json_escape s) = s.
Proof. apply json_escape_ok. Qed.

(** ** Number literals *)

(** What may follow a value inside a text: nothing, or a separator. *)
Definition ends (rest : string) : Prop :=
  match rest with
  | EmptyString => True
  | String a _ => is_byte 44 a = true \/ is_byte 93 a = true \/ is_byte 125 a = true
  end.

Lemma is_byte_eq n a : (n < 256)%N -> is_byte n a = true -> a = Ascii.ascii_of_N n.
Proof. apply ascii_N_eq. Qed.

Lemma ends_first rest :
  ends rest ->
  match rest with
  | EmptyString => True
  | String a _ => is_digit a = false /\ is_byte 46 a = false /\ is_byte 101 a = false /\ is_byte 69 a = false
  end.
Proof.
  destruct rest as [|a rest]; [done|]. simpl.
  intros [H|[H|H]]; apply is_byte_eq in H as ->; done.
Qed.

Section Numbers.
Variable t : string.
Hypothesis Ht : ends t.

Lemma span_digits_app s : span_digits (s +:+ t) = (fst (span_digits s), snd (span_digits s) +:+ t).
Proof.
  induction s as [|a s IH]; simpl.
  - pose proof (ends_first t Ht) as H. destruct t as [|b t']; [done|]. destruct H as (H & _). simpl. by rewrite H.
  - destruct (is_digit a); [by rewrite IH|done].
Qed.

Lemma digits1_app s d r : digits1 s = Some (d, r) -> digits1 (s +:+ t) = Some (d, r +:+ t).
Proof.
  unfold digits1. rewrite span_digits_app. destruct (span_digits s) as [d' r']. simpl.
  destruct (d' == ""); [done|]. by intros [= -> ->].
Qed.

Lemma scan_int_app s d r : scan_int s = Some (d, r) -> scan_int (s +:+ t) = Some (d, r +:+ t).
Proof.
  destruct s as [|a s]; [done|]. simpl. destruct (is_byte 48 a); [by intros [= <- <-]|].
  intros H. by apply (digits1_app (String a s)).
Qed.

Lemma before_app p s d r : before p (digits1 s) = Some (d, r) -> before p (digits1 (s +:+ t)) = Some (d, r +:+ t).
Proof.
  destruct (digits1 s) as [[d' r']|] eqn:E; [|done]. simpl. intros [= <- <-].
  by rewrite (digits1_app _ _ _ E).
Qed.

Lemma scan_frac_app s d r : scan_frac s = Some (d, r) -> scan_frac (s +:+ t) = Some (d, r +:+ t).
Proof.
  pose proof (ends_first t Ht) as H. destruct s as [|a s]; simpl.
  - intros [= <- <-]. destruct t as [|b t']; [done|]. destruct H as (_ & H & _). simpl. by rewrite H.
  - destruct (is_byte 46 a); [apply before_app|]. by intros [= <- <-].
Qed.

Lemma scan_exp_app s d r : scan_exp s = Some (d, r) -> scan_exp (s +:+ t) = Some (d, r +:+ t).
Proof.
  pose proof (ends_first t Ht) as H. destruct s as [|a s]; simpl.
  - intros [= <- <-]. destruct t as [|b t']; [done|]. destruct H as (_ & _ & H1 & H2). simpl. by rewrite H1, H2.
  - destruct (is_byte 101 a || is_byte 69 a); [|by intros [= <- <-]].
    destruct s as [|b s]; [done|]. simpl.
    destruct (is_byte 43 b || is_byte 45 b); [apply before_app|]. apply (before_app _ (String b s)).
Qed.

Lemma scan_parts_app s sg i f x r :
  scan_parts s = Some (sg, i, f, x, r) -> scan_parts (s +:+ t) = Some (sg, i, f, x, r +:+ t).
Proof.
  assert (Hsign : forall s1, drop_prefix "-" s = s1 -> s <> "" ->
            drop_prefix "-" (s +:+ t) = match s1 with Some q => Some (q +:+ t) | None => None end).
  { intros s1 <- Hne. destruct s as [|a s']; [done|]. simpl. by case_match. }
  unfold scan_parts. destruct s as [|a s']; [done|].
  rewrite (Hsign _ eq_refl) by done. destruct (drop_prefix "-" (String a s')) as [q|] eqn:Hq.
  - destruct (scan_int q) as [[i' r1]|] eqn:E1; [|done]. rewrite (scan_int_app _ _ _ E1).
    destruct (scan_frac r1) as [[f' r2]|] eqn:E2; [|done]. rewrite (scan_frac_app _ _ _ E2).
    destruct (scan_exp r2) as [[x' r3]|] eqn:E3; [|done]. rewrite (scan_exp_app _ _ _ E3).
    by intros [= <- <- <- <- <-].
  - destruct (scan_int (String a s')) as [[i' r1]|] eqn:E1; [|done]. rewrite (scan_int_app _ _ _ E1).
    destruct (scan_frac r1) as [[f' r2]|] eqn:E2; [|done]. rewrite (scan_frac_app _ _ _ E2).
    destruct (scan_exp r2) as [[x' r3]|] eqn:E3; [|done]. rewrite (scan_exp_app _ _ _ E3).
    by intros [= <- <- <- <- <-].
Qed.
End Numbers.

(** A literal that is a number and nothing else. *)
Definition number_ok (literal : string) : bool := bool_decide (scan_number literal = Some (literal, "")).

Lemma number_ok_app literal rest :
  number_ok literal = true -> ends rest -> scan_number (literal +:+ rest) = Some (literal, rest).
Proof.
  unfold number_ok, scan_number. intros H Hends. apply bool_decide_eq_true in H.
  destruct (scan_parts literal) as [[[[[sg i] f] x] r]|] eqn:E; [|done].
  rewrite (scan_parts_app rest Hends _ _ _ _ _ _ E). by injection H as -> ->.
Qed.

(** ** The reader inverts the printer *)

Fixpoint json_depth (j : json) : nat :=
  match j with
  | JArr l => S (foldr (fun x n => Nat.max (json_depth x) n) O l)
  | JObj l => S (foldr (fun kv n => Nat.max (json_depth kv.2) n) O l)
  | _ => O
  end.

Inductive well_formed : json -> Prop :=
| wf_null : well_formed JNull
| wf_bool b : well_formed (JBool b)
| wf_num n : number_ok n = true -> well_formed (JNum n)
| wf_str r : literal_ok r -> well_formed (JStr r)
| wf_arr l : Forall well_formed l -> well_formed (JArr l)
| wf_obj l : Forall (fun kv => literal_ok kv.1 /\ well_formed kv.2) l -> well_formed (JObj l).

(** Texts that start with a byte that is not white space. *)
Definition starts (s : string) : Prop := match s with String a _ => is_ws a = false | EmptyString => False end.

Lemma skip_starts s : starts s -> skip_ws s = s.
Proof. destruct s as [|a s]; [done|]. simpl. by intros ->. Qed.

Lemma starts_app s t : starts s -> starts (s +:+ t).
Proof. by destruct s. Qed.

(** The first byte of a number literal. *)
Lemma number_ok_first literal :
  number_ok literal = true -> exists a s, literal = String a s /\ (is_digit a = true \/ is_byte 45 a = true).
Proof.
  unfold number_ok, scan_number, scan_parts. intros H. apply bool_decide_eq_true in H.
  destruct literal as [|a s]; [done|]. exists a, s. split; [done|].
  destruct (drop_prefix "-" (String a s)) as [q|] eqn:Hq.
  - right. apply drop_prefix_spec in Hq. simpl in Hq. injection Hq as -> _. done.
  - left. simpl in H. destruct (is_byte 48 a) eqn:H0; [apply is_byte_eq in H0 as ->; done|].
    unfold digits1 in H. simpl in H. destruct (is_digit a); [done|]. done.
Qed.

Lemma number_first a :
  is_digit a = true \/ is_byte 45 a = true ->
  is_ws a = false /\ is_byte 123 a = false /\ is_byte 91 a = false /\ is_byte 34 a = false /\
  forall s, drop_prefix "null" (String a s) = None /\ drop_prefix "true" (String a s) = None /\
            drop_prefix "false" (String a s) = None.
Proof.
  destruct a as [[] [] [] [] [] [] [] []]; intros [H|H]; try discriminate H; repeat split; reflexivity.
Qed.

Lemma print_starts j : well_formed j -> starts (print j).
Proof.
  destruct 1 as [|[]|n H| | |]; try done.
  apply number_ok_first in H as (a & s & -> & H). simpl. by apply number_first.
Qed.

Lemma join_cons (f : json -> string) x l :
  join "," (map f (x :: l)) = f x +:+ match l with [] => "" | _ => "," +:+ join "," (map f l) end.
Proof. destruct l; simpl; [by rewrite str_app_nil_r|done]. Qed.

Lemma skip_quote t : skip_ws (dquote +:+ t) = String (Ascii.ascii_of_N 34) t.
Proof. done. Qed.

Lemma skip_colon t : skip_ws (":" +:+ t) = String (Ascii.ascii_of_N 58) t.
Proof. done. Qed.

Lemma skip_comma t : skip_ws ("," +:+ t) = String (Ascii.ascii_of_N 44) t.
Proof. done. Qed.

Section Reading.
Variable value : string -> option (json * string).
Definition reads_back (j : json) : Prop := forall rest, ends rest -> value (print j +:+ rest) = Some (j, rest).

Lemma more_items fuel tail x xs rest :
  parse_items value fuel tail = Some (xs, rest) ->
  match skip_ws ("," +:+ tail) with
  | EmptyString => None
  | String a r1 =>
      if is_byte 44 a then match parse_items value fuel r1 with Some (vs, r2) => Some (x :: vs, r2) | None => None end
      else if is_byte 93 a then Some ([x], r1) else None
  end = Some (x :: xs, rest).
Proof. intros H. rewrite skip_comma. change (is_byte 44 _) with true. cbv iota. by rewrite H. Qed.

Lemma more_members fuel tail x xs rest :
  parse_members value fuel tail = Some (xs, rest) ->
  match skip_ws ("," +:+ tail) with
  | EmptyString => None
  | String a r1 =>
      if is_byte 44 a then match parse_members value fuel r1 with Some (vs, r2) => Some (x :: vs, r2) | None => None end
      else if is_byte 125 a then Some ([x], r1) else None
  end = Some (x :: xs, rest).
Proof. intros H. rewrite skip_comma. change (is_byte 44 _) with true. cbv iota. by rewrite H. Qed.

Lemma parse_items_print l fuel rest :
  l <> [] -> Forall reads_back l -> (length l <= fuel)%nat ->
  parse_items value fuel (join "," (map print l) +:+ "]" +:+ rest) = Some (l, rest).
Proof.
  revert fuel. induction l as [|x l IH]; intros fuel Hne Hall Hfuel; [done|].
  apply Forall_cons in Hall as [Hx Hall]. destruct fuel as [|fuel]; [simpl in Hfuel; lia|].
  destruct l as [|y l]; cbn [map join parse_items].
  - rewrite Hx by (right; left; done). done.
  - rewrite !str_app_assoc. rewrite Hx by (left; done).
    specialize (IH fuel ltac:(done) Hall ltac:(simpl in *; lia)). cbn [map] in IH.
    cbn [join] in IH. by apply more_items.
Qed.

Definition member_text (kv : string * json) : string := quoted kv.1 +:+ ":" +:+ print kv.2.

Lemma parse_member_print kv rest :
  literal_ok kv.1 -> reads_back kv.2 -> ends rest -> parse_member value (member_text kv +:+ rest) = Some (kv, rest).
Proof.
  destruct kv as [k v]. cbn [fst snd]. intros Hk Hv Hends. unfold parse_member, member_text, quoted. cbn [fst snd].
  rewrite !str_app_assoc, skip_quote. change (is_byte 34 _) with true. cbv iota.
  rewrite Hk, skip_colon. change (is_byte 58 _) with true. cbv iota. by rewrite Hv.
Qed.

Lemma parse_members_print l fuel rest :
  l <> [] -> Forall (fun kv => literal_ok kv.1 /\ reads_back kv.2) l -> (length l <= fuel)%nat ->
  parse_members value fuel (join "," (map member_text l) +:+ "}" +:+ rest) = Some (l, rest).
Proof.
  revert fuel. induction l as [|x l IH]; intros fuel Hne Hall Hfuel; [done|].
  apply Forall_cons in Hall as [[Hk Hx] Hall]. destruct fuel as [|fuel]; [simpl in Hfuel; lia|].
  destruct l as [|y l]; cbn [map join parse_members].
  - rewrite parse_member_print by (done || (right; right; done)). done.
  - rewrite !str_app_assoc. rewrite parse_member_print by (done || (left; done)).
    specialize (IH fuel ltac:(done) Hall ltac:(simpl in *; lia)). cbn [map join] in IH. by apply more_members.
Qed.
End Reading.

Lemma string_length_app s t : String.length (s +:+ t) = (String.length s + String.length t)%nat.
Proof. induction s as [|a s IH]; [done|]. rewrite str_app_cons. simpl. by rewrite IH. Qed.

(** There is a separator or the closing bracket for each item. *)
Lemma join_length l : (length l <= S (String.length (join "," l)))%nat.
Proof.
  induction l as [|x [|y l] IH]; cbn [join length] in *; [lia..|].
  rewrite !string_length_app. change (String.length ",") with 1%nat. simpl in *. lia.
Qed.

Lemma fold_max_le {A} (f : A -> nat) l d : (foldr (fun x n => Nat.max (f x) n) O l <= d)%nat -> Forall (fun x => (f x <= d)%nat) l.
Proof. induction l as [|x l IH]; simpl; intros H; constructor; [lia|apply IH; lia]. Qed.

Lemma close_app_starts {A} close (e : A) s items :
  starts s -> (forall t, s <> String (Ascii.ascii_of_N close) t) -> (close < 256)%N -> after_close close e s items = items.
Proof.
  intros Hs Hc Hlt. unfold after_close. rewrite skip_starts by done. destruct s as [|a s]; [done|].
  destruct (is_byte close a) eqn:E; [|done]. apply is_byte_eq in E as ->; [|done]. by edestruct Hc.
Qed.

Lemma quoted_starts k t : starts (quoted k +:+ t).
Proof. done. Qed.

Lemma is_byte_self n : (n < 256)%N -> is_byte n (Ascii.ascii_of_N n) = true.
Proof. intros H. unfold is_byte. rewrite Ascii.N_ascii_embedding by done. apply N.eqb_refl. Qed.

Lemma parse_value_string d r t : literal_ok r -> parse_value d (quoted r +:+ t) = Some (JStr r, t).
Proof.
  intros H. unfold quoted. rewrite !str_app_assoc. specialize (H t).
  destruct d; cbn [parse_value]; rewrite skip_quote; cbv beta iota zeta;
    change (is_byte 123 _) with false; change (is_byte 91 _) with false; change (is_byte 34 _) with true;
    cbv iota; by rewrite H.
Qed.

Lemma parse_value_number d n t : number_ok n = true -> ends t -> parse_value d (n +:+ t) = Some (JNum n, t).
Proof.
  intros Hok Hends. pose proof (number_ok_app n t Hok Hends) as Hscan.
  apply number_ok_first in Hok as (a & s & -> & Ha). apply number_first in Ha as (H1 & H2 & H3 & H4 & H5).
  specialize (H5 (s +:+ t)) as (H5 & H6 & H7). rewrite str_app_cons in *.
  destruct d; cbn [parse_value]; rewrite skip_starts by done; cbv beta iota zeta;
    rewrite H2, H3, H4, H5, H6, H7, Hscan; done.
Qed.

Lemma parse_value_array d r :
  parse_value (S d) ("[" +:+ r) = tag JArr (after_close 93 [] r (parse_items (parse_value d) (String.length r) r)).
Proof. done. Qed.

Lemma parse_value_object d r :
  parse_value (S d) ("{" +:+ r) = tag JObj (after_close 125 [] r (parse_members (parse_value d) (String.length r) r)).
Proof. done. Qed.

Lemma well_formed_not_close j close :
  well_formed j -> close = 93%N \/ close = 125%N -> forall t u, print j +:+ t <> String (Ascii.ascii_of_N close) u.
Proof.
  intros Hj Hc t u H. destruct Hj as [|[]|n Hn| | |]; try (destruct Hc as [->| ->]; discriminate H).
  apply number_ok_first in Hn as (a & s & -> & Ha). cbn [print] in H. rewrite str_app_cons in H. injection H as -> _.
  destruct Hc as [->| ->]; destruct Ha; discriminate.
Qed.

(** The reader gives back a printed tree, for as much depth as the tree has. *)
Lemma parse_value_print j : forall d rest,
  well_formed j -> (json_depth j <= d)%nat -> ends rest -> parse_value d (print j +:+ rest) = Some (j, rest).
Proof.
  induction j as [| b | n | r | l IH | l IH] using json_tree_ind; intros d rest Hwf Hd Hends.
  - by destruct d.
  - by destruct d, b.
  - inversion_clear Hwf. by apply parse_value_number.
  - inversion_clear Hwf. by apply parse_value_string.
  - destruct d as [|d]; simpl in Hd; [lia|]. apply le_S_n, fold_max_le in Hd.
    inversion_clear Hwf as [| | | |? Hall|]. cbn [print]. rewrite !str_app_assoc, parse_value_array.
    destruct l as [|x l]; [done|].
    assert (Hback : Forall (reads_back (parse_value d)) (x :: l)).
    { rewrite Forall_forall in *. intros y Hy t Ht. by apply IH; auto. }
    apply Forall_cons in Hall as [Hx Hall]. rewrite close_app_starts.
    + rewrite parse_items_print; [done|done|done|].
      rewrite !string_length_app. pose proof (join_length (map print (x :: l))) as Hl. rewrite length_map in Hl.
      change (String.length "]") with 1%nat. lia.
    + rewrite join_cons, str_app_assoc. by apply starts_app, print_starts.
    + rewrite join_cons, str_app_assoc. intros t. apply well_formed_not_close; auto.
    + done.
  - destruct d as [|d]; simpl in Hd; [lia|]. apply le_S_n, (fold_max_le (fun kv => json_depth kv.2)) in Hd.
    inversion_clear Hwf as [| | | | |? Hall]. cbn [print]. rewrite !str_app_assoc, parse_value_object.
    destruct l as [|x l]; [done|].
    assert (Hback : Forall (fun kv => literal_ok kv.1 /\ reads_back (parse_value d) kv.2) (x :: l)).
    { rewrite Forall_forall in *. intros y Hy. specialize (Hall y Hy) as [Hk Hwf]. split; [done|].
      intros t Ht. by apply IH; auto. }
    assert (Htext : exists t, join "," (map member_text (x :: l)) = quoted x.1 +:+ t).
    { destruct l; cbn [map join]; unfold member_text; rewrite ?str_app_assoc; eauto. }
    change (map _ (x :: l)) with (map member_text (x :: l)).
    rewrite close_app_starts.
    + rewrite parse_members_print; [done|done|done|].
      rewrite !string_length_app. pose proof (join_length (map member_text (x :: l))) as Hl. rewrite length_map in Hl.
      change (String.length "}") with 1%nat. lia.
    + destruct Htext as [t ->]. rewrite str_app_assoc. apply quoted_starts.
    + destruct Htext as [t ->]. rewrite str_app_assoc. by intros u.
    + done.
Qed.

Theorem parse_print j : well_formed j -> (json_depth j <= max_depth)%nat -> parse (print j) = Some j.
Proof.
  intros Hwf Hd. unfold parse, first_value. rewrite <- (str_app_nil_r (print j)).
  by rewrite parse_value_print.
Qed.

(** ** Decimal integers *)

Lemma span_all s : fst (span_digits s) = s -> span_digits s = (s, "").
Proof.
  induction s as [|a s IH]; simpl; [done|]. destruct (is_digit a); simpl; [|done].
  intros [= H]. by rewrite (IH H).
Qed.

Lemma span_cons a s : is_digit a = true -> span_digits s = (s, "") -> span_digits (String a s) = (String a s, "").
Proof. intros Ha Hs. simpl. by rewrite Ha, Hs. Qed.

Lemma pretty_char_digit n : (n < 10)%N -> digit_value (pretty_N_char n) = Some (Z.of_N n).
Proof.
  intros H. destruct n as [|p]; [done|].
  do 4 (destruct p as [p|p|]; try reflexivity; try lia).
Qed.

Lemma pretty_N_digits x s :
  span_digits s = (s, "") ->
  span_digits (pretty_N_go x s) = (pretty_N_go x s, "") /\ decimal (pretty_N_go x s) 0 = decimal s (Z.of_N x) /\
  (x <> 0%N -> exists a t, pretty_N_go x s = String a t /\ is_digit a = true /\ is_byte 48 a = false).
Proof.
  revert s. induction (N.lt_wf_0 x) as [x _ IH]. intros s Hs.
  destruct (decide (x = 0%N)) as [->|Hx]; [by rewrite pretty_N_go_0|].
  rewrite pretty_N_go_step by lia.
  assert (Hmod : (x mod 10 < 10)%N) by (apply N.mod_lt; lia).
  assert (Hc : is_digit (pretty_N_char (x mod 10)) = true) by (unfold is_digit; by rewrite pretty_char_digit).
  destruct (IH (x / 10)%N ltac:(apply N.div_lt; lia) (String (pretty_N_char (x mod 10)) s)) as (H1 & H2 & H3);
    [by apply span_cons|].
  split; [done|]. split.
  - rewrite H2. cbn [decimal]. rewrite pretty_char_digit by done. f_equal.
    rewrite N2Z.inj_div, N2Z.inj_mod. pose proof (Z.div_mod (Z.of_N x) 10). lia.
  - intros _. destruct (decide (x / 10 = 0)%N) as [H0|H0]; [|by apply H3].
    rewrite H0, pretty_N_go_0. eexists _, _. split; [done|]. split; [done|].
    assert (x < 10)%N by (apply N.div_small_iff in H0; lia).
    rewrite N.mod_small by done. destruct x as [|p]; [done|].
    do 4 (destruct p as [p|p|]; try reflexivity; try lia).
Qed.

Lemma pretty_N_text (n : N) :
  exists s, pretty n = s /\ scan_int s = Some (s, "") /\ decimal s 0 = Some (Z.of_N n) /\ drop_prefix "-" s = None.
Proof.
  exists (pretty n). split; [done|]. unfold pretty, pretty_N. case_decide as H; [by subst|].
  destruct (pretty_N_digits n "" eq_refl) as (H1 & H2 & H3). destruct (H3 H) as (a & t & Ha & Hd & H0).
  split; [|split; [done|]].
  - rewrite Ha in *. unfold scan_int. rewrite H0. unfold digits1. by rewrite H1.
  - rewrite Ha. destruct (drop_prefix "-" (String a t)) eqn:E; [|done].
    apply drop_prefix_spec in E. simpl in E. injection E as -> _. done.
Qed.

(** The four parts of a printed integer. *)
Lemma scan_parts_itoa z :
  exists s, itoa z = (if z <? 0 then "-" else "") +:+ s /\
    scan_parts (itoa z) = Some (if z <? 0 then "-" else "", s, "", "", "") /\ decimal s 0 = Some (Z.abs z).
Proof.
  assert (Hz : itoa z = (if z <? 0 then "-" else "") +:+ pretty (Z.abs_N z)) by (by destruct z).
  destruct (pretty_N_text (Z.abs_N z)) as (s & Hs & Hscan & Hdec & Hneg).
  exists s. rewrite Hz, Hs. split; [done|]. rewrite N2Z.inj_abs_N in Hdec. split; [|done].
  unfold scan_parts. destruct (z <? 0).
  - change (drop_prefix "-" ("-" +:+ s)) with (Some s). cbv beta iota zeta. by rewrite Hscan.
  - change ("" +:+ s) with s. by rewrite Hneg, Hscan.
Qed.

Lemma number_ok_itoa z : number_ok (itoa z) = true.
Proof.
  destruct (scan_parts_itoa z) as (s & Hz & Hp & _). unfold number_ok, scan_number. rewrite Hp.
  apply bool_decide_eq_true_2. rewrite Hz. cbn [String.append]. by rewrite str_app_nil_r.
Qed.

Lemma parse_int_itoa z : in_int z -> parse_int (itoa z) = Some z.
Proof.
  intros Hin. unfold parse_int.
  assert (Hz : itoa z = (if z <? 0 then "-" else "") +:+ pretty (Z.abs_N z)) by (by destruct z).
  destruct (pretty_N_text (Z.abs_N z)) as (s & Hs & _ & Hdec & Hneg). rewrite N2Z.inj_abs_N in Hdec.
  rewrite Hz, Hs. unfold in_int in Hin.
  assert (Hr : (int_min <=? z) && (z <=? int_max) = true) by lia.
  destruct (Z.ltb_spec z 0).
  - change (drop_prefix "-" ("-" +:+ s)) with (Some s). cbv beta iota zeta. rewrite Hdec. simpl.
    replace (- Z.abs z) with z by lia. by rewrite Hr.
  - change ("" +:+ s) with s. rewrite Hneg, Hdec. replace (Z.abs z) with z by lia. by rewrite Hr.
Qed.

Lemma rdiv_even_le n d : 0 <= n -> 0 < d -> 0 <= rdiv_even n d <= n + 1.
Proof.
  intros Hn Hd. unfold rdiv_even. pose proof (Z.div_pos n d Hn Hd). pose proof (Z.div_le_upper_bound n d n Hd).
  repeat case_match; nia.
Qed.

(** An integer of 64 bits is far from the largest float. *)
Lemma f64_round_small n :
  2 ^ 53 < n -> n <= 2 ^ 63 ->
  2 ^ 1024 * float_den (snd (f64_round n 1)) <=? float_num (fst (f64_round n 1)) (snd (f64_round n 1)) = false.
Proof.
  intros Hlo Hhi. unfold f64_round. cbn [fst snd]. change (Z.log2 1) with 0.
  assert (Hlog : 53 <= Z.log2 n <= 63).
  { split; [apply (Z.log2_le_pow2 n 53)|apply (Z.log2_le_mono n (2 ^ 63))]; lia. }
  set (e0 := Z.log2 n - 0 - 53).
  set (e := Z.max _ (-1074)). assert (He : 0 <= e <= 11).
  { subst e e0. case_match; lia. }
  clearbody e. replace (0 <=? e) with true by lia. cbn [fst snd]. rewrite Z.mul_1_l.
  assert (Hp : 0 < 2 ^ e <= 2 ^ 11) by (split; [apply Z.pow_pos_nonneg; lia|apply Z.pow_le_mono_r; lia]).
  pose proof (rdiv_even_le n (2 ^ e) ltac:(lia) ltac:(lia)) as Hm.
  unfold float_den, float_num. replace (0 <=? e) with true by lia. apply Z.leb_gt.
  apply Z.le_lt_trans with ((n + 1) * 2 ^ 11); [nia|]. apply Z.le_lt_trans with ((2 ^ 63 + 1) * 2 ^ 11); [lia|].
  by apply Z.ltb_lt.
Qed.

(** An integer reads back as its float. *)
Lemma number_value_itoa z :
  in_int z -> (fun p => AFloat p.1 p.2) <$> number_value (itoa z) = Some (float_of_int z).
Proof.
  intros Hz. destruct (scan_parts_itoa z) as (s & _ & Hp & Hdec). unfold number_value. rewrite Hp.
  rewrite str_app_nil_r, Hdec. change (exp_value "" - str_len "") with 0. cbn [Z.leb Z.compare].
  change (10 ^ 0) with 1. rewrite Z.mul_1_r.
  unfold float_of_ratio, float_of_int. rewrite Z.mod_1_r, Z.div_1_r. cbn [Z.eqb andb].
  assert (Hsign : (if (if z <? 0 then "-" else "") == "-" then -1 else 1) * Z.abs z = z).
  { destruct (Z.ltb_spec z 0); [change ("-" == "-") with true|change ("" == "-") with false]; cbv iota; lia. }
  destruct (Z.leb_spec (Z.abs z) (2 ^ 53)) as [Hs|Hs].
  { cbn [fmap option_fmap option_map fst snd]. by rewrite Hsign. }
  unfold in_int, int_min, int_max in *.
  pose proof (f64_round_small (Z.abs z) Hs ltac:(lia)) as Hr. destruct (f64_round (Z.abs z) 1) as [m e] eqn:E.
  cbn [fst snd] in *. rewrite Hr. cbn [fmap option_fmap option_map fst snd]. do 2 f_equal.
  destruct (Z.ltb_spec z 0); [change ("-" == "-") with true; cbv iota; rewrite Z.sgn_neg by lia; lia|].
  change ("" == "-") with false. cbv iota. rewrite Z.sgn_pos; lia.
Qed.

(** ** Sorted entries *)

#[global] Instance key_le_trans {A} : Transitive (@key_le A).
Proof. intros a b c. unfold key_le. by transitivity b.1. Qed.

#[global] Instance key_le_total {A} : Total (@key_le A).
Proof. intros a b. unfold key_le. apply (total str_le). Qed.

Lemma sorted_entries_perm {A} (m : gmap string A) : sorted_entries m ≡ₚ map_to_list m.
Proof. apply merge_sort_Permutation. Qed.

Lemma sorted_entries_keys {A} (m : gmap string A) : NoDup (sorted_entries m).*1.
Proof. rewrite sorted_entries_perm. apply NoDup_fst_map_to_list. Qed.

Lemma sorted_entries_map {A} (m : gmap string A) : list_to_map (sorted_entries m) = m.
Proof.
  rewrite <- (list_to_map_to_list m) at 2. apply list_to_map_proper; [apply sorted_entries_keys|apply sorted_entries_perm].
Qed.

Lemma sorted_entries_fmap {A B} (f : A -> B) (m : gmap string A) :
  sorted_entries (f <$> m) = map (fun kv => (kv.1, f kv.2)) (sorted_entries m).
Proof.
  apply (StronglySorted_unique_strong key_le).
  - intros [k1 v1] [k2 v2] H1 H2 H12 H21. apply sorted_entries_elem in H1.
    apply list_elem_of_fmap in H2 as ([k v] & [= -> ->] & H2). apply sorted_entries_elem in H2.
    unfold key_le in *. simpl in *. assert (k1 = k) as -> by by apply (anti_symm str_le).
    rewrite lookup_fmap, H2 in H1. by injection H1 as <-.
  - apply (StronglySorted_merge_sort key_le).
  - pose proof (StronglySorted_merge_sort key_le (map_to_list m)) as H. unfold sorted_entries.
    induction H as [|x l _ IH Hx]; simpl; constructor; [done|].
    rewrite Forall_forall in Hx. apply Forall_forall.
    intros y Hy. apply list_elem_of_fmap in Hy as (z & -> & Hz). by apply (Hx z).
  - rewrite sorted_entries_perm, map_to_list_fmap. apply Permutation_map. symmetry. apply sorted_entries_perm.
Qed.

(** ** What json.Marshal writes *)

Lemma print_object (l : list (string * json)) :
  print (JObj (map (fun kv => (json_escape kv.1, kv.2)) l)) = json_object (map (fun kv => (kv.1, print kv.2)) l).
Proof. cbn [print]. unfold json_object, json_string, quoted. by rewrite !map_map. Qed.

Lemma print_map (m : payload) :
  print (JObj (map (fun kv => (json_escape kv.1, kv.2)) (sorted_entries (to_json <$> m)))) =
  json_object (sorted_entries ((fun a => print (to_json a)) <$> m)).
Proof.
  rewrite print_object, <- (sorted_entries_fmap print). by rewrite <- map_fmap_compose.
Qed.

(** The text json.Marshal writes is that of its tree. *)
Lemma json_text_print a : json_text a = print (to_json a).
Proof.
  induction a as [a IH] using any_rect_prop. destruct a as [| | | | |l|l|m|l|fs]; try done.
  - cbn [json_text to_json print]. by rewrite map_map.
  - cbn [json_text to_json print]. unfold json_array. do 3 f_equal. rewrite map_map.
    apply map_ext_in. intros x Hx. apply IH. by apply list_elem_of_In.
  - cbn [json_text to_json]. rewrite print_map. do 2 f_equal. apply map_fmap_ext. intros k v Hk. eauto.
  - cbn [json_text to_json print]. unfold json_array. do 3 f_equal. rewrite map_map.
    apply map_ext_in. intros m Hm. rewrite print_map. do 2 f_equal.
    apply map_fmap_ext. intros k v Hk. apply (IH m k v); [by apply list_elem_of_In|done].
  - cbn [json_text to_json].
    replace (map (fun kv => (json_escape kv.1, to_json kv.2)) fs)
      with (map (fun kv : string * json => (json_escape kv.1, kv.2)) (map (fun kv => (kv.1, to_json kv.2)) fs))
      by by rewrite map_map.
    rewrite print_object, map_map. f_equal. apply map_ext_in. intros [k v] Hk. simpl. f_equal.
    apply (IH k v). by apply list_elem_of_In.
Qed.

(** A float whose text reads back as it. *)
Definition float_reads (m e : Z) : bool :=
  number_ok (json_float m e) && bool_decide (number_value (json_float m e) = Some (m, e)).

(** Values whose text can be read back: the ints fit a machine word, the floats
    are printed so that they read back, and no struct repeats a field. *)
Inductive readable : any -> Prop :=
| readable_nil : readable ANil
| readable_bool b : readable (ABool b)
| readable_int z : in_int z -> readable (AInt z)
| readable_float m e : float_reads m e = true -> readable (AFloat m e)
| readable_str s : readable (AStr s)
| readable_strs l : readable (AStrs l)
| readable_list l : (forall x, x ∈ l -> readable x) -> readable (AList l)
| readable_map (m : payload) : (forall k v, m !! k = Some v -> readable v) -> readable (AMap m)
| readable_maps (l : list payload) : (forall m k v, m ∈ l -> m !! k = Some v -> readable v) -> readable (AMaps l)
| readable_struct fs : NoDup fs.*1 -> (forall k v, (k, v) ∈ fs -> readable v) -> readable (AStruct fs).

Lemma object_well_formed (m : payload) :
  (forall k v, m !! k = Some v -> well_formed (to_json v)) ->
  well_formed (JObj (map (fun kv => (json_escape kv.1, kv.2)) (sorted_entries (to_json <$> m)))).
Proof.
  intros H. constructor. apply Forall_forall. intros kv Hkv. apply list_elem_of_fmap in Hkv as ([k j] & -> & Hj).
  apply sorted_entries_elem in Hj. rewrite lookup_fmap in Hj. apply fmap_Some in Hj as (v & Hv & ->).
  split; [apply json_escape_ok|by eapply H].
Qed.

Lemma to_json_well_formed a : readable a -> well_formed (to_json a).
Proof.
  induction 1 as [|b|z Hz|m e Hf|s|l|l _ IH|m _ IH|l _ IH|fs _ _ IH]; cbn [to_json];
    try (constructor; done).
  - constructor. apply number_ok_itoa.
  - constructor. by apply andb_true_iff in Hf as [? _].
  - constructor. apply json_escape_ok.
  - constructor. apply Forall_forall. intros x Hx. apply list_elem_of_fmap in Hx as (s & -> & _).
    constructor. apply json_escape_ok.
  - constructor. apply Forall_forall. intros x Hx. apply list_elem_of_fmap in Hx as (s & -> & Hs). auto.
  - apply object_well_formed. eauto.
  - constructor. apply Forall_forall. intros x Hx. apply list_elem_of_fmap in Hx as (m & -> & Hm).
    apply object_well_formed. eauto.
  - constructor. apply Forall_forall. intros x Hx. apply list_elem_of_fmap in Hx as ([k v] & -> & Hm).
    split; [apply json_escape_ok|eauto].
Qed.

(** ** Their values *)

Lemma value_of_array l vs : Forall2 (fun j v => value_of j = Some v) l vs -> value_of (JArr l) = Some (AList vs).
Proof.
  intros H. cbn [value_of].
  assert (Hgo : forall acc, (fix go (l : list json) (acc : list any) : option any :=
         match l with
         | [] => Some (AList (rev acc))
         | x :: rest => match value_of x with Some v => go rest (v :: acc) | None => None end
         end) l acc = Some (AList (rev acc ++ vs))).
  { induction H as [|x v l vs Hx _ IH]; intros acc; [by rewrite app_nil_r|].
    rewrite Hx, IH. simpl. by rewrite <- app_assoc. }
  apply (Hgo []).
Qed.

Lemma value_of_object l (ws : list (string * any)) :
  Forall2 (fun kj w => unquote kj.1 = w.1 /\ value_of kj.2 = Some w.2) l ws -> NoDup ws.*1 ->
  value_of (JObj l) = Some (AMap (list_to_map ws)).
Proof.
  intros H Hnd. cbn [value_of].
  assert (Hgo : forall acc, (fix go (l : list (string * json)) (acc : payload) : option any :=
         match l with
         | [] => Some (AMap acc)
         | (k, x) :: rest => match value_of x with Some v => go rest (<[unquote k := v]> acc) | None => None end
         end) l acc = Some (AMap (list_to_map (rev ws) ∪ acc))).
  { clear Hnd. induction H as [|[k x] [k' v] l ws [Hk Hx] _ IH]; intros acc.
    - simpl. by rewrite (left_id_L ∅ _).
    - simpl in Hk, Hx. rewrite Hx, IH. do 2 f_equal. cbn [rev]. rewrite list_to_map_app. subst k'. simpl.
      rewrite <- (assoc_L _). f_equal. by rewrite insert_union_singleton_l, insert_empty. }
  rewrite Hgo, (right_id_L ∅ _). do 2 f_equal. apply list_to_map_proper.
  - by rewrite <- Permutation_rev.
  - symmetry. apply Permutation_rev.
Qed.

Lemma value_of_map (m : payload) :
  (forall k v, m !! k = Some v -> value_of (to_json v) = Some (json_norm v)) ->
  value_of (JObj (map (fun kv => (json_escape kv.1, kv.2)) (sorted_entries (to_json <$> m)))) = Some (AMap (json_norm <$> m)).
Proof.
  intros H. rewrite sorted_entries_fmap, map_map.
  rewrite (value_of_object _ (map (fun kv => (kv.1, json_norm kv.2)) (sorted_entries m))).
  - rewrite <- sorted_entries_fmap. by rewrite sorted_entries_map.
  - apply Forall2_fmap, Forall_Forall2_diag, Forall_forall. intros [k v] Hkv. apply sorted_entries_elem in Hkv. simpl.
    split; [apply unquote_escape|eauto].
  - rewrite <- sorted_entries_fmap. apply sorted_entries_keys.
Qed.

Lemma value_of_to_json a : readable a -> value_of (to_json a) = Some (json_norm a).
Proof.
  induction 1 as [|b|z Hz|m e Hf|s|l|l _ IH|m _ IH|l _ IH|fs Hnd _ IH]; try done.
  - cbn [to_json value_of json_norm]. pose proof (number_value_itoa z Hz) as H.
    destruct (number_value (itoa z)) as [[m e]|]; [|done]. exact H.
  - cbn [to_json value_of json_norm]. apply andb_true_iff in Hf as [_ Hf]. apply bool_decide_eq_true in Hf. by rewrite Hf.
  - cbn [to_json value_of json_norm]. by rewrite unquote_escape.
  - cbn [to_json json_norm]. apply value_of_array, Forall2_fmap, Forall_Forall2_diag, Forall_forall.
    intros s _. cbn [value_of]. by rewrite unquote_escape.
  - cbn [to_json json_norm]. apply value_of_array, Forall2_fmap, Forall_Forall2_diag, Forall_forall. eauto.
  - cbn [to_json json_norm]. apply value_of_map. eauto.
  - cbn [to_json json_norm]. apply value_of_array, Forall2_fmap, Forall_Forall2_diag, Forall_forall.
    intros m Hm. apply value_of_map. eauto.
  - cbn [to_json json_norm]. apply value_of_object.
    + apply Forall2_fmap, Forall_Forall2_diag, Forall_forall. intros [k v] Hk. simpl.
      split; [apply unquote_escape|eauto].
    + by rewrite <- list_fmap_compose.
Qed.

(** What json.Marshal writes for a readable value is read back as its normal form. *)
Theorem unmarshal_json_text a :
  readable a -> (json_depth (to_json a) <= max_depth)%nat -> unmarshal (json_text a) = Some (json_norm a).
Proof.
  intros Ha Hd. unfold unmarshal. rewrite json_text_print, parse_print; [|by apply to_json_well_formed|done].
  by apply value_of_to_json.
Qed.

(** Integers that are floats read back. *)
Lemma float_reads_small z : Z.abs z <= 2 ^ 53 -> float_reads z 0 = true.
Proof.
  intros Hz. unfold float_reads. rewrite json_float_small, number_ok_itoa by done. apply bool_decide_eq_true_2.
  assert (Hin : in_int z) by (unfold in_int, int_min, int_max; lia).
  pose proof (number_value_itoa z Hin) as H. unfold float_of_int in H.
  replace (Z.abs z <=? 2 ^ 53) with true in H by lia. destruct (number_value (itoa z)) as [[m e]|]; [|done].
  by injection H as -> ->.
Qed.

(** A tree of every kind, whose text reads back. *)
Example jx_round_trip :
  let v := AMap {[ "b" := AInt (-7); "a" := AList [AStr (bytes [34; 92; 10; 60; 226; 128; 168]%N); ABool true; ANil];
                   "c" := AFloat (fst (f64_round 1 10)) (snd (f64_round 1 10)) ]} in
  unmarshal (json_text v) = Some (json_norm v).
Proof. vm_compute. reflexivity. Qed.
