(* ===== verification/EventCodec.v ===== *)
(** * The bytes of the event log (storage/model.go, storage/events.go)

    What AppendEvent writes for an envelope, what ReadLogIndex makes of the bytes
    of channel.jsonl, and the channel of decoded lines that they stand for.
    Decoding follows encoding/json: keys name fields up to case, null leaves a
    field as it is, a repeated object merges into what was decoded before. *)

From S2P Require Import Prelude GoValue GoTime Model Ids Evidence Events Unmarshal Json Text.

(** ** Encoding *)

Definition present (fields : list (string * option any)) : list (string * any) :=
  omap (fun f => (fun v => (f.1, v)) <$> f.2) fields.

Definition nonempty (s : string) : option any := if s == "" then None else Some (AStr s).

Definition runner_fields (r : RunnerInfo) : list (string * option any) :=
  [("invocation_id", Some (AStr (rn_invocation_id r))); ("adapter_kind", Some (AStr (rn_adapter_kind r)));
   ("member", Some (AStr (rn_member r))); ("attempt", Some (AInt (rn_attempt r)));
   ("is_retry", Some (ABool (rn_is_retry r))); ("source_command_id", nonempty (rn_source_command_id r));
   ("status", Some (AStr (rn_status r)));
   ("duration_sec", (fun d => AFloat d.1 d.2) <$> rn_duration_sec r)].

Definition recipients_value (nil_to : bool) (tos : list string) : any :=
  if nil_to && bool_decide (tos = []) then ANil else AStrs tos.

(** [nil_to] says whether an empty recipient list is a nil slice, which the
    envelope of the model does not tell. *)
Definition event_fields (nil_to : bool) (e : EventEnvelope) : list (string * option any) :=
  [("schema_version", Some (AInt (ev_schema_version e))); ("event_id", Some (AStr (ev_event_id e)));
   ("command_id", nonempty (ev_command_id e)); ("causation_event_id", nonempty (ev_causation_event_id e));
   ("correlation_id", nonempty (ev_correlation_id e)); ("session_id", Some (AStr (ev_session_id e)));
   ("session_type", Some (AStr (ev_session_type e))); ("turn", AInt <$> ev_turn e);
   ("phase", Some (AStr (ev_phase e))); ("type", Some (AStr (ev_type e))); ("from", Some (AStr (ev_from e)));
   ("to", Some (recipients_value nil_to (ev_to e)));
   ("created_at", Some (AStr (time_format (ev_created_at e))));
   ("runner", (fun r => AStruct (present (runner_fields r))) <$> ev_runner e); ("cost", ev_cost e);
   ("payload", Some (match ev_payload e with Some p => AMap p | None => ANil end))].

Definition event_value (nil_to : bool) (e : EventEnvelope) : any := AStruct (present (event_fields nil_to e)).

(** The line that AppendEvent writes. *)
Definition event_line (nil_to : bool) (e : EventEnvelope) : string := json_text (event_value nil_to e) +:+ nl.

(** ** Decoding *)

Definition decode_string (old : string) (j : json) : option string :=
  match j with
  | JNull => Some old
  | JStr raw => Some (unquote raw)
  | _ => None
  end.

Definition decode_int (old : Z) (j : json) : option Z :=
  match j with
  | JNull => Some old
  | JNum literal => parse_int literal
  | _ => None
  end.

Definition decode_bool (old : bool) (j : json) : option bool :=
  match j with
  | JNull => Some old
  | JBool b => Some b
  | _ => None
  end.

(** A pointer: null clears it, a value is decoded over what it points to. *)
Definition decode_pointer {A} (zero : A) (decode : A -> json -> option A) (old : option A) (j : json) : option (option A) :=
  match j with
  | JNull => Some None
  | _ => match decode (default zero old) j with Some a => Some (Some a) | None => None end
  end.

Definition decode_float (old : Z * Z) (j : json) : option (Z * Z) :=
  match j with
  | JNull => Some old
  | JNum literal => number_value literal
  | _ => None
  end.

(** A slice of strings: its elements are decoded over those it had. *)
Fixpoint decode_elements (old : list string) (l : list json) : option (list string) :=
  match l with
  | [] => Some []
  | j :: rest =>
      match decode_string (hd "" old) j, decode_elements (tl old) rest with
      | Some s, Some ss => Some (s :: ss)
      | _, _ => None
      end
  end.

Definition decode_strings (old : list string) (j : json) : option (list string) :=
  match j with
  | JNull => Some []
  | JArr l => decode_elements old l
  | _ => None
  end.

(** Time.UnmarshalJSON parses the literal as it is, without its escapes. *)
Definition decode_time (old : time) (j : json) : option time :=
  match j with
  | JNull => Some old
  | JStr raw => time_parse raw
  | _ => None
  end.

(** A raw message keeps any literal; one that is no value, a number out of
    range, is kept as a value that is no object. *)
Definition decode_cost (old : option any) (j : json) : option (option any) :=
  Some (Some (default (AStr (print j)) (value_of j))).

Definition decode_payload (old : option payload) (j : json) : option (option payload) :=
  match j with
  | JNull => Some None
  | _ => match value_of j with
         | Some (AMap m) => Some (Some (m ∪ default ∅ old))
         | _ => None
         end
  end.

(** A field of a struct: every entry that names it is decoded in turn. *)
Definition field_step {A} (names : list string) (decode : A -> json -> option A) (name : string) (acc : option A)
    (kv : string * json) : option A :=
  match acc, field_at (map (fun n => (n, tt)) names) (unquote kv.1) with
  | Some old, Some (n, _) => if n == name then decode old kv.2 else Some old
  | _, _ => acc
  end.

Definition field {A} (names : list string) (entries : list (string * json)) (decode : A -> json -> option A)
    (name : string) (zero : A) : option A :=
  foldl (field_step names decode name) (Some zero) entries.

Definition runner_names : list string :=
  ["invocation_id"; "adapter_kind"; "member"; "attempt"; "is_retry"; "source_command_id"; "status"; "duration_sec"].

Definition no_runner : RunnerInfo := mk_runner "" "" "" 0 false "" "" None.

Definition decode_runner (old : RunnerInfo) (j : json) : option RunnerInfo :=
  match j with
  | JNull => Some old
  | JObj entries =>
      invocation ← field runner_names entries decode_string "invocation_id" (rn_invocation_id old);
      kind ← field runner_names entries decode_string "adapter_kind" (rn_adapter_kind old);
      member ← field runner_names entries decode_string "member" (rn_member old);
      attempt ← field runner_names entries decode_int "attempt" (rn_attempt old);
      retry ← field runner_names entries decode_bool "is_retry" (rn_is_retry old);
      source ← field runner_names entries decode_string "source_command_id" (rn_source_command_id old);
      status ← field runner_names entries decode_string "status" (rn_status old);
      duration ← field runner_names entries (decode_pointer (0, 0) decode_float) "duration_sec" (rn_duration_sec old);
      Some (mk_runner invocation kind member attempt retry source status duration)
  | _ => None
  end.

Definition event_names : list string :=
  ["schema_version"; "event_id"; "command_id"; "causation_event_id"; "correlation_id"; "session_id"; "session_type"; "turn";
   "phase"; "type"; "from"; "to"; "created_at"; "runner"; "cost"; "payload"].

Definition no_event : EventEnvelope := mk_event 0 "" "" "" "" "" "" None "" "" "" [] zero_time None None None.

(** json.Unmarshal of an object into an EventEnvelope. *)
Definition decode_event (entries : list (string * json)) : option EventEnvelope :=
  schema ← field event_names entries decode_int "schema_version" 0;
  id ← field event_names entries decode_string "event_id" "";
  command ← field event_names entries decode_string "command_id" "";
  causation ← field event_names entries decode_string "causation_event_id" "";
  correlation ← field event_names entries decode_string "correlation_id" "";
  session ← field event_names entries decode_string "session_id" "";
  ty ← field event_names entries decode_string "session_type" "";
  turn ← field event_names entries (decode_pointer 0 decode_int) "turn" None;
  phase ← field event_names entries decode_string "phase" "";
  kind ← field event_names entries decode_string "type" "";
  from ← field event_names entries decode_string "from" "";
  to ← field event_names entries decode_strings "to" [];
  created ← field event_names entries decode_time "created_at" zero_time;
  runner ← field event_names entries (decode_pointer no_runner decode_runner) "runner" None;
  cost ← field event_names entries decode_cost "cost" None;
  payload ← field event_names entries decode_payload "payload" None;
  Some (mk_event schema id command causation correlation session ty turn phase kind from to created runner cost payload).

Section Lines.
(** The message of encoding/json about a line that does not decode. *)
Variable decode_message : string -> string.

(** A line of the log: blank, an envelope with a [status] key, one that does
    not decode, or an envelope.  null decodes to an empty envelope. *)
Definition decode_line (line : string) : log_line :=
  if is_blank line then LineBlank
  else
    match parse line with
    | Some JNull => LineEvent false no_event
    | Some (JObj entries) =>
        if existsb (fun kv => unquote kv.1 == "status") entries then LineEvent true no_event
        else match decode_event entries with
             | Some e => LineEvent false e
             | None => LineBad (decode_message line)
             end
    | _ => LineBad (decode_message line)
    end.

(** The part of ReadLogIndex after the file was read. *)
Definition ReadLogContent (path : string) (md : SessionMetadata) (content : string) : result error LogIndex :=
  if content == "" then Ok empty_index
  else
    ensure has_suffix content nl or NewValidationError CategoryLogCorrupt path "channel.jsonl is missing final newline";;
    read_lines md path 0 (map decode_line (split_nl (trim_suffix content nl))) empty_index.

(** The channel that the bytes of a log file stand for: its complete lines, and
    whether bytes follow the last of them. *)
Definition channel_of (kind : node_kind) (content : string) : channel :=
  mk_channel kind (map decode_line (removelast (split_nl content))) (List.last (split_nl content) "" != "").
End Lines.

(** Lines with odd keys, a cleared pointer, a repeated payload, and bad ones. *)
Example ex_decoded :
  let q s := dquote +:+ s +:+ dquote in
  let line s := decode_line (fun _ => "message") ("{" +:+ s +:+ "}") in
  let one k v := q k +:+ ":" +:+ v in
  line (one "EVENT_ID" (q "e1") +:+ "," +:+ one "turn" "3" +:+ "," +:+ one "turn" "null") =
    LineEvent false (mk_event 0 "e1" "" "" "" "" "" None "" "" "" [] zero_time None None None) /\
  line (one "payload" ("{" +:+ one "a" "1" +:+ "}") +:+ "," +:+ one "payload" ("{" +:+ one "b" "2" +:+ "}")) =
    LineEvent false (mk_event 0 "" "" "" "" "" "" None "" "" "" [] zero_time None None
      (Some {[ "a" := AFloat 1 0; "b" := AFloat 2 0 ]})) /\
  line (one "status" "null") = LineEvent true no_event /\
  line (one "turn" "1.5") = LineBad "message" /\ line (one "created_at" (q "today")) = LineBad "message" /\
  decode_line (fun _ => "message") " " = LineBlank /\ decode_line (fun _ => "message") "null" = LineEvent false no_event.
Proof. vm_compute. repeat split. Qed.
