(* ===== verification/EventCodecTheory.v ===== *)
(** * The bytes of the event log implement the log of decoded lines

    An encoded envelope decodes to its normal form, so that writing its line, in
    whole or in part, does to the bytes of channel.jsonl what the append of
    Events.v does to the channel they stand for, and reading the bytes gives what
    reading that channel gives. *)

From S2P Require Import Prelude GoValue GoTime Model Ids Evidence Events EventLog Unmarshal Json JsonTheory Text EventCodec Fixtures.

(** ** Plain text needs no escapes *)

Definition plain_char (a : Ascii.ascii) : bool :=
  (json_escape_char (Ascii.N_of_ascii a) == String a "") && negb (is_byte 226 a).

Definition plain (s : string) : Prop := any_char (fun a => negb (plain_char a)) s = false.

Lemma plain_cons a s : plain (String a s) <-> plain_char a = true /\ plain s.
Proof. unfold plain. simpl. rewrite orb_false_iff, negb_false_iff. done. Qed.

Lemma plain_app s t : plain s -> plain t -> plain (s +:+ t).
Proof.
  induction s as [|a s IH]; intros Hs Ht; [done|]. rewrite str_app_cons. apply plain_cons in Hs as [Ha Hs].
  apply plain_cons. auto.
Qed.

Lemma plain_escape s : plain s -> json_escape s = s.
Proof.
  induction s as [|a s IH]; [done|]. intros H. apply plain_cons in H as [Ha Hs]. specialize (IH Hs).
  unfold plain_char in Ha. apply andb_true_iff in Ha as [Ha H226]. apply String.eqb_eq in Ha.
  assert (Hone : json_escape (String a s) = json_escape_char (Ascii.N_of_ascii a) +:+ json_escape s).
  { destruct s as [|b [|c s]]; [done..|]. unfold is_byte in H226. cbn [json_escape].
    by destruct (Ascii.N_of_ascii a =? 226)%N. }
  rewrite Hone, IH, Ha. done.
Qed.

Lemma plain_digit n : 0 <= n < 10 -> plain_char (digit n) = true.
Proof.
  intros H. rewrite <- (Z2Nat.id n) by lia. assert (Hn : (Z.to_nat n < 10)%nat) by lia. revert Hn.
  generalize (Z.to_nat n). intros k Hk. do 10 (destruct k as [|k]; [reflexivity|]). lia.
Qed.

Lemma plain_pad w n : 0 <= n < 10 ^ Z.of_nat w -> plain (pad_digits w n).
Proof.
  revert n. induction w as [|w IH]; intros n H; [done|]. destruct (split_digits w n H) as (H1 & H2 & _).
  cbn [pad_digits]. apply plain_cons. split; [by apply plain_digit|by apply IH].
Qed.

Lemma plain_frac w n : 0 <= n < 10 ^ Z.of_nat w -> plain (frac_digits w n).
Proof.
  revert n. induction w as [|w IH]; intros n H; [done|]. destruct (split_digits w n H) as (H1 & H2 & _).
  cbn [frac_digits]. destruct (n =? 0); [done|]. apply plain_cons. split; [by apply plain_digit|by apply IH].
Qed.

Lemma plain_time t : time_json_ok t = true -> plain (time_format t).
Proof.
  unfold time_json_ok, time_year, time_format. intros Hok.
  pose proof (Z.mod_pos_bound (t / second) 86400 ltac:(lia)) as Hsod.
  pose proof (Z.mod_pos_bound t second ltac:(done)) as Hns.
  set (sod := (t / second) mod 86400) in *. set (ns := t mod second) in *. clearbody sod ns.
  destruct (civil_from_days _) as [[y m] d] eqn:Hcivil. simpl in Hok. rewrite Hok.
  pose proof (civil_valid _ _ _ _ Hcivil) as [Hm Hd].
  assert (month_days y m <= 31) by (unfold month_days; repeat case_match; lia).
  apply andb_true_iff in Hok as [Hy0 Hy1].
  repeat apply plain_app; try done; try (apply plain_pad; simpl; first [lia | Z.to_euclidean_division_equations; lia]).
  destruct (ns =? 0); [done|]. apply plain_app; [done|]. by apply plain_frac.
Qed.

(** ** Fields of an encoded struct *)

Fixpoint assoc {A} (name : string) (l : list (string * A)) : option A :=
  match l with
  | [] => None
  | (k, v) :: rest => if k == name then Some v else assoc name rest
  end.

(** The entries json.Marshal writes for the present fields. *)
Definition entries_of (fields : list (string * option any)) : list (string * json) :=
  map (fun kv => (json_escape kv.1, to_json kv.2)) (present fields).

Lemma field_at_exact names n : n ∈ names -> field_at (map (fun n => (n, tt)) names) n = Some (n, tt).
Proof.
  intros Hn. unfold field_at.
  destruct (find_first (fun f : string * unit => f.1 == n) (map (fun n => (n, tt)) names)) as [[m []]|] eqn:E.
  - apply find_some in E as [_ E]. apply String.eqb_eq in E. by rewrite <- E.
  - exfalso. unfold find_first in E. apply (find_none _ _) with (x := (n, tt)) in E.
    + simpl in E. by rewrite String.eqb_refl in E.
    + apply in_map_iff. exists n. split; [done|]. by apply list_elem_of_In.
Qed.

Lemma entries_cons k o fields :
  entries_of ((k, o) :: fields) =
  match o with Some v => (json_escape k, to_json v) :: entries_of fields | None => entries_of fields end.
Proof. by destruct o. Qed.

Lemma field_step_escape {A} names (decode : A -> json -> option A) name acc k j :
  k ∈ names ->
  field_step names decode name acc (json_escape k, j) =
  match acc with Some old => if k == name then decode old j else Some old | None => None end.
Proof. intros Hk. unfold field_step. cbn [fst snd]. rewrite unquote_escape, field_at_exact by done. by destruct acc. Qed.

Lemma field_skip {A} names fields (decode : A -> json -> option A) name acc :
  (forall n, n ∈ fields.*1 -> n ∈ names) -> name ∉ fields.*1 ->
  foldl (field_step names decode name) acc (entries_of fields) = acc.
Proof.
  revert acc. induction fields as [|[k o] fields IH]; intros acc Hin Hname; [done|].
  rewrite fmap_cons in *. cbn [fst] in *. apply not_elem_of_cons in Hname as [Hne Hname].
  rewrite entries_cons. destruct o as [v|]; [|apply IH; [set_solver|done]].
  cbn [foldl]. rewrite field_step_escape by set_solver. destruct acc as [old|]; [|apply IH; [set_solver|done]].
  destruct (k == name) eqn:E; [by apply String.eqb_eq in E|]. apply IH; [set_solver|done].
Qed.

(** A field of an encoded struct is decoded from its value, once. *)
Lemma field_present {A} names fields (decode : A -> json -> option A) name zero :
  (forall n, n ∈ fields.*1 -> n ∈ names) -> NoDup fields.*1 ->
  field names (entries_of fields) decode name zero =
  match assoc name fields with
  | Some (Some v) => decode zero (to_json v)
  | _ => Some zero
  end.
Proof.
  unfold field. induction fields as [|[k o] fields IH]; intros Hin Hnd; [done|].
  rewrite fmap_cons in *. cbn [fst] in *. apply NoDup_cons in Hnd as [Hk Hnd].
  rewrite entries_cons. cbn [assoc]. destruct (k == name) eqn:E.
  - apply String.eqb_eq in E as ->. destruct o as [v|]; [|apply field_skip; [set_solver|done]].
    cbn [foldl]. rewrite field_step_escape by set_solver. rewrite String.eqb_refl. apply field_skip; [set_solver|done].
  - destruct o as [v|]; [|apply IH; [set_solver|done]].
    cbn [foldl]. rewrite field_step_escape, E by set_solver. apply IH; [set_solver|done].
Qed.

(** ** The encoded event decodes to its normal form *)

(** Envelopes that json.Marshal can write and whose numbers read back. *)
Record writable (nil_to : bool) (e : EventEnvelope) : Prop := {
  wr_schema : in_int (ev_schema_version e);
  wr_turn : forall t, ev_turn e = Some t -> in_int t;
  wr_time : time_json_ok (ev_created_at e) = true;
  wr_attempt : forall r, ev_runner e = Some r -> in_int (rn_attempt r);
  wr_duration : forall r m x, ev_runner e = Some r -> rn_duration_sec r = Some (m, x) -> float_reads m x = true;
  wr_cost : forall c, ev_cost e = Some c -> readable c;
  wr_payload : forall p, ev_payload e = Some p -> readable (AMap p);
  wr_depth : (json_depth (to_json (event_value nil_to e)) <= max_depth)%nat }.

Lemma readable_present fields :
  NoDup fields.*1 -> (forall k v, (k, Some v) ∈ fields -> readable v) -> readable (AStruct (present fields)).
Proof.
  intros Hnd H. constructor.
  - induction fields as [|[k o] fields IH]; [constructor|]. rewrite fmap_cons in Hnd. apply NoDup_cons in Hnd as [Hk Hnd].
    unfold present. simpl. destruct o as [v|]; simpl; [|apply IH; [done|set_solver]].
    constructor; [|apply IH; [done|set_solver]]. intros Hin. apply Hk.
    apply list_elem_of_fmap in Hin as ([k' v'] & Hk' & Hin). cbn in Hk'. subst k'.
    apply list_elem_of_omap in Hin as ([k' [v''|]] & Hin & Hv); [|done]. simpl in Hv. injection Hv as -> ->.
    apply list_elem_of_fmap. eexists (_, _). split; [|done]. done.
  - intros k v Hin. apply list_elem_of_omap in Hin as ([k' [v''|]] & Hin & Hv); [|done].
    simpl in Hv. injection Hv as -> ->. eauto.
Qed.

Lemma readable_nonempty s v : nonempty s = Some v -> readable v.
Proof. unfold nonempty. destruct (s == ""); [done|]. intros [= <-]. constructor. Qed.

Lemma nodup_names (fields : list (string * option any)) (names : list string) : bool_decide (NoDup names) = true -> fields.*1 = names -> NoDup fields.*1.
Proof. intros H ->. by apply bool_decide_eq_true in H. Qed.

Lemma runner_fields_nodup r : NoDup (runner_fields r).*1.
Proof. by apply (nodup_names _ runner_names). Qed.

Lemma event_fields_nodup nil_to e : NoDup (event_fields nil_to e).*1.
Proof. by apply (nodup_names _ event_names). Qed.

(** Decoding an optional field, and an encoded pointer. *)
Lemma decode_nonempty s :
  match nonempty s with Some v => decode_string "" (to_json v) | None => Some "" end = Some s.
Proof.
  unfold nonempty. destruct (s == "") eqn:E; [by apply String.eqb_eq in E as ->|]. cbn. by rewrite unquote_escape.
Qed.

Lemma decode_fmap_pointer {A} (zero : A) decode (f : A -> any) (o : option A) :
  (forall a, o = Some a -> to_json (f a) <> JNull /\ decode zero (to_json (f a)) = Some a) ->
  match f <$> o with Some v => decode_pointer zero decode None (to_json v) | None => Some None end = Some o.
Proof.
  intros H. destruct o as [a|]; [|done]. destruct (H a eq_refl) as [Hn Hd]. simpl. unfold decode_pointer. simpl.
  rewrite Hd. by destruct (to_json (f a)).
Qed.

Lemma decode_float_reads m x : float_reads m x = true -> decode_float (0, 0) (to_json (AFloat m x)) = Some (m, x).
Proof. intros H. apply andb_true_iff in H as [_ H]. by apply bool_decide_eq_true in H. Qed.

Lemma decode_runner_fields r :
  in_int (rn_attempt r) -> (forall m x, rn_duration_sec r = Some (m, x) -> float_reads m x = true) ->
  decode_runner no_runner (JObj (entries_of (runner_fields r))) = Some r.
Proof.
  intros Hint Hdur.
  assert (Hin : forall n, n ∈ (runner_fields r).*1 -> n ∈ runner_names) by (by intros n).
  pose proof (runner_fields_nodup r) as Hnd.
  unfold decode_runner. rewrite !field_present by done. unfold runner_fields.
  cbv [assoc String.eqb Ascii.eqb Bool.eqb]. rewrite !decode_nonempty.
  cbn [decode_string decode_int decode_bool to_json no_runner mbind option_bind rn_duration_sec].
  rewrite !unquote_escape, parse_int_itoa by done. cbn [mbind option_bind].
  rewrite (decode_fmap_pointer (0, 0) decode_float (fun d => AFloat d.1 d.2)); [by destruct r|].
  intros [m x] Hd. split; [done|]. apply decode_float_reads. by apply Hdur.
Qed.

Lemma decode_strings_escaped old l : decode_elements old (map (fun s => JStr (json_escape s)) l) = Some l.
Proof.
  revert old. induction l as [|s l IH]; intros old; simpl; [done|]. by rewrite IH, unquote_escape.
Qed.

Lemma decode_to nil_to tos : decode_strings [] (to_json (recipients_value nil_to tos)) = Some tos.
Proof.
  unfold recipients_value. destruct (nil_to && _) eqn:E.
  { apply andb_true_iff in E as [_ E]. by apply bool_decide_eq_true in E as ->. }
  cbn [to_json decode_strings]. apply decode_strings_escaped.
Qed.

Lemma decode_payload_map (p : option payload) :
  (forall m, p = Some m -> readable (AMap m)) ->
  decode_payload None (to_json (match p with Some m => AMap m | None => ANil end)) =
  Some ((fun m : payload => json_norm <$> m) <$> p).
Proof.
  intros H. destruct p as [m|]; [|done]. specialize (H m eq_refl). apply value_of_to_json in H.
  unfold decode_payload. rewrite H. cbn [json_norm default]. simpl. by rewrite (right_id_L ∅ _).
Qed.

Lemma decode_event_fields nil_to e :
  writable nil_to e -> decode_event (entries_of (event_fields nil_to e)) = Some (norm_event e).
Proof.
  intros [Hschema Hturn Htime Hattempt Hdur Hcost Hpayload _].
  assert (Hin : forall n, n ∈ (event_fields nil_to e).*1 -> n ∈ event_names) by (by intros n).
  pose proof (event_fields_nodup nil_to e) as Hnd.
  unfold decode_event. rewrite !field_present by done. unfold event_fields.
  cbv [assoc String.eqb Ascii.eqb Bool.eqb]. rewrite !decode_nonempty.
  rewrite decode_to, decode_payload_map by done.
  cbn [decode_string decode_int decode_time to_json mbind option_bind].
  rewrite !unquote_escape, parse_int_itoa, plain_escape, time_format_parse by (done || by apply plain_time).
  cbn [mbind option_bind].
  rewrite (decode_fmap_pointer 0 decode_int AInt).
  2: { intros t Ht. split; [done|]. cbn. apply parse_int_itoa. auto. }
  cbn [mbind option_bind].
  rewrite (decode_fmap_pointer no_runner decode_runner (fun r => AStruct (present (runner_fields r)))).
  2: { intros r Hr. split; [done|]. apply decode_runner_fields; eauto. }
  cbn [mbind option_bind]. unfold decode_cost, norm_event.
  destruct (ev_cost e) as [c|] eqn:Hc; [|done].
  rewrite (value_of_to_json c) by auto. done.
Qed.

(** ** Lines *)

Lemma scan_string_no_nl s : forall raw rest, scan_string s = Some (raw, rest) -> no_byte 10 raw.
Proof.
  remember (String.length s) as n eqn:Hn. revert s Hn. induction (lt_wf n) as [n _ IH]. intros s ->.
  assert (Hbefore : forall p t raw rest, no_byte 10 p -> (String.length t < String.length s)%nat ->
            before p (scan_string t) = Some (raw, rest) -> no_byte 10 raw).
  { intros p t raw rest Hp Hlen H. destruct (scan_string t) as [[raw' rest']|] eqn:E; [|done].
    simpl in H. injection H as <- <-. apply no_byte_app. split; [done|]. by eapply IH. }
  destruct s as [|a s]; [done|]. intros raw rest. cbn [scan_string].
  destruct (is_byte 34 a); [by intros [= <- <-]|].
  destruct (is_byte 92 a) eqn:H92; [|].
  - apply is_byte_eq in H92 as ->; [|done]. destruct s as [|b s]; [done|].
    destruct (simple_escape b) as [x|] eqn:Hb.
    + apply Hbefore; [|simpl; lia]. unfold no_byte. simpl. rewrite orb_false_r.
      destruct b as [[] [] [] [] [] [] [] []]; done.
    + destruct (is_byte 117 b) eqn:H117; [|done]. apply is_byte_eq in H117 as ->; [|done].
      destruct s as [|c [|d [|e [|f s]]]]; try done. destruct (hex4 c d e f) eqn:Hhex; [|done].
      apply Hbefore; [|simpl; lia]. unfold hex4 in Hhex. unfold no_byte. simpl. rewrite orb_false_r.
      assert (Hx : forall q x, hex_value q = Some x -> is_byte 10 q = false).
      { intros q x Hq. destruct q as [[] [] [] [] [] [] [] []]; done. }
      destruct (hex_value c) eqn:H1; [|done]. destruct (hex_value d) eqn:H2; [|done].
      destruct (hex_value e) eqn:H3; [|done]. destruct (hex_value f) eqn:H4; [|done].
      by rewrite (Hx _ _ H1), (Hx _ _ H2), (Hx _ _ H3), (Hx _ _ H4).
  - destruct (N.ltb_spec (Ascii.N_of_ascii a) 32); [done|]. apply Hbefore; [|simpl; lia].
    unfold no_byte. simpl. rewrite orb_false_r. unfold is_byte. apply N.eqb_neq. lia.
Qed.

Lemma span_digits_no_nl s : no_byte 10 (fst (span_digits s)).
Proof.
  induction s as [|a s IH]; [done|]. simpl. destruct (is_digit a) eqn:E; [|done]. unfold no_byte in *. simpl.
  rewrite IH, orb_false_r. destruct a as [[] [] [] [] [] [] [] []]; done.
Qed.

Lemma digits1_no_nl s d r : digits1 s = Some (d, r) -> no_byte 10 d.
Proof.
  unfold digits1. destruct (fst (span_digits s) == ""); [done|]. intros [= H].
  pose proof (span_digits_no_nl s) as Hs. by rewrite H in Hs.
Qed.

Lemma before_no_nl p s d r : no_byte 10 p -> before p (digits1 s) = Some (d, r) -> no_byte 10 d.
Proof.
  intros Hp H. destruct (digits1 s) as [[d' r']|] eqn:E; [|done]. simpl in H. injection H as <- <-.
  apply no_byte_app. split; [done|]. by eapply digits1_no_nl.
Qed.

Lemma number_no_nl literal : number_ok literal = true -> no_byte 10 literal.
Proof.
  unfold number_ok, scan_number, scan_parts. intros H. apply bool_decide_eq_true in H.
  destruct (drop_prefix "-" literal) as [q|];
    match type of H with context [scan_int ?q] => destruct (scan_int q) as [[i s1]|] eqn:E1; [|done] end;
    destruct (scan_frac s1) as [[f s2]|] eqn:E2; try done; destruct (scan_exp s2) as [[x s3]|] eqn:E3; try done;
    injection H as <- _.
  all: assert (Hi : no_byte 10 i).
  1, 3: match type of E1 with scan_int ?q = _ => destruct q as [|a q']; [done|] end; simpl in E1;
    destruct (is_byte 48 a) eqn:E; [apply is_byte_eq in E as ->; [|done]; by injection E1 as <- _ | by eapply digits1_no_nl].
  all: assert (Hf : no_byte 10 f).
  1, 3: destruct s1 as [|a s1]; simpl in E2; [by injection E2 as <- _|];
    destruct (is_byte 46 a) eqn:E; [apply is_byte_eq in E as ->; [|done]; eapply before_no_nl; [|exact E2]; done
                                   | by injection E2 as <- _].
  all: assert (Hx : no_byte 10 x).
  1, 3: destruct s2 as [|a s2]; simpl in E3; [by injection E3 as <- _|];
    destruct (is_byte 101 a || is_byte 69 a) eqn:E; [|by injection E3 as <- _]; destruct s2 as [|b s2]; [done|];
    assert (Ha : no_byte 10 (String a "")) by
      (apply orb_true_iff in E as [E|E]; apply is_byte_eq in E as ->; done);
    destruct (is_byte 43 b || is_byte 45 b) eqn:E'; eapply before_no_nl; try exact E3; try done;
    apply (no_byte_app 10 (String a "") (String b "")); split; [done|];
    apply orb_true_iff in E' as [E'|E']; apply is_byte_eq in E' as ->; done.
  all: repeat (apply no_byte_app; split); done.
Qed.

Lemma join_no_nl l : Forall (no_byte 10) l -> no_byte 10 (join "," l).
Proof.
  induction 1 as [|x l Hx Hl IH]; [done|]. destruct l as [|y l]; [done|]. cbn [join].
  repeat (apply no_byte_app; split); done.
Qed.

Lemma print_no_nl j : well_formed j -> no_byte 10 (print j).
Proof.
  assert (Hq : forall r, literal_ok r -> no_byte 10 (quoted r)).
  { intros r Hr. apply no_byte_app. split; [done|]. apply no_byte_app. split; [|done].
    by eapply (scan_string_no_nl _ _ "" (Hr "")). }
  induction j as [| b | n | r | l IH | l IH] using json_tree_ind; intros Hwf; inversion_clear Hwf as [| |? Hn|? Hr|? Hl|? Hl].
  - done.
  - by destruct b.
  - by apply number_no_nl.
  - by apply Hq.
  - cbn [print]. apply no_byte_app. split; [done|]. apply no_byte_app. split; [|done]. apply join_no_nl.
    apply Forall_fmap, Forall_forall. intros x Hx. rewrite Forall_forall in IH, Hl. by apply IH, Hl.
  - cbn [print]. apply no_byte_app. split; [done|]. apply no_byte_app. split; [|done]. apply join_no_nl.
    apply Forall_fmap, Forall_forall. intros x Hx. rewrite Forall_forall in IH, Hl. specialize (Hl x Hx) as [Hk Hv].
    apply no_byte_app. split; [by apply Hq|]. apply no_byte_app. split; [done|by apply IH].
Qed.

(** ** The line of an event *)

Lemma event_value_json nil_to e : to_json (event_value nil_to e) = JObj (entries_of (event_fields nil_to e)).
Proof. done. Qed.

Ltac each_field H :=
  repeat (apply elem_of_cons in H as [H|H]; [injection H as -> H|]); [..|by apply elem_of_nil in H];
  try (by eapply readable_nonempty); try (subst; constructor; by auto).

Lemma runner_readable r :
  in_int (rn_attempt r) -> (forall m x, rn_duration_sec r = Some (m, x) -> float_reads m x = true) ->
  readable (AStruct (present (runner_fields r))).
Proof.
  intros Hint Hdur. apply readable_present; [apply runner_fields_nodup|]. intros k v Hv. unfold runner_fields in Hv.
  each_field Hv. destruct (rn_duration_sec r) as [[m x]|] eqn:Hd; [|done]. injection Hv as ->. constructor. eauto.
Qed.

Lemma event_readable nil_to e : writable nil_to e -> readable (event_value nil_to e).
Proof.
  intros [Hschema Hturn Htime Hattempt Hdur Hcost Hpayload _].
  apply readable_present; [apply event_fields_nodup|]. intros k v Hv. unfold event_fields in Hv. each_field Hv.
  - destruct (ev_turn e) as [t|]; [|done]. injection Hv as ->. constructor. auto.
  - subst v. unfold recipients_value. destruct (nil_to && _); constructor.
  - destruct (ev_runner e) as [r|] eqn:Hr; [|done]. cbn [fmap option_fmap option_map] in Hv.
    assert (Hx : v = AStruct (present (runner_fields r))) by (injection Hv as Hv; exact Hv).
    rewrite Hx. apply runner_readable; eauto.
  - by apply Hcost.
  - subst v. destruct (ev_payload e) as [p|] eqn:Hp; [by apply Hpayload|constructor].
Qed.

Lemma keys_no_status nil_to e :
  existsb (fun kv : string * json => unquote kv.1 == "status") (entries_of (event_fields nil_to e)) = false.
Proof.
  apply not_true_iff_false. intros H. apply existsb_exists in H as ([k j] & Hin & Hk).
  apply list_elem_of_In, list_elem_of_fmap in Hin as ([k' v] & [= -> ->] & Hin).
  simpl in Hk. rewrite unquote_escape in Hk. apply String.eqb_eq in Hk as ->.
  apply list_elem_of_omap in Hin as ([k o] & Hin & Ho). simpl in Ho. destruct o as [w|]; [|done].
  simpl in Ho. injection Ho as -> _.
  assert (Hk : "status" ∈ (event_fields nil_to e).*1) by (apply list_elem_of_fmap; by exists ("status", Some w)).
  change ((event_fields nil_to e).*1) with event_names in Hk.
  revert Hk. apply (bool_decide_unpack _ : bool_decide ("status" ∉ event_names) -> _). done.
Qed.

(** A text between braces is not blank. *)
Lemma braces_not_blank s : is_blank ("{" +:+ s +:+ "}") = false.
Proof.
  unfold is_blank, trim_space, trim_left. rewrite trim_left_with_id by done.
  unfold trim_right. rewrite !str_rev_app_distr, trim_left_with_id by done.
  rewrite <- !str_rev_app_distr, str_rev_involutive. done.
Qed.

Section Bytes.
Variable decode_message : string -> string.

Lemma decode_event_line nil_to e :
  writable nil_to e ->
  decode_line decode_message (json_text (event_value nil_to e)) = LineEvent false (norm_event e).
Proof.
  intros Hw. pose proof (event_readable _ _ Hw) as Hr. apply to_json_well_formed in Hr.
  unfold decode_line. rewrite json_text_print, parse_print; [|done|by apply Hw].
  rewrite event_value_json. cbn [print]. rewrite braces_not_blank, keys_no_status.
  by rewrite (decode_event_fields nil_to e Hw).
Qed.

Lemma event_line_no_nl nil_to e : writable nil_to e -> no_byte 10 (json_text (event_value nil_to e)).
Proof. intros Hw. rewrite json_text_print. by apply print_no_nl, to_json_well_formed, event_readable. Qed.

Let log := channel_of decode_message NRegular.

(** What a write of some bytes of a line does to the channel. *)
Lemma channel_of_write content text n :
  no_byte 10 text -> ch_partial (log content) = false -> (n <= String.length text)%nat ->
  log (content +:+ str_take n (text +:+ nl)) = mk_channel NRegular (ch_lines (log content)) (0 <? n)%nat.
Proof.
  unfold log, channel_of. cbn [ch_partial ch_lines]. intros Htext Hlast Hn. apply negb_false_iff, String.eqb_eq in Hlast.
  unfold split_nl in *. rewrite str_take_app, split_on_app, (split_on_one _ (str_take n text)), Hlast by (done || by apply no_byte_take).
  rewrite removelast_last, last_last. f_equal. change ("" +:+ str_take n text) with (str_take n text).
  destruct n as [|n]; [by destruct text|]. simpl. apply negb_true_iff, String.eqb_neq, str_take_nil; [lia|].
  by destruct text; [simpl in Hn; lia|].
Qed.

Lemma channel_of_line content text :
  no_byte 10 text -> ch_partial (log content) = false ->
  log (content +:+ text +:+ nl) = mk_channel NRegular (ch_lines (log content) ++ [decode_line decode_message text]) false.
Proof.
  unfold log, channel_of. cbn [ch_partial ch_lines]. intros Htext Hlast. apply negb_false_iff, String.eqb_eq in Hlast.
  unfold split_nl in *. rewrite split_on_app.
  assert (Ht : split_on 10 (text +:+ nl) = [text; ""]) by (apply (split_on_sep 10 text "" Htext); done).
  rewrite Ht, Hlast. change ("" +:+ text) with text.
  replace (removelast (split_on 10 content) ++ [text; ""]) with ((removelast (split_on 10 content) ++ [text]) ++ [""])
    by by rewrite <- app_assoc.
  rewrite removelast_last, last_last, map_app. done.
Qed.

(** Reading the bytes is reading the channel they stand for. *)
Lemma read_log_content sd md content :
  safeSessionDirForAppend sd = Ok tt ->
  ReadLogIndex (set_channel sd (log content)) md = ReadLogContent decode_message (channel_path sd) md content.
Proof.
  intros Hsafe. unfold ReadLogIndex, ReadLogContent.
  replace (safeSessionDirForAppend (set_channel sd (log content))) with (@Ok error unit tt) by done.
  cbn [set_channel sd_channel log channel_of ch_kind ch_partial ch_lines mbind result_bind].
  replace (channel_path (set_channel sd (log content))) with (channel_path sd) by done.
  destruct (content == "") eqn:E; [by apply String.eqb_eq in E as ->|].
  destruct (has_suffix content nl) eqn:Hs.
  - apply has_suffix_spec in Hs as [t ->]. rewrite trim_suffix_app. unfold split_nl.
    change nl with (bytes [10%N]). rewrite (split_on_end 10 t) by done. by rewrite removelast_last, last_last.
  - replace (List.last (split_nl content) "" != "") with true; [done|]. symmetry.
    apply negb_true_iff, String.eqb_neq. intros Hlast. apply not_true_iff_false in Hs. apply Hs, has_suffix_spec.
    destruct (split_on_last 10 content ltac:(done) Hlast) as [->|Ht]; [done|done].
Qed.
End Bytes.

(** C3. The bytes of channel.jsonl implement the log of decoded lines: reading
    them is reading the channel they stand for, and an append that gets [n] bytes
    of the line of its event to the file leaves bytes that stand for what the
    append of the model leaves, a fault in the write when bytes are missing and
    the whole event, in its normal form, when none is. *)
Theorem log_bytes_refine (decode_message : string -> string) (nil_to : bool) (sd : session_dir) (md : SessionMetadata)
    (ix : LogIndex) (e : EventEnvelope) (content : string) (n : nat) :
  let log := channel_of decode_message NRegular in
  let line := event_line nil_to e in
  sd_channel sd = Some (log content) -> ReadLogIndex sd md = Ok ix -> writable nil_to e -> (n <= String.length line)%nat ->
  let fault := if (n <? String.length line)%nat then Some (FaultWrite (0 <? n)%nat) else None in
  let after := content +:+ str_take n line in
  sd_channel (fst (fst (append_io sd md ix e fault))) = Some (log after) /\
  forall content', ReadLogContent decode_message (channel_path sd) md content' = ReadLogIndex (set_channel sd (log content')) md.
Proof.
  intros log line Hc Hread Hw Hn fault after.
  assert (Hsafe : safeSessionDirForAppend sd = Ok tt).
  { unfold ReadLogIndex in Hread. destruct (safeSessionDirForAppend sd) as [[]|]; done. }
  assert (Hpart : ch_partial (log content) = false).
  { unfold ReadLogIndex in Hread. rewrite Hsafe, Hc in Hread. simpl in Hread.
    by destruct (List.last (split_nl content) "" != "") eqn:E. }
  split; [|intros content'; symmetry; by apply read_log_content].
  pose proof (event_line_no_nl nil_to e Hw) as Hnl. unfold fault, after. clear fault after.
  assert (Hlen : String.length line = S (String.length (json_text (event_value nil_to e)))).
  { unfold line, event_line. rewrite string_length_app. simpl. lia. }
  unfold append_io, lines_of. rewrite Hc. destruct (Nat.ltb_spec n (String.length line)); cbn [fst sd_channel set_channel set_yaml].
  - f_equal. symmetry. apply channel_of_write; [done|done|lia].
  - assert (n = String.length line) as -> by lia. rewrite str_take_all. unfold line, event_line. f_equal. symmetry.
    unfold log. by rewrite channel_of_line, decode_event_line.
Qed.

(** An event of a running council, with a runner, its cost and a nested payload,
    whose line is cut after its 40th byte, and whose line is written whole. *)
Definition cx_event : EventEnvelope :=
  mk_event 1 "evt_2" "cmd_2" "" "corr" "sess_council" "council" (Some 3) "discussion" "speech" "alice" ["bob"] fx_later
    (Some (mk_runner "inv_1" "hermes-agent" "alice" 1 false "" "succeeded" (Some (5, 0))))
    (Some (AMap {[ "tokens_in" := AInt 12; "source" := AStr "hermes-agent-stderr-parse" ]}))
    (Some {[ "speech" := AStr ("one" +:+ nl +:+ "two " +:+ dquote); "claims" := AMaps [{[ "turn" := AInt 3; "new" := ABool true ]}] ]}).

Lemma cx_writable nil_to : writable nil_to cx_event.
Proof.
  split.
  - by split.
  - intros t [= <-]. by split.
  - vm_compute. reflexivity.
  - intros r [= <-]. by split.
  - intros r m x [= <-] [= <- <-]. by apply float_reads_small.
  - intros c [= <-]. constructor. intros k v Hv.
    apply lookup_insert_Some in Hv as [[_ <-]|[_ Hv]]; [by constructor|].
    apply lookup_singleton_Some in Hv as [_ <-]. constructor.
  - intros p [= <-]. constructor. intros k v Hv.
    apply lookup_insert_Some in Hv as [[_ <-]|[_ Hv]]; [constructor|].
    apply lookup_singleton_Some in Hv as [_ <-]. constructor. intros m k' v' Hm Hv.
    apply list_elem_of_singleton in Hm as ->.
    apply lookup_insert_Some in Hv as [[_ <-]|[_ Hv]]; [by constructor|].
    apply lookup_singleton_Some in Hv as [_ <-]. constructor.
  - apply Nat.leb_le. destruct nil_to; vm_compute; reflexivity.
Qed.

Definition cx_log : string -> channel := channel_of (fun _ => "invalid JSON") NRegular.
Definition cx_content : string := event_line true (fx_created fx_council_md).
Definition cx_dir : session_dir :=
  mk_session_dir "/data/sessions/sess_council" false true (Some (cx_log cx_content)) (Some fx_council_md).

Lemma cx_reads : exists ix, ReadLogIndex cx_dir fx_council_md = Ok ix.
Proof.
  assert (H : is_ok (ReadLogIndex cx_dir fx_council_md) = true) by (vm_compute; reflexivity).
  destruct (ReadLogIndex cx_dir fx_council_md) as [ix|]; [by exists ix|done].
Qed.

Lemma log_bytes_refine_witness :
  exists ix, ReadLogIndex cx_dir fx_council_md = Ok ix /\
    sd_channel (fst (fst (append_io cx_dir fx_council_md ix cx_event (Some (FaultWrite true))))) =
      Some (cx_log (cx_content +:+ str_take 40 (event_line true cx_event))) /\
    sd_channel (fst (fst (append_io cx_dir fx_council_md ix cx_event None))) =
      Some (cx_log (cx_content +:+ event_line true cx_event)).
Proof.
  destruct cx_reads as [ix Hix]. exists ix. split; [exact Hix|].
  assert (Hlt : (40 <? String.length (event_line true cx_event))%nat = true) by (vm_compute; reflexivity).
  assert (Hle : (40 <= String.length (event_line true cx_event))%nat) by (apply Nat.leb_le; vm_compute; reflexivity).
  split.
  - pose proof (log_bytes_refine (fun _ => "invalid JSON") true cx_dir fx_council_md ix cx_event cx_content 40
      eq_refl Hix (cx_writable true) Hle) as [H _]. rewrite Hlt in H. exact H.
  - pose proof (log_bytes_refine (fun _ => "invalid JSON") true cx_dir fx_council_md ix cx_event cx_content
      (String.length (event_line true cx_event)) eq_refl Hix (cx_writable true) (le_n _)) as [H _].
    rewrite Nat.ltb_irrefl, str_take_all in H. exact H.
Defined.
