(* ===== verification/LimitsTheory.v ===== *)
(** * Correctness of the effective limits *)

From S2P Require Import Prelude GoValue GoTime Model Ids Evidence Events EventLog LogSpec Command Delegation Fixtures DelegationTheory Unmarshal.

(** The limits after a log. *)
Definition limits_of (md : SessionMetadata) (events : list EventEnvelope) : result error Limits :=
  foldl limits_step (Ok (md_limits md)) events.

Lemma effective_limits_reads w name ix sd :
  wd_sessions w !! name = Some sd -> ReadLogIndex sd (wd_md w) = Ok ix ->
  EffectiveLimits sd (wd_md w) = limits_of (wd_md w) (ix_events ix).
Proof. intros _ H. unfold EffectiveLimits. by rewrite H. Qed.

Lemma limits_step_err events err : foldl limits_step (Err err) events = Err err.
Proof. by induction events. Qed.

Lemma limits_step_other r e : ev_type e <> "limits_extended" -> limits_step r e = r.
Proof. intros H%String.eqb_neq. destruct r as [l|]; [|done]. unfold limits_step. cbn. by rewrite H. Qed.

Lemma limits_steps_other r events :
  (forall e, e ∈ events -> ev_type e <> "limits_extended") -> foldl limits_step r events = r.
Proof.
  revert r. induction events as [|e events IH]; intros r H; [done|]. cbn [foldl].
  rewrite limits_step_other by (apply H; set_solver). apply IH. set_solver.
Qed.

(** A log without extensions has the limits that the session started with. *)
Lemma limits_unextended md events :
  (forall e, e ∈ events -> ev_type e <> "limits_extended") -> limits_of md events = Ok (md_limits md).
Proof. apply limits_steps_other. Qed.

Lemma extend_proposal clock md ix spec e :
  extend_decide clock md ix spec = Ok (Propose e) ->
  le_changes spec <> ∅ /\ ev_type e = "limits_extended" /\ pl e !! "changes" = Some (AMap (le_changes spec)) /\
  exists blocking, blocking ∈ ix_events ix /\ ev_type blocking = "session_budget_exceeded".
Proof.
  unfold extend_decide. intros H. run_inv H; injection H as <-; bool_prop.
  apply bool_decide_eq_false in Hguard3. split; [done|]. split; [done|]. split.
  - unfold pl, session_event. cbn. by destruct (is_blank (le_reason spec)).
  - eapply eventByID_Some in Hcase as [? _]. eauto.
Qed.

(** What an extension by [changes] makes of the limits. *)
Definition extended (changes : payload) (limits : Limits) : result error Limits :=
  match unmarshal_limits changes limits with
  | Ok l => Ok l
  | Err text => Err (NewValidationError CategoryInvalidEnvelope "changes" text)
  end.

Lemma limits_step_extended limits e changes :
  ev_type e = "limits_extended" -> pl e !! "changes" = Some (AMap changes) -> changes <> ∅ ->
  limits_step (Ok limits) e = extended changes limits.
Proof.
  intros Ht Hp Hne. unfold limits_step. cbn [mbind result_bind]. rewrite Ht, Hp. cbn. by rewrite bool_decide_eq_false_2.
Qed.

(** An extension of the limits takes effect.  Once limits.extend has appended
    its event, the effective limits are those of before with the changes decoded
    over them, and stay so until the next extension; when the changes do not decode, they
    are an error, whatever is appended later.  The metadata, from which the daemon
    enforces limits, keeps its limits. *)
Theorem limits_extension_takes_effect name w clock (spec : LimitsExtendSpec) fault w' a sd limits
    (Hsd : wd_sessions w !! name = Some sd) (Hbefore : EffectiveLimits sd (wd_md w) = Ok limits)
    (Hrun : run_command name w clock spec fault = (w', Ok (a, false))) :
  let outcome := extended (json_norm <$> le_changes spec) limits in
  md_limits (wd_md w') = md_limits (wd_md w) /\
  exists sd' ix', wd_sessions w' !! name = Some sd' /\ ReadLogIndex sd' (wd_md w') = Ok ix' /\
    EffectiveLimits sd' (wd_md w') = outcome /\
    forall sd2 md2 ix2 tail, ReadLogIndex sd2 md2 = Ok ix2 -> md_limits md2 = md_limits (wd_md w) ->
      ix_events ix2 = ix_events ix' ++ tail ->
      is_ok outcome = false \/ (forall e, e ∈ tail -> ev_type e <> "limits_extended") ->
      EffectiveLimits sd2 md2 = outcome.
Proof.
  cbv zeta. assert (Hlim : md_limits (wd_md w') = md_limits (wd_md w))
    by (apply run_command_same in Hrun; unfold same_session in Hrun; by destruct_and?).
  split; [done|]. apply run_command_cases in Hrun as [[_ Hno]|(ix & e & Hix & Hd & Happ & _)]; [by destruct (Hno a)|].
  apply extend_proposal in Hd as (Hne & Ht & Hp & _).
  apply (appendIdempotentEvent_ok _ _ _ _ _ _ _ Hix) in Happ as [(sd' & Hsd' & Hr') _].
  destruct Hix as (sd0 & Hsd0 & Hr). rewrite Hsd in Hsd0. injection Hsd0 as <-.
  unfold EffectiveLimits in Hbefore. rewrite Hr in Hbefore. cbn [mbind result_bind] in Hbefore.
  set (ix' := index_add ix (appended (wd_md w) ix e)) in *.
  assert (Hall : limits_of (wd_md w) (ix_events ix') = extended (json_norm <$> le_changes spec) limits).
  { unfold limits_of, ix'. cbn [index_add ix_events]. rewrite foldl_app, Hbefore. cbn [foldl].
    pose proof (appended_fields (wd_md w) ix e) as (_ & _ & _ & _ & Hty & _). cbv zeta in Hty.
    apply limits_step_extended; [congruence| |by intros ?%fmap_empty_inv].
    unfold appended. rewrite pl_norm, prepare_non_speech by (rewrite Ht; done). unfold finish_event.
    destruct (_ == ""); change (pl _) with (pl e); by rewrite lookup_fmap, Hp. }
  exists sd', ix'. split; [done|]. split; [done|].
  assert (Hnow : EffectiveLimits sd' (wd_md w') = extended (json_norm <$> le_changes spec) limits)
    by (unfold EffectiveLimits; rewrite Hr'; cbn [mbind result_bind]; by rewrite Hlim).
  split; [done|]. intros sd2 md2 ix2 tail Hr2 Hl2 He Hor. unfold EffectiveLimits. rewrite Hr2. cbn [mbind result_bind].
  unfold limits_of in Hall. rewrite Hl2, He, foldl_app, Hall. destruct Hor as [Hbad|Htail]; [|by apply limits_steps_other].
  destruct (extended _ limits); [done|]. apply limits_step_err.
Qed.

(** ** A session over its budget

    The event is written by hand: no command of the program appends one. *)

Definition lx_over : EventEnvelope :=
  fx_event fx_deleg_md "c1" "session_budget_exceeded" "blocked" "atn-controld" ["mod"]
    {[ "limit_kind" := AStr "max_runner_calls"; "resume_phase" := AStr "working" ]}.

Definition lx_world : world :=
  fx_world fx_deleg_md (fx_log fx_council_md) (map norm_event [fx_created fx_deleg_md; lx_over]).

Definition lx_spec (changes : payload) : LimitsExtendSpec :=
  mk_extend "mod" "user" "evt_c1" changes "granted" "c2" fx_later.

Definition lx_run (changes : payload) : world * result error (AppendResult * bool) :=
  run_command "sess_deleg" lx_world fx_later (lx_spec changes) None.

Definition lx_effective (w : world) : option (result error Limits) :=
  (fun sd => EffectiveLimits sd (wd_md w)) <$> (wd_sessions w !! "sess_deleg").

Definition lx_calls (changes : payload) : option (result error Z) :=
  match lx_effective (lx_run changes).1 with
  | Some (Ok l) => Some (Ok (li_max_runner_calls l))
  | Some (Err e) => Some (Err e)
  | None => None
  end.

Definition lx_phase (changes : payload) : option Phase :=
  match wd_sessions (lx_run changes).1 !! "sess_deleg" with
  | Some sd => ev_phase <$> last (log_of sd)
  | None => None
  end.

(** The budget is raised; an unrelated key lifts the block as well; and a value
    that does not decode leaves the session without effective limits. *)
Example lx_extensions :
  lx_calls {[ "max_runner_calls" := AFloat 40 0 ]} = Some (Ok 40) /\
  lx_calls {[ "no_such_limit" := AFloat 40 0 ]} = Some (Ok 0) /\
  lx_phase {[ "no_such_limit" := AFloat 40 0 ]} = Some "working" /\
  lx_calls {[ "max_runner_calls" := AStr "40" ]} =
    Some (Err (NewValidationError CategoryInvalidEnvelope "changes"
      "json: cannot unmarshal string into Go struct field Limits.max_runner_calls of type int")).
Proof. vm_compute. repeat split. Qed.

Lemma limits_extension_takes_effect_witness :
  let w' := (lx_run {[ "max_runner_calls" := AFloat 40 0 ]}).1 in
  let outcome := extended (json_norm <$> le_changes (lx_spec {[ "max_runner_calls" := AFloat 40 0 ]})) no_limits in
  md_limits (wd_md w') = no_limits /\
  exists sd' ix', wd_sessions w' !! "sess_deleg" = Some sd' /\ ReadLogIndex sd' (wd_md w') = Ok ix' /\
    EffectiveLimits sd' (wd_md w') = outcome /\
    forall sd2 md2 ix2 tail, ReadLogIndex sd2 md2 = Ok ix2 -> md_limits md2 = no_limits ->
      ix_events ix2 = ix_events ix' ++ tail ->
      is_ok outcome = false \/ (forall e, e ∈ tail -> ev_type e <> "limits_extended") ->
      EffectiveLimits sd2 md2 = outcome.
Proof.
  apply (limits_extension_takes_effect "sess_deleg" lx_world fx_later (lx_spec {[ "max_runner_calls" := AFloat 40 0 ]}) None
    _ (mk_append_result "cur_000000000002_evt_limits_extended_c2" 2 "evt_limits_extended_c2")
    (fx_dir fx_deleg_md (map norm_event [fx_created fx_deleg_md; lx_over])) no_limits).
  - reflexivity.
  - vm_compute. reflexivity.
  - vm_compute. reflexivity.
Defined.
