(* ===== verification/Requests.v ===== *)
(** * Requests to the daemon (protocol/command.go, daemon/daemn002.go,
    daemon/delegation_handlers.go)

    A request names a command and has parameters, a decoded JSON object.  The
    accessors give a parameter of another type the zero value. *)

From S2P Require Import Prelude GoValue GoTime Model Ids Evidence Events Unmarshal.

Record CommandRequest := mk_command_request {
  cr_schema_version : Z; cr_request_id : string; cr_command : string; cr_params : option payload }.

Definition params (r : CommandRequest) : payload := default ∅ (cr_params r).

Definition stringParam (r : CommandRequest) (key : string) : string := payloadStringDefault (params r) key "".

Definition boolParam (r : CommandRequest) (key : string) : bool :=
  match params r !! key with
  | Some (ABool b) => b
  | _ => false
  end.

Definition intParam (r : CommandRequest) (key : string) : Z := anyInt (params r) key.

(** A positive number of units; the product wraps. *)
Definition durationParam (r : CommandRequest) (key : string) (unit : Z) : Z :=
  match params r !! key with
  | Some (AInt z) => if 0 <? z then wrap64 (z * unit) else 0
  | Some (AFloat m e) => if 0 <? m then wrap64 (int_of_float m e * unit) else 0
  | _ => 0
  end.

Definition stringSliceParam (r : CommandRequest) (key : string) : list string := default [] (payloadStringSlice (params r) key).

Definition mapParam (r : CommandRequest) (key : string) : option payload :=
  match params r !! key with
  | Some (AMap m) => Some m
  | Some (AStruct fs) => match json_norm (AStruct fs) with AMap m => Some m | _ => None end
  | _ => None
  end.

Definition defaultStringParam (r : CommandRequest) (key fallback : string) : string :=
  if stringParam r key == "" then fallback else stringParam r key.

(** mapString and mapBool, of a map that may be nil. *)
Definition mapString (m : payload) (key : string) : string := payloadStringDefault m key "".

Definition mapBool (m : payload) (key : string) : bool :=
  match m !! key with
  | Some (ABool b) => b
  | _ => false
  end.

(** The names trimmed, without blanks and repetitions. *)
Definition compactStrings (values : list string) : list string :=
  foldl (fun out v => let v := trim_space v in if (v == "") || mem_str v out then out else out ++ [v]) [] values.

Definition limitsParam (r : CommandRequest) : result error Limits :=
  let invalid message := NewValidationError CategoryInvalidEnvelope "limits" message in
  match params r !! "limits" with
  | None | Some ANil => Ok no_limits
  | Some _ =>
      match mapParam r "limits" with
      | None => Err (invalid "limits must be an object matching supported typed schema")
      | Some m =>
          match unmarshal_limits m no_limits with
          | Ok l => Ok l
          | Err _ => Err (invalid "limits must match supported typed schema")
          end
      end
  end.

(** An object that does not decode counts as none. *)
Definition surfaceParam (r : CommandRequest) : option Surface :=
  match mapParam r "surface" with
  | None => None
  | Some m =>
      if bool_decide (m = ∅) then None
      else
        match struct_error "Surface" surface_struct (sorted_entries m) with
        | Some _ => None
        | None => Some (decode_surface (sorted_entries m))
        end
  end.

Definition linkedAuthorityParam (r : CommandRequest) : option LinkedAuthority :=
  match mapParam r "linked_authority" with
  | None => None
  | Some m =>
      if bool_decide (m = ∅) then None
      else
        match struct_error "LinkedAuthority" linked_struct (sorted_entries m) with
        | Some _ => None
        | None => Some (decode_linked (sorted_entries m))
        end
  end.

(** strings.ReplaceAll(s, "_", "-") *)
Fixpoint underscores_to_dashes (s : string) : string :=
  match s with
  | EmptyString => EmptyString
  | String a rest => String (if is_byte 95 a then Ascii.ascii_of_N 45 else a) (underscores_to_dashes rest)
  end.

Definition councilActionFromCommand (command : string) : string := underscores_to_dashes (trim_prefix command "council.").

Definition delegationActionFromCommand (command : string) : string := underscores_to_dashes (trim_prefix command "delegate.").
