(* ===== verification/Stream.v ===== *)
(** * Event streams (storage/stream.go)

    Replay of the log from a cursor, bounded follow, the status projection, and
    the two commands of stream consumers: acknowledging a cursor and recording
    the delivery of a user escalation. *)

From S2P Require Import Prelude GoValue GoTime Model Ids Evidence Events EventLog LogSpec Command Delegation.

(** ** Replay *)

Record StreamFrame := mk_frame { fr_cursor : string; fr_is_replay : bool; fr_event : EventEnvelope }.

Record ReplayOptions := mk_replay { ro_from_start : bool; ro_since : string; ro_follow : bool }.

Definition ensureStreamMode (opts : ReplayOptions) : result error unit :=
  reject ro_from_start opts && (ro_since opts != "") with
    NewValidationError CategoryInvalidEnvelope "stream" "from_start and since are mutually exclusive";;
  Ok tt.

(** A cursor is honoured only when the event at its offset has its id. *)
Definition cursor_at (ix : LogIndex) (offset : Z) (eventID : string) : bool :=
  match nth_z (ix_events ix) offset with
  | Some e => ev_event_id e == eventID
  | None => false
  end.

Definition replayStartOffset (ix : LogIndex) (opts : ReplayOptions) : result error Z :=
  if ro_since opts == "" then Ok 0
  else
    try c := ParseCursor (ro_since opts) in
    ensure cursor_at ix c.1 c.2 or
      NewValidationError CategoryInvalidEnvelope "cursor" "cursor does not match channel.jsonl";;
    Ok (c.1 + 1).

Fixpoint frames_at (i : Z) (replay : bool) (events : list EventEnvelope) : list StreamFrame :=
  match events with
  | [] => []
  | e :: rest => mk_frame (cursorFor i (ev_event_id e)) replay e :: frames_at (i + 1) replay rest
  end.

Definition framesFrom (events : list EventEnvelope) (start : Z) (replay : bool) : list StreamFrame :=
  let s := Z.min (Z.max start 0) (len_z events) in
  frames_at s replay (drop (Z.to_nat s) events).

(** [polls] are the successive reads of the log up to the deadline. *)
Fixpoint followFrames (polls : list (result error LogIndex)) (start : Z) : result error (list StreamFrame) :=
  match polls with
  | [] => Ok []
  | Err e :: _ => Err e
  | Ok ix :: rest =>
      if start <? len_z (ix_events ix) then Ok (framesFrom (ix_events ix) start false)
      else followFrames rest start
  end.

(** [afterReplay] is the outcome of the caller's callback between the phases. *)
Definition ReplayStreamWithAfterReplay (read : result error LogIndex) (opts : ReplayOptions)
    (afterReplay : result error unit) (polls : list (result error LogIndex)) : result error (list StreamFrame) :=
  try _ := ensureStreamMode opts in
  try ix := read in
  try start := replayStartOffset ix opts in
  let frames := framesFrom (ix_events ix) start true in
  if ro_follow opts then
    try _ := afterReplay in
    try live := followFrames polls (len_z (ix_events ix)) in
    Ok (frames ++ live)
  else Ok frames.

Definition ReplayStream (read : result error LogIndex) (opts : ReplayOptions)
    (polls : list (result error LogIndex)) : result error (list StreamFrame) :=
  ReplayStreamWithAfterReplay read opts (Ok tt) polls.

(** ** Status *)

Record StreamCursorState := mk_cursor_state { cu_cursor : string; cu_event_id : string; cu_acknowledged_at : string }.

Record StreamSubscriberState := mk_subscriber {
  ss_member : string; ss_subscriber_id : string; ss_last_cursor : string; ss_status : string;
  ss_last_heartbeat : string }.

(** The log part of StreamStatus; the readiness and selected-runner reports it
    carries belong to other components. *)
Record StreamStatus := mk_stream_status {
  sg_session_id : string; sg_latest_cursor : string; sg_latest_event_id : string;
  sg_cursors : gmap string StreamCursorState; sg_subscribers : list StreamSubscriberState }.

Definition ack_member (e : EventEnvelope) : string := payloadStringDefault (pl e) "member" (ev_from e).

Definition cursor_step (cursors : gmap string StreamCursorState) (e : EventEnvelope) : gmap string StreamCursorState :=
  if ev_type e == "stream_cursor_acknowledged" then
    <[ack_member e := mk_cursor_state (payloadStringDefault (pl e) "cursor" "")
        (payloadStringDefault (pl e) "event_id" "") (time_format (ev_created_at e))]> cursors
  else cursors.

Definition subscriber_types : list string :=
  ["stream_subscriber_connected"; "stream_subscriber_heartbeat"; "stream_subscriber_disconnected";
   "stream_subscriber_stale"].

Definition subscriber_step (subs : gmap string StreamSubscriberState) (e : EventEnvelope)
    : gmap string StreamSubscriberState :=
  if mem_str (ev_type e) subscriber_types then
    let member := payloadStringDefault (pl e) "member" (ev_from e) in
    let subscriberID := payloadStringDefault (pl e) "subscriber_id" "" in
    if subscriberID == "" then subs
    else
      <[member +:+ nul +:+ subscriberID :=
          mk_subscriber member subscriberID
            (payloadStringDefault (pl e) "last_cursor" (payloadStringDefault (pl e) "cursor" ""))
            (payloadStringDefault (pl e) "status" (trim_prefix (ev_type e) "stream_subscriber_"))
            (time_format (ev_created_at e))]> subs
  else subs.

Definition StreamStatusFromLog (md : SessionMetadata) (ix : LogIndex) : StreamStatus :=
  let evs := ix_events ix in
  let latest :=
    match last evs with
    | Some e => (cursorFor (len_z evs - 1) (ev_event_id e), ev_event_id e)
    | None => ("", "")
    end in
  mk_stream_status (md_id md) latest.1 latest.2 (foldl cursor_step ∅ evs)
    (map snd (sorted_entries (foldl subscriber_step ∅ evs))).

(** ** AcknowledgeCursor *)

Record AckSpec := mk_ack { ak_member : string; ak_cursor : string; ak_command_id : string; ak_now : time }.

Definition ack_precheck (md : SessionMetadata) (spec : AckSpec) : result error unit :=
  ensure Participant md (ak_member spec) or
    NewValidationError CategoryPrincipalInvalid "member" "member is not a session participant";;
  try _ := ParseCursor (ak_cursor spec) in
  Ok tt.

Definition ack_command_id (spec : AckSpec) : string :=
  if is_blank (ak_command_id spec)
  then "cmd_stream_ack_" +:+ unix_nano (ak_now spec) +:+ "_" +:+ ak_member spec
  else ak_command_id spec.

Definition ack_event (md : SessionMetadata) (ix : LogIndex) (spec : AckSpec) (eventID : string) : EventEnvelope :=
  let commandID := ack_command_id spec in
  mk_event SchemaVersion (eventIDFromCommand ("evt_stream_ack_" +:+ md_id md) commandID) commandID ""
    (md_id md) (md_id md) (md_session_type md) None (latestPhase md ix) "stream_cursor_acknowledged"
    "atn-controld" [ak_member spec] (ak_now spec) None None
    (Some {[ "member" := AStr (ak_member spec); "cursor" := AStr (ak_cursor spec); "event_id" := AStr eventID ]}).

Definition ack_decide (_ : time) (md : SessionMetadata) (ix : LogIndex) (spec : AckSpec) : result error decision :=
  try c := ParseCursor (ak_cursor spec) in
  ensure cursor_at ix c.1 c.2 or
    NewValidationError CategoryInvalidEnvelope "cursor" "cursor does not match channel.jsonl";;
  Ok (Propose (ack_event md ix spec c.2)).

#[global] Instance AcknowledgeCursor : Command AckSpec := {
  precheck := ack_precheck; respond := ack_decide }.

(** ** RecordDeliveryEvidence *)

Record DeliveryEvidence := mk_delivery {
  dl_kind : string; dl_reporter : string; dl_escalation : string; dl_target : string; dl_platform : string;
  dl_message_ref : string; dl_batch_id : string; dl_failure_target : string; dl_failure_reason : string;
  dl_will_retry : list string; dl_command_id : string; dl_now : time }.

Definition delivered_payload (spec : DeliveryEvidence) (escalation : EventEnvelope) : payload :=
  let batchID := payloadStringDefault (pl escalation) "batch_id" "" in
  let p : payload :=
    {[ "escalation_event_id" := AStr (dl_escalation spec); "delivery_target" := AStr (dl_target spec);
       "platform" := AStr (dl_platform spec);
       "delivered_batch_id" := if dl_batch_id spec != "" then AStr (dl_batch_id spec)
                               else if batchID != "" then AStr batchID else ANil ]} in
  if dl_message_ref spec == "" then p else <["message_ref" := AStr (dl_message_ref spec)]> p.

Definition failed_payload (spec : DeliveryEvidence) : payload :=
  let p : payload :=
    {[ "escalation_event_id" := AStr (dl_escalation spec); "target" := AStr (dl_failure_target spec);
       "reason" := AStr (dl_failure_reason spec) ]} in
  match dl_will_retry spec with
  | [] => p
  | l => <["will_retry_targets" := AStrs l]> p
  end.

Definition delivery_command_id (spec : DeliveryEvidence) : string :=
  if is_blank (dl_command_id spec)
  then "cmd_delivery_" +:+ unix_nano (dl_now spec) +:+ "_" +:+ dl_reporter spec
  else dl_command_id spec.

Definition delivery_event (md : SessionMetadata) (spec : DeliveryEvidence) (ty : string) (to : list string)
    (p : payload) : EventEnvelope :=
  let commandID := delivery_command_id spec in
  mk_event SchemaVersion (eventIDFromCommand ("evt_" +:+ ty) commandID) commandID (dl_escalation spec)
    (md_id md) (md_id md) (md_session_type md) None "waiting_user" ty (dl_reporter spec) to (dl_now spec)
    None None (Some p).

Definition delivery_decide (_ : time) (md : SessionMetadata) (ix : LogIndex) (spec : DeliveryEvidence)
    : result error decision :=
  let invalid path message := NewValidationError CategoryInvalidEnvelope path message in
  match eventByIDAndType ix (dl_escalation spec) "user_escalation_requested" with
  | None => Err (invalid "escalation" "escalation must reference user_escalation_requested")
  | Some escalation =>
      if dl_kind spec == "delivered" then
        reject (dl_target spec == "") || (dl_platform spec == "") with
          invalid "delivery" "delivery_target and platform are required";;
        Ok (Propose (delivery_event md spec "user_escalation_delivered" ["user"]
                       (delivered_payload spec escalation)))
      else if dl_kind spec == "delivery_failed" then
        reject (dl_failure_target spec == "") || (dl_failure_reason spec == "") with
          invalid "delivery" "target and reason are required";;
        Ok (Propose (delivery_event md spec "user_escalation_delivery_failed" [md_moderator md]
                       (failed_payload spec)))
      else Err (invalid "delivery.kind" "unknown delivery evidence kind")
  end.

#[global] Instance RecordDeliveryEvidence : Command DeliveryEvidence := {
  precheck md spec :=
    ensure Participant md (dl_reporter spec) or
      NewValidationError CategoryPrincipalInvalid "reporter" "reporter is not a session participant";;
    Ok tt;
  respond := delivery_decide }.
