(* ===== verification/StreamTheory.v ===== *)
(** * Correctness of event streams

    A consumer that remembers its last cursor sees every event exactly once, in
    order, across replay, follow and reconnection; acknowledged cursors name
    logged events and are what the status reports. *)

From S2P Require Import Prelude GoValue GoTime Model Ids Evidence Events EventLog LogSpec Command Delegation Fixtures DelegationTheory Stream.

(** ** The handlers are lawful *)

#[global] Instance ack_lawful : LawfulCommand AckSpec.
Proof.
  split; intros clock md ix spec x; simpl; unfold ack_decide; intros H; run_inv H; try done.
  injection H as <-. repeat split. simpl. unfold ack_command_id.
  destruct (is_blank _) eqn:E; [done | by apply nonblank_ne].
Qed.

#[global] Instance ack_terminal_safe : TerminalSafe AckSpec.
Proof.
  intros clock md ix spec e H _. simpl in H. unfold ack_decide in H. run_inv H. by injection H as <-.
Qed.

#[global] Instance delivery_lawful : LawfulCommand DeliveryEvidence.
Proof.
  assert (Hne : forall spec, delivery_command_id spec <> "").
  { intros spec. unfold delivery_command_id. destruct (is_blank _) eqn:E; [done | by apply nonblank_ne]. }
  split; intros clock md ix spec x; simpl; unfold delivery_decide; intros H; run_inv H; try done;
    injection H as <-; (repeat split); apply Hne.
Qed.

(** ** Frames *)

Lemma frames_at_app i r l1 l2 : frames_at i r (l1 ++ l2) = frames_at i r l1 ++ frames_at (i + len_z l1) r l2.
Proof.
  revert i. induction l1 as [|e l1 IH]; intros i; simpl; [by rewrite Z.add_0_r|].
  rewrite IH. do 2 f_equal. unfold len_z. simpl. f_equal. lia.
Qed.

Lemma framesFrom_nat l (n : nat) r :
  (n <= length l)%nat -> framesFrom l (Z.of_nat n) r = frames_at (Z.of_nat n) r (drop n l).
Proof.
  intros Hn. unfold framesFrom, len_z. cbv zeta.
  replace (Z.min (Z.max (Z.of_nat n) 0) (Z.of_nat (length l))) with (Z.of_nat n) by lia.
  by rewrite Nat2Z.id.
Qed.

(** What a frame shows of the log, whichever phase delivered it. *)
Definition shown (f : StreamFrame) : string * EventEnvelope := (fr_cursor f, fr_event f).

Lemma shown_frames_at i r r' l : map shown (frames_at i r l) = map shown (frames_at i r' l).
Proof. revert i. induction l as [|e l IH]; intros i; simpl; [done|]. f_equal. apply IH. Qed.

Lemma cursor_at_lookup ix n e :
  ix_events ix !! n = Some e -> cursor_at ix (Z.of_nat n) (ev_event_id e) = true.
Proof.
  intros H. unfold cursor_at.
  rewrite (proj2 (nth_z_lookup (ix_events ix) (Z.of_nat n) e)); [by rewrite String.eqb_refl|].
  by rewrite Nat2Z.id; split; [lia|].
Qed.

Lemma since_cursor ix n e from follow :
  ix_events ix !! n = Some e -> Z.of_nat n < 10 ^ 12 -> ev_event_id e <> "" ->
  any_char (is_byte 10) (ev_event_id e) = false ->
  replayStartOffset ix (mk_replay from (cursorFor (Z.of_nat n) (ev_event_id e)) follow) = Ok (Z.of_nat n + 1).
Proof.
  intros Hn Hlt Hne Hnl. unfold replayStartOffset. cbn [ro_since].
  assert (Hc : (cursorFor (Z.of_nat n) (ev_event_id e) == "") = false) by done.
  rewrite Hc, parse_cursor_for by (done || lia). simpl. by rewrite (cursor_at_lookup _ _ _ Hn).
Qed.

(** Reconnecting loses nothing and repeats nothing: the full replay of a
    log is the frames up to and including a cursor followed by exactly what a
    replay since that cursor returns. *)
Theorem replay_since_resumes ix n e polls :
  ix_events ix !! n = Some e -> Z.of_nat n < 10 ^ 12 -> ev_event_id e <> "" ->
  any_char (is_byte 10) (ev_event_id e) = false ->
  exists before after,
    ReplayStream (Ok ix) (mk_replay true "" false) polls = Ok (before ++ after) /\
    ReplayStream (Ok ix) (mk_replay false (cursorFor (Z.of_nat n) (ev_event_id e)) false) polls = Ok after /\
    length before = S n /\ fr_cursor <$> last before = Some (cursorFor (Z.of_nat n) (ev_event_id e)).
Proof.
  intros Hn Hlt Hne Hnl.
  pose proof (lookup_lt_Some _ _ _ Hn) as Hlen.
  exists (frames_at 0 true (take (S n) (ix_events ix))), (frames_at (Z.of_nat (S n)) true (drop (S n) (ix_events ix))).
  unfold ReplayStream, ReplayStreamWithAfterReplay. split; [|split; [|split]].
  - simpl. rewrite (framesFrom_nat _ 0) by lia. rewrite <- (take_drop (S n) (ix_events ix)) at 1.
    rewrite drop_0, frames_at_app. unfold len_z. rewrite length_take_le by lia. done.
  - simpl ensureStreamMode. cbn [ensureStreamMode ro_from_start andb mbind result_bind].
    rewrite since_cursor by done. simpl. replace (Z.of_nat n + 1) with (Z.of_nat (S n)) by lia.
    by rewrite framesFrom_nat by lia.
  - clear -Hlen. assert (Hf : forall i l, length (frames_at i true l) = length l)
      by (intros i l; revert i; induction l as [|x l IH]; intros i; simpl; [done | by rewrite IH]).
    rewrite Hf, length_take_le; lia.
  - rewrite (take_S_r _ _ _ Hn), frames_at_app, last_app. simpl. unfold len_z.
    rewrite length_take_le by lia. done.
Qed.

Lemma followFrames_extends polls events n :
  Forall (fun p => exists ix' tail, p = Ok ix' /\ ix_events ix' = events ++ tail) polls -> n = len_z events ->
  exists tail, ((Ok (E := error) (mk_index (events ++ tail) ∅) = Ok (mk_index events ∅)) \/
                exists ix', Ok ix' ∈ polls /\ ix_events ix' = events ++ tail) /\
    followFrames polls n = Ok (frames_at n false tail).
Proof.
  intros Hall ->. induction Hall as [|p polls (ix' & tail & -> & Hix) _ IH].
  - exists []. rewrite app_nil_r. split; [by left | done].
  - simpl. destruct (Z.ltb_spec (len_z events) (len_z (ix_events ix'))) as [Hlt|Hge].
    + exists tail. split; [right; exists ix'; split; [set_solver|done]|].
      unfold len_z at 1. rewrite framesFrom_nat; rewrite Hix; [by rewrite drop_app_length|].
      rewrite length_app. lia.
    + destruct IH as (tail' & Ht & Hf). exists tail'. split; [|done].
      destruct Ht as [?|(ix'' & Hin & ?)]; [by left | right; exists ix''; split; [set_solver|done]].
Qed.

(** What following answers from: the first poll that sees more than the replay did,
    or, when none does, the replay's own log. *)
Definition first_grown (events : list EventEnvelope) (polls : list (result error LogIndex)) (seen : list EventEnvelope) : Prop :=
  (seen = events /\ forall ix', Ok ix' ∈ polls -> ix_events ix' = events) \/
  exists before ix' after, polls = before ++ Ok ix' :: after /\ (forall ix'', Ok ix'' ∈ before -> ix_events ix'' = events) /\
    seen = ix_events ix' /\ seen <> events.

Lemma followFrames_first polls events n :
  Forall (fun p => exists ix' tail, p = Ok ix' /\ ix_events ix' = events ++ tail) polls -> n = len_z events ->
  exists tail, first_grown events polls (events ++ tail) /\ followFrames polls n = Ok (frames_at n false tail).
Proof.
  intros Hall ->. induction Hall as [|p polls (ix' & tail & -> & Hix) _ IH].
  { exists []. rewrite app_nil_r. split; [left; split; [done|set_solver]|done]. }
  cbn [followFrames]. destruct (Z.ltb_spec (len_z events) (len_z (ix_events ix'))) as [Hlt|Hge]; rewrite Hix in *.
  - exists tail. split.
    + right. exists [], ix', polls. split; [done|]. split; [set_solver|]. rewrite Hix. split; [done|].
      intros Heq. rewrite Heq in Hlt. lia.
    + unfold len_z at 1. rewrite framesFrom_nat; [by rewrite drop_app_length|]. rewrite length_app. lia.
  - assert (tail = []) as -> by (destruct tail; [done|]; unfold len_z in Hge; rewrite length_app in Hge; cbn in Hge; lia).
    rewrite app_nil_r in *. destruct IH as (tail' & Hg & Hf). exists tail'. split; [|done].
    destruct Hg as [[Heq Hall]|(before & ix1 & after_ & -> & Hb & Hs & Hne)].
    + left. split; [done|]. intros ix1 [[= ->]|Hin]%elem_of_cons; [done|by apply Hall].
    + right. exists (Ok ix' :: before), ix1, after_. split; [done|]. split; [|done].
      intros ix2 [[= ->]|Hin]%elem_of_cons; [done|by apply Hb].
Qed.

Lemma live_frames_at i r l : map fr_event (List.filter (fun f => negb (fr_is_replay f)) (frames_at i r l)) = if r then [] else l.
Proof. revert i. induction l as [|e l IH]; intros i; cbn; [by destruct r|]. destruct r; cbn; by rewrite IH. Qed.

(** C34. Following leaves no gap and misses nothing: replay then follow, over a log
    that only grows between the reads, answers with the log of the first poll that
    saw a new event (of the replay, if none did), from the requested start, each
    event once, in order, under its cursor; and the live frames are exactly the
    events that the replay had not seen. *)
Theorem follow_no_gap ix opts polls start :
  ro_follow opts = true -> ensureStreamMode opts = Ok tt -> replayStartOffset ix opts = Ok start ->
  Forall (fun p => exists ix' tail, p = Ok ix' /\ ix_events ix' = ix_events ix ++ tail) polls ->
  exists frames seen,
    ReplayStream (Ok ix) opts polls = Ok frames /\ first_grown (ix_events ix) polls seen /\
    map shown frames = map shown (framesFrom seen start true) /\
    map fr_event (List.filter (fun f => negb (fr_is_replay f)) frames) = drop (length (ix_events ix)) seen.
Proof.
  intros Hfollow Hmode Hstart Hall.
  destruct (followFrames_first polls (ix_events ix) _ Hall eq_refl) as (tail & Hg & Hf).
  exists (framesFrom (ix_events ix) start true ++ frames_at (len_z (ix_events ix)) false tail), (ix_events ix ++ tail).
  split; [|split; [done|]].
  - unfold ReplayStream, ReplayStreamWithAfterReplay. rewrite Hmode. simpl. rewrite Hstart. simpl.
    rewrite Hfollow, Hf. done.
  - split; [|by rewrite List.filter_app, map_app, drop_app_length; unfold framesFrom; rewrite !live_frames_at].
    assert (Hs : 0 <= start <= len_z (ix_events ix)).
    { unfold replayStartOffset in Hstart. destruct (_ == "").
      - injection Hstart as <-. unfold len_z. lia.
      - run_inv Hstart. subst start. unfold cursor_at in Hguard.
        destruct (nth_z _ _) as [x|] eqn:E; [|done]. apply nth_z_lookup in E as [Hge Hl].
        apply lookup_lt_Some in Hl. unfold len_z. lia. }
    unfold framesFrom. cbv zeta. unfold len_z in *. rewrite length_app.
    replace (Z.min (Z.max start 0) (Z.of_nat (length (ix_events ix)))) with start by lia.
    replace (Z.min (Z.max start 0) (Z.of_nat (length (ix_events ix) + length tail))) with start by lia.
    rewrite drop_app_le by lia. rewrite frames_at_app, !map_app. f_equal.
    rewrite (shown_frames_at _ false true). do 2 f_equal. unfold len_z. rewrite length_drop. lia.
Qed.

(** ** Acknowledgements *)

Lemma status_cursors_snoc md ix e :
  sg_cursors (StreamStatusFromLog md (index_add ix e)) = cursor_step (sg_cursors (StreamStatusFromLog md ix)) e.
Proof. simpl. by rewrite foldl_app. Qed.

Lemma ack_decide_ok clock md ix spec e :
  ack_decide clock md ix spec = Ok (Propose e) ->
  exists n x, ix_events ix !! n = Some x /\ ak_cursor spec = cursorFor (Z.of_nat n) (ev_event_id x) /\
    e = ack_event md ix spec (ev_event_id x).
Proof.
  unfold ack_decide. intros H. destruct (ParseCursor (ak_cursor spec)) as [[off id]|] eqn:Hc; [|done].
  simpl in H. destruct (cursor_at ix off id) eqn:Hat; [|done]. injection H as <-.
  unfold cursor_at in Hat. destruct (nth_z _ _) as [x|] eqn:Hn; [|done].
  apply nth_z_lookup in Hn as [Hge Hn]. apply String.eqb_eq in Hat. subst id.
  exists (Z.to_nat off), x. rewrite Z2Nat.id by lia. split; [done|]. split; [|done].
  by apply parse_cursor_inv in Hc as [? _].
Qed.

(** Acknowledging works: an accepted acknowledgement names an event of the
    log by its exact cursor, leaves the phase of the session as it was, and the
    stream status then reports it for that member, with its time. *)
Theorem acknowledge_recorded name w ix clock (spec : AckSpec) w1 a :
  reads w name ix -> run_command name w clock spec None = (w1, Ok (a, false)) ->
  exists ix1 n x,
    ix_events ix !! n = Some x /\ ak_cursor spec = cursorFor (Z.of_nat n) (ev_event_id x) /\
    reads w1 name ix1 /\ latestPhase (wd_md w1) ix1 = latestPhase (wd_md w) ix /\
    sg_cursors (StreamStatusFromLog (wd_md w1) ix1) !! ak_member spec =
      Some (mk_cursor_state (ak_cursor spec) (ev_event_id x) (time_format (ak_now spec))).
Proof.
  intros Hix Hrun.
  apply run_command_cases in Hrun as [[_ Hno]|(ix' & e & Hix' & Hd & Happ & _)]; [by destruct (Hno a)|].
  rewrite (reads_fun _ _ _ _ Hix' Hix) in *. clear ix' Hix'.
  destruct (appendIdempotentEvent_ok _ _ _ _ _ _ _ Hix Happ) as (Hr1 & _ & _).
  apply ack_decide_ok in Hd as (n & x & Hn & Hcur & ->).
  exists (index_add ix (appended (wd_md w) ix (ack_event (wd_md w) ix spec (ev_event_id x)))), n, x.
  set (e := ack_event _ _ _ _) in *.
  pose proof (appended_fields (wd_md w) ix e) as (_ & _ & _ & Hph & Hty & _ & _ & _ & Hat).
  split; [done|]. split; [done|]. split; [done|]. split.
  - unfold index_add. by rewrite latestPhase_app, Hph.
  - rewrite status_cursors_snoc. unfold cursor_step. rewrite Hty. simpl ev_type. cbn iota.
    change ("stream_cursor_acknowledged" == "stream_cursor_acknowledged") with true. cbn iota.
    unfold ack_member. rewrite (appended_payload _ _ e _ ltac:(done) eq_refl), Hat.
    rewrite !payloadStringDefault_norm. simpl.
    change (payloadStringDefault _ "member" _) with (ak_member spec).
    by rewrite lookup_insert_eq.
Qed.

(** ** Delivery evidence *)

(** Delivery evidence that arrives after a delegation ended is recorded with
    phase [waiting_user]: the log's last phase is no longer terminal, so the
    session counts as active again, although its metadata says terminal. *)
Definition fx_dw_escalated : world :=
  fx_run fx_dw0 (fx_deleg "escalate" "ann" "cmd_esc" ""
    {[ "question" := AStr "ok?"; "urgency" := AStr "high" ]}).
Definition fx_dw_cancelled : world := fx_run fx_dw_escalated (mk_cancel "mod" "obsolete" "" "cmd_cancel" fx_now).
Definition fx_delivery : DeliveryEvidence :=
  mk_delivery "delivered" "mod" "evt_user_escalation_requested_cmd_esc" "dm" "discord" "" "" "" "" []
    "cmd_delivery" fx_later.

Example delivery_reopens_terminal_session :
  fx_phase fx_dw_cancelled = Ok "cancelled" /\
  fx_phase (fx_run fx_dw_cancelled fx_delivery) = Ok "waiting_user" /\
  md_status (wd_md (fx_run fx_dw_cancelled fx_delivery)) = StatusTerminal.
Proof. vm_compute. repeat split. Qed.

(** ** Witnesses *)

Lemma replay_since_resumes_witness :
  exists before after,
    ReplayStream (Ok fx_dix0) (mk_replay true "" false) [] = Ok (before ++ after) /\
    ReplayStream (Ok fx_dix0) (mk_replay false "cur_000000000000_evt_session_created_sess_deleg" false) [] = Ok after /\
    length before = 1%nat /\
    fr_cursor <$> last before = Some "cur_000000000000_evt_session_created_sess_deleg".
Proof.
  apply (replay_since_resumes fx_dix0 0 (norm_event (fx_created fx_deleg_md)) []);
    vm_compute; first [reflexivity | discriminate].
Defined.

Definition fx_polls : list (result error LogIndex) := [Ok fx_dix0; Ok (fx_read fx_dw_ack)].

Lemma follow_no_gap_witness :
  exists frames seen,
    ReplayStream (Ok fx_dix0) (mk_replay true "" true) fx_polls = Ok frames /\ first_grown (ix_events fx_dix0) fx_polls seen /\
    map shown frames = map shown (framesFrom seen 0 true) /\
    map fr_event (List.filter (fun f => negb (fr_is_replay f)) frames) = drop 2 seen.
Proof.
  apply (follow_no_gap fx_dix0 (mk_replay true "" true)).
  - reflexivity.
  - reflexivity.
  - reflexivity.
  - repeat constructor.
    + exists fx_dix0, []. by rewrite app_nil_r.
    + exists (fx_read fx_dw_ack), (drop 2 (ix_events (fx_read fx_dw_ack))). split; [done | vm_compute; reflexivity].
Defined.

Definition fx_ack_spec : AckSpec :=
  mk_ack "ann" "cur_000000000001_evt_cmd_new_sess_deleg_task" "cmd_stream_ack" fx_now.

Lemma acknowledge_recorded_witness :
  exists ix1 n x,
    ix_events fx_dix0 !! n = Some x /\
    "cur_000000000001_evt_cmd_new_sess_deleg_task" = cursorFor (Z.of_nat n) (ev_event_id x) /\
    reads (fx_run fx_dw0 fx_ack_spec) "sess_deleg" ix1 /\
    latestPhase (wd_md (fx_run fx_dw0 fx_ack_spec)) ix1 = latestPhase (wd_md fx_dw0) fx_dix0 /\
    sg_cursors (StreamStatusFromLog (wd_md (fx_run fx_dw0 fx_ack_spec)) ix1) !! "ann" =
      Some (mk_cursor_state "cur_000000000001_evt_cmd_new_sess_deleg_task" (ev_event_id x) (time_format fx_now)).
Proof.
  apply (acknowledge_recorded "sess_deleg" fx_dw0 fx_dix0 fx_later fx_ack_spec _
    (mk_append_result "cur_000000000002_evt_stream_ack_sess_deleg_cmd_stream_ack" 2
       "evt_stream_ack_sess_deleg_cmd_stream_ack")).
  - apply fx_dreads0.
  - vm_compute. reflexivity.
Defined.
