(* ===== verification/MemberRuntime.v ===== *)
(** * The member runtime (memberruntime/participant_session.go, memberruntime/runtime.go)

    The registry of participant sessions that the daemon keeps in memory, and the
    loop with which a member follows a session: replay from the stored cursor,
    act on the events its policy selects, acknowledge, and store the cursor. *)

From S2P Require Import Prelude Paths GoValue GoTime Model Ids Sha256 Evidence Events EventLog LogSpec Command Delegation Stream.

(** Errors of this package: its own texts, errors of the storage package, and
    those of the stream client, the handler and the file system. *)
Inductive runtime_error :=
| EPlain (message : string)
| EStorage (e : error)
| EExternal (message : string).

Definition lift_storage {A} (r : result error A) : result runtime_error A :=
  match r with
  | Ok a => Ok a
  | Err e => Err (EStorage e)
  end.

(** ** Participant sessions *)

Record ParticipantSession := mk_participant {
  ps_session_id : string; ps_member : string; ps_handle : string; ps_generation : Z;
  ps_last_cursor : string; ps_last_event_id : string; ps_updated_at : string }.

(** The map under the registry's mutex. *)
Abbreviation ParticipantSessionRegistry := (gmap string ParticipantSession).

Definition NewParticipantSessionRegistry : ParticipantSessionRegistry := ∅.

Definition DeterministicParticipantSessionHandle (sessionID member : string) : string :=
  let sessionID := trim_space sessionID in
  let member := trim_space member in
  "psh_" +:+ String.substring 0 24 (sha256_hex (sessionID +:+ nul +:+ member)).

Definition unsafeParticipantSessionKey (value : string) : bool :=
  let value := trim_space value in
  (value == "") || contains value "/" || contains value nul.

Definition participant_key (sessionID member : string) : string :=
  trim_space sessionID +:+ nul +:+ trim_space member.

Definition OpenCouncilSession (r : ParticipantSessionRegistry) (sessionID member : string) (now clock : time)
    : ParticipantSessionRegistry * result runtime_error ParticipantSession :=
  let sessionID := trim_space sessionID in
  let member := trim_space member in
  if unsafeParticipantSessionKey sessionID || unsafeParticipantSessionKey member
  then (r, Err (EPlain "unsafe participant session key"))
  else
    let key := sessionID +:+ nul +:+ member in
    match r !! key with
    | Some existing => (r, Ok existing)
    | None =>
        let now := event_time clock now in
        let session := mk_participant sessionID member (DeterministicParticipantSessionHandle sessionID member)
                         1 "" "" (time_format now) in
        (<[key := session]> r, Ok session)
    end.

(** The members are opened in order; an error leaves the earlier ones open. *)
Fixpoint open_sessions (r : ParticipantSessionRegistry) (sessionID : string) (members : list string) (now clock : time)
    (out : gmap string ParticipantSession)
    : ParticipantSessionRegistry * result runtime_error (gmap string ParticipantSession) :=
  match members with
  | [] => (r, Ok out)
  | member :: rest =>
      let '(r1, res) := OpenCouncilSession r sessionID member now clock in
      match res with
      | Err e => (r1, Err e)
      | Ok session => open_sessions r1 sessionID rest now clock (<[ps_member session := session]> out)
      end
  end.

Definition OpenCouncilSessions (r : ParticipantSessionRegistry) (sessionID : string) (members : list string)
    (now clock : time) : ParticipantSessionRegistry * result runtime_error (gmap string ParticipantSession) :=
  let sessionID := trim_space sessionID in
  if sessionID == "" then (r, Err (EPlain "session_id is required"))
  else
    match members with
    | [] => (r, Err (EPlain "at least one member is required"))
    | _ => open_sessions r sessionID (sort_strings members) now clock ∅
    end.

(** ObserveCursor holds the mutex twice: while it opens the session and while
    it stores the new one.  [observe_begin] is everything up to the second
    critical section and gives the session to store. *)
Definition observe_begin (r : ParticipantSessionRegistry) (sessionID member cursor eventID : string) (now clock : time)
    : ParticipantSessionRegistry * result runtime_error ParticipantSession :=
  match ParseCursor cursor with
  | Err e => (r, Err (EStorage e))
  | Ok (offset, cursorEventID) =>
      if is_blank eventID || (cursorEventID != trim_space eventID)
      then (r, Err (EPlain "cursor event id does not match observed event"))
      else
        let '(r1, res) := OpenCouncilSession r sessionID member now clock in
        (r1,
         try session := res in
         try _ :=
           (if ps_last_cursor session != "" then
              try previous := lift_storage (ParseCursor (ps_last_cursor session)) in
              if offset <=? previous.1 then Err (EPlain "stale participant cursor") else Ok tt
            else Ok tt) in
         Ok (mk_participant (ps_session_id session) (ps_member session) (ps_handle session)
               (ps_generation session) cursor eventID (time_format (event_time clock now))))
  end.

(** The second critical section. *)
Definition observe_commit (r : ParticipantSessionRegistry) (sessionID member : string) (session : ParticipantSession)
    : ParticipantSessionRegistry :=
  <[participant_key sessionID member := session]> r.

Definition ObserveCursor (r : ParticipantSessionRegistry) (sessionID member cursor eventID : string) (now clock : time)
    : ParticipantSessionRegistry * result runtime_error unit :=
  let '(r1, res) := observe_begin r sessionID member cursor eventID now clock in
  match res with
  | Err e => (r1, Err e)
  | Ok session => (observe_commit r1 sessionID member session, Ok tt)
  end.

Definition member_le (a b : ParticipantSession) : Prop := str_le (ps_member a) (ps_member b).

#[global] Instance member_le_dec : RelDecision member_le.
Proof. intros a b. unfold member_le. apply _. Defined.

Definition Snapshot (r : ParticipantSessionRegistry) (sessionID : string) : list ParticipantSession :=
  let sessionID := trim_space sessionID in
  merge_sort member_le (List.filter (fun s => ps_session_id s == sessionID) (map snd (map_to_list r))).

(** ** The cursor store *)

(** How writing the cursor file fails: before it is truncated, or after a
    prefix of the new content was written. *)
Inductive write_fault :=
| WriteRefused
| WriteCut (n : nat).

Class CursorStore (S : Type) := {
  cs_load : S -> string -> string -> result runtime_error string;
  cs_save : S -> string -> string -> string -> option write_fault -> S * result runtime_error unit }.

(** The files by their path. *)
Record FileCursorStore := mk_file_store { fs_root : string; fs_files : gmap string string }.

Definition cursor_path (root sessionID member : string) : string :=
  Join [Clean root; sessionID; member +:+ ".cursor"].

Definition store_path (s : FileCursorStore) (sessionID member : string) : result runtime_error string :=
  reject contains sessionID "/" || contains member "/" || contains sessionID nul || contains member nul with
    EPlain "unsafe cursor key";;
  Ok (cursor_path (fs_root s) sessionID member).

Definition file_load (s : FileCursorStore) (sessionID member : string) : result runtime_error string :=
  try path := store_path s sessionID member in
  match fs_files s !! path with
  | None => Ok ""
  | Some content =>
      let cursor := trim_space content in
      if cursor == "" then Ok ""
      else try _ := lift_storage (ParseCursor cursor) in Ok cursor
  end.

Definition file_save (s : FileCursorStore) (sessionID member cursor : string) (fault : option write_fault)
    : FileCursorStore * result runtime_error unit :=
  match lift_storage (ParseCursor cursor) with
  | Err e => (s, Err e)
  | Ok _ =>
      match store_path s sessionID member with
      | Err e => (s, Err e)
      | Ok path =>
          let content := cursor +:+ nl in
          let write text := mk_file_store (fs_root s) (<[path := text]> (fs_files s)) in
          match fault with
          | None => (write content, Ok tt)
          | Some WriteRefused => (s, Err (EExternal "input/output error"))
          | Some (WriteCut n) => (write (String.substring 0 n content), Err (EExternal "input/output error"))
          end
      end
  end.

#[global] Instance file_cursor_store : CursorStore FileCursorStore := {
  cs_load := file_load; cs_save := file_save }.

(** ** The policy *)

Record Policy := mk_member_policy {
  po_actions : gset string; po_phases : gset string; po_roles : gset string;
  po_senders : gset string; po_hints : gset string }.

Definition NewPolicy (types : list string) : Policy :=
  mk_member_policy (list_to_set (List.filter (fun t => negb (is_blank t)) types)) ∅ ∅ ∅ ∅.

Record Runtime := mk_runtime { rt_session : string; rt_member : string; rt_role : string; rt_policy : Policy }.

Definition in_set (x : string) (s : gset string) : bool := bool_decide (x ∈ s).
Definition empty_set (s : gset string) : bool := bool_decide (s = ∅).

Definition recipientHintMatches (rt : Runtime) (recipients : list string) : bool :=
  let hints := po_hints (rt_policy rt) in
  existsb (fun r => in_set r hints || ((r == rt_member rt) && (in_set "self" hints || in_set "$member" hints))) recipients.

Definition shouldAct (rt : Runtime) (e : EventEnvelope) : bool :=
  let po := rt_policy rt in
  if ev_from e == rt_member rt then false
  else if empty_set (po_actions po) then false
  else if negb (in_set (ev_type e) (po_actions po)) then false
  else if negb (empty_set (po_senders po)) && negb (in_set (ev_from e) (po_senders po)) then false
  else if negb (empty_set (po_phases po)) && negb (in_set (ev_phase e) (po_phases po)) then false
  else if negb (empty_set (po_roles po)) && negb (in_set (rt_role rt) (po_roles po)) then false
  else if negb (empty_set (po_hints po)) && negb (recipientHintMatches rt (ev_to e)) then false
  else true.

Definition ActionTypes (types : gset string) : list string := sort_strings (elements types).

(** ** RunOnce *)

(** [HandlerDurable]: an error that is ErrDurableFailureRecorded. *)
Inductive handler_outcome :=
| HandlerOk
| HandlerDurable
| HandlerFailed (message : string).

(** What the handler, the stream client and the file system do in a run. *)
Record run_env := mk_env {
  en_handle : StreamFrame -> handler_outcome;
  en_ack : StreamFrame -> option string;
  en_save : StreamFrame -> option write_fault }.

(** The calls a run makes, with what the handler answered. *)
Inductive effect :=
| Handled (f : StreamFrame) (outcome : handler_outcome)
| Acked (f : StreamFrame)
| Saved (f : StreamFrame).

(** The checks of a frame against the offset of the frame before it. *)
Definition check_frame (previous : Z) (seenLive : bool) (f : StreamFrame) : result runtime_error Z :=
  try c := lift_storage (ParseCursor (fr_cursor f)) in
  reject negb (ev_schema_version (fr_event f) =? SchemaVersion) with
    EPlain ("unknown event schema_version " +:+ itoa (ev_schema_version (fr_event f)));;
  reject ev_event_id (fr_event f) != c.2 with
    EPlain "corrupt stream frame: cursor event id does not match event";;
  reject negb (c.1 =? previous + 1) with
    EPlain ("cursor gap: got offset " +:+ itoa c.1 +:+ " after " +:+ itoa previous);;
  reject seenLive && fr_is_replay f with EPlain "replay frame appeared after live frame";;
  Ok c.1.

Section run.
Context {S : Type} `{!CursorStore S} (rt : Runtime) (env : run_env).

(** The frame after its checks: act, acknowledge, store the cursor. *)
Definition process_frame (st : S) (f : StreamFrame) : S * list effect * result runtime_error unit :=
  let act := shouldAct rt (fr_event f) in
  let outcome := if act then en_handle env f else HandlerOk in
  let handled := if act then [Handled f outcome] else [] in
  match outcome with
  | HandlerFailed message => (st, handled, Err (EExternal message))
  | _ =>
      match en_ack env f with
      | Some message => (st, handled ++ [Acked f], Err (EExternal message))
      | None =>
          let '(st1, r) := cs_save st (rt_session rt) (rt_member rt) (fr_cursor f) (en_save env f) in
          (st1, handled ++ [Acked f; Saved f], r)
      end
  end.

Fixpoint run_frames (st : S) (previous : Z) (seenLive : bool) (frames : list StreamFrame)
    : S * list effect * result runtime_error unit :=
  match frames with
  | [] => (st, [], Ok tt)
  | f :: rest =>
      match check_frame previous seenLive f with
      | Err e => (st, [], Err e)
      | Ok offset =>
          let '(st1, effects, r) := process_frame st f in
          match r with
          | Err e => (st1, effects, Err e)
          | Ok _ =>
              let '(st2, effects', r') := run_frames st1 offset (seenLive || negb (fr_is_replay f)) rest in
              (st2, effects ++ effects', r')
          end
      end
  end.

(** [replay since] is the answer of the stream client to the replay request,
    which always follows. *)
Definition RunOnce (replay : string -> result runtime_error (list StreamFrame)) (st : S)
    : S * list effect * result runtime_error unit :=
  if is_blank (rt_session rt) || is_blank (rt_member rt)
  then (st, [], Err (EPlain "session_id and member are required"))
  else
    match cs_load st (rt_session rt) (rt_member rt) with
    | Err e => (st, [], Err e)
    | Ok since =>
        match replay since with
        | Err e => (st, [], Err e)
        | Ok frames =>
            match (if since != "" then lift_storage (ParseCursor since) else Ok (-1, "")) with
            | Err e => (st, [], Err e)
            | Ok previous => run_frames st previous.1 false frames
            end
        end
    end.

End run.

#[global] Arguments check_frame : simpl never.
#[global] Arguments process_frame : simpl never.
#[global] Arguments shouldAct : simpl never.
