(* ===== verification/MemberTheory.v ===== *)
(** * Correctness of the member runtime

    The registry of participant sessions stays well formed and its cursors only
    advance; the follow loop of a member handles every event its policy selects,
    through restarts, failing handlers and torn cursor files, and a run without
    failures catches up with the log. *)

From S2P Require Import Prelude GoValue GoTime Model Ids Evidence Events EventLog LogSpec Command Delegation Fixtures DelegationTheory Stream StreamTheory MemberRuntime.

(** ** Cursor stores *)

(** What the loop relies on: a successful save is loaded back; a failed one
    leaves the old cursor, a prefix of the new one, or an unreadable file; and
    where loading works, a save without fault does too. *)
Class CursorStoreLaws (S : Type) `{!CursorStore S} := {
  save_load : forall (st st' : S) sid m c fault r,
    all_chars id_char c = true -> cs_save st sid m c fault = (st', r) ->
    (r = Ok tt -> cs_load st' sid m = Ok c) /\
    (forall since, cs_load st' sid m = Ok since -> cs_load st sid m = Ok since \/ exists rest, since +:+ rest = c);
  save_works : forall (st : S) sid m since c x,
    cs_load st sid m = Ok since -> ParseCursor c = Ok x -> exists st', cs_save st sid m c None = (st', Ok tt) }.

Lemma substring_line n s :
  String.substring 0 n (s +:+ nl) = s +:+ nl \/ exists rest, String.substring 0 n (s +:+ nl) +:+ rest = s.
Proof.
  revert n. induction s as [|a s IH]; intros [|n].
  - right. by exists "".
  - left. simpl. by destruct n.
  - right. by exists (String a s).
  - rewrite str_app_cons. simpl. destruct (IH n) as [->|[rest Hr]]; [by left | right].
    exists rest. by rewrite str_app_cons, Hr.
Qed.

Lemma cursor_nonempty c x : ParseCursor c = Ok x -> exists a s, c = String a s.
Proof. destruct c as [|a s]; [done|]. eauto. Qed.

Lemma line_trimmed c x : ParseCursor c = Ok x -> all_chars id_char c = true -> trim_space (c +:+ nl) = c.
Proof. intros H Hc. destruct (cursor_nonempty _ _ H) as (a & s & ->). by apply trim_space_line. Qed.

(** What loading gives after the file was left with [text]. *)
Lemma torn_load s sid m path n c x since :
  store_path s sid m = Ok path -> ParseCursor c = Ok x -> all_chars id_char c = true ->
  file_load (mk_file_store (fs_root s) (<[path := String.substring 0 n (c +:+ nl)]> (fs_files s))) sid m = Ok since ->
  exists rest, since +:+ rest = c.
Proof.
  intros Hp Hc Hid H. unfold file_load in H. unfold store_path in *. cbn [fs_root fs_files] in *.
  run_inv Hp. subst path. cbn [mbind result_bind] in H. rewrite lookup_insert_eq in H.
  destruct (substring_line n c) as [Hs|[rest Hs]]; rewrite ?Hs in H.
  - rewrite (line_trimmed _ _ Hc Hid) in H. destruct (String.eqb_spec c ""); [by subst|].
    rewrite Hc in H. cbn in H. injection H as ->. exists "". apply str_app_nil_r.
  - rewrite trim_space_id in H.
    + destruct (String.eqb_spec (String.substring 0 n (c +:+ nl)) "") as [_|_].
      * injection H as <-. by exists c.
      * run_inv H. subst. by exists rest.
    + rewrite <- Hs in Hid. rewrite all_chars_app in Hid. bool_prop. done.
Qed.

#[global] Instance file_store_laws : CursorStoreLaws FileCursorStore.
Proof.
  split.
  - intros st st' sid m c fault r Hid H. simpl in *. unfold file_save in H.
    destruct (ParseCursor c) as [x|e] eqn:Hc; simpl in H; [|injection H as <- <-; by split; [|left]].
    destruct (store_path st sid m) as [path|e] eqn:Hp; [|injection H as <- <-; by split; [|left]].
    assert (Hload : file_load (mk_file_store (fs_root st) (<[path := c +:+ nl]> (fs_files st))) sid m = Ok c).
    { unfold file_load. unfold store_path in *. cbn [fs_root fs_files]. run_inv Hp. subst path.
      cbn [mbind result_bind]. rewrite lookup_insert_eq, (line_trimmed _ _ Hc Hid).
      destruct (cursor_nonempty _ _ Hc) as (a & s & ->). cbn zeta. change (String a s == "") with false. by rewrite Hc. }
    destruct fault as [[|n]|]; injection H as <- <-.
    + split; [done | by left].
    + split; [done|]. intros since Hs. right. by eapply torn_load.
    + split; [done|]. intros since Hs. right. rewrite Hload in Hs. injection Hs as <-. exists "". apply str_app_nil_r.
  - intros st sid m since c x Hl Hc. simpl in *. unfold file_save, file_load in *. rewrite Hc. cbn [lift_storage].
    destruct (store_path st sid m); [|done]. eauto.
Qed.

(** ** The follow loop *)

(** Logs whose cursors can be read back: at most 10^12 events of the current
    schema whose ids are identifier text, as [eventIDFromCommand] makes them. *)
Definition plain_event (e : EventEnvelope) : Prop :=
  ev_event_id e <> "" /\ all_chars id_char (ev_event_id e) = true /\ ev_schema_version e = SchemaVersion.

Definition plain_log (log : list EventEnvelope) : Prop := len_z log < 10 ^ 12 /\ Forall plain_event log.

Lemma id_text_no_newline s : all_chars id_char s = true -> any_char (is_byte 10) s = false.
Proof.
  induction s as [|a s IH]; simpl; [done|]. intros H. bool_prop. rewrite IH by done. rewrite orb_false_r.
  unfold is_byte. destruct (N.eqb_spec (Ascii.N_of_ascii a) 10) as [E|]; [|done].
  rewrite <- (Ascii.ascii_N_embedding a), E in H. done.
Qed.

Lemma plain_log_lookup log i e :
  plain_log log -> log !! i = Some e -> plain_event e /\ 0 <= Z.of_nat i < 10 ^ 12.
Proof.
  intros [Hlen Hall] Hi. split; [by eapply Forall_lookup_1|]. apply lookup_lt_Some in Hi. unfold len_z in Hlen. lia.
Qed.

Lemma plain_cursor i e :
  plain_event e -> 0 <= i < 10 ^ 12 ->
  ParseCursor (cursorFor i (ev_event_id e)) = Ok (i, ev_event_id e) /\
  all_chars id_char (cursorFor i (ev_event_id e)) = true.
Proof.
  intros (Hne & Hid & _) Hi. split; [|by apply cursor_id_chars].
  apply parse_cursor_for; [done | done | by apply id_text_no_newline].
Qed.

Section loop.
Context {Store : Type} `{!CursorStore Store, !CursorStoreLaws Store} (rt : Runtime).

Abbreviation load st := (cs_load st (rt_session rt) (rt_member rt)).

Definition handler_done (o : handler_outcome) : bool :=
  match o with
  | HandlerFailed _ => false
  | _ => true
  end.

(** Every event before [n] that the policy selects was handled, by its cursor. *)
Definition handled_upto (log : list EventEnvelope) (n : Z) (history : list effect) : Prop :=
  forall i e, Z.of_nat i < n -> log !! i = Some e -> shouldAct rt e = true ->
    exists f o, Handled f o ∈ history /\ handler_done o = true /\
      fr_event f = e /\ fr_cursor f = cursorFor (Z.of_nat i) (ev_event_id e).

(** The log as the replay reads it. *)
Definition log_index (log : list EventEnvelope) : LogIndex := mk_index log ∅.

(** Whatever cursor the store gives, everything up to it was handled; a torn
    cursor points into the log or to nothing. *)
Definition store_sound (log : list EventEnvelope) (st : Store) (history : list effect) : Prop :=
  forall since offset id, load st = Ok since -> ParseCursor since = Ok (offset, id) ->
    offset < len_z log /\ (cursor_at (log_index log) offset id = true -> handled_upto log (offset + 1) history).

(** Only selected events of the log are handled. *)
Definition handled_selected (log : list EventEnvelope) (history : list effect) : Prop :=
  forall f o, Handled f o ∈ history -> fr_event f ∈ log /\ shouldAct rt (fr_event f) = true.

Lemma handled_upto_more log n h h' : handled_upto log n h -> handled_upto log n (h ++ h').
Proof.
  intros H i e Hi He Ha. destruct (H i e Hi He Ha) as (f & o & Hin & Hd & Hf & Hc).
  exists f, o. split; [set_solver | done].
Qed.

Lemma handled_upto_log log tail n h : n <= len_z log -> handled_upto log n h -> handled_upto (log ++ tail) n h.
Proof.
  intros Hn H i e Hi He Ha. apply (H i e Hi); [|done]. rewrite lookup_app_l in He; [done|]. unfold len_z in Hn. lia.
Qed.

Lemma store_sound_more log st h h' : store_sound log st h -> store_sound log st (h ++ h').
Proof.
  intros H since off id Hl Hp. destruct (H since off id Hl Hp) as [Ho Hc]. split; [done|].
  intros Hat. by apply handled_upto_more, Hc.
Qed.

Lemma store_sound_log log tail st h :
  store_sound log st h -> store_sound (log ++ tail) st h.
Proof.
  intros H since off id Hl Hp. destruct (H since off id Hl Hp) as [Ho Hc].
  pose proof (parse_cursor_inv _ _ _ Hp) as (_ & Hoff & _). unfold len_z in *. rewrite length_app. split; [lia|].
  intros Hat. apply handled_upto_log; [unfold len_z; lia|]. apply Hc. unfold cursor_at, log_index, nth_z in *. simpl in *.
  destruct (off <? 0); [done|]. rewrite lookup_app_l in Hat by lia. done.
Qed.

Lemma handled_selected_app log h h' :
  handled_selected log (h ++ h') <-> handled_selected log h /\ handled_selected log h'.
Proof.
  unfold handled_selected. split.
  - intros H. split; intros f o Hin; apply (H f o); set_solver.
  - intros [H H'] f o Hin. apply elem_of_app in Hin as [Hin|Hin]; eauto.
Qed.

(** *** One frame *)

Definition frame_of (i : Z) (e : EventEnvelope) (replay : bool) : StreamFrame := mk_frame (cursorFor i (ev_event_id e)) replay e.

Lemma check_frame_next i e replay live :
  plain_event e -> 0 <= i < 10 ^ 12 -> (live = true -> replay = false) ->
  check_frame (i - 1) live (frame_of i e replay) = Ok i.
Proof.
  intros He Hi Hr. unfold check_frame, frame_of. cbn [fr_cursor fr_event fr_is_replay].
  destruct (plain_cursor i e He Hi) as [-> _]. cbn. destruct He as (_ & _ & ->).
  rewrite String.eqb_refl. cbn. rewrite (proj2 (Z.eqb_eq i (i - 1 + 1))) by lia. cbn.
  destruct live; [|done]. by rewrite Hr.
Qed.

Lemma process_frame_sound env log st i e replay h st' effects r :
  plain_log log -> log !! i = Some e -> store_sound log st h -> handled_upto log (Z.of_nat i) h ->
  process_frame rt env st (frame_of (Z.of_nat i) e replay) = (st', effects, r) ->
  store_sound log st' (h ++ effects) /\ handled_selected log effects /\
  (r = Ok tt -> handled_upto log (Z.of_nat i + 1) (h ++ effects)).
Proof.
  intros Hlog Hi Hst Hup H. destruct (plain_log_lookup _ _ _ Hlog Hi) as [He Hlt].
  set (f := frame_of (Z.of_nat i) e replay) in *. unfold process_frame in H. cbv zeta in H.
  set (outcome := if shouldAct rt (fr_event f) then en_handle env f else HandlerOk) in *.
  set (handled := if shouldAct rt (fr_event f) then [Handled f outcome] else []) in *.
  assert (Hsel : forall l, (forall x, x ∈ l -> x = Acked f \/ x = Saved f) -> handled_selected log (handled ++ l)).
  { intros l Hl g o Hin. apply elem_of_app in Hin as [Hin|Hin]; [|apply Hl in Hin; by destruct Hin].
    subst handled. destruct (shouldAct rt (fr_event f)) eqn:Ha; [|by apply elem_of_nil in Hin].
    apply list_elem_of_singleton in Hin. injection Hin as -> _. split; [|done]. by apply list_elem_of_lookup_2 in Hi. }
  assert (Hnext : handler_done outcome = true -> forall l, handled_upto log (Z.of_nat i + 1) (h ++ handled ++ l)).
  { intros Hd l j x Hj Hx Hact. destruct (decide (j = i)) as [->|Hne].
    - rewrite Hi in Hx. injection Hx as <-. exists f, outcome. subst handled. cbn [fr_event f frame_of] in *.
      rewrite Hact. split; [set_solver | done].
    - apply (handled_upto_more _ _ _ (handled ++ l) Hup); [lia | done | done]. }
  destruct outcome as [| |m] eqn:Ho; cbn [handler_done] in *;
    [| |injection H as <- <- <-; rewrite <- (app_nil_r handled); split;
        [by apply store_sound_more | split; [apply Hsel; intros x Hx; by apply elem_of_nil in Hx | done]]].
  all: destruct (en_ack env f) as [m|];
    [injection H as <- <- <-; split; [by apply store_sound_more | split; [apply Hsel; set_solver | done]]|].
  all: destruct (cs_save _ _ _ _ _) as [st1 r1] eqn:Hs; injection H as <- <- <-.
  all: pose proof (save_load _ _ _ _ _ _ _ (proj2 (plain_cursor _ _ He Hlt)) Hs) as [_ Hl].
  all: split; [|split; [apply Hsel; set_solver | intros _; by apply Hnext]].
  all: intros since off id Hsince Hp; destruct (Hl _ Hsince) as [Hold|[rest Hrest]];
    [by eapply store_sound_more|].
  all: destruct (cursor_prefix _ _ _ _ _ _ Hlt Hrest Hp) as [-> _]; split;
    [apply lookup_lt_Some in Hi; unfold len_z; lia | intros _; by apply Hnext].
Qed.

(** *** A run *)

(** The frames show the events [l], which start at offset [i], live frames after
    replayed ones. *)
Fixpoint stream_of (i : Z) (live : bool) (frames : list StreamFrame) (l : list EventEnvelope) : Prop :=
  match frames, l with
  | [], [] => True
  | f :: frames', e :: l' =>
      f = frame_of i e (fr_is_replay f) /\ (live = true -> fr_is_replay f = false) /\
      stream_of (i + 1) (live || negb (fr_is_replay f)) frames' l'
  | _, _ => False
  end.

Lemma stream_of_live i live l : stream_of i live (frames_at i false l) l.
Proof. revert i live. induction l as [|e l IH]; intros i live; simpl; [done|]. repeat split. apply IH. Qed.

Lemma stream_of_replay i l1 l2 :
  stream_of i false (frames_at i true l1 ++ frames_at (i + len_z l1) false l2) (l1 ++ l2).
Proof.
  revert i. induction l1 as [|e l1 IH]; intros i; simpl; [rewrite Z.add_0_r; apply stream_of_live|].
  repeat split; [done|]. replace (i + len_z (e :: l1)) with (i + 1 + len_z l1) by (unfold len_z; simpl; lia). apply IH.
Qed.

Lemma check_frame_stream log i e f live :
  plain_log log -> log !! i = Some e -> f = frame_of (Z.of_nat i) e (fr_is_replay f) ->
  (live = true -> fr_is_replay f = false) -> check_frame (Z.of_nat i - 1) live f = Ok (Z.of_nat i).
Proof.
  intros Hlog Hi -> Hlive. destruct (plain_log_lookup _ _ _ Hlog Hi) as [He Hlt]. by apply check_frame_next.
Qed.

Lemma run_frames_sound env log live frames l i st h st' effects r :
  plain_log log -> (exists tail, drop i log = l ++ tail) -> stream_of (Z.of_nat i) live frames l ->
  store_sound log st h -> handled_upto log (Z.of_nat i) h ->
  run_frames rt env st (Z.of_nat i - 1) live frames = (st', effects, r) ->
  store_sound log st' (h ++ effects) /\ handled_selected log effects /\
  (r = Ok tt -> handled_upto log (Z.of_nat i + len_z l) (h ++ effects)).
Proof.
  intros Hlog. revert live l i st h st' effects r.
  induction frames as [|f frames IH]; intros live [|e l] i st h st' effects r [tail Hd] Hs Hst Hup H; try done.
  - injection H as <- <- <-. rewrite app_nil_r, Z.add_0_r. split; [done|]. split; [|done].
    intros g o Hin. by apply elem_of_nil in Hin.
  - destruct Hs as (Hf & Hlive & Hrest). assert (Hi : log !! i = Some e).
    { rewrite <- (Nat.add_0_r i), <- lookup_drop, Hd. done. }
    assert (Hd' : exists tail', drop (S i) log = l ++ tail').
    { exists tail. rewrite <- Nat.add_1_r, <- drop_drop, Hd. done. }
    cbn [run_frames] in H. rewrite (check_frame_stream _ _ _ _ _ Hlog Hi Hf Hlive) in H. rewrite Hf in H at 1.
    destruct (process_frame rt env st (frame_of (Z.of_nat i) e (fr_is_replay f))) as [[st1 eff1] r1] eqn:Hp.
    destruct (process_frame_sound _ _ _ _ _ _ _ _ _ _ Hlog Hi Hst Hup Hp) as (Hst1 & Hsel1 & Hup1).
    destruct r1 as [[]|err]; [|injection H as <- <- <-; by split_and!].
    specialize (Hup1 eq_refl).
    destruct (run_frames rt env st1 _ _ frames) as [[st2 eff2] r2] eqn:Hr.
    injection H as <- <- <-. replace (Z.of_nat i) with (Z.of_nat (S i) - 1) in Hr by lia.
    replace (Z.of_nat i + 1) with (Z.of_nat (S i)) in * by lia.
    destruct (IH _ _ _ _ _ _ _ _ Hd' Hrest Hst1 Hup1 Hr) as (Hst2 & Hsel2 & Hup2).
    rewrite app_assoc. split; [done|]. split; [by apply handled_selected_app|].
    intros Hok. specialize (Hup2 Hok). unfold len_z in *. simpl.
    by replace (Z.of_nat i + Z.of_nat (S (length l))) with (Z.of_nat (S i) + Z.of_nat (length l)) by lia.
Qed.

(** The stream client's answer, when the daemon reads the log and then polls it. *)
Definition storage_replay (log : list EventEnvelope) (polls : list (result error LogIndex)) (since : string)
    : result runtime_error (list StreamFrame) :=
  lift_storage (ReplayStream (Ok (log_index log)) (mk_replay false since true) polls).

(** The polls see the log while [tail] is being added to it. *)
Definition polls_of (log tail : list EventEnvelope) (polls : list (result error LogIndex)) : Prop :=
  Forall (fun p => exists ix t, p = Ok ix /\ ix_events ix = log ++ t /\ t `prefix_of` tail) polls.

Lemma start_offset_cases log since start :
  replayStartOffset (log_index log) (mk_replay false since true) = Ok start ->
  (since = "" /\ start = 0) \/
  exists off id, since <> "" /\ ParseCursor since = Ok (off, id) /\ cursor_at (log_index log) off id = true /\
    start = off + 1 /\ 0 <= off < len_z log.
Proof.
  unfold replayStartOffset. cbn [ro_since]. destruct (String.eqb_spec since "") as [->|Hne].
  - intros [= <-]. by left.
  - intros H. destruct (ParseCursor since) as [[off id]|] eqn:Hp; [|done]. cbn in H.
    destruct (cursor_at _ off id) eqn:Hat; [|done]. injection H as <-. right. exists off, id.
    pose proof (parse_cursor_inv _ _ _ Hp) as (_ & Hoff & _). repeat split; try done; [lia|].
    unfold cursor_at in Hat. destruct (nth_z _ off) as [x|] eqn:Hn; [|done].
    apply nth_z_lookup in Hn as [Hge Hl]. apply lookup_lt_Some in Hl. simpl in Hl. unfold len_z. lia.
Qed.

Lemma follow_frames log tail polls :
  polls_of log tail polls ->
  exists t, t `prefix_of` tail /\ followFrames polls (len_z log) = Ok (frames_at (len_z log) false t).
Proof.
  intros Hp. assert (Hall : Forall (fun p => exists ix' tail, p = Ok ix' /\ ix_events ix' = log ++ tail) polls).
  { apply Forall_forall. intros p Hin. apply (proj1 (Forall_forall _ _) Hp) in Hin as (ix & t & Hix & Hev & _).
    by exists ix, t. }
  destruct (followFrames_extends polls log (len_z log) Hall eq_refl) as (t & Ht & Hf).
  exists t. split; [|done]. destruct Ht as [Heq|(ix & Hin & Hix)].
  - injection Heq as Heq. destruct t; [by apply prefix_nil|]. apply (f_equal length) in Heq.
    rewrite length_app in Heq. simpl in Heq. lia.
  - apply (proj1 (Forall_forall _ _) Hp) in Hin as (ix' & t' & [= <-] & Hix' & Hpre).
    rewrite Hix in Hix'. by apply app_inv_head in Hix' as ->.
Qed.

Lemma storage_replay_frames log tail polls since frames :
  polls_of log tail polls -> storage_replay log polls since = Ok frames ->
  exists n t, replayStartOffset (log_index log) (mk_replay false since true) = Ok (Z.of_nat n) /\
    (n <= length log)%nat /\ t `prefix_of` tail /\
    frames = frames_at (Z.of_nat n) true (drop n log) ++ frames_at (len_z log) false t.
Proof.
  intros Hp H. unfold storage_replay, ReplayStream, ReplayStreamWithAfterReplay in H. cbn in H.
  destruct (replayStartOffset (log_index log) _) as [start|] eqn:Hs; [|done]. cbn in H.
  destruct (follow_frames _ _ _ Hp) as (t & Ht & Hf). change (ix_events (log_index log)) with log in *.
  rewrite Hf in H. cbn in H. injection H as <-. exists (Z.to_nat start), t.
  assert (Hr : 0 <= start <= len_z log) by (apply start_offset_cases in Hs as [[_ ->]|(? & ? & _ & _ & _ & -> & ?)]; unfold len_z in *; lia).
  unfold len_z in *. rewrite Z2Nat.id by lia. split; [done|]. split; [lia|]. split; [done|].
  f_equal. rewrite <- (Z2Nat.id start) at 1 by lia. rewrite framesFrom_nat, Z2Nat.id by lia. done.
Qed.

(** The previous offset the loop starts from. *)
Definition previous_offset (since : string) : result runtime_error (Z * string) :=
  if since != "" then lift_storage (ParseCursor since) else Ok (-1, "").

Lemma previous_start log since start :
  replayStartOffset (log_index log) (mk_replay false since true) = Ok start ->
  exists id, previous_offset since = Ok (start - 1, id).
Proof.
  intros [[-> ->]|(off & id & Hne & Hp & _ & -> & _)]%start_offset_cases; [by exists ""|].
  unfold previous_offset. apply String.eqb_neq in Hne as ->. cbn [negb]. rewrite Hp.
  exists id. simpl. do 2 f_equal. lia.
Qed.

Lemma stored_handled log st h since n :
  store_sound log st h -> load st = Ok since ->
  replayStartOffset (log_index log) (mk_replay false since true) = Ok n -> handled_upto log n h.
Proof.
  intros Hst Hl [[-> ->]|(off & id & _ & Hp & Hat & -> & _)]%start_offset_cases; [intros i e Hi; lia|].
  by destruct (Hst _ _ _ Hl Hp) as [_ H]; apply H.
Qed.

Lemma stream_of_run n log t :
  (n <= length log)%nat ->
  stream_of (Z.of_nat n) false (frames_at (Z.of_nat n) true (drop n log) ++ frames_at (len_z log) false t) (drop n log ++ t).
Proof.
  intros Hn. replace (len_z log) with (Z.of_nat n + len_z (drop n log)); [apply stream_of_replay|].
  unfold len_z. rewrite length_drop. lia.
Qed.

Lemma run_once_sound env log tail polls st h st' effects r :
  plain_log (log ++ tail) -> polls_of log tail polls -> store_sound log st h ->
  RunOnce rt env (storage_replay log polls) st = (st', effects, r) ->
  store_sound (log ++ tail) st' (h ++ effects) /\ handled_selected (log ++ tail) effects.
Proof.
  intros Hlog Hpolls Hst H. assert (Hnone : store_sound (log ++ tail) st (h ++ []) /\ handled_selected (log ++ tail) []).
  { rewrite app_nil_r. split; [by apply store_sound_log | intros f o Hin; by apply elem_of_nil in Hin]. }
  unfold RunOnce in H. destruct (is_blank _ || is_blank _); [by injection H as <- <- <-|].
  destruct (load st) as [since|] eqn:Hl; [|by injection H as <- <- <-].
  destruct (storage_replay log polls since) as [frames|] eqn:Hr; [|by injection H as <- <- <-].
  destruct (storage_replay_frames _ _ _ _ _ Hpolls Hr) as (n & t & Hstart & Hn & [tail' ->] & ->).
  fold (previous_offset since) in H. destruct (previous_start _ _ _ Hstart) as [id Hprev]. rewrite Hprev in H.
  cbn [fst] in H. pose proof (stored_handled _ _ _ _ _ Hst Hl Hstart) as Hup.
  eapply (run_frames_sound env (log ++ t ++ tail') false _ (drop n log ++ t) n st h) in H as (? & ? & _); try done.
  - exists tail'. by rewrite drop_app_le, app_assoc by done.
  - by apply stream_of_run.
  - by apply store_sound_log.
  - apply handled_upto_log; [unfold len_z; lia | done].
Qed.

(** A history of the session and of the member: the log grows, and the member
    runs against it in any environment. *)
Inductive member_step : list EventEnvelope * Store * list effect -> list EventEnvelope * Store * list effect -> Prop :=
| log_grows log tail st h :
    plain_log (log ++ tail) -> member_step (log, st, h) (log ++ tail, st, h)
| member_runs log tail st h env polls st' effects r :
    plain_log (log ++ tail) -> polls_of log tail polls ->
    RunOnce rt env (storage_replay log polls) st = (st', effects, r) ->
    member_step (log, st, h) (log ++ tail, st', h ++ effects).

Lemma member_history_sound s s' :
  rtc member_step s s' ->
  store_sound s.1.1 s.1.2 s.2 /\ handled_selected s.1.1 s.2 -> store_sound s'.1.1 s'.1.2 s'.2 /\ handled_selected s'.1.1 s'.2.
Proof.
  induction 1 as [|s1 s2 s3 Hstep _ IH]; [done|]. intros [Hst Hsel]. apply IH. clear IH.
  assert (Hgrow : forall log tail h, handled_selected log h -> handled_selected (log ++ tail) h).
  { intros log tail h H f o Hin. destruct (H f o Hin) as [? ?]. split; [set_solver | done]. }
  inversion Hstep as [log tail st h Hlog|log tail st h env polls st' effects r Hlog Hp Hr]; subst; simpl in *.
  - split; [by apply store_sound_log | by apply Hgrow].
  - destruct (run_once_sound _ _ _ _ _ _ _ _ _ Hlog Hp Hst Hr) as [? ?]. split; [done|].
    apply handled_selected_app. split; [by apply Hgrow | done].
Qed.

(** *** A run without failures *)

Definition calm (env : run_env) : Prop :=
  forall f, handler_done (en_handle env f) = true /\ en_ack env f = None /\ en_save env f = None.

Definition handled_events (effects : list effect) : list EventEnvelope :=
  omap (fun x => match x with Handled f _ => Some (fr_event f) | _ => None end) effects.

Lemma process_frame_calm env st i e replay since :
  calm env -> plain_event e -> 0 <= i < 10 ^ 12 -> load st = Ok since ->
  exists st' effects, process_frame rt env st (frame_of i e replay) = (st', effects, Ok tt) /\
    load st' = Ok (cursorFor i (ev_event_id e)) /\ handled_events effects = List.filter (shouldAct rt) [e].
Proof.
  intros Hcalm He Hi Hl. destruct (Hcalm (frame_of i e replay)) as (Hh & Ha & Hs).
  destruct (plain_cursor _ _ He Hi) as [Hp Hid]. destruct (save_works _ _ _ _ _ _ Hl Hp) as [st' Hsave].
  pose proof (proj1 (save_load _ _ _ _ _ _ _ Hid Hsave) eq_refl) as Hload.
  unfold process_frame. cbv zeta. rewrite Ha, Hs. change (fr_cursor (frame_of i e replay)) with (cursorFor i (ev_event_id e)).
  rewrite Hsave. change (fr_event (frame_of i e replay)) with e. simpl List.filter.
  destruct (shouldAct rt e).
  - destruct (en_handle env (frame_of i e replay)); try done; eauto 6.
  - eauto 6.
Qed.

Lemma handled_events_app l1 l2 : handled_events (l1 ++ l2) = handled_events l1 ++ handled_events l2.
Proof. apply omap_app. Qed.

(** The cursor after the events [l] that start at [i]. *)
Definition cursor_after (i : Z) (since : string) (l : list EventEnvelope) : string :=
  match last l with
  | Some e => cursorFor (i + len_z l - 1) (ev_event_id e)
  | None => since
  end.

Lemma cursor_after_cons i since e l : cursor_after (i + 1) (cursorFor i (ev_event_id e)) l = cursor_after i since (e :: l).
Proof.
  unfold cursor_after. rewrite last_cons. destruct (last l) as [x|] eqn:E.
  - f_equal. unfold len_z. simpl. lia.
  - apply last_None in E as ->. f_equal. unfold len_z. simpl. lia.
Qed.

Lemma run_frames_calm env live frames l i st since :
  calm env -> Forall plain_event l -> 0 <= i -> i + len_z l <= 10 ^ 12 -> stream_of i live frames l -> load st = Ok since ->
  exists st' effects, run_frames rt env st (i - 1) live frames = (st', effects, Ok tt) /\
    load st' = Ok (cursor_after i since l) /\ handled_events effects = List.filter (shouldAct rt) l.
Proof.
  intros Hcalm Hall. revert live i frames st since.
  induction Hall as [|e l He _ IH]; intros live i [|f frames] st since Hi Hlen Hs Hl; try done; [by exists st, []|].
  destruct Hs as (Hf & Hlive & Hrest). unfold len_z in Hlen. simpl in Hlen.
  assert (Hi12 : 0 <= i < 10 ^ 12) by lia. cbn [run_frames].
  replace (check_frame (i - 1) live f) with (Ok (E := runtime_error) i) by (rewrite Hf; symmetry; by apply check_frame_next).
  replace (process_frame rt env st f) with (process_frame rt env st (frame_of i e (fr_is_replay f))) by by rewrite <- Hf.
  destruct (process_frame_calm _ st i e (fr_is_replay f) since Hcalm He Hi12 Hl) as (st1 & eff1 & -> & Hl1 & Hev1).
  destruct (IH (live || negb (fr_is_replay f)) (i + 1) frames st1 (cursorFor i (ev_event_id e)))
    as (st2 & eff2 & Hr & Hl2 & Hev2); [lia | unfold len_z; lia | done | done |].
  replace (i + 1 - 1) with i in Hr by lia. rewrite Hr. exists st2, (eff1 ++ eff2). split; [done|]. split.
  - by rewrite Hl2, (cursor_after_cons i since).
  - rewrite handled_events_app, Hev1, Hev2. simpl. by destruct (shouldAct rt e).
Qed.

Lemma resume_at_end log since n :
  plain_log log -> (n <= length log)%nat ->
  replayStartOffset (log_index (take n log)) (mk_replay false since true) = Ok (Z.of_nat n) ->
  replayStartOffset (log_index log) (mk_replay false (cursor_after (Z.of_nat n) since (drop n log)) true) = Ok (len_z log).
Proof.
  intros Hlog Hn Hstart. unfold cursor_after. destruct (last (drop n log)) as [e|] eqn:Hlast.
  - assert (Hlt : (n < length log)%nat).
    { destruct (decide (n = length log)) as [->|]; [by rewrite drop_all in Hlast | lia]. }
    rewrite last_lookup, lookup_drop, length_drop in Hlast.
    replace (n + pred (length log - n))%nat with (pred (length log)) in Hlast by lia.
    destruct (plain_log_lookup _ _ _ Hlog Hlast) as [(Hne & Hid & _) Hb].
    replace (Z.of_nat n + len_z (drop n log) - 1) with (Z.of_nat (pred (length log)))
      by (unfold len_z; rewrite length_drop; lia).
    rewrite (since_cursor (log_index log) _ e); [unfold len_z; f_equal; lia | done | lia | done | by apply id_text_no_newline].
  - apply last_None in Hlast. assert (Hend : n = length log).
    { apply (f_equal length) in Hlast. rewrite length_drop in Hlast. simpl in Hlast. lia. }
    subst n. by rewrite firstn_all in Hstart.
Qed.

End loop.

(** C35. No event is missed: in any history in which the log grows and the
    member runs against it, with handlers and acknowledgements that fail and
    cursor files that are cut short, every event of the log that the policy
    selects and that lies before the position from which the next run would
    resume was handled successfully, and nothing else was ever handled. *)
Theorem member_handles_every_event {Store} `{!CursorStore Store, !CursorStoreLaws Store} rt log0 log (st0 st : Store) history since n :
  rtc (member_step rt) (log0, st0, []) (log, st, history) -> cs_load st0 (rt_session rt) (rt_member rt) = Ok "" ->
  cs_load st (rt_session rt) (rt_member rt) = Ok since ->
  replayStartOffset (log_index log) (mk_replay false since true) = Ok n ->
  handled_upto rt log n history /\ handled_selected rt log history.
Proof.
  intros Hrun Hempty Hl Hn.
  destruct (member_history_sound _ _ _ Hrun) as [Hst Hsel]; simpl.
  - split; [|intros f o Hin; by apply elem_of_nil in Hin].
    intros since' off id Hl' Hp. rewrite Hempty in Hl'. by injection Hl' as <-.
  - split; [by eapply stored_handled | done].
Qed.

(** C36. A member catches up: a run whose handler, acknowledgements and cursor
    file work ends without error, whatever is appended while it follows; it
    handles exactly the selected events from its stored position to the end of
    the log it saw, in order, and the next run would start behind them. *)
Theorem run_once_catches_up {Store} `{!CursorStore Store, !CursorStoreLaws Store} rt env log tail polls (st : Store) since n :
  calm env -> is_blank (rt_session rt) = false -> is_blank (rt_member rt) = false ->
  plain_log (log ++ tail) -> polls_of log tail polls -> cs_load st (rt_session rt) (rt_member rt) = Ok since ->
  replayStartOffset (log_index log) (mk_replay false since true) = Ok n ->
  exists t st' effects since', t `prefix_of` tail /\
    RunOnce rt env (storage_replay log polls) st = (st', effects, Ok tt) /\
    handled_events effects = List.filter (shouldAct rt) (drop (Z.to_nat n) (log ++ t)) /\
    cs_load st' (rt_session rt) (rt_member rt) = Ok since' /\
    replayStartOffset (log_index (log ++ t)) (mk_replay false since' true) = Ok (len_z (log ++ t)).
Proof.
  intros Hcalm Hs Hm Hlog Hpolls Hl Hn. destruct (follow_frames _ _ _ Hpolls) as (t & Ht & Hf).
  assert (Hr : exists n', n = Z.of_nat n' /\ (n' <= length log)%nat).
  { exists (Z.to_nat n). apply start_offset_cases in Hn as [[_ ->]|(? & ? & _ & _ & _ & -> & ?)]; unfold len_z in *; lia. }
  destruct Hr as (n' & -> & Hle). rewrite Nat2Z.id.
  assert (Hplain : plain_log (log ++ t)).
  { destruct Ht as [t' ->]. destruct Hlog as [Hlen Hall]. rewrite app_assoc in *. apply Forall_app in Hall as [Hall _].
    split; [|done]. unfold len_z in *. rewrite length_app in Hlen. lia. }
  destruct Hplain as [Hlen Hall].
  pose proof (stream_of_run n' log t Hle) as Hstream. rewrite <- drop_app_le in Hstream by done.
  edestruct (run_frames_calm rt env false) as (st' & effects & Hrun & Hl' & Hev);
    [exact Hcalm | | | | exact Hstream | exact Hl |].
  - by apply Forall_drop.
  - lia.
  - unfold len_z in *. rewrite length_drop, length_app in *. lia.
  - exists t, st', effects, (cursor_after (Z.of_nat n') since (drop n' (log ++ t))). split; [done|].
    split; [|split; [done | split; [done|]]].
    + unfold RunOnce. rewrite Hs, Hm, Hl. cbn [orb]. unfold storage_replay, ReplayStream, ReplayStreamWithAfterReplay.
      cbn [ensureStreamMode ro_from_start ro_follow andb mbind result_bind]. rewrite Hn. cbn [mbind result_bind].
      change (ix_events (log_index log)) with log. rewrite Hf. cbn [mbind result_bind lift_storage].
      destruct (previous_start _ _ _ Hn) as [id Hprev]. fold (previous_offset since). rewrite Hprev. cbn [fst].
      rewrite framesFrom_nat by done. exact Hrun.
    + apply resume_at_end; [done | rewrite length_app; lia|].
      apply start_offset_cases in Hn as [[-> Hz]|(off & id & Hne & Hp & Hat & Hoff & Hrange)].
      * by rewrite Hz.
      * unfold replayStartOffset. cbn [ro_since]. apply String.eqb_neq in Hne as ->. rewrite Hp. cbn.
        replace (cursor_at _ off id) with true; [cbn; f_equal; lia|]. symmetry.
        unfold cursor_at, nth_z in *. cbn [ix_events log_index] in *. destruct (off <? 0); [done|].
        rewrite lookup_take_lt, lookup_app_l by (unfold len_z in *; lia). done.
Qed.

(** ** The registry of participant sessions *)

(** The registry and the observations that passed their checks but have not
    stored yet: any number of callers interleave, one critical section at a time. *)
Inductive registry_step : ParticipantSessionRegistry * list (string * string * ParticipantSession) ->
    ParticipantSessionRegistry * list (string * string * ParticipantSession) -> Prop :=
| step_open r pending sid m now clock :
    registry_step (r, pending) (fst (OpenCouncilSession r sid m now clock), pending)
| step_open_all r pending sid ms now clock :
    registry_step (r, pending) (fst (OpenCouncilSessions r sid ms now clock), pending)
| step_observe r pending sid m cursor event now clock r1 s :
    observe_begin r sid m cursor event now clock = (r1, Ok s) -> registry_step (r, pending) (r1, (sid, m, s) :: pending)
| step_observe_refused r pending sid m cursor event now clock r1 e :
    observe_begin r sid m cursor event now clock = (r1, Err e) -> registry_step (r, pending) (r1, pending)
| step_store r before sid m s after_ :
    registry_step (r, before ++ (sid, m, s) :: after_) (observe_commit r sid m s, before ++ after_).

(** A row: trimmed safe names, the handle the storage package derives, the first
    generation, and no cursor or one that names the event it was observed with. *)
Record participant_ok (key : string) (s : ParticipantSession) : Prop := mk_participant_ok {
  po_key : key = participant_key (ps_session_id s) (ps_member s);
  po_trimmed : trim_space (ps_session_id s) = ps_session_id s /\ trim_space (ps_member s) = ps_member s;
  po_safe : unsafeParticipantSessionKey (ps_session_id s) = false /\ unsafeParticipantSessionKey (ps_member s) = false;
  po_handle : ps_handle s = persistentParticipantHandle (ps_session_id s) (ps_member s);
  po_generation : ps_generation s = 1;
  po_cursor : ps_last_cursor s = "" \/
              exists offset, ParseCursor (ps_last_cursor s) = Ok (offset, trim_space (ps_last_event_id s)) }.

Definition registry_ok (r : ParticipantSessionRegistry) : Prop := map_Forall participant_ok r.
Definition pending_ok (p : string * string * ParticipantSession) : Prop := participant_ok (participant_key p.1.1 p.1.2) p.2.

Lemma open_session_ok r sid m now clock r1 res :
  registry_ok r -> OpenCouncilSession r sid m now clock = (r1, res) ->
  registry_ok r1 /\ forall s, res = Ok s -> participant_ok (participant_key sid m) s.
Proof.
  intros Hr H. unfold OpenCouncilSession in H. cbv zeta in H. destruct (_ || _) eqn:Hsafe; [by injection H as <- <-|].
  fold (participant_key sid m) in H. destruct (r !! _) as [s|] eqn:Hk.
  - injection H as <- <-. split; [done|]. intros s' [= <-]. by apply Hr.
  - injection H as <- <-. bool_prop.
    assert (Hok : participant_ok (participant_key sid m)
      (mk_participant (trim_space sid) (trim_space m) (DeterministicParticipantSessionHandle (trim_space sid) (trim_space m))
         1 "" "" (time_format (event_time clock now)))).
    { constructor; cbn; unfold participant_key; rewrite ?trim_space_idemp; try done; by left. }
    split; [by apply map_Forall_insert_2 | by intros s [= <-]].
Qed.

Lemma open_sessions_ok r sid ms now clock out : registry_ok r -> registry_ok (fst (open_sessions r sid ms now clock out)).
Proof.
  revert r out. induction ms as [|m ms IH]; intros r out Hr; [done|]. cbn [open_sessions].
  destruct (OpenCouncilSession r sid m now clock) as [r1 res] eqn:E.
  destruct (open_session_ok _ _ _ _ _ _ _ Hr E) as [Hr1 _]. by destruct res; [apply IH|].
Qed.

Lemma observe_begin_ok r sid m cursor event now clock r1 res :
  registry_ok r -> observe_begin r sid m cursor event now clock = (r1, res) ->
  registry_ok r1 /\ forall s, res = Ok s -> participant_ok (participant_key sid m) s.
Proof.
  intros Hr H. unfold observe_begin in H. destruct (ParseCursor cursor) as [[off id]|] eqn:Hp; [|by injection H as <- <-].
  destruct (_ || _) eqn:Hid; [by injection H as <- <-|]. bool_prop.
  destruct (OpenCouncilSession r sid m now clock) as [r' res'] eqn:E.
  destruct (open_session_ok _ _ _ _ _ _ _ Hr E) as [Hr1 Hs]. injection H as <- <-. split; [done|].
  intros s H. apply bind_ok in H as (s' & -> & H). apply bind_ok in H as (u & _ & H). injection H as <-.
  destruct (Hs _ eq_refl) as [Hk Ht Hsf Hh Hg _]. constructor; cbn; try done. right. exists off. by subst id.
Qed.

Lemma registry_step_ok s s' :
  registry_step s s' -> registry_ok s.1 /\ Forall pending_ok s.2 -> registry_ok s'.1 /\ Forall pending_ok s'.2.
Proof.
  intros Hstep [Hr Hp]. destruct Hstep; cbn [fst snd] in *.
  - destruct (OpenCouncilSession r sid m now clock) as [r1 res] eqn:E. split; [by eapply open_session_ok | done].
  - split; [|done]. unfold OpenCouncilSessions. cbv zeta. destruct (_ == _); [done|].
    destruct ms; [done | by apply open_sessions_ok].
  - destruct (observe_begin_ok _ _ _ _ _ _ _ _ _ Hr H) as [? Hs]. split; [done|]. constructor; [by apply Hs | done].
  - split; [by eapply observe_begin_ok | done].
  - apply Forall_app in Hp as [Hb Ha]. inversion Ha; subst. split; [by apply map_Forall_insert_2 | by apply Forall_app].
Qed.

(** C39. The registry keeps its rows well formed whatever callers interleave:
    starting empty, each row is stored under the key of its own trimmed and
    safe names, carries the handle that the storage package writes into the
    evidence of speeches, has generation 1, and its cursor, if any, names the
    event it was observed with. *)
Theorem participant_registry_sound r pending :
  rtc registry_step (∅, []) (r, pending) -> registry_ok r.
Proof.
  intros H. assert (Hinv : forall s s', rtc registry_step s s' ->
    registry_ok s.1 /\ Forall pending_ok s.2 -> registry_ok s'.1 /\ Forall pending_ok s'.2).
  { induction 1 as [|s1 s2 s3 Hstep _ IH]; [done|]. intros Hok. by apply IH, (registry_step_ok _ _ Hstep). }
  apply (Hinv _ _ H). split; [apply map_Forall_empty | constructor].
Qed.

(** An observation that nobody interleaves with moves the cursor forward. *)
Lemma observe_cursor_advances r sid m cursor event now clock r' old :
  ObserveCursor r sid m cursor event now clock = (r', Ok tt) ->
  r !! participant_key sid m = Some old -> ps_last_cursor old <> "" ->
  exists offset previous, ParseCursor cursor = Ok offset /\ ParseCursor (ps_last_cursor old) = Ok previous /\
    previous.1 < offset.1 /\ ps_last_cursor <$> r' !! participant_key sid m = Some cursor.
Proof.
  unfold ObserveCursor, observe_begin. intros H Hold Hne.
  destruct (ParseCursor cursor) as [[off id]|] eqn:Hp; [|done]. destruct (_ || _); [done|].
  unfold OpenCouncilSession in H. cbv zeta in H. destruct (_ || _); [done|]. fold (participant_key sid m) in H.
  rewrite Hold in H. cbn in H. apply String.eqb_neq in Hne. rewrite Hne in H. cbn in H.
  destruct (ParseCursor (ps_last_cursor old)) as [prev|] eqn:Hprev; [|done]. cbn in H.
  destruct (off <=? prev.1) eqn:Hle; [done|]. cbn in H. injection H as <-. bool_prop.
  exists (off, id), prev. unfold observe_commit. by rewrite lookup_insert_eq.
Qed.

(** ** Concrete runs *)

Definition mx_rt : Runtime := mk_runtime "sess_council" "ann" "participant" (NewPolicy ["agenda_locked"]).
Definition mx_store : FileCursorStore := mk_file_store "/home/ann/cursors" ∅.
Definition mx_log : list EventEnvelope := fx_log fx_council_md ++ [fx_cmd].

Definition mx_calm : run_env := mk_env (fun _ => HandlerOk) (fun _ => None) (fun _ => None).

(** The daemon does not answer the acknowledgement of the agenda. *)
Definition mx_no_ack : run_env :=
  mk_env (fun _ => HandlerDurable) (fun f => if ev_type (fr_event f) == "agenda_locked" then Some "timeout" else None)
    (fun _ => None).

(** The cursor file of the last event is cut after 20 bytes. *)
Definition mx_torn : run_env :=
  mk_env (fun _ => HandlerOk) (fun _ => None)
    (fun f => if ev_type (fr_event f) == "agenda_locked" then Some (WriteCut 20) else None).

Definition mx_run (env : run_env) (st : FileCursorStore) : FileCursorStore * list effect * result runtime_error unit :=
  RunOnce mx_rt env (storage_replay mx_log []) st.

Lemma mx_plain : plain_log mx_log.
Proof. split; [vm_compute; done|]. repeat constructor; done. Qed.

Lemma mx_step env st h :
  member_step mx_rt (mx_log, st, h) (mx_log, (mx_run env st).1.1, h ++ (mx_run env st).1.2).
Proof.
  rewrite <- (app_nil_r mx_log) at 2. destruct (mx_run env st) as [[st' effects] r] eqn:E.
  apply (member_runs mx_rt mx_log [] st h env [] st' effects r); [by rewrite app_nil_r; apply mx_plain | constructor | exact E].
Qed.

Definition mx_after_no_ack : FileCursorStore := (mx_run mx_no_ack mx_store).1.1.

(** The agenda was handled in vain once; the next run handles it again. *)
Example mx_handled_twice :
  handled_events (mx_run mx_no_ack mx_store).1.2 = [fx_cmd] /\
  handled_events (mx_run mx_calm mx_after_no_ack).1.2 = [fx_cmd].
Proof. vm_compute. done. Qed.

(** A torn cursor stops the member: the daemon refuses the cursor it reads. *)
Example mx_torn_refused :
  snd (mx_run mx_calm (mx_run mx_torn mx_store).1.1)
  = Err (EStorage (NewValidationError CategoryInvalidEnvelope "cursor" "cursor does not match channel.jsonl")).
Proof. vm_compute. done. Qed.

Lemma member_handles_every_event_witness :
  handled_upto mx_rt mx_log 2 ((mx_run mx_no_ack mx_store).1.2 ++ (mx_run mx_calm mx_after_no_ack).1.2).
Proof.
  apply (member_handles_every_event mx_rt mx_log mx_log mx_store (mx_run mx_calm mx_after_no_ack).1.1 _
           (cursorFor 1 (ev_event_id fx_cmd)) 2).
  - eapply rtc_l; [apply (mx_step mx_no_ack)|]. eapply rtc_l; [apply (mx_step mx_calm)|]. apply rtc_refl.
  - vm_compute. reflexivity.
  - vm_compute. reflexivity.
  - vm_compute. reflexivity.
Defined.

Lemma run_once_catches_up_witness :
  exists st' effects, mx_run mx_calm mx_after_no_ack = (st', effects, Ok tt) /\ handled_events effects = [fx_cmd].
Proof.
  destruct (run_once_catches_up mx_rt mx_calm mx_log [] [] mx_after_no_ack
              (cursorFor 0 (ev_event_id (fx_created fx_council_md))) 1) as (t & st' & effects & since' & Ht & Hr & Hev & _).
  - intros f. done.
  - vm_compute. reflexivity.
  - vm_compute. reflexivity.
  - rewrite app_nil_r. apply mx_plain.
  - constructor.
  - vm_compute. reflexivity.
  - vm_compute. reflexivity.
  - apply prefix_nil_inv in Ht as ->. exists st', effects. split; [exact Hr | rewrite Hev; vm_compute; reflexivity].
Defined.

Lemma participant_registry_sound_witness :
  registry_ok (OpenCouncilSession ∅ "sess_council" "ann" fx_now fx_now).1.
Proof.
  apply (participant_registry_sound _ []). eapply rtc_l; [apply step_open|]. apply rtc_refl.
Defined.

(** Two observations that interleave between their critical sections leave the
    older cursor stored: the second store does not look at the cursor again. *)
Definition mx_registry0 : ParticipantSessionRegistry := (OpenCouncilSession ∅ "sess_council" "ann" fx_now fx_now).1.
Definition mx_observe (n : Z) := observe_begin mx_registry0 "sess_council" "ann" (cursorFor n "evt") "evt" fx_now fx_now.

Example interleaved_observe_regresses :
  exists s5 s3 r, mx_observe 5 = (mx_registry0, Ok s5) /\ mx_observe 3 = (mx_registry0, Ok s3) /\
    rtc registry_step (mx_registry0, []) (r, []) /\
    ps_last_cursor <$> r !! participant_key "sess_council" "ann" = Some (cursorFor 3 "evt").
Proof.
  assert (H5 : exists s, mx_observe 5 = (mx_registry0, Ok s) /\ ps_last_cursor s = cursorFor 5 "evt") by (eexists; vm_compute; done).
  assert (H3 : exists s, mx_observe 3 = (mx_registry0, Ok s) /\ ps_last_cursor s = cursorFor 3 "evt") by (eexists; vm_compute; done).
  destruct H5 as (s5 & H5 & _), H3 as (s3 & H3 & Hc). exists s5, s3. eexists. split; [exact H5|]. split; [exact H3|]. split.
  - eapply rtc_l; [by eapply step_observe|]. eapply rtc_l; [by eapply step_observe|].
    eapply rtc_l; [apply (step_store _ [_])|]. eapply rtc_l; [apply (step_store _ [])|]. apply rtc_refl.
  - unfold observe_commit. by rewrite lookup_insert_eq, <- Hc.
Qed.
