(* ===== verification/Closeout.v ===== *)
(** * Closeout evidence (storage/transcript.go, storage/council.go)

    The surface evidence of a council's end: which delivery status an evidence
    object proves, and the diagnostics a closeout without proof gets. *)

From S2P Require Import Prelude GoValue GoTime Model Ids Evidence Events.

(** ** Evidence pointers (transcript.go) *)

Definition nonblank (s : string) : bool := negb (is_blank s).

Definition evidenceStringPointer (value : any) : bool :=
  match value with
  | AStr s => nonblank s
  | AStrs l => existsb nonblank l
  | AList l => existsb (fun i => match i with AStr s => nonblank s | _ => false end) l
  | _ => false
  end.

Fixpoint isNonEmptyEvidencePointer (value : any) : bool :=
  match value with
  | AStr s => nonblank s
  | AStrs l => existsb nonblank l
  | AList l => existsb isNonEmptyEvidencePointer l
  | AMap m => map_fold (fun _ v acc => isNonEmptyEvidencePointer v || acc) false m
  | _ => false
  end.

Definition hasAnyEvidencePointer (p : payload) (keys : list string) : bool :=
  existsb (fun key =>
    match p !! key with
    | None => false
    | Some value => if key == "evidence" then evidenceStringPointer value else isNonEmptyEvidencePointer value
    end) keys.

(** council.go *)
Definition hasVisibleCloseoutMessagePointer (p : payload) : bool :=
  hasAnyEvidencePointer p ["final_message_id"; "message_id"; "message_ref"].

Definition mustCompactJSON (a : any) : string := json_text a.

Definition map_string (p : payload) (key : string) : string := default "" (stringValue (p !! key)).

(** The delivery status an evidence object proves, and its text. *)
Definition visibleCloseoutSurfaceStatus (value : any) : string * string :=
  match asStringMap value with
  | None => ("missing/unproven", "")
  | Some p =>
      if bool_decide (p = ∅) then ("missing/unproven", "")
      else
        let status := trim_space (map_string p "status") in
        let proven :=
          if status == "posted" then hasVisibleCloseoutMessagePointer p
          else if status == "failed" then hasAnyEvidencePointer p ["failure_reason"; "reason"]
          else if status == "pending_followup" then
            hasAnyEvidencePointer p ["followup_card_id"; "pending_review"; "handoff"; "reason"]
          else false in
        (if proven then status else "missing/unproven", mustCompactJSON (AMap p))
  end.

(** ** Diagnostics (council.go) *)

Definition set_nonblank (key value : string) (row : payload) : payload :=
  if is_blank value then row else <[key := AStr (trim_space value)]> row.

Definition closeoutDiagnostic (code stage reason : string) (memberIDs : list string)
    (expectedThreadID observedThreadID : string) : payload :=
  let row : payload := {[ "code" := AStr code ]} in
  let row := set_nonblank "stage" stage row in
  let row := set_nonblank "reason" reason row in
  let row := match memberIDs with
             | [] => row
             | _ => <["member_ids" := AStrs (sort_strings memberIDs)]> row
             end in
  set_nonblank "observed_thread_id" observedThreadID (set_nonblank "expected_thread_id" expectedThreadID row).

Definition closeoutDiagnosticsError (diagnostics : list payload) : error :=
  NewValidationError CategoryCommandConflict "closeout_diagnostics"
    ("closeout requirements not satisfied: " +:+ mustCompactJSON (AMaps diagnostics)).

Definition any_rows (l : list any) : list payload :=
  omap (fun a => match a with AMap m => Some m | _ => None end) l.

(** [closeoutDiagnosticsFromPayload]; a nil result is the empty list. *)
Definition closeoutDiagnosticsFromPayload (p : payload) : list payload :=
  match p !! "closeout_diagnostics" with
  | Some (AMaps l) => l
  | Some (AList l) => any_rows l
  | _ => []
  end.

(** [Some thread] when the session is bound to a Discord thread. *)
Definition discord_thread (md : SessionMetadata) : option string :=
  match md_surface md with
  | Some s => if su_kind s == "discord_thread" then Some (su_thread_id s) else None
  | None => None
  end.

Definition closeout_statuses : list string := ["posted"; "failed"; "pending_followup"].

Definition validateVisibleCloseoutEvidenceEnvelope (md : SessionMetadata) (p : payload) : result error unit :=
  match discord_thread md, p !! "surface_evidence" with
  | Some _, Some raw =>
      let bad := NewValidationError CategoryInvalidEnvelope "surface_evidence" "surface_evidence must be an object" in
      match asStringMap raw with
      | None => Err bad
      | Some ev =>
          reject bool_decide (ev = ∅) with bad;;
          let status := trim_space (anyString ev ["status"]) in
          reject status == "" with
            NewValidationError CategoryInvalidEnvelope "surface_evidence.status"
              "surface_evidence.status is required and must be one of posted, failed, pending_followup";;
          ensure mem_str status closeout_statuses or
            NewValidationError CategoryInvalidEnvelope "surface_evidence.status"
              "surface_evidence.status must be one of posted, failed, pending_followup";;
          Ok tt
      end
  | _, _ => Ok tt
  end.

Definition status_diagnostics (ev : payload) (stage expected observed : string) : list payload :=
  let diag code reason := closeoutDiagnostic code stage reason [] expected observed in
  let status := fst (visibleCloseoutSurfaceStatus (AMap ev)) in
  if (trim_space (anyString ev ["status"]) == "posted") && negb (hasVisibleCloseoutMessagePointer ev) then
    [diag "missing_final_message_id"
       "surface_evidence.final_message_id or accepted visible message equivalent is required for posted visible closeout proof"]
  else if status == "posted" then []
  else if status == "failed" then
    [diag "visible_closeout_failed"
       (firstNonEmptyString [trim_space (anyString ev ["failure_reason"; "reason"]); "visible closeout delivery failed"])]
  else if status == "pending_followup" then
    [diag "visible_closeout_pending_followup"
       (firstNonEmptyString [trim_space (anyString ev ["reason"]); trim_space (anyString ev ["followup_card_id"]);
                             "visible closeout delivery is pending follow-up"])]
  else [diag "missing_visible_closeout_proof" "visible closeout evidence is missing or unproven"].

Definition thread_diagnostics (stage expected observed : string) : list payload :=
  if expected == "" then []
  else if observed == "" then
    [closeoutDiagnostic "missing_thread_binding" stage
       "surface_evidence.thread_id is required for exact-thread proof" [] expected observed]
  else if observed != expected then
    [closeoutDiagnostic "exact_thread_mismatch" stage
       "visible closeout thread does not match the configured council thread" [] expected observed]
  else [].

Definition visibleCloseoutDiagnostics (md : SessionMetadata) (p : payload) (stage : string) : list payload :=
  match discord_thread md with
  | None => []
  | Some thread =>
      let expected := trim_space thread in
      match anyMap p ["surface_evidence"] with
      | None => [closeoutDiagnostic "missing_visible_closeout_proof" stage "surface_evidence is missing" [] expected ""]
      | Some ev =>
          let observed := trim_space (anyString ev ["thread_id"]) in
          status_diagnostics ev stage expected observed ++ thread_diagnostics stage expected observed
      end
  end.

(** transcript.go [closeoutProjectionStatus]: recorded diagnostics override the
    status the evidence proves. *)
Definition override_status (status : string) (diagnostic : payload) : string :=
  let code := anyString diagnostic ["code"] in
  if code == "visible_closeout_failed" then "failed"
  else if code == "visible_closeout_pending_followup" then
    if status != "failed" then "pending_followup" else status
  else if mem_str code ["missing_visible_closeout_proof"; "missing_thread_binding"; "exact_thread_mismatch"] then
    if (status != "failed") && (status != "pending_followup") then "missing/unproven" else status
  else status.

Definition closeoutProjectionStatus (p : payload) (status evidence : string) : string * string :=
  match closeoutDiagnosticsFromPayload p with
  | [] => (status, evidence)
  | diagnostics =>
      let json := mustCompactJSON (AMaps diagnostics) in
      (foldl override_status status diagnostics,
       if is_blank evidence then json else evidence +:+ " diagnostics=" +:+ json)
  end.

Definition terminalVisibleCloseoutProofStatus (eventType : string) (p : option payload) : string * string :=
  if eventType == "" then ("not_terminal", "")
  else
    match p with
    | None => ("missing", "surface_evidence missing")
    | Some p =>
        match p !! "surface_evidence" with
        | None => ("missing", "surface_evidence missing")
        | Some value =>
            let '(s0, e0) := visibleCloseoutSurfaceStatus value in
            let '(status, evidence) := closeoutProjectionStatus p s0 e0 in
            if mem_str status closeout_statuses then (status, evidence)
            else if status == "missing/unproven" then
              ("unproven", if is_blank evidence then "surface_evidence unproven" else evidence)
            else ("unproven", if is_blank evidence then "surface_evidence unsupported" else evidence)
        end
    end.
