(* ===== verification/Lifecycle.v ===== *)
(** * The council discussion lifecycle (storage/council_discussion_lifecycle.go)

    A council configured with [max_discussion_turns] owes a moderator opening,
    one granted speech per discussion turn, one closeout speech per member and a
    terminal synthesis; the lifecycle is the account of that debt, recomputed
    from the log. *)

From S2P Require Import Prelude GoValue GoTime Model Ids Evidence Events Closeout.

(** ** The account *)

(** One pass over the log keeps what the source's locals hold.  The members and
    turns seen are kept as lists without duplicates. *)
Record pass := mk_pass {
  pa_granted : list (string * Z); pa_discussion : list Z; pa_closeouts : list string;
  pa_next_closeout : Z; pa_opening : option (string * Z);
  pa_stages : gmap string string; pa_indexes : gmap string Z;
  pa_terminal : option (string * string * option payload) }.

Definition eventTurn (e : EventEnvelope) : Z :=
  match ev_turn e with
  | Some t => if 0 <? t then t else anyInt (pl e) "turn"
  | None => anyInt (pl e) "turn"
  end.

(** The key text of [discussionLifecycleGrantKey]. *)
Definition discussionLifecycleGrantKey (member : string) (turn : Z) : string * Z := (trim_space member, turn).

Definition granted (p : pass) (member : string) (turn : Z) : bool :=
  bool_decide (discussionLifecycleGrantKey member turn ∈ pa_granted p).

Definition selected_member (e : EventEnvelope) : string :=
  let member := trim_space (payloadStringDefault (pl e) "member" "") in
  match ev_to e with
  | [t] => if member == "" then trim_space t else member
  | _ => member
  end.

Definition on_selected (p : pass) (e : EventEnvelope) : pass :=
  let turn := eventTurn e in
  let member := selected_member e in
  if (0 <? turn) && (member != "") then
    mk_pass (discussionLifecycleGrantKey member turn :: pa_granted p) (pa_discussion p) (pa_closeouts p)
      (pa_next_closeout p) (pa_opening p) (pa_stages p) (pa_indexes p) (pa_terminal p)
  else p.

Definition on_opening (md : SessionMetadata) (p : pass) (e : EventEnvelope) : pass :=
  let unset := match pa_opening p with Some (id, _) => id == "" | None => true end in
  if unset && (ev_from e == md_moderator md) then
    mk_pass (pa_granted p) (pa_discussion p) (pa_closeouts p) (pa_next_closeout p)
      (Some (ev_event_id e, eventTurn e)) (pa_stages p) (pa_indexes p) (pa_terminal p)
  else p.

Definition on_speech (md : SessionMetadata) (max : Z) (p : pass) (e : EventEnvelope) : pass :=
  let turn := eventTurn e in
  let member := trim_space (ev_from e) in
  if (turn <=? 0) || negb (councilMember md member) || negb (granted p member turn) then p
  else if turn <=? max then
    mk_pass (pa_granted p)
      (if bool_decide (turn ∈ pa_discussion p) then pa_discussion p else turn :: pa_discussion p)
      (pa_closeouts p) (pa_next_closeout p) (pa_opening p)
      (<[ev_event_id e := "discussion"]> (pa_stages p)) (<[ev_event_id e := wrap64 (turn + 1)]> (pa_indexes p))
      (pa_terminal p)
  else if mem_str member (pa_closeouts p) then p
  else
    mk_pass (pa_granted p) (pa_discussion p) (member :: pa_closeouts p) (wrap64 (pa_next_closeout p + 1))
      (pa_opening p) (<[ev_event_id e := "closeout"]> (pa_stages p))
      (<[ev_event_id e := pa_next_closeout p]> (pa_indexes p)) (pa_terminal p).

Definition on_terminal (p : pass) (e : EventEnvelope) : pass :=
  mk_pass (pa_granted p) (pa_discussion p) (pa_closeouts p) (pa_next_closeout p) (pa_opening p)
    (pa_stages p) (pa_indexes p) (Some (ev_event_id e, ev_type e, ev_payload e)).

Definition pass_step (md : SessionMetadata) (max : Z) (p : pass) (e : EventEnvelope) : pass :=
  if ev_type e == "speaker_selected" then on_selected p e
  else if ev_type e == "hand_raise_requested" then on_opening md p e
  else if ev_type e == "speech" then on_speech md max p e
  else if mem_str (ev_type e) ["council_finalized"; "council_unresolved"] then on_terminal p e
  else p.

Definition first_pass (max : Z) : pass :=
  mk_pass [] [] [] (wrap64 (max + 2)) None ∅ ∅ None.

Definition run_pass (md : SessionMetadata) (max : Z) (evs : list EventEnvelope) : pass :=
  foldl (pass_step md max) (first_pass max) evs.

(** ** The lifecycle *)

Record CouncilDiscussionLifecycle := mk_lifecycle {
  lc_configured : bool; lc_max_discussion_turns : Z; lc_legacy_max_turns : Z; lc_participant_count : Z;
  lc_expected_visible_turns : Z; lc_synthesis_turn : Z;
  lc_opening_event : string; lc_opening_turn : Z;
  lc_discussion_present : list Z; lc_discussion_missing : list Z;
  lc_closeout_present : list string; lc_closeout_missing : list string;
  lc_terminal_event : string; lc_terminal_type : string; lc_terminal_payload : option payload;
  lc_stages : gmap string string; lc_indexes : gmap string Z }.

Definition lc_discussion_complete (l : CouncilDiscussionLifecycle) : bool :=
  lc_configured l && (len_z (lc_discussion_missing l) =? 0).
Definition lc_closeouts_complete (l : CouncilDiscussionLifecycle) : bool :=
  lc_configured l && (len_z (lc_closeout_missing l) =? 0).
Definition lc_opening_present (l : CouncilDiscussionLifecycle) : bool := lc_opening_event l != "".

(** The turns 1 to [max], as the [for] loop counts them. *)
Definition turns_upto (max : Z) : list Z := map Z.of_nat (seq 1 (Z.to_nat max)).

Definition councilDiscussionLifecycle (md : SessionMetadata) (ix : LogIndex) : CouncilDiscussionLifecycle :=
  let count := len_z (councilMembers md) in
  let max := li_max_discussion_turns (md_limits md) in
  let legacy := li_max_turns (md_limits md) in
  if max <=? 0 then
    mk_lifecycle false 0 legacy count 0 0 "" 0 [] [] [] [] "" "" None ∅ ∅
  else
    let p := run_pass md max (ix_events ix) in
    let present t := bool_decide (t ∈ pa_discussion p) in
    let closed m := mem_str m (pa_closeouts p) in
    let opening := default ("", 0) (pa_opening p) in
    let '(tid, tty, tp) := default ("", "", None) (pa_terminal p) in
    mk_lifecycle true max legacy count (wrap64 (max + count + 2)) (wrap64 (max + count + 1))
      opening.1 opening.2
      (List.filter present (turns_upto max)) (List.filter (fun t => negb (present t)) (turns_upto max))
      (sort_strings (List.filter closed (councilMembers md)))
      (sort_strings (List.filter (fun m => negb (closed m)) (councilMembers md)))
      tid tty tp (pa_stages p) (pa_indexes p).

Definition terminalSynthesisSummaryPresent (eventType : string) (p : option payload) : bool :=
  let text key := nonblank (payloadStringDefault (default ∅ p) key "") in
  if eventType == "council_finalized" then text "final_summary"
  else if eventType == "council_unresolved" then text "reason"
  else false.

Definition lifecycleTerminalSynthesisPresent (l : CouncilDiscussionLifecycle) : bool :=
  if (lc_terminal_event l == "") || negb (lc_configured l) then false
  else if negb (lc_opening_present l) || negb (lc_discussion_complete l) || negb (lc_closeouts_complete l) then false
  else terminalSynthesisSummaryPresent (lc_terminal_type l) (lc_terminal_payload l).

Definition lc_proof_status (l : CouncilDiscussionLifecycle) : string :=
  fst (terminalVisibleCloseoutProofStatus (lc_terminal_type l) (lc_terminal_payload l)).

Definition terminalLifecyclePhase (eventType proofStatus : string) : string :=
  if eventType == "council_unresolved" then "terminal_unresolved"
  else if eventType == "council_finalized" then
    if proofStatus == "posted" then "finalized"
    else if proofStatus == "failed" then "terminal_blocked_visible_proof_failed"
    else if proofStatus == "pending_followup" then "terminal_pending_visible_proof_followup"
    else if proofStatus == "unproven" then "terminal_blocked_visible_proof_unproven"
    else "terminal_blocked_missing_visible_proof"
  else "not_terminal".

Definition lifecycleCompletionVerdict (l : CouncilDiscussionLifecycle) : string :=
  if negb (lc_configured l) then "not_configured"
  else if negb (lc_opening_present l) then "opening_missing"
  else if negb (lc_discussion_complete l) then "discussion_pending"
  else if negb (lc_closeouts_complete l) then "discussion_complete_closeout_pending"
  else if negb (lifecycleTerminalSynthesisPresent l) then
    "participant_closeouts_complete_moderator_synthesis_pending"
  else if lc_terminal_type l == "council_unresolved" then "terminal_unresolved"
  else if lc_terminal_type l == "council_finalized" then
    let proof := lc_proof_status l in
    if proof == "posted" then "finalized"
    else if proof == "failed" then "terminal_visible_closeout_proof_failed"
    else if proof == "pending_followup" then "terminal_visible_closeout_proof_pending_followup"
    else if proof == "unproven" then "terminal_visible_closeout_proof_unproven"
    else "terminal_visible_closeout_proof_missing"
  else "participant_closeouts_complete_moderator_synthesis_pending".

Definition lc_propose_ready (l : CouncilDiscussionLifecycle) : bool :=
  (lc_opening_event l != "") && (len_z (lc_discussion_missing l) =? 0) && (len_z (lc_closeout_missing l) =? 0).

Definition lc_blocking_reasons (l : CouncilDiscussionLifecycle) : list string :=
  (if lc_opening_event l == "" then ["missing_moderator_opening"] else []) ++
  map (fun t => "missing_discussion_turn_" +:+ itoa t) (lc_discussion_missing l) ++
  map (fun m => "missing_closeout_" +:+ m) (lc_closeout_missing l) ++
  (if (lc_terminal_type l == "council_finalized") && (lc_proof_status l != "posted")
   then ["terminal_visible_closeout_proof_" +:+ lc_proof_status l] else []).

Definition validateDiscussionLifecycleLimits (l : Limits) : result error unit :=
  reject li_max_discussion_turns l <? 0 with
    NewValidationError CategoryInvalidEnvelope "limits.max_discussion_turns"
      "max_discussion_turns must be positive when configured";;
  Ok tt.

Definition validateCouncilProposeLifecycle (md : SessionMetadata) (ix : LogIndex) : result error unit :=
  let l := councilDiscussionLifecycle md ix in
  if negb (lc_configured l) || lc_propose_ready l then Ok tt
  else Err (NewValidationError CategoryCommandConflict "discussion_lifecycle"
              ("council.propose requires discussion window and participant closeouts: " +:+
               join "," (lc_blocking_reasons l))).

(** ** Closeout diagnostics of the lifecycle (council.go) *)

Definition lifecycleCloseoutDiagnostics (md : SessionMetadata) (ix : LogIndex) (stage : string) : list payload :=
  let l := councilDiscussionLifecycle md ix in
  if negb (lc_configured l) then []
  else
    (if lc_opening_event l == "" then
       [closeoutDiagnostic "missing_moderator_opening" stage "moderator opening event is missing" [] "" ""] else []) ++
    map (fun t => closeoutDiagnostic "missing_discussion_turn" stage ("turn=" +:+ itoa t) [] "" "")
      (lc_discussion_missing l) ++
    match lc_closeout_missing l with
    | [] => []
    | missing => [closeoutDiagnostic "missing_participant_closeout" stage
                    "selected participant closeout speech is missing" missing "" ""]
    end.

Definition unresolvedCloseoutDiagnostics (md : SessionMetadata) (ix : LogIndex) (p : payload) : list payload :=
  lifecycleCloseoutDiagnostics md ix "unresolved" ++
  [closeoutDiagnostic "missing_moderator_synthesis" "unresolved"
     "final_summary was not recorded before unresolved closeout" [] "" ""] ++
  visibleCloseoutDiagnostics md p "unresolved".

Definition latestTerminalCouncilEvent (ix : LogIndex) : option EventEnvelope :=
  find_last (fun e => mem_str (ev_type e) ["council_finalized"; "council_unresolved"]) (ix_events ix).

Definition closeoutDiagnosticsForStatus (md : SessionMetadata) (ix : LogIndex) : list payload :=
  match latestTerminalCouncilEvent ix with
  | Some e =>
      match closeoutDiagnosticsFromPayload (pl e) with
      | [] => lifecycleCloseoutDiagnostics md ix "pre_finalization"
      | diagnostics => diagnostics
      end
  | None => lifecycleCloseoutDiagnostics md ix "pre_finalization"
  end.
