(* ===== verification/LifecycleTheory.v ===== *)
(** * Correctness of the discussion lifecycle

    The one-pass account of the log agrees with the declarative reading: the
    moderator opened the discussion, every turn has a granted speech, every
    member gave a granted closeout speech; and the visible indexes it assigns
    stay within the announced total. *)

From S2P Require Import Prelude GoValue GoTime Model Ids Evidence Events EventLog Fixtures Closeout Lifecycle.

(** ** The declarative account *)

(** A grant of the turn to the member. *)
Definition grants_turn (member : string) (turn : Z) (g : EventEnvelope) : Prop :=
  ev_type g = "speaker_selected" /\ selected_member g = member /\ member <> "" /\ eventTurn g = turn /\ 0 < turn.

(** A speech of a council member in a turn it was granted before speaking. *)
Definition granted_speech (md : SessionMetadata) (l : list EventEnvelope) (member : string) (turn : Z) : Prop :=
  exists l1 e l2, l = l1 ++ e :: l2 /\ ev_type e = "speech" /\ trim_space (ev_from e) = member /\
    councilMember md member = true /\ eventTurn e = turn /\ exists g, g ∈ l1 /\ grants_turn member turn g.

Definition opens (md : SessionMetadata) (e : EventEnvelope) : Prop :=
  ev_type e = "hand_raise_requested" /\ ev_from e = md_moderator md /\ ev_event_id e <> "".

(** ** The pass computes it *)

Lemma run_pass_snoc md max l e : run_pass md max (l ++ [e]) = pass_step md max (run_pass md max l) e.
Proof. unfold run_pass. by rewrite foldl_app. Qed.

Lemma selected_member_trim e : trim_space (selected_member e) = selected_member e.
Proof.
  unfold selected_member. destruct (ev_to e) as [|t [|]]; try apply trim_space_idemp.
  destruct (_ == ""); apply trim_space_idemp.
Qed.

(** How one event changes each part of the account. *)
Lemma pass_step_granted md max p e key :
  key ∈ pa_granted (pass_step md max p e) <->
  key ∈ pa_granted p \/ grants_turn key.1 key.2 e.
Proof.
  unfold pass_step, grants_turn. destruct key as [m t]. cbn [fst snd].
  destruct (String.eqb_spec (ev_type e) "speaker_selected") as [Ht|Ht].
  - unfold on_selected. cbv zeta. destruct (_ && _) eqn:Hc; simpl.
    + bool_prop. rewrite elem_of_cons. unfold discussionLifecycleGrantKey. rewrite selected_member_trim.
      split; [intros [[= -> ->]|?]; [right; done | by left]|].
      intros [?|(_ & <- & _ & <- & _)]; [by right | by left].
    + split; [by left|]. intros [?|(_ & <- & Hne & <- & Hpos)]; [done|]. exfalso.
      apply Z.ltb_lt in Hpos. rewrite Hpos in Hc. simpl in Hc. by bool_prop.
  - assert (H : forall q, pa_granted q = pa_granted p -> (m, t) ∈ pa_granted q <->
       (m, t) ∈ pa_granted p \/ (ev_type e = "speaker_selected" /\ selected_member e = m /\ m <> "" /\ eventTurn e = t /\ 0 < t)).
    { intros q ->. split; [by left|]. by intros [?|[? _]]. }
    destruct (_ == "hand_raise_requested"); [|destruct (_ == "speech"); [|destruct (mem_str _ _); by apply H]].
    + apply H. unfold on_opening. cbv zeta. by destruct (_ && _).
    + apply H. unfold on_speech. cbv zeta. destruct (_ || _); [done|]. destruct (_ <=? _); [done|]. by destruct (mem_str _ _).
Qed.

Lemma run_pass_granted md max l m t :
  (m, t) ∈ pa_granted (run_pass md max l) <-> exists g, g ∈ l /\ grants_turn m t g.
Proof.
  induction l as [|e l IH] using rev_ind.
  - simpl. split; [intros H; by apply elem_of_nil in H | intros (g & H & _); by apply elem_of_nil in H].
  - rewrite run_pass_snoc, pass_step_granted, IH. simpl. split.
    + intros [(g & Hg & Hp)|Hp]; [exists g; set_solver | exists e; set_solver].
    + intros (g & [Hg|Hg%list_elem_of_singleton]%elem_of_app & Hp); [left; by exists g | right; by subst].
Qed.

(** The speech that an event adds to the account, if any. *)
Definition speech_here (md : SessionMetadata) (p : pass) (e : EventEnvelope) (m : string) (t : Z) : Prop :=
  ev_type e = "speech" /\ trim_space (ev_from e) = m /\ councilMember md m = true /\ eventTurn e = t /\ 0 < t /\
  (m, t) ∈ pa_granted p.

Lemma granted_speech_snoc md max l e m t :
  granted_speech md (l ++ [e]) m t <-> granted_speech md l m t \/ speech_here md (run_pass md max l) e m t.
Proof.
  unfold granted_speech, speech_here. rewrite run_pass_granted. split.
  - intros (l1 & x & l2 & Hl & Ht & Hf & Hc & Hturn & g & Hg & Hgr).
    destruct l2 as [|y l2 _] using rev_ind.
    + apply app_inj_tail in Hl as [<- <-]. right. repeat split; try done; [apply Hgr | by exists g].
    + left. rewrite app_comm_cons, app_assoc in Hl. apply app_inj_tail in Hl as [-> ->].
      exists l1, x, l2. repeat split; try done. by exists g.
  - intros [(l1 & x & l2 & -> & Ht & Hf & Hc & Hturn & g & Hg & Hgr)|(Ht & Hf & Hc & Hturn & _ & g & Hg & Hgr)].
    + exists l1, x, (l2 ++ [e]). split; [by rewrite <- app_assoc|]. repeat split; try done. by exists g.
    + exists l, e, []. repeat split; try done. by exists g.
Qed.

Lemma granted_key md p e : 
  (eventTurn e <=? 0) || negb (councilMember md (trim_space (ev_from e))) || negb (granted p (trim_space (ev_from e)) (eventTurn e)) = false <->
  0 < eventTurn e /\ councilMember md (trim_space (ev_from e)) = true /\ (trim_space (ev_from e), eventTurn e) ∈ pa_granted p.
Proof.
  unfold granted, discussionLifecycleGrantKey. rewrite trim_space_idemp, !orb_false_iff, !negb_false_iff, bool_decide_eq_true, Z.leb_gt.
  tauto.
Qed.

Lemma pass_step_discussion md max p e t :
  t ∈ pa_discussion (pass_step md max p e) <->
  t ∈ pa_discussion p \/ (t <= max /\ exists m, speech_here md p e m t).
Proof.
  unfold pass_step, speech_here.
  destruct (String.eqb_spec (ev_type e) "speech") as [Ht|Ht].
  - rewrite Ht. simpl. change ("speech" == "speaker_selected") with false. change ("speech" == "hand_raise_requested") with false.
    cbv iota. unfold on_speech. cbv zeta. pose proof (granted_key md p e) as Hk.
    destruct (_ || _).
    { split; [by left|]. intros [?|(_ & m & _ & <- & Hc & <- & Hp & Hg)]; [done|].
      destruct Hk as [_ Hk]. specialize (Hk (conj Hp (conj Hc Hg))). done. }
    destruct (proj1 Hk eq_refl) as (Hp & Hc & Hg).
    destruct (Z.leb_spec (eventTurn e) max) as [Hle|Hgt]; simpl.
    + assert (Hin : t ∈ (if bool_decide (eventTurn e ∈ pa_discussion p) then pa_discussion p
                         else eventTurn e :: pa_discussion p) <-> t = eventTurn e \/ t ∈ pa_discussion p).
      { case_bool_decide as Hb; [|by rewrite elem_of_cons]. split; [by right|]. by intros [->|?]. }
      rewrite Hin. split.
      * intros [->|?]; [|by left]. right. split; [done|]. by eexists.
      * intros [?|(_ & m & _ & _ & _ & <- & _)]; [by right | by left].
    + assert (Hsame : pa_discussion (if mem_str (trim_space (ev_from e)) (pa_closeouts p) then p
         else mk_pass (pa_granted p) (pa_discussion p) (trim_space (ev_from e) :: pa_closeouts p) (wrap64 (pa_next_closeout p + 1))
      (pa_opening p) (<[ev_event_id e := "closeout"]> (pa_stages p))
      (<[ev_event_id e := pa_next_closeout p]> (pa_indexes p)) (pa_terminal p)) = pa_discussion p) by by destruct (mem_str _ _).
      rewrite Hsame. split; [by left|]. intros [?|(Hle & m & _ & _ & _ & Heq & _)]; [done | lia].
  - assert (H : forall q, pa_discussion q = pa_discussion p -> t ∈ pa_discussion q <-> t ∈ pa_discussion p \/
      (t <= max /\ exists m, ev_type e = "speech" /\ trim_space (ev_from e) = m /\ councilMember md m = true /\
        eventTurn e = t /\ 0 < t /\ (m, t) ∈ pa_granted p)).
    { intros q ->. split; [by left|]. by intros [?|(_ & m & ? & _)]. }
    destruct (_ == "speaker_selected"); [|destruct (_ == "hand_raise_requested"); [|destruct (mem_str _ _); by apply H]].
    + apply H. unfold on_selected. cbv zeta. by destruct (_ && _).
    + apply H. unfold on_opening. cbv zeta. by destruct (_ && _).
Qed.

(** What a speech does to the account, when it counts at all. *)
Lemma pass_step_speech md max p e :
  ev_type e = "speech" ->
  let m := trim_space (ev_from e) in
  let t := eventTurn e in
  pass_step md max p e = p /\ ~ speech_here md p e m t \/
  speech_here md p e m t /\
  (t <= max /\ pa_closeouts (pass_step md max p e) = pa_closeouts p \/
   max < t /\ pa_closeouts (pass_step md max p e) = (if mem_str m (pa_closeouts p) then pa_closeouts p else m :: pa_closeouts p)).
Proof.
  intros Ht m t. unfold pass_step, speech_here. rewrite Ht.
  change ("speech" == "speaker_selected") with false. change ("speech" == "hand_raise_requested") with false.
  change ("speech" == "speech") with true. cbv iota. unfold on_speech. cbv zeta. fold m t.
  pose proof (granted_key md p e) as Hk. fold m t in Hk. destruct (_ || _).
  - left. split; [done|]. intros (_ & _ & Hc & _ & Hp & Hg). destruct Hk as [_ Hk].
    specialize (Hk (conj Hp (conj Hc Hg))). done.
  - right. destruct (proj1 Hk eq_refl) as (Hp & Hc & Hg). split; [done|].
    destruct (Z.leb_spec t max); [by left|]. right. split; [done|]. by destruct (mem_str _ _).
Qed.

Lemma pass_step_closeouts_other md max p e :
  ev_type e <> "speech" -> pa_closeouts (pass_step md max p e) = pa_closeouts p.
Proof.
  intros Ht%String.eqb_neq. unfold pass_step. rewrite Ht.
  destruct (_ == "speaker_selected"); [|destruct (_ == "hand_raise_requested"); [|by destruct (mem_str _ _)]].
  - unfold on_selected. cbv zeta. by destruct (_ && _).
  - unfold on_opening. cbv zeta. by destruct (_ && _).
Qed.

Lemma pass_step_closeouts md max p e m :
  m ∈ pa_closeouts (pass_step md max p e) <->
  m ∈ pa_closeouts p \/ (exists t, max < t /\ speech_here md p e m t).
Proof.
  destruct (String.eqb_spec (ev_type e) "speech") as [Ht|Ht].
  - destruct (pass_step_speech md max p e Ht) as [[-> Hno]|[Hsp Hcase]].
    + split; [by left|]. intros [?|(t & _ & Hsp)]; [done|]. exfalso. apply Hno.
      destruct Hsp as (? & <- & ? & <- & ? & ?). by repeat split.
    + set (m0 := trim_space (ev_from e)) in *. set (t0 := eventTurn e) in *.
      assert (Heq : forall m t, speech_here md p e m t -> m = m0 /\ t = t0)
        by (intros m1 t1 (_ & <- & _ & <- & _); done).
      destruct Hcase as [[Hle ->]|[Hgt ->]].
      * split; [by left|]. intros [?|(t & Hgt & H)]; [done|]. apply Heq in H as [-> ->]. lia.
      * assert (Hin : m ∈ (if mem_str m0 (pa_closeouts p) then pa_closeouts p else m0 :: pa_closeouts p) <->
                      m = m0 \/ m ∈ pa_closeouts p).
        { destruct (mem_str m0 (pa_closeouts p)) eqn:Hm; [|by rewrite elem_of_cons].
          apply mem_str_spec in Hm. split; [by right|]. by intros [->|?]. }
        rewrite Hin. split; [intros [->|?]; [right; by exists t0 | by left]|].
        intros [?|(t & _ & H)]; [by right|]. left. by apply Heq in H as [-> _].
  - rewrite pass_step_closeouts_other by done. split; [by left|]. by intros [?|(t & _ & ? & _)].
Qed.

Lemma run_pass_discussion md max l t :
  t ∈ pa_discussion (run_pass md max l) <-> t <= max /\ exists m, granted_speech md l m t.
Proof.
  induction l as [|e l IH] using rev_ind.
  - simpl. split; [intros H; by apply elem_of_nil in H | intros (_ & m & l1 & e & l2 & H & _); by destruct l1].
  - rewrite run_pass_snoc, pass_step_discussion, IH.
    setoid_rewrite (granted_speech_snoc md max). split.
    + intros [[Hle (m & H)]|[Hle (m & H)]]; (split; [done|]); exists m; auto.
    + intros [Hle (m & [H|H])]; [left | right]; (split; [done|]); by exists m.
Qed.

Lemma run_pass_closeouts md max l m :
  m ∈ pa_closeouts (run_pass md max l) <-> exists t, max < t /\ granted_speech md l m t.
Proof.
  induction l as [|e l IH] using rev_ind.
  - simpl. split; [intros H; by apply elem_of_nil in H | intros (t & _ & l1 & e & l2 & H & _); by destruct l1].
  - rewrite run_pass_snoc, pass_step_closeouts, IH.
    setoid_rewrite (granted_speech_snoc md max). split.
    + intros [(t & Hgt & H)|(t & Hgt & H)]; exists t; auto.
    + intros (t & Hgt & [H|H]); [left | right]; by exists t.
Qed.

Definition opening_id (p : pass) : string := (default ("", 0) (pa_opening p)).1.

Lemma pass_step_opening_other md max p e :
  ev_type e <> "hand_raise_requested" -> pa_opening (pass_step md max p e) = pa_opening p.
Proof.
  intros Ht%String.eqb_neq. unfold pass_step. rewrite Ht.
  destruct (_ == "speaker_selected"); [|destruct (_ == "speech"); [|by destruct (mem_str _ _)]].
  - unfold on_selected. cbv zeta. by destruct (_ && _).
  - unfold on_speech. cbv zeta. destruct (_ || _); [done|]. destruct (_ <=? _); [done|]. by destruct (mem_str _ _).
Qed.

Lemma run_pass_opening md max l :
  opening_id (run_pass md max l) <> "" <-> exists e, e ∈ l /\ opens md e.
Proof.
  induction l as [|e l IH] using rev_ind.
  - simpl. split; [done | intros (e & H & _); by apply elem_of_nil in H].
  - rewrite run_pass_snoc. unfold opens in *.
    assert (Hsplit : (exists x, x ∈ l ++ [e] /\ ev_type x = "hand_raise_requested" /\ ev_from x = md_moderator md /\ ev_event_id x <> "") <->
      (exists x, x ∈ l /\ ev_type x = "hand_raise_requested" /\ ev_from x = md_moderator md /\ ev_event_id x <> "") \/
      (ev_type e = "hand_raise_requested" /\ ev_from e = md_moderator md /\ ev_event_id e <> "")).
    { split.
      - intros (x & [Hx|Hx%list_elem_of_singleton]%elem_of_app & H); [left; by exists x | right; by subst].
      - intros [(x & Hx & H)|H]; [exists x | exists e]; (split; [set_solver | done]). }
    rewrite Hsplit, <- IH. clear IH Hsplit. set (p := run_pass md max l).
    destruct (String.eqb_spec (ev_type e) "hand_raise_requested") as [Ht|Ht].
    + unfold pass_step. rewrite Ht. change ("hand_raise_requested" == "speaker_selected") with false.
      change ("hand_raise_requested" == "hand_raise_requested") with true. cbv iota.
      unfold on_opening, opening_id. cbv zeta.
      destruct (pa_opening p) as [[id t]|] eqn:Ho; simpl.
      * destruct (String.eqb_spec id "") as [->|Hid]; simpl; [|by rewrite Ho; simpl; split; [left|]].
        destruct (String.eqb_spec (ev_from e) (md_moderator md)); simpl; [tauto|]. rewrite Ho. simpl. tauto.
      * destruct (String.eqb_spec (ev_from e) (md_moderator md)); simpl; [tauto|]. rewrite Ho. simpl. tauto.
    + unfold opening_id. rewrite pass_step_opening_other by done. tauto.
Qed.

(** ** The lifecycle *)

Lemma turns_upto_spec max t : t ∈ turns_upto max <-> 1 <= t <= max.
Proof.
  unfold turns_upto. rewrite list_elem_of_In, in_map_iff. split.
  - intros (n & <- & Hn%in_seq). lia.
  - intros H. exists (Z.to_nat t). split; [lia|]. apply in_seq. lia.
Qed.

Lemma missing_nil {A} (p : A -> bool) l : (len_z (List.filter (fun x => negb (p x)) l) =? 0) = true <-> forall x, x ∈ l -> p x = true.
Proof.
  rewrite Z.eqb_eq. unfold len_z. split.
  - intros H x Hx. destruct (p x) eqn:Hp; [done|]. exfalso.
    assert (Hin : In x (List.filter (fun x => negb (p x)) l)) by (apply filter_In; rewrite Hp; split; [by apply list_elem_of_In | done]).
    destruct (List.filter _ l); [done|]. simpl in H. lia.
  - intros H. induction l as [|x l IH]; [done|]. simpl. rewrite (H x) by set_solver. simpl. apply IH. set_solver.
Qed.

(** When a council may propose: a configured discussion is ready exactly
    when the moderator opened it, every discussion turn has a speech granted
    beforehand to its speaker, and every council member spoke, granted, in some
    later turn. *)
Theorem propose_ready_spec md ix :
  0 < li_max_discussion_turns (md_limits md) ->
  let max := li_max_discussion_turns (md_limits md) in
  lc_propose_ready (councilDiscussionLifecycle md ix) = true <->
  (exists e, e ∈ ix_events ix /\ opens md e) /\
  (forall t, 1 <= t <= max -> exists m, granted_speech md (ix_events ix) m t) /\
  (forall m, councilMember md m = true -> exists t, max < t /\ granted_speech md (ix_events ix) m t).
Proof.
  intros Hmax max. unfold councilDiscussionLifecycle. cbv zeta. fold max.
  replace (max <=? 0) with false by lia. set (p := run_pass md max (ix_events ix)).
  destruct (default ("", "", None) (pa_terminal p)) as [[tid tty] tp].
  unfold lc_propose_ready. cbn [lc_opening_event lc_discussion_missing lc_closeout_missing]. rewrite !andb_true_iff.
  fold (opening_id p). rewrite negb_true_iff, String.eqb_neq. subst p. rewrite run_pass_opening, missing_nil.
  assert (Hlen : forall l : list string, len_z (sort_strings l) = len_z l)
    by (intros l; unfold len_z; by rewrite (Permutation_length (sort_strings_perm l))).
  rewrite Hlen, missing_nil. setoid_rewrite turns_upto_spec. split.
  - intros [[Ho Hd] Hc]. split; [done|]. split.
    + intros t Ht. specialize (Hd t Ht). by apply bool_decide_eq_true, run_pass_discussion in Hd as [_ ?].
    + intros m Hm%mem_str_spec. specialize (Hc m Hm). by apply mem_str_spec, run_pass_closeouts in Hc.
  - intros (Ho & Hd & Hc). split; [split; [done|]|].
    + intros t Ht. apply bool_decide_eq_true, run_pass_discussion. split; [lia|]. by apply Hd.
    + intros m Hm. apply mem_str_spec, run_pass_closeouts, Hc. by apply mem_str_spec.
Qed.

(** ** Visible indexes *)

(** What the account maintains of the indexes it hands out. *)
Record indexes_ok (md : SessionMetadata) (max : Z) (p : pass) : Prop := {
  io_nodup : NoDup (pa_closeouts p);
  io_members : forall m, m ∈ pa_closeouts p -> m ∈ councilMembers md;
  io_next : pa_next_closeout p = max + 2 + len_z (pa_closeouts p);
  io_range : forall id i, pa_indexes p !! id = Some i ->
    (pa_stages p !! id = Some "discussion" /\ 2 <= i <= max + 1) \/
    (pa_stages p !! id = Some "closeout" /\ max + 2 <= i < pa_next_closeout p);
  io_inj : forall id id' i, pa_indexes p !! id = Some i -> pa_indexes p !! id' = Some i -> max + 2 <= i -> id = id' }.

Lemma closeouts_bounded md max p : indexes_ok md max p -> len_z (pa_closeouts p) <= len_z (councilMembers md).
Proof.
  intros H. unfold len_z. pose proof (NoDup_submseteq _ (councilMembers md) (io_nodup _ _ _ H) (io_members _ _ _ H)) as Hs.
  apply submseteq_length in Hs. lia.
Qed.

Lemma indexes_ok_same md max p q :
  indexes_ok md max p -> pa_closeouts q = pa_closeouts p -> pa_next_closeout q = pa_next_closeout p ->
  pa_stages q = pa_stages p -> pa_indexes q = pa_indexes p -> indexes_ok md max q.
Proof. intros [] Hc Hn Hs Hi. split; rewrite ?Hc, ?Hn, ?Hs, ?Hi; done. Qed.

Lemma pass_step_indexes md max p e :
  0 < max -> max + len_z (councilMembers md) + 2 <= int_max ->
  indexes_ok md max p -> indexes_ok md max (pass_step md max p e).
Proof.
  intros Hmax Hbound H. pose proof (closeouts_bounded _ _ _ H) as Hlen.
  unfold pass_step. destruct (_ == "speaker_selected").
  { unfold on_selected. cbv zeta. destruct (_ && _); [|done]. by apply (indexes_ok_same _ _ p). }
  destruct (_ == "hand_raise_requested").
  { unfold on_opening. cbv zeta. destruct (_ && _); [|done]. by apply (indexes_ok_same _ _ p). }
  destruct (_ == "speech"); [|destruct (mem_str _ _); [|done]; by apply (indexes_ok_same _ _ p)].
  unfold on_speech. cbv zeta. pose proof (granted_key md p e) as Hk. destruct (_ || _); [done|].
  destruct (proj1 Hk eq_refl) as (Hpos & Hmem & _). clear Hk.
  set (m := trim_space (ev_from e)) in *. destruct (Z.leb_spec (eventTurn e) max) as [Hle|Hgt].
  - destruct H as [Hnd Hms Hn Hr Hi]. assert (Hw : wrap64 (eventTurn e + 1) = eventTurn e + 1)
      by (apply wrap64_id; unfold in_int, int_min, int_max, len_z in *; lia).
    split; cbn [pa_closeouts pa_next_closeout pa_stages pa_indexes]; rewrite ?Hw; try done.
    + intros id i [[<- <-]|[Hne Hid]]%lookup_insert_Some; [left; rewrite lookup_insert_eq; split; [done|lia]|].
      rewrite lookup_insert_ne by done. by apply Hr.
    + intros id id' i [[<- <-]|[Hne Hid]]%lookup_insert_Some [[<- Hi']|[Hne' Hid']]%lookup_insert_Some Hge; try lia.
      by eapply Hi.
  - destruct (mem_str m (pa_closeouts p)) eqn:Hm; [done|].
    assert (Hnew : m ∉ pa_closeouts p) by (rewrite <- mem_str_spec; by rewrite Hm).
    assert (Hlt : len_z (pa_closeouts p) < len_z (councilMembers md)).
    { assert (Hnd' : NoDup (m :: pa_closeouts p)) by (constructor; [done | apply H]).
      assert (Hs : m :: pa_closeouts p ⊆+ councilMembers md).
      { apply NoDup_submseteq; [done|]. intros x [->|Hx]%elem_of_cons; [by apply mem_str_spec | by apply (io_members _ _ _ H)]. }
      apply submseteq_length in Hs. unfold len_z. simpl in Hs. lia. }
    destruct H as [Hnd Hms Hn Hr Hi]. assert (Hw : wrap64 (pa_next_closeout p + 1) = pa_next_closeout p + 1)
      by (apply wrap64_id; unfold in_int, int_min, int_max, len_z in *; lia).
    split; cbn [pa_closeouts pa_next_closeout pa_stages pa_indexes]; rewrite ?Hw.
    + by constructor.
    + intros x [->|Hx]%elem_of_cons; [by apply mem_str_spec | by apply Hms].
    + unfold len_z in *. cbn [length]. lia.
    + intros id i [[<- <-]|[Hne Hid]]%lookup_insert_Some.
      * right. rewrite lookup_insert_eq. split; [done|]. unfold len_z in *. lia.
      * rewrite lookup_insert_ne by done. destruct (Hr _ _ Hid) as [?|[? ?]]; [by left | right; split; [done|lia]].
    + intros id id' i [[<- <-]|[Hne Hid]]%lookup_insert_Some [[<- Hi']|[Hne' Hid']]%lookup_insert_Some Hge.
      * done.
      * destruct (Hr _ _ Hid') as [[? ?]|[? ?]]; lia.
      * subst i. destruct (Hr _ _ Hid) as [[? ?]|[? ?]]; lia.
      * by eapply Hi.
Qed.

Lemma run_pass_indexes md max l :
  0 < max -> max + len_z (councilMembers md) + 2 <= int_max -> indexes_ok md max (run_pass md max l).
Proof.
  intros Hmax Hb. induction l as [|e l IH] using rev_ind; [|rewrite run_pass_snoc; by apply pass_step_indexes].
  split; simpl; try done; [constructor|..].
  - intros m Hm. by apply elem_of_nil in Hm.
  - unfold first_pass. cbn [pa_next_closeout]. unfold len_z in *. rewrite wrap64_id; [simpl; lia|].
    unfold in_int, int_min, int_max in *. lia.
Qed.

(** Visible indexes fit: in a configured council whose announced total does
    not overflow, a discussion speech is shown at an index from 2 to one past
    the last turn, a closeout at an index after those and before the total,
    which is left for the terminal synthesis, and no two events share a
    closeout index. *)
Theorem visible_indexes_bounded md ix id i :
  let l := councilDiscussionLifecycle md ix in
  let max := li_max_discussion_turns (md_limits md) in
  0 < max -> max + len_z (councilMembers md) + 2 <= int_max -> lc_indexes l !! id = Some i ->
  (lc_stages l !! id = Some "discussion" /\ 2 <= i <= max + 1) \/
  (lc_stages l !! id = Some "closeout" /\ max + 2 <= i < lc_expected_visible_turns l /\
   forall id', lc_indexes l !! id' = Some i -> id' = id).
Proof.
  cbv zeta. unfold councilDiscussionLifecycle. cbv zeta. set (max := li_max_discussion_turns (md_limits md)).
  intros Hmax Hb. replace (max <=? 0) with false by lia.
  pose proof (run_pass_indexes md max (ix_events ix) Hmax Hb) as Hok. set (p := run_pass md max (ix_events ix)) in *.
  destruct (default ("", "", None) (pa_terminal p)) as [[tid tty] tp].
  cbn [lc_indexes lc_stages lc_expected_visible_turns]. intros Hid.
  assert (Hw : wrap64 (max + len_z (councilMembers md) + 2) = max + len_z (councilMembers md) + 2)
    by (apply wrap64_id; unfold in_int, int_min, int_max, len_z in *; lia).
  rewrite Hw. pose proof (closeouts_bounded _ _ _ Hok) as Hlen. pose proof (io_next _ _ _ Hok) as Hn.
  destruct (io_range _ _ _ Hok _ _ Hid) as [?|[Hst Hr]]; [by left|].
  right. split; [done|]. split; [lia|]. intros id' Hid'. symmetry. by apply (io_inj _ _ _ Hok id id' i); [..|lia].
Qed.

(** ** A complete discussion *)

(** One discussion turn for Ann, then closeouts of Ann and Bob. *)
Definition lx_limits : Limits :=
  mk_limits 0 1 0 0 0 0 0 0 0 0 0 0 0 (0, 0) 0 0 0 0 0 0 None.

Definition lx_md : SessionMetadata :=
  mk_metadata "sess_council" SessionTypeCouncil StatusOpen "Roadmap" "mod" ["mod"; "ann"; "bob"]
    None None None "" fx_now lx_limits (mk_state "discussion" 0 "" 0) fx_snapshot.

Definition lx_grant (cmd member : string) (turn : Z) : EventEnvelope :=
  fx_event lx_md cmd "speaker_selected" "discussion" "mod" [member]
    {[ "member" := AStr member; "turn" := AInt turn ]}.
Definition lx_speech (cmd member : string) (turn : Z) : EventEnvelope :=
  fx_event lx_md cmd "speech" "discussion" member ["mod"] {[ "turn" := AInt turn ]}.

Definition lx_ix : LogIndex :=
  fx_index [fx_event lx_md "c1" "hand_raise_requested" "discussion" "mod" ["ann"; "bob"] {[ "turn" := AInt 1 ]};
            lx_grant "c2" "ann" 1; lx_speech "c3" "ann" 1; lx_grant "c4" "bob" 2; lx_speech "c5" "bob" 2;
            lx_grant "c6" "ann" 3; lx_speech "c7" "ann" 3].

Lemma propose_ready_spec_witness :
  (exists e, e ∈ ix_events lx_ix /\ opens lx_md e) /\
  (forall t, 1 <= t <= 1 -> exists m, granted_speech lx_md (ix_events lx_ix) m t) /\
  (forall m, councilMember lx_md m = true -> exists t, 1 < t /\ granted_speech lx_md (ix_events lx_ix) m t).
Proof.
  apply (proj1 (propose_ready_spec lx_md lx_ix ltac:(reflexivity))). vm_compute. reflexivity.
Defined.

Lemma visible_indexes_bounded_witness :
  let l := councilDiscussionLifecycle lx_md lx_ix in
  (lc_stages l !! "evt_c5" = Some "discussion" /\ 2 <= 3 <= 2) \/
  (lc_stages l !! "evt_c5" = Some "closeout" /\ 3 <= 3 < lc_expected_visible_turns l /\
   forall id', lc_indexes l !! id' = Some 3 -> id' = "evt_c5").
Proof.
  apply (visible_indexes_bounded lx_md lx_ix "evt_c5" 3); [reflexivity | discriminate | vm_compute; reflexivity].
Defined.
