(* ===== verification/ArgumentGraph.v ===== *)
(** * The argument graph of a council (storage/council_argument_graph.go)

    Speeches carry claims and stance links to claims of earlier speeches; the
    discussion-quality policy of the session decides what a speech must link to,
    and automatic speaker selection scores hand raises by their links. *)

From S2P Require Import Prelude GoValue GoTime Model Ids Evidence Events Closeout.

(** ** The policy *)

Definition discussionQualityCompatibility : string := "compatibility".
Definition discussionQualityWarn : string := "quality_warn".
Definition discussionQualityRequired : string := "quality_required".

Definition argumentGraphStances : list string :=
  ["support"; "challenge"; "refine"; "extend"; "synthesize"; "question"; "risk_addition"; "decision_frame"].
Definition argumentGraphContributionTypes : list string :=
  ["support"; "challenge"; "refine"; "extend"; "synthesize"; "question"; "risk_addition"; "decision_frame"; "new_axis"].
Definition argumentGraphClaimKinds : list string :=
  ["observation"; "requirement"; "risk"; "decision_frame"; "evidence"; "open_question"; "proposal"].

Record discussionQualityPolicy := mk_policy {
  dp_mode : string; dp_mode_reason : string; dp_opening : Z; dp_require_claims : bool;
  dp_require_links : bool; dp_allow_new_axis : bool; dp_max_new_axis : Z }.

Definition default_policy : discussionQualityPolicy :=
  mk_policy discussionQualityCompatibility "discussion_quality absent; defaulting to compatibility" 1 false false true 1.

Definition resolveDiscussionQualityPolicy (limits : Limits) : result error discussionQualityPolicy :=
  match li_discussion_quality limits with
  | None => Ok default_policy
  | Some config =>
      let bad field message :=
        NewValidationError CategoryInvalidEnvelope ("limits.council.discussion_quality." +:+ field) message in
      let mode := trim_space (dq_mode config) in
      reject mode == "" with
        bad "mode" "discussion_quality mode is required when discussion_quality is present";;
      ensure allowedString mode [discussionQualityCompatibility; discussionQualityWarn; discussionQualityRequired] or
        bad "mode" "unsupported discussion_quality mode";;
      reject dq_opening_unlinked_turns config <? 0 with
        bad "opening_unlinked_turns" "opening_unlinked_turns must be non-negative";;
      reject dq_max_consecutive_new_axis config <? 0 with
        bad "max_consecutive_new_axis" "max_consecutive_new_axis must be non-negative";;
      let or_one z := if z =? 0 then 1 else z in
      Ok (mk_policy mode "discussion_quality mode resolved from typed limits.council.discussion_quality"
            (or_one (dq_opening_unlinked_turns config)) (dq_require_claims config)
            (dq_require_stance_links_after_opening config) (dq_allow_new_axis_with_reason config)
            (or_one (dq_max_consecutive_new_axis config)))
  end.

Definition validateDiscussionQualityLimits (limits : Limits) : result error unit :=
  match li_discussion_quality limits with
  | None => Ok tt
  | Some _ => try _ := resolveDiscussionQualityPolicy limits in Ok tt
  end.

(** ** Claims, links and contribution types *)

Definition item_path (key : string) (i : Z) (field : string) : string :=
  key +:+ "[" +:+ itoa i +:+ "]." +:+ field.

Definition invalid (path message : string) : error := NewValidationError CategoryInvalidEnvelope path message.

Fixpoint parse_claims (i : Z) (seen : list string) (items : list payload) : result error (list string) :=
  match items with
  | [] => Ok seen
  | item :: rest =>
      let claimID := trim_space (anyString item ["claim_id"]) in
      reject claimID == "" with invalid (item_path "claims" i "claim_id") "claim_id is required";;
      reject mem_str claimID seen with invalid "claims" "duplicate claim_id";;
      reject is_blank (anyString item ["summary"]) with
        invalid (item_path "claims" i "summary") "claim summary is required";;
      let kind := trim_space (anyString item ["kind"]) in
      reject (kind != "") && negb (mem_str kind argumentGraphClaimKinds) with
        invalid (item_path "claims" i "kind") "unsupported claim kind";;
      parse_claims (i + 1) (claimID :: seen) rest
  end.

(** The claim ids of a payload and whether it has a [claims] key. *)
Definition parseArgumentClaims (p : payload) : result error (list string * bool) :=
  match p !! "claims" with
  | None => Ok ([], false)
  | Some raw =>
      match rawObjectSlice raw with
      | None => Err (invalid "claims" "claims must be an array of objects")
      | Some items => try seen := parse_claims 0 [] items in Ok (seen, true)
      end
  end.

Record argumentTargetLink := mk_link { al_event : string; al_claim : string; al_stance : string }.

Definition parse_link (ix : LogIndex) (key : string) (requireRationale : bool) (i : Z) (item : payload)
    : result error argumentTargetLink :=
  let path := item_path key i in
  let targetEventID := trim_space (anyString item ["target_event_id"]) in
  reject targetEventID == "" with invalid (path "target_event_id") "target_event_id is required";;
  let stance := trim_space (anyString item ["stance"]) in
  ensure mem_str stance argumentGraphStances or invalid (path "stance") "unsupported stance";;
  match eventByID ix targetEventID with
  | None => Err (invalid (path "target_event_id") "target event does not exist")
  | Some target =>
      reject ev_type target != "speech" with
        invalid (path "target_event_id") "target event must be prior speech";;
      match parseArgumentClaims (pl target) with
      | Err _ => Err (invalid (path "target_event_id") "target speech has malformed claims")
      | Ok (targetClaims, targetHasClaims) =>
          let targetClaimID := trim_space (anyString item ["target_claim_id"]) in
          reject targetHasClaims && (targetClaimID == "") with
            invalid (path "target_claim_id") "target_claim_id is required when target speech has claims";;
          reject (targetClaimID != "") && targetHasClaims && negb (mem_str targetClaimID targetClaims) with
            invalid (path "target_claim_id") "target_claim_id is absent from target speech claims";;
          reject requireRationale && (key == "stance_links") && is_blank (anyString item ["rationale"]) with
            invalid (path "rationale") "rationale is required in quality_required mode";;
          Ok (mk_link targetEventID targetClaimID stance)
      end
  end.

Fixpoint parse_links (ix : LogIndex) (key : string) (requireRationale : bool) (i : Z) (items : list payload)
    : result error (list argumentTargetLink) :=
  match items with
  | [] => Ok []
  | item :: rest =>
      try l := parse_link ix key requireRationale i item in
      try ls := parse_links ix key requireRationale (i + 1) rest in
      Ok (l :: ls)
  end.

Definition parseArgumentTargetLinks (ix : LogIndex) (p : payload) (key : string) (requireRationale : bool)
    : result error (list argumentTargetLink) :=
  match p !! key with
  | None => Ok []
  | Some raw =>
      match rawObjectSlice raw with
      | None => Err (invalid key (key +:+ " must be an array of objects"))
      | Some items => parse_links ix key requireRationale 0 items
      end
  end.

Definition parseContributionType (p : payload) : result error (string * bool) :=
  match p !! "contribution_type" with
  | None => Ok ("", false)
  | Some (AStr raw) =>
      let value := trim_space raw in
      ensure mem_str value argumentGraphContributionTypes or
        invalid "contribution_type" "unsupported contribution_type";;
      Ok (value, true)
  | Some _ => Err (invalid "contribution_type" "contribution_type must be a string")
  end.

(** ** Reading the discussion *)

Definition priorSpeechCount (ix : LogIndex) : Z :=
  len_z (List.filter (fun e => ev_type e == "speech") (ix_events ix)).

Definition argumentGraphAfterOpening (ix : LogIndex) (policy : discussionQualityPolicy) : bool :=
  if dp_opening policy <=? 0 then true else dp_opening policy <=? priorSpeechCount ix.

(** Length of the run of [new_axis] speeches at the end of the discussion. *)
Fixpoint new_axis_run (evs : list EventEnvelope) : Z :=
  match evs with
  | [] => 0
  | e :: rest =>
      if ev_type e != "speech" then new_axis_run rest
      else if payloadStringDefault (pl e) "contribution_type" "" != "new_axis" then 0
      else 1 + new_axis_run rest
  end.

Definition consecutiveNewAxisCount (ix : LogIndex) : Z := new_axis_run (rev (ix_events ix)).

(** Lower-casing as far as ASCII text can tell: ASCII letters, and the two
    other runes whose lower case is ASCII (the Kelvin sign and dotted I). *)
Definition lower_ascii (a : Ascii.ascii) : Ascii.ascii :=
  let n := Ascii.N_of_ascii a in
  if ((65 <=? n) && (n <=? 90))%N then Ascii.ascii_of_N (n + 32) else a.

Fixpoint to_lower (s : string) : string :=
  match s with
  | EmptyString => EmptyString
  | String a rest =>
      match drop_prefix (bytes [226; 132; 170]%N) s with
      | Some _ => match rest with String _ (String _ rest') => String (Ascii.ascii_of_N 107) (to_lower rest') | _ => s end
      | None =>
          match drop_prefix (bytes [196; 176]%N) s with
          | Some _ => match rest with String _ rest' => String (Ascii.ascii_of_N 105) (to_lower rest') | _ => s end
          | None => String (lower_ascii a) (to_lower rest)
          end
      end
  end.

Definition selected_for (turn : Z) (actor : string) (e : EventEnvelope) : bool :=
  let member := payloadStringDefault (pl e) "member" "" in
  let member := match ev_to e with
                | [t] => if member == "" then t else member
                | _ => member
                end in
  (ev_type e == "speaker_selected") && (anyInt (pl e) "turn" =? turn) && (member == actor).

Definition selectedSpeakerEvent (ix : LogIndex) (turn : Z) (actor : string) : option EventEnvelope :=
  find_last (selected_for turn actor) (ix_events ix).

Definition selectedSpeakerHasTargetedNewAxisReason (ix : LogIndex) (turn : Z) (actor : string) : bool :=
  match selectedSpeakerEvent ix turn actor with
  | None => false
  | Some selected =>
      match anyMap (pl selected) ["graph_need"] with
      | Some _ => true
      | None =>
          let reason := to_lower (payloadStringDefault (pl selected) "reason" "") in
          contains reason "new_axis" || contains reason "new axis" || contains reason "missing decision dimension"
      end
  end.

Definition deterministicRuntimeNoise (speech : string) : bool :=
  let text := trim_space (to_lower speech) in
  if text == "" then false
  else existsb (has_prefix text)
         ["warning:"; "runtime warning:"; "system warning:"; "traceback"; "panic:"; "error:"]
       || existsb (contains text)
            ["max iteration"; "maximum iteration"; "context length exceeded"; "tool call failed"; "rate limit exceeded"].

Definition need_target (link : payload) : list string :=
  let eventID := trim_space (anyString link ["target_event_id"]) in
  let claimID := trim_space (anyString link ["target_claim_id"]) in
  if (eventID != "") && (claimID != "") then [eventID +:+ "/" +:+ claimID]
  else if claimID != "" then [claimID]
  else [].

Definition string_items (l : list any) : list string :=
  omap (fun a => match a with AStr s => if is_blank s then None else Some (trim_space s) | _ => None end) l.

(** The targets a grant demands, without duplicates; their order is a map's. *)
Definition selectedGraphNeedTargets (p : payload) : list string :=
  match anyMap p ["graph_need"] with
  | None => []
  | Some need =>
      let needType := trim_space (anyString need ["type"; "need"]) in
      if negb (mem_str needType [""; "synthesis"; "synthesize"]) then []
      else
        let links := match need !! "target_links" with
                     | Some raw => default [] (rawObjectSlice raw)
                     | None => []
                     end in
        remove_dups (string_items (anySlice need "target_claim_ids") ++ concat (map need_target links))
  end.

Definition link_names (l : argumentTargetLink) : list string :=
  (if (al_event l != "") && (al_claim l != "") then [al_event l +:+ "/" +:+ al_claim l] else []) ++
  (if al_claim l != "" then [al_claim l] else []).

Definition missingSelectedGraphNeedTargets (ix : LogIndex) (turn : Z) (actor : string)
    (links : list argumentTargetLink) : list string :=
  match selectedSpeakerEvent ix turn actor with
  | None => []
  | Some selected =>
      let seen := concat (map link_names links) in
      sort_strings (List.filter (fun t => negb (mem_str t seen)) (selectedGraphNeedTargets (pl selected)))
  end.

(** ** Diagnostics and evidence *)

Definition qualityDiagnostic (code message : string) : payload :=
  {[ "code" := AStr code; "severity" := AStr "warning"; "message" := AStr message ]}.

Definition argumentGraphDiagnostics (ix : LogIndex) (turn : Z) (actor : string) (p : payload)
    (contribution : string) (links : list argumentTargetLink) : list payload :=
  let newAxisReason := trim_space (payloadStringDefault p "new_axis_reason" "") in
  let missing := missingSelectedGraphNeedTargets ix turn actor links in
  (if argumentGraphAfterOpening ix (mk_policy "" "" 1 false false true 0) && (len_z links =? 0)
      && ((contribution != "new_axis") || (newAxisReason == ""))
   then [qualityDiagnostic "orphan_speech" "speech has no stance_links and is not a justified new_axis"] else []) ++
  (if (contribution == "new_axis") && (0 <? consecutiveNewAxisCount ix)
   then [qualityDiagnostic "repeated_new_axis" "new_axis follows another new_axis"] else []) ++
  (if deterministicRuntimeNoise (payloadStringDefault p "speech" "")
   then [qualityDiagnostic "runtime_noise" "speech resembles deterministic runtime/system noise"] else []) ++
  match missing with
  | [] => []
  | _ => [<["missing_targets" := AStrs missing]>
            (qualityDiagnostic "omitted_graph_need_targets" "speech omits moderator-selected graph_need targets")]
  end.

Definition link_row (l : argumentTargetLink) : payload :=
  {[ "target_event_id" := AStr (al_event l); "target_claim_id" := AStr (al_claim l); "stance" := AStr (al_stance l) ]}.

Definition priorSpeakerQualityEvidenceForSpeech (ix : LogIndex) (policy : discussionQualityPolicy) (p : payload)
    (links : list argumentTargetLink) (diagnostics : list payload) : payload :=
  let afterOpening := argumentGraphAfterOpening ix policy in
  let contribution := trim_space (payloadStringDefault p "contribution_type" "") in
  let newAxisReason := trim_space (payloadStringDefault p "new_axis_reason" "") in
  let newAxisAllowed := (contribution == "new_axis") && (newAxisReason != "")
                        && (dp_allow_new_axis policy || (dp_mode policy != discussionQualityRequired)) in
  let orphan := afterOpening && (len_z links =? 0) && negb newAxisAllowed in
  let base : payload :=
    {[ "pass" := ABool (negb orphan && (len_z diagnostics =? 0)); "mode" := AStr (dp_mode policy);
       "opening_unlinked_turns" := AInt (dp_opening policy); "prior_speech_count" := AInt (priorSpeechCount ix);
       "opening_exempt" := ABool (negb afterOpening); "display_hint_authority" := AStr "rejected";
       "responds_to_event_id_status" := AStr "display_only"; "valid_prior_target_count" := AInt (len_z links);
       "valid_prior_targets" := AMaps (map link_row links); "new_axis_exception" := ABool newAxisAllowed ]} in
  let e1 := if orphan then <["orphan" := ABool true]> (<["diagnostic_code" := AStr "orphan_speech"]> base) else base in
  let e2 := if newAxisAllowed then <["new_axis_reason" := AStr newAxisReason]> e1 else e1 in
  match diagnostics with
  | [] => e2
  | _ => <["diagnostics" := AMaps diagnostics]> e2
  end.

(** ** Validation *)

Definition validateArgumentGraphHandRaise (ix : LogIndex) (p : payload) : result error unit :=
  match p !! "target_links" with
  | None => Ok tt
  | Some _ => try _ := parseArgumentTargetLinks ix p "target_links" false in Ok tt
  end.

Definition has_key (p : payload) (key : string) : bool :=
  match p !! key with
  | Some _ => true
  | None => false
  end.

(** The extra rules of mode [quality_required]. *)
Definition check_quality_required (ix : LogIndex) (policy : discussionQualityPolicy) (actor : string) (turn : Z)
    (p : payload) (claims : list string) (contribution newAxisReason : string)
    (links : list argumentTargetLink) : result error unit :=
  let afterOpening := argumentGraphAfterOpening ix policy in
  let no_links := len_z links =? 0 in
  let newAxisAllowed := (contribution == "new_axis") && (newAxisReason != "") && dp_allow_new_axis policy in
  reject afterOpening && dp_require_claims policy && (negb (has_key p "claims") || (len_z claims =? 0)) with
    invalid "claims" "quality_required requires claims after opening window";;
  reject afterOpening && dp_require_links policy && (negb (has_key p "stance_links") || no_links)
         && negb newAxisAllowed with
    invalid "stance_links" "quality_required requires stance_links after opening window";;
  reject afterOpening && negb newAxisAllowed && no_links with
    invalid "stance_links" "quality_required rejects orphan speech after opening window";;
  reject (contribution == "new_axis") && (dp_max_new_axis policy <? consecutiveNewAxisCount ix + 1)
         && negb (selectedSpeakerHasTargetedNewAxisReason ix turn actor) with
    invalid "contribution_type" "quality_required rejects repeated new_axis without targeted moderator reason";;
  reject deterministicRuntimeNoise (payloadStringDefault p "speech" "") with
    invalid "speech" "quality_required rejects runtime/system-noise speech";;
  match missingSelectedGraphNeedTargets ix turn actor links with
  | [] => Ok tt
  | missing => Err (invalid "stance_links"
                      ("speech omits moderator-selected graph_need targets: " +:+ join "," missing))
  end.

Definition evidence_key : string := "prior_speaker_argue_quality_evidence".

(** The payload the accepted speech is recorded with. *)
Definition validateArgumentGraphSpeech (md : SessionMetadata) (ix : LogIndex) (actor : string) (turn : Z)
    (p : payload) : result error payload :=
  try policy := resolveDiscussionQualityPolicy (md_limits md) in
  try claims := parseArgumentClaims p in
  try links := parseArgumentTargetLinks ix p "stance_links" (dp_mode policy == discussionQualityRequired) in
  try contribution := parseContributionType p in
  let newAxisReason := trim_space (payloadStringDefault p "new_axis_reason" "") in
  reject (contribution.1 == "synthesize") && (len_z links <? 2) with
    invalid "contribution_type" "synthesize requires at least two valid prior targets";;
  reject (contribution.1 == "new_axis") && (newAxisReason == "") with
    invalid "new_axis_reason" "new_axis requires new_axis_reason";;
  if dp_mode policy == discussionQualityRequired then
    try _ := check_quality_required ix policy actor turn p claims.1 contribution.1 newAxisReason links in
    Ok (<[evidence_key := AMap (priorSpeakerQualityEvidenceForSpeech ix policy p links [])]> p)
  else if dp_mode policy == discussionQualityWarn then
    let diagnostics := argumentGraphDiagnostics ix turn actor p contribution.1 links in
    let p1 := match diagnostics with [] => p | _ => <["quality_diagnostics" := AMaps diagnostics]> p end in
    Ok (<[evidence_key := AMap (priorSpeakerQualityEvidenceForSpeech ix policy p1 links diagnostics)]> p1)
  else Ok p.

(** ** Automatic speaker selection *)

Record autoSpeakerSelection := mk_selection {
  as_member : string; as_score : Z; as_reason : string; as_need : payload }.

(** [value, ok := p[key].(bool); ok && !value] *)
Definition says_no (p : payload) (key : string) : bool :=
  match p !! key with
  | Some (ABool false) => true
  | _ => false
  end.

Definition eligible_raise (md : SessionMetadata) (turn : Z) (e : EventEnvelope) : bool :=
  (ev_type e == "hand_raise") && (anyInt (pl e) "turn" =? turn) && councilMember md (ev_from e)
  && negb (says_no (pl e) "wants_to_speak") && negb (says_no (pl e) "eligible").

Definition currentEligibleHandRaises (md : SessionMetadata) (ix : LogIndex) (turn : Z) : list EventEnvelope :=
  List.filter (eligible_raise md turn) (ix_events ix).

(** council.go [currentCouncilTurn], [nextCouncilTurn] *)
Definition turn_max (m : Z) (e : EventEnvelope) : Z :=
  let m1 := match ev_turn e with Some t => Z.max m t | None => m end in
  Z.max m1 (anyInt (pl e) "turn").

Definition currentCouncilTurn (ix : LogIndex) : Z := foldl turn_max 0 (ix_events ix).
Definition nextCouncilTurn (ix : LogIndex) : Z := wrap64 (currentCouncilTurn ix + 1).

Definition compatibilityAutoSpeaker (md : SessionMetadata) (ix : LogIndex) : autoSpeakerSelection :=
  let turn := currentCouncilTurn ix in
  match find_last (fun e => (ev_type e == "hand_raise") && (anyInt (pl e) "turn" =? turn)
                            && councilMember md (ev_from e)) (ix_events ix) with
  | Some e => mk_selection (ev_from e) 0 "compatibility fallback selected latest hand_raise" ∅
  | None =>
      match councilMembers md with
      | m :: _ => mk_selection m 0 "compatibility fallback selected first council member" ∅
      | [] => mk_selection "" 0 "" ∅
      end
  end.

Definition latestCouncilSpeaker (ix : LogIndex) : string :=
  match latestEventOfType ix "speech" with
  | Some e => ev_from e
  | None => ""
  end.

Definition intent_score (intent : string) : Z :=
  if mem_str intent ["challenge"; "risk_addition"; "risk"; "block"; "rebuttal"] then 8
  else if mem_str intent ["synthesize"; "decision_frame"] then 7
  else if mem_str intent ["refine"; "extend"; "question"] then 5
  else if intent == "support" then 3
  else 0.

Definition raise_links (ix : LogIndex) (raise : EventEnvelope) : list argumentTargetLink :=
  match parseArgumentTargetLinks ix (pl raise) "target_links" false with
  | Ok links => links
  | Err _ => []
  end.

Definition scoreCouncilHandRaise (ix : LogIndex) (raise : EventEnvelope) : Z * string * payload :=
  let intent := trim_space (payloadStringDefault (pl raise) "intent" "") in
  let links := raise_links ix raise in
  let score := wrap64 (wrap64 (wrap64 (anyInt (pl raise) "relevance" + anyInt (pl raise) "urgency")
                               + intent_score intent) + len_z links * 4) in
  let reason := if intent != "" then "auto ARGUE score" +:+ " intent=" +:+ intent else "auto ARGUE score" in
  let need : payload :=
    match links with
    | [] => ∅
    | _ => {[ "target_links" := AMaps (map link_row links); "type" := AStr intent;
              "target_link_count" := AInt (len_z links); "relation_count" := AInt (len_z links) ]}
    end in
  (score, reason, need).

Definition better (best : autoSpeakerSelection) (score : Z) (from : string) : bool :=
  (as_score best <? score) || ((score =? as_score best) && String.ltb from (as_member best)).

Definition pick_raise (ix : LogIndex) (best : autoSpeakerSelection) (raise : EventEnvelope) : autoSpeakerSelection :=
  let '(score, reason, need) := scoreCouncilHandRaise ix raise in
  if better best score (ev_from raise) then mk_selection (ev_from raise) score reason need else best.

Definition autoCouncilSpeaker (md : SessionMetadata) (ix : LogIndex) : result error autoSpeakerSelection :=
  try policy := resolveDiscussionQualityPolicy (md_limits md) in
  if negb (mem_str (dp_mode policy) [discussionQualityWarn; discussionQualityRequired])
  then Ok (compatibilityAutoSpeaker md ix)
  else
    match currentEligibleHandRaises md ix (currentCouncilTurn ix) with
    | [] => Err (NewValidationError CategoryCommandConflict "hand_raise"
                   "quality-aware auto-selection requires an eligible hand_raise")
    | raises =>
        match List.filter (fun e => ev_from e != latestCouncilSpeaker ix) raises with
        | [] => Err (NewValidationError CategoryCommandConflict "speaker_selected"
                       "quality-aware auto-selection has no non-consecutive eligible speaker")
        | fresh => Ok (foldl (pick_raise ix) (mk_selection "" (- 2 ^ 30) "" ∅) fresh)
        end
    end.
