(* ===== verification/ArgumentGraphTheory.v ===== *)
(** * Correctness of the argument graph

    Accepted links resolve to earlier speeches and their claims; the required
    quality mode accepts exactly the speeches that satisfy its rules; automatic
    selection picks a best eligible raise of someone other than the last speaker. *)

From S2P Require Import Prelude GoValue GoTime Model Ids Evidence Events EventLog Fixtures Closeout ArgumentGraph.

(** ** Links *)

(** The link names a speech of the log and, where that speech makes claims, one of them. *)
Definition resolves (ix : LogIndex) (l : argumentTargetLink) : Prop :=
  exists target claims has, target ∈ ix_events ix /\ ev_event_id target = al_event l /\ ev_type target = "speech" /\
    parseArgumentClaims (pl target) = Ok (claims, has) /\
    (has = true -> al_claim l ∈ claims /\ al_claim l <> "").

(** The item of a link list that a link was read from. *)
Definition link_item (key : string) (rationale : bool) (item : payload) (l : argumentTargetLink) : Prop :=
  al_event l = trim_space (anyString item ["target_event_id"]) /\ al_event l <> "" /\
  al_claim l = trim_space (anyString item ["target_claim_id"]) /\
  al_stance l = trim_space (anyString item ["stance"]) /\ al_stance l ∈ argumentGraphStances /\
  (rationale = true -> key = "stance_links" -> is_blank (anyString item ["rationale"]) = false).

Lemma parse_link_ok ix key rationale i item l :
  parse_link ix key rationale i item = Ok l -> link_item key rationale item l /\ resolves ix l.
Proof.
  unfold parse_link. cbv zeta. intros H. run_step H. run_step H.
  destruct (eventByID ix _) as [target|] eqn:Ht; [|done]. apply eventByID_Some in Ht as [Hin Hid].
  run_step H. destruct (parseArgumentClaims (pl target)) as [[claims has]|] eqn:Hc; [|done].
  run_step H. run_step H. run_step H. injection H as <-. bool_prop. split.
  - unfold link_item. cbn [al_event al_claim al_stance]. repeat split; try done; [by apply mem_str_spec|].
    intros -> ->. by destruct Hguard4.
  - exists target, claims, has. repeat split; try done; subst has; destruct Hguard2 as [|Hne]; try done; bool_prop; [|done].
    cbn [al_claim]. destruct Hguard3 as [H|H]; [|bool_prop; by apply mem_str_spec].
    apply String.eqb_neq in Hne. by rewrite Hne in H.
Qed.

Lemma parse_links_ok ix key rationale i items links :
  parse_links ix key rationale i items = Ok links ->
  Forall2 (link_item key rationale) items links /\ Forall (resolves ix) links.
Proof.
  revert i links. induction items as [|item items IH]; intros i links H; simpl in H.
  - injection H as <-. done.
  - run_inv H. subst. apply parse_link_ok in Hrun as [? ?]. apply IH in Hrun0 as [? ?]. by split; constructor.
Qed.

(** Every link of an accepted link list was read from the item at its
    position, has a supported stance (and, where rationales are required, a
    rationale), and names an earlier speech of the log; if that speech makes
    claims, the link names one of them. *)
Theorem accepted_links_resolve ix p key rationale links :
  parseArgumentTargetLinks ix p key rationale = Ok links ->
  Forall (resolves ix) links /\
  match p !! key with
  | None => links = []
  | Some raw => exists items, rawObjectSlice raw = Some items /\ Forall2 (link_item key rationale) items links
  end.
Proof.
  unfold parseArgumentTargetLinks. destruct (p !! key) as [raw|]; [|by intros [= <-]].
  destruct (rawObjectSlice raw) as [items|]; [|done]. intros H. apply parse_links_ok in H as [? ?]. eauto.
Qed.

(** ** The required quality mode *)

Lemma claims_need_key p claims has : parseArgumentClaims p = Ok (claims, has) -> claims <> [] -> has_key p "claims" = true.
Proof. unfold parseArgumentClaims, has_key. destruct (p !! "claims"); [done|]. by intros [= <- _]. Qed.

Lemma links_need_key ix p key r links :
  parseArgumentTargetLinks ix p key r = Ok links -> links <> [] -> has_key p key = true.
Proof. unfold parseArgumentTargetLinks, has_key. destruct (p !! key); [done|]. by intros [= <-]. Qed.

Lemma len_z_nil {A} (l : list A) : (len_z l =? 0) = true <-> l = [].
Proof. rewrite Z.eqb_eq. unfold len_z. destruct l; simpl; split; intros; (done || lia). Qed.

Lemma sort_strings_nil l : sort_strings l = [] <-> l = [].
Proof.
  split; [|by intros ->]. intros H. apply Permutation_nil. rewrite <- (sort_strings_perm l). by rewrite H.
Qed.

(** The targets that the grant of this turn demands of the speaker. *)
Definition demanded (ix : LogIndex) (turn : Z) (actor : string) : list string :=
  match selectedSpeakerEvent ix turn actor with
  | Some selected => selectedGraphNeedTargets (pl selected)
  | None => []
  end.

Lemma missing_none ix turn actor links :
  missingSelectedGraphNeedTargets ix turn actor links = [] <->
  forall t, t ∈ demanded ix turn actor -> t ∈ concat (map link_names links).
Proof.
  unfold missingSelectedGraphNeedTargets, demanded. destruct (selectedSpeakerEvent ix turn actor) as [sel|].
  - rewrite sort_strings_nil. split.
    + intros H t Ht. apply mem_str_spec. destruct (mem_str t _) eqn:E; [done|]. exfalso.
      assert (Hin : In t []); [rewrite <- H | done]. apply filter_In. rewrite E. split; [by apply list_elem_of_In | done].
    + intros H. destruct (List.filter _ _) as [|t l] eqn:E; [done|]. exfalso.
      assert (Hin : In t (t :: l)) by by left. rewrite <- E in Hin. apply filter_In in Hin as [Hin Hm].
      apply list_elem_of_In, H, mem_str_spec in Hin. by rewrite Hin in Hm.
  - split; [|done]. intros _ t Ht. by apply elem_of_nil in Ht.
Qed.

(** The rules of the required mode, each as the policy states it. *)
Record speech_ok (ix : LogIndex) (policy : discussionQualityPolicy) (actor : string) (turn : Z) (p : payload)
    (claims : list string) (contribution : string) (links : list argumentTargetLink) : Prop := mk_speech_ok {
  so_synthesize : contribution = "synthesize" -> 2 <= len_z links;
  so_reason : contribution = "new_axis" -> is_blank (payloadStringDefault p "new_axis_reason" "") = false;
  so_linked : argumentGraphAfterOpening ix policy = true -> links <> [] \/
              (contribution = "new_axis" /\ dp_allow_new_axis policy = true);
  so_claims : argumentGraphAfterOpening ix policy = true -> dp_require_claims policy = true -> claims <> [];
  so_axis : contribution = "new_axis" -> consecutiveNewAxisCount ix + 1 <= dp_max_new_axis policy \/
            selectedSpeakerHasTargetedNewAxisReason ix turn actor = true;
  so_noise : deterministicRuntimeNoise (payloadStringDefault p "speech" "") = false;
  so_demands : forall t, t ∈ demanded ix turn actor -> t ∈ concat (map link_names links) }.

Lemma required_sound ix policy actor turn p claims has contribution links u :
  parseArgumentClaims p = Ok (claims, has) ->
  (contribution == "synthesize") && (len_z links <? 2) = false ->
  (contribution == "new_axis") && (trim_space (payloadStringDefault p "new_axis_reason" "") == "") = false ->
  check_quality_required ix policy actor turn p claims contribution
    (trim_space (payloadStringDefault p "new_axis_reason" "")) links = Ok u ->
  speech_ok ix policy actor turn p claims contribution links.
Proof.
  intros Hc Hs Hr H. unfold check_quality_required in H. cbv zeta in H.
  do 5 run_step H. destruct (missingSelectedGraphNeedTargets _ _ _ _) eqn:Hm; [|done].
  rewrite missing_none in Hm. clear H Hguard0. constructor; try done.
  - intros ->. rewrite String.eqb_refl in Hs. bool_prop. lia.
  - intros ->. rewrite String.eqb_refl in Hr. exact Hr.
  - intros Ha. rewrite Ha in Hguard1. destruct (len_z links =? 0) eqn:Hl.
    + right. rewrite andb_true_r in Hguard1. cbn [andb] in Hguard1. bool_prop. done.
    + left. intros ->. done.
  - intros Ha Hq ->. rewrite Ha, Hq in Hguard. by rewrite orb_true_r in Hguard.
  - intros ->. rewrite String.eqb_refl in Hguard2. cbn [andb] in Hguard2. bool_prop.
    destruct Hguard2; bool_prop; [left; lia | by right].
Qed.

Lemma required_complete ix policy actor turn p claims has present contribution links :
  parseArgumentClaims p = Ok (claims, has) ->
  parseArgumentTargetLinks ix p "stance_links" true = Ok links ->
  parseContributionType p = Ok (contribution, present) ->
  speech_ok ix policy actor turn p claims contribution links ->
  check_quality_required ix policy actor turn p claims contribution
    (trim_space (payloadStringDefault p "new_axis_reason" "")) links = Ok tt.
Proof.
  intros Hc Hl _ [Hs Hr Hlk Hcl Hax Hn Hd]. unfold check_quality_required. cbv zeta.
  rewrite Hn, (proj2 (missing_none _ _ _ _) Hd).
  assert (Hexempt : argumentGraphAfterOpening ix policy = true -> links <> [] \/
    (contribution == "new_axis") && (trim_space (payloadStringDefault p "new_axis_reason" "") != "")
      && dp_allow_new_axis policy = true).
  { intros Ha. destruct (Hlk Ha) as [|[-> ->]]; [by left|right]. rewrite String.eqb_refl, andb_true_r.
    specialize (Hr eq_refl). unfold is_blank in Hr. by rewrite Hr. }
  destruct (argumentGraphAfterOpening ix policy); cbn [andb].
  - specialize (Hexempt eq_refl). specialize (Hcl eq_refl).
    replace (dp_require_claims policy && _) with false.
    2: { destruct (dp_require_claims policy); [|done]. specialize (Hcl eq_refl).
         rewrite (claims_need_key _ _ _ Hc Hcl). destruct (len_z claims =? 0) eqn:E; [|done]. by apply len_z_nil in E. }
    destruct Hexempt as [Hne| ->].
    + rewrite (links_need_key _ _ _ _ _ Hl Hne).
      replace (len_z links =? 0) with false by (symmetry; apply not_true_iff_false; by rewrite len_z_nil).
      cbn [negb orb andb]. rewrite !andb_false_r. cbn [andb].
      destruct (String.eqb_spec contribution "new_axis") as [->|]; [|done].
      destruct (Hax eq_refl) as [Hle| ->]; [|by rewrite andb_false_r].
      by rewrite (proj2 (Z.ltb_ge _ _) Hle).
    + cbn [negb andb]. rewrite !andb_false_r.
      destruct (String.eqb_spec contribution "new_axis") as [->|]; [|done].
      destruct (Hax eq_refl) as [Hle| ->]; [|by rewrite andb_false_r].
      by rewrite (proj2 (Z.ltb_ge _ _) Hle).
  - destruct (String.eqb_spec contribution "new_axis") as [->|]; [|done].
    destruct (Hax eq_refl) as [Hle| ->]; [|by rewrite andb_false_r].
    by rewrite (proj2 (Z.ltb_ge _ _) Hle).
Qed.

Lemma contribution_text p contribution present :
  parseContributionType p = Ok (contribution, present) ->
  trim_space (payloadStringDefault p "contribution_type" "") = contribution.
Proof.
  unfold parseContributionType, payloadStringDefault. destruct (p !! "contribution_type") as [[]|]; try done.
  - intros H. run_inv H. by injection H as <- <-.
  - by intros [= <- <-].
Qed.

(** The evidence recorded with an accepted speech says that it passed. *)
Lemma evidence_passes ix policy actor turn p claims contribution present links :
  parseContributionType p = Ok (contribution, present) ->
  speech_ok ix policy actor turn p claims contribution links ->
  priorSpeakerQualityEvidenceForSpeech ix policy p links [] !! "pass" = Some (ABool true).
Proof.
  intros Hc [_ Hr Hlk _ _ _ _]. unfold priorSpeakerQualityEvidenceForSpeech. cbv zeta. rewrite (contribution_text _ _ _ Hc).
  match goal with |- context [?a && ?b && negb ?n] => set (allowed := n); assert (Ho : a && b && negb allowed = false) end.
  { destruct (argumentGraphAfterOpening ix policy); [|done]. cbn [andb].
    destruct (len_z links =? 0) eqn:Hl; [|done]. apply len_z_nil in Hl. cbn [andb].
    destruct (Hlk eq_refl) as [|[-> Ha]]; [done|]. subst allowed. rewrite Ha, String.eqb_refl.
    specialize (Hr eq_refl). unfold is_blank in Hr. by rewrite Hr. }
  rewrite Ho. destruct allowed; [rewrite lookup_insert_ne by done|]; by simplify_map_eq.
Qed.

Lemma required_mode_run md ix actor turn p policy :
  resolveDiscussionQualityPolicy (md_limits md) = Ok policy -> dp_mode policy = discussionQualityRequired ->
  validateArgumentGraphSpeech md ix actor turn p =
    (try claims := parseArgumentClaims p in
     try links := parseArgumentTargetLinks ix p "stance_links" true in
     try contribution := parseContributionType p in
     let reason := trim_space (payloadStringDefault p "new_axis_reason" "") in
     if (contribution.1 == "synthesize") && (len_z links <? 2)
     then Err (invalid "contribution_type" "synthesize requires at least two valid prior targets")
     else if (contribution.1 == "new_axis") && (reason == "")
     then Err (invalid "new_axis_reason" "new_axis requires new_axis_reason")
     else try _ := check_quality_required ix policy actor turn p claims.1 contribution.1 reason links in
          Ok (<[evidence_key := AMap (priorSpeakerQualityEvidenceForSpeech ix policy p links [])]> p)).
Proof. intros Hp Hm. unfold validateArgumentGraphSpeech. rewrite Hp. cbn [mbind result_bind]. by rewrite Hm. Qed.

(** C24. In mode [quality_required] a speech is accepted exactly when its claims,
    links (with rationales) and contribution type parse and it keeps every rule:
    a synthesis has two links, a new axis a reason; after the opening turns a
    speech is linked or is an allowed new axis, and makes claims where the policy
    wants them; a repeated new axis is within the limit or asked for by the
    moderator; it does not read as runtime noise; and its links cover every target
    that the grant of the turn demands.  It is then recorded unchanged but for
    the evidence that it passed.  The policy's [dp_require_links] decides nothing. *)
Theorem quality_required_accepts md ix actor turn p p' policy :
  resolveDiscussionQualityPolicy (md_limits md) = Ok policy -> dp_mode policy = discussionQualityRequired ->
  validateArgumentGraphSpeech md ix actor turn p = Ok p' <->
  exists claims has links contribution present evidence,
    parseArgumentClaims p = Ok (claims, has) /\
    parseArgumentTargetLinks ix p "stance_links" true = Ok links /\
    parseContributionType p = Ok (contribution, present) /\
    speech_ok ix policy actor turn p claims contribution links /\
    evidence = priorSpeakerQualityEvidenceForSpeech ix policy p links [] /\ evidence !! "pass" = Some (ABool true) /\
    p' = <[evidence_key := AMap evidence]> p.
Proof.
  intros Hp Hm. rewrite (required_mode_run _ _ _ _ _ _ Hp Hm). split.
  - intros H. do 3 run_step H. cbv zeta in H. do 3 run_step H. apply ok_inj in H as <-. destruct a as [claims has], a1 as [contribution present].
    cbn [fst snd] in *.
    pose proof (required_sound _ _ _ _ _ _ _ _ _ _ Hrun Hguard Hguard0 Hrun2) as Hok.
    exists claims, has, a0, contribution, present. eexists. split_and!; try done. by eapply evidence_passes.
  - intros (claims & has & links & contribution & present & ev & Hc & Hl & Ht & Hok & -> & _ & ->).
    rewrite Hc. cbn [mbind result_bind]. rewrite Hl. cbn [mbind result_bind]. rewrite Ht. cbn [mbind result_bind fst snd].
    rewrite (required_complete _ _ _ _ _ _ _ _ _ _ Hc Hl Ht Hok). destruct Hok as [Hs Hr _ _ _ _ _].
    destruct (String.eqb_spec contribution "synthesize") as [->|_].
    { specialize (Hs eq_refl). by rewrite (proj2 (Z.ltb_ge _ _) Hs). }
    destruct (String.eqb_spec contribution "new_axis") as [->|_]; [|done].
    specialize (Hr eq_refl). unfold is_blank in Hr. by rewrite Hr.
Qed.

(** ** Automatic speaker selection *)

Definition raise_score (ix : LogIndex) (raise : EventEnvelope) : Z := fst (fst (scoreCouncilHandRaise ix raise)).

(** The raises automatic selection chooses among. *)
Definition candidates (md : SessionMetadata) (ix : LogIndex) : list EventEnvelope :=
  List.filter (fun e => ev_from e != latestCouncilSpeaker ix) (currentEligibleHandRaises md ix (currentCouncilTurn ix)).

(** A selection of this score and member ranks at least as high as the raise. *)
Definition outranks (ix : LogIndex) (score : Z) (member : string) (e : EventEnvelope) : Prop :=
  raise_score ix e < score \/ (raise_score ix e = score /\ str_le member (ev_from e)).

Lemma ltb_spec a b : String.ltb a b = true <-> str_le a b /\ a <> b.
Proof.
  unfold str_le, String.ltb, String.leb. split.
  - intros H. destruct (String.compare a b) eqn:E; try done. split; [done|]. intros ->. by rewrite str_compare_refl in E.
  - intros [H Hne]. destruct (String.compare a b) eqn:E; try done. by apply String.compare_eq_iff in E.
Qed.

Lemma not_ltb a b : String.ltb a b = false -> str_le b a.
Proof.
  intros H. destruct (total str_le b a) as [Hle|Hle]; [done|]. destruct (decide (a = b)) as [->|Hne]; [reflexivity|].
  by rewrite (proj2 (ltb_spec a b)) in H.
Qed.

Lemma outranks_trans ix score member score' member' e :
  outranks ix score member e -> score < score' \/ (score = score' /\ str_le member' member) ->
  outranks ix score' member' e.
Proof.
  unfold outranks. intros [H|[-> H]] [H'|[-> H']]; [left; lia | left; lia | by left | right].
  split; [done | by transitivity member].
Qed.

Lemma pick_raise_cases ix best e :
  (pick_raise ix best e = best /\ outranks ix (as_score best) (as_member best) e) \/
  (as_member (pick_raise ix best e) = ev_from e /\ as_score (pick_raise ix best e) = raise_score ix e /\
   (as_score best < raise_score ix e \/ (as_score best = raise_score ix e /\ str_le (ev_from e) (as_member best)))).
Proof.
  unfold pick_raise, outranks, raise_score. destruct (scoreCouncilHandRaise ix e) as [[score reason] need]. simpl.
  destruct (better best score (ev_from e)) eqn:Hb; unfold better in Hb; [right|left].
  - split_and!; try done. bool_prop. destruct Hb as [Hb|Hb]; bool_prop; [by left|]. subst score.
    right. split; [done|]. by apply ltb_spec.
  - split; [done|]. bool_prop. destruct H0 as [H0|H0]; bool_prop; [left; lia|].
    apply not_ltb in H0. destruct (decide (score = as_score best)); [by right | left; lia].
Qed.

(** The running best ranks at least as high as everything seen, and is the
    initial selection or one of the raises seen. *)
Lemma pick_fold ix l best :
  let final := foldl (pick_raise ix) best l in
  (forall e, e ∈ l \/ outranks ix (as_score best) (as_member best) e -> outranks ix (as_score final) (as_member final) e) /\
  (final = best \/ exists e, e ∈ l /\ as_member final = ev_from e /\ as_score final = raise_score ix e).
Proof.
  revert best. induction l as [|x l IH]; intros best; simpl.
  - split; [intros e [He|]; [by apply elem_of_nil in He | done] | by left].
  - destruct (IH (pick_raise ix best x)) as [Hall Hone]. split.
    + intros e [[->|He]%elem_of_cons|He]; apply Hall; [right | by left | right].
      * destruct (pick_raise_cases ix best x) as [[-> ?]|(-> & -> & _)]; [done|]. right. by split.
      * destruct (pick_raise_cases ix best x) as [[-> ?]|(-> & -> & Hb)]; [done|]. by eapply outranks_trans.
    + destruct Hone as [->|(e & He & Hm & Hs)]; [|right; exists e; split; [set_solver | done]].
      destruct (pick_raise_cases ix best x) as [[-> _]|(? & ? & _)]; [by left | right; exists x; split; [set_solver | done]].
Qed.

Lemma candidate_spec md ix e :
  e ∈ candidates md ix <->
  e ∈ ix_events ix /\ eligible_raise md (currentCouncilTurn ix) e = true /\ ev_from e <> latestCouncilSpeaker ix.
Proof.
  unfold candidates, currentEligibleHandRaises. rewrite !list_elem_of_In, !filter_In.
  rewrite negb_true_iff, String.eqb_neq. tauto.
Qed.

(** In the quality-aware modes automatic selection fails when no eligible
    raise of the current turn comes from a member other than the last speaker;
    otherwise, once some such raise scores above the initial -2^30, it selects
    the member of an eligible raise whose score no eligible raise exceeds, the
    least name first among equal scores. *)
Theorem auto_speaker_best md ix policy :
  resolveDiscussionQualityPolicy (md_limits md) = Ok policy ->
  dp_mode policy ∈ [discussionQualityWarn; discussionQualityRequired] ->
  (candidates md ix = [] -> exists e, autoCouncilSpeaker md ix = Err e) /\
  ((exists e, e ∈ candidates md ix /\ - 2 ^ 30 < raise_score ix e) ->
   exists sel raise, autoCouncilSpeaker md ix = Ok sel /\ as_member sel = ev_from raise /\
     raise ∈ ix_events ix /\ eligible_raise md (currentCouncilTurn ix) raise = true /\
     ev_from raise <> latestCouncilSpeaker ix /\
     forall e, e ∈ candidates md ix -> outranks ix (raise_score ix raise) (ev_from raise) e).
Proof.
  intros Hp Hm. unfold autoCouncilSpeaker. rewrite Hp. cbn [mbind result_bind].
  apply mem_str_spec in Hm. rewrite Hm. cbn [negb]. unfold candidates.
  destruct (currentEligibleHandRaises md ix _) as [|r0 rs] eqn:Hr.
  { split; [eauto|]. intros (e & He & _). by apply elem_of_nil in He. }
  rewrite <- Hr. fold (candidates md ix). destruct (candidates md ix) as [|c cs] eqn:Hc.
  { split; [eauto|]. intros (e & He & _). by apply elem_of_nil in He. }
  split; [done|]. intros (e & He & Hscore).
  set (init := mk_selection "" (- 2 ^ 30) "" ∅). destruct (pick_fold ix (c :: cs) init) as [Hall Hone].
  destruct Hone as [Hinit|(raise & Hin & Hmem & Hsc)].
  - exfalso. specialize (Hall e (or_introl He)). rewrite Hinit in Hall. destruct Hall as [Hlt|[Heq _]]; simpl in *; lia.
  - exists (foldl (pick_raise ix) init (c :: cs)), raise.
    rewrite <- Hc in Hin. apply candidate_spec in Hin as (? & ? & ?). do 5 (split; [done|]).
    intros x Hx. rewrite <- Hmem, <- Hsc. apply Hall. by left.
Qed.

(** ** Concrete discussion *)

Definition gx_quality : DiscussionQualityLimits := mk_quality "quality_required" 1 true false true 1.

Definition gx_md : SessionMetadata :=
  mk_metadata "sess_council" SessionTypeCouncil StatusOpen "Roadmap" "mod" ["mod"; "ann"; "bob"; "cyd"]
    None None None "" fx_now
    (mk_limits 0 0 0 0 0 0 0 0 0 0 0 0 0 (0, 0) 0 0 0 0 0 0 (Some gx_quality))
    (mk_state PhaseCreated 0 "" 0) fx_snapshot.

Definition gx_claims : any := AMaps [{[ "claim_id" := AStr "c1"; "summary" := AStr "ship weekly" ]}].
Definition gx_links : any :=
  AMaps [{[ "target_event_id" := AStr "evt_s1"; "target_claim_id" := AStr "c1"; "stance" := AStr "challenge";
            "rationale" := AStr "too risky" ]}].

Definition gx_speech1 : EventEnvelope :=
  fx_event gx_md "s1" "speech" "discussion" "ann" ["mod"] {[ "speech" := AStr "weekly"; "claims" := gx_claims; "turn" := AInt 1 ]}.

Definition gx_raise (cmd from : string) (relevance : Z) (p : payload) : EventEnvelope :=
  fx_event gx_md cmd "hand_raise" "discussion" from ["mod"]
    (<["turn" := AInt 2]> (<["relevance" := AInt relevance]> (<["urgency" := AInt 1]> p))).

(** Ann spoke in turn 1; in turn 2 cyd, bob and ann raise their hands. *)
Definition gx_ix : LogIndex :=
  fx_index [fx_created gx_md; gx_speech1; gx_raise "r1" "cyd" 3 {[ "intent" := AStr "support" ]};
            gx_raise "r2" "bob" 2 {[ "intent" := AStr "support"; "target_links" := gx_links ]};
            gx_raise "r3" "ann" 9 ∅].

(** A policy and the reply of bob, which links to ann's claim and makes its own. *)
Definition gx_policy : discussionQualityPolicy :=
  mk_policy "quality_required" "discussion_quality mode resolved from typed limits.council.discussion_quality"
    1 true false true 1.

Definition gx_reply : payload :=
  {[ "speech" := AStr "monthly is safer"; "stance_links" := gx_links; "contribution_type" := AStr "challenge";
     "claims" := AMaps [{[ "claim_id" := AStr "c2"; "summary" := AStr "ship monthly" ]}] ]}.

Definition gx_link : argumentTargetLink := mk_link "evt_s1" "c1" "challenge".

Lemma accepted_links_resolve_witness :
  parseArgumentTargetLinks gx_ix gx_reply "stance_links" true = Ok [gx_link] /\ Forall (resolves gx_ix) [gx_link].
Proof.
  split; [vm_compute; reflexivity|].
  refine (proj1 (accepted_links_resolve gx_ix gx_reply "stance_links" true [gx_link] _)). vm_compute. reflexivity.
Defined.

Definition gx_accepted : payload :=
  <[evidence_key := AMap (priorSpeakerQualityEvidenceForSpeech gx_ix gx_policy gx_reply [gx_link] [])]> gx_reply.

Lemma quality_required_accepts_witness :
  validateArgumentGraphSpeech gx_md gx_ix "bob" 2 gx_reply = Ok gx_accepted /\
  exists claims contribution links, speech_ok gx_ix gx_policy "bob" 2 gx_reply claims contribution links.
Proof.
  assert (H : validateArgumentGraphSpeech gx_md gx_ix "bob" 2 gx_reply = Ok gx_accepted) by (vm_compute; reflexivity).
  split; [exact H|].
  destruct (proj1 (quality_required_accepts gx_md gx_ix "bob" 2 gx_reply gx_accepted gx_policy
              ltac:(vm_compute; reflexivity) ltac:(reflexivity)) H)
    as (claims & has & links & contribution & present & ev & _ & _ & _ & Hok & _).
  exists claims, contribution, links. exact Hok.
Defined.

Lemma auto_speaker_best_witness :
  exists sel raise, autoCouncilSpeaker gx_md gx_ix = Ok sel /\ as_member sel = ev_from raise /\
    ev_from raise <> latestCouncilSpeaker gx_ix /\
    forall e, e ∈ candidates gx_md gx_ix -> outranks gx_ix (raise_score gx_ix raise) (ev_from raise) e.
Proof.
  destruct (auto_speaker_best gx_md gx_ix gx_policy ltac:(vm_compute; reflexivity) ltac:(right; left)) as [_ H].
  destruct H as (sel & raise & ? & ? & _ & _ & ? & ?).
  { exists (gx_raise "r1" "cyd" 3 {[ "intent" := AStr "support" ]}). split; [|vm_compute; reflexivity].
    apply candidate_spec. split_and!; [|vm_compute; reflexivity | vm_compute; discriminate].
    change (ix_events gx_ix) with [fx_created gx_md; gx_speech1; gx_raise "r1" "cyd" 3 {[ "intent" := AStr "support" ]};
            gx_raise "r2" "bob" 2 {[ "intent" := AStr "support"; "target_links" := gx_links ]};
            gx_raise "r3" "ann" 9 ∅]. set_solver. }
  exists sel, raise. split_and!; assumption.
Defined.

(** Bob's linked raise outranks cyd's more relevant one; ann, who just spoke,
    does not count although hers is the most relevant. *)
Example gx_auto : (as_member <$> autoCouncilSpeaker gx_md gx_ix) = Ok "bob".
Proof. vm_compute. reflexivity. Qed.

(** A padded contribution type is accepted as [new_axis] but not counted by
    [consecutiveNewAxisCount], which compares the text as it was sent. *)
Definition gx_axis (cmd text : string) : EventEnvelope :=
  fx_event gx_md cmd "speech" "discussion" "ann" ["mod"]
    {[ "speech" := AStr "x"; "contribution_type" := AStr text; "new_axis_reason" := AStr "gap" ]}.

Example padded_new_axis_not_counted :
  parseContributionType (pl (gx_axis "a1" "new_axis ")) = Ok ("new_axis", true) /\
  consecutiveNewAxisCount (fx_index [gx_axis "a1" "new_axis "]) = 0 /\
  consecutiveNewAxisCount (fx_index [gx_axis "a1" "new_axis"]) = 1.
Proof. vm_compute. done. Qed.
