(* ===== verification/SelectedRunner.v ===== *)
(** * Selected-runner accounting (storage/selected_runner_accounting.go)

    Which selected speakers spoke through their own runner: a scan of the log
    that gathers, per [speaker_selected] event, the runner's start, its success,
    the speech it made and what failed, and a verdict on each. *)

From S2P Require Import Prelude GoValue GoTime Model Ids Evidence Events Closeout ArgumentGraph.

(** ** Rows *)

Record SelectedRunnerDiagnostic := mk_diagnostic {
  dg_code : string; dg_event : string; dg_selected : string; dg_member : string; dg_invocation : string;
  dg_message : string }.

Record SelectedRunnerGrantAccounting := mk_grant_row {
  ga_selected : string; ga_member : string; ga_turn : Z; ga_started : bool; ga_runner_status : string;
  ga_speech_status : string; ga_followup : bool; ga_starts : list string; ga_succeeded : list string;
  ga_invocations : list string; ga_speeches : list string; ga_deliveries : list string;
  ga_evidence : list payload; ga_failures : list string; ga_discards : list string; ga_dispatch : list string;
  ga_pass : bool; ga_status : string }.

Definition appendUniqueString (values : list string) (value : string) : list string :=
  let value := trim_space value in
  if (value == "") || mem_str value values then values else values ++ [value].

Definition new_grant (e : EventEnvelope) (member : string) (turn : Z) (status : string) (followup : bool)
    : SelectedRunnerGrantAccounting :=
  mk_grant_row (ev_event_id e) member turn false "pending" "pending" followup [] [] [] [] [] [] [] [] [] false status.

(** The runner of the grant started. *)
Definition with_start (g : SelectedRunnerGrantAccounting) (eventID invocationID : string) : SelectedRunnerGrantAccounting :=
  mk_grant_row (ga_selected g) (ga_member g) (ga_turn g) true "started" (ga_speech_status g) (ga_followup g)
    (appendUniqueString (ga_starts g) eventID) (ga_succeeded g)
    (if invocationID == "" then ga_invocations g else appendUniqueString (ga_invocations g) invocationID)
    (ga_speeches g) (ga_deliveries g) (ga_evidence g) (ga_failures g) (ga_discards g) (ga_dispatch g) (ga_pass g) (ga_status g).

Definition with_success (g : SelectedRunnerGrantAccounting) (eventID invocationID : string) : SelectedRunnerGrantAccounting :=
  mk_grant_row (ga_selected g) (ga_member g) (ga_turn g) (ga_started g) "succeeded" (ga_speech_status g) (ga_followup g)
    (ga_starts g) (appendUniqueString (ga_succeeded g) eventID) (appendUniqueString (ga_invocations g) invocationID)
    (ga_speeches g) (ga_deliveries g) (ga_evidence g) (ga_failures g) (ga_discards g) (ga_dispatch g) (ga_pass g) (ga_status g).

Definition with_speech (g : SelectedRunnerGrantAccounting) (eventID : string) : SelectedRunnerGrantAccounting :=
  mk_grant_row (ga_selected g) (ga_member g) (ga_turn g) (ga_started g) (ga_runner_status g) "linked_runner_speech"
    (ga_followup g) (ga_starts g) (ga_succeeded g) (ga_invocations g) (appendUniqueString (ga_speeches g) eventID)
    (ga_deliveries g) (ga_evidence g) (ga_failures g) (ga_discards g) (ga_dispatch g) (ga_pass g) (ga_status g).

Inductive terminal_kind := TerminalFailure | TerminalDiscard | DispatchFailure.

Definition with_terminal (g : SelectedRunnerGrantAccounting) (kind : terminal_kind) (status eventID : string)
    : SelectedRunnerGrantAccounting :=
  let add k l := match kind, k with
                 | TerminalFailure, TerminalFailure | TerminalDiscard, TerminalDiscard
                 | DispatchFailure, DispatchFailure => appendUniqueString l eventID
                 | _, _ => l
                 end in
  mk_grant_row (ga_selected g) (ga_member g) (ga_turn g) (ga_started g)
    (if status == "" then ga_runner_status g else status) (ga_speech_status g) (ga_followup g) (ga_starts g)
    (ga_succeeded g) (ga_invocations g) (ga_speeches g) (ga_deliveries g) (ga_evidence g)
    (add TerminalFailure (ga_failures g)) (add TerminalDiscard (ga_discards g)) (add DispatchFailure (ga_dispatch g))
    (ga_pass g) (ga_status g).

(** What the last pass decides of a grant. *)
Definition with_verdict (g : SelectedRunnerGrantAccounting) (pass : bool) (status runner speech : string)
    (deliveries : list string) (evidence : list payload) : SelectedRunnerGrantAccounting :=
  mk_grant_row (ga_selected g) (ga_member g) (ga_turn g) (ga_started g) runner speech (negb pass) (ga_starts g)
    (ga_succeeded g) (ga_invocations g) (ga_speeches g) deliveries evidence (ga_failures g) (ga_discards g)
    (ga_dispatch g) pass status.

(** ** Matching an event with a grant *)

Definition selectedRunnerMember (e : EventEnvelope) : string :=
  let member := payloadStringDefault (pl e) "member" "" in
  trim_space (match ev_to e with
              | [to] => if member == "" then to else member
              | _ => member
              end).

Definition grant_keys : list string := ["selected_event_id"; "speaker_selected_event_id"; "selected_runner_event_id"].

(** The first grant that a payload names. *)
Fixpoint named_grant (p : payload) (grants : gmap string nat) (keys : list string) : option string :=
  match keys with
  | [] => None
  | key :: rest =>
      let id := payloadStringDefault p key "" in
      if (id != "") && bool_decide (is_Some (grants !! id)) then Some id else named_grant p grants rest
  end.

Definition runner_invocation (e : EventEnvelope) : string :=
  match ev_runner e with
  | Some r => rn_invocation_id r
  | None => ""
  end.

(** The empty text when the event belongs to no grant. *)
Definition matchingSelectedGrant (e : EventEnvelope) (grants : gmap string nat) (invocations : gmap string string) : string :=
  let bound := if runner_invocation e == "" then "" else default "" (invocations !! runner_invocation e) in
  if bound != "" then bound
  else
    match named_grant (pl e) grants grant_keys with
    | Some id => id
    | None =>
        if (ev_causation_event_id e != "") && bool_decide (is_Some (grants !! ev_causation_event_id e))
        then ev_causation_event_id e else ""
    end.

Definition selectedGrantForSpeech (e : EventEnvelope) (grants : gmap string nat) : string :=
  match named_grant (pl e) grants grant_keys with
  | Some id => id
  | None => if bool_decide (is_Some (grants !! ev_causation_event_id e)) then ev_causation_event_id e else ""
  end.

Definition selectedRunnerSpeechTurn (e : EventEnvelope) : Z :=
  match payloadInt (pl e) "turn" with
  | Some turn => turn
  | None => default 0 (ev_turn e)
  end.

Definition linkedRunnerSpeechMatchesGrant (e : EventEnvelope) (g : SelectedRunnerGrantAccounting) : bool :=
  match ev_runner e with
  | None => false
  | Some r =>
      (rn_status r == "succeeded") &&
      (ga_member g != "") && (ev_from e == ga_member g) && (rn_member r == ga_member g) &&
      (0 <? ga_turn g) && (selectedRunnerSpeechTurn e =? ga_turn g) &&
      (rn_invocation_id r != "") && mem_str (rn_invocation_id r) (ga_invocations g) &&
      (selectedGrantForSpeech e {[ ga_selected g := 0%nat ]} == ga_selected g)
  end.

(** ** Manual and fallback speech *)

Definition truthyOrNonEmpty (value : any) : bool :=
  match value with
  | ABool b => b
  | AStr s => negb (is_blank s) && (trim_space s != "false")
  | ANil => false
  | _ => true
  end.

Definition manual_flags : list string :=
  ["manual"; "manual_speech"; "manual_profile"; "fallback"; "fallback_profile"; "fallback_profile_pass";
   "manual_or_fallback"; "runnerless"].

Definition manualOrFallbackSpeech (e : EventEnvelope) : bool :=
  match ev_runner e with
  | Some _ => false
  | None =>
      (ev_type e == "speech") &&
      (existsb (fun key => match pl e !! key with Some v => truthyOrNonEmpty v | None => false end) manual_flags ||
       existsb (fun key =>
         let value := to_lower (payloadStringDefault (pl e) key "") in
         contains value "manual" || contains value "fallback" || contains value "runnerless")
         ["source"; "source_kind"; "speech_source"; "mode"; "profile_mode"])
  end.

(** ** Delivery evidence *)

(** transcript.go [deliveryEvidenceStatus], the status alone *)
Definition posted_pointers : list string :=
  ["final_message_id"; "message_id"; "message_ref"; "kanban_comment_id"; "vault_decision_note"; "evidence"].

Definition deliveryEvidenceStatus (p : payload) : string :=
  if bool_decide (p = ∅) then "missing/unproven"
  else
    let status := trim_space (map_string p "status") in
    if status == "" then
      if hasAnyEvidencePointer p ["failure_reason"; "reason"] then "failed"
      else if hasAnyEvidencePointer p ["followup_card_id"; "pending_review"; "handoff"] then "pending_followup"
      else if hasAnyEvidencePointer p posted_pointers then "posted"
      else "missing/unproven"
    else
      let proven :=
        if status == "posted" then hasAnyEvidencePointer p posted_pointers
        else if status == "failed" then hasAnyEvidencePointer p ["failure_reason"; "reason"]
        else if status == "pending_followup" then
          hasAnyEvidencePointer p ["followup_card_id"; "pending_review"; "handoff"; "reason"]
        else false in
      if proven then status else "missing/unproven".

Definition evidence_keys : list string := ["surface_evidence"; "plugin_evidence"; "delivery_evidence"; "evidence"].

Definition text_of (p : payload) (key : string) : string := trim_space (anyString p [key]).

Definition selectedRunnerDeliveryLinksSpeech (evidence : payload) (speechEventID : string) : bool :=
  existsb (fun key => text_of evidence key == speechEventID)
    ["references_event_id"; "speech_event_id"; "event_id"; "source_event_id"].

Definition requiresSelectedRunnerDeliveryProof (md : SessionMetadata) : bool :=
  match md_surface md with
  | Some s => su_kind s == "discord_thread"
  | None => false
  end.

(** A configured value, when there is one, that the evidence must repeat: the
    code and message when it is absent, and when it differs. *)
Definition must_repeat (expected observed : string) (absent differs : string * string) : option (string * string) :=
  let expected := trim_space expected in
  if expected == "" then None
  else if observed == "" then Some absent
  else if observed != expected then Some differs
  else None.

(** The first problem of a list of checks. *)
Fixpoint first_problem (l : list (option (string * string))) : option (string * string) :=
  match l with
  | [] => None
  | Some problem :: _ => Some problem
  | None :: rest => first_problem rest
  end.

Definition problem_when (b : bool) (code message : string) : option (string * string) :=
  if b then Some (code, message) else None.

(** The problem of the delivery evidence of a speech. *)
Definition delivery_problem (s : Surface) (member : string) (e : EventEnvelope) : option (string * string) :=
  match anyMap (pl e) evidence_keys with
  | None => Some ("missing_selected_runner_delivery_evidence",
                  "selected-runner speech has no bound-thread visible delivery evidence")
  | Some ev =>
      let status := deliveryEvidenceStatus ev in
      first_problem
        [problem_when (status != "posted") "selected_runner_delivery_status_not_posted"
           ("selected-runner speech visible delivery is " +:+ status +:+ ", not posted");
         problem_when (text_of ev "kind" != "discord_thread") "selected_runner_delivery_kind_invalid"
           "selected-runner delivery evidence must identify kind=discord_thread";
         must_repeat (su_platform s) (text_of ev "platform")
           ("missing_selected_runner_delivery_platform", "selected-runner delivery evidence must include platform")
           ("selected_runner_delivery_platform_mismatch",
            "selected-runner delivery evidence platform does not match the configured council surface");
         must_repeat (su_channel_id s) (text_of ev "channel_id")
           ("missing_selected_runner_delivery_channel_id",
            "selected-runner delivery evidence must include the configured channel_id")
           ("selected_runner_delivery_channel_mismatch",
            "selected-runner delivery evidence channel does not match the configured council channel");
         problem_when (text_of ev "message_id" == "") "missing_selected_runner_delivery_message_id"
           "selected-runner delivery evidence must include a real message_id";
         problem_when (text_of ev "posting_path" != "selected_member_profile_send")
           "selected_runner_delivery_posting_path_invalid"
           "selected-runner delivery evidence must use selected_member_profile_send posting path";
         problem_when (text_of ev "sender_member" != member) "selected_runner_delivery_sender_mismatch"
           "selected-runner delivery evidence sender_member must match the selected member";
         must_repeat (su_thread_id s) (text_of ev "thread_id")
           ("missing_selected_runner_delivery_thread_id",
            "selected-runner delivery evidence must include the configured thread_id")
           ("selected_runner_delivery_thread_mismatch",
            "selected-runner delivery evidence thread does not match the configured council thread");
         problem_when (negb (selectedRunnerDeliveryLinksSpeech ev (ev_event_id e))) "selected_runner_delivery_unlinked"
           "selected-runner delivery evidence must link to the canonical speech event"]
  end.

Definition no_surface : Surface := mk_surface "" "" "" "" "" "" "" "".

Definition selectedRunnerSpeechDeliveryDiagnostic (md : SessionMetadata) (g : SelectedRunnerGrantAccounting)
    (e : EventEnvelope) : option SelectedRunnerDiagnostic :=
  let invocation :=
    match ev_runner e with
    | Some r => if is_blank (rn_invocation_id r)
                then firstNonEmptyString [payloadStringDefault (pl e) "runner_invocation_id" "";
                                          payloadStringDefault (pl e) "invocation_id" ""]
                else rn_invocation_id r
    | None => firstNonEmptyString [payloadStringDefault (pl e) "runner_invocation_id" "";
                                   payloadStringDefault (pl e) "invocation_id" ""]
    end in
  (fun problem => mk_diagnostic problem.1 (ev_event_id e) (ga_selected g) (ga_member g) invocation problem.2)
  <$> delivery_problem (default no_surface (md_surface md)) (ga_member g) e.

(** The first linked speech decides: the event that proves the delivery, or what
    is wrong with it. *)
Fixpoint delivery_of (md : SessionMetadata) (g : SelectedRunnerGrantAccounting) (linked : gmap string EventEnvelope)
    (speeches : list string) : result SelectedRunnerDiagnostic string :=
  match speeches with
  | [] =>
      Err (mk_diagnostic "missing_selected_runner_delivery_evidence" "" (ga_selected g) (ga_member g) ""
             "selected-runner speech has no bound-thread visible delivery evidence")
  | id :: rest =>
      match linked !! id with
      | None => delivery_of md g linked rest
      | Some e =>
          match selectedRunnerSpeechDeliveryDiagnostic md g e with
          | None => Ok (ev_event_id e)
          | Some d => Err d
          end
      end
  end.

Definition selectedRunnerDeliveryDiagnostic (md : SessionMetadata) (g : SelectedRunnerGrantAccounting)
    (linked : gmap string EventEnvelope) : result SelectedRunnerDiagnostic string :=
  if requiresSelectedRunnerDeliveryProof md then delivery_of md g linked (ga_speeches g) else Ok "".

Definition default_text (key value : string) (p : payload) : payload :=
  if text_of p key == "" then <[key := AStr value]> p else p.

Definition selectedRunnerLinkedDeliveryEvidence (e : EventEnvelope) : option payload :=
  (fun ev =>
     let p1 := default_text "delivered_event_id" (ev_event_id e) ev in
     let p2 := if is_blank (ev_event_id e) then p1 else default_text "references_event_id" (ev_event_id e) p1 in
     default_text "source" "selected_runner_surface_evidence" p2)
  <$> anyMap (pl e) evidence_keys.

Definition visibleDeliveryEvidencePosted (md : SessionMetadata) (ev : payload) : bool :=
  let kind := text_of ev "kind" in
  let platform := text_of ev "platform" in
  let messageID := text_of ev "message_id" in
  let agrees expected observed := (trim_space expected == "") || (observed == trim_space expected) in
  (deliveryEvidenceStatus ev == "posted") &&
  ((kind == "visible_discord_message") || (kind == "discord_thread") || (platform == "discord") && (messageID != "")) &&
  match md_surface md with
  | None => true
  | Some s =>
      ((platform == "") || agrees (su_platform s) platform) &&
      agrees (su_channel_id s) (text_of ev "channel_id") && agrees (su_thread_id s) (text_of ev "thread_id")
  end && (messageID != "").

(** One evidence key: an object, a list of objects, or nothing of use. *)
Definition evidence_at (p : payload) (key : string) : list payload :=
  match anyMap p [key] with
  | Some ev => [ev]
  | None =>
      match p !! key with
      | Some v => default [] (rawObjectSlice v)
      | None => []
      end
  end.

Definition visibleDeliveryEvidenceItems (e : EventEnvelope) : list payload := concat (map (evidence_at (pl e)) evidence_keys).

(** ** Visible echoes

    A runnerless speech that only repeats, on the visible surface, a speech that
    a runner made and delivered. *)

(** The scan: the grants in the order of their selection, where each is, the
    grant of each invocation, and per member and turn the delivered speech with
    its message. *)
Record echo_scan := mk_echo_scan {
  es_grants : list SelectedRunnerGrantAccounting; es_index : gmap string nat; es_bound : gmap string string;
  es_canonical : gmap (string * Z) (string * string) }.

Definition grant_turn (e : EventEnvelope) : Z :=
  match payloadInt (pl e) "turn" with
  | Some turn => if 0 <? turn then turn else 0
  | None => 0
  end.

(** The grant an event belongs to, and where it is. *)
Definition grant_of (grants : list SelectedRunnerGrantAccounting) (index : gmap string nat) (bound : gmap string string)
    (e : EventEnvelope) : option (nat * SelectedRunnerGrantAccounting) :=
  let id := matchingSelectedGrant e index bound in
  if id == "" then None
  else let i := default 0%nat (index !! id) in pair i <$> grants !! i.

Definition member_differs (g : SelectedRunnerGrantAccounting) (r : RunnerInfo) : bool :=
  (ga_member g != "") && (rn_member r != ga_member g).

Definition bind_invocation (bound : gmap string string) (invocationID selected : string) : gmap string string :=
  if invocationID == "" then bound else <[invocationID := selected]> bound.

Definition echo_step (md : SessionMetadata) (s : echo_scan) (e : EventEnvelope) : echo_scan :=
  let set grants bound := mk_echo_scan grants (es_index s) bound (es_canonical s) in
  if ev_type e == "speaker_selected" then
    let g := new_grant e (selectedRunnerMember e) (grant_turn e) "" false in
    mk_echo_scan (es_grants s ++ [g]) (<[ev_event_id e := length (es_grants s)]> (es_index s)) (es_bound s) (es_canonical s)
  else
    match grant_of (es_grants s) (es_index s) (es_bound s) e, ev_runner e with
    | Some (i, g), Some r =>
        if ev_type e == "runner_invocation_started" then
          if member_differs g r then s
          else set (<[i := with_start g (ev_event_id e) (rn_invocation_id r)]> (es_grants s))
                 (bind_invocation (es_bound s) (rn_invocation_id r) (ga_selected g))
        else if ev_type e == "runner_invocation_succeeded" then
          if (rn_status r != "succeeded") || member_differs g r || (rn_invocation_id r == "") then s
          else set (<[i := with_success g (ev_event_id e) (rn_invocation_id r)]> (es_grants s)) (es_bound s)
        else if ev_type e == "speech" then
          let ev := default ∅ (anyMap (pl e) evidence_keys) in
          let messageID := text_of ev "message_id" in
          if negb (ga_started g) || bool_decide (ga_succeeded g = []) || negb (linkedRunnerSpeechMatchesGrant e g) ||
             requiresSelectedRunnerDeliveryProof md && bool_decide (is_Some (selectedRunnerSpeechDeliveryDiagnostic md g e)) ||
             negb (visibleDeliveryEvidencePosted md ev) || (messageID == "")
          then s
          else mk_echo_scan (es_grants s) (es_index s) (es_bound s)
                 (<[(trim_space (ev_from e), selectedRunnerSpeechTurn e) := (ev_event_id e, messageID)]> (es_canonical s))
        else s
    | _, _ => s
    end.

Definition visibleDeliveryEchoMatchesCanonical (md : SessionMetadata) (e : EventEnvelope) (canonical : string * string) : bool :=
  existsb (fun ev =>
    visibleDeliveryEvidencePosted md ev &&
    (selectedRunnerDeliveryLinksSpeech ev canonical.1 ||
     (text_of ev "message_id" != "") && (text_of ev "message_id" == canonical.2)))
    (visibleDeliveryEvidenceItems e).

Definition is_echo (md : SessionMetadata) (canonical : gmap (string * Z) (string * string)) (e : EventEnvelope) : bool :=
  (ev_type e == "speech") && bool_decide (ev_runner e = None) && (ev_event_id e != "") && negb (manualOrFallbackSpeech e) &&
  (trim_space (ev_from e) != "") && (0 <? selectedRunnerSpeechTurn e) &&
  match canonical !! (trim_space (ev_from e), selectedRunnerSpeechTurn e) with
  | Some c => visibleDeliveryEchoMatchesCanonical md e c
  | None => false
  end.

Definition selectedRunnerVisibleDeliveryEchoEventIDs (md : SessionMetadata) (ix : LogIndex) : gset string :=
  let canonical := es_canonical (foldl (echo_step md) (mk_echo_scan [] ∅ ∅ ∅) (ix_events ix)) in
  list_to_set (map ev_event_id (List.filter (is_echo md canonical) (ix_events ix))).

(** ** The accounting *)

Record counts := mk_counts {
  ct_selected : Z; ct_started : Z; ct_succeeded : Z; ct_failed : Z; ct_discards : Z; ct_dispatch : Z;
  ct_linked : Z; ct_echoes : Z; ct_runnerless : Z; ct_manual : Z }.

Definition no_counts : counts := mk_counts 0 0 0 0 0 0 0 0 0 0.

Definition add_counts (a b : counts) : counts :=
  mk_counts (ct_selected a + ct_selected b) (ct_started a + ct_started b) (ct_succeeded a + ct_succeeded b)
    (ct_failed a + ct_failed b) (ct_discards a + ct_discards b) (ct_dispatch a + ct_dispatch b)
    (ct_linked a + ct_linked b) (ct_echoes a + ct_echoes b) (ct_runnerless a + ct_runnerless b) (ct_manual a + ct_manual b).

(** The state of the scan.  [sc_linked] has the linked speeches by event id. *)
Record scan := mk_scan {
  sc_grants : list SelectedRunnerGrantAccounting; sc_index : gmap string nat; sc_bound : gmap string string;
  sc_done : gset string; sc_linked : gmap string EventEnvelope; sc_counts : counts;
  sc_diagnostics : list SelectedRunnerDiagnostic }.

Definition empty_scan : scan := mk_scan [] ∅ ∅ ∅ ∅ no_counts [].

(** A change of the grants, the diagnostics and the counts. *)
Definition scanned (s : scan) (grants : list SelectedRunnerGrantAccounting) (c : counts)
    (ds : list SelectedRunnerDiagnostic) : scan :=
  mk_scan grants (sc_index s) (sc_bound s) (sc_done s) (sc_linked s) (add_counts (sc_counts s) c) (sc_diagnostics s ++ ds).

Definition runner_diagnostic (code message : string) (g : SelectedRunnerGrantAccounting) (e : EventEnvelope)
    (r : RunnerInfo) : SelectedRunnerDiagnostic :=
  mk_diagnostic code (ev_event_id e) (ga_selected g) (rn_member r) (rn_invocation_id r) message.

Definition scan_selected (s : scan) (e : EventEnvelope) : scan :=
  let member := selectedRunnerMember e in
  let g := new_grant e member (grant_turn e) "pending" true in
  mk_scan (sc_grants s ++ [g]) (<[ev_event_id e := length (sc_grants s)]> (sc_index s)) (sc_bound s) (sc_done s)
    (sc_linked s) (add_counts (sc_counts s) (mk_counts 1 0 0 0 0 0 0 0 0 0))
    (sc_diagnostics s ++
     if 0 <? grant_turn e then []
     else [mk_diagnostic "missing_selected_turn_evidence" "" (ev_event_id e) member ""
             "selected speaker has no positive selected-turn evidence"]).

Definition scan_started (s : scan) (e : EventEnvelope) : scan :=
  let one := mk_counts 0 1 0 0 0 0 0 0 0 0 in
  match grant_of (sc_grants s) (sc_index s) (sc_bound s) e, ev_runner e with
  | Some (i, g), Some r =>
      if member_differs g r then
        scanned s (sc_grants s) one
          [runner_diagnostic "runner_start_member_mismatch" "runner start did not match selected speaker member" g e r]
      else
        mk_scan (<[i := with_start g (ev_event_id e) (rn_invocation_id r)]> (sc_grants s)) (sc_index s)
          (bind_invocation (sc_bound s) (rn_invocation_id r) (ga_selected g)) (sc_done s) (sc_linked s)
          (add_counts (sc_counts s) one) (sc_diagnostics s)
  | _, _ => scanned s (sc_grants s) one []
  end.

Definition scan_succeeded (s : scan) (e : EventEnvelope) : scan :=
  match grant_of (sc_grants s) (sc_index s) (sc_bound s) e, ev_runner e with
  | Some (i, g), Some r =>
      let mismatch code message := scanned s (sc_grants s) no_counts [runner_diagnostic code message g e r] in
      if rn_status r != "succeeded" then
        mismatch "runner_invocation_succeeded_status_not_succeeded"
          "runner_invocation_succeeded must have runner.status succeeded to count as selected-runner pass"
      else if member_differs g r then
        mismatch "runner_success_member_mismatch" "runner success did not match selected speaker member"
      else if rn_invocation_id r == "" then s
      else
        let known := bool_decide (rn_invocation_id r ∈ sc_done s) in
        mk_scan (<[i := with_success g (ev_event_id e) (rn_invocation_id r)]> (sc_grants s)) (sc_index s) (sc_bound s)
          ({[rn_invocation_id r]} ∪ sc_done s) (sc_linked s)
          (add_counts (sc_counts s) (mk_counts 0 0 (if known then 0 else 1) 0 0 0 0 0 0 0)) (sc_diagnostics s)
  | _, _ => s
  end.

Definition scan_runnerless (echoes : gset string) (s : scan) (e : EventEnvelope) : scan :=
  if bool_decide (ev_event_id e ∈ echoes) then scanned s (sc_grants s) (mk_counts 0 0 0 0 0 0 0 1 0 0) []
  else
    let grantID := selectedGrantForSpeech e (sc_index s) in
    let about code message := if grantID == "" then [] else [mk_diagnostic code (ev_event_id e) grantID (ev_from e) "" message] in
    let manual := manualOrFallbackSpeech e in
    scanned s (sc_grants s) (mk_counts 0 0 0 0 0 0 0 0 1 (if manual then 1 else 0))
      (about "runnerless_speech_not_selected_runner_evidence" "runnerless speech is lifecycle/fallback evidence only" ++
       if manual then about "manual_or_fallback_speech_not_selected_runner_evidence"
                        "manual/fallback speech must not repair selected_runner_pass"
       else []).

Definition scan_speech (echoes : gset string) (s : scan) (e : EventEnvelope) : scan :=
  match ev_runner e with
  | None => scan_runnerless echoes s e
  | Some r =>
      match grant_of (sc_grants s) (sc_index s) (sc_bound s) e with
      | None => s
      | Some (i, g) =>
          if rn_status r != "succeeded" then
            scanned s (sc_grants s) no_counts
              [runner_diagnostic "linked_runner_speech_status_not_succeeded"
                 "linked runner speech must have runner.status succeeded to count as selected-runner pass" g e r]
          else if linkedRunnerSpeechMatchesGrant e g then
            mk_scan (<[i := with_speech g (ev_event_id e)]> (sc_grants s)) (sc_index s) (sc_bound s) (sc_done s)
              (<[ev_event_id e := e]> (sc_linked s)) (add_counts (sc_counts s) (mk_counts 0 0 0 0 0 0 1 0 0 0))
              (sc_diagnostics s)
          else
            scanned s (sc_grants s) no_counts
              [runner_diagnostic "linked_runner_speech_mismatch"
                 "runner speech did not match selected member, turn, invocation, and selected-event causation" g e r]
      end
  end.

Definition kind_text (kind : terminal_kind) : string :=
  match kind with
  | TerminalFailure => "terminal_failure"
  | TerminalDiscard => "terminal_discard"
  | DispatchFailure => "dispatch_failure"
  end.

Definition selectedRunnerTerminalEventStatus (e : EventEnvelope) (kind : terminal_kind) : string :=
  let status := match ev_runner e with Some r => trim_space (rn_status r) | None => "" end in
  if status != "" then status
  else if payloadStringDefault (pl e) "reason" "" == "dispatch_timeout" then "timeout"
  else
    let errorClass := payloadStringDefault (pl e) "error_class" "" in
    if errorClass != "" then if errorClass == "dispatch_timeout" then "timeout" else errorClass
    else match kind with
         | TerminalDiscard => "discarded_after_cancel"
         | DispatchFailure => "dispatch_failed"
         | TerminalFailure => "failed"
         end.

Definition runnerMember (e : EventEnvelope) : string :=
  match ev_runner e with
  | Some r => rn_member r
  | None => ""
  end.

(** [recordSelectedRunnerTerminal], with the count of its caller. *)
Definition scan_terminal (kind : terminal_kind) (s : scan) (e : EventEnvelope) : scan :=
  let one := match kind with
             | TerminalFailure => mk_counts 0 0 0 1 0 0 0 0 0 0
             | TerminalDiscard => mk_counts 0 0 0 0 1 0 0 0 0 0
             | DispatchFailure => mk_counts 0 0 0 0 0 1 0 0 0 0
             end in
  match grant_of (sc_grants s) (sc_index s) (sc_bound s) e with
  | None => scanned s (sc_grants s) one []
  | Some (i, g) =>
      scanned s (<[i := with_terminal g kind (selectedRunnerTerminalEventStatus e kind) (ev_event_id e)]> (sc_grants s)) one
        [mk_diagnostic ("selected_runner_" +:+ kind_text kind) (ev_event_id e) (ga_selected g)
           (firstNonEmptyString [runnerMember e; payloadStringDefault (pl e) "selected_member" ""]) (runner_invocation e)
           (ev_type e +:+ " blocks selected_runner_pass")]
  end.

Definition scan_step (echoes : gset string) (s : scan) (e : EventEnvelope) : scan :=
  let a t := ev_type e == t in
  if a "speaker_selected" then scan_selected s e
  else if a "runner_invocation_started" then scan_started s e
  else if a "runner_invocation_succeeded" then scan_succeeded s e
  else if a "speech" then scan_speech echoes s e
  else if a "runner_invocation_failed" then scan_terminal TerminalFailure s e
  else if a "runner_result_discarded" then scan_terminal TerminalDiscard s e
  else if a "selected_runner_dispatch_failed" then scan_terminal DispatchFailure s e
  else s.

(** *** The verdict on a grant *)

Definition selectedRunnerTerminalStatus (g : SelectedRunnerGrantAccounting) : string :=
  if mem_str (ga_runner_status g) [""; "pending"; "started"] then
    match ga_discards g, ga_dispatch g, ga_failures g with
    | _ :: _, _, _ => "discarded_after_cancel"
    | _, _ :: _, _ => "dispatch_failed"
    | _, _, _ :: _ => "failed"
    | _, _, _ => firstNonEmptyString [ga_runner_status g; "pending"]
    end
  else ga_runner_status g.

Definition missing (code message : string) (g : SelectedRunnerGrantAccounting) : SelectedRunnerDiagnostic :=
  mk_diagnostic code "" (ga_selected g) (ga_member g) "" message.

Definition nonempty {A} (l : list A) : bool :=
  match l with
  | [] => false
  | _ => true
  end.

Definition grant_verdict (md : SessionMetadata) (linked : gmap string EventEnvelope) (g : SelectedRunnerGrantAccounting)
    : SelectedRunnerGrantAccounting * list SelectedRunnerDiagnostic :=
  let refuse status runner speech ds := (with_verdict g false status runner speech (ga_deliveries g) (ga_evidence g), ds) in
  let unlinked := if nonempty (ga_speeches g) then ga_speech_status g else "missing_linked_runner_speech" in
  let pass deliveries evidence :=
    (with_verdict g true "selected_runner_pass" "succeeded" "linked_runner_speech" deliveries evidence, []) in
  if nonempty (ga_failures g) || nonempty (ga_discards g) || nonempty (ga_dispatch g) then
    refuse "runner_terminal_failure"
      (if mem_str (ga_runner_status g) [""; "pending"; "started"] then selectedRunnerTerminalStatus g else ga_runner_status g)
      unlinked []
  else if ga_turn g <=? 0 then
    refuse "missing_selected_turn_evidence" (firstNonEmptyString [ga_runner_status g; "pending"]) unlinked
      [missing "missing_selected_turn_evidence" "selected-runner pass requires positive selected-turn evidence" g]
  else if negb (ga_started g) then
    refuse "missing_runner_invocation_started" "missing_runner_invocation_started" "missing_linked_runner_speech"
      [missing "missing_runner_invocation_started" "selected speaker has no selected-runner start evidence" g]
  else if negb (nonempty (ga_succeeded g)) then
    refuse "missing_runner_invocation_succeeded"
      (if mem_str (ga_runner_status g) [""; "pending"] then "started" else ga_runner_status g) "missing_linked_runner_speech"
      [missing "missing_runner_invocation_succeeded"
         "selected-runner start has no runner_invocation_succeeded evidence" g]
  else if negb (nonempty (ga_speeches g)) then
    refuse "missing_linked_runner_speech" (firstNonEmptyString [ga_runner_status g; "succeeded"]) "missing_linked_runner_speech"
      [missing "missing_linked_runner_speech" "selected-runner start has no linked canonical speech" g]
  else if requiresSelectedRunnerDeliveryProof md then
    match selectedRunnerDeliveryDiagnostic md g linked with
    | Err d => refuse (dg_code d) (firstNonEmptyString [ga_runner_status g; "succeeded"]) "linked_runner_speech" [d]
    | Ok eventID =>
        pass (appendUniqueString (ga_deliveries g) eventID)
          (ga_evidence g ++ match linked !! eventID with
                            | Some e => match selectedRunnerLinkedDeliveryEvidence e with Some ev => [ev] | None => [] end
                            | None => []
                            end)
    end
  else pass (ga_deliveries g) (ga_evidence g).

(** *** Diagnostics without repetitions, in order *)

Definition diagnostic_key (d : SelectedRunnerDiagnostic) : string :=
  dg_code d +:+ nul +:+ dg_event d +:+ nul +:+ dg_selected d +:+ nul +:+ dg_invocation d.

Fixpoint unique_diagnostics (seen : list string) (ds : list SelectedRunnerDiagnostic) : list SelectedRunnerDiagnostic :=
  match ds with
  | [] => []
  | d :: rest =>
      if mem_str (diagnostic_key d) seen then unique_diagnostics seen rest
      else d :: unique_diagnostics (diagnostic_key d :: seen) rest
  end.

Definition str_less (a b : string) : bool := match String.compare a b with Lt => true | _ => false end.

Definition diagnostic_less (a b : SelectedRunnerDiagnostic) : bool :=
  if dg_selected a != dg_selected b then str_less (dg_selected a) (dg_selected b)
  else if dg_event a != dg_event b then str_less (dg_event a) (dg_event b)
  else str_less (dg_code a) (dg_code b).

(** sort.SliceStable: insertion behind what is not greater. *)
Fixpoint stable_insert {A} (less : A -> A -> bool) (x : A) (l : list A) : list A :=
  match l with
  | [] => [x]
  | y :: rest => if less x y then x :: l else y :: stable_insert less x rest
  end.

Definition stable_sort {A} (less : A -> A -> bool) (l : list A) : list A := foldl (fun acc x => stable_insert less x acc) [] l.

Definition uniqueSelectedRunnerDiagnostics (ds : list SelectedRunnerDiagnostic) : list SelectedRunnerDiagnostic :=
  stable_sort diagnostic_less (unique_diagnostics [] ds).

(** *** The result *)

Record SelectedRunnerAccounting := mk_accounting {
  sa_pass : bool; sa_counts : counts; sa_diagnostics : list SelectedRunnerDiagnostic;
  sa_runners : list SelectedRunnerGrantAccounting }.

Definition scan_log (md : SessionMetadata) (ix : LogIndex) : scan :=
  foldl (scan_step (selectedRunnerVisibleDeliveryEchoEventIDs md ix)) empty_scan (ix_events ix).

Definition SelectedRunnerAccountingFromIndex (md : SessionMetadata) (ix : LogIndex) : SelectedRunnerAccounting :=
  let s := scan_log md ix in
  let verdicts := map (grant_verdict md (sc_linked s)) (sc_grants s) in
  mk_accounting (nonempty (sc_grants s) && forallb (fun v => ga_pass v.1) verdicts) (sc_counts s)
    (uniqueSelectedRunnerDiagnostics (sc_diagnostics s ++ concat (map snd verdicts))) (map fst verdicts).

(** ** The prerequisite of the next step (selectedRunnerEvidenceFromAccounting) *)

Record SelectedRunnerPrerequisite := mk_prerequisite {
  pq_ready : bool; pq_status : string; pq_blocking : list string; pq_evidence : list string }.

(** runtime_readiness.go [uniqueSorted] *)
Definition uniqueSorted (values : list string) : list string := sort_strings (foldl appendUniqueString [] values).

Definition selectedRunnerEvidenceFromAccounting (a : SelectedRunnerAccounting) (speakerEventID : string)
    : SelectedRunnerPrerequisite :=
  match find_first (fun g => ga_selected g == speakerEventID) (sa_runners a) with
  | None => mk_prerequisite false "missing_selected_runner_prerequisite" ["missing_selected_runner_prerequisite"] []
  | Some g =>
      if ga_pass g then
        mk_prerequisite true "selected_runner_pass" [] (uniqueSorted (ga_succeeded g ++ ga_speeches g ++ ga_deliveries g))
      else
        mk_prerequisite false (ga_status g) [ga_status g]
          (uniqueSorted (ga_failures g ++ ga_discards g ++ ga_dispatch g ++ ga_starts g ++ ga_succeeded g ++ ga_speeches g))
  end.

#[global] Arguments grant_verdict : simpl never.
#[global] Arguments scan_step : simpl never.
#[global] Arguments linkedRunnerSpeechMatchesGrant : simpl never.
#[global] Arguments matchingSelectedGrant : simpl never.
