(* ===== verification/SelectedRunnerTheory.v ===== *)
(** * Correctness of selected-runner accounting

    A selected speaker whose runner was invoked once passes exactly when the events
    that belong to its selection prove it: one invocation started, succeeded and led
    to the speech, nothing failed, and the speech was delivered where that is
    required. *)

From S2P Require Import Prelude GoValue GoTime Model Ids Evidence Events Closeout ArgumentGraph SelectedRunner Fixtures.

(** ** The specification

    Which selection an event belongs to, from the selections so far and the
    invocations that they started. *)

Record ownership := mk_ownership {
  ow_known : gmap string EventEnvelope; ow_bound : gmap string string; ow_events : gmap string (list EventEnvelope) }.

Definition nobody : ownership := mk_ownership ∅ ∅ ∅.

Definition owner (o : ownership) (e : EventEnvelope) : string :=
  matchingSelectedGrant e ((fun _ => 0%nat) <$> ow_known o) (ow_bound o).

(** The runner event is one of the selected member. *)
Definition of_member (s : EventEnvelope) (r : RunnerInfo) : Prop :=
  selectedRunnerMember s = "" \/ rn_member r = selectedRunnerMember s.

Definition starts (s e : EventEnvelope) : Prop :=
  ev_type e = "runner_invocation_started" /\ exists r, ev_runner e = Some r /\ of_member s r.

#[global] Instance of_member_dec s r : Decision (of_member s r).
Proof. unfold of_member. apply _. Defined.

#[global] Instance starts_dec s e : Decision (starts s e).
Proof.
  unfold starts. destruct (decide (ev_type e = "runner_invocation_started")) as [H|H]; [|right; by intros [? _]].
  destruct (ev_runner e) as [r|]; [|right; by intros (_ & r & ? & _)].
  destruct (decide (of_member s r)) as [Hm|Hm]; [left; eauto|]. right. by intros (_ & r' & [= <-] & ?).
Defined.

Definition own_step (o : ownership) (e : EventEnvelope) : ownership :=
  if ev_type e == "speaker_selected" then mk_ownership (<[ev_event_id e := e]> (ow_known o)) (ow_bound o) (ow_events o)
  else
    let id := owner o e in
    match ow_known o !! id with
    | None => o
    | Some s =>
        mk_ownership (ow_known o)
          (if decide (starts s e) then bind_invocation (ow_bound o) (runner_invocation e) id else ow_bound o)
          (<[id := default [] (ow_events o !! id) ++ [e]]> (ow_events o))
    end.

(** The events of a log that belong to the selection [id], in order. *)
Definition owned (l : list EventEnvelope) (id : string) : list EventEnvelope :=
  default [] (ow_events (foldl own_step nobody l) !! id).

Definition succeeds (s e : EventEnvelope) : Prop :=
  ev_type e = "runner_invocation_succeeded" /\
  exists r, ev_runner e = Some r /\ rn_status r = "succeeded" /\ of_member s r /\ rn_invocation_id r <> "".

Definition fails (e : EventEnvelope) : Prop :=
  ev_type e = "runner_invocation_failed" \/ ev_type e = "runner_result_discarded" \/
  ev_type e = "selected_runner_dispatch_failed".

(** The speech [e] is the selected member's, at the selected turn, by an
    invocation that [before] knows, and names the selection. *)
Definition links (s : EventEnvelope) (before : list EventEnvelope) (e : EventEnvelope) : Prop :=
  ev_type e = "speech" /\
  exists r, ev_runner e = Some r /\ rn_status r = "succeeded" /\ selectedRunnerMember s <> "" /\
    ev_from e = selectedRunnerMember s /\ rn_member r = selectedRunnerMember s /\
    0 < grant_turn s /\ selectedRunnerSpeechTurn e = grant_turn s /\ rn_invocation_id r <> "" /\
    (exists x, x ∈ before /\ (starts s x \/ succeeds s x) /\ trim_space (runner_invocation x) = rn_invocation_id r) /\
    selectedGrantForSpeech e {[ ev_event_id s := 0%nat ]} = ev_event_id s.

(** The evidence that a selection needs among its events. *)
Record runner_evidence (md : SessionMetadata) (s : EventEnvelope) (own : list EventEnvelope) : Prop := mk_runner_evidence {
  rv_turn : 0 < grant_turn s;
  rv_clean : forall e, e ∈ own -> ~ fails e;
  rv_start : exists e, e ∈ own /\ starts s e;
  rv_success : exists e, e ∈ own /\ succeeds s e;
  rv_speech : exists before e after_, own = before ++ e :: after_ /\ links s before e /\
    (forall b1 x b2, before = b1 ++ x :: b2 -> ~ links s b1 x) /\
    (requiresSelectedRunnerDeliveryProof md = true ->
      delivery_problem (default no_surface (md_surface md)) (selectedRunnerMember s) e = None) }.

(** ** A grant is the replay of its own events *)

Definition grant_step (g : SelectedRunnerGrantAccounting) (e : EventEnvelope) : SelectedRunnerGrantAccounting :=
  let a t := ev_type e == t in
  let fail kind := with_terminal g kind (selectedRunnerTerminalEventStatus e kind) (ev_event_id e) in
  if a "runner_invocation_failed" then fail TerminalFailure
  else if a "runner_result_discarded" then fail TerminalDiscard
  else if a "selected_runner_dispatch_failed" then fail DispatchFailure
  else
    match ev_runner e with
    | None => g
    | Some r =>
        if a "runner_invocation_started" then
          if member_differs g r then g else with_start g (ev_event_id e) (rn_invocation_id r)
        else if a "runner_invocation_succeeded" then
          if (rn_status r != "succeeded") || member_differs g r || (rn_invocation_id r == "") then g
          else with_success g (ev_event_id e) (rn_invocation_id r)
        else if a "speech" then
          if linkedRunnerSpeechMatchesGrant e g then with_speech g (ev_event_id e) else g
        else g
    end.

Definition selected (e : EventEnvelope) : bool := ev_type e == "speaker_selected".
Definition selections (l : list EventEnvelope) : list EventEnvelope := List.filter selected l.

Definition first_row (s : EventEnvelope) : SelectedRunnerGrantAccounting :=
  new_grant s (selectedRunnerMember s) (grant_turn s) "pending" true.

Definition row (l : list EventEnvelope) (s : EventEnvelope) : SelectedRunnerGrantAccounting :=
  foldl grant_step (first_row s) (owned l (ev_event_id s)).

Lemma matches_status e g : linkedRunnerSpeechMatchesGrant e g = true -> exists r, ev_runner e = Some r /\ rn_status r = "succeeded".
Proof.
  unfold linkedRunnerSpeechMatchesGrant. destruct (ev_runner e) as [r|]; [|done]. intros H. exists r. split; [done|].
  by repeat (apply andb_true_iff in H as [H ?]); apply String.eqb_eq in H.
Qed.

(** What a step does to the grants, the bindings and the linked speeches. *)
Lemma scan_step_grants echoes s e :
  selected e = false ->
  let s' := scan_step echoes s e in
  sc_index s' = sc_index s /\
  match grant_of (sc_grants s) (sc_index s) (sc_bound s) e with
  | Some (i, g) =>
      sc_grants s' = <[i := grant_step g e]> (sc_grants s) /\
      sc_bound s' = match ev_runner e with
                    | Some r => if (ev_type e == "runner_invocation_started") && negb (member_differs g r)
                                then bind_invocation (sc_bound s) (rn_invocation_id r) (ga_selected g) else sc_bound s
                    | None => sc_bound s
                    end /\
      sc_linked s' = if (ev_type e == "speech") && linkedRunnerSpeechMatchesGrant e g
                     then <[ev_event_id e := e]> (sc_linked s) else sc_linked s
  | None => sc_grants s' = sc_grants s /\ sc_bound s' = sc_bound s /\ sc_linked s' = sc_linked s
  end.
Proof.
  intros Hsel. unfold selected in Hsel. unfold scan_step. cbv zeta. rewrite Hsel.
  destruct (grant_of _ _ _ e) as [[i g]|] eqn:Hg.
  - assert (Hi : sc_grants s !! i = Some g).
    { unfold grant_of in Hg. cbv zeta in Hg. destruct (_ == ""); [done|]. by destruct (sc_grants s !! _) eqn:E; simplify_eq/=. }
    unfold grant_step. cbv zeta.
    destruct (String.eqb_spec (ev_type e) "runner_invocation_started") as [->|_].
    { unfold scan_started. rewrite Hg. cbn. destruct (ev_runner e) as [r|]; cbn; [|by rewrite list_insert_id].
      destruct (member_differs g r); cbn; [by rewrite list_insert_id | done]. }
    destruct (String.eqb_spec (ev_type e) "runner_invocation_succeeded") as [->|_].
    { unfold scan_succeeded. rewrite Hg. cbn. destruct (ev_runner e) as [r|]; cbn; [|by rewrite list_insert_id].
      destruct (rn_status r == "succeeded"), (member_differs g r), (rn_invocation_id r == ""); cbn; try done; by rewrite list_insert_id. }
    destruct (String.eqb_spec (ev_type e) "speech") as [->|_].
    { unfold scan_speech. rewrite Hg. cbn. destruct (ev_runner e) as [r|] eqn:Hr; cbn.
      - destruct (linkedRunnerSpeechMatchesGrant e g) eqn:Hm.
        + apply matches_status in Hm as (r' & Hr' & Hst). rewrite Hr in Hr'. injection Hr' as <-. by rewrite Hst.
        + destruct (rn_status r == "succeeded"); cbn; by rewrite list_insert_id.
      - assert (linkedRunnerSpeechMatchesGrant e g = false) as -> by (unfold linkedRunnerSpeechMatchesGrant; by rewrite Hr).
        unfold scan_runnerless. destruct (bool_decide _); cbn; by rewrite list_insert_id. }
    unfold scan_terminal. rewrite Hg. cbn.
    destruct (String.eqb_spec (ev_type e) "runner_invocation_failed") as [->|_]; [by destruct (ev_runner e)|].
    destruct (String.eqb_spec (ev_type e) "runner_result_discarded") as [->|_]; [by destruct (ev_runner e)|].
    destruct (String.eqb_spec (ev_type e) "selected_runner_dispatch_failed") as [->|_]; [by destruct (ev_runner e)|].
    destruct (ev_runner e); by rewrite list_insert_id.
  - destruct (ev_type e == "runner_invocation_started"); [unfold scan_started; by rewrite Hg|].
    destruct (ev_type e == "runner_invocation_succeeded"); [unfold scan_succeeded; by rewrite Hg|].
    destruct (ev_type e == "speech").
    { unfold scan_speech, scan_runnerless. rewrite Hg. destruct (ev_runner e); [done|]. by destruct (bool_decide _). }
    unfold scan_terminal. rewrite Hg.
    destruct (ev_type e == "runner_invocation_failed"); [done|]. destruct (ev_type e == "runner_result_discarded"); [done|].
    by destruct (ev_type e == "selected_runner_dispatch_failed").
Qed.

(** The rows of a replay keep the identity of the selection. *)
Lemma grant_step_fields g e :
  ga_selected (grant_step g e) = ga_selected g /\ ga_member (grant_step g e) = ga_member g /\ ga_turn (grant_step g e) = ga_turn g.
Proof.
  unfold grant_step. cbv zeta. destruct (ev_runner e) as [r|];
    repeat (match goal with |- context [if ?b then _ else _] => destruct b end; try done).
Qed.

Lemma replay_fields own g :
  let g' := foldl grant_step g own in ga_selected g' = ga_selected g /\ ga_member g' = ga_member g /\ ga_turn g' = ga_turn g.
Proof.
  cbv zeta. revert g. induction own as [|e own IH]; intros g; [done|]. cbn.
  destruct (IH (grant_step g e)) as (-> & -> & ->). apply grant_step_fields.
Qed.

Definition row_of (o : ownership) (s : EventEnvelope) : SelectedRunnerGrantAccounting :=
  foldl grant_step (first_row s) (default [] (ow_events o !! ev_event_id s)).

Lemma member_differs_iff s g r : ga_member g = selectedRunnerMember s -> (member_differs g r = false <-> of_member s r).
Proof.
  intros Hg. unfold member_differs, of_member. rewrite Hg.
  destruct (String.eqb_spec (selectedRunnerMember s) ""), (String.eqb_spec (rn_member r) (selectedRunnerMember s)); cbn; naive_solver.
Qed.

(** ** Who owns an event *)

Lemma named_grant_dom p (m1 m2 : gmap string nat) keys :
  (forall id, is_Some (m1 !! id) <-> is_Some (m2 !! id)) -> named_grant p m1 keys = named_grant p m2 keys.
Proof.
  intros H. induction keys as [|k keys IH]; [done|]. cbn. rewrite IH.
  by rewrite (bool_decide_ext _ _ (H (payloadStringDefault p k ""))).
Qed.

Lemma named_grant_known p m keys id : named_grant p m keys = Some id -> id <> "" /\ is_Some (m !! id).
Proof.
  induction keys as [|k keys IH]; [done|]. cbn.
  destruct (String.eqb_spec (payloadStringDefault p k "") "") as [|Hne]; cbn; [done|].
  case_bool_decide; [|done]. by intros [= <-].
Qed.

Lemma matching_dom e (m1 m2 : gmap string nat) b :
  (forall id, is_Some (m1 !! id) <-> is_Some (m2 !! id)) -> matchingSelectedGrant e m1 b = matchingSelectedGrant e m2 b.
Proof.
  intros H. unfold matchingSelectedGrant. rewrite (named_grant_dom _ _ _ _ H).
  by rewrite (bool_decide_ext _ _ (H (ev_causation_event_id e))).
Qed.

Lemma matching_known e m (b : gmap string string) :
  (forall inv id, b !! inv = Some id -> is_Some (m !! id)) ->
  matchingSelectedGrant e m b = "" \/ is_Some (m !! matchingSelectedGrant e m b).
Proof.
  intros Hb. unfold matchingSelectedGrant. cbv zeta.
  set (bound := if runner_invocation e == "" then "" else default "" (b !! runner_invocation e)).
  destruct (String.eqb_spec bound "") as [_|Hbound]; cbn [negb].
  - destruct (named_grant (pl e) m grant_keys) as [n|] eqn:En; [right; by destruct (named_grant_known _ _ _ _ En)|].
    case_bool_decide; rewrite ?andb_false_r; [|by left]. destruct (ev_causation_event_id e != ""); [by right|by left].
  - right. subst bound. destruct (runner_invocation e == ""); [done|].
    destruct (b !! runner_invocation e) as [id|] eqn:E; cbn in *; [by eauto|done].
Qed.

(** ** The scan replays the owned events *)

Definition plain_ids (l : list EventEnvelope) : Prop :=
  NoDup (map ev_event_id l) /\ Forall (fun e => ev_event_id e <> "" /\ trim_space (ev_event_id e) = ev_event_id e) l.

Record replays (l : list EventEnvelope) (s : scan) (o : ownership) : Prop := mk_replays {
  rp_grants : sc_grants s = map (row_of o) (selections l);
  rp_index : forall id i, sc_index s !! id = Some i <-> exists x, selections l !! i = Some x /\ ev_event_id x = id;
  rp_known : forall id x, ow_known o !! id = Some x <-> x ∈ selections l /\ ev_event_id x = id;
  rp_bound : sc_bound s = ow_bound o;
  rp_bound_known : forall inv id, ow_bound o !! inv = Some id -> is_Some (ow_known o !! id);
  rp_events : forall id evs, ow_events o !! id = Some evs -> is_Some (ow_known o !! id) /\ evs ⊆ l;
  rp_linked : forall id e, sc_linked s !! id = Some e -> e ∈ l /\ ev_event_id e = id;
  rp_speeches : forall x id, x ∈ selections l -> id ∈ ga_speeches (row_of o x) -> is_Some (sc_linked s !! id) }.

Lemma selections_snoc l e : selections (l ++ [e]) = selections l ++ (if selected e then [e] else []).
Proof. unfold selections. rewrite List.filter_app. cbn. by destruct (selected e). Qed.

Lemma in_selections l x : x ∈ selections l <-> x ∈ l /\ selected x = true.
Proof. unfold selections. rewrite !list_elem_of_In. apply List.filter_In. Qed.

Lemma plain_snoc l e : plain_ids (l ++ [e]) ->
  plain_ids l /\ ev_event_id e <> "" /\ forall x, x ∈ l -> ev_event_id x <> ev_event_id e.
Proof.
  intros [Hn Hf]. rewrite map_app in Hn. apply NoDup_app in Hn as (Hn & Hd & _). apply Forall_app in Hf as [Hf He].
  split; [done|]. rewrite Forall_singleton in He. split; [apply He|]. intros x Hx Heq.
  apply (Hd (ev_event_id x)); [by apply list_elem_of_fmap_2 | rewrite Heq; by apply list_elem_of_singleton].
Qed.

Lemma plain_inj l a b : plain_ids l -> a ∈ l -> b ∈ l -> ev_event_id a = ev_event_id b -> a = b.
Proof.
  intros [Hn _] [i Ha]%list_elem_of_lookup [j Hb]%list_elem_of_lookup Heq.
  assert (i = j) as ->; [|congruence].
  apply (NoDup_lookup _ _ _ (ev_event_id a) Hn); rewrite list_lookup_fmap, ?Ha, ?Hb; cbn; by rewrite ?Heq.
Qed.

Lemma replays_empty : replays [] empty_scan nobody.
Proof. split; try done; intros *; rewrite ?lookup_empty; set_solver. Qed.

(** A new selection. *)
Lemma replays_selected l s o echoes e :
  replays l s o -> plain_ids (l ++ [e]) -> selected e = true -> replays (l ++ [e]) (scan_step echoes s e) (own_step o e).
Proof.
  intros H (_ & _ & Hfresh)%plain_snoc Hsel.
  assert (Hnew : ow_events o !! ev_event_id e = None).
  { destruct (ow_events o !! ev_event_id e) as [evs|] eqn:E; [|done].
    destruct (rp_events _ _ _ H _ _ E) as [[x [Hx Hid]%(rp_known _ _ _ H)] _]. apply in_selections in Hx as [Hx _]. by apply Hfresh in Hx. }
  assert (Hlen : length (sc_grants s) = length (selections l)) by (rewrite (rp_grants _ _ _ H); apply length_map).
  unfold scan_step, own_step. cbv zeta. unfold selected in Hsel. rewrite Hsel. unfold scan_selected. cbv zeta.
  assert (Hs : selections (l ++ [e]) = selections l ++ [e]) by (rewrite selections_snoc; unfold selected; by rewrite Hsel).
  assert (Hrow : row_of (mk_ownership (<[ev_event_id e := e]> (ow_known o)) (ow_bound o) (ow_events o)) e = first_row e)
    by (unfold row_of; cbn; by rewrite Hnew).
  split; cbn [sc_grants sc_index sc_bound sc_linked ow_known ow_bound ow_events]; rewrite ?Hs.
  - rewrite map_app, (rp_grants _ _ _ H). cbn. by rewrite Hrow.
  - intros id i. rewrite Hlen. destruct (decide (id = ev_event_id e)) as [->|Hne].
    + rewrite lookup_insert_eq. split; [intros [= <-]; exists e; by rewrite list_lookup_middle|].
      intros (x & Hx & Hid). apply lookup_app_Some in Hx as [Hx|[? Hx]].
      * apply list_elem_of_lookup_2, in_selections in Hx as [Hx _]. by apply Hfresh in Hx.
      * apply list_lookup_singleton_Some in Hx as [? _]. f_equal. lia.
    + rewrite lookup_insert_ne, (rp_index _ _ _ H) by done. split; intros (x & Hx & <-); exists x; (split; [|done]).
      * by apply lookup_app_l_Some.
      * apply lookup_app_Some in Hx as [Hx|[_ [_ <-]%list_lookup_singleton_Some]]; done.
  - intros id x. destruct (decide (id = ev_event_id e)) as [->|Hne].
    + rewrite lookup_insert_eq. split; [intros [= <-]; set_solver|]. intros [[Hx|Hx]%elem_of_app Hid].
      * apply in_selections in Hx as [Hx _]. by apply Hfresh in Hx.
      * apply list_elem_of_singleton in Hx. congruence.
    + rewrite lookup_insert_ne, (rp_known _ _ _ H) by done. set_solver.
  - apply (rp_bound _ _ _ H).
  - intros inv id Hb. apply lookup_insert_is_Some. destruct (decide (ev_event_id e = id)); [by left|right]. split; [done|].
    by eapply (rp_bound_known _ _ _ H).
  - intros id evs He. destruct (rp_events _ _ _ H _ _ He). split; [|set_solver].
    apply lookup_insert_is_Some. destruct (decide (ev_event_id e = id)); [by left|by right].
  - intros id x Hx. destruct (rp_linked _ _ _ H _ _ Hx). set_solver.
  - intros x id [Hx|Hx]%elem_of_app; [by apply (rp_speeches _ _ _ H)|]. apply list_elem_of_singleton in Hx as ->.
    rewrite Hrow. cbn. set_solver.
Qed.

Lemma owner_matching l s o e : replays l s o -> owner o e = matchingSelectedGrant e (sc_index s) (sc_bound s).
Proof.
  intros H. unfold owner. rewrite (rp_bound _ _ _ H). apply matching_dom. intros id. rewrite lookup_fmap, fmap_is_Some. split.
  - intros [x Hx]. apply (rp_known _ _ _ H) in Hx as [[i Hi]%list_elem_of_lookup Hid].
    exists i. apply (rp_index _ _ _ H). eauto.
  - intros [i Hi]. apply (rp_index _ _ _ H) in Hi as (x & Hi%list_elem_of_lookup_2 & Hid). exists x. by apply (rp_known _ _ _ H).
Qed.

(** The grant of an event is the row of its owner. *)
Lemma grant_of_owner l s o e :
  replays l s o -> plain_ids l ->
  match ow_known o !! owner o e with
  | Some x => exists i, selections l !! i = Some x /\ grant_of (sc_grants s) (sc_index s) (sc_bound s) e = Some (i, row_of o x)
  | None => grant_of (sc_grants s) (sc_index s) (sc_bound s) e = None
  end.
Proof.
  intros H [_ Hids]. rewrite (owner_matching _ _ _ _ H). unfold grant_of. cbv zeta.
  set (id := matchingSelectedGrant e (sc_index s) (sc_bound s)). destruct (ow_known o !! id) as [x|] eqn:Hk.
  - apply (rp_known _ _ _ H) in Hk as [Hx Hid]. destruct (proj1 (list_elem_of_lookup _ _) Hx) as [i Hi].
    exists i. split; [done|]. rewrite Forall_forall in Hids.
    destruct (Hids x) as [Hne _]; [by apply in_selections in Hx as [? _]|]. rewrite Hid in Hne.
    destruct (String.eqb_spec id ""); [done|].
    assert (sc_index s !! id = Some i) as -> by (apply (rp_index _ _ _ H); eauto). cbn.
    rewrite (rp_grants _ _ _ H), list_lookup_fmap, Hi. done.
  - destruct (String.eqb_spec id "") as [|Hne]; [done|]. exfalso.
    assert (is_Some (sc_index s !! id)) as [i Hi].
    { destruct (matching_known e (sc_index s) (sc_bound s)) as [|?]; [|done..].
      intros inv x Hb. rewrite (rp_bound _ _ _ H) in Hb. destruct (rp_bound_known _ _ _ H _ _ Hb) as [y Hy].
      apply (rp_known _ _ _ H) in Hy as [[j Hj]%list_elem_of_lookup Hid]. exists j. apply (rp_index _ _ _ H). eauto. }
    apply (rp_index _ _ _ H) in Hi as (x & Hx%list_elem_of_lookup_2 & Hid).
    rewrite (proj2 (rp_known _ _ _ H id x)) in Hk; done.
Qed.

Lemma starts_iff x e g :
  ga_member g = selectedRunnerMember x ->
  (starts x e <-> exists r, ev_runner e = Some r /\ (ev_type e == "runner_invocation_started") && negb (member_differs g r) = true).
Proof.
  intros Hg. unfold starts. split.
  - intros (-> & r & -> & Hm). exists r. split; [done|]. by rewrite (proj2 (member_differs_iff x g r Hg) Hm).
  - intros (r & Hr & [Ht Hm]%andb_true_iff). split; [by apply String.eqb_eq|]. exists r. split; [done|].
    apply (member_differs_iff x g r Hg). by apply negb_true_iff.
Qed.

Lemma row_member o x : ga_member (row_of o x) = selectedRunnerMember x.
Proof. by apply replay_fields. Qed.

Lemma row_selected o x : ga_selected (row_of o x) = ev_event_id x.
Proof. by apply replay_fields. Qed.

(** The rows after an event of the selection [x]. *)
Lemma row_of_owned o b x e y :
  row_of (mk_ownership (ow_known o) b (<[ev_event_id x := default [] (ow_events o !! ev_event_id x) ++ [e]]> (ow_events o))) y =
  if decide (ev_event_id y = ev_event_id x) then grant_step (foldl grant_step (first_row y) (default [] (ow_events o !! ev_event_id y))) e
  else row_of o y.
Proof.
  unfold row_of. cbn. case_decide as Hd.
  - rewrite Hd, lookup_insert_eq. cbn. by rewrite foldl_snoc.
  - by rewrite lookup_insert_ne.
Qed.

Lemma in_with_speech g e id : id ∈ ga_speeches (grant_step g e) ->
  id ∈ ga_speeches g \/ id = trim_space (ev_event_id e) /\ (ev_type e == "speech") && linkedRunnerSpeechMatchesGrant e g = true.
Proof.
  unfold grant_step. cbv zeta.
  repeat (match goal with |- context [if ?b then _ else _] => destruct b eqn:? | |- context [match ev_runner e with _ => _ end] => destruct (ev_runner e) end);
    cbn; auto.
  unfold appendUniqueString. cbv zeta. destruct (_ || _); [by left|]. intros [?|?%list_elem_of_singleton]%elem_of_app; auto.
Qed.

Lemma map_insert_at {A B} (f f' : A -> B) (l : list A) i x :
  l !! i = Some x -> (forall j y, l !! j = Some y -> f' y = if decide (j = i) then f' x else f y) ->
  <[i := f' x]> (map f l) = map f' l.
Proof.
  intros Hi Hf. apply list_eq. intros j. rewrite list_lookup_insert, length_map, !list_lookup_fmap.
  pose proof (lookup_lt_Some _ _ _ Hi) as Hlt. case_decide as Hd.
  - destruct Hd as [<- _]. by rewrite Hi.
  - destruct (l !! j) as [y|] eqn:Hj; [|done]. cbn. rewrite (Hf _ _ Hj). case_decide; [subst; by destruct Hd|done].
Qed.

Lemma selections_inj l s o i j x y :
  replays l s o -> selections l !! i = Some x -> selections l !! j = Some y -> ev_event_id x = ev_event_id y -> i = j.
Proof.
  intros H Hi Hj Heq. assert (Hx : sc_index s !! ev_event_id x = Some i) by (apply (rp_index _ _ _ H); eauto).
  assert (sc_index s !! ev_event_id x = Some j) by (apply (rp_index _ _ _ H); eauto). congruence.
Qed.

(** An event that is not a selection. *)
Lemma replays_other l s o echoes e :
  replays l s o -> plain_ids (l ++ [e]) -> selected e = false -> replays (l ++ [e]) (scan_step echoes s e) (own_step o e).
Proof.
  intros H Hp Hsel. destruct (plain_snoc _ _ Hp) as (Hpl & _ & _).
  assert (Htrim : trim_space (ev_event_id e) = ev_event_id e).
  { destruct Hp as [_ Hp]. rewrite Forall_forall in Hp. apply Hp. set_solver. }
  pose proof (scan_step_grants echoes s e Hsel) as [Hix Hstep]. pose proof (grant_of_owner _ _ _ e H Hpl) as Hg.
  assert (Hs : selections (l ++ [e]) = selections l) by (rewrite selections_snoc, Hsel; apply app_nil_r).
  unfold own_step. cbv zeta. unfold selected in Hsel. rewrite Hsel. destruct (ow_known o !! owner o e) as [x|] eqn:Hk.
  2: { rewrite Hg in Hstep. destruct Hstep as (Hgr & Hb & Hl). destruct H. split; rewrite ?Hs, ?Hix, ?Hgr, ?Hb, ?Hl; try done.
       - intros id evs He. destruct (rp_events0 _ _ He). set_solver.
       - intros id y Hy. destruct (rp_linked0 _ _ Hy). set_solver. }
  destruct Hg as (i & Hi & Hg). rewrite Hg in Hstep. destruct Hstep as (Hgr & Hb & Hl).
  apply (rp_known _ _ _ H) in Hk as [Hx Hid]. rewrite <- !Hid.
  assert (Heqx : forall y, y ∈ selections l -> ev_event_id y = ev_event_id x -> y = x).
  { intros y Hy. apply (plain_inj l); [done| by apply in_selections in Hy as [? _] | by apply in_selections in Hx as [? _]]. }
  set (b := if decide (starts x e) then bind_invocation (ow_bound o) (runner_invocation e) (ev_event_id x) else ow_bound o).
  split; cbn [ow_known ow_bound ow_events]; rewrite ?Hs, ?Hix.
  - rewrite Hgr, (rp_grants _ _ _ H). assert (Hrx := row_of_owned o b x e x). rewrite decide_True in Hrx by done. fold (row_of o x) in Hrx.
    rewrite <- Hrx. apply map_insert_at; [done|]. intros j y Hj. rewrite row_of_owned. case_decide as Hd.
    + rewrite decide_True by (by eapply selections_inj).
      by rewrite (Heqx y (list_elem_of_lookup_2 _ _ _ Hj) Hd).
    + rewrite decide_False; [done|]. intros ->. congruence.
  - apply (rp_index _ _ _ H).
  - apply (rp_known _ _ _ H).
  - rewrite Hb, (rp_bound _ _ _ H), row_selected. unfold b, runner_invocation.
    destruct (decide (starts x e)) as [Hst|Hst]; rewrite (starts_iff x e (row_of o x) (row_member o x)) in Hst.
    + destruct Hst as (r & -> & ->). done.
    + destruct (ev_runner e) as [r|]; [|done]. destruct (_ && _) eqn:E; [|done]. exfalso. apply Hst. eauto.
  - intros inv id. unfold b. case_decide; [|apply (rp_bound_known _ _ _ H)]. unfold bind_invocation. destruct (_ == ""); [apply (rp_bound_known _ _ _ H)|].
    rewrite lookup_insert_Some. intros [[_ <-]|[_ ?]]; [|by eapply (rp_bound_known _ _ _ H)]. exists x. by apply (rp_known _ _ _ H).
  - intros id evs. rewrite lookup_insert_Some. intros [[<- <-]|[_ He]].
    + split; [exists x; by apply (rp_known _ _ _ H)|]. destruct (ow_events o !! ev_event_id x) as [evs|] eqn:E; cbn; [|set_solver].
      destruct (rp_events _ _ _ H _ _ E). set_solver.
    + destruct (rp_events _ _ _ H _ _ He). set_solver.
  - intros id y Hy. rewrite Hl in Hy. destruct (_ && _).
    + apply lookup_insert_Some in Hy as [[<- <-]|[_ Hy]]; [set_solver|]. destruct (rp_linked _ _ _ H _ _ Hy). set_solver.
    + destruct (rp_linked _ _ _ H _ _ Hy). set_solver.
  - intros y id Hy. rewrite row_of_owned. fold (row_of o y). rewrite Hl. case_decide as Hd.
    + rewrite (Heqx y Hy Hd) in *. intros [Hin|[-> Hc]]%in_with_speech.
      * destruct (_ && _); [apply lookup_insert_is_Some'; right|]; exact (rp_speeches _ _ _ H x id Hx Hin).
      * rewrite Hc, Htrim. by rewrite lookup_insert_eq.
    + intros Hin. destruct (_ && _); [apply lookup_insert_is_Some'; right|]; exact (rp_speeches _ _ _ H y id Hy Hin).
Qed.

Lemma replays_step l s o echoes e :
  replays l s o -> plain_ids (l ++ [e]) -> replays (l ++ [e]) (scan_step echoes s e) (own_step o e).
Proof. intros H Hp. destruct (selected e) eqn:Hsel; [by apply replays_selected | by apply replays_other]. Qed.

Lemma scan_replays echoes l :
  plain_ids l -> replays l (foldl (scan_step echoes) empty_scan l) (foldl own_step nobody l).
Proof.
  induction l as [|e l IH] using rev_ind; intros Hp; [apply replays_empty|].
  rewrite !foldl_snoc. apply replays_step; [|done]. apply IH. by apply plain_snoc in Hp as [? _].
Qed.

(** ** What the events of a selection come to *)

Lemma in_append_unique l v x : x ∈ appendUniqueString l v <-> x ∈ l \/ x = trim_space v /\ x <> "".
Proof.
  unfold appendUniqueString. cbv zeta. destruct (String.eqb_spec (trim_space v) "") as [E|E]; cbn; [naive_solver|].
  destruct (mem_str (trim_space v) l) eqn:Hm; [apply mem_str_spec in Hm; naive_solver|].
  rewrite elem_of_app, list_elem_of_singleton. naive_solver.
Qed.

Lemma append_unique_hd l v : l <> [] -> exists rest rest', l = hd "" l :: rest /\ appendUniqueString l v = hd "" l :: rest'.
Proof.
  destruct l as [|a l]; [done|]. intros _. unfold appendUniqueString. cbv zeta.
  destruct (_ || _); [by eauto|]. cbn. by eauto.
Qed.

Lemma append_unique_nil v : trim_space v = v -> v <> "" -> appendUniqueString [] v = [v].
Proof. intros Ht Hv. unfold appendUniqueString. cbv zeta. rewrite Ht, orb_false_r. by destruct (String.eqb_spec v ""). Qed.

(** The part that an event plays for the selection [x]. *)
Inductive part (x : EventEnvelope) (own : list EventEnvelope) (g : SelectedRunnerGrantAccounting) (e : EventEnvelope)
    : SelectedRunnerGrantAccounting -> Prop :=
| part_start : starts x e -> part x own g e (with_start g (ev_event_id e) (runner_invocation e))
| part_success : succeeds x e -> part x own g e (with_success g (ev_event_id e) (runner_invocation e))
| part_failure kind status : fails e -> part x own g e (with_terminal g kind status (ev_event_id e))
| part_speech : links x own e -> part x own g e (with_speech g (ev_event_id e))
| part_none : ~ starts x e -> ~ succeeds x e -> ~ fails e -> ~ links x own e -> part x own g e g.

Lemma starts_only x own e : starts x e -> ~ succeeds x e /\ ~ fails e /\ ~ links x own e.
Proof. intros [H _]. unfold succeeds, fails, links. rewrite H. naive_solver. Qed.

Lemma succeeds_only x own e : succeeds x e -> ~ starts x e /\ ~ fails e /\ ~ links x own e.
Proof. intros [H _]. unfold starts, fails, links. rewrite H. naive_solver. Qed.

Lemma fails_only x own e : fails e -> ~ starts x e /\ ~ succeeds x e /\ ~ links x own e.
Proof. unfold starts, succeeds, fails, links. intros [->|[->| ->] ]; naive_solver. Qed.

Lemma links_only x own e : links x own e -> ~ starts x e /\ ~ succeeds x e /\ ~ fails e.
Proof. intros [H _]. unfold starts, succeeds, fails. rewrite H. naive_solver. Qed.

(** What a row says of the events that made it. *)
Record facts (x : EventEnvelope) (own : list EventEnvelope) (g : SelectedRunnerGrantAccounting) : Prop := mk_facts {
  fc_selected : ga_selected g = ev_event_id x;
  fc_member : ga_member g = selectedRunnerMember x;
  fc_turn : ga_turn g = grant_turn x;
  fc_started : ga_started g = true <-> exists e, e ∈ own /\ starts x e;
  fc_succeeded : ga_succeeded g <> [] <-> exists e, e ∈ own /\ succeeds x e;
  fc_failed : (ga_failures g = [] /\ ga_discards g = [] /\ ga_dispatch g = []) <-> forall e, e ∈ own -> ~ fails e;
  fc_invocations i : i ∈ ga_invocations g <->
    i <> "" /\ exists e, e ∈ own /\ (starts x e \/ succeeds x e) /\ trim_space (runner_invocation e) = i;
  fc_speeches :
    match ga_speeches g with
    | [] => forall b e a, own = b ++ e :: a -> ~ links x b e
    | id :: _ => exists b e a, own = b ++ e :: a /\ links x b e /\
                   (forall b1 y b2, b = b1 ++ y :: b2 -> ~ links x b1 y) /\ ev_event_id e = id
    end }.

(** A speech matches a row exactly when it is linked to the selection. *)
Lemma links_iff x own g e :
  facts x own g -> (links x own e <-> ev_type e = "speech" /\ linkedRunnerSpeechMatchesGrant e g = true).
Proof.
  intros H. unfold links, linkedRunnerSpeechMatchesGrant.
  rewrite (fc_selected _ _ _ H), (fc_member _ _ _ H), (fc_turn _ _ _ H).
  destruct (ev_runner e) as [r|]; [|split; [intros (? & ? & ? & _); done | by intros [? ?]]].
  rewrite !andb_true_iff, !negb_true_iff, !String.eqb_eq, !String.eqb_neq, Z.ltb_lt, Z.eqb_eq, mem_str_spec, (fc_invocations _ _ _ H).
  split.
  - intros (Ht & r' & [= <-] & ? & ? & ? & ? & ? & ? & ? & Hi & ?). naive_solver.
  - intros (Ht & ((((((((? & ?) & ?) & ?) & ?) & ?) & ?) & [_ Hi]) & ?)). split; [done|]. exists r. naive_solver.
Qed.

Local Ltac not_this_type E := let T := fresh in intros [T _]; rewrite E in T; discriminate T.

Lemma grant_step_part x own g e : facts x own g -> part x own g e (grant_step g e).
Proof.
  intros H. pose proof (links_iff _ _ _ e H) as Hlinks. unfold grant_step. cbv zeta.
  destruct (String.eqb_spec (ev_type e) "runner_invocation_failed") as [E|E1]; [constructor; by left|].
  destruct (String.eqb_spec (ev_type e) "runner_result_discarded") as [E|E2]; [constructor; by right; left|].
  destruct (String.eqb_spec (ev_type e) "selected_runner_dispatch_failed") as [E|E3]; [constructor; by right; right|].
  assert (Hf : ~ fails e) by (unfold fails; tauto).
  destruct (ev_runner e) as [r|] eqn:Hr.
  2: { apply part_none; try done; unfold starts, succeeds; rewrite ?Hr; unfold links; rewrite ?Hr; naive_solver. }
  assert (Hi : runner_invocation e = rn_invocation_id r) by (unfold runner_invocation; by rewrite Hr). rewrite <- Hi.
  pose proof (member_differs_iff x g r (fc_member _ _ _ H)) as Hm.
  destruct (String.eqb_spec (ev_type e) "runner_invocation_started") as [E|E4].
  { destruct (member_differs g r) eqn:Hd; [|constructor; split; [done|]; exists r; tauto].
    apply part_none; [|not_this_type E | done | not_this_type E].
    intros (_ & r' & Hr' & Hm'). rewrite Hr in Hr'. injection Hr' as <-. apply Hm in Hm'. done. }
  assert (Hs : ~ starts x e) by (unfold starts; tauto).
  destruct (String.eqb_spec (ev_type e) "runner_invocation_succeeded") as [E|E5].
  { destruct ((rn_status r != "succeeded") || member_differs g r || (runner_invocation e == "")) eqn:Hd.
    - apply part_none; [done| |done|not_this_type E].
      intros (_ & r' & Hr' & Hst & Hm' & Hne). rewrite Hr in Hr'. injection Hr' as <-. apply Hm in Hm'.
      rewrite Hst, Hm', Hi in Hd. cbn in Hd. by apply String.eqb_eq in Hd.
    - apply orb_false_iff in Hd as [[Hst Hd]%orb_false_iff Hne]. apply negb_false_iff, String.eqb_eq in Hst. apply String.eqb_neq in Hne.
      rewrite Hi in Hne. constructor. split; [done|]. exists r. tauto. }
  assert (Hu : ~ succeeds x e) by (unfold succeeds; tauto).
  destruct (String.eqb_spec (ev_type e) "speech") as [E|E6]; [|apply part_none; tauto].
  destruct (linkedRunnerSpeechMatchesGrant e g) eqn:Hl; [constructor; tauto |].
  apply part_none; try done. rewrite Hlinks. by intros [_ ?].
Qed.

Lemma exists_snoc (P : EventEnvelope -> Prop) l e : (exists y, y ∈ l ++ [e] /\ P y) <-> (exists y, y ∈ l /\ P y) \/ P e.
Proof. setoid_rewrite elem_of_app. setoid_rewrite list_elem_of_singleton. naive_solver. Qed.

Lemma forall_snoc (P : EventEnvelope -> Prop) l e : (forall y, y ∈ l ++ [e] -> P y) <-> (forall y, y ∈ l -> P y) /\ P e.
Proof. setoid_rewrite elem_of_app. setoid_rewrite list_elem_of_singleton. naive_solver. Qed.

Lemma snoc_split {A} (l b a : list A) e y :
  l ++ [e] = b ++ y :: a -> a = [] /\ b = l /\ y = e \/ exists a', a = a' ++ [e] /\ l = b ++ y :: a'.
Proof.
  destruct a as [|z a _] using rev_ind.
  - intros [<- [= <-]]%app_inj_tail. by left.
  - rewrite app_comm_cons, app_assoc. intros [-> <-]%app_inj_tail. right. by exists a.
Qed.

(** The first linked speech of a selection. *)
Definition speech_facts (x : EventEnvelope) (own : list EventEnvelope) (speeches : list string) : Prop :=
  match speeches with
  | [] => forall b e a, own = b ++ e :: a -> ~ links x b e
  | id :: _ => exists b e a, own = b ++ e :: a /\ links x b e /\
                 (forall b1 y b2, b = b1 ++ y :: b2 -> ~ links x b1 y) /\ ev_event_id e = id
  end.

Lemma speech_facts_keep x own e speeches : speech_facts x own speeches -> ~ links x own e -> speech_facts x (own ++ [e]) speeches.
Proof.
  intros H Hl. destruct speeches as [|id speeches]; cbn in *.
  - intros b y a [(_ & -> & ->)|(a' & _ & Ho)]%snoc_split; [done|]. by eapply H.
  - destruct H as (b & y & a & -> & ? & ? & ?). exists b, y, (a ++ [e]). split; [|done]. by rewrite <- app_assoc.
Qed.

Lemma speech_facts_link x own e speeches :
  speech_facts x own speeches -> links x own e -> trim_space (ev_event_id e) = ev_event_id e -> ev_event_id e <> "" ->
  speech_facts x (own ++ [e]) (appendUniqueString speeches (ev_event_id e)).
Proof.
  intros H Hl Ht Hne. destruct speeches as [|id speeches].
  - rewrite (append_unique_nil _ Ht Hne). exists own, e, []. split; [done|]. split; [done|]. split; [|done].
    intros b1 y b2 Ho. by eapply H.
  - destruct (append_unique_hd (id :: speeches) (ev_event_id e)) as (? & rest & _ & ->); [done|]. cbn in H |- *.
    destruct H as (b & y & a & -> & ? & ? & ?). exists b, y, (a ++ [e]). split; [|done]. by rewrite <- app_assoc.
Qed.

Lemma append_unique_ne l v : trim_space v = v -> v <> "" -> appendUniqueString l v <> [].
Proof.
  intros Ht Hv. destruct l; [by rewrite append_unique_nil|].
  destruct (append_unique_hd (s :: l) v) as (? & ? & _ & ->); done.
Qed.

Lemma facts_step x own g e g' :
  facts x own g -> part x own g e g' -> trim_space (ev_event_id e) = ev_event_id e -> ev_event_id e <> "" -> facts x (own ++ [e]) g'.
Proof.
  intros [Hs Hm Ht Hst Hsu Hf Hi Hsp] Hp Htr Hne. fold (speech_facts x own (ga_speeches g)) in Hsp.
  destruct Hp as [H|H|kind status H|H|Hns Hnu Hnf Hnl].
  - destruct (starts_only x own e H) as (Hnu & Hnf & Hnl).
    split; try done; cbn; rewrite ?exists_snoc, ?forall_snoc; [tauto..| |by apply speech_facts_keep].
    intros i. rewrite exists_snoc. destruct (String.eqb_spec (runner_invocation e) "") as [E|_].
    + rewrite Hi, E. change (trim_space "") with "". naive_solver.
    + rewrite in_append_unique, Hi. naive_solver.
  - destruct (succeeds_only x own e H) as (Hns & Hnf & Hnl). pose proof (append_unique_ne (ga_succeeded g) _ Htr Hne).
    split; try done; cbn; rewrite ?exists_snoc, ?forall_snoc; [tauto..| |by apply speech_facts_keep].
    intros i. rewrite exists_snoc, in_append_unique, Hi. naive_solver.
  - destruct (fails_only x own e H) as (Hns & Hnu & Hnl). pose proof (fun l => append_unique_ne l _ Htr Hne) as Hadd.
    split; try done; cbn; rewrite ?exists_snoc, ?forall_snoc; [tauto..| | |by apply speech_facts_keep].
    + split; [|tauto]. intros (Hf1 & Hf2 & Hf3). destruct kind; exfalso; by eapply Hadd.
    + intros i. rewrite exists_snoc, Hi. naive_solver.
  - destruct (links_only x own e H) as (Hns & Hnu & Hnf).
    split; try done; cbn; rewrite ?exists_snoc, ?forall_snoc; [tauto..| |by apply speech_facts_link].
    intros i. rewrite exists_snoc, Hi. naive_solver.
  - split; try done; rewrite ?exists_snoc, ?forall_snoc; [tauto..| |by apply speech_facts_keep].
    intros i. rewrite exists_snoc, Hi. naive_solver.
Qed.

Lemma replay_facts x own :
  Forall (fun e => ev_event_id e <> "" /\ trim_space (ev_event_id e) = ev_event_id e) own ->
  facts x own (foldl grant_step (first_row x) own).
Proof.
  induction own as [|e own IH] using rev_ind; intros H.
  - split; cbn; try done; try set_solver. by intros [] ? ? ?.
  - apply Forall_app in H as [H He]. rewrite Forall_singleton in He. destruct He. rewrite foldl_snoc.
    eapply facts_step; [by apply IH | by apply grant_step_part, IH | done..].
Qed.

(** ** The verdict *)

Lemma verdict_pass md linked g :
  ga_pass (grant_verdict md linked g).1 = true <->
  (ga_failures g = [] /\ ga_discards g = [] /\ ga_dispatch g = []) /\ 0 < ga_turn g /\ ga_started g = true /\
  ga_succeeded g <> [] /\ ga_speeches g <> [] /\
  (requiresSelectedRunnerDeliveryProof md = true -> exists id, selectedRunnerDeliveryDiagnostic md g linked = Ok id).
Proof.
  unfold grant_verdict. cbv zeta.
  destruct (ga_failures g), (ga_discards g), (ga_dispatch g); cbn [nonempty orb];
    try (split; [by cbn | intros ((? & ? & ?) & _); discriminate]).
  destruct (Z.leb_spec (ga_turn g) 0); [cbn; split; [done|lia]|].
  destruct (ga_started g); cbn [negb]; [|split; [by cbn | intros (_ & _ & ? & _); discriminate]].
  destruct (ga_succeeded g); cbn [nonempty negb]; [by split; [by cbn | intros (_ & _ & _ & ? & _)]|].
  destruct (ga_speeches g); cbn [nonempty negb]; [by split; [by cbn | intros (_ & _ & _ & _ & ? & _)]|].
  destruct (requiresSelectedRunnerDeliveryProof md); [|by repeat split].
  destruct (selectedRunnerDeliveryDiagnostic md g linked) as [id|d]; cbn.
  - split; [|done]. intros _. repeat split; try done. by exists id.
  - split; [done|]. intros (_ & _ & _ & _ & _ & Hd). by destruct (Hd eq_refl).
Qed.

Definition first_link (x : EventEnvelope) (own b : list EventEnvelope) (e : EventEnvelope) : Prop :=
  (exists a, own = b ++ e :: a) /\ links x b e /\ forall b1 y b2, b = b1 ++ y :: b2 -> ~ links x b1 y.

Lemma first_link_unique x own b e b' e' : first_link x own b e -> first_link x own b' e' -> e = e'.
Proof.
  intros ([a ->] & Hl & Hb) ([a' Heq] & Hl' & Hb').
  apply app_eq_inv in Heq as [(k & -> & Hk)|(k & -> & Hk)]; destruct k as [|y k]; injection Hk as -> ->; try done.
  - by destruct (Hb b' y k).
  - by destruct (Hb' b y k).
Qed.

Lemma runner_evidence_iff md x own :
  runner_evidence md x own <->
  (forall e, e ∈ own -> ~ fails e) /\ 0 < grant_turn x /\ (exists e, e ∈ own /\ starts x e) /\
  (exists e, e ∈ own /\ succeeds x e) /\
  exists b e, first_link x own b e /\ (requiresSelectedRunnerDeliveryProof md = true ->
    delivery_problem (default no_surface (md_surface md)) (selectedRunnerMember x) e = None).
Proof.
  split.
  - intros [? ? ? ? (b & e & a & ? & ? & ? & ?)]. do 4 (split; [done|]). exists b, e. split; [|done]. by split; [exists a|].
  - intros (? & ? & ? & ? & b & e & ([a ?] & ? & ?) & ?). split; try done. by exists b, e, a.
Qed.

Lemma facts_first_link x own g : facts x own g ->
  (ga_speeches g = [] /\ forall b e, ~ first_link x own b e) \/
  exists b e rest, ga_speeches g = ev_event_id e :: rest /\ first_link x own b e.
Proof.
  intros H. pose proof (fc_speeches _ _ _ H) as Hs. destruct (ga_speeches g) as [|id rest].
  - left. split; [done|]. intros b e ([a Ha] & Hl & _). by eapply Hs.
  - right. destruct Hs as (b & e & a & Ho & ? & ? & <-). exists b, e, rest. split; [done|]. by split; [exists a|].
Qed.

(** A row passes exactly when the events that made it prove the selection. *)
Lemma verdict_evidence md linked x own g :
  facts x own g ->
  (forall e, e ∈ own -> forall e', linked !! ev_event_id e = Some e' -> e' = e) ->
  (forall id, id ∈ ga_speeches g -> is_Some (linked !! id)) ->
  (ga_pass (grant_verdict md linked g).1 = true <-> runner_evidence md x own).
Proof.
  intros H Hlink Hsome. rewrite verdict_pass, runner_evidence_iff.
  rewrite (fc_failed _ _ _ H), (fc_turn _ _ _ H), (fc_started _ _ _ H), (fc_succeeded _ _ _ H).
  do 4 (apply and_iff_compat_l). destruct (facts_first_link _ _ _ H) as [[Hnil Hno]|(b & e & rest & Hs & Hf)].
  - split; [by intros [? _]|]. intros (b & e & Hf & _). by destruct (Hno b e).
  - assert (He : linked !! ev_event_id e = Some e).
    { destruct (Hsome (ev_event_id e)) as [e' He']; [rewrite Hs; set_solver|]. rewrite He'. f_equal. apply Hlink; [|done].
      destruct Hf as ([a ->] & _). set_solver. }
    assert (Hd : (exists id, selectedRunnerDeliveryDiagnostic md g linked = Ok id) <->
                 (requiresSelectedRunnerDeliveryProof md = true ->
                  delivery_problem (default no_surface (md_surface md)) (selectedRunnerMember x) e = None)).
    { unfold selectedRunnerDeliveryDiagnostic. destruct (requiresSelectedRunnerDeliveryProof md); [|by split; [|exists ""]].
      rewrite Hs. cbn. rewrite He. unfold selectedRunnerSpeechDeliveryDiagnostic. cbv zeta. rewrite (fc_member _ _ _ H).
      destruct (delivery_problem _ _ e) as [p|]; cbn; [|by split; [|eauto]].
      split; [by intros [? ?]|]. intros Hp. by specialize (Hp eq_refl). }
    split.
    + intros [_ Hp]. exists b, e. split; [done|]. apply Hd. destruct (requiresSelectedRunnerDeliveryProof md) eqn:Hr; [auto|].
      exists "". unfold selectedRunnerDeliveryDiagnostic. by rewrite Hr.
    + intros (b' & e' & Hf' & Hp). rewrite (first_link_unique _ _ _ _ _ _ Hf' Hf) in Hp. split; [by rewrite Hs|]. intros _. by apply Hd.
Qed.

(** ** The accounting *)

Lemma owned_plain l s o id evs :
  replays l s o -> plain_ids l -> ow_events o !! id = Some evs ->
  Forall (fun e => ev_event_id e <> "" /\ trim_space (ev_event_id e) = ev_event_id e) evs.
Proof.
  intros H [_ Hp] He. destruct (rp_events _ _ _ H _ _ He) as [_ Hsub].
  rewrite Forall_forall in *. intros e Hin. by apply Hp, Hsub.
Qed.

Lemma row_verdict md echoes l x :
  plain_ids l -> x ∈ selections l ->
  let s := foldl (scan_step echoes) empty_scan l in
  (ga_pass (grant_verdict md (sc_linked s) (row_of (foldl own_step nobody l) x)).1 = true <->
   runner_evidence md x (owned l (ev_event_id x))).
Proof.
  intros Hp Hx. cbv zeta. pose proof (scan_replays echoes l Hp) as H. unfold owned, row_of.
  set (o := foldl own_step nobody l) in *. set (s := foldl (scan_step echoes) empty_scan l) in *.
  set (own := default [] (ow_events o !! ev_event_id x)).
  assert (Hown : Forall (fun e => ev_event_id e <> "" /\ trim_space (ev_event_id e) = ev_event_id e) own /\ own ⊆ l).
  { unfold own. destruct (ow_events o !! ev_event_id x) as [evs|] eqn:E; cbn; [|split; [constructor|set_solver]].
    split; [by eapply owned_plain|]. by apply (rp_events _ _ _ H) in E as [_ ?]. }
  destruct Hown as [Hids Hsub]. apply verdict_evidence; [by apply replay_facts| |].
  - intros e He e' Hl. apply (rp_linked _ _ _ H) in Hl as [Hin Hid]. apply (plain_inj l); auto.
  - intros id Hid. by apply (rp_speeches _ _ _ H x).
Qed.

Lemma verdict_selected md linked g : ga_selected (grant_verdict md linked g).1 = ga_selected g.
Proof.
  unfold grant_verdict. cbv zeta.
  repeat (match goal with
          | |- context [if ?b then _ else _] => destruct b
          | |- context [match selectedRunnerDeliveryDiagnostic md g linked with _ => _ end] =>
              destruct (selectedRunnerDeliveryDiagnostic md g linked)
          end; try done).
Qed.

Lemma nonempty_iff {A} (l : list A) : nonempty l = true <-> l <> [].
Proof. by destruct l. Qed.

Lemma accounting_rows md ix :
  plain_ids (ix_events ix) ->
  let a := SelectedRunnerAccountingFromIndex md ix in
  Forall2 (fun x g => ga_selected g = ev_event_id x /\
             (ga_pass g = true <-> runner_evidence md x (owned (ix_events ix) (ev_event_id x))))
    (selections (ix_events ix)) (sa_runners a) /\
  (sa_pass a = true <-> selections (ix_events ix) <> [] /\
     forall x, x ∈ selections (ix_events ix) -> runner_evidence md x (owned (ix_events ix) (ev_event_id x))).
Proof.
  intros Hp. unfold SelectedRunnerAccountingFromIndex, scan_log. cbv zeta. cbn [sa_runners sa_pass].
  set (echoes := selectedRunnerVisibleDeliveryEchoEventIDs md ix). set (l := ix_events ix) in *.
  pose proof (fun x => row_verdict md echoes l x Hp) as Hv. cbv zeta in Hv. pose proof (scan_replays echoes l Hp) as H.
  set (s := foldl (scan_step echoes) empty_scan l) in *. set (o := foldl own_step nobody l) in *.
  rewrite (rp_grants _ _ _ H). split.
  - rewrite !map_map. apply Forall2_fmap_r, Forall2_same_length_lookup. split; [done|].
    intros i x y Hx Hy. rewrite Hx in Hy. injection Hy as <-. 
    unfold compose. rewrite verdict_selected, row_selected. split; [done|]. apply Hv. by eapply list_elem_of_lookup_2.
  - rewrite andb_true_iff, nonempty_iff, forallb_forall. split.
    + intros [Hne Hall]. split; [intros Hs; apply Hne; by rewrite Hs|]. intros x Hx. apply Hv; [done|]. apply Hall.
      apply in_map, in_map. by apply list_elem_of_In.
    + intros [Hne Hall]. split; [by destruct (selections l)|]. intros v Hin.
      apply in_map_iff in Hin as (g & <- & (x & <- & Hx)%in_map_iff). apply list_elem_of_In in Hx. apply Hv; auto.
Qed.

(** ** The chain of one invocation *)

(** The own events of a selection whose runner was run once, as a dispatch does it:
    they name one invocation, nothing starts after a success, and nothing
    succeeds after the speech. *)
Record single_run (x : EventEnvelope) (own : list EventEnvelope) : Prop := mk_single_run {
  sn_one : forall e f r q, e ∈ own -> f ∈ own -> ev_runner e = Some r -> ev_runner f = Some q ->
    rn_invocation_id r = rn_invocation_id q;
  sn_started : forall b e a y, own = b ++ e :: a -> succeeds x e -> y ∈ a -> ~ starts x y;
  sn_succeeded : forall b e a y, own = b ++ e :: a -> links x b e -> y ∈ a -> ~ succeeds x y }.

(** The causal chain [speaker_selected], [runner_invocation_started],
    [runner_invocation_succeeded], [speech]: of one invocation, for the selected
    member and turn, without any failure, and delivered where that is required. *)
Record causal_chain (md : SessionMetadata) (x : EventEnvelope) (own : list EventEnvelope) : Prop := mk_causal_chain {
  cc_turn : 0 < grant_turn x;
  cc_clean : forall e, e ∈ own -> ~ fails e;
  cc_chain : exists i a started b succeeded c speech d,
    own = a ++ started :: b ++ succeeded :: c ++ speech :: d /\ i <> "" /\
    starts x started /\ succeeds x succeeded /\ first_link x own (a ++ started :: b ++ succeeded :: c) speech /\
    runner_invocation started = i /\ runner_invocation succeeded = i /\ runner_invocation speech = i /\
    (requiresSelectedRunnerDeliveryProof md = true ->
     delivery_problem (default no_surface (md_surface md)) (selectedRunnerMember x) speech = None) }.

Lemma chain_evidence md x own : causal_chain md x own -> runner_evidence md x own.
Proof.
  intros [Ht Hc (i & a & s & b & u & c & p & d & Hown & _ & Hs & Hu & Hf & _ & _ & _ & Hd)].
  apply runner_evidence_iff. split; [done|]. split; [done|]. split; [exists s; split; [rewrite Hown; set_solver|done]|].
  split; [exists u; split; [rewrite Hown; set_solver|done]|]. by eexists _, p.
Qed.

(** An event of an event list that is not another one is before or after it. *)
Lemma elem_split_ne {A} (l b a : list A) x y : l = b ++ y :: a -> x ∈ l -> x <> y -> x ∈ b \/ x ∈ a.
Proof. intros ->. rewrite elem_of_app, elem_of_cons. naive_solver. Qed.

Lemma evidence_chain md x own : single_run x own -> runner_evidence md x own -> causal_chain md x own.
Proof.
  intros [Hone Hstart Hsucc] Hr. pose proof (proj1 (runner_evidence_iff _ _ _) Hr) as (Hc & Ht & (s & Hs & Hss) & (u & Hu & Huu) & b0 & p & Hf & Hd).
  split; [done|done|]. pose proof Hf as ([a0 Hown] & Hl & _).
  assert (Hub : u ∈ b0).
  { destruct (elem_split_ne _ _ _ u p Hown Hu) as [H|H]; [|done|by destruct (Hsucc _ _ _ _ Hown Hl H)].
    intros ->. destruct Huu as [H1 _], Hl as [H2 _]. congruence. }
  apply list_elem_of_split in Hub as (b1 & b2 & ->).
  assert (Hown2 : own = b1 ++ u :: (b2 ++ p :: a0)) by (rewrite Hown; by rewrite <- app_assoc).
  assert (Hsb : s ∈ b1).
  { destruct (elem_split_ne _ _ _ s u Hown2 Hs) as [H|H]; [|done|by destruct (Hstart _ _ _ _ Hown2 Huu H)].
    intros ->. destruct Huu as [H1 _], Hss as [H2 _]. congruence. }
  apply list_elem_of_split in Hsb as (c1 & c2 & ->).
  destruct Hss as [Hs1 (rs & Hrs & Hm)], Huu as [Hu1 (ru & Hru & ?)], Hl as [Hl1 (rp & Hrp & ?)].
  assert (Hp : p ∈ own) by (rewrite Hown; set_solver).
  exists (rn_invocation_id ru), c1, s, c2, u, b2, p, a0. unfold runner_invocation. rewrite Hrs, Hru, Hrp.
  split; [rewrite Hown2; by rewrite <- app_assoc|]. split; [by destruct_and?|].
  split; [by split; [|exists rs]|]. split; [by split; [|exists ru]|].
  split; [|split; [by apply (Hone s u)|split; [done|split; [by apply (Hone p u)|done]]]].
  replace (c1 ++ s :: c2 ++ u :: b2) with ((c1 ++ s :: c2) ++ u :: b2) by (by rewrite <- app_assoc). done.
Qed.

Lemma evidence_iff_chain md x own : single_run x own -> (runner_evidence md x own <-> causal_chain md x own).
Proof. intros H. split; [by apply evidence_chain|apply chain_evidence]. Qed.

(** C32. The selected-runner accounting passes exactly when the log proves the causal
    chain: in a log whose event ids are distinct and in which the runner of every
    selection was run once, the accounting has one row per [speaker_selected] event,
    in their order, and a row passes if and only if the events that belong to that
    selection hold, in this order, a start, a success and a speech of one
    invocation of the selected member, for its positive turn, no failure, discard
    or dispatch failure, and (where the council demands it) a matching delivery
    of the speech; the session passes if and only if somebody was selected and
    every selection has its chain. *)
Theorem selected_runner_pass_spec md ix (Hids : plain_ids (ix_events ix))
    (Hrun : forall x, x ∈ selections (ix_events ix) -> single_run x (owned (ix_events ix) (ev_event_id x))) :
  let a := SelectedRunnerAccountingFromIndex md ix in
  Forall2 (fun x g => ga_selected g = ev_event_id x /\
             (ga_pass g = true <-> causal_chain md x (owned (ix_events ix) (ev_event_id x))))
    (selections (ix_events ix)) (sa_runners a) /\
  (sa_pass a = true <-> selections (ix_events ix) <> [] /\
     forall x, x ∈ selections (ix_events ix) -> causal_chain md x (owned (ix_events ix) (ev_event_id x))).
Proof.
  destruct (accounting_rows md ix Hids) as [Hrows Hall]. split.
  - apply Forall2_same_length_lookup. apply Forall2_same_length_lookup in Hrows as [Hlen Hrows]. split; [done|].
    intros i x g Hx Hg. destruct (Hrows _ _ _ Hx Hg) as [Hid Hp]. split; [done|]. rewrite Hp.
    apply evidence_iff_chain, Hrun. by eapply list_elem_of_lookup_2.
  - rewrite Hall. apply and_iff_compat_l. split; intros H x Hx; apply (evidence_iff_chain md _ _ (Hrun x Hx)), H, Hx.
Qed.

Lemma find_first_forall2 {A B} (P : A -> B -> Prop) (f : B -> bool) l k :
  Forall2 P l k -> match find_first f k with
                   | Some b => f b = true /\ exists a, a ∈ l /\ P a b
                   | None => forall b, b ∈ k -> f b = false
                   end.
Proof.
  unfold find_first. induction 1 as [|a b l k Hab H IH]; cbn; [by intros b ?%elem_of_nil|].
  destruct (f b) eqn:Hf; [split; [done|]; exists a; set_solver|].
  destruct (List.find f k) as [y|].
  - destruct IH as (? & x & ? & ?). split; [done|]. exists x. split; [by right|done].
  - intros y [->|Hy]%elem_of_cons; auto.
Qed.

(** The prerequisite of the next grant, which reads the accounting, is ready
    for a selection exactly when that selection is in the log and proved. *)
Theorem runner_prerequisite_ready md ix id (Hids : plain_ids (ix_events ix)) :
  pq_ready (selectedRunnerEvidenceFromAccounting (SelectedRunnerAccountingFromIndex md ix) id) = true <->
  exists x, x ∈ selections (ix_events ix) /\ ev_event_id x = id /\ runner_evidence md x (owned (ix_events ix) id).
Proof.
  pose proof (accounting_rows md ix Hids) as [H _]. unfold selectedRunnerEvidenceFromAccounting.
  pose proof (find_first_forall2 _ (fun g => ga_selected g == id) _ _ H) as Hf.
  destruct (find_first _ _) as [g|] eqn:E.
  - destruct Hf as (Heq & x & Hx & Hid & Hp). apply String.eqb_eq in Heq. rewrite Hid in Heq. subst id.
    assert (Hg : ga_pass g = true <-> exists y, y ∈ selections (ix_events ix) /\ ev_event_id y = ev_event_id x /\
                   runner_evidence md y (owned (ix_events ix) (ev_event_id x))).
    { rewrite Hp. split; [intros Hr; by exists x|]. intros (y & Hy & Heq & Hr).
      assert (y = x) as ->; [|done]. apply in_selections in Hx as [? _]. apply in_selections in Hy as [? _].
      by apply (plain_inj (ix_events ix)). }
    rewrite <- Hg. by destruct (ga_pass g).
  - split; [done|]. intros (x & Hx & <- & _). apply list_elem_of_lookup in Hx as [i Hi].
    destruct (Forall2_lookup_l _ _ _ _ _ H Hi) as (g & Hg & Hsel & _). apply list_elem_of_lookup_2 in Hg.
    specialize (Hf _ Hg). cbn in Hf. by rewrite Hsel, String.eqb_refl in Hf.
Qed.


(** ** A concrete council *)

Definition rx_runner (invocation status : string) : option RunnerInfo :=
  Some (mk_runner invocation "exec" "ann" 1 false "" status None).

(** An event of ann's runner, which names its selection. *)
Definition rx_event (cmd ty : string) (runner : option RunnerInfo) (p : payload) : EventEnvelope :=
  let e := fx_event fx_council_md cmd ty "discussion" "ann" ["mod"] (<["selected_event_id" := AStr "evt_sel"]> p) in
  mk_event 1 (ev_event_id e) cmd "evt_sel" "sess_council" "sess_council" SessionTypeCouncil None "discussion" ty "ann" ["mod"]
    fx_now runner None (ev_payload e).

Definition rx_selected : EventEnvelope :=
  fx_event fx_council_md "sel" "speaker_selected" "discussion" "mod" ["ann"] {[ "member" := AStr "ann"; "turn" := AInt 1 ]}.

Definition rx_started (invocation : string) : EventEnvelope :=
  rx_event ("start_" +:+ invocation) "runner_invocation_started" (rx_runner invocation "started") ∅.
Definition rx_succeeded (invocation : string) : EventEnvelope :=
  rx_event ("done_" +:+ invocation) "runner_invocation_succeeded" (rx_runner invocation "succeeded") ∅.
Definition rx_speech (invocation : string) : EventEnvelope :=
  rx_event ("say_" +:+ invocation) "speech" (rx_runner invocation "succeeded") {[ "turn" := AInt 1 ]}.

Definition rx_ix : LogIndex := fx_index [rx_selected; rx_started "inv_a"; rx_succeeded "inv_a"; rx_speech "inv_a"].

(** The invocation that succeeded, [inv_b], is not the one that started and
    spoke, and its success comes after the speech. *)
Definition rx_mixed : LogIndex := fx_index [rx_selected; rx_started "inv_a"; rx_speech "inv_a"; rx_succeeded "inv_b"].

Definition rx_failed : LogIndex :=
  fx_index (ix_events rx_ix ++ [rx_event "late" "runner_invocation_failed" (rx_runner "inv_a" "failed") ∅]).

Example rx_passes :
  map (fun ix => sa_pass (SelectedRunnerAccountingFromIndex fx_council_md ix)) [rx_ix; rx_mixed; rx_failed; fx_index [rx_selected]; fx_index []]
  = [true; true; false; false; false].
Proof. vm_compute. reflexivity. Qed.

Lemma rx_plain : plain_ids (ix_events rx_ix).
Proof.
  split; [apply (bool_decide_unpack _); vm_compute; exact I|]. vm_compute. repeat constructor; discriminate.
Qed.

(** A start, a success and a speech of one invocation are a run. *)
Lemma run_once x i own :
  map ev_type own = ["runner_invocation_started"; "runner_invocation_succeeded"; "speech"] ->
  forallb (fun e => runner_invocation e == i) own = true -> single_run x own.
Proof.
  intros Ht Hi. destruct own as [|s [|u [|p [|]]]]; try done. injection Ht as Hs Hu Hp.
  rewrite forallb_forall in Hi. split.
  - intros e f r q He Hf Hr Hq. apply list_elem_of_In, Hi, String.eqb_eq in He, Hf. unfold runner_invocation in *.
    rewrite Hr in He. rewrite Hq in Hf. congruence.
  - intros b e a y Heq [He _] Hy [Hyt _]. destruct b as [|? [|? [|? [|]]]]; simplify_list_eq;
      first [congruence | by apply elem_of_nil in Hy | apply list_elem_of_singleton in Hy; congruence].
  - intros b e a y Heq [He _] Hy [Hyt _]. destruct b as [|? [|? [|? [|]]]]; simplify_list_eq;
      first [congruence | by apply elem_of_nil in Hy | apply list_elem_of_singleton in Hy; congruence].
Qed.

Lemma rx_run_once x : x ∈ selections (ix_events rx_ix) -> single_run x (owned (ix_events rx_ix) (ev_event_id x)).
Proof.
  intros Hx. replace (selections (ix_events rx_ix)) with [nth 0 (selections (ix_events rx_ix)) x] in Hx by (vm_compute; reflexivity).
  apply list_elem_of_singleton in Hx. rewrite Hx. apply (run_once _ "inv_a"); vm_compute; reflexivity.
Qed.

Lemma selected_runner_pass_spec_witness :
  causal_chain fx_council_md rx_selected (owned (ix_events rx_ix) "evt_sel").
Proof.
  destruct (selected_runner_pass_spec fx_council_md rx_ix rx_plain rx_run_once) as [_ [H _]].
  destruct H as [_ H]; [vm_compute; reflexivity|]. apply (H rx_selected). vm_compute. constructor.
Defined.

Lemma runner_prerequisite_ready_witness :
  plain_ids (ix_events rx_ix) /\ exists x, x ∈ selections (ix_events rx_ix) /\ ev_event_id x = "evt_sel" /\
  runner_evidence fx_council_md x (owned (ix_events rx_ix) "evt_sel").
Proof.
  split; [exact rx_plain|]. apply (runner_prerequisite_ready fx_council_md rx_ix "evt_sel" rx_plain). vm_compute. reflexivity.
Defined.
