(* ===== verification/Council.v ===== *)
(** * Councils (storage/council.go)

    The transitions of a council: every command of the moderator, a member or
    the daemon is checked against the log and proposed as one event; the
    response window of a poll closes when every member answered or its deadline
    passed, and the daemon then drops the missing members. *)

From S2P Require Import Prelude GoValue GoTime Model Ids Evidence Events EventLog LogSpec Command Delegation Closeout Lifecycle ArgumentGraph.

Definition defaultCouncilResponseWindowSec : Z := 120.

Record CouncilEventSpec := mk_council_spec {
  cn_action : string; cn_actor : string; cn_command_id : string; cn_causation : string;
  cn_payload : option payload; cn_now : time }.

(** ** The roster *)

Definition isReservedNormalPrincipal (principal : string) : bool :=
  (principal == "user") || (principal == daemonPrincipal).

Fixpoint canonical_members (moderator : string) (seen raw : list string) : result error (list string) :=
  match raw with
  | [] => Ok []
  | value :: rest =>
      let bad message := NewValidationError CategoryPrincipalInvalid "members" message in
      let member := trim_space value in
      reject member == "" with bad "member id is required";;
      reject isReservedNormalPrincipal member with bad "reserved principal cannot be a council member";;
      reject member == moderator with bad "moderator must not be included in council members";;
      reject mem_str member seen with bad "duplicate council member";;
      try members := canonical_members moderator (member :: seen) rest in
      Ok (member :: members)
  end.

Definition canonicalCouncilMembers (moderator : string) (raw : list string) : result error (list string) :=
  reject len_z raw =? 0 with
    NewValidationError CategoryPrincipalInvalid "members" "at least one council member is required";;
  try members := canonical_members moderator [] raw in
  reject isReservedNormalPrincipal moderator with
    NewValidationError CategoryPrincipalInvalid "moderator" "reserved principal cannot be moderator";;
  Ok members.

Definition validTurnMode (mode : string) : bool :=
  mem_str mode ["relevance"; "targeted"; "random"; "moderator_direct"; "role_order"].

(** ** Payload guards *)

Definition positivePayloadInt (p : payload) (key : string) : Z := anyInt p key.

Definition requirePayloadOptionalTimeout (p : payload) : result error unit :=
  reject positivePayloadInt p "timeout_sec" <? 0 with
    NewValidationError CategoryInvalidEnvelope "timeout_sec" "timeout_sec must be positive";;
  Ok tt.

Definition requireTurn (p : payload) (fallback : Z) : result error Z :=
  let given := positivePayloadInt p "turn" in
  let turn := if given =? 0 then fallback else given in
  reject turn <=? 0 with NewValidationError CategoryInvalidEnvelope "turn" "positive turn is required";;
  Ok turn.

(** [strings.TrimSpace(payloadStringDefault(p, key, "")) == ""] *)
Definition blank_key (p : payload) (key : string) : bool := is_blank (payloadStringDefault p key "").

Definition fillSurfacePayload (md : SessionMetadata) (p : payload) : payload :=
  match md_surface md with
  | None => p
  | Some s =>
      let p1 := <["surface_kind" := AStr (su_kind s)]> p in
      if su_thread_id s == "" then p1 else <["thread_id" := AStr (su_thread_id s)]> p1
  end.

(** ** Attendance and agenda *)

Definition attendance_statuses : list string := ["present"; "partial"; "unavailable"; "no_response_timeout"].

Definition missingMembers (md : SessionMetadata) (marked : list string) : list string :=
  List.filter (fun m => negb (mem_str m marked)) (councilMembers md).

Definition allMembersMarked (md : SessionMetadata) (marked : list string) : bool :=
  len_z (missingMembers md marked) =? 0.

Record attendance := mk_attendance { at_requested : bool; at_attended : list string; at_agenda : bool }.

Definition attending_member (e : EventEnvelope) : string :=
  let member := payloadStringDefault (pl e) "member" "" in
  if member == "" then ev_from e else member.

Definition attendance_step (md : SessionMetadata) (a : attendance) (e : EventEnvelope) : attendance :=
  if ev_type e == "attendance_requested" then mk_attendance true (at_attended a) (at_agenda a)
  else if ev_type e == "member_attended" then
    if at_requested a && councilMember md (attending_member e)
       && allowedString (payloadStringDefault (pl e) "status" "") attendance_statuses
    then mk_attendance true (attending_member e :: at_attended a) (at_agenda a) else a
  else if ev_type e == "agenda_locked" then
    if at_requested a && allMembersMarked md (at_attended a)
    then mk_attendance (at_requested a) (at_attended a) true else a
  else a.

Definition validateAttendanceAgendaGuard (md : SessionMetadata) (ix : LogIndex) : result error unit :=
  match discord_thread md with
  | None => Ok tt
  | Some _ =>
      let a := foldl (attendance_step md) (mk_attendance false [] false) (ix_events ix) in
      ensure at_requested a or
        NewValidationError CategoryCommandConflict "attendance_requested"
          "discord_thread council requires attendance_requested before prepare";;
      ensure allMembersMarked md (at_attended a) or
        NewValidationError CategoryCommandConflict "member_attended"
          ("discord_thread council requires terminal attendance for all members: " +:+
           join "," (missingMembers md (at_attended a)));;
      ensure at_agenda a or
        NewValidationError CategoryCommandConflict "agenda_locked"
          "discord_thread council requires agenda_locked after attendance";;
      Ok tt
  end.

(** ** Response windows *)

Record responseWindowProjection := mk_window {
  rw_event : string; rw_id : string; rw_turn : Z; rw_opened : time; rw_deadline : time;
  rw_duration : Z; rw_required : list string }.

Definition responseWindowID (sessionID : string) (turn : Z) (requestEventID : string) : string :=
  "rw_" +:+ sessionID +:+ "_" +:+ itoa turn +:+ "_" +:+ requestEventID.

(** The instant a payload key holds as RFC 3339 text, else [fallback]. *)
Definition payload_time (p : payload) (key : string) (fallback : time) : time :=
  let text := payloadStringDefault p key "" in
  if text == "" then fallback else default fallback (time_parse text).

(** [openedAt.Add(time.Duration(seconds) * time.Second)] *)
Definition add_seconds (t : time) (seconds : Z) : time := t + wrap64 (seconds * second).

Definition window_of (turn : Z) (e : EventEnvelope) : responseWindowProjection :=
  let openedAt := payload_time (pl e) "response_window_opened_at" (ev_created_at e) in
  let given := anyInt (pl e) "response_window_duration_sec" in
  let duration := if given <=? 0 then defaultCouncilResponseWindowSec else given in
  let deadline := payload_time (pl e) "response_window_deadline_at" (add_seconds openedAt duration) in
  let required := match payloadStringSlice (pl e) "required_members" with
                  | Some (m :: l) => m :: l
                  | _ => ev_to e
                  end in
  let given_id := payloadStringDefault (pl e) "response_window_id" "" in
  let id := if given_id == "" then responseWindowID (ev_session_id e) turn (ev_event_id e) else given_id in
  mk_window (ev_event_id e) id turn openedAt deadline duration required.

Definition latestResponseWindowForTurn (ix : LogIndex) (turn : Z) : option responseWindowProjection :=
  if turn <=? 0 then None
  else window_of turn <$>
       find_last (fun e => (ev_type e == "hand_raise_requested") && (anyInt (pl e) "turn" =? turn)) (ix_events ix).

Definition responseWindowResponseMember (e : EventEnvelope) : string :=
  if (ev_type e == "hand_raise_dropped") && negb (blank_key (pl e) "member")
  then trim_space (payloadStringDefault (pl e) "member" "")
  else trim_space (ev_from e).

Definition is_response (turn : Z) (e : EventEnvelope) : bool :=
  mem_str (ev_type e) ["hand_raise"; "hand_raise_dropped"] && (anyInt (pl e) "turn" =? turn).

Definition auto_drop (e : EventEnvelope) : bool := (ev_type e == "hand_raise_dropped") && anyBool (pl e) ["auto"].

Definition response_row (e : EventEnvelope) : payload :=
  let base : payload :=
    {[ "member" := AStr (responseWindowResponseMember e); "event_id" := AStr (ev_event_id e);
       "type" := AStr (ev_type e); "created_at" := AStr (time_format (ev_created_at e)) ]} in
  if auto_drop e
  then <["auto_reason" := AStr (payloadStringDefault (pl e) "auto_reason" "")]> (<["auto" := ABool true]> base)
  else base.

(** The responses to a turn, in log order. *)
Definition responses (ix : LogIndex) (turn : Z) : list EventEnvelope :=
  List.filter (fun e => is_response turn e && (responseWindowResponseMember e != "")) (ix_events ix).

Definition responded_rows (ix : LogIndex) (turn : Z) : gmap string payload :=
  foldl (fun rows e => <[responseWindowResponseMember e := response_row e]> rows) ∅ (responses ix turn).

Definition window_required (md : option SessionMetadata) (w : responseWindowProjection) : list string :=
  match rw_required w, md with
  | [], Some md => councilMembers md
  | l, _ => l
  end.

Definition window_missing (md : option SessionMetadata) (ix : LogIndex) (w : responseWindowProjection) : list string :=
  List.filter (fun m => match responded_rows ix (rw_turn w) !! m with Some _ => false | None => true end)
    (window_required md w).

Definition auto_drop_count (ix : LogIndex) (turn : Z) : Z :=
  len_z (List.filter auto_drop (responses ix turn)).

(** The state of a window and the reason it is closed. *)
Definition window_state (md : option SessionMetadata) (ix : LogIndex) (now : time)
    (w : responseWindowProjection) : string * string :=
  if (0 <? len_z (window_required md w)) && (len_z (window_missing md ix w) =? 0) then
    ("closed", if 0 <? auto_drop_count ix (rw_turn w) then "timeout" else "all_members_responded")
  else if negb (is_zero (rw_deadline w)) && (rw_deadline w <? now) then ("closed", "timeout")
  else ("open", "").

Definition responseWindowAccountingFromIndex (clock : time) (md : option SessionMetadata) (ix : LogIndex)
    (now : time) (turn : Z) : payload :=
  match latestResponseWindowForTurn ix turn with
  | None => {[ "configured" := ABool false ]}
  | Some w =>
      let '(state, reason) := window_state md ix (event_time clock now) w in
      let required := window_required md w in
      let missing := window_missing md ix w in
      let rows := map snd (sorted_entries (responded_rows ix turn)) in
      list_to_map [("configured", ABool true); ("turn", AInt turn); ("request_event_id", AStr (rw_event w));
         ("response_window_id", AStr (rw_id w)); ("duration_sec", AInt (rw_duration w));
         ("opened_at", AStr (time_format (rw_opened w))); ("deadline_at", AStr (time_format (rw_deadline w)));
         ("state", AStr state); ("closed_reason", AStr reason); ("required_members", AStrs required);
         ("required_count", AInt (len_z required)); ("responded_members", AMaps rows);
         ("responded_count", AInt (len_z rows)); ("missing_members", AStrs missing);
         ("missing_count", AInt (len_z missing)); ("auto_drop_count", AInt (auto_drop_count ix turn));
         ("participant_runtime_readiness", AStr "not_claimed_prslr004_pending")]
  end.

Definition validateResponseWindowAccepts (ix : LogIndex) (turn : Z) (responseAt : time) : result error unit :=
  match latestResponseWindowForTurn ix turn with
  | None => Ok tt
  | Some w =>
      let closed := NewValidationError CategoryCommandConflict "response_window"
                      "response window closed; late response is not eligible" in
      if is_zero (rw_deadline w) then Ok tt
      else
        reject rw_deadline w <? responseAt with closed;;
        reject fst (window_state None ix responseAt w) == "closed" with closed;;
        Ok tt
  end.

(** ** Questions to the log *)

Definition sameCommandEventType (ix : LogIndex) (commandID eventType : string) : bool :=
  let c := trim_space commandID in
  if (c == "") || is_blank eventType then false
  else existsb (fun e => (ev_command_id e == c) && (ev_type e == eventType)) (ix_events ix).

Definition grants (member : string) (turn : Z) (e : EventEnvelope) : bool :=
  (ev_type e == "speaker_selected") && (anyInt (pl e) "turn" =? turn)
  && ((payloadStringDefault (pl e) "member" "" == member)
      || match ev_to e with [t] => t == member | _ => false end).

Definition speakerGranted (ix : LogIndex) (member : string) (turn : Z) : bool :=
  existsb (grants member turn) (ix_events ix).

Definition selectedGrantStanceAssignment (ix : LogIndex) (member : string) (turn : Z) : string :=
  if (turn <=? 0) || is_blank member then ""
  else
    match find_last (fun e => (ev_type e == "hand_raise") && (trim_space (ev_from e) == trim_space member)
                              && (anyInt (pl e) "turn" =? turn)) (ix_events ix) with
    | None => ""
    | Some e =>
        let intent := trim_space (payloadStringDefault (pl e) "intent" "") in
        if intent != "" then intent else trim_space (payloadStringDefault (pl e) "reason" "")
    end.

(** An event that makes a second response of the member a conflict. *)
Definition conflicting_response (commandID member : string) (turn : Z) (eventType : string) (e : EventEnvelope) : bool :=
  mem_str (ev_type e) ["hand_raise"; "hand_raise_dropped"]
  && negb ((ev_command_id e != "") && (commandID != "") && (ev_command_id e == commandID) && (ev_type e == eventType))
  && (trim_space (ev_from e) == trim_space member) && (anyInt (pl e) "turn" =? turn)
  && negb ((eventType == "hand_raise") && (ev_type e != "hand_raise_dropped")).

Definition validateCouncilRaiseOrDropUnique (ix : LogIndex) (commandID member : string) (turn : Z)
    (eventType : string) : result error unit :=
  if (turn <=? 0) || is_blank member then Ok tt
  else
    reject existsb (conflicting_response commandID member turn eventType) (ix_events ix) with
      NewValidationError CategoryCommandConflict "hand_raise_response"
        "duplicate_conflicting_response for member and turn";;
    Ok tt.

Definition visible_echo (actor : string) (turn : Z) (e : EventEnvelope) : bool :=
  let surface := default ∅ (anyMap (pl e) ["surface_evidence"]) in
  (ev_type e == "speech") && (trim_space (ev_from e) == trim_space actor) && (eventTurn e =? turn)
  && match ev_runner e with Some r => negb (is_blank (rn_invocation_id r)) | None => false end
  && (trim_space (anyString surface ["status"]) == "posted")
  && (trim_space (anyString surface ["posting_path"]) == "selected_member_profile_send").

Definition validateNoPostedSelectedRunnerVisibleEcho (ix : LogIndex) (actor : string) (turn : Z) : result error unit :=
  if (turn <=? 0) || is_blank actor then Ok tt
  else
    reject existsb (visible_echo actor turn) (ix_events ix) with
      NewValidationError CategoryCommandConflict "visible_delivery_echo"
        "posted selected-runner speech already exists for this member and turn; do not re-record the Discord-visible echo as council.speak";;
    Ok tt.

Definition draft_max (m : Z) (e : EventEnvelope) : Z :=
  if ev_type e == "draft_conclusion" then Z.max m (anyInt (pl e) "draft_version") else m.

Definition latestDraftVersion (ix : LogIndex) : Z := foldl draft_max 0 (ix_events ix).

Definition latestConsensusRound (ix : LogIndex) : Z :=
  foldl (fun m e => Z.max m (anyInt (pl e) "consensus_round")) 0 (ix_events ix).

(** The draft and round of the open vote request. *)
Definition currentVoteRequest (ix : LogIndex) : option (Z * Z) :=
  match find_last (fun e => mem_str (ev_type e) ["consensus_vote_requested"; "draft_conclusion"]) (ix_events ix) with
  | Some e => if ev_type e == "consensus_vote_requested"
              then Some (anyInt (pl e) "draft_version", anyInt (pl e) "consensus_round") else None
  | None => None
  end.

Definition vote_in (round draft : Z) (e : EventEnvelope) : bool :=
  (ev_type e == "consensus_vote") && (anyInt (pl e) "consensus_round" =? round)
  && (anyInt (pl e) "draft_version" =? draft).

Definition duplicateVote (ix : LogIndex) (member : string) (round draft : Z) : bool :=
  existsb (fun e => vote_in round draft e && (ev_from e == member)) (ix_events ix).

Definition hasBlockVote (ix : LogIndex) : bool :=
  existsb (fun e => (ev_type e == "consensus_vote") && (payloadStringDefault (pl e) "vote" "" == "block"))
    (ix_events ix).

Definition hasEvidence (p : payload) : bool :=
  (0 <? len_z (anySlice p "evidence")) || negb (blank_key p "timeout_evidence").

(** ** Finalization *)

Definition validateLinkedAuthorityResult (md : SessionMetadata) (p : payload) : result error unit :=
  match md_linked_authority md with
  | None => Ok tt
  | Some _ =>
      let invalid path message := NewValidationError CategoryInvalidEnvelope path message in
      match anyMap p ["linked_authority_result"] with
      | None => Err (invalid "linked_authority_result" "linked authority result is required")
      | Some result =>
          let absent key := anyString result [key] == "" in
          let no_evidence := len_z (anySlice result "evidence") =? 0 in
          let status := anyString result ["status"] in
          if status == "posted" then
            reject absent "kanban_comment_id" && absent "vault_decision_note" && no_evidence with
              invalid "linked_authority_result" "posted result requires return evidence";;
            Ok tt
          else if status == "failed" then
            reject absent "failure_reason" with
              invalid "linked_authority_result.failure_reason" "failed result requires failure_reason";;
            Ok tt
          else if status == "pending_followup" then
            reject absent "followup_card_id" && no_evidence with
              invalid "linked_authority_result" "pending_followup requires followup evidence";;
            Ok tt
          else Err (invalid "linked_authority_result.status" "invalid linked authority result status")
      end
  end.

(** The votes of a round, the last one of each sender. *)
Definition votes_of (ix : LogIndex) (round draft : Z) : gmap string string :=
  foldl (fun votes e => if vote_in round draft e
                        then <[ev_from e := payloadStringDefault (pl e) "vote" ""]> votes else votes)
    ∅ (ix_events ix).

Fixpoint check_votes (votes : gmap string string) (members : list string) : result error unit :=
  match members with
  | [] => Ok tt
  | m :: rest =>
      let vote := default "" (votes !! m) in
      reject vote == "" with
        NewValidationError CategoryCommandConflict "vote" "finalize requires a vote from every council member";;
      reject vote == "block" with
        NewValidationError CategoryCommandConflict "vote" "blocking vote prevents finalization";;
      check_votes votes rest
  end.

Definition validateFinalizeReady (md : SessionMetadata) (ix : LogIndex) (p : payload) : result error unit :=
  match currentVoteRequest ix with
  | None => Err (NewValidationError CategoryCommandConflict "consensus_vote_requested"
                   "finalize requires an open vote request")
  | Some (draft, round) =>
      try _ := check_votes (votes_of ix round draft) (councilMembers md) in
      reject blank_key p "final_summary" with
        NewValidationError CategoryInvalidEnvelope "final_summary" "final_summary is required";;
      try _ := validateVisibleCloseoutEvidenceEnvelope md p in
      match lifecycleCloseoutDiagnostics md ix "finalization" ++ visibleCloseoutDiagnostics md p "finalization" with
      | [] => validateLinkedAuthorityResult md p
      | diagnostics => Err (closeoutDiagnosticsError diagnostics)
      end
  end.

(** ** Transitions *)

(** What [councilTransition] is called with.  [ca_now] is the command's own
    time, zero when it gave none; [ca_clock] is time.Now(). *)
Record call := mk_call {
  ca_md : SessionMetadata; ca_ix : LogIndex; ca_phase : Phase; ca_action : string; ca_actor : string;
  ca_command : string; ca_clock : time; ca_now : time }.

Record council_move := mk_move {
  cm_type : string; cm_phase : Phase; cm_from : string; cm_to : list string; cm_turn : option Z;
  cm_payload : payload }.

Abbreviation members c := (councilMembers (ca_md c)).
Abbreviation moderator c := (md_moderator (ca_md c)).
Abbreviation call_time c := (event_time (ca_clock c) (ca_now c)).

Definition councilPhase (c : call) (allowed : list Phase) : result error unit :=
  requirePhase (ca_action c) (ca_phase c) allowed.

Definition requireModerator (c : call) : result error unit :=
  reject ca_actor c != moderator c with
    NewValidationError CategoryPrincipalInvalid "actor" "only the council moderator may perform this action";;
  Ok tt.

Definition requireMember (c : call) : result error unit :=
  ensure councilMember (ca_md c) (ca_actor c) or
    NewValidationError CategoryPrincipalInvalid "actor" "actor is not a council member";;
  Ok tt.

Definition envelope_error (path message : string) : error := NewValidationError CategoryInvalidEnvelope path message.

Definition act_request_attendance (c : call) (p : payload) : result error council_move :=
  try _ := councilPhase c ["created"] in
  try _ := requireModerator c in
  let p1 := fillSurfacePayload (ca_md c) (<["required_members" := AStrs (members c)]> p) in
  try _ := requirePayloadOptionalTimeout p1 in
  Ok (mk_move "attendance_requested" "created" (ca_actor c) (members c) None p1).

(** The daemon speaks for the member its payload names. *)
Definition require_member_or_daemon (c : call) (p : payload) (message : string) : result error unit :=
  if ca_actor c == daemonPrincipal then
    ensure councilMember (ca_md c) (payloadStringDefault p "member" "") or
      NewValidationError CategoryPrincipalInvalid "member" message;;
    Ok tt
  else requireMember c.

Definition act_attend (c : call) (p : payload) : result error council_move :=
  try _ := councilPhase c ["created"] in
  try _ := require_member_or_daemon c p "timeout attendance member must be a council member" in
  ensure allowedString (payloadStringDefault p "status" "") attendance_statuses or
    envelope_error "status" "invalid attendance status";;
  Ok (mk_move "member_attended" "created" (ca_actor c) [moderator c] None p).

Definition agenda_keys : list string := ["decision_question"; "success_criteria"; "out_of_scope_policy"].

Fixpoint check_keys (p : payload) (keys : list string) : result error unit :=
  match keys with
  | [] => Ok tt
  | key :: rest =>
      reject blank_key p key with envelope_error key (key +:+ " is required");;
      check_keys p rest
  end.

Definition act_lock_agenda (c : call) (p : payload) : result error council_move :=
  try _ := councilPhase c ["created"] in
  try _ := requireModerator c in
  try _ := check_keys p agenda_keys in
  Ok (mk_move "agenda_locked" "created" (ca_actor c) (members c) None p).

Definition act_prepare (c : call) (p : payload) : result error council_move :=
  try _ := councilPhase c ["created"] in
  try _ := requireModerator c in
  try _ := validateAttendanceAgendaGuard (ca_md c) (ca_ix c) in
  let p1 := if has_key p "topic" then p else <["topic" := AStr (md_title (ca_md c))]> p in
  try _ := requirePayloadOptionalTimeout p1 in
  Ok (mk_move "preparation_requested" "preparation" (ca_actor c) (members c) None p1).

Definition act_ready (c : call) (p : payload) : result error council_move :=
  try _ := councilPhase c ["preparation"] in
  try _ := requireMember c in
  reject blank_key p "summary" with envelope_error "summary" "summary is required";;
  Ok (mk_move "member_ready" "preparation" (ca_actor c) [moderator c] None p).

Definition act_prepared_partial (c : call) (p : payload) : result error council_move :=
  try _ := councilPhase c ["preparation"] in
  try _ := require_member_or_daemon c p "partial preparation member must be a council member" in
  reject blank_key p "reason" with envelope_error "reason" "reason is required";;
  Ok (mk_move "member_prepared_partial" "preparation" (ca_actor c) [moderator c] None p).

Definition act_poll (c : call) (p : payload) : result error council_move :=
  try _ := councilPhase c ["preparation"; "discussion"] in
  try _ := requireModerator c in
  let given := positivePayloadInt p "turn" in
  let turn := if given =? 0 then nextCouncilTurn (ca_ix c) else given in
  let openedAt := call_time c in
  let deadlineAt := openedAt + defaultCouncilResponseWindowSec * second in
  let requestID := eventIDFromCommand "evt_hand_raise_requested" (ca_command c) in
  let p1 := <["required_members" := AStrs (members c)]>
            (<["response_window_deadline_at" := AStr (time_format deadlineAt)]>
            (<["response_window_opened_at" := AStr (time_format openedAt)]>
            (<["response_window_duration_sec" := AInt defaultCouncilResponseWindowSec]>
            (<["response_window_id" := AStr (responseWindowID (md_id (ca_md c)) turn requestID)]>
            (<["turn" := AInt turn]> p))))) in
  try _ := requirePayloadOptionalTimeout p1 in
  Ok (mk_move "hand_raise_requested" "discussion" (ca_actor c) (members c) (Some turn) p1).

Definition act_hand_raise (c : call) (p : payload) : result error council_move :=
  let ix := ca_ix c in
  try _ := councilPhase c ["discussion"] in
  try _ := requireMember c in
  try turn := requireTurn p (currentCouncilTurn ix) in
  let p1 := <["turn" := AInt turn]> p in
  try _ := (if sameCommandEventType ix (ca_command c) "hand_raise" then Ok tt
            else validateResponseWindowAccepts ix turn (call_time c)) in
  reject says_no p1 "wants_to_speak" with
    envelope_error "wants_to_speak" "wants_to_speak=false is not a council drop; use council.drop";;
  let p2 := if has_key p1 "wants_to_speak" then p1 else <["wants_to_speak" := ABool true]> p1 in
  try _ := validateCouncilRaiseOrDropUnique ix (ca_command c) (ca_actor c) turn "hand_raise" in
  try _ := validateArgumentGraphHandRaise ix p2 in
  Ok (mk_move "hand_raise" "discussion" (ca_actor c) [moderator c] (Some turn) p2).

(** Who drops: the actor, or the member the daemon drops automatically. *)
Definition dropped_member (c : call) (p : payload) : result error string :=
  let autoDrop := anyBool p ["auto"] in
  if (ca_actor c == daemonPrincipal) && autoDrop then
    let member := trim_space (payloadStringDefault p "member" "") in
    ensure councilMember (ca_md c) member or
      NewValidationError CategoryPrincipalInvalid "member" "timeout drop member must be a council member";;
    Ok member
  else
    try _ := requireMember c in
    reject autoDrop with
      envelope_error "auto" "auto=true council.drop is reserved for PRSLR-003 daemon timeout handling";;
    Ok (ca_actor c).

Definition check_drop_request (ix : LogIndex) (p : payload) (turn : Z) : result error unit :=
  let requestEventID := trim_space (payloadStringDefault p "request_event_id" "") in
  let bad message := envelope_error "request_event_id" message in
  reject requestEventID == "" with bad "drop requires matching hand_raise_requested event";;
  match eventByIDAndType ix requestEventID "hand_raise_requested" with
  | None => Err (bad "drop request_event_id must reference hand_raise_requested in this session")
  | Some requestEvent =>
      reject negb (anyInt (pl requestEvent) "turn" =? turn) with bad "drop request_event_id must match turn";;
      Ok tt
  end.

Definition act_drop (c : call) (p : payload) : result error council_move :=
  let ix := ca_ix c in
  try _ := councilPhase c ["discussion"] in
  try member := dropped_member c p in
  try turn := requireTurn p (currentCouncilTurn ix) in
  let p1 := <["turn" := AInt turn]> p in
  reject blank_key p1 "reason" with envelope_error "reason" "drop reason is required";;
  try _ := check_drop_request ix p1 turn in
  try _ := (if anyBool p ["auto"] || sameCommandEventType ix (ca_command c) "hand_raise_dropped" then Ok tt
            else validateResponseWindowAccepts ix turn (call_time c)) in
  try _ := validateCouncilRaiseOrDropUnique ix (ca_command c) member turn "hand_raise_dropped" in
  Ok (mk_move "hand_raise_dropped" "discussion" (ca_actor c) [moderator c] (Some turn)
        (<["wants_to_speak" := ABool false]> (<["member" := AStr member]> p1))).

(** The member a grant selects and the payload with the selection's reasons. *)
Definition granted_member (c : call) (p : payload) : result error (string * payload) :=
  let payloadMember := trim_space (payloadStringDefault p "member" "") in
  let payloadTo := trim_space (payloadStringDefault p "to" "") in
  reject (payloadMember != "") && (payloadTo != "") && (payloadMember != payloadTo) with
    envelope_error "member" "payload.member must match payload.to for speaker grant";;
  let member := firstNonEmptyString [payloadMember; payloadTo] in
  if (member == "") && anyBool p ["auto"] then
    try selection := autoCouncilSpeaker (ca_md c) (ca_ix c) in
    let p1 := if blank_key p "selection_mode" then <["selection_mode" := AStr "relevance"]> p else p in
    let p2 := if blank_key p1 "reason" && (as_reason selection != "")
              then <["reason" := AStr (as_reason selection)]> p1 else p1 in
    let p3 := <["selection_score" := AInt (as_score selection)]> p2 in
    Ok (as_member selection,
        if bool_decide (as_need selection = ∅) then p3 else <["graph_need" := AMap (as_need selection)]> p3)
  else Ok (member, p).

(** The selection mode, and the payload that records it. *)
Definition grant_mode (c : call) (p : payload) : result error payload :=
  let turnMode := md_turn_mode (ca_md c) in
  let given := payloadStringDefault p "selection_mode" "" in
  let mode := if given == "" then defaultString turnMode "moderator_direct" else given in
  let p1 := if given == "" then <["selection_mode" := AStr mode]> p else p in
  ensure validTurnMode mode or envelope_error "selection_mode" "unsupported selection_mode";;
  reject (turnMode != "") && (mode != turnMode) && blank_key p1 "reason" with
    envelope_error "reason" "reason is required when selection_mode deviates from turn_mode";;
  Ok p1.

Definition act_grant (c : call) (p : payload) : result error council_move :=
  let ix := ca_ix c in
  try _ := councilPhase c ["discussion"] in
  try _ := requireModerator c in
  try selected := granted_member c p in
  let '(member, p1) := selected in
  ensure councilMember (ca_md c) member or
    NewValidationError CategoryPrincipalInvalid "member" "selected speaker must be a council member";;
  let p2 := <["member" := AStr member]> p1 in
  try turn := requireTurn p2 (currentCouncilTurn ix) in
  try p3 := grant_mode c (<["turn" := AInt turn]> p2) in
  let stanceAssignment := trim_space (selectedGrantStanceAssignment ix member turn) in
  reject stanceAssignment == "" with
    envelope_error "stance_assignment" "speaker grant requires matching hand_raise intent or reason";;
  Ok (mk_move "speaker_selected" "discussion" (ca_actor c) [member] (Some turn)
        (<["stance_assignment" := AStr stanceAssignment]> (delete "stance_assignment" p3))).

Definition act_speak (c : call) (p : payload) : result error council_move :=
  let ix := ca_ix c in
  try _ := councilPhase c ["discussion"] in
  try _ := requireMember c in
  try turn := requireTurn p (currentCouncilTurn ix) in
  ensure speakerGranted ix (ca_actor c) turn or
    NewValidationError CategoryCommandConflict "speaker_selected" "speaker must be selected before speech";;
  reject blank_key p "speech" with envelope_error "speech" "speech is required";;
  try _ := validateNoPostedSelectedRunnerVisibleEcho ix (ca_actor c) turn in
  try p1 := validateArgumentGraphSpeech (ca_md c) ix (ca_actor c) turn p in
  Ok (mk_move "speech" "discussion" (ca_actor c) (participantsExcept (ca_md c) (ca_actor c)) (Some turn)
        (<["turn" := AInt turn]> p1)).

Definition act_intervene (c : call) (p : payload) : result error council_move :=
  try _ := councilPhase c ["discussion"] in
  try _ := requireModerator c in
  let member := firstNonEmptyString [payloadStringDefault p "member" ""; payloadStringDefault p "to" ""] in
  ensure councilMember (ca_md c) member or
    NewValidationError CategoryPrincipalInvalid "member" "intervention target must be a council member";;
  reject blank_key p "reason" || blank_key p "message" with
    envelope_error "intervention" "reason and message are required";;
  Ok (mk_move "moderator_intervention" "discussion" (ca_actor c) [member] None (<["member" := AStr member]> p)).

Definition act_propose (c : call) (p : payload) : result error council_move :=
  try _ := councilPhase c ["discussion"] in
  try _ := requireModerator c in
  reject blank_key p "draft" with envelope_error "draft" "draft is required";;
  reject negb (latestDraftVersion (ca_ix c) =? 0) with
    NewValidationError CategoryCommandConflict "draft_version" "initial proposal already exists";;
  try _ := validateCouncilProposeLifecycle (ca_md c) (ca_ix c) in
  Ok (mk_move "draft_conclusion" "draft_conclusion" (ca_actor c) (members c) None
        (<["draft_version" := AInt 1]> p)).

Definition act_revise (c : call) (p : payload) : result error council_move :=
  try _ := councilPhase c ["draft_conclusion"; "consensus_vote"] in
  try _ := requireModerator c in
  let prior := latestDraftVersion (ca_ix c) in
  reject prior =? 0 with
    NewValidationError CategoryCommandConflict "draft_version" "revision requires an existing draft";;
  reject blank_key p "draft" || blank_key p "revision_reason" with
    envelope_error "revision" "draft and revision_reason are required";;
  Ok (mk_move "draft_conclusion" "draft_conclusion" (ca_actor c) (members c) None
        (<["draft_version" := AInt (wrap64 (prior + 1))]> (<["supersedes_draft_version" := AInt prior]> p))).

Definition act_request_vote (c : call) (p : payload) : result error council_move :=
  try _ := councilPhase c ["draft_conclusion"] in
  try _ := requireModerator c in
  let latest := latestDraftVersion (ca_ix c) in
  let given := positivePayloadInt p "draft_version" in
  let draft := if given =? 0 then latest else given in
  let p1 := if given =? 0 then <["draft_version" := AInt draft]> p else p in
  reject (draft =? 0) || negb (draft =? latest) with
    NewValidationError CategoryCommandConflict "draft_version" "vote request requires current draft";;
  let p2 := <["consensus_round" := AInt (wrap64 (latestConsensusRound (ca_ix c) + 1))]> p1 in
  try _ := requirePayloadOptionalTimeout p2 in
  Ok (mk_move "consensus_vote_requested" "consensus_vote" (ca_actor c) (members c) None p2).

Definition votes : list string := ["approve"; "approve_with_conditions"; "block"; "abstain"].

Definition act_vote (c : call) (p : payload) : result error council_move :=
  try _ := councilPhase c ["consensus_vote"] in
  try _ := requireMember c in
  match currentVoteRequest (ca_ix c) with
  | None => Err (NewValidationError CategoryCommandConflict "consensus_vote_requested"
                   "vote requires an open vote request")
  | Some (draft, round) =>
      let requested := positivePayloadInt p "draft_version" in
      reject negb (requested =? 0) && negb (requested =? draft) with
        NewValidationError CategoryCommandConflict "draft_version" "vote draft_version does not match open vote";;
      reject duplicateVote (ca_ix c) (ca_actor c) round draft with
        NewValidationError CategoryCommandConflict "vote" "member already voted in this consensus round";;
      ensure allowedString (payloadStringDefault p "vote" "") votes or envelope_error "vote" "invalid vote";;
      reject blank_key p "reason" with envelope_error "reason" "vote reason is required";;
      Ok (mk_move "consensus_vote" "consensus_vote" (ca_actor c) [moderator c] None
            (<["consensus_round" := AInt round]> (<["draft_version" := AInt draft]> p)))
  end.

Definition act_finalize (c : call) (p : payload) : result error council_move :=
  try _ := councilPhase c ["consensus_vote"] in
  try _ := requireModerator c in
  try _ := validateFinalizeReady (ca_md c) (ca_ix c) p in
  Ok (mk_move "council_finalized" "finalized" (ca_actor c) (members c) None p).

Definition act_unresolved (c : call) (p : payload) : result error council_move :=
  try _ := councilPhase c ["discussion"; "draft_conclusion"; "consensus_vote"] in
  try _ := requireModerator c in
  reject blank_key p "reason" with envelope_error "reason" "unresolved reason is required";;
  reject (ca_phase c == "consensus_vote") && negb (hasBlockVote (ca_ix c)) && negb (hasEvidence p) with
    NewValidationError CategoryCommandConflict "evidence" "unresolved requires block vote or timeout evidence";;
  let p1 := match unresolvedCloseoutDiagnostics (ca_md c) (ca_ix c) p with
            | [] => p
            | diagnostics => <["closeout_diagnostics" := AMaps diagnostics]> p
            end in
  Ok (mk_move "council_unresolved" "unresolved" (ca_actor c) (members c) None p1).

Definition council_actions : list (string * (call -> payload -> result error council_move)) :=
  [("request-attendance", act_request_attendance); ("attend", act_attend); ("lock-agenda", act_lock_agenda);
   ("prepare", act_prepare); ("ready", act_ready); ("prepared-partial", act_prepared_partial);
   ("poll", act_poll); ("hand-raise", act_hand_raise); ("drop", act_drop); ("grant", act_grant);
   ("speak", act_speak); ("intervene", act_intervene); ("propose", act_propose); ("revise", act_revise);
   ("request-vote", act_request_vote); ("vote", act_vote); ("finalize", act_finalize);
   ("unresolved", act_unresolved)].

Definition councilTransition (c : call) (p : payload) : result error council_move :=
  reject terminal_phase (ca_phase c) with
    NewValidationError CategoryCommandConflict "phase" "council session is terminal";;
  match List.find (fun kv => kv.1 == ca_action c) council_actions with
  | Some kv => kv.2 c p
  | None => Err (envelope_error "action" "unsupported council action")
  end.

(** ** RecordCouncilEvent *)

Fixpoint replace_dash (s : string) : string :=
  match s with
  | EmptyString => EmptyString
  | String a rest => String (if is_byte 45 a then Ascii.ascii_of_N 95 else a) (replace_dash rest)
  end.

Definition council_command_id (clock : time) (spec : CouncilEventSpec) : string :=
  if is_blank (cn_command_id spec)
  then "cmd_council_" +:+ replace_dash (trim_space (cn_action spec)) +:+ "_" +:+ unix_nano (event_time clock (cn_now spec))
  else cn_command_id spec.

(** The request a drop answers is its cause unless the command names another. *)
Definition council_causation (spec : CouncilEventSpec) (p : payload) : string :=
  if (trim_space (cn_action spec) == "drop") && is_blank (cn_causation spec)
  then trim_space (payloadStringDefault p "request_event_id" "")
  else cn_causation spec.

Definition session_payload (md : SessionMetadata) (p : payload) : payload :=
  let p1 := <["participants" := AStrs (md_participants md)]>
            (<["moderator" := AStr (md_moderator md)]>
            (<["title" := AStr (md_title md)]>
            (<["session_type" := AStr (md_session_type md)]> p))) in
  let p2 := match md_surface md with Some s => <["surface" := surface_json s]> p1 | None => p1 end in
  match md_linked_authority md with
  | Some l => <["linked_authority" := linked_authority_json l]> p2
  | None => p2
  end.

Definition council_call (clock : time) (md : SessionMetadata) (ix : LogIndex) (spec : CouncilEventSpec) : call :=
  mk_call md ix (latestPhase md ix) (trim_space (cn_action spec))
    (if is_blank (cn_actor spec) then md_moderator md else trim_space (cn_actor spec))
    (council_command_id clock spec) clock (cn_now spec).

Definition council_event (md : SessionMetadata) (commandID causation : string) (m : council_move)
    (now : time) : EventEnvelope :=
  mk_event SchemaVersion (eventIDFromCommand ("evt_" +:+ cm_type m) commandID) commandID (trim_space causation)
    (md_id md) (md_id md) (md_session_type md) (cm_turn m) (cm_phase m) (cm_type m) (cm_from m) (cm_to m)
    now None None (Some (cm_payload m)).

Definition buildCouncilEvent (clock : time) (md : SessionMetadata) (ix : LogIndex) (spec : CouncilEventSpec)
    : result error EventEnvelope :=
  reject is_blank (cn_action spec) with
    NewValidationError CategoryInvalidEnvelope "action" "council action is required";;
  let p := delete "closeout_diagnostics" (default ∅ (cn_payload spec)) in
  let causation := council_causation spec p in
  let c := council_call clock md ix spec in
  try m := councilTransition c (session_payload md p) in
  let event := council_event md (ca_command c) causation m (call_time c) in
  reject (ev_causation_event_id event != "")
         && match eventByID ix (ev_causation_event_id event) with Some _ => false | None => true end with
    NewValidationError CategoryInvalidEnvelope "causation_event_id" "causation event must reference this session";;
  Ok (attachPersistentParticipantRuntimeEvidence md ix event).

#[global] Instance RecordCouncilEvent : Command CouncilEventSpec := {
  precheck md _ :=
    ensure md_session_type md == SessionTypeCouncil or
      NewValidationError CategoryMetadataInvalid "session_type" "council command requires council session";;
    Ok tt;
  respond clock md ix spec := Propose <$> buildCouncilEvent clock md ix spec }.

(** ** RecordCouncilResponseWindowTimeout *)

Definition timeout_spec (md : SessionMetadata) (w : responseWindowProjection) (turn : Z) (now : time)
    (member : string) : CouncilEventSpec :=
  mk_council_spec "drop" daemonPrincipal
    ("cmd_response_window_timeout_" +:+ md_id md +:+ "_" +:+ itoa turn +:+ "_" +:+ member) ""
    (Some {[ "turn" := AInt turn; "member" := AStr member; "reason" := AStr "response window timeout";
             "request_event_id" := AStr (rw_event w); "response_window_id" := AStr (rw_id w);
             "auto" := ABool true; "auto_reason" := AStr "timeout" ]})
    now.

(** One drop per missing member; [faults] are those of the successive appends. *)
Fixpoint drop_missing (name : string) (w : world) (clock : time) (window : responseWindowProjection) (turn : Z)
    (now : time) (missing : list string) (faults : list (option append_fault)) (results : list AppendResult)
    (allDedup : bool) : world * list AppendResult * result error bool :=
  match missing with
  | [] => (w, results, Ok allDedup)
  | member :: rest =>
      match run_command name w clock (timeout_spec (wd_md w) window turn now member) (default None (head faults)) with
      | (w', Err err) => (w', results, Err err)
      | (w', Ok (a, dedup)) =>
          drop_missing name w' clock window turn now rest (tail faults) (results ++ [a]) (allDedup && dedup)
      end
  end.

Definition timeout_window (clock : time) (md : SessionMetadata) (read : result error LogIndex) (turn : Z)
    (now : time) : result error (LogIndex * responseWindowProjection) :=
  ensure md_session_type md == SessionTypeCouncil or
    NewValidationError CategoryMetadataInvalid "session_type" "council timeout requires council session";;
  reject turn <=? 0 with NewValidationError CategoryInvalidEnvelope "turn" "positive turn is required";;
  try ix := read in
  match latestResponseWindowForTurn ix turn with
  | None => Err (NewValidationError CategoryCommandConflict "response_window" "response window is not open for turn")
  | Some window =>
      reject negb (is_zero (rw_deadline window)) && (event_time clock now <? rw_deadline window) with
        NewValidationError CategoryCommandConflict "response_window" "response window deadline has not elapsed";;
      Ok (ix, window)
  end.

(** The session as it is read before the drops. *)
Definition read_session (w : world) (name : string) : result error LogIndex :=
  match wd_sessions w !! name with
  | None => Err (NewValidationError CategorySessionUnsafe name "no such file or directory")
  | Some sd => ReadLogIndex sd (wd_md w)
  end.

Definition RecordCouncilResponseWindowTimeout (name : string) (w : world) (clock : time) (turn : Z) (now : time)
    (faults : list (option append_fault)) : world * list AppendResult * result error bool :=
  match timeout_window clock (wd_md w) (read_session w name) turn now with
  | Err err => (w, [], Err err)
  | Ok (ix, window) =>
      drop_missing name w clock window turn (event_time clock now)
        (window_missing (Some (wd_md w)) ix window) faults [] true
  end.

(** ** Status views *)

Definition present_status (row : payload) : bool :=
  allowedString (payloadStringDefault row "status" "") attendance_statuses.

Definition attendance_row (rows : gmap string payload) (member : string) : payload :=
  default {[ "member" := AStr member; "required" := ABool true; "status" := AStr "missing" ]} (rows !! member).

Definition request_row (e : EventEnvelope) (rows : gmap string payload) (member : string) : gmap string payload :=
  <[member := <["requested_at" := AStr (time_format (ev_created_at e))]>
              (<["attendance_requested_event_id" := AStr (ev_event_id e)]>
              (<["status" := AStr "requested"]>
              (<["required" := ABool true]> (attendance_row rows member))))]> rows.

Definition attended_row (e : EventEnvelope) (row : payload) : payload :=
  let given key fallback := AStr (payloadStringDefault (pl e) key (payloadStringDefault (pl e) fallback "")) in
  <["attended_at" := AStr (time_format (ev_created_at e))]>
  (<["member_attended_event_id" := AStr (ev_event_id e)]>
  (<["summary" := given "attendance_summary" "summary"]>
  (<["status" := given "attendance_status" "status"]> row))).

(** The row of every member starts as required and missing. *)
Definition attendance_rows_step (md : SessionMetadata) (rows : gmap string payload) (e : EventEnvelope)
    : gmap string payload :=
  if ev_type e == "attendance_requested" then
    let requested := match payloadStringSlice (pl e) "required_members" with
                     | Some (m :: l) => m :: l
                     | _ => ev_to e
                     end in
    foldl (request_row e) rows (List.filter (councilMember md) requested)
  else if (ev_type e == "member_attended") && councilMember md (attending_member e) then
    <[attending_member e := attended_row e (attendance_row rows (attending_member e))]> rows
  else rows.

Definition councilAttendanceStatus (md : SessionMetadata) (ix : LogIndex) : payload :=
  let requested := existsb (fun e => ev_type e == "attendance_requested") (ix_events ix) in
  let rows := foldl (attendance_rows_step md) ∅ (ix_events ix) in
  let missing := List.filter (fun m => negb (present_status (attendance_row rows m))) (councilMembers md) in
  {[ "requested" := ABool requested; "complete" := ABool (requested && (len_z missing =? 0));
     "missing_members" := AStrs missing; "members" := AMaps (map (attendance_row rows) (councilMembers md)) ]}.

Definition councilAgendaStatus (ix : LogIndex) : payload :=
  match latestEventOfType ix "agenda_locked" with
  | Some e =>
      {[ "event_id" := AStr (ev_event_id e); "locked_by" := AStr (ev_from e);
         "decision_question" := AStr (payloadStringDefault (pl e) "decision_question" "");
         "locked_at" := AStr (time_format (ev_created_at e)) ]}
  | None => {[ "locked" := ABool false ]}
  end.

Definition councilDraftStatus (ix : LogIndex) : payload :=
  match latestEventOfType ix "draft_conclusion" with
  | Some e =>
      {[ "event_id" := AStr (ev_event_id e); "draft_version" := AInt (anyInt (pl e) "draft_version");
         "supersedes_draft_version" := AInt (anyInt (pl e) "supersedes_draft_version");
         "revision_reason" := AStr (payloadStringDefault (pl e) "revision_reason" "");
         "latest_draft_conclusion_at" := AStr (time_format (ev_created_at e));
         "latest_draft_conclusion_from" := AStr (ev_from e) ]}
  | None => {[ "draft_version" := AInt 0 ]}
  end.

Definition hand_raise_row (turn : Z) (e : EventEnvelope) : string * payload :=
  let member := responseWindowResponseMember e in
  let dropped := ev_type e == "hand_raise_dropped" in
  let text key := (key, AStr (payloadStringDefault (pl e) key "")) in
  (member, list_to_map
    ([("event_id", AStr (ev_event_id e)); ("turn", AInt turn); ("member", AStr member);
      ("status", AStr (if dropped then "dropped" else "raised"));
      ("wants_to_speak", ABool (anyBool (pl e) ["wants_to_speak"])); text "intent"; text "reason";
      ("created_at", AStr (time_format (ev_created_at e)))] ++
     if dropped then [("drop_event_id", AStr (ev_event_id e)); text "request_event_id"; text "observed_cursor";
                      text "stance_continuity"; text "current_stance_summary"] else [])).

(** In member order; the source leaves the order of one member's rows open. *)
Definition councilHandRaiseStatus (ix : LogIndex) : list payload :=
  let turn := currentCouncilTurn ix in
  map snd (merge_sort key_le (map (hand_raise_row turn) (List.filter (is_response turn) (ix_events ix)))).

Definition vote_row (round draft : Z) (e : EventEnvelope) : string * payload :=
  let text key := AStr (payloadStringDefault (pl e) key "") in
  (ev_from e,
   {[ "event_id" := AStr (ev_event_id e); "member" := AStr (ev_from e); "vote" := text "vote";
      "reason" := text "reason"; "required_change" := text "required_change";
      "consensus_round" := AInt round; "draft_version" := AInt draft;
      "created_at" := AStr (time_format (ev_created_at e)) ]}).

Definition councilVoteStatus (md : SessionMetadata) (ix : LogIndex) : payload :=
  let '(draft, round) := default (0, 0) (currentVoteRequest ix) in
  let is_open := match currentVoteRequest ix with Some _ => true | None => false end in
  let cast := List.filter (vote_in round draft) (ix_events ix) in
  let missing := if is_open
                 then List.filter (fun m => negb (mem_str m (map ev_from cast))) (councilMembers md) else [] in
  {[ "open" := ABool is_open; "consensus_round" := AInt round; "draft_version" := AInt draft;
     "votes" := AMaps (map snd (merge_sort key_le (map (vote_row round draft) cast)));
     "missing_members" := AStrs missing; "complete" := ABool (is_open && (len_z missing =? 0)) ]}.

Definition latestLinkedAuthorityResult (ix : LogIndex) : option payload :=
  match latestTerminalCouncilEvent ix with
  | Some e => anyMap (pl e) ["linked_authority_result"]
  | None => None
  end.
