(* ===== verification/CouncilTheory.v ===== *)
(** * Correctness of councils

    The council handler is lawful and terminal-safe; every event that is
    logged obeys the rule of its kind in the table of moves; and every event of a council's log is
    justified by the events before it: a speech by a grant, a grant by a hand
    raise, a vote by an open vote request, a finalization by the votes of every
    member on the latest draft. *)

From S2P Require Import Prelude GoValue GoTime Model Ids Evidence Events EventLog LogSpec Command Delegation Fixtures DelegationTheory Closeout Lifecycle ArgumentGraph Council.

(** ** What the handler proposes *)

Lemma councilTransition_ok c p m :
  councilTransition c p = Ok m ->
  terminal_phase (ca_phase c) = false /\
  exists act, (ca_action c, act) ∈ council_actions /\ act c p = Ok m.
Proof.
  unfold councilTransition. intros H. run_step H. split; [done|].
  destruct (List.find _ council_actions) as [[n act]|] eqn:Hf; [|done].
  apply find_some in Hf as [Hin Hn]. apply String.eqb_eq in Hn. simpl in *. subst n.
  exists act. split; [by apply list_elem_of_In | done].
Qed.

(** The payload a command's transition starts from. *)
Definition council_input (md : SessionMetadata) (spec : CouncilEventSpec) : payload :=
  session_payload md (delete "closeout_diagnostics" (default ∅ (cn_payload spec))).

Lemma buildCouncilEvent_ok clock md ix spec e :
  buildCouncilEvent clock md ix spec = Ok e ->
  exists m, councilTransition (council_call clock md ix spec) (council_input md spec) = Ok m /\
    e = prepareEventForAppend md ix
          (council_event md (council_command_id clock spec)
             (council_causation spec (delete "closeout_diagnostics" (default ∅ (cn_payload spec)))) m
             (event_time clock (cn_now spec))).
Proof.
  unfold buildCouncilEvent. cbv zeta. intros H. run_inv H. subst e.
  eexists. split; [exact Hrun|done].
Qed.

Lemma council_respond clock md ix (spec : CouncilEventSpec) e :
  respond clock md ix spec = Ok (Propose e) -> buildCouncilEvent clock md ix spec = Ok e.
Proof. simpl. by destruct (buildCouncilEvent clock md ix spec); [intros [= ->]|]. Qed.

Lemma council_command_id_ne clock spec : council_command_id clock spec <> "".
Proof. unfold council_command_id. destruct (is_blank _) eqn:E; [done | by apply nonblank_ne]. Qed.

#[global] Instance council_lawful : LawfulCommand CouncilEventSpec.
Proof.
  split; intros clock md ix spec x.
  - intros (m & _ & ->)%council_respond%buildCouncilEvent_ok.
    pose proof (prepare_fields md ix (council_event md (council_command_id clock spec)
      (council_causation spec (delete "closeout_diagnostics" (default ∅ (cn_payload spec)))) m
      (event_time clock (cn_now spec)))) as Hf. cbv zeta in Hf.
    destruct Hf as (_ & _ & -> & _ & _ & -> & -> & _). simpl. repeat split. apply council_command_id_ne.
  - simpl. by destruct (buildCouncilEvent clock md ix spec).
Qed.

#[global] Instance council_terminal_safe : TerminalSafe CouncilEventSpec.
Proof.
  intros clock md ix spec e (m & [Hterm _]%councilTransition_ok & _)%council_respond%buildCouncilEvent_ok Ht.
  simpl in Hterm. congruence.
Qed.

(** The recorded event: its fields, and its payload up to the runtime evidence
    that a speech carries. *)
Definition runtime_key : string := "persistent_participant_runtime_evidence".

Lemma council_recorded clock md ix spec e :
  respond clock md ix spec = Ok (Propose e) ->
  exists m, councilTransition (council_call clock md ix spec) (council_input md spec) = Ok m /\
    ev_type (appended md ix e) = cm_type m /\ ev_phase (appended md ix e) = cm_phase m /\
    ev_from (appended md ix e) = cm_from m /\ ev_to (appended md ix e) = sort_strings (cm_to m) /\
    ev_turn (appended md ix e) = cm_turn m /\
    forall k, k <> runtime_key -> pl (appended md ix e) !! k = json_norm <$> (cm_payload m !! k).
Proof.
  intros (m & Ht & ->)%council_respond%buildCouncilEvent_ok. exists m. split; [exact Ht|].
  set (e0 := council_event _ _ _ _ _).
  pose proof (appended_fields md ix (prepareEventForAppend md ix e0)) as Ha.
  pose proof (prepare_fields md ix e0) as Hp. cbv zeta in Ha, Hp.
  destruct Ha as (_ & _ & _ & -> & -> & -> & -> & -> & _).
  destruct Hp as (_ & _ & _ & _ & _ & _ & _ & -> & -> & -> & -> & -> & _).
  repeat (split; [done|]). intros k Hk. unfold appended. rewrite prepare_idemp, pl_norm, lookup_fmap. f_equal.
  pose proof (finish_event_fields (prepareEventForAppend md ix e0)) as Hf. cbv zeta in Hf.
  destruct Hf as (_ & _ & _ & _ & _ & _ & _ & _ & Hpl & _). unfold pl. rewrite Hpl.
  unfold prepareEventForAppend, attachPersistentParticipantRuntimeEvidence. simpl.
  destruct (_ == "speech"); simpl; [|done]. by rewrite lookup_insert_ne by (unfold runtime_key in Hk; congruence).
Qed.

(** ** The actions *)

(** Splits a successful transition by action, one goal per entry of
    [council_actions]; [Hact] keeps the name of the action. *)
Ltac split_actions H :=
  let act := fresh "act" in let Hin := fresh "Hin" in
  apply councilTransition_ok in H as (_ & act & Hin & H);
  apply list_elem_of_In in Hin; cbn [In council_actions] in Hin;
  repeat (destruct Hin as [Hin|Hin]); [injection Hin as _ <- ..|destruct Hin].

(** Opens one action. *)
Ltac open_action H :=
  cbv delta [act_request_attendance act_attend act_lock_agenda act_prepare act_ready act_prepared_partial act_poll
    act_hand_raise act_drop act_grant act_speak act_intervene act_propose act_revise act_request_vote act_vote
    act_finalize act_unresolved] in H;
  cbv beta zeta in H; run_inv H;
  repeat match goal with
  | R : councilPhase _ _ = Ok _ |- _ => apply requirePhase_ok in R
  end; subst; cbn [cm_type cm_phase cm_from cm_to cm_turn cm_payload].

(** The moves of a council. *)
Definition council_moves : moves :=
  [("attendance_requested", (["created"], "created")); ("member_attended", (["created"], "created"));
   ("agenda_locked", (["created"], "created")); ("preparation_requested", (["created"], "preparation"));
   ("member_ready", (["preparation"], "preparation")); ("member_prepared_partial", (["preparation"], "preparation"));
   ("hand_raise_requested", (["preparation"; "discussion"], "discussion")); ("hand_raise", (["discussion"], "discussion"));
   ("hand_raise_dropped", (["discussion"], "discussion")); ("speaker_selected", (["discussion"], "discussion"));
   ("speech", (["discussion"], "discussion")); ("moderator_intervention", (["discussion"], "discussion"));
   ("draft_conclusion", (["discussion"], "draft_conclusion"));
   ("draft_conclusion", (["draft_conclusion"; "consensus_vote"], "draft_conclusion"));
   ("consensus_vote_requested", (["draft_conclusion"], "consensus_vote"));
   ("consensus_vote", (["consensus_vote"], "consensus_vote")); ("council_finalized", (["consensus_vote"], "finalized"));
   ("council_unresolved", (["discussion"; "draft_conclusion"; "consensus_vote"], "unresolved"))].

(** The rules of a council. *)
Definition council_rule (log : list EventEnvelope) (e : EventEnvelope) : Prop :=
  in_table council_moves log e \/ control_rule log e.

(** The move of each action. *)
Lemma councilTransition_move c p m :
  councilTransition c p = Ok m -> exists from, (cm_type m, (from, cm_phase m)) ∈ council_moves /\ ca_phase c ∈ from.
Proof.
  intros H. split_actions H; open_action H.
  all: match goal with R : ca_phase _ ∈ ?l |- _ => exists l; split; [apply (bool_decide_unpack _); vm_compute; exact I|exact R] end.
Qed.

(** Everything that can be asked of a council session. *)
Abbreviation council_command := (CouncilEventSpec + session_control)%type.

Lemma council_command_rule clock md ix (c : council_command) e :
  ix_events ix <> [] -> respond clock md ix c = Ok (Propose e) -> council_rule (ix_events ix) (appended md ix e).
Proof.
  intros Hne H. destruct c as [spec|c]; [left|right; by apply (control_command_rule clock md ix c)].
  change (respond clock md ix spec = Ok (Propose e)) in H. apply council_recorded in H as (m & Ht & Hty & Hph & _).
  apply councilTransition_move in Ht as (from & Hin & Hfrom). exists from. rewrite Hty, Hph, <- (latestPhase_log md ix Hne). by split.
Qed.

(** C8. A council keeps its rules: over any run of council and session-control
    commands, under any faults, the log only grows, and each event that is added
    moves the council as its type may from the phase of the log before it; a
    resumed council is in the phase that the block of its log interrupted. *)
Theorem council_refines_phase_machine name w w' ix ix' :
  rtc (command_step (C := council_command) name) w w' -> reads w name ix -> ix_events ix <> [] ->
  reads w' name ix' ->
  exists tail, ix_events ix' = ix_events ix ++ tail /\ obeys council_rule (ix_events ix) tail.
Proof. apply command_run_rule, council_command_rule. Qed.

(** ** Every event is justified by the log before it *)

(** Integers that a float64 holds exactly: a counter beyond them is not read
    back from the log as it was written. *)
Definition small (z : Z) : Prop := Z.abs z <= 2 ^ 53.

(** The payload records the integer. *)
Definition recorded (p : payload) (key : string) (z : Z) : Prop := small z -> anyInt p key = z.

Definition prefix_log (l : list EventEnvelope) : LogIndex := mk_index l ∅.

(** What the log before an event must hold for the event to be there. *)
Definition speech_ok (md : SessionMetadata) (ix : LogIndex) (e : EventEnvelope) : Prop :=
  exists turn, ev_turn e = Some turn /\ 0 < turn /\ councilMember md (ev_from e) = true /\
    speakerGranted ix (ev_from e) turn = true /\ recorded (pl e) "turn" turn.

Definition grant_ok (md : SessionMetadata) (ix : LogIndex) (e : EventEnvelope) : Prop :=
  ev_from e = md_moderator md /\
  exists member turn, ev_to e = [member] /\ payloadStringDefault (pl e) "member" "" = member /\
    ev_turn e = Some turn /\ recorded (pl e) "turn" turn /\
    councilMember md member = true /\ selectedGrantStanceAssignment ix member turn <> "".

Definition vote_ok (md : SessionMetadata) (ix : LogIndex) (e : EventEnvelope) : Prop :=
  councilMember md (ev_from e) = true /\ payloadStringDefault (pl e) "vote" "" ∈ votes /\
  exists draft round, currentVoteRequest ix = Some (draft, round) /\
    recorded (pl e) "draft_version" draft /\ recorded (pl e) "consensus_round" round /\
    duplicateVote ix (ev_from e) round draft = false.

Definition request_ok (ix : LogIndex) (e : EventEnvelope) : Prop :=
  latestDraftVersion ix <> 0 /\ recorded (pl e) "draft_version" (latestDraftVersion ix).

Definition draft_ok (ix : LogIndex) (e : EventEnvelope) : Prop :=
  recorded (pl e) "draft_version" (wrap64 (latestDraftVersion ix + 1)).

Definition finalize_ok (md : SessionMetadata) (ix : LogIndex) : Prop :=
  exists draft round, currentVoteRequest ix = Some (draft, round) /\
    check_votes (votes_of ix round draft) (councilMembers md) = Ok tt.

Definition justified (md : SessionMetadata) (l : list EventEnvelope) (e : EventEnvelope) : Prop :=
  (ev_type e = "speech" -> speech_ok md (prefix_log l) e) /\
  (ev_type e = "speaker_selected" -> grant_ok md (prefix_log l) e) /\
  (ev_type e = "consensus_vote" -> vote_ok md (prefix_log l) e) /\
  (ev_type e = "consensus_vote_requested" -> request_ok (prefix_log l) e) /\
  (ev_type e = "draft_conclusion" -> draft_ok (prefix_log l) e) /\
  (ev_type e = "council_finalized" -> finalize_ok md (prefix_log l)).

Definition justified_log (md : SessionMetadata) (l : list EventEnvelope) : Prop :=
  forall i e, l !! i = Some e -> justified md (take i l) e.

Lemma justified_log_snoc md l e : justified_log md l -> justified md l e -> justified_log md (l ++ [e]).
Proof.
  intros Hl He i x Hx. apply lookup_snoc_Some in Hx as [[Hlt Hx]|[-> <-]].
  - rewrite take_app_le by lia. by apply Hl.
  - by rewrite take_app_length.
Qed.

Lemma recorded_lookup (p q : payload) k : p !! k = json_norm <$> (q !! k) -> recorded p k (anyInt q k).
Proof.
  unfold recorded, anyInt. intros ->. destruct (q !! k) as [v|]; [|done]. simpl.
  destruct v; try done. simpl. intros Hs. by rewrite as_int_float_of_int.
Qed.

Lemma recorded_insert (p q : payload) k z :
  p !! k = json_norm <$> (q !! k) -> q !! k = Some (AInt z) -> recorded p k z.
Proof. intros Hp Hq. pose proof (recorded_lookup p q k Hp) as H. unfold anyInt in H at 1. by rewrite Hq in H. Qed.

Lemma payload_string_lookup (p q : payload) k d :
  p !! k = json_norm <$> (q !! k) -> payloadStringDefault p k d = payloadStringDefault q k d.
Proof.
  unfold payloadStringDefault. intros ->. destruct (q !! k) as [[]|]; simpl; try done.
  unfold float_of_int. by destruct (Z.abs z <=? 2 ^ 53).
Qed.

Lemma requireTurn_ok p fallback turn : requireTurn p fallback = Ok turn -> 0 < turn.
Proof. unfold requireTurn. cbv zeta. intros H. run_step H. bool_prop. apply ok_inj in H. lia. Qed.

Lemma requireMember_ok c r : requireMember c = Ok r -> councilMember (ca_md c) (ca_actor c) = true.
Proof. unfold requireMember. intros H. by run_step H. Qed.

Lemma requireModerator_ok c r : requireModerator c = Ok r -> ca_actor c = md_moderator (ca_md c).
Proof. unfold requireModerator. intros H. run_step H. by bool_prop. Qed.

(** An event of the log as a transition leaves it. *)
Definition records (x : EventEnvelope) (m : council_move) : Prop :=
  ev_type x = cm_type m /\ ev_from x = cm_from m /\ ev_to x = sort_strings (cm_to m) /\ ev_turn x = cm_turn m /\
  forall k, k <> runtime_key -> pl x !! k = json_norm <$> (cm_payload m !! k).

Lemma act_speak_ok c p m x :
  act_speak c p = Ok m -> records x m -> speech_ok (ca_md c) (ca_ix c) x.
Proof.
  intros H (_ & Hfrom & _ & Hturn & Hpl). open_action H. cbn [cm_from cm_to cm_turn cm_payload] in *. unfold speech_ok.
  rewrite Hfrom, Hturn. exists a1. apply requireTurn_ok in Hrun1. apply requireMember_ok in Hrun0. repeat split; try done.
  apply (recorded_insert _ _ _ _ (Hpl "turn" ltac:(done))). apply lookup_insert_eq.
Qed.

Lemma grant_mode_keeps c p q k :
  grant_mode c p = Ok q -> k <> "selection_mode" -> q !! k = p !! k.
Proof.
  unfold grant_mode. cbv zeta. intros H Hk. run_inv H; subst q; [|done].
  by rewrite lookup_insert_ne by congruence.
Qed.

Lemma act_grant_ok c p m x :
  act_grant c p = Ok m -> records x m -> grant_ok (ca_md c) (ca_ix c) x.
Proof.
  intros H (_ & Hfrom & Hto & Hturn & Hpl). open_action H. cbn [cm_from cm_to cm_turn cm_payload] in *.
  unfold grant_ok. rewrite Hfrom, Hto, Hturn. apply requireModerator_ok in Hrun0. split; [done|].
  pose proof (grant_mode_keeps _ _ _ "member" Hrun3 ltac:(done)) as Hm.
  pose proof (grant_mode_keeps _ _ _ "turn" Hrun3 ltac:(done)) as Ht.
  rewrite lookup_insert_ne, lookup_insert_eq in Hm by done. rewrite lookup_insert_eq in Ht.
  exists s, a2. split; [done|]. split; [|split; [done|split; [|split; [done|]]]].
  - rewrite (payload_string_lookup _ _ _ _ (Hpl "member" ltac:(done))). unfold payloadStringDefault.
    by rewrite lookup_insert_ne, lookup_delete_ne, Hm by done.
  - apply (recorded_insert _ _ _ _ (Hpl "turn" ltac:(done))).
    by rewrite lookup_insert_ne, lookup_delete_ne by done.
  - intros Hn. bool_prop. by rewrite Hn in Hguard0.
Qed.

Lemma act_vote_ok c p m x :
  act_vote c p = Ok m -> records x m -> vote_ok (ca_md c) (ca_ix c) x.
Proof.
  intros H (_ & Hfrom & _ & _ & Hpl). open_action H. cbn [cm_from cm_payload] in *. unfold vote_ok. rewrite Hfrom.
  apply requireMember_ok in Hrun0. split; [done|]. split.
  - rewrite (payload_string_lookup _ _ _ _ (Hpl "vote" ltac:(done))). unfold payloadStringDefault.
    rewrite !lookup_insert_ne by done. by apply mem_str_spec.
  - eexists _, _. split; [done|]. split; [|split; [|done]].
    + apply (recorded_insert _ _ _ _ (Hpl "draft_version" ltac:(done))).
      by rewrite lookup_insert_ne, lookup_insert_eq by done.
    + apply (recorded_insert _ _ _ _ (Hpl "consensus_round" ltac:(done))). by rewrite lookup_insert_eq.
Qed.

Lemma act_request_vote_ok c p m x :
  act_request_vote c p = Ok m -> records x m -> request_ok (ca_ix c) x.
Proof.
  intros H (_ & _ & _ & _ & Hpl). unfold act_request_vote in H. cbv zeta in H.
  run_step H. run_step H. run_step H. run_step H. run_step H. subst m. cbn [cm_payload] in *.
  apply orb_false_iff in Hguard as [Hne Heq]. bool_prop. unfold request_ok.
  assert (Hl : positivePayloadInt
     (if positivePayloadInt p "draft_version" =? 0
      then <["draft_version" := AInt (if positivePayloadInt p "draft_version" =? 0 then latestDraftVersion (ca_ix c)
             else positivePayloadInt p "draft_version")]> p else p) "draft_version" = latestDraftVersion (ca_ix c)).
  { rewrite <- Heq at 2. destruct (_ =? 0) eqn:Hz; [|done]. unfold positivePayloadInt at 1, anyInt.
    by rewrite lookup_insert_eq. }
  split; [congruence|]. rewrite <- Hl. apply recorded_lookup. rewrite Hpl by done.
  by rewrite lookup_insert_ne.
Qed.

Lemma act_propose_ok c p m x : act_propose c p = Ok m -> records x m -> draft_ok (ca_ix c) x.
Proof.
  intros H (_ & _ & _ & _ & Hpl). open_action H. cbn [cm_payload] in *. bool_prop. unfold draft_ok. rewrite Hguard0.
  apply (recorded_insert _ _ _ _ (Hpl "draft_version" ltac:(done))). by rewrite lookup_insert_eq.
Qed.

Lemma act_revise_ok c p m x : act_revise c p = Ok m -> records x m -> draft_ok (ca_ix c) x.
Proof.
  intros H (_ & _ & _ & _ & Hpl). open_action H. cbn [cm_payload] in *. unfold draft_ok.
  apply (recorded_insert _ _ _ _ (Hpl "draft_version" ltac:(done))). by rewrite lookup_insert_eq.
Qed.

Lemma validateFinalizeReady_ok md ix p r :
  validateFinalizeReady md ix p = Ok r ->
  finalize_ok md ix /\ blank_key p "final_summary" = false /\
  lifecycleCloseoutDiagnostics md ix "finalization" = [] /\
  visibleCloseoutDiagnostics md p "finalization" = [] /\ validateLinkedAuthorityResult md p = Ok r.
Proof.
  unfold validateFinalizeReady. intros H. destruct (currentVoteRequest ix) as [[draft round]|] eqn:Hreq; [|done].
  destruct (check_votes _ _) as [[]|] eqn:Hv; [|done]. cbn [mbind result_bind] in H.
  run_step H. run_step H. run_step H. apply app_eq_nil in Hcase as [? ?].
  split; [by exists draft, round | done].
Qed.

Lemma act_finalize_ok c p m : act_finalize c p = Ok m -> finalize_ok (ca_md c) (ca_ix c).
Proof. intros H. open_action H. by eapply validateFinalizeReady_ok. Qed.

(** One council command keeps the log justified. *)
Lemma councilTransition_justified c p m x :
  councilTransition c p = Ok m -> records x m -> justified (ca_md c) (ix_events (ca_ix c)) x.
Proof.
  intros H Hx. pose proof Hx as (Ht & _). unfold justified. rewrite Ht. split_actions H.
  all: assert (Hact := H); open_action Hact; cbn [cm_type]; split_and!; try discriminate; intros _.
  - by eapply act_grant_ok.
  - by eapply act_speak_ok.
  - by eapply act_propose_ok.
  - by eapply act_revise_ok.
  - by eapply act_request_vote_ok.
  - by eapply act_vote_ok.
  - by eapply act_finalize_ok.
Qed.

Lemma justified_same md md' l e : same_session md md' -> justified md l e -> justified md' l e.
Proof. intros Hs. open_session Hs. done. Qed.

Lemma council_command_justified clock md (c : council_command) ix e :
  respond clock md ix c = Ok (Propose e) -> justified md (ix_events ix) (appended md ix e).
Proof.
  destruct c as [spec|c]; intros H.
  - change (respond clock md ix spec = Ok (Propose e)) in H.
    apply council_recorded in H as (m & Ht & Hty & _ & Hfrom & Hto & Hturn & Hpl).
    by apply (councilTransition_justified _ _ _ _ Ht).
  - pose proof (appended_fields md ix e) as (_ & _ & _ & _ & Hty & _).
    apply (control_phase clock md ix c e) in H. unfold justified. rewrite Hty.
    assert (ev_type e ∈ ["session_cancelled"; "session_blocked"; "session_resumed"; "limits_extended"]) as Hin
      by (destruct H as [(-> & _)|[(-> & _)|(H & _)]]; set_solver).
    clear Hty H. split_and!; intros E; rewrite E in Hin; exfalso; set_solver.
Qed.

Lemma council_run_justified name w w' ix ix' :
  rtc (command_step (C := council_command) name) w w' -> reads w name ix ->
  justified_log (wd_md w) (ix_events ix) -> reads w' name ix' -> justified_log (wd_md w) (ix_events ix').
Proof.
  intros Hrun Hix Hj Hix'.
  apply (command_run_ind (C := council_command) (fun i => justified_log (wd_md w) (ix_events i)) name w w' ix ix');
    [|done..].
  intros clock md c i e Hmd Hi Hd _. cbn [index_add ix_events]. apply justified_log_snoc; [done|].
  apply (justified_same md); [done|]. by eapply council_command_justified.
Qed.

(** *** Speaking *)

Lemma stance_assignment_raise l member turn :
  selectedGrantStanceAssignment (prefix_log l) member turn <> "" ->
  exists k h, l !! k = Some h /\ ev_type h = "hand_raise" /\ trim_space (ev_from h) = trim_space member /\
    anyInt (pl h) "turn" = turn.
Proof.
  unfold selectedGrantStanceAssignment. destruct (_ || _); [done|].
  destruct (find_last _ _) as [h|] eqn:Hf; [|done]. intros _.
  apply find_last_Some in Hf as [Hin Hp]. apply list_elem_of_lookup in Hin as [k Hk].
  exists k, h. bool_prop. by repeat split.
Qed.

(** C9. Who speaks was given the floor: over any run of council and control
    commands, under any faults, every speech in the log follows a grant of its
    turn to its speaker, a council member, and that grant follows a hand the
    speaker raised for the turn. *)
Theorem speech_follows_grant name w w' ix ix' i e :
  rtc (command_step (C := council_command) name) w w' -> reads w name ix ->
  justified_log (wd_md w) (ix_events ix) -> reads w' name ix' ->
  (forall x turn, x ∈ ix_events ix' -> ev_turn x = Some turn -> small turn) ->
  ix_events ix' !! i = Some e -> ev_type e = "speech" ->
  exists turn j g k h, (k < j < i)%nat /\ ev_turn e = Some turn /\ 0 < turn /\
    councilMember (wd_md w) (ev_from e) = true /\
    ix_events ix' !! j = Some g /\ ev_type g = "speaker_selected" /\ ev_to g = [ev_from e] /\ ev_turn g = Some turn /\
    ev_from g = md_moderator (wd_md w) /\
    ix_events ix' !! k = Some h /\ ev_type h = "hand_raise" /\ trim_space (ev_from h) = trim_space (ev_from e) /\
    anyInt (pl h) "turn" = turn.
Proof.
  intros Hrun Hix Hj Hix' Hsmall Hi Ht. pose proof (council_run_justified _ _ _ _ _ Hrun Hix Hj Hix') as Hall.
  destruct (Hall i e Hi) as (Hspeech & _). destruct (Hspeech Ht) as (turn & Hturn & Hpos & Hmem & Hgrant & _).
  apply existsb_take in Hgrant as (j & g & Hlt & Hg & Hgr). unfold grants in Hgr. bool_prop.
  destruct (Hall j g Hg) as (_ & Hgrant & _).
  destruct (Hgrant ltac:(done)) as (Hmod & member & turn' & Hto & Hpm & Ht' & Hrec & Hcm & Hst).
  assert (member = ev_from e) as ->.
  { rewrite Hpm, Hto in *. match goal with R : _ \/ _ |- _ => destruct R; by bool_prop end. }
  assert (turn' = turn) as ->.
  { rewrite <- (Hrec (Hsmall g turn' ltac:(by eapply list_elem_of_lookup_2) Ht')). done. }
  apply stance_assignment_raise in Hst as (k & h & Hk & Hh & Hfrom & Hhturn).
  apply lookup_take_Some in Hk as [Hk Hkj].
  exists turn, j, g, k, h. repeat split; try done.
Qed.

(** *** Voting *)

(** Rounds and draft versions that the log gives back exactly. *)
Definition counts_small (l : list EventEnvelope) : Prop :=
  forall e, e ∈ l -> small (anyInt (pl e) "consensus_round") /\ small (anyInt (pl e) "draft_version").

Lemma counts_small_take l i : counts_small l -> counts_small (take i l).
Proof. intros H e (j & Hj)%list_elem_of_lookup. apply lookup_take_Some in Hj as [Hj _]. by apply H, (list_elem_of_lookup_2 _ j). Qed.

Lemma currentVoteRequest_split l draft round :
  currentVoteRequest (prefix_log l) = Some (draft, round) ->
  exists l1 g l2, l = l1 ++ g :: l2 /\ ev_type g = "consensus_vote_requested" /\
    anyInt (pl g) "draft_version" = draft /\ anyInt (pl g) "consensus_round" = round /\
    forall y, y ∈ l2 -> ev_type y <> "draft_conclusion".
Proof.
  unfold currentVoteRequest. destruct (find_last _ _) as [g|] eqn:Hf; [|done].
  apply find_last_split in Hf as (l1 & l2 & Hl & _ & Hl2). simpl in Hl.
  destruct (_ == _) eqn:Ht; [|done]. intros [= <- <-]. bool_prop. exists l1, g, l2. repeat split; try done.
  intros y Hy Hdraft. specialize (Hl2 y Hy). by rewrite Hdraft in Hl2.
Qed.

Lemma vote_request_small l draft round :
  counts_small l -> currentVoteRequest (prefix_log l) = Some (draft, round) -> small draft /\ small round.
Proof.
  intros Hs (l1 & g & l2 & -> & _ & <- & <- & _)%currentVoteRequest_split.
  by destruct (Hs g) as [? ?]; [set_solver|].
Qed.

(** What the justification of a vote says of the vote itself. *)
Lemma vote_is_in md l e :
  counts_small l -> vote_ok md (prefix_log l) e -> ev_type e = "consensus_vote" ->
  exists draft round, currentVoteRequest (prefix_log l) = Some (draft, round) /\
    vote_in round draft e = true /\ duplicateVote (prefix_log l) (ev_from e) round draft = false.
Proof.
  intros Hs (_ & _ & draft & round & Hreq & Hd & Hr & Hdup) Ht. exists draft, round. split; [done|]. split; [|done].
  destruct (vote_request_small _ _ _ Hs Hreq) as [Hsd Hsr].
  unfold vote_in. rewrite Ht, (Hd Hsd), (Hr Hsr), !Z.eqb_refl. done.
Qed.

Lemma vote_unique_lt md l i j e f round draft :
  justified_log md l -> counts_small l -> l !! i = Some e -> l !! j = Some f ->
  vote_in round draft e = true -> vote_in round draft f = true -> ev_from e = ev_from f -> ~ (i < j)%nat.
Proof.
  intros Hall Hs He Hf Hve Hvf Hfrom Hlt.
  destruct (Hall j f Hf) as (_ & _ & Hvote & _).
  assert (Ht : ev_type f = "consensus_vote") by (unfold vote_in in Hvf; by bool_prop).
  destruct (vote_is_in _ _ _ (counts_small_take _ j Hs) (Hvote Ht) Ht) as (d & r & _ & Hvf' & Hdup).
  assert (Hkey : r = round /\ d = draft) by (unfold vote_in in Hvf, Hvf'; bool_prop; subst; done).
  destruct Hkey as [-> ->]. unfold duplicateVote in Hdup.
  apply not_true_iff_false in Hdup. apply Hdup, existsb_take. exists i, e. split; [done|]. split; [done|].
  rewrite Hve, Hfrom. simpl. apply String.eqb_refl.
Qed.

Lemma vote_unique md l i j e f round draft :
  justified_log md l -> counts_small l -> l !! i = Some e -> l !! j = Some f ->
  vote_in round draft e = true -> vote_in round draft f = true -> ev_from e = ev_from f -> i = j.
Proof.
  intros Hall Hs He Hf Hve Hvf Hfrom.
  pose proof (vote_unique_lt _ _ _ _ _ _ _ _ Hall Hs He Hf Hve Hvf Hfrom).
  pose proof (vote_unique_lt _ _ _ _ _ _ _ _ Hall Hs Hf He Hvf Hve (eq_sym Hfrom)). lia.
Qed.

Lemma votes_of_lookup l round draft member :
  votes_of (prefix_log l) round draft !! member =
  (fun e => payloadStringDefault (pl e) "vote" "") <$>
    find_last (fun e => vote_in round draft e && (ev_from e == member)) l.
Proof.
  unfold votes_of. simpl. induction l as [|e l IH] using rev_ind; [done|].
  rewrite foldl_app, find_last_app. simpl. destruct (vote_in round draft e); simpl; [|done].
  destruct (String.eqb_spec (ev_from e) member) as [->|Hne]; [by rewrite lookup_insert_eq|].
  by rewrite lookup_insert_ne.
Qed.

Lemma check_votes_ok cast members :
  check_votes cast members = Ok tt <->
  forall m, m ∈ members -> exists v, cast !! m = Some v /\ v <> "" /\ v <> "block".
Proof.
  induction members as [|m ms IH]; simpl.
  - split; [|done]. intros _ m Hm. by apply elem_of_nil in Hm.
  - split.
    + intros H. run_step H. run_step H. bool_prop. intros n [->|Hn]%elem_of_cons; [|by apply IH].
      destruct (cast !! m) as [v|]; [by exists v | done].
    + intros H. destruct (H m ltac:(set_solver)) as (v & Hv & Hne & Hnb). rewrite Hv. simpl.
      apply String.eqb_neq in Hne as ->. apply String.eqb_neq in Hnb as ->. apply IH. intros n Hn. apply H. set_solver.
Qed.

(** C11. One member, one vote: over any run of council and control commands, under
    any faults, no two votes in the log have the same sender, round and draft,
    and every vote was cast by a council member on an open vote request. *)
Theorem one_vote_per_round name w w' ix ix' i j e f round draft :
  rtc (command_step (C := council_command) name) w w' -> reads w name ix ->
  justified_log (wd_md w) (ix_events ix) -> reads w' name ix' -> counts_small (ix_events ix') ->
  ix_events ix' !! i = Some e -> ix_events ix' !! j = Some f ->
  vote_in round draft e = true -> vote_in round draft f = true -> ev_from e = ev_from f ->
  i = j /\ councilMember (wd_md w) (ev_from e) = true /\
  currentVoteRequest (prefix_log (take i (ix_events ix'))) = Some (draft, round).
Proof.
  intros Hrun Hix Hj Hix' Hs Hi Hf Hve Hvf Hfrom.
  pose proof (council_run_justified _ _ _ _ _ Hrun Hix Hj Hix') as Hall.
  split; [by eapply (vote_unique _ _ i j e f)|].
  destruct (Hall i e Hi) as (_ & _ & Hvote & _).
  assert (Ht : ev_type e = "consensus_vote") by (unfold vote_in in Hve; by bool_prop).
  specialize (Hvote Ht). split; [by apply Hvote|].
  destruct (vote_is_in _ _ _ (counts_small_take _ i Hs) Hvote Ht) as (d & r & Hreq & Hve' & _).
  rewrite Hreq. unfold vote_in in Hve, Hve'. bool_prop. by subst.
Qed.

Lemma draft_max_other m x : ev_type x <> "draft_conclusion" -> draft_max m x = m.
Proof. unfold draft_max. by intros ->%String.eqb_neq. Qed.

Lemma draft_max_others m l : (forall x, x ∈ l -> ev_type x <> "draft_conclusion") -> foldl draft_max m l = m.
Proof.
  induction l as [|x l IH]; intros Hl; [done|]. simpl.
  rewrite draft_max_other by (apply Hl; set_solver). apply IH. intros y Hy. apply Hl. set_solver.
Qed.

Lemma draft_max_small m l : small m -> counts_small l -> small (foldl draft_max m l).
Proof.
  revert m. induction l as [|x l IH]; intros m Hm Hl; [done|]. simpl.
  apply IH; [|intros y Hy; apply Hl; set_solver]. unfold draft_max. destruct (_ == _); [|done].
  destruct (Hl x ltac:(set_solver)). unfold small in *. lia.
Qed.

(** The open request is on the latest draft. *)
Lemma request_on_latest_draft md l draft round :
  justified_log md l -> counts_small l -> currentVoteRequest (prefix_log l) = Some (draft, round) ->
  draft = latestDraftVersion (prefix_log l).
Proof.
  intros Hall Hs (l1 & g & l2 & -> & Hg & <- & _ & Hl2)%currentVoteRequest_split.
  destruct (Hall (length l1) g) as (_ & _ & _ & Hreq & _); [by apply list_lookup_middle|].
  rewrite take_app_length in Hreq. destruct (Hreq Hg) as [_ Hrec].
  rewrite Hrec by (apply (draft_max_small 0); [unfold small; lia | intros y Hy; apply Hs; set_solver]).
  unfold latestDraftVersion. simpl. rewrite foldl_app. simpl. rewrite draft_max_other by (by rewrite Hg).
  symmetry. by apply draft_max_others.
Qed.

(** C12. A council is finalized only by consensus: over any run of council and
    control commands, under any faults, a finalization in the log comes after
    a vote request on the latest draft, in whose round every council member
    voted and no member's vote is a block. *)
Theorem finalized_by_consensus name w w' ix ix' i e :
  rtc (command_step (C := council_command) name) w w' -> reads w name ix ->
  justified_log (wd_md w) (ix_events ix) -> reads w' name ix' -> counts_small (ix_events ix') ->
  ix_events ix' !! i = Some e -> ev_type e = "council_finalized" ->
  let before := take i (ix_events ix') in
  exists draft round, currentVoteRequest (prefix_log before) = Some (draft, round) /\
    draft = latestDraftVersion (prefix_log before) /\
    forall m, councilMember (wd_md w) m = true ->
      (exists v, v ∈ before /\ vote_in round draft v = true /\ ev_from v = m) /\
      forall v, v ∈ before -> vote_in round draft v = true -> ev_from v = m ->
        payloadStringDefault (pl v) "vote" "" ∈ ["approve"; "approve_with_conditions"; "abstain"].
Proof.
  intros Hrun Hix Hj Hix' Hs Hi Ht before. pose proof (council_run_justified _ _ _ _ _ Hrun Hix Hj Hix') as Hall.
  destruct (Hall i e Hi) as (_ & _ & _ & _ & _ & Hfin). destruct (Hfin Ht) as (draft & round & Hreq & Hvotes).
  assert (Hpre : justified_log (wd_md w) before).
  { intros j x Hx. apply lookup_take_Some in Hx as [Hx Hlt]. unfold before.
    rewrite take_take. replace (j `min` i)%nat with j by lia. by apply Hall. }
  pose proof (counts_small_take _ i Hs) as Hsb. fold before in Hreq, Hvotes, Hsb.
  exists draft, round. split; [done|]. split; [by eapply request_on_latest_draft|].
  intros m Hm. destruct (proj1 (check_votes_ok _ _) Hvotes m) as (v & Hv & Hne & Hnb); [by apply mem_str_spec|].
  rewrite votes_of_lookup in Hv. apply fmap_Some in Hv as (x & Hx & ->).
  apply find_last_Some in Hx as [Hin Hp]. apply andb_true_iff in Hp as [Hvx Hfx]. apply String.eqb_eq in Hfx.
  split; [by exists x|]. intros y Hy Hvy Hfy.
  assert (y = x) as ->.
  { apply list_elem_of_lookup in Hy as [a Ha]. apply list_elem_of_lookup in Hin as [b Hb].
    rewrite (vote_unique _ _ a b y x round draft Hpre Hsb Ha Hb Hvy Hvx ltac:(congruence)) in Ha. congruence. }
  apply list_elem_of_lookup in Hin as [b Hb]. destruct (Hpre b x Hb) as (_ & _ & Hvote & _).
  assert (Htx : ev_type x = "consensus_vote") by (unfold vote_in in Hvx; by bool_prop).
  destruct (Hvote Htx) as (_ & Hval & _). unfold votes in Hval. set_solver.
Qed.

(** ** Concrete runs *)

Definition cx_spec (action actor cmd : string) (p : payload) : CouncilEventSpec :=
  mk_council_spec action actor cmd "" (Some p) fx_later.

Definition cx_run {C} `{!Command C} (w : world) (c : C) : world :=
  fst (run_command "sess_council" w fx_later c None).
Definition cx_result {C} `{!Command C} (w : world) (c : C) : result error (AppendResult * bool) :=
  snd (run_command "sess_council" w fx_later c None).
Definition cx_read (w : world) : LogIndex :=
  match read_session w "sess_council" with
  | Ok ix => ix
  | Err _ => empty_index
  end.

Definition cx_discussion : list CouncilEventSpec :=
  [cx_spec "prepare" "mod" "c1" ∅; cx_spec "ready" "ann" "c2" {[ "summary" := AStr "read" ]};
   cx_spec "poll" "mod" "c3" ∅; cx_spec "hand-raise" "ann" "c4" {[ "intent" := AStr "support" ]};
   cx_spec "grant" "mod" "c5" {[ "member" := AStr "ann" ]};
   cx_spec "speak" "ann" "c6" {[ "speech" := AStr "We should ship." ]}].

Definition cx_consensus : list CouncilEventSpec :=
  [cx_spec "propose" "mod" "c7" {[ "draft" := AStr "Ship it." ]}; cx_spec "request-vote" "mod" "c8" ∅;
   cx_spec "vote" "ann" "c9" {[ "vote" := AStr "approve"; "reason" := AStr "agreed" ]};
   cx_spec "vote" "bob" "c10" {[ "vote" := AStr "abstain"; "reason" := AStr "no view" ]};
   cx_spec "finalize" "mod" "c11" {[ "final_summary" := AStr "Ship." ]}].

Definition cx_runs (w : world) (cs : list CouncilEventSpec) : world := foldl cx_run w cs.
Definition cx_w_spoken : world := cx_runs fx_w0 cx_discussion.
Definition cx_w_final : world := cx_runs cx_w_spoken cx_consensus.

Example cx_happy_path :
  map ev_type (ix_events (cx_read cx_w_final)) =
    ["session_created"; "preparation_requested"; "member_ready"; "hand_raise_requested"; "hand_raise";
     "speaker_selected"; "speech"; "draft_conclusion"; "consensus_vote_requested"; "consensus_vote";
     "consensus_vote"; "council_finalized"] /\
  latestPhase (wd_md cx_w_final) (cx_read cx_w_final) = "finalized" /\
  md_status (wd_md cx_w_final) = StatusTerminal.
Proof. vm_compute. repeat split. Qed.

(** A vote retried with its own command id is refused, not deduplicated. *)
Example vote_retry_refused :
  let vote := cx_spec "vote" "ann" "c9" {[ "vote" := AStr "approve"; "reason" := AStr "agreed" ]} in
  cx_result (cx_runs cx_w_spoken (take 3 cx_consensus)) vote =
  Err (NewValidationError CategoryCommandConflict "vote" "member already voted in this consensus round").
Proof. vm_compute. reflexivity. Qed.

(** A hand raised for a turn that was never polled is recorded and becomes the
    current turn of the council. *)
Example hand_raise_moves_turn :
  let raise := cx_spec "hand-raise" "bob" "c20" {[ "turn" := AInt 7000 ]} in
  is_ok (cx_result cx_w_spoken raise) = true /\
  currentCouncilTurn (cx_read cx_w_spoken) = 1 /\ currentCouncilTurn (cx_read (cx_run cx_w_spoken raise)) = 7000.
Proof. vm_compute. repeat split. Qed.

(** ** Witnesses *)

Lemma cx_runs_rtc w cs : rtc (command_step (C := council_command) "sess_council") w (cx_runs w cs).
Proof.
  revert w. induction cs as [|c cs IH]; intros w; [constructor|].
  eapply rtc_l; [|apply IH].
  apply (do_command (C := council_command) _ _ _ fx_later (inl c) None (cx_result w c)).
  unfold cx_run, cx_result. rewrite <- surjective_pairing. reflexivity.
Qed.

Lemma cx_read_reads w : is_ok (read_session w "sess_council") = true -> reads w "sess_council" (cx_read w).
Proof.
  unfold read_session, cx_read, read_session. destruct (wd_sessions w !! "sess_council") as [sd|] eqn:E; [|done].
  destruct (ReadLogIndex sd (wd_md w)) eqn:R; [|done]. intros _. by exists sd.
Qed.

Lemma cx_justified0 : justified_log fx_council_md (ix_events fx_ix0).
Proof.
  intros [|i] e H; [|done]. injection H as <-. unfold justified. split_and!; intros Ht; vm_compute in Ht; discriminate Ht.
Qed.

(** Decides a bound on every event of a concrete log. *)
Definition counts_small_b (l : list EventEnvelope) : bool :=
  forallb (fun e => (Z.abs (anyInt (pl e) "consensus_round") <=? 2 ^ 53)
                    && (Z.abs (anyInt (pl e) "draft_version") <=? 2 ^ 53)) l.

Lemma counts_small_spec l : counts_small_b l = true -> counts_small l.
Proof.
  intros H e He. apply forallb_forall with (x := e) in H; [|by apply list_elem_of_In]. unfold small. by bool_prop.
Qed.

Lemma council_refines_phase_machine_witness :
  exists tail, ix_events (cx_read cx_w_final) = ix_events fx_ix0 ++ tail /\ obeys council_rule (ix_events fx_ix0) tail.
Proof.
  apply (council_refines_phase_machine "sess_council" fx_w0 cx_w_final fx_ix0 (cx_read cx_w_final)).
  - unfold cx_w_final, cx_w_spoken. etrans; apply cx_runs_rtc.
  - apply fx_reads0.
  - discriminate.
  - apply cx_read_reads. vm_compute. reflexivity.
Defined.

Definition turns_small_b (l : list EventEnvelope) : bool :=
  forallb (fun e => match ev_turn e with Some t => Z.abs t <=? 2 ^ 53 | None => true end) l.

Lemma turns_small_spec l :
  turns_small_b l = true -> forall x turn, x ∈ l -> ev_turn x = Some turn -> small turn.
Proof.
  intros H x turn Hx Ht. apply forallb_forall with (x := x) in H; [|by apply list_elem_of_In].
  rewrite Ht in H. unfold small. by bool_prop.
Qed.

Definition cx_speech : EventEnvelope := default (fx_created fx_council_md) (ix_events (cx_read cx_w_spoken) !! 6%nat).

Lemma speech_follows_grant_witness :
  exists turn j g k h, (k < j < 6)%nat /\ ev_turn cx_speech = Some turn /\ 0 < turn /\
    councilMember fx_council_md (ev_from cx_speech) = true /\
    ix_events (cx_read cx_w_spoken) !! j = Some g /\ ev_type g = "speaker_selected" /\
    ev_to g = [ev_from cx_speech] /\ ev_turn g = Some turn /\ ev_from g = "mod" /\
    ix_events (cx_read cx_w_spoken) !! k = Some h /\ ev_type h = "hand_raise" /\
    trim_space (ev_from h) = trim_space (ev_from cx_speech) /\ anyInt (pl h) "turn" = turn.
Proof.
  apply (speech_follows_grant "sess_council" fx_w0 cx_w_spoken fx_ix0 (cx_read cx_w_spoken) 6 cx_speech).
  - apply cx_runs_rtc.
  - apply fx_reads0.
  - apply cx_justified0.
  - apply cx_read_reads. vm_compute. reflexivity.
  - apply turns_small_spec. vm_compute. reflexivity.
  - vm_compute. reflexivity.
  - vm_compute. reflexivity.
Defined.

Definition cx_vote : EventEnvelope := default (fx_created fx_council_md) (ix_events (cx_read cx_w_final) !! 9%nat).

Lemma one_vote_per_round_witness :
  9%nat = 9%nat /\ councilMember fx_council_md (ev_from cx_vote) = true /\
  currentVoteRequest (prefix_log (take 9 (ix_events (cx_read cx_w_final)))) = Some (1, 1).
Proof.
  apply (one_vote_per_round "sess_council" fx_w0 cx_w_final fx_ix0 (cx_read cx_w_final) 9 9 cx_vote cx_vote 1 1).
  - unfold cx_w_final, cx_w_spoken. etrans; apply cx_runs_rtc.
  - apply fx_reads0.
  - apply cx_justified0.
  - apply cx_read_reads. vm_compute. reflexivity.
  - apply counts_small_spec. vm_compute. reflexivity.
  - vm_compute. reflexivity.
  - vm_compute. reflexivity.
  - vm_compute. reflexivity.
  - vm_compute. reflexivity.
  - reflexivity.
Defined.

Definition cx_final : EventEnvelope := default (fx_created fx_council_md) (ix_events (cx_read cx_w_final) !! 11%nat).

Lemma finalized_by_consensus_witness :
  let before := take 11 (ix_events (cx_read cx_w_final)) in
  exists draft round, currentVoteRequest (prefix_log before) = Some (draft, round) /\
    draft = latestDraftVersion (prefix_log before) /\
    forall m, councilMember fx_council_md m = true ->
      (exists v, v ∈ before /\ vote_in round draft v = true /\ ev_from v = m) /\
      forall v, v ∈ before -> vote_in round draft v = true -> ev_from v = m ->
        payloadStringDefault (pl v) "vote" "" ∈ ["approve"; "approve_with_conditions"; "abstain"].
Proof.
  apply (finalized_by_consensus "sess_council" fx_w0 cx_w_final fx_ix0 (cx_read cx_w_final) 11 cx_final).
  - unfold cx_w_final, cx_w_spoken. etrans; apply cx_runs_rtc.
  - apply fx_reads0.
  - apply cx_justified0.
  - apply cx_read_reads. vm_compute. reflexivity.
  - apply counts_small_spec. vm_compute. reflexivity.
  - vm_compute. reflexivity.
  - vm_compute. reflexivity.
Defined.
