(* ===== verification/CouncilWindow.v ===== *)
(** * Correctness of response windows

    A poll opens a window of two minutes that the log gives back exactly; the
    window accepts answers until its deadline or until every required member
    answered; and the daemon's timeout closes it by dropping the members that
    are still missing. *)

From S2P Require Import Prelude GoValue GoTime Model Ids Evidence Events EventLog LogSpec Command Delegation Fixtures DelegationTheory Closeout Lifecycle ArgumentGraph Council CouncilTheory.

(** ** Who answered *)

Lemma responded_rows_some ix turn m :
  is_Some (responded_rows ix turn !! m) <->
  exists e, e ∈ ix_events ix /\ is_response turn e = true /\ responseWindowResponseMember e = m /\ m <> "".
Proof.
  unfold responded_rows, responses. induction (ix_events ix) as [|e l IH] using rev_ind; simpl.
  - split; [by intros [? H] | intros (e & H & _); by apply elem_of_nil in H].
  - rewrite List.filter_app, foldl_app. simpl.
    destruct (is_response turn e && (responseWindowResponseMember e != "")) eqn:Hp; simpl.
    + bool_prop. destruct (decide (responseWindowResponseMember e = m)) as [<-|Hne].
      * rewrite lookup_insert_eq. split; [|by eauto]. intros _. exists e. split; [set_solver | done].
      * rewrite lookup_insert_ne, IH by done. split; intros (x & Hx & Hr & Hm & Hnem); exists x; split; try done.
        -- set_solver.
        -- apply elem_of_app in Hx as [Hx|Hx%list_elem_of_singleton]; [done|]. by subst.
    + rewrite IH. split; intros (x & Hx & Hr & Hm & Hnem); exists x; split; try done; [set_solver|].
      apply elem_of_app in Hx as [Hx|Hx%list_elem_of_singleton]; [done|]. subst x.
      rewrite Hr in Hp. simpl in Hp. bool_prop. congruence.
Qed.

(** The member answered the turn. *)
Definition responded (ix : LogIndex) (turn : Z) (m : string) : Prop :=
  exists e, e ∈ ix_events ix /\ is_response turn e = true /\ responseWindowResponseMember e = m /\ m <> "".

Lemma window_missing_spec md ix w m :
  m ∈ window_missing md ix w <-> m ∈ window_required md w /\ ~ responded ix (rw_turn w) m.
Proof.
  unfold window_missing. rewrite list_elem_of_In, filter_In, <- list_elem_of_In. unfold responded.
  rewrite <- responded_rows_some. destruct (responded_rows ix (rw_turn w) !! m).
  - split; [by intros [_ ?] | intros [_ H]; by destruct H].
  - split; intros [H _]; (split; [done|]); [by intros [? ?] | done].
Qed.

Lemma latest_window_turn ix turn w : latestResponseWindowForTurn ix turn = Some w -> rw_turn w = turn.
Proof.
  unfold latestResponseWindowForTurn. destruct (_ <=? _); [done|]. destruct (find_last _ _); [|done].
  by intros [= <-].
Qed.

Lemma window_accepts_iff ix turn at_ :
  validateResponseWindowAccepts ix turn at_ = Ok tt <->
  match latestResponseWindowForTurn ix turn with
  | None => True
  | Some w =>
      is_zero (rw_deadline w) = true \/
      (at_ <= rw_deadline w /\ (rw_required w = [] \/ exists m, m ∈ rw_required w /\ ~ responded ix turn m))
  end.
Proof.
  unfold validateResponseWindowAccepts.
  destruct (latestResponseWindowForTurn ix turn) as [w|] eqn:Hw; [|done].
  destruct (is_zero (rw_deadline w)) eqn:Hz; [split; auto|].
  destruct (Z.ltb_spec (rw_deadline w) at_) as [Hlt|Hge].
  - split; [done|]. intros [?|[? _]]; [done|lia].
  - assert (Hreq : window_required None w = rw_required w) by (unfold window_required; by destruct (rw_required w)).
    unfold window_state. rewrite Hz. simpl.
    replace (rw_deadline w <? at_) with false by lia. rewrite Hreq.
    pose proof (fun m => window_missing_spec None ix w m) as Hmiss.
    rewrite Hreq, (latest_window_turn _ _ _ Hw) in Hmiss.
    destruct (rw_required w) as [|r rs] eqn:Hr.
    { simpl. split; auto. }
    change (0 <? len_z (r :: rs)) with true. simpl.
    destruct (window_missing None ix w) as [|m ms] eqn:Hm; simpl.
    + split; [done|]. intros [?|[_ [?|(m & Hin)]]]; [done..|]. apply Hmiss in Hin. by apply elem_of_nil in Hin.
    +       split; [|done]. intros _. right. split; [lia|]. right. exists m. apply Hmiss. set_solver.
Qed.

(** When an answer is in time: the guard accepts a response at an instant
    exactly when no window (or one without deadline) is open for the turn, or
    the deadline has not passed and some required member has not answered. *)
Theorem response_window_accepts ix turn at_ :
  validateResponseWindowAccepts ix turn at_ = Ok tt <->
  match latestResponseWindowForTurn ix turn with
  | None => True
  | Some w =>
      is_zero (rw_deadline w) = true \/
      (at_ <= rw_deadline w /\ (rw_required w = [] \/ exists m, m ∈ rw_required w /\ ~ responded ix turn m))
  end.
Proof. apply window_accepts_iff. Qed.

(** ** Polls *)

Lemma council_action c p m act :
  councilTransition c p = Ok m -> List.find (fun kv => kv.1 == ca_action c) council_actions = Some (ca_action c, act) ->
  act c p = Ok m.
Proof. unfold councilTransition. intros H Hf. run_step H. by rewrite Hf in H. Qed.

Lemma payload_time_text p k t d :
  p !! k = Some (AStr (time_format t)) -> time_json_ok t = true -> payload_time p k d = t.
Proof.
  unfold payload_time, payloadStringDefault. intros -> H.
  destruct (time_format t == "") eqn:E.
  - apply String.eqb_eq in E. apply time_format_parse in H. rewrite E in H. vm_compute in H. discriminate.
  - by rewrite time_format_parse.
Qed.

Lemma payload_strings_text (p : payload) k l :
  p !! k = Some (json_norm (AStrs l)) -> payloadStringSlice p k = Some l.
Proof. unfold payloadStringSlice. intros ->. simpl. apply any_strings_AStr. Qed.

(** A poll opens its window: once a poll for a turn is recorded, the log
    reads back a window for that turn with its own id, opened at the time of
    the poll, closing [defaultCouncilResponseWindowSec] seconds later, and
    requiring an answer of every council member. *)
Theorem poll_opens_window name w ix clock (spec : CouncilEventSpec) w1 a :
  reads w name ix -> trim_space (cn_action spec) = "poll" ->
  run_command name w clock spec None = (w1, Ok (a, false)) ->
  let now := event_time clock (cn_now spec) in
  time_json_ok now = true -> time_json_ok (now + defaultCouncilResponseWindowSec * second) = true ->
  exists ix1 e turn, reads w1 name ix1 /\ ix_events ix1 = ix_events ix ++ [e] /\ ev_turn e = Some turn /\
    (turn = nextCouncilTurn ix \/ exists p, cn_payload spec = Some p /\ turn = anyInt p "turn") /\
    (0 < turn <= 2 ^ 53 ->
     latestResponseWindowForTurn ix1 turn =
       Some (mk_window (ev_event_id e)
               (responseWindowID (md_id (wd_md w)) turn
                  (eventIDFromCommand "evt_hand_raise_requested" (council_command_id clock spec)))
               turn now (now + defaultCouncilResponseWindowSec * second) defaultCouncilResponseWindowSec
               (councilMembers (wd_md w)))).
Proof.
  intros Hix Hact Hrun now Hnow Hdead.
  apply run_command_cases in Hrun as [[_ Hno]|(ix' & e & Hix' & Hd & Happ & _)]; [by destruct (Hno a)|].
  rewrite (reads_fun _ _ _ _ Hix' Hix) in *. clear ix' Hix'.
  destruct (appendIdempotentEvent_ok _ _ _ _ _ _ _ Hix Happ) as (Hr1 & _ & _).
  apply council_recorded in Hd as (m & Ht & Hty & _ & _ & Hto & Hturn & Hpl).
  apply (council_action _ _ _ act_poll) in Ht; [|simpl; by rewrite Hact].
  set (x := appended (wd_md w) ix e) in *. open_action Ht. cbn [cm_type cm_to cm_turn cm_payload] in *.
  set (c := council_call clock (wd_md w) ix spec) in *.
  set (turn := if _ =? 0 then _ else _) in *.
  exists (index_add ix x), x, turn. split; [done|]. split; [done|]. split; [done|]. split.
  { subst turn. destruct (_ =? 0) eqn:Hz; [by left|]. right.
    assert (Hin : anyInt (council_input (wd_md w) spec) "turn" = anyInt (default ∅ (cn_payload spec)) "turn").
    { unfold council_input, session_payload, anyInt.
      destruct (md_linked_authority _), (md_surface _); by rewrite ?lookup_insert_ne, ?lookup_delete_ne by done. }
    unfold positivePayloadInt. rewrite Hin. destruct (cn_payload spec) as [p|]; simpl in *; [by exists p|].
    change (positivePayloadInt (council_input (wd_md w) spec) "turn") with (anyInt (council_input (wd_md w) spec) "turn") in Hz.
    by rewrite Hin in Hz. }
  intros Hpos.
  assert (Hrec : anyInt (pl x) "turn" = turn).
  { apply (recorded_insert _ _ _ _ (Hpl "turn" ltac:(done))); [|unfold small; lia].
    by repeat (first [rewrite lookup_insert_eq | rewrite lookup_insert_ne by done]). }
  unfold latestResponseWindowForTurn. replace (turn <=? 0) with false by lia.
  unfold index_add. cbn [ix_events]. rewrite find_last_app, Hty, Hrec, Z.eqb_refl.
  change ("hand_raise_requested" == "hand_raise_requested") with true. cbn [andb fmap option_fmap option_map].
  f_equal.
  pose proof (Hpl "response_window_opened_at" ltac:(done)) as Hopen.
  pose proof (Hpl "response_window_deadline_at" ltac:(done)) as Hdl.
  pose proof (Hpl "response_window_duration_sec" ltac:(done)) as Hdur.
  pose proof (Hpl "response_window_id" ltac:(done)) as Hid.
  pose proof (Hpl "required_members" ltac:(done)) as Hreq.
  repeat match goal with
  | R : pl x !! _ = _ |- _ =>
      progress repeat (first [rewrite lookup_insert_eq in R | rewrite lookup_insert_ne in R by done]); simpl in R
  end.
  unfold window_of.
  rewrite (payload_time_text _ _ _ _ Hopen), (payload_time_text _ _ _ _ Hdl) by done.
  assert (Hd120 : anyInt (pl x) "response_window_duration_sec" = defaultCouncilResponseWindowSec)
    by (unfold anyInt; by rewrite Hdur).
  rewrite Hd120, (payload_strings_text _ _ _ Hreq). unfold payloadStringDefault. rewrite Hid.
  destruct (councilMembers (wd_md w)) eqn:Hm; [|done].
  change (members c) with (councilMembers (wd_md w)) in Hto. rewrite Hto, Hm. done.
Qed.

(** ** The daemon's timeout *)

Definition timeout_command (md : SessionMetadata) (turn : Z) (member : string) : string :=
  "cmd_response_window_timeout_" +:+ md_id md +:+ "_" +:+ itoa turn +:+ "_" +:+ member.

(** The event is the daemon's drop of the member in the turn. *)
Definition dropped_by_daemon (turn : Z) (member : string) (e : EventEnvelope) : Prop :=
  ev_type e = "hand_raise_dropped" /\ ev_from e = daemonPrincipal /\ auto_drop e = true /\
  anyInt (pl e) "turn" = turn /\ responseWindowResponseMember e = member.

(** A member id without surrounding space. *)
Definition canonical (member : string) : Prop := trim_space member = member /\ member <> "".

Lemma session_payload_lookup md p k : k ∉ council_payload_keys -> session_payload md p !! k = p !! k.
Proof.
  intros Hk. unfold session_payload, council_payload_keys in *.
  destruct (md_linked_authority md), (md_surface md); by rewrite !lookup_insert_ne by set_solver.
Qed.

Lemma dropped_member_auto c p member r :
  ca_actor c = daemonPrincipal -> anyBool p ["auto"] = true -> payloadStringDefault p "member" "" = member ->
  dropped_member c p = Ok r -> r = trim_space member.
Proof.
  intros Ha Hauto Hm. unfold dropped_member. rewrite Ha, Hauto, Hm.
  change (daemonPrincipal == daemonPrincipal) with true. cbn [andb]. intros H. by run_inv H.
Qed.

Lemma act_drop_auto c p m turn member :
  ca_actor c = daemonPrincipal -> p !! "auto" = Some (ABool true) -> p !! "member" = Some (AStr member) ->
  p !! "turn" = Some (AInt turn) -> 0 < turn -> act_drop c p = Ok m ->
  cm_type m = "hand_raise_dropped" /\ cm_from m = daemonPrincipal /\
  cm_payload m !! "auto" = Some (ABool true) /\ cm_payload m !! "member" = Some (AStr (trim_space member)) /\
  cm_payload m !! "turn" = Some (AInt turn).
Proof.
  intros Ha Hauto Hm Hturn Hpos H.
  assert (Hab : anyBool p ["auto"] = true) by (simpl; by rewrite Hauto).
  assert (Hsm : payloadStringDefault p "member" "" = member) by (unfold payloadStringDefault; by rewrite Hm).
  unfold act_drop in H. cbv zeta in H. run_step H. destruct (dropped_member c p) as [r|] eqn:Hr; [|done].
  apply (dropped_member_auto _ _ _ _ Ha Hab Hsm) in Hr as ->. cbn [mbind result_bind] in H.
  run_step H. run_inv H. subst m. cbn [cm_type cm_from cm_payload].
  unfold requireTurn, positivePayloadInt, anyInt in Hrun0. rewrite Hturn in Hrun0. simpl in Hrun0.
  replace (turn =? 0) with false in Hrun0 by lia. replace (turn <=? 0) with false in Hrun0 by lia.
  injection Hrun0 as <-.
  repeat split; try done;
    by repeat (first [rewrite lookup_insert_eq | rewrite lookup_insert_ne by done]).
Qed.

Lemma timeout_drop_recorded clock md ix window turn now member e :
  0 < turn <= 2 ^ 53 -> canonical member ->
  respond clock md ix (timeout_spec md window turn now member) = Ok (Propose e) ->
  dropped_by_daemon turn member (appended md ix e) /\ ev_command_id e = timeout_command md turn member.
Proof.
  intros Hturn [Htrim Hne] Hd. set (spec := timeout_spec md window turn now member) in *.
  assert (Hcmd : ev_command_id e = timeout_command md turn member).
  { apply council_respond, buildCouncilEvent_ok in Hd as (m & _ & ->).
    pose proof (prepare_fields md ix (council_event md (council_command_id clock spec)
      (council_causation spec (delete "closeout_diagnostics" (default ∅ (cn_payload spec)))) m
      (event_time clock (cn_now spec)))) as Hf. cbv zeta in Hf. destruct Hf as (_ & _ & -> & _). simpl.
    unfold council_command_id. simpl. fold (timeout_command md turn member).
    by rewrite letter_nonblank. }
  split; [|done]. apply council_recorded in Hd as (m & Ht & Hty & _ & Hfrom & _ & _ & Hpl).
  apply (council_action _ _ _ act_drop) in Ht; [|done].
  assert (Hin : forall k, k ∉ council_payload_keys -> k <> "closeout_diagnostics" ->
    council_input md spec !! k = default ∅ (cn_payload spec) !! k).
  { intros k Hk Hkc. unfold council_input. by rewrite session_payload_lookup, lookup_delete_ne. }
  apply (act_drop_auto _ _ _ turn member) in Ht; [|done| | | |lia]; [|rewrite Hin; [done|set_solver|done]..].
  destruct Ht as (Hmt & Hmf & Hauto & Hmem & Hmturn).
  pose proof (Hpl "auto" ltac:(done)) as Pa. pose proof (Hpl "member" ltac:(done)) as Pm.
  rewrite Hauto in Pa. rewrite Hmem, Htrim in Pm. simpl in Pa, Pm.
  unfold dropped_by_daemon, auto_drop, responseWindowResponseMember, blank_key, payloadStringDefault.
  rewrite Hty, Hmt, Hfrom, Hmf, Pm. simpl. rewrite Pa.
  assert (Hb : is_blank member = false) by (unfold is_blank; rewrite Htrim; by apply String.eqb_neq).
  rewrite Hb. repeat split; try done. apply (recorded_insert _ _ _ _ (Hpl "turn" ltac:(done)) Hmturn). unfold small. lia.
Qed.

(** A council command whose id is new to the log appends its event. *)
Lemma council_command_new name w clock (spec : CouncilEventSpec) fault w' a dedup ix :
  reads w name ix -> (forall x, x ∈ ix_events ix -> ev_command_id x <> council_command_id clock spec) ->
  run_command name w clock spec fault = (w', Ok (a, dedup)) ->
  dedup = false /\ exists e, respond clock (wd_md w) ix spec = Ok (Propose e) /\
    reads w' name (index_add ix (appended (wd_md w) ix e)) /\ same_session (wd_md w') (wd_md w).
Proof.
  intros Hix Hfresh Hrun. pose proof (run_command_same _ _ _ _ _ _ _ Hrun) as Hsame.
  destruct Hix as (sd & Hsd & Hr). assert (Hix : reads w name ix) by by exists sd.
  unfold run_command in Hrun. destruct (precheck (wd_md w) spec) as [[]|]; [|done]. rewrite Hsd, Hr in Hrun.
  destruct (respond clock (wd_md w) ix spec) as [[|e]|] eqn:Hd; [|  |done].
  - simpl in Hd. by destruct (buildCouncilEvent clock (wd_md w) ix spec).
  - assert (Hcmd : ev_command_id e = council_command_id clock spec).
    { apply council_respond, buildCouncilEvent_ok in Hd as (m & _ & ->).
      apply (prepare_fields (wd_md w) ix). }
    destruct dedup.
    + exfalso. unfold appendIdempotentEvent, replay_command in Hrun. cbv zeta in Hrun.
      pose proof (prepare_fields (wd_md w) ix e) as (_ & _ & Hc & _). cbv zeta in Hc. rewrite Hc, Hcmd in Hrun.
      rewrite (proj2 (find_from_none _ _ _)) in Hrun by (intros x Hx; by apply String.eqb_neq, Hfresh).
      destruct (if _ == "" then _ else _) eqn:E in Hrun; [by destruct (_ == "") in E|].
      by destruct (AppendEvent _ _ _ _) as [? []].
    + split; [done|]. exists e. split; [done|]. split; [|done].
      by apply (appendIdempotentEvent_ok _ _ _ _ _ _ _ Hix) in Hrun as [? _].
Qed.

Lemma drop_missing_ok name clock window turn now faults :
  0 < turn <= 2 ^ 53 -> forall missing w ix results allDedup w' results' d,
  reads w name ix -> NoDup missing -> Forall canonical missing ->
  (forall m x, m ∈ missing -> x ∈ ix_events ix -> ev_command_id x <> timeout_command (wd_md w) turn m) ->
  drop_missing name w clock window turn now missing faults results allDedup = (w', results', Ok d) ->
  exists ix' tail, reads w' name ix' /\ ix_events ix' = ix_events ix ++ tail /\
    Forall2 (dropped_by_daemon turn) missing tail /\ length results' = (length results + length missing)%nat /\
    same_session (wd_md w') (wd_md w).
Proof.
  intros Hturn missing. revert faults.
  induction missing as [|m ms IH]; intros faults w ix results allDedup w' results' d Hix Hnd Hcan Hfresh H; simpl in H.
  - injection H as <- <- <-. exists ix, []. rewrite app_nil_r. repeat split; try done; simpl; lia.
  - destruct (run_command name w clock _ _) as [w1 [[a dedup]|]] eqn:Hrun; [|done].
    apply NoDup_cons in Hnd as [Hnm Hnd]. apply Forall_cons in Hcan as [Hcm Hcan].
    assert (Hid : council_command_id clock (timeout_spec (wd_md w) window turn now m) = timeout_command (wd_md w) turn m).
    { unfold council_command_id. simpl. fold (timeout_command (wd_md w) turn m). by rewrite letter_nonblank. }
    apply (council_command_new _ _ _ _ _ _ _ _ ix Hix) in Hrun as (-> & e & Hd & Hr1 & Hsame);
      [|intros x Hx; rewrite Hid; apply Hfresh; [set_solver | done]].
    destruct (timeout_drop_recorded _ _ _ _ _ _ _ _ Hturn Hcm Hd) as [Hdrop Hcmd].
    assert (Hmd : md_id (wd_md w1) = md_id (wd_md w)) by (clear -Hsame; by open_session Hsame).
    apply IH with (ix := index_add ix (appended (wd_md w) ix e)) in H as (ix' & tail & Hr' & Htail & Hall & Hlen & Hs');
      [|done..|].
    + exists ix', (appended (wd_md w) ix e :: tail). split; [done|]. split.
      { rewrite Htail. cbn [index_add ix_events]. by rewrite <- app_assoc. }
      split; [by constructor|]. split; [rewrite Hlen, length_app; simpl; lia|]. by etrans.
    + intros n x Hn Hx. unfold timeout_command. rewrite Hmd. fold (timeout_command (wd_md w) turn n).
      cbn [index_add ix_events] in Hx. apply elem_of_app in Hx as [Hx|Hx%list_elem_of_singleton];
        [apply Hfresh; [set_solver | done]|]. subst x. rewrite appended_command, Hcmd.
      unfold timeout_command. intros Heq. apply Hnm.
      repeat match type of Heq with
      | ?a +:+ _ = ?a +:+ _ => apply (inj (String.append a)) in Heq
      end. by subst.
Qed.

Lemma latest_window_drops ix ix' tail turn ms :
  ix_events ix' = ix_events ix ++ tail -> Forall2 (dropped_by_daemon turn) ms tail ->
  latestResponseWindowForTurn ix' turn = latestResponseWindowForTurn ix turn.
Proof.
  intros He Hall. unfold latestResponseWindowForTurn. rewrite He, find_last_app_none; [done|].
  intros x Hx. apply list_elem_of_lookup in Hx as [i Hi].
  destruct (Forall2_lookup_r _ _ _ _ _ Hall Hi) as (m & _ & Ht & _). by rewrite Ht.
Qed.

(** What a successful timeout leaves, shared with the sweep of all sessions. *)
Lemma window_settled name w clock turn now faults w' results d ix window :
  reads w name ix -> 0 < turn <= 2 ^ 53 -> latestResponseWindowForTurn ix turn = Some window ->
  rw_required window <> [] -> is_zero (rw_deadline window) = false ->
  NoDup (rw_required window) -> Forall canonical (rw_required window) ->
  (forall m x, m ∈ window_missing None ix window -> x ∈ ix_events ix -> ev_command_id x <> timeout_command (wd_md w) turn m) ->
  RecordCouncilResponseWindowTimeout name w clock turn now faults = (w', results, Ok d) ->
  exists ix' drops, reads w' name ix' /\ ix_events ix' = ix_events ix ++ drops /\
    Forall2 (dropped_by_daemon turn) (window_missing None ix window) drops /\
    length results = length drops /\
    latestResponseWindowForTurn ix' turn = Some window /\
    window_missing None ix' window = [] /\
    forall at_, validateResponseWindowAccepts ix' turn at_ <> Ok tt.
Proof.
  intros Hix Hturn Hw Hreq Hz Hnd Hcan Hfresh H.
  assert (Hwr : forall md, window_required md window = rw_required window)
    by (intros md; unfold window_required; by destruct (rw_required window)).
  assert (Hmeq : window_missing (Some (wd_md w)) ix window = window_missing None ix window)
    by (unfold window_missing; by rewrite !Hwr).
  unfold RecordCouncilResponseWindowTimeout, timeout_window in H.
  destruct Hix as (sd & Hsd & Hr). assert (Hix : reads w name ix) by by exists sd.
  unfold read_session in H. rewrite Hsd, Hr in H.
  destruct (md_session_type (wd_md w) == SessionTypeCouncil); [|done].
  destruct (turn <=? 0); [done|]. cbn [mbind result_bind] in H. rewrite Hw in H.
  destruct (negb _ && _); [done|]. rewrite Hmeq in H.
  assert (Hsub : forall m, m ∈ window_missing None ix window -> m ∈ rw_required window).
  { intros m [Hm _]%window_missing_spec. by rewrite Hwr in Hm. }
  assert (Hndm : NoDup (window_missing None ix window))
    by (unfold window_missing; rewrite Hwr; rewrite NoDup_ListNoDup in *; by apply List.NoDup_filter).
  assert (Hcanm : Forall canonical (window_missing None ix window)).
  { rewrite Forall_forall in *. intros m Hm. apply Hcan. by apply Hsub. }
  apply (drop_missing_ok _ _ _ _ _ _ Hturn _ _ ix) in H as (ix' & tail & Hr' & Htail & Hall & Hlen & _);
    [|done..].
  exists ix', tail. split; [done|]. split; [done|]. split; [done|].
  split; [rewrite Hlen; simpl; by apply Forall2_length in Hall|].
  assert (Hw' : latestResponseWindowForTurn ix' turn = Some window)
    by (by rewrite (latest_window_drops _ _ _ _ _ Htail Hall)).
  assert (Hresp : forall m, m ∈ rw_required window -> responded ix' turn m).
  { intros m Hm. destruct (decide (m ∈ window_missing None ix window)) as [Hin|Hnin].
    - apply list_elem_of_lookup in Hin as [i Hi].
      destruct (Forall2_lookup_l _ _ _ _ _ Hall Hi) as (x & Hx & Ht & _ & _ & Hxt & Hxm).
      exists x. rewrite Htail. split; [apply elem_of_app; right; by eapply list_elem_of_lookup_2|].
      split; [unfold is_response; rewrite Ht, Hxt, Z.eqb_refl; done|]. split; [done|].
      rewrite Forall_forall in Hcan. by apply Hcan.
    - rewrite window_missing_spec, Hwr, (latest_window_turn _ _ _ Hw) in Hnin.
      destruct (responded_rows ix turn !! m) as [row|] eqn:Hrow.
      + assert (is_Some (responded_rows ix turn !! m)) as (x & Hx & ?)%responded_rows_some by (rewrite Hrow; by exists row).
        exists x. rewrite Htail. split; [set_solver | done].
      + exfalso. apply Hnin. split; [done|]. intros Hyes. apply responded_rows_some in Hyes as [? ?]. congruence. }
  split; [done|]. split.
  - destruct (window_missing None ix' window) as [|m ms] eqn:E; [done|]. exfalso.
    assert (Hm : m ∈ window_missing None ix' window) by (rewrite E; set_solver).
    apply window_missing_spec in Hm as [Hin Hno]. rewrite Hwr in Hin.
    rewrite (latest_window_turn _ _ _ Hw) in Hno. by apply Hno, Hresp.
  - intros at_ Hacc%window_accepts_iff. rewrite Hw' in Hacc.
    destruct Hacc as [?|[_ [?|(m & Hin & Hno)]]]; [congruence | done | by apply Hno, Hresp].
Qed.

(** A timeout settles its window: when the daemon times a window out and the
    call succeeds, it has appended one
    automatic drop for every member that was missing and nothing else, the
    window of the turn is the same, nobody is missing from it any more, and no
    further answer to it is accepted. *)
Theorem timeout_settles_window name w clock turn now faults w' results d ix window :
  reads w name ix -> 0 < turn <= 2 ^ 53 -> latestResponseWindowForTurn ix turn = Some window ->
  rw_required window <> [] -> is_zero (rw_deadline window) = false ->
  NoDup (rw_required window) -> Forall canonical (rw_required window) ->
  (forall m x, m ∈ window_missing None ix window -> x ∈ ix_events ix -> ev_command_id x <> timeout_command (wd_md w) turn m) ->
  RecordCouncilResponseWindowTimeout name w clock turn now faults = (w', results, Ok d) ->
  exists ix' drops, reads w' name ix' /\ ix_events ix' = ix_events ix ++ drops /\
    Forall2 (dropped_by_daemon turn) (window_missing None ix window) drops /\
    length results = length drops /\
    latestResponseWindowForTurn ix' turn = Some window /\
    window_missing None ix' window = [] /\
    forall at_, validateResponseWindowAccepts ix' turn at_ <> Ok tt.
Proof. apply window_settled. Qed.

(** ** Concrete windows *)

Definition cx_w_ready : world := cx_runs fx_w0 (take 2 cx_discussion).
Definition cx_w_polled : world := cx_runs fx_w0 (take 3 cx_discussion).
Definition cx_w_raised : world := cx_runs fx_w0 (take 4 cx_discussion).
Definition cx_poll : CouncilEventSpec := cx_spec "poll" "mod" "c3" ∅.

Definition cx_window : responseWindowProjection :=
  mk_window "evt_hand_raise_requested_c3" "rw_sess_council_1_evt_hand_raise_requested_c3" 1 fx_later
    (fx_later + 120 * second) 120 ["ann"; "bob"].

(** Bob never answers; a minute after the deadline the daemon drops him. *)
Definition cx_timeout : world * list AppendResult * result error bool :=
  RecordCouncilResponseWindowTimeout "sess_council" cx_w_raised fx_later 1 (fx_later + 180 * second) [].

Example cx_timeout_drops_bob :
  map (fun e => (ev_type e, ev_from e, responseWindowResponseMember e))
    (drop 4 (ix_events (cx_read cx_timeout.1.1))) =
  [("hand_raise", "ann", "ann"); ("hand_raise_dropped", "atn-controld", "bob")].
Proof. vm_compute. reflexivity. Qed.

(** No command id of the log starts with the text. *)
Lemma commands_without_prefix l pre :
  forallb (fun x => negb (has_prefix (ev_command_id x) pre)) l = true ->
  forall x s, x ∈ l -> ev_command_id x <> pre +:+ s.
Proof.
  intros H x s Hx E. rewrite forallb_forall in H. apply list_elem_of_In in Hx. specialize (H x Hx).
  apply negb_true_iff, not_true_iff_false in H. apply H, has_prefix_spec. by exists s.
Qed.

Lemma poll_opens_window_witness :
  exists ix1 e turn, reads cx_w_polled "sess_council" ix1 /\ ix_events ix1 = ix_events (cx_read cx_w_ready) ++ [e] /\
    ev_turn e = Some turn /\
    (turn = nextCouncilTurn (cx_read cx_w_ready) \/ exists p, Some ∅ = Some p /\ turn = anyInt p "turn") /\
    (0 < turn <= 2 ^ 53 ->
     latestResponseWindowForTurn ix1 turn =
       Some (mk_window (ev_event_id e) (responseWindowID "sess_council" turn "evt_hand_raise_requested_c3")
               turn fx_later (fx_later + 120 * second) 120 ["ann"; "bob"])).
Proof.
  apply (poll_opens_window "sess_council" cx_w_ready (cx_read cx_w_ready) fx_later cx_poll cx_w_polled
    (mk_append_result "cur_000000000003_evt_hand_raise_requested_c3" 3 "evt_hand_raise_requested_c3")).
  - apply cx_read_reads. vm_compute. reflexivity.
  - reflexivity.
  - vm_compute. reflexivity.
  - vm_compute. reflexivity.
  - vm_compute. reflexivity.
Defined.

Lemma timeout_settles_window_witness :
  exists ix' drops, reads cx_timeout.1.1 "sess_council" ix' /\ ix_events ix' = ix_events (cx_read cx_w_raised) ++ drops /\
    Forall2 (dropped_by_daemon 1) (window_missing None (cx_read cx_w_raised) cx_window) drops /\
    length cx_timeout.1.2 = length drops /\
    latestResponseWindowForTurn ix' 1 = Some cx_window /\ window_missing None ix' cx_window = [] /\
    forall at_, validateResponseWindowAccepts ix' 1 at_ <> Ok tt.
Proof.
  apply (timeout_settles_window "sess_council" cx_w_raised fx_later 1 (fx_later + 180 * second) []
    cx_timeout.1.1 cx_timeout.1.2 false).
  - apply cx_read_reads. vm_compute. reflexivity.
  - lia.
  - vm_compute. reflexivity.
  - discriminate.
  - reflexivity.
  - repeat (constructor; [set_solver|]). constructor.
  - repeat (constructor; [split; [vm_compute; reflexivity | discriminate]|]). constructor.
  - intros m x _ Hx. apply (commands_without_prefix _ "cmd_response_window_timeout_") with (2 := Hx). vm_compute. reflexivity.
  - vm_compute. reflexivity.
Defined.
