(* ===== verification/Readiness.v ===== *)
(** * Participant runtime readiness (storage/runtime_readiness.go)

    Whether the members of a session may run: each needs a live subscriber, a
    valid and fresh cursor acknowledgement, a fresh heartbeat and, where asked,
    attendance, preparation and the selected runner's prerequisite.  Members
    who miss the attendance or preparation deadline are marked by the daemon. *)

From S2P Require Import Prelude GoValue GoTime Model Ids Evidence Events EventLog Command Delegation Stream Closeout Lifecycle ArgumentGraph SelectedRunner Council.

(** ** Rows *)

Record EvidenceStatus := mk_evidence {
  vs_status : string; vs_event : string; vs_cursor : string; vs_reason : string; vs_recorded : string }.

Definition no_evidence : EvidenceStatus := mk_evidence "" "" "" "" "".
Definition blocking (reason : string) : EvidenceStatus := mk_evidence "blocking" "" "" reason "".
Definition optionalEvidence (status : string) : EvidenceStatus := mk_evidence status "" "" "" "".

(** Evidence of the event [e]. *)
Definition evidence_of (e : EventEnvelope) (status cursor reason : string) : EvidenceStatus :=
  mk_evidence status (ev_event_id e) cursor reason (time_format (ev_created_at e)).

Record ParticipantRuntimeReadinessOptions := mk_options {
  ro_attendance : bool; ro_preparation : bool; ro_selected_runner : bool; ro_selected_member : string;
  ro_evidence : gmap string SelectedRunnerPrerequisite; ro_now : time; ro_freshness_now : time; ro_mode : string;
  ro_reference_id : string; ro_reference_type : string }.

Record ParticipantMemberRuntimeReadiness := mk_member_row {
  mr_member : string; mr_ready : bool; mr_live : bool; mr_class : string; mr_blocking : list string;
  mr_presence : EvidenceStatus; mr_ack : EvidenceStatus; mr_ack_fresh : EvidenceStatus; mr_heartbeat : EvidenceStatus;
  mr_attendance : EvidenceStatus; mr_preparation : EvidenceStatus; mr_prerequisite : option SelectedRunnerPrerequisite }.

Record ParticipantRuntimeReadinessReport := mk_report {
  rr_session : string; rr_ready : bool; rr_live : bool; rr_status : string; rr_generated : string; rr_evaluated : string;
  rr_mode : string; rr_reference_id : string; rr_reference_type : string; rr_required : list string;
  rr_blocking : list string; rr_heartbeat_sec : Z; rr_stale_sec : Z; rr_repoll_sec : Z; rr_attendance : bool;
  rr_preparation : bool; rr_selected_runner : bool; rr_members : list ParticipantMemberRuntimeReadiness;
  rr_attendance_event : string; rr_preparation_event : string }.

(** ** Limits and members *)

Record runtime_limits := mk_runtime_limits {
  rl_heartbeat : Z; rl_stale : Z; rl_repoll : Z; rl_preparation : Z }.

Definition positive_or (value fallback : Z) : Z := if value <=? 0 then fallback else value.

(** The four limits that readiness reads, with their defaults. *)
Definition effectiveRuntimeLimits (md : SessionMetadata) : runtime_limits :=
  let l := md_limits md in
  mk_runtime_limits (positive_or (li_stream_heartbeat_interval_sec l) 30) (positive_or (li_stream_stale_threshold_sec l) 90)
    (positive_or (li_stream_repoll_threshold_sec l) 300) (positive_or (li_preparation_timeout_sec l) 600).

Definition readinessRequiredMembers (md : SessionMetadata) : list string :=
  if md_session_type md == SessionTypeCouncil then councilMembers md
  else sort_strings (List.filter (fun m => m != md_moderator md) (md_participants md)).

(** The events behind the first one with the id, or all of them. *)
Definition eventsAfter (ix : LogIndex) (id : string) : list EventEnvelope :=
  match find_from (fun e => ev_event_id e == id) 0%nat (ix_events ix) with
  | Some (i, _) => drop (S i) (ix_events ix)
  | None => ix_events ix
  end.

(** time.Time.Sub, which saturates. *)
Definition time_sub (a b : time) : Z := Z.max int_min (Z.min int_max (a - b)).

(** The instant is further back than the threshold. *)
Definition older_than (now created : time) (threshold_sec : Z) : bool := wrap64 (threshold_sec * second) <? time_sub now created.

(** ** Stream evidence *)

Record memberStreamEvidence := mk_stream_evidence {
  ms_subscriber : option EventEnvelope; ms_ack : option EventEnvelope }.

Definition no_stream : memberStreamEvidence := mk_stream_evidence None None.

Definition stream_member (e : EventEnvelope) : string := payloadStringDefault (pl e) "member" (ev_from e).

Definition is_subscription (e : EventEnvelope) : bool :=
  mem_str (ev_type e) subscriber_types && negb (is_blank (stream_member e)) &&
  negb (is_blank (payloadStringDefault (pl e) "subscriber_id" "")).

Definition stream_step (rows : gmap string memberStreamEvidence) (e : EventEnvelope) : gmap string memberStreamEvidence :=
  let member := stream_member e in
  let row := default no_stream (rows !! member) in
  if ev_type e == "stream_cursor_acknowledged" then <[member := mk_stream_evidence (ms_subscriber row) (Some e)]> rows
  else if is_subscription e then <[member := mk_stream_evidence (Some e) (ms_ack row)]> rows
  else rows.

Definition streamEvidenceByMember (ix : LogIndex) : gmap string memberStreamEvidence := foldl stream_step ∅ (ix_events ix).

Definition subscriber_status (e : EventEnvelope) : string :=
  payloadStringDefault (pl e) "status" (trim_prefix (ev_type e) "stream_subscriber_").

(** The subscription has ended. *)
Definition subscription_over (e : EventEnvelope) : bool :=
  mem_str (subscriber_status e) ["disconnected"; "stale"] ||
  mem_str (ev_type e) ["stream_subscriber_disconnected"; "stream_subscriber_stale"].

Definition subscriberPresenceStatus (s : memberStreamEvidence) : EvidenceStatus :=
  match ms_subscriber s with
  | None => blocking "missing_subscriber"
  | Some e =>
      if subscription_over e then evidence_of e "blocking" "" ("subscriber_" +:+ subscriber_status e)
      else evidence_of e "ready" "" (subscriber_status e)
  end.

(** The cursor names the event at its offset. *)
Definition cursor_matches (ix : LogIndex) (cursor : string) : bool :=
  match ParseCursor cursor with
  | Err _ => false
  | Ok (offset, id) =>
      (0 <=? offset) && match nth_z (ix_events ix) offset with
                        | Some e => ev_event_id e == id
                        | None => false
                        end
  end.

Definition cursorAckStatus (s : memberStreamEvidence) (ix : LogIndex) : EvidenceStatus :=
  match ms_ack s with
  | None => blocking "missing_cursor_ack"
  | Some e =>
      let cursor := payloadStringDefault (pl e) "cursor" "" in
      if cursor_matches ix cursor then evidence_of e "ready" cursor "cursor_acknowledged"
      else evidence_of e "blocking" cursor "invalid_cursor"
  end.

Definition freshness (e : option EventEnvelope) (now : time) (threshold_sec : Z) (missing stale fresh : string) : EvidenceStatus :=
  match e with
  | None => blocking missing
  | Some e =>
      if older_than now (ev_created_at e) threshold_sec then evidence_of e "blocking" "" stale else evidence_of e "ready" "" fresh
  end.

Definition cursorAckFreshnessStatus (s : memberStreamEvidence) (now : time) (threshold_sec : Z) : EvidenceStatus :=
  freshness (ms_ack s) now threshold_sec "missing_cursor_ack" "stale_cursor_ack" "fresh_cursor_ack".

Definition heartbeatFreshnessStatus (s : memberStreamEvidence) (now : time) (threshold_sec : Z) : EvidenceStatus :=
  freshness (ms_subscriber s) now threshold_sec "missing_subscriber_heartbeat" "stale_heartbeat" "fresh_heartbeat".

(** ** Attendance and preparation *)

Definition named_or_sender (e : EventEnvelope) : string :=
  let member := payloadStringDefault (pl e) "member" "" in if member == "" then ev_from e else member.

(** The member that answered a request for attendance, and how. *)
Definition attendance_answer (md : SessionMetadata) (e : EventEnvelope) : option (string * string) :=
  if (ev_type e == "member_attended") && councilMember md (named_or_sender e) then
    Some (named_or_sender e, payloadStringDefault (pl e) "status" (payloadStringDefault (pl e) "attendance_status" ""))
  else None.

Definition preparation_answer (md : SessionMetadata) (e : EventEnvelope) : option (string * string) :=
  let answer member status := if councilMember md member then Some (member, status) else None in
  if ev_type e == "member_ready" then answer (ev_from e) "ready"
  else if ev_type e == "member_prepared_partial" then answer (named_or_sender e) "partial"
  else None.

(** The last answer of each member among the events. *)
Definition answers_step (answer : EventEnvelope -> option (string * string)) (rows : gmap string EvidenceStatus)
    (e : EventEnvelope) : gmap string EvidenceStatus :=
  match answer e with
  | Some (member, status) => <[member := evidence_of e status "" (payloadStringDefault (pl e) "reason" status)]> rows
  | None => rows
  end.

Definition evidence_after (ix : LogIndex) (request : string) (answer : EventEnvelope -> option (string * string))
    : option EventEnvelope * gmap string EvidenceStatus :=
  match latestEventOfType ix request with
  | None => (None, ∅)
  | Some e => (Some e, foldl (answers_step answer) ∅ (eventsAfter ix (ev_event_id e)))
  end.

Definition attendanceEvidenceByMember (md : SessionMetadata) (ix : LogIndex) : option EventEnvelope * gmap string EvidenceStatus :=
  evidence_after ix "attendance_requested" (attendance_answer md).

Definition preparationEvidenceByMember (md : SessionMetadata) (ix : LogIndex) : option EventEnvelope * gmap string EvidenceStatus :=
  evidence_after ix "preparation_requested" (preparation_answer md).

(** The first value that is not blank. *)
Definition firstNonEmptyStatusReason (values : list string) : string :=
  default "" (find_first (fun v => negb (is_blank v)) values).

Definition with_status (s : EvidenceStatus) (status reason : string) : EvidenceStatus :=
  mk_evidence status (vs_event s) (vs_cursor s) reason (vs_recorded s).

Definition attendanceReadinessStatus (s : EvidenceStatus) : EvidenceStatus :=
  let a t := vs_status s == t in
  if a "" then blocking "missing_attendance"
  else if a "present" then with_status s "ready" (firstNonEmptyStatusReason [vs_reason s; "present"])
  else if a "partial" then with_status s "partial_success" (firstNonEmptyStatusReason [vs_reason s; "partial_attendance"])
  else if a "unavailable" then with_status s "blocking" (firstNonEmptyStatusReason [vs_reason s; "attendance_unavailable"])
  else if a "no_response_timeout" then with_status s "failure" "attendance_no_response_timeout"
  else mk_evidence "blocking" (vs_event s) "" "invalid_attendance_status" (vs_recorded s).

Definition preparationReadinessStatus (s : EvidenceStatus) : EvidenceStatus :=
  let a t := vs_status s == t in
  if a "" then blocking "missing_preparation"
  else if a "ready" then with_status s "ready" (firstNonEmptyStatusReason [vs_reason s; "ready"])
  else if a "partial" then
    if vs_reason s == "timeout" then with_status s "failure" "preparation_timeout"
    else with_status s "partial_success" (firstNonEmptyStatusReason [vs_reason s; "partial_preparation"])
  else mk_evidence "blocking" (vs_event s) "" "invalid_preparation_status" (vs_recorded s).

(** ** Blockers *)

Definition evidence_blockers (category : string) (s : EvidenceStatus) : list string :=
  if mem_str (vs_status s) ["ready"; "not_required"] then []
  else if mem_str (vs_status s) ["partial_success"; "failure"; "blocking"] then [category +:+ ":" +:+ vs_reason s]
  else if vs_status s != "" then [category +:+ ":" +:+ vs_status s]
  else [category +:+ ":missing"].

Definition prerequisite_blockers (p : SelectedRunnerPrerequisite) : list string :=
  if pq_ready p then []
  else match pq_blocking p with
       | [] => ["selected_runner_prerequisite:" +:+ pq_status p]
       | reasons => map (fun r => "selected_runner_prerequisite:" +:+ r) (List.filter (fun r => negb (is_blank r)) reasons)
       end.

(** The class of the first reason that has one. *)
Fixpoint readinessClass (reasons : list string) : string :=
  match reasons with
  | [] => "blocking"
  | r :: rest =>
      if contains r "timeout" || contains r "failure" || contains r "unavailable" then "failure"
      else if contains r "partial" then "partial_success"
      else readinessClass rest
  end.

(** ** The report *)

Definition missing_prerequisite : SelectedRunnerPrerequisite :=
  mk_prerequisite false "missing_selected_runner_prerequisite" ["missing_selected_runner_prerequisite"] [].

Definition no_prerequisite : SelectedRunnerPrerequisite := mk_prerequisite false "" [] [].

Definition prerequisite_of (opts : ParticipantRuntimeReadinessOptions) (member : string) : option SelectedRunnerPrerequisite :=
  if ro_selected_runner opts && (member == trim_space (ro_selected_member opts)) then
    let p := default no_prerequisite (ro_evidence opts !! member) in
    Some (if pq_status p == "" then missing_prerequisite else p)
  else None.

Definition member_row (limits : runtime_limits) (ix : LogIndex) (fresh_now : time) (opts : ParticipantRuntimeReadinessOptions)
    (stream : memberStreamEvidence) (attendance preparation : EvidenceStatus) (member : string) : ParticipantMemberRuntimeReadiness :=
  let presence := subscriberPresenceStatus stream in
  let ack := cursorAckStatus stream ix in
  let ack_fresh := cursorAckFreshnessStatus stream fresh_now (rl_repoll limits) in
  let heartbeat := heartbeatFreshnessStatus stream fresh_now (rl_stale limits) in
  let attended := if ro_attendance opts then attendanceReadinessStatus attendance else optionalEvidence "not_required" in
  let prepared := if ro_preparation opts then preparationReadinessStatus preparation else optionalEvidence "not_required" in
  let prerequisite := prerequisite_of opts member in
  let reasons := uniqueSorted
    (evidence_blockers "subscriber_presence" presence ++ evidence_blockers "cursor_ack" ack ++
     evidence_blockers "cursor_ack_freshness" ack_fresh ++ evidence_blockers "heartbeat_freshness" heartbeat ++
     evidence_blockers "attendance" attended ++ evidence_blockers "preparation" prepared ++
     match prerequisite with Some p => prerequisite_blockers p | None => [] end) in
  let ready := negb (nonempty reasons) in
  mk_member_row member ready ready (if ready then "success" else readinessClass reasons) reasons presence ack ack_fresh
    heartbeat attended prepared prerequisite.

(** [clock] is time.Now, read when the options have no instant. *)
Definition ParticipantRuntimeReadinessFromIndex (clock : time) (md : SessionMetadata) (ix : LogIndex)
    (opts : ParticipantRuntimeReadinessOptions) : ParticipantRuntimeReadinessReport :=
  let now := if is_zero (ro_now opts) then clock else ro_now opts in
  let fresh_now := if is_zero (ro_freshness_now opts) then now else ro_freshness_now opts in
  let mode := if is_blank (ro_mode opts) then "current" else trim_space (ro_mode opts) in
  let limits := effectiveRuntimeLimits md in
  let required := readinessRequiredMembers md in
  let streams := streamEvidenceByMember ix in
  let (attendanceEvent, attendance) := attendanceEvidenceByMember md ix in
  let (preparationEvent, preparation) := preparationEvidenceByMember md ix in
  let rows := map (fun m => member_row limits ix fresh_now opts (default no_stream (streams !! m))
                     (default no_evidence (attendance !! m)) (default no_evidence (preparation !! m)) m) required in
  let reasons := uniqueSorted (concat (map (fun r => map (fun reason => mr_member r +:+ ":" +:+ reason) (mr_blocking r)) rows)) in
  let ready := forallb mr_ready rows in
  mk_report (md_id md) ready ready (if nonempty reasons then "blocked" else "ready") (time_format now) (time_format fresh_now)
    mode (trim_space (ro_reference_id opts)) (trim_space (ro_reference_type opts)) required reasons (rl_heartbeat limits)
    (rl_stale limits) (rl_repoll limits) (ro_attendance opts) (ro_preparation opts) (ro_selected_runner opts) rows
    (match attendanceEvent with Some e => ev_event_id e | None => "" end)
    (match preparationEvent with Some e => ev_event_id e | None => "" end).

Definition ParticipantRuntimeReadinessFromLog (clock : time) (sd : session_dir) (md : SessionMetadata)
    (opts : ParticipantRuntimeReadinessOptions) : result error ParticipantRuntimeReadinessReport :=
  try ix := ReadLogIndex sd md in Ok (ParticipantRuntimeReadinessFromIndex clock md ix opts).

Definition ParticipantReadinessError (report : ParticipantRuntimeReadinessReport) (path : string) : result error unit :=
  ensure rr_ready report or
    NewValidationError CategoryCommandConflict path ("participant runtime readiness blocked: " +:+ join "," (rr_blocking report));;
  Ok tt.

(** ** The options of a status view (stream.go) *)

Definition reference_types : list string :=
  ["stream_cursor_acknowledged"; "stream_subscriber_heartbeat"; "stream_subscriber_connected"; "member_ready";
   "member_prepared_partial"; "member_attended"; "preparation_requested"; "attendance_requested"].

(** The event at whose instant a finished session is judged. *)
Definition terminalRuntimeReadinessReference (md : SessionMetadata) (ix : LogIndex) : option EventEnvelope :=
  if (md_status md == StatusTerminal) || (statusFromPhase (st_phase (md_state md)) == StatusTerminal) then
    match latestEventOfType ix "speaker_selected" with
    | Some e => Some e
    | None => find_last (fun e => mem_str (ev_type e) reference_types) (ix_events ix)
    end
  else None.

Definition has_event (ix : LogIndex) (ty : string) : bool := bool_decide (is_Some (latestEventOfType ix ty)).

Definition selected_target (e : EventEnvelope) : string :=
  let member := payloadStringDefault (pl e) "member" "" in
  match ev_to e with
  | [to] => if member == "" then to else member
  | _ => member
  end.

Definition readinessOptionsForStatus (md : SessionMetadata) (ix : LogIndex) (now : time) (a : SelectedRunnerAccounting)
    : ParticipantRuntimeReadinessOptions :=
  if md_session_type md != SessionTypeCouncil then mk_options false false false "" ∅ now zero_time "" "" ""
  else
    let reference := terminalRuntimeReadinessReference md ix in
    let '(fresh_now, mode, id, ty) :=
      match reference with
      | Some e => (ev_created_at e, "terminal_event_time", ev_event_id e, ev_type e)
      | None => (zero_time, "", "", "")
      end in
    let attendance := has_event ix "attendance_requested" in
    let preparation := has_event ix "preparation_requested" in
    match latestEventOfType ix "speaker_selected" with
    | None => mk_options attendance preparation false "" ∅ now fresh_now mode id ty
    | Some e =>
        mk_options attendance preparation true (selected_target e)
          {[ selected_target e := selectedRunnerEvidenceFromAccounting a (ev_event_id e) ]} now fresh_now mode id ty
    end.

(** ** Timeouts *)

Definition timeoutSec (p : payload) (fallback : Z) : Z :=
  let value := positivePayloadInt p "timeout_sec" in
  if 0 <? value then value else if 0 <? fallback then fallback else 600.

Definition terminalAttendanceAfter (md : SessionMetadata) (ix : LogIndex) (id : string) : list string :=
  omap (fun e => if (ev_type e == "member_attended") && councilMember md (named_or_sender e) &&
                    allowedString (payloadStringDefault (pl e) "status" "") attendance_statuses
                 then Some (named_or_sender e) else None) (eventsAfter ix id).

Definition terminalPreparationAfter (md : SessionMetadata) (ix : LogIndex) (id : string) : list string :=
  omap (fun e => fst <$> preparation_answer md e) (eventsAfter ix id).

Definition attendance_timeout_spec (request : string) (now : time) (member : string) : CouncilEventSpec :=
  mk_council_spec "attend" daemonPrincipal ("cmd_attendance_timeout_" +:+ request +:+ "_" +:+ member) request
    (Some {[ "member" := AStr member; "status" := AStr "no_response_timeout";
             "summary" := AStr "attendance timeout expired without participant response"; "reason" := AStr "timeout";
             "timeout_source_event_id" := AStr request ]}) now.

Definition preparation_timeout_spec (request : string) (now : time) (member : string) : CouncilEventSpec :=
  mk_council_spec "prepared-partial" daemonPrincipal ("cmd_preparation_timeout_" +:+ request +:+ "_" +:+ member) request
    (Some {[ "member" := AStr member; "reason" := AStr "timeout";
             "summary" := AStr "preparation timeout expired without participant response";
             "timeout_source_event_id" := AStr request ]}) now.

(** The commands in order, up to the first that fails; [faults] are those of the
    successive appends. *)
Fixpoint record_all (name : string) (w : world) (clock : time) (specs : list CouncilEventSpec)
    (faults : list (option append_fault)) (results : list AppendResult) : world * list AppendResult * result error unit :=
  match specs with
  | [] => (w, results, Ok tt)
  | spec :: rest =>
      match run_command name w clock spec (default None (head faults)) with
      | (w', Err err) => (w', results, Err err)
      | (w', Ok (a, _)) => record_all name w' clock rest (tail faults) (results ++ [a])
      end
  end.

Definition live_council (md : SessionMetadata) : bool :=
  (md_session_type md == SessionTypeCouncil) &&
  match md_surface md with
  | Some s => su_kind s == "discord_thread"
  | None => false
  end.

(** Both timeouts: nothing before the deadline of the latest request, then the
    command of every council member that [terminal] does not list. *)
Definition apply_timeouts (request : string) (terminal : SessionMetadata -> LogIndex -> string -> list string)
    (spec : string -> time -> string -> CouncilEventSpec) (name : string) (w : world) (clock now : time)
    (faults : list (option append_fault)) : world * list AppendResult * result error unit :=
  let md := wd_md w in
  if negb (live_council md) then (w, [], Ok tt)
  else
    match read_session w name with
    | Err err => (w, [], Err err)
    | Ok ix =>
        match latestEventOfType ix request with
        | None => (w, [], Ok tt)
        | Some e =>
            let deadline := add_seconds (ev_created_at e) (timeoutSec (pl e) (rl_preparation (effectiveRuntimeLimits md))) in
            if now <? deadline then (w, [], Ok tt)
            else
              let late := List.filter (fun m => negb (mem_str m (terminal md ix (ev_event_id e)))) (councilMembers md) in
              record_all name w clock (map (spec (ev_event_id e) now) late) faults []
        end
    end.

Definition ApplyAttendanceTimeouts : string -> world -> time -> time -> list (option append_fault) ->
    world * list AppendResult * result error unit :=
  apply_timeouts "attendance_requested" terminalAttendanceAfter attendance_timeout_spec.

Definition ApplyPreparationTimeouts : string -> world -> time -> time -> list (option append_fault) ->
    world * list AppendResult * result error unit :=
  apply_timeouts "preparation_requested" terminalPreparationAfter preparation_timeout_spec.

#[global] Arguments member_row : simpl never.
#[global] Arguments evidence_blockers : simpl never.
#[global] Arguments prerequisite_blockers : simpl never.
