(* ===== verification/ReadinessTheory.v ===== *)
(** * Correctness of runtime readiness *)

From S2P Require Import Prelude GoValue GoTime Model Ids Evidence Events EventLog LogSpec Command Delegation Fixtures Closeout Lifecycle ArgumentGraph SelectedRunner SelectedRunnerTheory Council CouncilTheory CouncilWindow Readiness.

(** ** Who is ready *)

Definition subscriber_event (m : string) (e : EventEnvelope) : bool :=
  negb (ev_type e == "stream_cursor_acknowledged") && is_subscription e && (stream_member e == m).

Definition ack_event (m : string) (e : EventEnvelope) : bool :=
  (ev_type e == "stream_cursor_acknowledged") && (stream_member e == m).

Definition answered (answer : EventEnvelope -> option (string * string)) (m : string) (e : EventEnvelope) : bool :=
  match answer e with
  | Some (member, _) => member == m
  | None => false
  end.

(** The last answer of the member to the latest request of the type is [status]. *)
Definition answer_is (ix : LogIndex) (request : string) (answer : EventEnvelope -> option (string * string))
    (m status : string) : Prop :=
  exists req e, latestEventOfType ix request = Some req /\
    find_last (answered answer m) (eventsAfter ix (ev_event_id req)) = Some e /\ answer e = Some (m, status).

(** A prerequisite that blocks nothing: it is met, or lists blank reasons only. *)
Definition prerequisite_met (p : SelectedRunnerPrerequisite) : Prop :=
  pq_ready p = true \/ (pq_blocking p <> [] /\ forall r, r ∈ pq_blocking p -> is_blank r = true).

Record member_ready (md : SessionMetadata) (ix : LogIndex) (now : time) (opts : ParticipantRuntimeReadinessOptions)
    (m : string) : Prop := mk_member_ready {
  md_subscriber : exists e, find_last (subscriber_event m) (ix_events ix) = Some e /\ subscription_over e = false /\
    older_than now (ev_created_at e) (rl_stale (effectiveRuntimeLimits md)) = false;
  md_ack : exists e, find_last (ack_event m) (ix_events ix) = Some e /\
    cursor_matches ix (payloadStringDefault (pl e) "cursor" "") = true /\
    older_than now (ev_created_at e) (rl_repoll (effectiveRuntimeLimits md)) = false;
  md_attended : ro_attendance opts = true -> answer_is ix "attendance_requested" (attendance_answer md) m "present";
  md_prepared : ro_preparation opts = true -> answer_is ix "preparation_requested" (preparation_answer md) m "ready";
  md_runner : forall p, prerequisite_of opts m = Some p -> prerequisite_met p }.

(** ** The evidence of a member is that of its last events *)

Lemma stream_rows l m :
  default no_stream (foldl stream_step ∅ l !! m) =
  mk_stream_evidence (find_last (subscriber_event m) l) (find_last (ack_event m) l).
Proof.
  induction l as [|e l IH] using rev_ind; [done|]. rewrite foldl_snoc, !find_last_app. unfold stream_step at 1, subscriber_event at 1, ack_event at 1.
  cbv zeta. destruct (ev_type e == "stream_cursor_acknowledged"); cbn [negb andb].
  - destruct (String.eqb_spec (stream_member e) m) as [->|Hne]; [by rewrite lookup_insert_eq, IH|].
    by rewrite lookup_insert_ne.
  - destruct (is_subscription e); cbn [andb]; [|done].
    destruct (String.eqb_spec (stream_member e) m) as [->|Hne]; [by rewrite lookup_insert_eq, IH|].
    by rewrite lookup_insert_ne.
Qed.

Lemma answer_rows answer l m :
  foldl (answers_step answer) ∅ l !! m =
  match find_last (answered answer m) l with
  | Some e => match answer e with
              | Some (_, status) => Some (evidence_of e status "" (payloadStringDefault (pl e) "reason" status))
              | None => None
              end
  | None => None
  end.
Proof.
  induction l as [|e l IH] using rev_ind; [done|]. rewrite foldl_snoc, find_last_app.
  unfold answers_step at 1. unfold answered at 1. destruct (answer e) as [[member status]|] eqn:Ha; [|done].
  destruct (String.eqb_spec member m) as [->|Hne]; [by rewrite lookup_insert_eq, Ha|]. by rewrite lookup_insert_ne.
Qed.

(** ** Blockers *)

Lemma blockers_nil category s :
  evidence_blockers category s = [] <-> vs_status s = "ready" \/ vs_status s = "not_required".
Proof.
  unfold evidence_blockers. destruct (mem_str (vs_status s) ["ready"; "not_required"]) eqn:H.
  - split; [|done]. intros _. apply mem_str_spec in H. set_solver.
  - split; [by destruct (mem_str (vs_status s) ["partial_success"; "failure"; "blocking"]); [|destruct (vs_status s != "")]|]. intros Hs. apply not_true_iff_false in H. destruct H.
    apply mem_str_spec. set_solver.
Qed.

Lemma presence_nil s :
  evidence_blockers "subscriber_presence" (subscriberPresenceStatus s) = [] <->
  exists e, ms_subscriber s = Some e /\ subscription_over e = false.
Proof.
  rewrite blockers_nil. unfold subscriberPresenceStatus. destruct (ms_subscriber s) as [e|]; [|by split; [intros [?|?] | intros (? & ? & _)]].
  destruct (subscription_over e) eqn:H; cbn; split; intros Hx.
  - by destruct Hx.
  - destruct Hx as (? & [= <-] & ?). congruence.
  - by exists e.
  - by left.
Qed.

Lemma ack_nil s ix :
  evidence_blockers "cursor_ack" (cursorAckStatus s ix) = [] <->
  exists e, ms_ack s = Some e /\ cursor_matches ix (payloadStringDefault (pl e) "cursor" "") = true.
Proof.
  rewrite blockers_nil. unfold cursorAckStatus. destruct (ms_ack s) as [e|]; [|by split; [intros [?|?] | intros (? & ? & _)]].
  cbv zeta. destruct (cursor_matches ix _) eqn:H; cbn; split; intros Hx; [by exists e | by left | by destruct Hx |].
  destruct Hx as (? & [= <-] & ?). congruence.
Qed.

Lemma fresh_nil category e now threshold missing stale fresh :
  evidence_blockers category (freshness e now threshold missing stale fresh) = [] <->
  exists x, e = Some x /\ older_than now (ev_created_at x) threshold = false.
Proof.
  rewrite blockers_nil. unfold freshness. destruct e as [e|]; [|by split; [intros [?|?] | intros (? & ? & _)]].
  destruct (older_than _ _ _) eqn:H; cbn; split; intros Hx; [by destruct Hx | | by exists e | by left].
  destruct Hx as (? & [= <-] & ?). congruence.
Qed.

Lemma attendance_status_nil category s :
  evidence_blockers category (attendanceReadinessStatus s) = [] <-> vs_status s = "present".
Proof.
  rewrite blockers_nil. unfold attendanceReadinessStatus. cbv zeta.
  repeat match goal with |- context [if ?a == ?b then _ else _] => destruct (String.eqb_spec a b) as [->|?] end;
    cbn; split; try done; try tauto; try (intros [?|?]; done).
Qed.

Lemma preparation_status_nil category s :
  evidence_blockers category (preparationReadinessStatus s) = [] <-> vs_status s = "ready".
Proof.
  rewrite blockers_nil. unfold preparationReadinessStatus. cbv zeta.
  repeat match goal with |- context [if ?a == ?b then _ else _] => destruct (String.eqb_spec a b) as [->|?] end;
    cbn; split; try done; try tauto; try (intros [?|?]; done).
  destruct (vs_reason s == "timeout"); cbn; intros [?|?]; done.
Qed.

Lemma prerequisite_nil p : prerequisite_blockers p = [] <-> prerequisite_met p.
Proof.
  unfold prerequisite_blockers, prerequisite_met. destruct (pq_ready p); [split; auto|].
  destruct (pq_blocking p) as [|r rs]; [split; [done | by intros [?|[? _]]]|]. split.
  - intros H. right. split; [done|]. apply map_eq_nil in H. intros x Hx. apply list_elem_of_In in Hx.
    destruct (is_blank x) eqn:E; [done|]. exfalso.
    assert (In x (List.filter (fun r => negb (is_blank r)) (r :: rs))) by (apply filter_In; by rewrite E).
    by rewrite H in *.
  - intros [?|[_ H]]; [done|]. destruct (List.filter _ _) as [|y ys] eqn:E; [done|]. exfalso.
    assert (Hy : In y (List.filter (fun r => negb (is_blank r)) (r :: rs))) by (rewrite E; by left).
    apply filter_In in Hy as [Hy Hb]. rewrite H in Hb by (by apply list_elem_of_In). done.
Qed.

(** ** No reason is lost in the sorted lists *)

Lemma in_unique values x :
  x ∈ uniqueSorted values <-> exists v, v ∈ values /\ x = trim_space v /\ x <> "".
Proof.
  unfold uniqueSorted. rewrite elem_of_sort_strings.
  assert (H : forall acc, x ∈ foldl appendUniqueString acc values <->
                x ∈ acc \/ exists v, v ∈ values /\ x = trim_space v /\ x <> "").
  { induction values as [|v values IH]; intros acc; cbn.
    - split; [by left|]. intros [?|(v & Hv & _)]; [done|by apply elem_of_nil in Hv].
    - rewrite IH, in_append_unique. setoid_rewrite elem_of_cons. naive_solver. }
  rewrite H. split; [|by right]. intros [Hx|?]; [by apply elem_of_nil in Hx | done].
Qed.

Definition is_colon (a : Ascii.ascii) : bool := is_byte 58 a.
Definition with_colon (s : string) : Prop := any_char is_colon s = true.

Lemma trim_colon s : with_colon s -> with_colon (trim_space s) /\ trim_space s <> "".
Proof.
  intros H. assert (Ht : any_char is_colon (trim_space s) = any_char is_colon s)
    by (apply trim_space_keeps; repeat (constructor; [done|]); constructor).
  split; [by unfold with_colon; rewrite Ht|]. intros E. rewrite E in Ht. unfold with_colon in H. by rewrite H in Ht.
Qed.

Lemma colon_mid a b : with_colon (a +:+ ":" +:+ b).
Proof. unfold with_colon. rewrite any_char_app. cbn. apply orb_true_r. Qed.

Lemma unique_colon_nil values : (forall v, v ∈ values -> with_colon v) -> (uniqueSorted values = [] <-> values = []).
Proof.
  intros Hc. split; [|by intros ->]. intros H. destruct values as [|v values]; [done|]. exfalso.
  assert (Hv : trim_space v ∈ uniqueSorted (v :: values)).
  { apply in_unique. exists v. split; [set_solver|]. split; [done|]. apply trim_colon, Hc. set_solver. }
  rewrite H in Hv. by apply elem_of_nil in Hv.
Qed.

Lemma evidence_colon category s v : v ∈ evidence_blockers category s -> with_colon v.
Proof.
  unfold evidence_blockers. destruct (mem_str _ _); [by intros ?%elem_of_nil|].
  destruct (mem_str _ _); [|destruct (_ != "")]; intros ->%list_elem_of_singleton; apply colon_mid || apply (colon_mid category "missing").
Qed.

Lemma prerequisite_colon p v : v ∈ prerequisite_blockers p -> with_colon v.
Proof.
  unfold prerequisite_blockers. destruct (pq_ready p); [by intros ?%elem_of_nil|].
  destruct (pq_blocking p); [intros ->%list_elem_of_singleton | intros (r & -> & _)%list_elem_of_fmap];
    apply (colon_mid "selected_runner_prerequisite").
Qed.

(** ** One member *)

Lemma app_nil_iff {A} (a b : list A) : a ++ b = [] <-> a = [] /\ b = [].
Proof. split; [apply app_nil | by intros [-> ->]]. Qed.

Lemma nonempty_nil {A} (l : list A) : negb (nonempty l) = true <-> l = [].
Proof. by destruct l. Qed.

Lemma evidence_after_row ix request answer m :
  vs_status (default no_evidence ((evidence_after ix request answer).2 !! m)) <> "" ->
  exists req e status, latestEventOfType ix request = Some req /\
    find_last (answered answer m) (eventsAfter ix (ev_event_id req)) = Some e /\ answer e = Some (m, status) /\
    vs_status (default no_evidence ((evidence_after ix request answer).2 !! m)) = status.
Proof.
  unfold evidence_after. destruct (latestEventOfType ix request) as [req|]; cbn; [|by rewrite lookup_empty].
  rewrite answer_rows. destruct (find_last _ _) as [e|] eqn:Hf; [|done].
  pose proof (find_last_Some _ _ _ Hf) as [_ Ha]. unfold answered in Ha.
  destruct (answer e) as [[member status]|] eqn:Hae; [|done]. apply String.eqb_eq in Ha as ->. intros _.
  exists req, e, status. done.
Qed.

Lemma answer_is_iff ix request answer m status :
  status <> "" ->
  (vs_status (default no_evidence ((evidence_after ix request answer).2 !! m)) = status <-> answer_is ix request answer m status).
Proof.
  intros Hne. split.
  - intros H. destruct (evidence_after_row ix request answer m) as (req & e & st & ? & ? & ? & Hst); [by rewrite H|].
    rewrite H in Hst. subst st. by exists req, e.
  - intros (req & e & Hr & Hf & Ha). unfold evidence_after. rewrite Hr. cbn. by rewrite answer_rows, Hf, Ha.
Qed.

Lemma member_row_ready md ix now opts m :
  mr_ready (member_row (effectiveRuntimeLimits md) ix now opts (default no_stream (streamEvidenceByMember ix !! m))
    (default no_evidence ((attendanceEvidenceByMember md ix).2 !! m))
    (default no_evidence ((preparationEvidenceByMember md ix).2 !! m)) m) = true <-> member_ready md ix now opts m.
Proof.
  unfold member_row. cbv zeta. cbn [mr_ready]. rewrite nonempty_nil, unique_colon_nil.
  2: { intros v. rewrite !elem_of_app. intros [H|[H|[H|[H|[H|[H|H]]]]]]; try by apply evidence_colon in H.
       destruct (prerequisite_of opts m); [by apply prerequisite_colon in H | by apply elem_of_nil in H]. }
  unfold streamEvidenceByMember. rewrite stream_rows.
  rewrite !app_nil_iff, presence_nil, ack_nil. unfold cursorAckFreshnessStatus, heartbeatFreshnessStatus.
  rewrite !fresh_nil. cbn [ms_subscriber ms_ack].
  assert (Ha : evidence_blockers "attendance" (if ro_attendance opts then
      attendanceReadinessStatus (default no_evidence ((attendanceEvidenceByMember md ix).2 !! m)) else optionalEvidence "not_required") = []
      <-> (ro_attendance opts = true -> answer_is ix "attendance_requested" (attendance_answer md) m "present")).
  { destruct (ro_attendance opts); [|rewrite blockers_nil; cbn; split; [done|by right]].
    rewrite attendance_status_nil. unfold attendanceEvidenceByMember. rewrite answer_is_iff by done. tauto. }
  assert (Hp : evidence_blockers "preparation" (if ro_preparation opts then
      preparationReadinessStatus (default no_evidence ((preparationEvidenceByMember md ix).2 !! m)) else optionalEvidence "not_required") = []
      <-> (ro_preparation opts = true -> answer_is ix "preparation_requested" (preparation_answer md) m "ready")).
  { destruct (ro_preparation opts); [|rewrite blockers_nil; cbn; split; [done|by right]].
    rewrite preparation_status_nil. unfold preparationEvidenceByMember. rewrite answer_is_iff by done. tauto. }
  rewrite Ha, Hp.
  assert (Hr : match prerequisite_of opts m with Some p => prerequisite_blockers p | None => [] end = [] <->
                 (forall p, prerequisite_of opts m = Some p -> prerequisite_met p)).
  { destruct (prerequisite_of opts m) as [p|]; [|done]. rewrite prerequisite_nil. split; [by intros ? ? [= <-]|eauto]. }
  rewrite Hr. split.
  - intros ((e1 & He1 & ?) & (e2 & He2 & ?) & (e3 & He3 & ?) & (e4 & He4 & ?) & ? & ? & ?).
    rewrite He1 in He4. rewrite He2 in He3. injection He4 as <-. injection He3 as <-. split; eauto.
  - intros [(e1 & ? & ? & ?) (e2 & ? & ? & ?) ? ? ?]. repeat split; eauto.
Qed.

(** ** The report *)

(** The instant at which freshness is judged. *)
Definition fresh_instant (clock : time) (opts : ParticipantRuntimeReadinessOptions) : time :=
  if is_zero (ro_freshness_now opts) then if is_zero (ro_now opts) then clock else ro_now opts else ro_freshness_now opts.

Lemma report_rows clock md ix opts :
  let r := ParticipantRuntimeReadinessFromIndex clock md ix opts in
  map mr_member (rr_members r) = readinessRequiredMembers md /\
  (rr_ready r = true <-> forall m, m ∈ readinessRequiredMembers md -> member_ready md ix (fresh_instant clock opts) opts m) /\
  rr_live r = rr_ready r /\ (rr_blocking r = [] <-> rr_ready r = true) /\ (rr_status r = "ready" <-> rr_ready r = true).
Proof.
  unfold ParticipantRuntimeReadinessFromIndex. cbv zeta. fold (fresh_instant clock opts).
  pose proof (fun m => member_row_ready md ix (fresh_instant clock opts) opts m) as Hrow.
  destruct (attendanceEvidenceByMember md ix) as [ae attendance]. destruct (preparationEvidenceByMember md ix) as [pe preparation].
  cbn [snd] in Hrow. cbn [rr_members rr_ready rr_live rr_blocking rr_status].
  set (row := fun m => member_row (effectiveRuntimeLimits md) ix (fresh_instant clock opts) opts
    (default no_stream (streamEvidenceByMember ix !! m)) (default no_evidence (attendance !! m))
    (default no_evidence (preparation !! m)) m) in *.
  change (forall m, mr_ready (row m) = true <-> member_ready md ix (fresh_instant clock opts) opts m) in Hrow.
  assert (Hblk : forall m, mr_ready (row m) = true <-> mr_blocking (row m) = []) by (intros m; apply nonempty_nil).
  set (rows := map row (readinessRequiredMembers md)).
  assert (Hb : uniqueSorted (concat (map (fun r => map (fun reason => mr_member r +:+ ":" +:+ reason) (mr_blocking r)) rows)) = []
               <-> forallb mr_ready rows = true).
  { rewrite unique_colon_nil.
    2: { intros v Hv. apply list_elem_of_In, in_concat in Hv as (l & (r & <- & _)%in_map_iff & (x & <- & _)%in_map_iff). apply colon_mid. }
    rewrite forallb_forall. split.
    - intros H r Hr. assert (Hnil : map (fun reason => mr_member r +:+ ":" +:+ reason) (mr_blocking r) = []).
      { eapply concat_nil_Forall in H. rewrite Forall_forall in H. apply H. apply list_elem_of_In, in_map_iff. by exists r. }
      apply map_eq_nil in Hnil. apply in_map_iff in Hr as (m & <- & _). by apply Hblk.
    - intros H. apply concat_nil_Forall, Forall_forall. intros l (r & -> & Hr)%list_elem_of_fmap.
      apply list_elem_of_In in Hr. specialize (H r Hr). apply in_map_iff in Hr as (m & <- & _).
      apply Hblk in H. by rewrite H. }
  split; [|split; [|split; [done|split; [done|]]]].
  - unfold rows. rewrite map_map. apply map_id.
  - rewrite forallb_forall. split.
    + intros H m Hm. apply Hrow, H. apply in_map. by apply list_elem_of_In.
    + intros H r (m & <- & Hm)%in_map_iff. apply Hrow, H. by apply list_elem_of_In.
  - rewrite <- Hb. by destruct (uniqueSorted _).
Qed.

(** C33. A readiness report is ready exactly when every required member is: its
    last subscription is live and recent, its last acknowledgement names an
    event of the log and is recent, its last answers to the latest attendance
    and preparation requests are [present] and [ready] where those are asked
    for, and the selected member's runner prerequisite is met; the report has one
    row per required member, and its flags, status and reasons all agree. *)
Theorem readiness_report_spec clock md ix opts :
  let r := ParticipantRuntimeReadinessFromIndex clock md ix opts in
  map mr_member (rr_members r) = readinessRequiredMembers md /\
  (rr_ready r = true <-> forall m, m ∈ readinessRequiredMembers md -> member_ready md ix (fresh_instant clock opts) opts m) /\
  rr_live r = rr_ready r /\ (rr_blocking r = [] <-> rr_ready r = true) /\ (rr_status r = "ready" <-> rr_ready r = true).
Proof. apply report_rows. Qed.

(** ** The status view: readiness of the selected runner *)

Definition coded (o : option (string * string)) : Prop :=
  match o with
  | Some p => is_blank p.1 = false
  | None => True
  end.

Lemma first_problem_coded l : Forall coded l -> coded (first_problem l).
Proof. induction 1 as [|[p|] l H _ IH]; done. Qed.

Lemma problem_when_coded b code message : is_blank code = false -> coded (problem_when b code message).
Proof. by destruct b. Qed.

Lemma must_repeat_coded expected observed absent differs :
  is_blank absent.1 = false -> is_blank differs.1 = false -> coded (must_repeat expected observed absent differs).
Proof. intros. unfold must_repeat. cbv zeta. by repeat (match goal with |- context [if ?b then _ else _] => destruct b end). Qed.

Lemma delivery_coded s member e : coded (delivery_problem s member e).
Proof.
  unfold delivery_problem. destruct (anyMap _ _) as [ev|]; [|done]. cbv zeta. apply first_problem_coded.
  repeat constructor; (apply problem_when_coded || apply must_repeat_coded); done.
Qed.

Lemma verdict_status md linked g :
  ga_pass (grant_verdict md linked g).1 = false -> is_blank (ga_status (grant_verdict md linked g).1) = false.
Proof.
  unfold grant_verdict. cbv zeta.
  destruct (_ || _); [done|]. destruct (ga_turn g <=? 0); [done|]. destruct (ga_started g); cbn [negb]; [|done].
  destruct (ga_succeeded g); [done|]. destruct (ga_speeches g) as [|id rest] eqn:Hs; [done|]. cbn [nonempty negb].
  destruct (requiresSelectedRunnerDeliveryProof md) eqn:Hr; [|done].
  unfold selectedRunnerDeliveryDiagnostic. rewrite Hr. clear Hs Hr.
  destruct (delivery_of md g linked _) as [|d] eqn:Hd; [done|]. intros _. cbn.
  revert Hd. generalize (ga_speeches g). intros speeches. induction speeches as [|x speeches IH]; cbn; [by intros [= <-]|].
  destruct (linked !! x) as [e|]; [|done]. unfold selectedRunnerSpeechDeliveryDiagnostic. cbv zeta.
  pose proof (delivery_coded (default no_surface (md_surface md)) (ga_member g) e) as Hc.
  destruct (delivery_problem _ _ _) as [p|]; [|done]. by intros [= <-].
Qed.

Lemma prerequisite_of_accounting md ix id :
  let p := selectedRunnerEvidenceFromAccounting (SelectedRunnerAccountingFromIndex md ix) id in
  pq_status p <> "" /\ (prerequisite_met p <-> pq_ready p = true).
Proof.
  cbv zeta. unfold selectedRunnerEvidenceFromAccounting, prerequisite_met.
  destruct (find_first _ _) as [g|] eqn:Hf; cbn.
  2: { split; [done|]. split; [|by left]. intros [?|[_ H]]; [done|]. specialize (H "missing_selected_runner_prerequisite" ltac:(set_solver)). done. }
  apply find_some in Hf as [Hin _]. unfold SelectedRunnerAccountingFromIndex in Hin. cbn in Hin.
  apply in_map_iff in Hin as (v & <- & Hv). apply in_map_iff in Hv as (g0 & <- & _).
  set (v := grant_verdict md (sc_linked (scan_log md ix)) g0).
  destruct (ga_pass v.1) eqn:Hp; cbn; [split; [done|tauto]|].
  pose proof (verdict_status md (sc_linked (scan_log md ix)) g0 Hp) as Hst. fold v in Hst.
  split; [intros E; by rewrite E in Hst|]. split; [|done]. intros [?|[_ H]]; [done|].
  specialize (H (ga_status v.1) ltac:(set_solver)). congruence.
Qed.

(** A council's status view never calls the participants ready before the
    latest selection is proved: when the report of a council whose event ids are
    distinct is ready and its latest [speaker_selected] event names a member of
    the council, then that member's runner started and succeeded, its linked
    speech was delivered where required, and nothing of the selection failed. *)
Theorem ready_status_proves_runner clock md ix now x :
  plain_ids (ix_events ix) -> md_session_type md = SessionTypeCouncil ->
  latestEventOfType ix "speaker_selected" = Some x ->
  trim_space (selected_target x) = selected_target x -> selected_target x ∈ councilMembers md ->
  rr_ready (ParticipantRuntimeReadinessFromIndex clock md ix
    (readinessOptionsForStatus md ix now (SelectedRunnerAccountingFromIndex md ix))) = true ->
  runner_evidence md x (owned (ix_events ix) (ev_event_id x)).
Proof.
  intros Hids Hty Hx Htrim Hmem Hready. set (opts := readinessOptionsForStatus md ix now _) in Hready.
  pose proof (report_rows clock md ix opts) as (_ & Hr & _). apply Hr with (m := selected_target x) in Hready.
  2: { unfold readinessRequiredMembers. by rewrite Hty. }
  pose proof (md_runner _ _ _ _ _ Hready) as Hp. clear Hready Hr.
  set (p := selectedRunnerEvidenceFromAccounting (SelectedRunnerAccountingFromIndex md ix) (ev_event_id x)).
  destruct (prerequisite_of_accounting md ix (ev_event_id x)) as [Hst Hmet]. fold p in Hst, Hmet.
  assert (Ho : ro_selected_runner opts = true /\ ro_selected_member opts = selected_target x /\ ro_evidence opts = {[ selected_target x := p ]}).
  { unfold opts, readinessOptionsForStatus. rewrite Hty. cbn. cbv zeta. destruct (terminalRuntimeReadinessReference md ix); by rewrite Hx. }
  destruct Ho as (H1 & H2 & H3). unfold prerequisite_of in Hp. rewrite H1, H2, H3, Htrim, String.eqb_refl in Hp. cbn in Hp.
  rewrite lookup_singleton_eq in Hp. cbn in Hp. destruct (String.eqb_spec (pq_status p) ""); [done|].
  specialize (Hp p eq_refl). apply Hmet, (runner_prerequisite_ready md ix (ev_event_id x) Hids) in Hp as (y & Hy & Hid & He).
  assert (y = x) as ->; [|done].
  apply find_last_Some in Hx as [Hxl _]. apply in_selections in Hy as [Hyl _]. by apply (plain_inj (ix_events ix)).
Qed.

(** ** A concrete report *)

Definition dx_stream (ty member : string) (p : payload) : EventEnvelope :=
  fx_event fx_council_md (ty +:+ "_" +:+ member) ty "discussion" member ["mod"] (<["member" := AStr member]> p).

Definition dx_connected (member : string) : EventEnvelope :=
  dx_stream "stream_subscriber_connected" member {[ "subscriber_id" := AStr "s1" ]}.
Definition dx_ack (member : string) : EventEnvelope :=
  dx_stream "stream_cursor_acknowledged" member {[ "cursor" := AStr "cur_000000000000_evt_sel" ]}.

(** Ann was selected, ran and spoke; both members follow the stream. *)
Definition dx_ix : LogIndex :=
  fx_index (ix_events rx_ix ++ [dx_connected "ann"; dx_connected "bob"; dx_ack "ann"; dx_ack "bob"]).

Definition dx_report (ix : LogIndex) (now : time) : ParticipantRuntimeReadinessReport :=
  ParticipantRuntimeReadinessFromIndex now fx_council_md ix
    (readinessOptionsForStatus fx_council_md ix now (SelectedRunnerAccountingFromIndex fx_council_md ix)).

Example dx_reports :
  map (fun r => (rr_status r, rr_blocking r))
    [dx_report dx_ix fx_later; dx_report dx_ix (fx_now + 91 * second); dx_report (fx_index [dx_connected "ann"; dx_ack "ann"]) fx_later] =
  [("ready", []); ("blocked", ["ann:heartbeat_freshness:stale_heartbeat"; "bob:heartbeat_freshness:stale_heartbeat"]);
   ("blocked", ["ann:cursor_ack:invalid_cursor"; "bob:cursor_ack:missing_cursor_ack"; "bob:cursor_ack_freshness:missing_cursor_ack";
                "bob:heartbeat_freshness:missing_subscriber_heartbeat"; "bob:subscriber_presence:missing_subscriber"])].
Proof. vm_compute. reflexivity. Qed.

Lemma ready_status_proves_runner_witness :
  runner_evidence fx_council_md rx_selected (owned (ix_events dx_ix) "evt_sel").
Proof.
  apply (ready_status_proves_runner fx_later fx_council_md dx_ix fx_later rx_selected).
  - split; [apply (bool_decide_unpack _); vm_compute; exact I|]. vm_compute. repeat constructor; discriminate.
  - reflexivity.
  - vm_compute. reflexivity.
  - vm_compute. reflexivity.
  - vm_compute. constructor.
  - vm_compute. reflexivity.
Defined.
