(* ===== verification/ReadinessTimeouts.v ===== *)
(** * Correctness of the attendance and preparation timeouts

    After the deadline of the latest request the daemon answers for every
    council member that did not, once. *)

From S2P Require Import Prelude GoValue GoTime Model Ids Evidence Events EventLog LogSpec Command Delegation Fixtures Closeout Lifecycle ArgumentGraph SelectedRunner Council CouncilTheory CouncilWindow Readiness.

(** ** Commands in a row *)

Section record_all.
  Context (name : string) (clock : time) (spec : string -> CouncilEventSpec) (recorded : string -> EventEnvelope -> Prop).

Definition spec_command (m : string) : string := council_command_id clock (spec m).

  Context (Hrec : forall m md ix e, m <> "" -> respond clock md ix (spec m) = Ok (Propose e) -> recorded m (appended md ix e)).
  Context (Hinj : forall m n, spec_command m = spec_command n -> m = n).

Lemma respond_command m md ix e : respond clock md ix (spec m) = Ok (Propose e) -> ev_command_id e = spec_command m.
Proof.
    intros (mv & _ & ->)%council_respond%buildCouncilEvent_ok.
    pose proof (prepare_fields md ix (council_event md (council_command_id clock (spec m))
      (council_causation (spec m) (delete "closeout_diagnostics" (default ∅ (cn_payload (spec m))))) mv
      (event_time clock (cn_now (spec m))))) as Hf.
    cbv zeta in Hf. by destruct Hf as (_ & _ & -> & _).
Qed.

Lemma record_all_ok members : forall w ix faults results w' results',
    reads w name ix -> NoDup members -> (forall m, m ∈ members -> m <> "") ->
    (forall m x, m ∈ members -> x ∈ ix_events ix -> ev_command_id x <> spec_command m) ->
    record_all name w clock (map spec members) faults results = (w', results', Ok tt) ->
    exists ix' tail, reads w' name ix' /\ ix_events ix' = ix_events ix ++ tail /\ Forall2 recorded members tail /\
      length results' = (length results + length members)%nat /\ same_session (wd_md w') (wd_md w).
Proof.
    induction members as [|m ms IH]; intros w ix faults results w' results' Hix Hnd Hne Hfresh H; cbn in H.
    - injection H as <- <-. exists ix, []. rewrite app_nil_r. repeat split; try done; cbn; lia.
    - destruct (run_command name w clock (spec m) _) as [w1 [[a dedup]|]] eqn:Hrun; [|done].
      apply NoDup_cons in Hnd as [Hnm Hnd].
      apply (council_command_new _ _ _ _ _ _ _ _ ix Hix) in Hrun as (-> & e & Hd & Hr1 & Hsame);
        [|intros x Hx; apply Hfresh; [set_solver | done]].
      pose proof (Hrec m _ _ _ ltac:(apply Hne; set_solver) Hd) as Hm. pose proof (respond_command _ _ _ _ Hd) as Hcmd.
      apply IH with (ix := index_add ix (appended (wd_md w) ix e)) in H as (ix' & tail & Hr' & Htail & Hall & Hlen & Hs');
        [| done.. | intros; apply Hne; set_solver |].
      + exists ix', (appended (wd_md w) ix e :: tail). split; [done|].
        split; [rewrite Htail; cbn; by rewrite <- app_assoc|]. split; [by constructor|].
        split; [rewrite Hlen, length_app; cbn; lia | by etrans].
      + intros n x Hn Hx. cbn [index_add ix_events] in Hx. apply elem_of_app in Hx as [Hx|Hx%list_elem_of_singleton];
          [apply Hfresh; [set_solver | done]|]. subst x. rewrite appended_command, Hcmd.
        intros Heq. apply Hnm. apply Hinj in Heq as ->. done.
Qed.
End record_all.

(** ** What a timeout records *)

Definition timed_out_attendance (m : string) (e : EventEnvelope) : Prop :=
  ev_type e = "member_attended" /\ ev_from e = daemonPrincipal /\ named_or_sender e = m /\
  payloadStringDefault (pl e) "status" "" = "no_response_timeout".

Definition timed_out_preparation (m : string) (e : EventEnvelope) : Prop :=
  ev_type e = "member_prepared_partial" /\ ev_from e = daemonPrincipal /\ named_or_sender e = m /\
  payloadStringDefault (pl e) "reason" "" = "timeout".

Ltac find_key H := cbn in H; repeat first [rewrite lookup_insert_eq in H | rewrite lookup_insert_ne in H by done]; cbn in H.

Lemma input_lookup md spec k :
  k ∉ council_payload_keys -> k <> "closeout_diagnostics" -> council_input md spec !! k = default ∅ (cn_payload spec) !! k.
Proof. intros Hk Hc. unfold council_input. by rewrite session_payload_lookup, lookup_delete_ne. Qed.

Lemma attendance_recorded clock request now m md ix e :
  m <> "" -> respond clock md ix (attendance_timeout_spec request now m) = Ok (Propose e) ->
  timed_out_attendance m (appended md ix e).
Proof.
  intros Hm Hd. apply council_recorded in Hd as (mv & Ht & Hty & _ & Hfrom & _ & _ & Hpl).
  apply (council_action _ _ _ act_attend) in Ht; [|done]. open_action Ht. cbn [cm_type cm_from cm_payload] in *.
  pose proof (Hpl "member" ltac:(done)) as Pm. pose proof (Hpl "status" ltac:(done)) as Ps.
  rewrite input_lookup in Pm, Ps by (done || set_solver). set (x := appended md ix e) in *. clearbody x. cbn [cn_payload default] in Pm, Ps.
  find_key Pm. find_key Ps.
  unfold timed_out_attendance, named_or_sender, payloadStringDefault. rewrite Hty, Hfrom, Pm, Ps. cbn.
  by destruct (String.eqb_spec m "").
Qed.

Lemma preparation_recorded clock request now m md ix e :
  m <> "" -> respond clock md ix (preparation_timeout_spec request now m) = Ok (Propose e) ->
  timed_out_preparation m (appended md ix e).
Proof.
  intros Hm Hd. apply council_recorded in Hd as (mv & Ht & Hty & _ & Hfrom & _ & _ & Hpl).
  apply (council_action _ _ _ act_prepared_partial) in Ht; [|done]. open_action Ht. cbn [cm_type cm_from cm_payload] in *.
  pose proof (Hpl "member" ltac:(done)) as Pm. pose proof (Hpl "reason" ltac:(done)) as Ps.
  rewrite input_lookup in Pm, Ps by (done || set_solver). set (x := appended md ix e) in *. clearbody x. cbn [cn_payload default] in Pm, Ps.
  find_key Pm. find_key Ps.
  unfold timed_out_preparation, named_or_sender, payloadStringDefault. rewrite Hty, Hfrom, Pm, Ps. cbn.
  by destruct (String.eqb_spec m "").
Qed.

(** ** The latest request and what follows it *)

Lemma events_after_app ix ix' tail e :
  e ∈ ix_events ix -> ix_events ix' = ix_events ix ++ tail ->
  eventsAfter ix' (ev_event_id e) = eventsAfter ix (ev_event_id e) ++ tail.
Proof.
  intros He Htail. unfold eventsAfter. rewrite Htail.
  destruct (find_from (fun x => ev_event_id x == ev_event_id e) 0 (ix_events ix)) as [[i x]|] eqn:Hf.
  - rewrite (find_from_app_l _ _ _ _ _ Hf). apply find_from_spec in Hf as (_ & Hi & _). apply lookup_lt_Some in Hi.
    rewrite drop_app_le by lia. done.
  - pose proof (proj1 (find_from_none _ _ _) Hf e He) as H. cbn in H. by rewrite String.eqb_refl in H.
Qed.

Lemma filter_none {A} (p : A -> bool) l : (forall x, In x l -> p x = false) -> List.filter p l = [].
Proof. intros H. induction l as [|x l IH]; cbn; [done|]. rewrite H by by left. apply IH. intros y Hy. apply H. by right. Qed.

Section timeouts.
  Context (request : string) (mark : SessionMetadata -> EventEnvelope -> option string)
    (spec : string -> time -> string -> CouncilEventSpec) (recorded : string -> EventEnvelope -> Prop).

Definition marked (md : SessionMetadata) (ix : LogIndex) (id : string) : list string := omap (mark md) (eventsAfter ix id).

  Context (Hrec : forall id now clock m md ix e,
             m <> "" -> respond clock md ix (spec id now m) = Ok (Propose e) -> recorded m (appended md ix e)).
  Context (Hinj : forall id now clock m n,
             council_command_id clock (spec id now m) = council_command_id clock (spec id now n) -> m = n).
  Context (Hmark : forall md m e, recorded m e -> councilMember md m = true -> mark md e = Some m).
  Context (Hmd : forall a b e, same_session a b -> mark a e = mark b e).
  Context (Htype : forall m e, recorded m e -> ev_type e <> request).

Lemma marked_app md ix ix' tail e m :
    e ∈ ix_events ix -> ix_events ix' = ix_events ix ++ tail ->
    m ∈ marked md ix' (ev_event_id e) <-> m ∈ marked md ix (ev_event_id e) \/ exists x, x ∈ tail /\ mark md x = Some m.
Proof.
    intros He Ht. unfold marked. rewrite (events_after_app _ _ _ _ He Ht), !list_elem_of_omap.
    setoid_rewrite elem_of_app. naive_solver.
Qed.

Lemma timeouts_settle name w clock now faults w' results ix req :
    reads w name ix -> live_council (wd_md w) = true -> latestEventOfType ix request = Some req ->
    add_seconds (ev_created_at req) (timeoutSec (pl req) (rl_preparation (effectiveRuntimeLimits (wd_md w)))) <= now ->
    NoDup (councilMembers (wd_md w)) -> "" ∉ councilMembers (wd_md w) ->
    (forall m x, m ∈ councilMembers (wd_md w) -> x ∈ ix_events ix ->
       ev_command_id x <> council_command_id clock (spec (ev_event_id req) now m)) ->
    apply_timeouts request marked spec name w clock now faults = (w', results, Ok tt) ->
    exists ix' tail, reads w' name ix' /\ ix_events ix' = ix_events ix ++ tail /\
      Forall2 recorded (List.filter (fun m => negb (mem_str m (marked (wd_md w) ix (ev_event_id req)))) (councilMembers (wd_md w))) tail /\
      length results = length tail /\
      forall clock' now' faults', apply_timeouts request marked spec name w' clock' now' faults' = (w', [], Ok tt).
Proof.
    intros Hix Hlive Hreq Hdead Hnd Hne Hfresh H. unfold apply_timeouts in H. cbv zeta in H.
    rewrite Hlive in H. cbn [negb] in H. destruct Hix as (sd & Hsd & Hr). assert (Hix : reads w name ix) by by exists sd.
    unfold read_session in H. rewrite Hsd, Hr, Hreq in H. apply Z.ltb_ge in Hdead. rewrite Hdead in H.
    set (late := List.filter _ _) in *.
    assert (Hlate : forall m, m ∈ late -> m ∈ councilMembers (wd_md w))
      by (intros m; unfold late; rewrite !list_elem_of_In, filter_In; tauto).
    apply (record_all_ok name clock (spec (ev_event_id req) now) recorded) with (ix := ix) in H
      as (ix' & tail & Hr' & Htail & Hall & Hlen & Hsame); try done.
    2: { intros. by eapply Hrec. } 2: { intros m n. apply Hinj. }
    2: { unfold late. rewrite NoDup_ListNoDup in *. by apply List.NoDup_filter. }
    2: { intros m Hm ->. by apply Hne, Hlate. } 2: { intros m x Hm. by apply Hfresh, Hlate. }
    exists ix', tail. split; [done|]. split; [done|]. split; [done|].
    split; [rewrite Hlen; by apply Forall2_length in Hall|]. intros clock' now' faults'.
    assert (Hreq' : latestEventOfType ix' request = Some req).
    { unfold latestEventOfType. rewrite Htail, find_last_app_none; [done|]. intros x [i Hx]%list_elem_of_lookup.
      destruct (Forall2_lookup_r _ _ _ _ _ Hall Hx) as (m & _ & Hm). by apply String.eqb_neq, (Htype m). }
    assert (Hmembers : councilMembers (wd_md w') = councilMembers (wd_md w)) by (clear -Hsame; by open_session Hsame).
    assert (Hlive' : live_council (wd_md w') = true) by (rewrite <- Hlive; clear -Hsame; by open_session Hsame).
    assert (Hin : req ∈ ix_events ix) by by apply find_last_Some in Hreq as [? _].
    assert (Hnone : List.filter (fun m => negb (mem_str m (marked (wd_md w') ix' (ev_event_id req)))) (councilMembers (wd_md w')) = []).
    { apply filter_none. intros m Hm. rewrite negb_false_iff.
      rewrite Hmembers in Hm. apply mem_str_spec, (marked_app _ _ _ _ _ _ Hin Htail). destruct (decide (m ∈ marked (wd_md w) ix (ev_event_id req))) as [Hy|Hn].
      - left. unfold marked in *. apply list_elem_of_omap in Hy as (x & Hx & Hy). apply list_elem_of_omap.
        exists x. split; [done|]. by rewrite (Hmd _ _ _ Hsame).
      - right. assert (Hml : m ∈ late).
        { apply list_elem_of_In, filter_In. split; [done|]. apply negb_true_iff, not_true_iff_false. by rewrite mem_str_spec. }
        apply list_elem_of_lookup in Hml as [i Hi]. destruct (Forall2_lookup_l _ _ _ _ _ Hall Hi) as (x & Hx & Hrm).
        exists x. split; [by eapply list_elem_of_lookup_2|]. apply Hmark; [done|]. unfold councilMember. rewrite Hmembers. by apply mem_str_spec, list_elem_of_In. }
    unfold apply_timeouts. cbv zeta. rewrite Hlive'. cbn [negb]. destruct Hr' as (sd' & Hsd' & Hr').
    unfold read_session. rewrite Hsd', Hr', Hreq'. rewrite Hnone. by destruct (now' <? _).
Qed.
End timeouts.

(** ** Attendance *)

Definition attendance_mark (md : SessionMetadata) (e : EventEnvelope) : option string :=
  if (ev_type e == "member_attended") && councilMember md (named_or_sender e) &&
     allowedString (payloadStringDefault (pl e) "status" "") attendance_statuses
  then Some (named_or_sender e) else None.

Definition preparation_mark (md : SessionMetadata) (e : EventEnvelope) : option string := fst <$> preparation_answer md e.

Lemma council_member_same a b m : same_session a b -> councilMember a m = councilMember b m.
Proof. intros H. by open_session H. Qed.

Lemma timeout_command_inj pre clock id now (spec : string -> time -> string -> CouncilEventSpec) :
  (forall m, cn_command_id (spec id now m) = pre +:+ id +:+ "_" +:+ m) -> any_char is_letter_c pre = true ->
  forall m, council_command_id clock (spec id now m) = pre +:+ id +:+ "_" +:+ m.
Proof.
  intros Hc Hp m. unfold council_command_id. rewrite Hc. by rewrite letter_nonblank by (rewrite any_char_app, Hp; done).
Qed.

Lemma prefix_inj pre id m n : pre +:+ id +:+ "_" +:+ m = pre +:+ id +:+ "_" +:+ n -> m = n.
Proof. intros H. by apply (inj (String.append pre)), (inj (String.append id)), (inj (String.append "_")) in H. Qed.

(** The deadline of a request. *)
Definition request_deadline (md : SessionMetadata) (req : EventEnvelope) : time :=
  add_seconds (ev_created_at req) (timeoutSec (pl req) (rl_preparation (effectiveRuntimeLimits md))).

(** The members that [marks] does not list. *)
Definition unmarked (md : SessionMetadata) (marks : list string) : list string :=
  List.filter (fun m => negb (mem_str m marks)) (councilMembers md).

(** Attendance timeouts settle the request: at or after the deadline of a live
    council's latest attendance request, a successful call appends one
    [no_response_timeout] answer for each member that had not answered and
    nothing else, and every later call, whenever it comes, does nothing. *)
Theorem attendance_timeouts_settle name w clock now faults w' results ix req :
  reads w name ix -> live_council (wd_md w) = true -> latestEventOfType ix "attendance_requested" = Some req ->
  request_deadline (wd_md w) req <= now -> NoDup (councilMembers (wd_md w)) -> "" ∉ councilMembers (wd_md w) ->
  (forall m x, m ∈ councilMembers (wd_md w) -> x ∈ ix_events ix ->
     ev_command_id x <> "cmd_attendance_timeout_" +:+ ev_event_id req +:+ "_" +:+ m) ->
  ApplyAttendanceTimeouts name w clock now faults = (w', results, Ok tt) ->
  exists ix' tail, reads w' name ix' /\ ix_events ix' = ix_events ix ++ tail /\
    Forall2 timed_out_attendance (unmarked (wd_md w) (terminalAttendanceAfter (wd_md w) ix (ev_event_id req))) tail /\
    length results = length tail /\
    forall clock' now' faults', ApplyAttendanceTimeouts name w' clock' now' faults' = (w', [], Ok tt).
Proof.
  intros Hix Hlive Hreq Hdead Hnd Hne Hfresh H.
  apply (timeouts_settle "attendance_requested" attendance_mark attendance_timeout_spec timed_out_attendance)
    with (name := name) (clock := clock) (now := now) (faults := faults); try done.
  - intros. by eapply attendance_recorded.
  - intros id t c m n. rewrite !(timeout_command_inj "cmd_attendance_timeout_") by done. apply prefix_inj.
  - intros md m e (Ht & _ & Hm & Hs) Hc. unfold attendance_mark. by rewrite Ht, Hm, Hc, Hs.
  - intros a b e Hs. unfold attendance_mark. by rewrite (council_member_same _ _ _ Hs).
  - intros m e (-> & _). done.
  - intros m x Hm Hx. rewrite (timeout_command_inj "cmd_attendance_timeout_") by done. by apply Hfresh.
Qed.

(** The same for preparation. *)
Theorem preparation_timeouts_settle name w clock now faults w' results ix req :
  reads w name ix -> live_council (wd_md w) = true -> latestEventOfType ix "preparation_requested" = Some req ->
  request_deadline (wd_md w) req <= now -> NoDup (councilMembers (wd_md w)) -> "" ∉ councilMembers (wd_md w) ->
  (forall m x, m ∈ councilMembers (wd_md w) -> x ∈ ix_events ix ->
     ev_command_id x <> "cmd_preparation_timeout_" +:+ ev_event_id req +:+ "_" +:+ m) ->
  ApplyPreparationTimeouts name w clock now faults = (w', results, Ok tt) ->
  exists ix' tail, reads w' name ix' /\ ix_events ix' = ix_events ix ++ tail /\
    Forall2 timed_out_preparation (unmarked (wd_md w) (terminalPreparationAfter (wd_md w) ix (ev_event_id req))) tail /\
    length results = length tail /\
    forall clock' now' faults', ApplyPreparationTimeouts name w' clock' now' faults' = (w', [], Ok tt).
Proof.
  intros Hix Hlive Hreq Hdead Hnd Hne Hfresh H.
  apply (timeouts_settle "preparation_requested" preparation_mark preparation_timeout_spec timed_out_preparation)
    with (name := name) (clock := clock) (now := now) (faults := faults); try done.
  - intros. by eapply preparation_recorded.
  - intros id t c m n. rewrite !(timeout_command_inj "cmd_preparation_timeout_") by done. apply prefix_inj.
  - intros md m e (Ht & _ & Hm & Hs) Hc. unfold preparation_mark, preparation_answer. by rewrite Ht, Hm, Hc.
  - intros a b e Hs. unfold preparation_mark, preparation_answer. by rewrite !(council_member_same _ _ _ Hs).
  - intros m e (-> & _). done.
  - intros m x Hm Hx. rewrite (timeout_command_inj "cmd_preparation_timeout_") by done. by apply Hfresh.
Qed.

(** ** A council on a Discord thread *)

Definition tx_md : SessionMetadata :=
  mk_metadata "sess_council" SessionTypeCouncil StatusOpen "Roadmap" "mod" ["mod"; "ann"; "bob"]
    (Some (mk_surface "discord_thread" "discord" "g" "c" "t" "" "mod" "")) None None "" fx_now no_limits
    (mk_state PhaseCreated 0 "" 0) fx_snapshot.

Definition tx_created : EventEnvelope :=
  norm_event (set_payload (fx_created tx_md) (session_payload tx_md (pl (fx_created tx_md)))).

Definition tx_w0 : world := mk_world {[ "sess_council" := fx_dir tx_md [tx_created] ]} tx_md.

(** Attendance is requested with a timeout; ann answers. *)
Definition tx_requested (timeout_sec : Z) : world :=
  cx_runs tx_w0 [cx_spec "request-attendance" "mod" "a1" {[ "timeout_sec" := AInt timeout_sec ]};
                 cx_spec "attend" "ann" "a2" {[ "status" := AStr "present"; "summary" := AStr "here" ]}].

Definition tx_late (timeout_sec : Z) : world * list AppendResult * result error unit :=
  ApplyAttendanceTimeouts "sess_council" (tx_requested timeout_sec) fx_later (fx_later + 60 * second) [].

(** After a minute of 30 seconds' time bob is marked; of 600 seconds' time
    nobody is; and of 9223372037 seconds' time, 292 years, bob is at once,
    because the duration wraps. *)
Example tx_timeouts :
  map (fun t => map (fun e => (ev_type e, named_or_sender e)) (drop 2 (ix_events (cx_read (tx_late t).1.1)))) [30; 600; 9223372037] =
  [[("member_attended", "ann"); ("member_attended", "bob")]; [("member_attended", "ann")];
   [("member_attended", "ann"); ("member_attended", "bob")]].
Proof. vm_compute. reflexivity. Qed.

Definition tx_request : EventEnvelope := default tx_created (ix_events (cx_read (tx_requested 30)) !! 1%nat).

Lemma tx_commands m x :
  m ∈ councilMembers (wd_md (tx_requested 30)) -> x ∈ ix_events (cx_read (tx_requested 30)) ->
  ev_command_id x <> "cmd_attendance_timeout_" +:+ ev_event_id tx_request +:+ "_" +:+ m.
Proof. intros _. apply commands_without_prefix. vm_compute. reflexivity. Qed.

Lemma attendance_timeouts_settle_witness :
  exists ix' tail, reads (tx_late 30).1.1 "sess_council" ix' /\ ix_events ix' = ix_events (cx_read (tx_requested 30)) ++ tail /\
    Forall2 timed_out_attendance ["bob"] tail /\ length (tx_late 30).1.2 = length tail /\
    forall clock' now' faults', ApplyAttendanceTimeouts "sess_council" (tx_late 30).1.1 clock' now' faults' = ((tx_late 30).1.1, [], Ok tt).
Proof.
  apply (attendance_timeouts_settle "sess_council" (tx_requested 30) fx_later (fx_later + 60 * second) []
    (tx_late 30).1.1 (tx_late 30).1.2 (cx_read (tx_requested 30)) tx_request).
  - apply cx_read_reads. vm_compute. reflexivity.
  - vm_compute. reflexivity.
  - vm_compute. reflexivity.
  - vm_compute. discriminate.
  - vm_compute. repeat (constructor; [set_solver|]). constructor.
  - vm_compute. set_solver.
  - exact tx_commands.
  - vm_compute. reflexivity.
Defined.

(** Later bob prepares nothing in ten minutes: the default deadline. *)
Definition tx_prepared : world :=
  cx_runs (tx_late 30).1.1
    [cx_spec "lock-agenda" "mod" "a3" {[ "decision_question" := AStr "q"; "success_criteria" := AStr "s"; "out_of_scope_policy" := AStr "o" ]};
     cx_spec "prepare" "mod" "a4" ∅; cx_spec "ready" "ann" "a5" {[ "summary" := AStr "read" ]}].

Definition tx_unprepared : world * list AppendResult * result error unit :=
  ApplyPreparationTimeouts "sess_council" tx_prepared fx_later (fx_later + 601 * second) [].

Example tx_preparation :
  map (fun e => (ev_type e, named_or_sender e)) (drop 5 (ix_events (cx_read tx_unprepared.1.1))) =
  [("preparation_requested", "mod"); ("member_ready", "ann"); ("member_prepared_partial", "bob")].
Proof. vm_compute. reflexivity. Qed.
