(* ===== verification/PromptEvidence.v ===== *)
(** * Selected-runner prompt evidence (storage/selected_runner_prompt_evidence.go)

    What the daemon records about the prompt that it gave a selected speaker: the
    record, the payload of the event (daemon/council_handlers.go), and how it is
    read back.  PromptBuilder builds the prompt. *)

From S2P Require Import Prelude GoValue GoTime Model Ids Evidence Events Closeout Lifecycle ArgumentGraph.

Record SelectedRunnerPromptEvidence := mk_prompt_evidence {
  pe_session : string; pe_selected_event : string; pe_member : string; pe_turn : Z; pe_causation : string; pe_result : string;
  pe_included : list string; pe_missing : list string; pe_agenda : list string; pe_prior : list string;
  pe_own_history : list string; pe_own_latest : list string; pe_own_index : list string; pe_mode : string;
  pe_strategy : string; pe_delta : list string; pe_rehydrate : list string; pe_rehydrate_status : string;
  pe_rehydrate_failures : list string; pe_fallback : bool; pe_fallback_status : string; pe_full_history : string;
  pe_own_history_status : string; pe_block_status : string; pe_block_reason : string; pe_sha256 : string; pe_excerpt : string }.

(** [append([]string(nil), l...)], which is nil when [l] is empty. *)
Definition strs_or_nil (l : list string) : any :=
  match l with
  | [] => ANil
  | _ => AStrs l
  end.

(** An entry that is left out when the list is empty. *)
Definition with_strs (key : string) (l : list string) (p : payload) : payload :=
  match l with
  | [] => p
  | _ => <[key := AStrs l]> p
  end.

Definition prompt_fields (e : SelectedRunnerPromptEvidence) : payload :=
  list_to_map
    [("session_id", AStr (pe_session e));
     ("speaker_selected_event_id", AStr (pe_selected_event e));
     ("selected_member", AStr (pe_member e));
     ("turn", AInt (pe_turn e));
     ("causation_event_id", AStr (pe_causation e));
     ("result", AStr (pe_result e));
     ("included_context", strs_or_nil (pe_included e));
     ("missing_required_context", strs_or_nil (pe_missing e));
     ("participant_runtime_mode", AStr (pe_mode e));
     ("hot_prompt_strategy", AStr (pe_strategy e));
     ("delta_source_event_ids", strs_or_nil (pe_delta e));
     ("rehydrate_source_event_ids", strs_or_nil (pe_rehydrate e));
     ("rehydrate_validation_status", AStr (pe_rehydrate_status e));
     ("rehydrate_validation_failures", strs_or_nil (pe_rehydrate_failures e));
     ("stateless_fallback", ABool (pe_fallback e));
     ("stateless_fallback_status", AStr (pe_fallback_status e));
     ("full_history_hot_prompt_status", AStr (pe_full_history e));
     ("own_history_hot_prompt_status", AStr (pe_own_history_status e));
     ("runtime_block_status", AStr (pe_block_status e));
     ("runtime_block_reason", AStr (pe_block_reason e));
     ("prompt_context_sha256", AStr (pe_sha256 e))].

Definition selectedRunnerPromptEvidencePayload (e : SelectedRunnerPromptEvidence) : payload :=
  let p :=
    with_strs "own_claim_index_source_event_ids" (pe_own_index e)
    (with_strs "own_latest_claim_source_event_ids" (pe_own_latest e)
    (with_strs "own_history_source_event_ids" (pe_own_history e)
    (with_strs "prior_context_source_event_ids" (pe_prior e)
    (with_strs "agenda_source_event_ids" (pe_agenda e) (prompt_fields e))))) in
  if pe_excerpt e == "" then p else <["redacted_prompt_excerpt" := AStr (pe_excerpt e)]> p.

(** *** Reading it back *)

Definition selectedRunnerStringSlice (value : any) : list string := string_items (anySlice {[ "items" := value ]} "items").

Definition prompt_strs (p : payload) (key : string) : list string := selectedRunnerStringSlice (default ANil (p !! key)).

Definition selectedRunnerPromptEvidenceFromPayload (o : option payload) : option SelectedRunnerPromptEvidence :=
  match o with
  | None => None
  | Some p =>
      let text key := anyString p [key] in
      let strs := prompt_strs p in
      let e := mk_prompt_evidence (text "session_id") (text "speaker_selected_event_id") (text "selected_member") (anyInt p "turn")
        (text "causation_event_id") (text "result") (strs "included_context") (strs "missing_required_context")
        (strs "agenda_source_event_ids") (strs "prior_context_source_event_ids") (strs "own_history_source_event_ids")
        (strs "own_latest_claim_source_event_ids") (strs "own_claim_index_source_event_ids") (text "participant_runtime_mode")
        (text "hot_prompt_strategy") (strs "delta_source_event_ids") (strs "rehydrate_source_event_ids")
        (text "rehydrate_validation_status") (strs "rehydrate_validation_failures") (anyBool p ["stateless_fallback"])
        (text "stateless_fallback_status") (text "full_history_hot_prompt_status") (text "own_history_hot_prompt_status")
        (text "runtime_block_status") (text "runtime_block_reason") (text "prompt_context_sha256")
        (text "redacted_prompt_excerpt") in
      if (pe_session e == "") && (pe_selected_event e == "") && (pe_member e == "") && (pe_result e == "") then None else Some e
  end.

Definition name_selected (e : SelectedRunnerPromptEvidence) (id : string) : SelectedRunnerPromptEvidence :=
  mk_prompt_evidence (pe_session e) id (pe_member e) (pe_turn e) (pe_causation e) (pe_result e) (pe_included e) (pe_missing e)
    (pe_agenda e) (pe_prior e) (pe_own_history e) (pe_own_latest e) (pe_own_index e) (pe_mode e) (pe_strategy e) (pe_delta e)
    (pe_rehydrate e) (pe_rehydrate_status e) (pe_rehydrate_failures e) (pe_fallback e) (pe_fallback_status e)
    (pe_full_history e) (pe_own_history_status e) (pe_block_status e) (pe_block_reason e) (pe_sha256 e) (pe_excerpt e).

Fixpoint latest_prompt_evidence (l : list EventEnvelope) : option SelectedRunnerPromptEvidence :=
  match l with
  | [] => None
  | e :: rest =>
      if ev_type e == "selected_runner_prompt_evidence" then
        match selectedRunnerPromptEvidenceFromPayload (ev_payload e) with
        | None => latest_prompt_evidence rest
        | Some ev =>
            Some (if is_blank (pe_selected_event ev) then name_selected ev (trim_space (ev_causation_event_id e)) else ev)
        end
      else latest_prompt_evidence rest
  end.

Definition LatestSelectedRunnerPromptEvidenceFromIndex (ix : LogIndex) : option SelectedRunnerPromptEvidence :=
  latest_prompt_evidence (rev (ix_events ix)).

(** ** The record is read back as it was written *)

Definition plain_strs (l : list string) : Prop := Forall (fun s => is_blank s = false /\ trim_space s = s) l.

Record plain_evidence (e : SelectedRunnerPromptEvidence) : Prop := mk_plain {
  pn_named : pe_session e <> "" \/ pe_selected_event e <> "" \/ pe_member e <> "" \/ pe_result e <> "";
  pn_turn : Z.abs (pe_turn e) <= 2 ^ 53;
  pn_lists : Forall plain_strs
    [pe_included e; pe_missing e; pe_agenda e; pe_prior e; pe_own_history e; pe_own_latest e; pe_own_index e; pe_delta e;
     pe_rehydrate e; pe_rehydrate_failures e] }.

Lemma string_slice_norm l : plain_strs l -> selectedRunnerStringSlice (json_norm (AStrs l)) = l.
Proof.
  intros H. unfold selectedRunnerStringSlice, anySlice. cbn [json_norm]. rewrite lookup_singleton_eq.
  induction H as [|s l [Hb Ht] _ IH]; [done|]. unfold string_items in *. cbn. by rewrite Hb, Ht, IH.
Qed.

Lemma string_slice_nil l : plain_strs l -> selectedRunnerStringSlice (json_norm (strs_or_nil l)) = l.
Proof. destruct l; [done|]. apply string_slice_norm. Qed.

Lemma with_strs_other key l p k : key <> k -> with_strs key l p !! k = p !! k.
Proof. intros H. unfold with_strs. destruct l; [done|]. by rewrite lookup_insert_ne. Qed.

Lemma with_strs_here key l p :
  p !! key = None -> with_strs key l p !! key = match l with [] => None | _ => Some (AStrs l) end.
Proof. intros H. unfold with_strs. destruct l; [done|]. by rewrite lookup_insert_eq. Qed.

Lemma prompt_text (p : payload) key s : p !! key = Some (AStr s) -> anyString (json_norm <$> p) [key] = s.
Proof. intros H. cbn. by rewrite lookup_fmap, H. Qed.

Lemma prompt_list (p : payload) key l : plain_strs l -> p !! key = Some (strs_or_nil l) -> prompt_strs (json_norm <$> p) key = l.
Proof. intros Hl H. unfold prompt_strs. rewrite lookup_fmap, H. by apply string_slice_nil. Qed.

Lemma prompt_optional_list (p : payload) key l :
  plain_strs l -> p !! key = match l with [] => None | _ => Some (AStrs l) end -> prompt_strs (json_norm <$> p) key = l.
Proof. intros Hl H. unfold prompt_strs. rewrite lookup_fmap, H. destruct l; [done|]. by apply string_slice_norm. Qed.

Definition optional_keys : list string :=
  ["redacted_prompt_excerpt"; "agenda_source_event_ids"; "prior_context_source_event_ids"; "own_history_source_event_ids";
   "own_latest_claim_source_event_ids"; "own_claim_index_source_event_ids"].

Lemma prompt_payload_field e key :
  mem_str key optional_keys = false -> selectedRunnerPromptEvidencePayload e !! key = prompt_fields e !! key.
Proof.
  unfold mem_str, optional_keys. cbn [existsb]. intros H. rewrite !orb_false_iff, !String.eqb_neq in H. destruct_and!.
  unfold selectedRunnerPromptEvidencePayload. cbv zeta.
  destruct (pe_excerpt e == ""); [|rewrite lookup_insert_ne by done]; by rewrite !with_strs_other by done.
Qed.

Lemma field_text e key s :
  mem_str key optional_keys = false -> prompt_fields e !! key = Some (AStr s) ->
  anyString (json_norm <$> selectedRunnerPromptEvidencePayload e) [key] = s.
Proof. intros Hk Hf. apply prompt_text. by rewrite prompt_payload_field. Qed.

Lemma field_list e key l :
  mem_str key optional_keys = false -> plain_strs l -> prompt_fields e !! key = Some (strs_or_nil l) ->
  prompt_strs (json_norm <$> selectedRunnerPromptEvidencePayload e) key = l.
Proof. intros Hk Hl Hf. apply prompt_list; [done|]. by rewrite prompt_payload_field. Qed.

(** A list that is left out when empty. *)
Ltac optional_list :=
  apply prompt_optional_list; [done|]; unfold selectedRunnerPromptEvidencePayload; cbv zeta;
  match goal with |- context [if ?b then _ else _] => destruct b end; rewrite ?lookup_insert_ne by done;
  repeat (rewrite with_strs_other by done);
  (apply with_strs_here; repeat (rewrite with_strs_other by done); reflexivity).

Lemma optional_lists e :
  let q := json_norm <$> selectedRunnerPromptEvidencePayload e in
  plain_strs (pe_agenda e) -> plain_strs (pe_prior e) -> plain_strs (pe_own_history e) -> plain_strs (pe_own_latest e) ->
  plain_strs (pe_own_index e) ->
  prompt_strs q "agenda_source_event_ids" = pe_agenda e /\ prompt_strs q "prior_context_source_event_ids" = pe_prior e /\
  prompt_strs q "own_history_source_event_ids" = pe_own_history e /\
  prompt_strs q "own_latest_claim_source_event_ids" = pe_own_latest e /\
  prompt_strs q "own_claim_index_source_event_ids" = pe_own_index e.
Proof. intros q ? ? ? ? ?. subst q. split_and!; optional_list. Qed.

Lemma excerpt_text e : anyString (json_norm <$> selectedRunnerPromptEvidencePayload e) ["redacted_prompt_excerpt"] = pe_excerpt e.
Proof.
  unfold selectedRunnerPromptEvidencePayload. cbv zeta. destruct (String.eqb_spec (pe_excerpt e) "") as [->|].
  - cbn [anyString]. rewrite lookup_fmap. repeat (rewrite with_strs_other by done). done.
  - apply prompt_text. by rewrite lookup_insert_eq.
Qed.

(** The evidence about a selected speaker's prompt survives the log: the
    payload that the daemon records, written and read as JSON, is read back as the
    same record, provided that its lists hold trimmed, non-blank texts, its turn
    fits a float64, and one of the four naming fields is not empty. *)
Theorem prompt_evidence_round_trip e (He : plain_evidence e) :
  selectedRunnerPromptEvidenceFromPayload (Some (json_norm <$> selectedRunnerPromptEvidencePayload e)) = Some e.
Proof.
  destruct He as [Hnamed Hturn Hlists]. rewrite !Forall_cons in Hlists. destruct Hlists as (? & ? & ? & ? & ? & ? & ? & ? & ? & ? & _).
  unfold selectedRunnerPromptEvidenceFromPayload. cbv zeta. rewrite excerpt_text.
  destruct (optional_lists e) as (-> & -> & -> & -> & ->); [done..|].
  repeat match goal with
  | |- context [prompt_strs _ ?k] => erewrite (field_list e k _ eq_refl); [| |reflexivity]; [|assumption]
  | |- context [anyString _ [?k]] => erewrite (field_text e k _ eq_refl); [|reflexivity]
  end.
  assert (Ht : anyInt (json_norm <$> selectedRunnerPromptEvidencePayload e) "turn" = pe_turn e).
  { assert (Hk : selectedRunnerPromptEvidencePayload e !! "turn" = Some (AInt (pe_turn e))) by (by rewrite prompt_payload_field).
    rewrite anyInt_norm; [unfold anyInt; by rewrite Hk|]. rewrite Hk. by intros z [= <-]. }
  assert (Hf : anyBool (json_norm <$> selectedRunnerPromptEvidencePayload e) ["stateless_fallback"] = pe_fallback e).
  { cbn [anyBool]. by rewrite lookup_fmap, prompt_payload_field. }
  rewrite Ht, Hf. cbn [pe_session pe_selected_event pe_member pe_result]. destruct e; cbn in *.
  destruct (String.eqb_spec pe_session0 ""), (String.eqb_spec pe_selected_event0 ""), (String.eqb_spec pe_member0 ""),
    (String.eqb_spec pe_result0 ""); cbn; try done. naive_solver.
Qed.

Definition px_evidence : SelectedRunnerPromptEvidence :=
  mk_prompt_evidence "sess_council" "evt_sel" "ann" 3 "evt_cause" "ready" ["agenda"; "own history"] [] ["evt_agenda"] [] [] []
    ["evt_claim"] "persistent" "delta" ["evt_1"; "evt_2"] [] "" [] false "" "" "" "" "" "00" "excerpt".

Lemma px_plain : plain_evidence px_evidence.
Proof. split; [by left | vm_compute; discriminate|]. repeat constructor. Qed.

Lemma prompt_evidence_round_trip_witness :
  plain_evidence px_evidence /\
  selectedRunnerPromptEvidenceFromPayload (Some (json_norm <$> selectedRunnerPromptEvidencePayload px_evidence)) = Some px_evidence.
Proof. split; [exact px_plain|]. exact (prompt_evidence_round_trip px_evidence px_plain). Defined.
