(* ===== verification/PromptBuilder.v ===== *)
(** * The prompt of a selected runner (storage/selected_runner_prompt_evidence.go)

    BuildSelectedRunnerPromptEnvelope: the context that a selected speaker is
    given, what of it is missing, the evidence about it and the text of the
    prompt. *)

From S2P Require Import Prelude GoValue GoTime Model Ids Sha256 Evidence Events Registry Closeout Lifecycle ArgumentGraph SelectedRunner PromptEvidence.

Definition response_field (name value : string) : string := dquote +:+ name +:+ dquote +:+ ":" +:+ dquote +:+ value +:+ dquote.

Definition selectedRunnerRequiredResponseSchema : string :=
  "{" +:+ response_field "type" "speech" +:+ "," +:+ dquote +:+ "payload" +:+ dquote +:+ ":{" +:+
  join "," [response_field "speech" "string"; response_field "claims" "optional[]"; response_field "stance_links" "optional[]";
            response_field "contribution_type" "optional string"; response_field "new_axis_reason" "optional string|null";
            response_field "evidence" "optional[]"] +:+
  "}}; claim_kind_allowed_values=[observation, requirement, risk, decision_frame, evidence, open_question, proposal]".

Definition selectedRunnerMissingContextInstruction : string :=
  "If any required agenda or context field is missing, do not generate a substantive council turn. Treat the turn as blocked by missing control-owned prompt context.".

Definition selectedRunnerArgueRule : string :=
  "When prior claims exist, respond using the current council speech contract. Link through stance_links to the relevant prior claims, or use contribution_type=new_axis with new_axis_reason only when introducing a justified new axis.".

Definition selectedRunnerPromptContextWindow : nat := 6.

(** ** Sources *)

Record selectedRunnerPromptSource := mk_source {
  sr_event : string; sr_turn : Z; sr_member : string; sr_speech : string; sr_claims : list payload }.

Record selectedRunnerPromptClaim := mk_prompt_claim { sc_id : string; sc_summary : string }.

(** The events before the first one with the given id; none when there is none. *)
Fixpoint before_event (l : list EventEnvelope) (id : string) : option (list EventEnvelope) :=
  match l with
  | [] => None
  | e :: rest => if ev_event_id e == id then Some [] else cons e <$> before_event rest id
  end.

(** The events before the last one with the given id. *)
Fixpoint before_last_event (reversed : list EventEnvelope) (id : string) : option (list EventEnvelope) :=
  match reversed with
  | [] => None
  | e :: rest => if ev_event_id e == id then Some rest else before_last_event rest id
  end.

Definition latestAgendaLockedBeforeSelected (events : list EventEnvelope) (id : string) : option EventEnvelope :=
  match before_last_event (rev events) id with
  | Some earlier => find_first (fun e => ev_type e == "agenda_locked") earlier
  | None => None
  end.

Definition selectedRunnerContextValue (value : option any) : string :=
  match value with
  | None | Some ANil => ""
  | Some (AStr s) => trim_space s
  | Some (AStrs []) | Some (AList []) => ""
  | Some (AMap m) => if bool_decide (m = ∅) then "" else mustCompactJSON (AMap m)
  | Some v => mustCompactJSON v
  end.

Definition selectedRunnerContextText (p : payload) (key : string) : string :=
  let text := selectedRunnerContextValue (p !! key) in
  if text != "" then text
  else
    match anyMap p ["constraints"] with
    | Some constraints => selectedRunnerContextValue (constraints !! key)
    | None => ""
    end.

Definition selectedRunnerStanceAssignment (e : EventEnvelope) : string := trim_space (anyString (pl e) ["stance_assignment"]).

Definition malformed_claim : payload := {[ "malformed" := ABool true ]}.

Definition selectedRunnerPromptSourceFromEvent (e : EventEnvelope) : selectedRunnerPromptSource :=
  let turn := anyInt (pl e) "turn" in
  let turn := match ev_turn e with
              | Some t => if (turn <=? 0) && (0 <? t) then t else turn
              | None => turn
              end in
  mk_source (trim_space (ev_event_id e)) turn (trim_space (ev_from e)) (trim_space (payloadStringDefault (pl e) "speech" ""))
    (map (fun claim => match claim with AMap m => m | _ => malformed_claim end) (anySlice (pl e) "claims")).

(** The speeches of a member, or of all, before the selection: the last ones,
    at most [limit] of them when it is not zero. *)
Definition selectedRunnerPromptSourcesBeforeSelected (events : list EventEnvelope) (id : string) (limit : nat) (memberID : string)
    : list selectedRunnerPromptSource :=
  let speeches := List.filter (fun e => (ev_type e == "speech") &&
                                        ((memberID == "") || (trim_space (ev_from e) == trim_space memberID)))
                    (rev (default [] (before_event events id))) in
  rev (map selectedRunnerPromptSourceFromEvent (match limit with O => speeches | _ => take limit speeches end)).

Definition selectedRunnerSourceHasRequiredProvenance (s : selectedRunnerPromptSource) : bool :=
  negb (is_blank (sr_event s)) && negb (is_blank (sr_member s)) && (0 <? sr_turn s) && negb (is_blank (sr_speech s)).

(** A claim that can be quoted. *)
Definition prompt_claim (claim : payload) : option selectedRunnerPromptClaim :=
  match claim !! "malformed" with
  | Some (ABool true) => None
  | _ =>
      let id := trim_space (anyString claim ["claim_id"]) in
      let summary := trim_space (anyString claim ["summary"]) in
      if (id == "") || (summary == "") then None else Some (mk_prompt_claim id summary)
  end.

(** The claims, and whether one is malformed. *)
Definition selectedRunnerClaimsForSource (s : selectedRunnerPromptSource) : list selectedRunnerPromptClaim * bool :=
  match sr_claims s with
  | [] => ([], false)
  | claims =>
      let good := omap prompt_claim claims in
      (good, existsb (fun c => match prompt_claim c with None => true | Some _ => false end) claims ||
             match good with [] => true | _ => false end)
  end.

Definition claim_text (c : selectedRunnerPromptClaim) : string := sc_id c +:+ ":" +:+ sc_summary c.

(** *** What was said before *)

Record prior_context := mk_prior {
  pr_speech : string; pr_claims : string; pr_sources : list string; pr_has_speech : bool; pr_has_claims : bool;
  pr_speech_missing : bool; pr_claims_missing : bool }.

Definition speech_line (s : selectedRunnerPromptSource) : list string :=
  if is_blank (sr_speech s) then []
  else ["turn=" +:+ itoa (sr_turn s) +:+ " member=" +:+ sr_member s +:+ " speech=" +:+ sr_speech s].

(** The line of a speech whose claims can be quoted. *)
Definition claims_line (s : selectedRunnerPromptSource) : list string :=
  match sr_claims s with
  | [] => []
  | _ =>
      match selectedRunnerClaimsForSource s with
      | (_, true) | ([], _) => []
      | (claims, false) => ["event=" +:+ sr_event s +:+ " claims=" +:+ join "; " (map claim_text claims)]
      end
  end.

Definition claims_unusable (s : selectedRunnerPromptSource) : bool :=
  match sr_claims s with
  | [] => false
  | _ => match selectedRunnerClaimsForSource s with
         | (_, true) | ([], _) => true
         | _ => false
         end
  end.

Definition has_claims (s : selectedRunnerPromptSource) : bool := match sr_claims s with [] => false | _ => true end.

Definition boundedPriorPromptContext (events : list EventEnvelope) (id : string) : prior_context :=
  let prior := selectedRunnerPromptSourcesBeforeSelected events id selectedRunnerPromptContextWindow "" in
  mk_prior (join nl (concat (map speech_line prior))) (join nl (concat (map claims_line prior))) (map sr_event prior)
    (match prior with [] => false | _ => true end) (existsb has_claims prior)
    (existsb (fun s => is_blank (sr_speech s)) prior) (existsb claims_unusable prior).

(** *** What the member itself said *)

(** The scan: the context so far, with the lists that the texts are joined from. *)
Record history_scan := mk_history_scan {
  os_speeches : list string; os_latest : list string; os_latest_event : string; os_index : list string;
  os_history_ids : list string; os_latest_ids : list string; os_index_ids : list string;
  os_claims : bool; os_speeches_missing : bool; os_index_missing : bool }.

Definition nothing_said : history_scan := mk_history_scan [] [] "" [] [] [] [] false false false.

(** The claims of the speech at hand cannot be used: those of earlier speeches are
    no longer the latest. *)
Definition claims_lost (o : history_scan) : history_scan :=
  mk_history_scan (os_speeches o) [] "" (os_index o) (os_history_ids o) [] (os_index_ids o) true (os_speeches_missing o) true.

Definition history_step (o : history_scan) (s : selectedRunnerPromptSource) : history_scan :=
  let ids := appendUniqueString (os_history_ids o) (sr_event s) in
  if negb (selectedRunnerSourceHasRequiredProvenance s) then
    let o1 := mk_history_scan (os_speeches o) (os_latest o) (os_latest_event o) (os_index o) ids (os_latest_ids o) (os_index_ids o)
                (os_claims o) true (os_index_missing o) in
    if has_claims s then claims_lost o1 else o1
  else
    let line := "event_id=" +:+ sr_event s +:+ " member=" +:+ sr_member s +:+ " turn=" +:+ itoa (sr_turn s) +:+ " speech=" +:+ sr_speech s in
    let o1 := mk_history_scan (os_speeches o ++ [line]) (os_latest o) (os_latest_event o) (os_index o) ids (os_latest_ids o)
                (os_index_ids o) (os_claims o || has_claims s) (os_speeches_missing o) (os_index_missing o) in
    if negb (has_claims s) then o1
    else
      match selectedRunnerClaimsForSource s with
      | (_, true) => claims_lost o1
      | ([], false) => o1
      | (claims, false) =>
          mk_history_scan (os_speeches o1) (map claim_text claims) (sr_event s)
            (os_index o ++ map (fun c => "event=" +:+ sr_event s +:+ " claim=" +:+ sc_id c +:+ " summary=" +:+ sc_summary c) claims)
            ids [sr_event s] (appendUniqueString (os_index_ids o) (sr_event s)) true (os_speeches_missing o) (os_index_missing o)
      end.

Record selectedRunnerOwnHistoryContext := mk_own_history {
  oh_speeches : string; oh_latest : string; oh_index : string; oh_history_ids : list string; oh_latest_ids : list string;
  oh_index_ids : list string; oh_has_speeches : bool; oh_has_claims : bool; oh_speeches_missing : bool;
  oh_latest_missing : bool; oh_index_missing : bool }.

Definition no_history : selectedRunnerOwnHistoryContext := mk_own_history "" "" "" [] [] [] false false false false false.

Definition selectedMemberOwnHistoryContext (events : list EventEnvelope) (id memberID : string) : selectedRunnerOwnHistoryContext :=
  match selectedRunnerPromptSourcesBeforeSelected events id 0 memberID with
  | [] => no_history
  | sources =>
      let o := foldl history_step nothing_said sources in
      let latest_missing := os_claims o && (os_latest_event o == "") in
      let index_missing := os_index_missing o || os_claims o && match os_index o with [] => true | _ => false end in
      mk_own_history (join nl (os_speeches o))
        (if os_claims o && (os_latest_event o != "")
         then "event=" +:+ os_latest_event o +:+ " claims=" +:+ join "; " (os_latest o) else "")
        (if os_claims o && negb index_missing then join nl (os_index o) else "")
        (os_history_ids o)
        (if latest_missing then [] else os_latest_ids o)
        (if os_claims o && index_missing then [] else os_index_ids o)
        true (os_claims o) (os_speeches_missing o) latest_missing index_missing
  end.

(** ** Rehydration

    A member whose runtime lost its history is given it again, from the evidence
    of the last speech that has a row of the member. *)

Definition selectedRunnerCursorResolves (ix : LogIndex) (cursor : string) : bool :=
  match ParseCursor cursor with
  | Err _ => false
  | Ok (offset, eventID) =>
      match nth_z (ix_events ix) offset with
      | Some e => trim_space (ev_event_id e) == trim_space eventID
      | None => false
      end
  end.

Definition selectedRunnerEventIDResolves (ix : LogIndex) (eventID : string) : bool :=
  negb (is_blank eventID) && existsb (fun e => trim_space (ev_event_id e) == trim_space eventID) (ix_events ix).

Definition selectedRunnerRuntimeEvidenceRows (value : option any) : list payload :=
  match value with
  | Some (AMaps l) => l
  | Some (AList l) => any_rows l
  | _ => []
  end.

(** [anyInt] over several keys. *)
Fixpoint any_int (p : payload) (keys : list string) : Z :=
  match keys with
  | [] => 0
  | key :: rest =>
      match p !! key with
      | Some v => match as_int v with Some z => z | None => any_int p rest end
      | None => any_int p rest
      end
  end.

Definition runtime_evidence_of (e : EventEnvelope) : option payload := anyMap (pl e) ["persistent_participant_runtime_evidence"].

(** The runtime row of the member, with the event and the evidence it is from. *)
Fixpoint runtime_row (memberID : string) (reversed : list EventEnvelope) : option (EventEnvelope * payload * payload) :=
  match reversed with
  | [] => None
  | e :: rest =>
      match runtime_evidence_of e with
      | None => runtime_row memberID rest
      | Some evidence =>
          match find_first (fun row => text_of row "member" == memberID) (selectedRunnerRuntimeEvidenceRows (evidence !! "members")) with
          | Some row => Some (e, evidence, row)
          | None => runtime_row memberID rest
          end
      end
  end.

Definition rehydrate_payload (sessionID memberID cursor handle eventID producer : string) (generation : Z) : payload :=
  {[ "session_id" := AStr (trim_space sessionID); "member" := AStr memberID; "cursor" := AStr cursor; "ack_cursor" := AStr cursor;
     "participant_handle" := AStr handle; "expected_handle" := AStr handle; "generation" := AInt generation;
     "expected_generation" := AInt generation; "source_event_ids" := AList [AStr eventID];
     "rehydrate_source" := AStr "persistent_participant_runtime_evidence"; "producer_event_id" := AStr producer ]}.

Definition or_else (s fallback : string) : string := if s == "" then fallback else s.

(** Nothing when the row of the member is whole and points into the log: the
    runtime of the member is up to date. *)
Definition selectedRunnerPersistentRuntimeRehydratePayload (sessionID : string) (ix : LogIndex) (speakerEventID memberID : string)
    : option payload :=
  let memberID := trim_space memberID in
  let earlier := List.filter (fun e => trim_space (ev_event_id e) != trim_space speakerEventID) (rev (ix_events ix)) in
  if memberID == "" then None
  else
    match runtime_row memberID earlier with
    | Some (e, evidence, row) =>
        let cursor := trim_space (anyString row ["last_cursor"; "coverage_cursor"]) in
        let eventID := or_else (text_of row "last_event_id") (or_else (text_of evidence "speech_event_id") (ev_event_id e)) in
        let handle := trim_space (anyString row ["participant_session_handle"; "handle"]) in
        let generation := any_int row ["participant_session_generation"; "generation"] in
        let p := rehydrate_payload sessionID memberID cursor handle eventID (ev_event_id e) generation in
        if (cursor == "") || (handle == "") || (generation <=? 0) then Some p
        else
          match ParseCursor cursor with
          | Err _ => Some p
          | Ok (_, cursorEventID) =>
              if selectedRunnerCursorResolves ix cursor && selectedRunnerEventIDResolves ix eventID &&
                 (trim_space eventID == trim_space cursorEventID)
              then None else Some p
          end
    | None =>
        if existsb (fun e => match runtime_evidence_of e with Some _ => true | None => false end) earlier then
          Some {[ "session_id" := AStr (trim_space sessionID); "member" := AStr memberID;
                  "rehydrate_source" := AStr "persistent_participant_runtime_evidence_missing_member_row";
                  "source_event_ids" := AList [] ]}
        else None
    end.

(** The reference to rehydrate from, when rehydration is required: none there means
    that it is missing. *)
Definition selectedRunnerRehydratePayload (md : SessionMetadata) (ix : LogIndex) (e : EventEnvelope) (memberID : string)
    : option (option payload) :=
  if anyBool (pl e) ["participant_runtime_rehydrate_required"; "rehydrate_required"]
  then Some (anyMap (pl e) ["participant_runtime_rehydrate"])
  else Some <$> selectedRunnerPersistentRuntimeRehydratePayload (md_id md) ix (ev_event_id e) memberID.

Definition add_failures (l : list string) : list string := foldl appendUniqueString [] l.

Definition failure_when (b : bool) (text : string) : list string := if b then [text] else [].

Definition differs (got expected : string) : bool := (got == "") || (got != expected).

Definition rehydrate_failures (md : SessionMetadata) (ix : LogIndex) (p : payload) (memberID : string) : list string :=
  let cursor := text_of p "cursor" in
  let cursorEventID := match ParseCursor cursor with Ok (_, id) => if cursor == "" then "" else id | Err _ => "" end in
  let sourceIDs := prompt_strs p "source_event_ids" in
  let argueSourceIDs := prompt_strs p "argue_source_event_ids" in
  let generation := anyInt p "generation" in
  let expectedGeneration := anyInt p "expected_generation" in
  let known id := existsb (fun e => trim_space (ev_event_id e) == id) (ix_events ix) in
  let refs := existsb (fun id => trim_space id == cursorEventID) (sourceIDs ++ argueSourceIDs) in
  failure_when (differs (text_of p "session_id") (trim_space (md_id md))) "session_id_mismatch" ++
  failure_when (differs (text_of p "member") (trim_space memberID)) "member_mismatch" ++
  (if cursor == "" then ["cursor_missing"]
   else match ParseCursor cursor with
        | Err _ => ["cursor_malformed"]
        | Ok _ => failure_when (negb (selectedRunnerCursorResolves ix cursor)) "cursor_authority_mismatch"
        end) ++
  failure_when ((text_of p "ack_cursor" == "") || (cursor == "") || (text_of p "ack_cursor" != cursor)) "ack_cursor_mismatch" ++
  failure_when ((text_of p "participant_handle" == "") || (text_of p "expected_handle" == "") ||
                (text_of p "participant_handle" != text_of p "expected_handle")) "participant_handle_mismatch" ++
  failure_when ((generation <=? 0) || (expectedGeneration <=? 0) || negb (generation =? expectedGeneration)) "generation_mismatch" ++
  failure_when (match sourceIDs with [] => true | _ => false end) "source_event_ids_missing" ++
  failure_when (existsb (fun id => negb (known id)) sourceIDs) "source_event_id_unresolved" ++
  failure_when (existsb (fun id => negb (known id)) argueSourceIDs) "argue_source_event_id_unresolved" ++
  failure_when ((cursorEventID != "") && negb refs) "cursor_source_ref_mismatch".

Definition selectedRunnerRehydrateValidationFailures (md : SessionMetadata) (ix : LogIndex) (rehydrate : option payload)
    (memberID : string) : list string :=
  match rehydrate with
  | None => ["rehydrate_ref_missing"]
  | Some p => add_failures (rehydrate_failures md ix p memberID)
  end.

(** ** The envelope *)

Definition selectedRunnerDeltaSourceEventIDs (selected : string) (agenda prior : list string) : list string :=
  foldl appendUniqueString (appendUniqueString [] selected) (agenda ++ prior).

Definition selectedRunnerRehydrateSourceEventIDs (prior own latest index : list string) (rehydrate : option payload) : list string :=
  let p := default ∅ rehydrate in
  foldl appendUniqueString [] (prior ++ own ++ latest ++ index ++ prompt_strs p "source_event_ids" ++ prompt_strs p "argue_source_event_ids").

(** What is included, what is missing, and the context itself. *)
Record prompt_context := mk_context { pc_included : list string; pc_missing : list string; pc_payload : payload }.

Definition note_missing (key : string) (c : prompt_context) : prompt_context :=
  mk_context (pc_included c) (appendUniqueString (pc_missing c) key) (pc_payload c).

Definition include (key : string) (value : any) (c : prompt_context) : prompt_context :=
  mk_context (appendUniqueString (pc_included c) key) (pc_missing c) (<[key := value]> (pc_payload c)).

Definition addIncluded (key value : string) (c : prompt_context) : prompt_context :=
  if is_blank value then note_missing key c else include key (AStr value) c.

(** A text that is demanded when there is something to tell. *)
Definition demanded_text (present missing : bool) (key value : string) (c : prompt_context) : prompt_context :=
  if present then if is_blank value || missing then note_missing key c else include key (AStr value) c else c.

(** Steps in their order. *)
Definition run_steps (steps : list (prompt_context -> prompt_context)) (c : prompt_context) : prompt_context :=
  foldl (fun c step => step c) c steps.

Definition agenda_fields : list string := ["decision_question"; "success_criteria"; "out_of_scope_policy"].

Definition agenda_steps (agenda : option EventEnvelope) : list (prompt_context -> prompt_context) :=
  map (fun key => match agenda with
                  | None => note_missing key
                  | Some e => addIncluded key (selectedRunnerContextText (pl e) key)
                  end) agenda_fields.

Definition selection_turn (e : EventEnvelope) : Z :=
  let turn := default 0 (ev_turn e) in
  if turn =? 0 then anyInt (pl e) "turn" else turn.

(** The runtime statuses that never vary. *)
Definition fixed_context : payload :=
  {[ "stateless_fallback" := ABool false; "stateless_fallback_status" := AStr "disabled";
     "full_history_hot_prompt_status" := AStr "rejected"; "own_history_hot_prompt_status" := AStr "rejected" ]}.

Definition context_steps (md : SessionMetadata) (ix : LogIndex) (e : EventEnvelope) (m : Member)
    : list (prompt_context -> prompt_context) :=
  let events := ix_events ix in
  let turn := selection_turn e in
  let prior := boundedPriorPromptContext events (ev_event_id e) in
  let own := selectedMemberOwnHistoryContext events (ev_event_id e) (me_id m) in
  [addIncluded "session_id" (md_id md);
   addIncluded "selected_member" (trim_space (me_id m));
   if 0 <? turn then include "turn" (AInt turn) else note_missing "turn";
   addIncluded "causation_event_id" (trim_space (ev_event_id e));
   addIncluded "participant_runtime_mode" "persistent_delta";
   addIncluded "hot_prompt_strategy" "delta_only";
   addIncluded "role_assignment" (trim_space (me_role m));
   addIncluded "stance_assignment" (selectedRunnerStanceAssignment e);
   addIncluded "required_response_schema" selectedRunnerRequiredResponseSchema;
   addIncluded "missing_context_instruction" selectedRunnerMissingContextInstruction] ++
  agenda_steps (latestAgendaLockedBeforeSelected events (ev_event_id e)) ++
  [demanded_text (pr_has_speech prior) (pr_speech_missing prior) "prior_speech_context" (pr_speech prior);
   demanded_text (pr_has_claims prior) (pr_claims_missing prior) "prior_claim_context" (pr_claims prior);
   if pr_has_claims prior then addIncluded "argue_stance_rule" selectedRunnerArgueRule else id;
   demanded_text (oh_has_speeches own) (oh_speeches_missing own) "selected_member_prior_speeches" (oh_speeches own);
   demanded_text (oh_has_claims own) (oh_latest_missing own) "selected_member_latest_claims" (oh_latest own);
   demanded_text (oh_has_claims own) (oh_index_missing own) "selected_member_claim_index" (oh_index own)].

Definition prompt_keys : list string :=
  ["session_id"; "speaker_selected_event_id"; "selected_member"; "role_assignment"; "stance_assignment"; "turn";
   "causation_event_id"; "participant_runtime_mode"; "hot_prompt_strategy"; "stateless_fallback"; "stateless_fallback_status";
   "full_history_hot_prompt_status"; "own_history_hot_prompt_status"; "delta_source_event_ids"; "rehydrate_source_event_ids";
   "rehydrate_validation_status"; "rehydrate_validation_failures"; "runtime_block_status"; "runtime_block_reason";
   "decision_question"; "success_criteria"; "out_of_scope_policy"; "required_response_schema"; "prior_speech_context";
   "prior_claim_context"; "selected_member_prior_speeches"; "selected_member_latest_claims"; "selected_member_claim_index";
   "argue_stance_rule"; "missing_context_instruction"].

(** A value of the context as [%v] prints it; a nil list is one of no strings. *)
Definition context_text (v : any) : string :=
  match v with
  | ANil => "[]"
  | _ => sprint v
  end.

Definition selectedRunnerPromptFromContext (p : payload) : string :=
  trim_space
    ("ATN council selected-runner prompt envelope" +:+ nl +:+
     String.concat "" (map (fun key => match p !! key with Some v => key +:+ ": " +:+ context_text v +:+ nl | None => "" end) prompt_keys) +:+
     "Return only a typed speech JSON object and do not emit wrapper logs or prose outside the JSON object." +:+ nl).

Definition excerpt_ids (key : string) (l : list string) : string :=
  match l with
  | [] => ""
  | _ => key +:+ "=" +:+ mustCompactJSON (AStrs l) +:+ nl
  end.

Definition selectedRunnerRedactedPromptExcerpt (e : SelectedRunnerPromptEvidence) : string :=
  let line key value := key +:+ "=" +:+ value +:+ nl in
  trim_space
    (line "speaker_selected_event_id" (pe_selected_event e) +:+ line "selected_member" (pe_member e) +:+
     line "turn" (itoa (pe_turn e)) +:+ line "result" (pe_result e) +:+ line "participant_runtime_mode" (pe_mode e) +:+
     line "hot_prompt_strategy" (pe_strategy e) +:+ line "stateless_fallback" (json_bool (pe_fallback e)) +:+
     line "full_history_hot_prompt_status" (pe_full_history e) +:+ line "own_history_hot_prompt_status" (pe_own_history_status e) +:+
     line "rehydrate_validation_status" (pe_rehydrate_status e) +:+ line "runtime_block_status" (pe_block_status e) +:+
     line "included_context" (mustCompactJSON (strs_or_nil (pe_included e))) +:+
     line "missing_required_context" (mustCompactJSON (strs_or_nil (pe_missing e))) +:+
     excerpt_ids "agenda_source_event_ids" (pe_agenda e) +:+ excerpt_ids "prior_context_source_event_ids" (pe_prior e) +:+
     excerpt_ids "own_history_source_event_ids" (pe_own_history e) +:+
     excerpt_ids "own_latest_claim_source_event_ids" (pe_own_latest e) +:+
     excerpt_ids "own_claim_index_source_event_ids" (pe_own_index e)).

(** The prompt and what is recorded about it. *)
Record prompt_envelope := mk_envelope { en_prompt : string; en_evidence : SelectedRunnerPromptEvidence }.

(** The last entries of the context, which repeat the evidence. *)
Definition evidence_context (e : SelectedRunnerPromptEvidence) : payload :=
  list_to_map
    [("included_context", strs_or_nil (pe_included e)); ("missing_required_context", strs_or_nil (pe_missing e));
     ("agenda_source_event_ids", strs_or_nil (pe_agenda e)); ("prior_context_source_event_ids", strs_or_nil (pe_prior e));
     ("own_history_source_event_ids", strs_or_nil (pe_own_history e));
     ("own_latest_claim_source_event_ids", strs_or_nil (pe_own_latest e));
     ("own_claim_index_source_event_ids", strs_or_nil (pe_own_index e)); ("delta_source_event_ids", strs_or_nil (pe_delta e));
     ("rehydrate_source_event_ids", strs_or_nil (pe_rehydrate e)); ("rehydrate_validation_status", AStr (pe_rehydrate_status e));
     ("rehydrate_validation_failures", strs_or_nil (pe_rehydrate_failures e)); ("runtime_block_status", AStr (pe_block_status e));
     ("runtime_block_reason", AStr (pe_block_reason e)); ("selected_member", AStr (pe_member e));
     ("speaker_selected_event_id", AStr (pe_selected_event e)); ("result", AStr (pe_result e))].

Definition digest_evidence (e : SelectedRunnerPromptEvidence) (context : payload) : SelectedRunnerPromptEvidence :=
  let with_digest sha excerpt :=
    mk_prompt_evidence (pe_session e) (pe_selected_event e) (pe_member e) (pe_turn e) (pe_causation e) (pe_result e) (pe_included e)
      (pe_missing e) (pe_agenda e) (pe_prior e) (pe_own_history e) (pe_own_latest e) (pe_own_index e) (pe_mode e) (pe_strategy e)
      (pe_delta e) (pe_rehydrate e) (pe_rehydrate_status e) (pe_rehydrate_failures e) (pe_fallback e) (pe_fallback_status e)
      (pe_full_history e) (pe_own_history_status e) (pe_block_status e) (pe_block_reason e) sha excerpt in
  with_digest (sha256_hex (json_text (AMap context))) (selectedRunnerRedactedPromptExcerpt e).

(** The failures of the rehydration, when one is required. *)
Definition rehydrate_outcome (md : SessionMetadata) (ix : LogIndex) (e : EventEnvelope) (m : Member) : option (list string) :=
  (fun rehydrate => selectedRunnerRehydrateValidationFailures md ix rehydrate (me_id m)) <$>
  selectedRunnerRehydratePayload md ix e (me_id m).

Definition prompt_evidence (md : SessionMetadata) (ix : LogIndex) (e : EventEnvelope) (m : Member)
    : SelectedRunnerPromptEvidence * payload :=
  let events := ix_events ix in
  let id := ev_event_id e in
  let c := run_steps (context_steps md ix e m) (mk_context [] [] fixed_context) in
  let agenda := match latestAgendaLockedBeforeSelected events id with Some a => appendUniqueString [] (ev_event_id a) | None => [] end in
  let prior := foldl appendUniqueString [] (pr_sources (boundedPriorPromptContext events id)) in
  let own := selectedMemberOwnHistoryContext events id (me_id m) in
  let history := foldl appendUniqueString [] (oh_history_ids own) in
  let latest := foldl appendUniqueString [] (oh_latest_ids own) in
  let index_ids := foldl appendUniqueString [] (oh_index_ids own) in
  let outcome := rehydrate_outcome md ix e m in
  let rehydrate := match selectedRunnerRehydratePayload md ix e (me_id m) with Some p => p | None => None end in
  let failures := default [] outcome in
  let failed := match failures with [] => false | _ => true end in
  let c' := if failed then note_missing "rehydrate_identity_validation" c else c in
  (mk_prompt_evidence (md_id md) (trim_space id) (trim_space (me_id m)) (selection_turn e) (trim_space id)
     (match pc_missing c' with [] => "pass" | _ => "blocked" end) (pc_included c') (pc_missing c') agenda prior history latest index_ids
     "persistent_delta" "delta_only" (selectedRunnerDeltaSourceEventIDs (trim_space id) agenda prior)
     (selectedRunnerRehydrateSourceEventIDs prior history latest index_ids rehydrate)
     (match outcome with None => "not_required_hot_delta" | Some _ => if failed then "failed" else "validated" end) failures
     false "disabled" "rejected" "rejected" (if failed then "blocked_rehydrate_failed" else "not_blocked")
     (if failed then "rehydrate_identity_validation_failed" else "") "" "",
   pc_payload c').

Definition BuildSelectedRunnerPromptEnvelope (md : SessionMetadata) (ix : LogIndex) (e : EventEnvelope) (m : Member)
    : result error prompt_envelope :=
  ensure ev_type e == "speaker_selected" or
    NewValidationError CategoryInvalidEnvelope "type" "selected-runner prompt evidence requires speaker_selected event";;
  let '(ev, entries) := prompt_evidence md ix e m in
  let context := evidence_context ev ∪ entries in
  Ok (mk_envelope (selectedRunnerPromptFromContext context) (digest_evidence ev context)).
