(* ===== verification/PromptTheory.v ===== *)
(** * Correctness of the prompt

    A prompt passes exactly when its context is complete, and the runtime
    evidence that the daemon attaches to speeches itself never blocks the next
    speaker. *)

From S2P Require Import Prelude GoValue GoTime Model Ids Sha256 Evidence Events EventLog Registry Closeout Lifecycle ArgumentGraph SelectedRunner PromptEvidence PromptBuilder Fixtures.

(** ** A complete context *)

(** A claim that can be quoted, as can all of its speech. *)
Definition quotable (s : selectedRunnerPromptSource) : Prop := forall c, c ∈ sr_claims s -> is_Some (prompt_claim c).

Record complete_context (md : SessionMetadata) (ix : LogIndex) (e : EventEnvelope) (m : Member) : Prop := mk_complete {
  co_session : is_blank (md_id md) = false;
  co_member : is_blank (me_id m) = false;
  co_turn : 0 < selection_turn e;
  co_event : is_blank (ev_event_id e) = false;
  co_role : is_blank (me_role m) = false;
  co_stance : selectedRunnerStanceAssignment e <> "";
  co_agenda : exists a, latestAgendaLockedBeforeSelected (ix_events ix) (ev_event_id e) = Some a /\
    forall key, key ∈ agenda_fields -> is_blank (selectedRunnerContextText (pl a) key) = false;
  co_prior : forall s, s ∈ selectedRunnerPromptSourcesBeforeSelected (ix_events ix) (ev_event_id e) selectedRunnerPromptContextWindow "" ->
    is_blank (sr_speech s) = false /\ quotable s;
  co_own : forall s, s ∈ selectedRunnerPromptSourcesBeforeSelected (ix_events ix) (ev_event_id e) 0 (me_id m) ->
    selectedRunnerSourceHasRequiredProvenance s = true /\ quotable s;
  co_runtime : default [] (rehydrate_outcome md ix e m) = [] }.

(** *** Steps that miss something *)

(** The step misses nothing exactly when [P]. *)
Definition demands (step : prompt_context -> prompt_context) (P : Prop) : Prop :=
  forall c, pc_missing (step c) = [] <-> pc_missing c = [] /\ P.

Lemma append_unique_nonempty l v : trim_space v <> "" -> appendUniqueString l v <> [].
Proof.
  intros Hv. unfold appendUniqueString. cbv zeta. destruct (String.eqb_spec (trim_space v) ""); [done|]. cbn [orb].
  destruct (mem_str (trim_space v) l) eqn:E; [by destruct l|by destruct l].
Qed.

Lemma demands_missing key : trim_space key <> "" -> demands (note_missing key) False.
Proof. intros Hk c. cbn. split; [intros H|by intros [_ ?]]. by destruct (append_unique_nonempty (pc_missing c) key). Qed.

Lemma demands_include key v : demands (include key v) True.
Proof. intros c. cbn. tauto. Qed.

Lemma demands_included key value : trim_space key <> "" -> demands (addIncluded key value) (is_blank value = false).
Proof.
  intros Hk c. unfold addIncluded. destruct (is_blank value); [rewrite (demands_missing key Hk c)|rewrite (demands_include key _ c)]; naive_solver.
Qed.

Lemma demands_text present missing key value : trim_space key <> "" ->
  demands (demanded_text present missing key value) (present = true -> is_blank value = false /\ missing = false).
Proof.
  intros Hk c. unfold demanded_text. destruct present; [|naive_solver].
  destruct (is_blank value), missing; cbn [orb]; rewrite ?(demands_missing key Hk c), ?(demands_include key _ c); naive_solver.
Qed.

Lemma demands_id : demands id True.
Proof. intros c. cbn. tauto. Qed.

Lemma run_steps_missing steps P c :
  Forall2 demands steps P -> (pc_missing (run_steps steps c) = [] <-> pc_missing c = [] /\ Forall (fun p => p) P).
Proof.
  unfold run_steps. intros H. revert c. induction H as [|step p steps P Hs _ IH]; intros c; cbn [foldl].
  - split; [by intros H; split; [|constructor]|by intros [H _]].
  - rewrite IH, (Hs c), Forall_cons. tauto.
Qed.

(** *** The texts of a history *)

Definition is_equals (a : Ascii.ascii) : bool := is_byte 61 a.

Lemma equals_nonblank s : any_char is_equals s = true -> is_blank s = false.
Proof.
  intros H. unfold is_blank. apply String.eqb_neq. intros E.
  assert (Hk : any_char is_equals (trim_space s) = any_char is_equals s) by (apply trim_space_keeps; repeat (constructor; [done|]); constructor).
  by rewrite E, H in Hk.
Qed.

Lemma any_char_join p sep l x : x ∈ l -> any_char p x = true -> any_char p (join sep l) = true.
Proof.
  induction l as [|y l IH]; [by intros ?%elem_of_nil|]. intros [->|Hx]%elem_of_cons Hp.
  - destruct l as [|z l]; [done|]. change (join sep (y :: z :: l)) with (y +:+ sep +:+ join sep (z :: l)). by rewrite any_char_app, Hp.
  - destruct l as [|z l]; [by apply elem_of_nil in Hx|]. change (join sep (y :: z :: l)) with (y +:+ sep +:+ join sep (z :: l)).
    rewrite !any_char_app, IH by done. by rewrite !orb_true_r.
Qed.

Lemma lines_nonblank l x : x ∈ l -> any_char is_equals x = true -> is_blank (join nl l) = false.
Proof. intros Hx Hp. apply equals_nonblank. by eapply any_char_join. Qed.

Lemma no_claims_quotable s : has_claims s = false -> quotable s.
Proof. unfold has_claims, quotable. destruct (sr_claims s); [|done]. intros _ c ?%elem_of_nil. done. Qed.

Lemma malformed_iff s : has_claims s = true -> ((selectedRunnerClaimsForSource s).2 = false <-> quotable s).
Proof.
  unfold has_claims, selectedRunnerClaimsForSource, quotable. destruct (sr_claims s) as [|c cs] eqn:E; [done|]. intros _. cbn [snd].
  rewrite orb_false_iff. split.
  - intros [Hex _] x Hx. destruct (prompt_claim x) eqn:Hp; [by eexists|]. exfalso. apply not_true_iff_false in Hex. apply Hex.
    apply List.existsb_exists. exists x. split; [by apply list_elem_of_In|]. by rewrite Hp.
  - intros H. split.
    + apply not_true_iff_false. intros (x & Hx & Hp)%List.existsb_exists. apply list_elem_of_In in Hx. destruct (H x Hx) as [y Hy]. by rewrite Hy in Hp.
    + destruct (H c (list_elem_of_here _ _)) as [y Hy]. cbn. by rewrite Hy.
Qed.

Lemma quotable_claims s : has_claims s = true -> quotable s ->
  exists c cs, selectedRunnerClaimsForSource s = (c :: cs, false).
Proof.
  intros Hc Hq. pose proof (proj2 (malformed_iff s Hc) Hq) as Hm. unfold has_claims, selectedRunnerClaimsForSource, quotable in *.
  destruct (sr_claims s) as [|c cs]; [done|]. cbn [snd] in Hm. rewrite Hm. destruct (Hq c (list_elem_of_here _ _)) as [y Hy].
  cbn. rewrite Hy. eauto.
Qed.

Lemma unusable_iff s : claims_unusable s = false <-> quotable s.
Proof.
  destruct (has_claims s) eqn:Hc.
  - unfold claims_unusable. unfold has_claims in Hc. destruct (sr_claims s) as [|x xs] eqn:E; [done|].
    assert (Hc' : has_claims s = true) by (unfold has_claims; by rewrite E). split.
    + intros H. apply (malformed_iff s Hc'). by destruct (selectedRunnerClaimsForSource s) as [[|c cs] []].
    + intros (c & cs & ->)%quotable_claims; done.
  - split; [by intros _; apply no_claims_quotable|]. intros _. unfold claims_unusable. unfold has_claims in Hc. by destruct (sr_claims s).
Qed.

Lemma existsb_false {A} (f : A -> bool) l : existsb f l = false <-> forall x, x ∈ l -> f x = false.
Proof.
  split.
  - intros H x Hx. apply not_true_iff_false. intros Hf. apply not_true_iff_false in H. apply H. apply List.existsb_exists.
    exists x. split; [by apply list_elem_of_In|done].
  - intros H. apply not_true_iff_false. intros (x & Hx & Hf)%List.existsb_exists. apply list_elem_of_In in Hx. by rewrite H in Hf.
Qed.

(** What was said before is demanded whole. *)
Lemma prior_demand events id :
  let prior := selectedRunnerPromptSourcesBeforeSelected events id selectedRunnerPromptContextWindow "" in
  let p := boundedPriorPromptContext events id in
  ((pr_has_speech p = true -> is_blank (pr_speech p) = false /\ pr_speech_missing p = false) /\
   (pr_has_claims p = true -> is_blank (pr_claims p) = false /\ pr_claims_missing p = false)) <->
  forall s, s ∈ prior -> is_blank (sr_speech s) = false /\ quotable s.
Proof.
  cbv zeta. unfold boundedPriorPromptContext. cbn [pr_has_speech pr_speech pr_speech_missing pr_has_claims pr_claims pr_claims_missing].
  set (prior := selectedRunnerPromptSourcesBeforeSelected _ _ _ _). rewrite !existsb_false. split.
  - intros [Hs Hc] s Hin. split.
    + apply Hs; [by destruct prior; [apply elem_of_nil in Hin|]|done].
    + destruct (has_claims s) eqn:E; [|by apply no_claims_quotable]. apply unusable_iff, Hc; [|done].
      apply List.existsb_exists. exists s. split; [by apply list_elem_of_In|done].
  - intros H. split.
    + destruct prior as [|s rest]; [done|]. intros _. destruct (H s (list_elem_of_here _ _)) as [Hs _]. split; [|intros; by apply H].
      eapply lines_nonblank; [apply list_elem_of_In, List.in_concat; exists (speech_line s); split; [apply in_map; by left|unfold speech_line; rewrite Hs; by left]|reflexivity].
    + intros (s & Hin & Hc)%List.existsb_exists. apply list_elem_of_In in Hin. split; [|intros; by apply unusable_iff, H].
      destruct (quotable_claims s Hc (proj2 (H s Hin))) as (c & cs & Hq).
      assert (Hl : claims_line s = ["event=" +:+ sr_event s +:+ " claims=" +:+ join "; " (map claim_text (c :: cs))]).
      { unfold claims_line. unfold has_claims in Hc. destruct (sr_claims s); [done|]. by rewrite Hq. }
      eapply lines_nonblank; [apply list_elem_of_In, List.in_concat; exists (claims_line s); split|].
      * apply in_map. by apply list_elem_of_In.
      * rewrite Hl. by left.
      * reflexivity.
Qed.

(** *** The history of the member *)

Definition own_good (s : selectedRunnerPromptSource) : Prop := selectedRunnerSourceHasRequiredProvenance s = true /\ quotable s.

Definition claims_bad (s : selectedRunnerPromptSource) : bool :=
  has_claims s && (negb (selectedRunnerSourceHasRequiredProvenance s) || (selectedRunnerClaimsForSource s).2).

Lemma own_flags l :
  let o := foldl history_step nothing_said l in
  os_claims o = existsb has_claims l /\ os_speeches_missing o = existsb (fun s => negb (selectedRunnerSourceHasRequiredProvenance s)) l /\
  os_index_missing o = existsb claims_bad l.
Proof.
  induction l as [|s l IH] using rev_ind; [done|]. cbv zeta. rewrite foldl_snoc, !existsb_app. cbn [existsb].
  destruct IH as (Hc & Hs & Hi). rewrite <- Hc, <- Hs, <- Hi. set (o := foldl history_step nothing_said l).
  unfold history_step, claims_bad. cbv zeta. destruct (selectedRunnerSourceHasRequiredProvenance s) eqn:Hp, (has_claims s) eqn:Hh; cbn [negb andb orb].
  - destruct (selectedRunnerClaimsForSource s) as [[|c cs] []] eqn:E; cbn; rewrite ?orb_true_r, ?orb_false_r; try done.
  - cbn. by rewrite !orb_false_r.
  - cbn. by rewrite !orb_true_r.
  - cbn. by rewrite !orb_true_r, !orb_false_r.
Qed.

(** With good speeches only, everything is quoted. *)
Lemma own_texts l :
  (forall s, s ∈ l -> own_good s) ->
  let o := foldl history_step nothing_said l in
  (l <> [] -> exists x, x ∈ os_speeches o /\ any_char is_equals x = true) /\
  (os_claims o = true -> os_latest_event o <> "" /\ exists x, x ∈ os_index o /\ any_char is_equals x = true).
Proof.
  induction l as [|s l IH] using rev_ind; [done|]. intros Hgood. cbv zeta. rewrite foldl_snoc.
  destruct IH as [_ IHc]; [intros; apply Hgood; set_solver|]. set (o := foldl history_step nothing_said l) in *.
  destruct (Hgood s) as [Hp Hq]; [set_solver|]. unfold history_step. cbv zeta. rewrite Hp. cbn [negb].
  destruct (has_claims s) eqn:Hh; cbn [negb].
  - destruct (quotable_claims s Hh Hq) as (c & cs & ->). cbn [os_speeches os_claims os_latest_event os_index]. split.
    + intros _. eexists. split; [apply elem_of_app; right; by left|done].
    + intros _. split.
      * unfold selectedRunnerSourceHasRequiredProvenance in Hp. rewrite !andb_true_iff in Hp. destruct Hp as [[[Hp _] _] _].
        intros Hempty. by rewrite Hempty in Hp.
      * eexists. split; [apply elem_of_app; right; by left|done].
  - cbn [os_speeches os_claims os_latest_event os_index]. split.
    + intros _. eexists. split; [apply elem_of_app; right; by left|done].
    + by rewrite orb_false_r.
Qed.

(** What the member said itself is demanded whole. *)
Lemma own_demand events id memberID :
  let own := selectedRunnerPromptSourcesBeforeSelected events id 0 memberID in
  let c := selectedMemberOwnHistoryContext events id memberID in
  ((oh_has_speeches c = true -> is_blank (oh_speeches c) = false /\ oh_speeches_missing c = false) /\
   (oh_has_claims c = true -> is_blank (oh_latest c) = false /\ oh_latest_missing c = false) /\
   (oh_has_claims c = true -> is_blank (oh_index c) = false /\ oh_index_missing c = false)) <->
  forall s, s ∈ own -> own_good s.
Proof.
  cbv zeta. unfold selectedMemberOwnHistoryContext. set (own := selectedRunnerPromptSourcesBeforeSelected _ _ _ _).
  destruct own as [|s0 rest] eqn:Hown; [cbn; split; [intros _ s ?%elem_of_nil|]; done|]. rewrite <- Hown.
  pose proof (own_flags own) as (Hc & Hs & Hi). cbv zeta in *. pose proof (own_texts own) as Ht. cbv zeta in Ht.
  set (o := foldl history_step nothing_said own) in *.
  cbn [oh_has_speeches oh_speeches oh_speeches_missing oh_has_claims oh_latest oh_latest_missing oh_index oh_index_missing].
  rewrite Hs, Hi, Hc. split.
  - intros (H1 & _ & H3). destruct (H1 eq_refl) as [_ Hprov]. rewrite existsb_false in Hprov. intros s Hin. split; [by apply negb_false_iff, Hprov|].
    destruct (has_claims s) eqn:E; [|by apply no_claims_quotable]. destruct H3 as [_ Hbad].
    { apply List.existsb_exists. exists s. split; [by apply list_elem_of_In|done]. }
    apply orb_false_iff in Hbad as [Hbad _]. rewrite existsb_false in Hbad. specialize (Hbad s Hin). unfold claims_bad in Hbad.
    rewrite E in Hbad. cbn in Hbad. apply orb_false_iff in Hbad as [_ Hm]. by apply malformed_iff.
  - intros Hgood. destruct (Ht Hgood) as [Hsp Hcl].
    assert (Hbad : existsb claims_bad own = false).
    { apply existsb_false. intros s Hin. destruct (Hgood s Hin) as [Hp Hq]. unfold claims_bad. rewrite Hp. cbn.
      destruct (has_claims s) eqn:E; [|done]. by apply malformed_iff. }
    rewrite Hbad. cbn [orb]. rewrite Hc in Hcl. split; [|split].
    + intros _. destruct Hsp as (x & Hx & Hl); [by rewrite Hown|]. split; [by eapply lines_nonblank|].
      apply existsb_false. intros s Hin. apply negb_false_iff. by apply Hgood.
    + intros He. rewrite He in *. destruct (Hcl eq_refl) as [Hl _]. apply String.eqb_neq in Hl. rewrite Hl. split; [|done].
      by apply equals_nonblank.
    + intros He. rewrite He in *. destruct (Hcl eq_refl) as (_ & x & Hx & Hl). destruct (os_index o) as [|y ys] eqn:Ho; [by apply elem_of_nil in Hx|].
      split; [|done]. by eapply lines_nonblank.
Qed.

(** ** Completeness *)

Definition step_demands (md : SessionMetadata) (ix : LogIndex) (e : EventEnvelope) (m : Member) : list Prop :=
  let events := ix_events ix in
  let prior := boundedPriorPromptContext events (ev_event_id e) in
  let own := selectedMemberOwnHistoryContext events (ev_event_id e) (me_id m) in
  let nonblank s := is_blank s = false in
  [nonblank (md_id md); nonblank (trim_space (me_id m)); 0 < selection_turn e; nonblank (trim_space (ev_event_id e)); True; True;
   nonblank (trim_space (me_role m)); nonblank (selectedRunnerStanceAssignment e); True; True] ++
  map (fun key => exists a, latestAgendaLockedBeforeSelected events (ev_event_id e) = Some a /\
                            nonblank (selectedRunnerContextText (pl a) key)) agenda_fields ++
  [pr_has_speech prior = true -> nonblank (pr_speech prior) /\ pr_speech_missing prior = false;
   pr_has_claims prior = true -> nonblank (pr_claims prior) /\ pr_claims_missing prior = false;
   True;
   oh_has_speeches own = true -> nonblank (oh_speeches own) /\ oh_speeches_missing own = false;
   oh_has_claims own = true -> nonblank (oh_latest own) /\ oh_latest_missing own = false;
   oh_has_claims own = true -> nonblank (oh_index own) /\ oh_index_missing own = false].

Lemma demands_iff step (P Q : Prop) : (P <-> Q) -> demands step P -> demands step Q.
Proof. intros HPQ H c. rewrite (H c). tauto. Qed.

Lemma demands_text_given key value : trim_space key <> "" -> is_blank value = false -> demands (addIncluded key value) True.
Proof. intros Hk Hv. eapply demands_iff; [|by apply demands_included]. tauto. Qed.

Lemma demands_turn turn : demands (if 0 <? turn then include "turn" (AInt turn) else note_missing "turn") (0 < turn).
Proof.
  destruct (Z.ltb_spec 0 turn); [eapply demands_iff; [|apply demands_include]; tauto|].
  eapply demands_iff; [|by apply demands_missing]. split; [done|lia].
Qed.

Lemma demands_agenda (agenda : option EventEnvelope) key : trim_space key <> "" ->
  demands (match agenda with None => note_missing key | Some e => addIncluded key (selectedRunnerContextText (pl e) key) end)
    (exists a, agenda = Some a /\ is_blank (selectedRunnerContextText (pl a) key) = false).
Proof.
  intros Hk. destruct agenda as [a|].
  - eapply demands_iff; [|by apply demands_included]. split; [intros H; by exists a|by intros (a' & [= <-] & ?)].
  - eapply demands_iff; [|by apply demands_missing]. split; [done|by intros (? & ? & _)].
Qed.

Lemma demands_rule (b : bool) : demands (if b then addIncluded "argue_stance_rule" selectedRunnerArgueRule else id) True.
Proof. destruct b; [by apply demands_text_given|apply demands_id]. Qed.

Lemma context_demands md ix e m : Forall2 demands (context_steps md ix e m) (step_demands md ix e m).
Proof.
  unfold context_steps, step_demands. cbv zeta. cbn [app map agenda_steps agenda_fields].
  repeat (apply List.Forall2_cons;
    [first [apply demands_turn | by apply demands_agenda | apply demands_rule | by apply demands_text | by apply demands_included |
            by apply demands_text_given]|]).
  constructor.
Qed.

Lemma blank_trimmed s : is_blank (trim_space s) = is_blank s.
Proof. unfold is_blank. by rewrite trim_space_idemp. Qed.

(** Nothing is missing exactly when the context is complete. *)
Lemma nothing_missing md ix e m :
  pe_missing (prompt_evidence md ix e m).1 = [] <-> complete_context md ix e m.
Proof.
  unfold prompt_evidence. cbv zeta. cbn [fst pe_missing].
  pose proof (run_steps_missing _ _ (mk_context [] [] fixed_context) (context_demands md ix e m)) as H. cbn [pc_missing] in H.
  set (c := run_steps _ _) in *. destruct (default [] (rehydrate_outcome md ix e m)) as [|f fs] eqn:Hr.
  - rewrite H. unfold step_demands. cbv zeta. cbn [app map agenda_fields]. rewrite !Forall_cons, !blank_trimmed.
    pose proof (prior_demand (ix_events ix) (ev_event_id e)) as Hp. pose proof (own_demand (ix_events ix) (ev_event_id e) (me_id m)) as Ho.
    cbv zeta in Hp, Ho. unfold own_good in Ho. split.
    + intros (_ & ? & ? & ? & ? & _ & _ & ? & Hst & _ & _ & Ha1 & Ha2 & Ha3 & ? & ? & _ & ? & ? & ? & _). split; try done.
      * intros Hs. by rewrite Hs in Hst.
      * destruct Ha1 as (a & Ha & Hk1). exists a. split; [done|]. destruct Ha2 as (a2 & Ha' & Hk2), Ha3 as (a3 & Ha'' & Hk3).
        rewrite Ha in Ha', Ha''. injection Ha' as <-. injection Ha'' as <-. intros key Hkey.
        repeat (apply elem_of_cons in Hkey as [->|Hkey]; [done|]). by apply elem_of_nil in Hkey.
      * by apply Hp.
      * by apply Ho.
    + intros [? ? ? ? ? Hst (a & Ha & Hk) Hpr Hown _]. apply Hp in Hpr as [? ?]. apply Ho in Hown as (? & ? & ?).
      split; [done|]. repeat (split; [done|]). split.
      { unfold selectedRunnerStanceAssignment, is_blank in *. rewrite trim_space_idemp. by apply String.eqb_neq. }
      do 2 (split; [done|]). do 3 (split; [exists a; split; [done|]; apply Hk; unfold agenda_fields; set_solver|]). repeat (split; [done|]). constructor.
  - split; [|intros [_ _ _ _ _ _ _ _ _ Hc]; by rewrite Hr in Hc]. intros Hm. by apply (demands_missing "rehydrate_identity_validation") in Hm as [_ ?].
Qed.

Lemma envelope_result md ix e m envelope :
  BuildSelectedRunnerPromptEnvelope md ix e m = Ok envelope ->
  let ev := en_evidence envelope in
  (pe_result ev = "pass" <-> complete_context md ix e m) /\ (pe_result ev = "blocked" <-> pe_missing ev <> []) /\
  (pe_missing ev = [] <-> complete_context md ix e m).
Proof.
  intros H. unfold BuildSelectedRunnerPromptEnvelope in H. run_step H. pose proof (nothing_missing md ix e m) as Hm.
  destruct (prompt_evidence md ix e m) as [ev entries] eqn:He. injection H as <-. cbn [fst] in Hm. cbv zeta.
  cbn [en_evidence digest_evidence pe_result pe_missing].
  assert (Hr : pe_result ev = match pe_missing ev with [] => "pass" | _ => "blocked" end).
  { unfold prompt_evidence in He. cbv zeta in He. injection He as <- _. done. }
  rewrite Hr, <- Hm. destruct (pe_missing ev); split; [done|split; done|done|split; done].
Qed.

Lemma built_complete md ix e m envelope :
  BuildSelectedRunnerPromptEnvelope md ix e m = Ok envelope -> pe_result (en_evidence envelope) <> "blocked" -> complete_context md ix e m.
Proof.
  intros H Hr. destruct (envelope_result md ix e m envelope H) as (_ & Hb & Hm). apply Hm.
  destruct (pe_missing (en_evidence envelope)) as [|k ks] eqn:E; [done|]. exfalso. apply Hr, Hb. done.
Qed.

(** C30. A prompt passes exactly when its context is complete: the session, the
    member, its role, a positive turn and the stance of its raised hand are named,
    an agenda was locked before the selection with its question, criteria and
    policy, each of the last six speeches has a text and claims that can be
    quoted, each earlier speech of the member itself has its provenance too, and
    its runtime needs no rehydration or a valid one.  Otherwise the evidence is
    blocked, and names what is missing. *)
Theorem prompt_passes_iff_complete md ix e m envelope (H : BuildSelectedRunnerPromptEnvelope md ix e m = Ok envelope) :
  let ev := en_evidence envelope in
  (pe_result ev = "pass" <-> complete_context md ix e m) /\ (pe_result ev = "blocked" <-> pe_missing ev <> []) /\
  (pe_missing ev = [] <-> complete_context md ix e m).
Proof.
  by apply envelope_result.
Qed.

(** ** The runtime evidence of recorded speeches *)

Lemma scan_generation_pos sid member handle evs : 0 < scan_generation sid member handle evs.
Proof.
  assert (Hrows : forall rows g, first_generation sid member handle rows = Some g -> 0 < g).
  { intros rows g. induction rows as [|r rows IH]; [done|]. cbn. unfold row_generation.
    destruct r as [| | | | | | |row| |]; try done. destruct (_ && _) eqn:E; [|done]. intros [= <-].
    apply andb_true_iff in E as [_ E]. lia. }
  induction evs as [|e evs IH]; [done|]. cbn. unfold event_generation.
  destruct (pl e !! _) as [[| | | | | | |ev| |]|]; try done. destruct (ev !! "members") as [[| | | | | |rows| | |]|]; try done.
  destruct (first_generation sid member handle rows) eqn:E; [by eapply Hrows|done].
Qed.

Lemma filter_rev_app (f : EventEnvelope -> bool) l x tail :
  f x = true -> List.filter f (rev (l ++ [x] ++ tail)) = List.filter f (rev tail) ++ x :: List.filter f (rev l).
Proof.
  intros Hx. rewrite rev_app_distr, rev_app_distr, !List.filter_app. cbn. rewrite Hx. by rewrite <- app_assoc.
Qed.

Lemma runtime_row_skip memberID l rest :
  (forall y, y ∈ l -> runtime_evidence_of y = None) -> runtime_row memberID (l ++ rest) = runtime_row memberID rest.
Proof.
  induction l as [|y l IH]; intros H; [done|]. cbn [app runtime_row]. rewrite (H y (list_elem_of_here _ _)). apply IH. intros z Hz. apply H. by right.
Qed.

Lemma text_of_str p key s : p !! key = Some (AStr s) -> text_of p key = trim_space s.
Proof. intros H. unfold text_of, anyString. by rewrite H. Qed.

(** A row of the evidence, as it is read back. *)
Definition read_row (md : SessionMetadata) (ix : LogIndex) (e : EventEnvelope) (cursor member : string) : payload :=
  json_norm <$> evidence_row md ix e cursor member.

Lemma evidence_row_found md ix e cursor member :
  member ∈ councilMembers md -> trim_space member = member ->
  exists m, m ∈ councilMembers md /\
    find_first (fun row => text_of row "member" == member) (map (read_row md ix e cursor) (councilMembers md)) = Some (read_row md ix e cursor m).
Proof.
  intros Hin Ht. unfold find_first. destruct (List.find _ _) as [row|] eqn:E.
  - apply List.find_some in E as [(m & <- & Hm)%in_map_iff _]. exists m. split; [by apply list_elem_of_In|done].
  - eapply List.find_none in E; [|apply in_map, list_elem_of_In, Hin]. exfalso. apply not_true_iff_false in E. apply E.
    apply String.eqb_eq. rewrite (text_of_str _ _ member); [done|]. unfold read_row, evidence_row. cbv zeta. by destruct (is_blank _).
Qed.

Lemma all_chars_substring p n k s : all_chars p s = true -> all_chars p (String.substring n k s) = true.
Proof.
  revert n k. induction s as [|a s IH]; intros n k H; [by destruct n, k|]. cbn in H. apply andb_true_iff in H as [Ha Hs].
  destruct n, k; cbn; rewrite ?Ha; cbn; auto.
Qed.

Lemma all_chars_join p sep l : all_chars p sep = true -> Forall (fun s => all_chars p s = true) l -> all_chars p (join sep l) = true.
Proof.
  intros Hsep. induction 1 as [|s l Hs Hl IH]; [done|]. destruct l as [|s' l]; [done|].
  change (join sep (s :: s' :: l)) with (s +:+ sep +:+ join sep (s' :: l)). by rewrite !all_chars_app, Hs, Hsep, IH.
Qed.

Lemma sha256_hex_chars s : all_chars id_char (sha256_hex s) = true.
Proof.
  unfold sha256_hex. apply all_chars_join; [done|]. apply Forall_forall. intros w (x & -> & _)%list_elem_of_fmap.
  unfold hex_word. cbn [fold_right]. rewrite !all_chars_app. unfold hex_nibble.
  rewrite !all_chars_substring by done. done.
Qed.

Lemma id_chars_no_newline s : all_chars id_char s = true -> any_char (is_byte 10) s = false.
Proof.
  induction s as [|a s IH]; [done|]. cbn. intros [Ha Hs]%andb_true_iff. rewrite IH by done. rewrite orb_false_r.
  destruct (is_byte 10 a) eqn:E; [|done]. unfold is_byte in E. apply N.eqb_eq in E. unfold id_char, in_range in Ha.
  by rewrite E in Ha.
Qed.

Lemma handle_chars sid member : all_chars id_char (persistentParticipantHandle sid member) = true.
Proof.
  unfold persistentParticipantHandle. rewrite all_chars_app. by rewrite (all_chars_substring _ _ _ _ (sha256_hex_chars _)).
Qed.

Lemma any_rows_maps (l : list payload) : any_rows (map AMap l) = l.
Proof. unfold any_rows. induction l as [|m l IH]; [done|]. cbn. by rewrite IH. Qed.

Lemma evidence_recorded md ix e :
  ev_type e = "speech" -> is_Some (ev_payload e) ->
  runtime_evidence_of (appended md ix e) =
  Some (json_norm <$> persistentParticipantRuntimeEvidenceForSpeech md ix e (cursorFor (len_z (ix_events ix)) (ev_event_id e))).
Proof.
  intros Ht%String.eqb_eq [p Hp]. unfold runtime_evidence_of, appended. cbn [anyMap]. rewrite pl_norm, lookup_fmap.
  unfold prepareEventForAppend, attachPersistentParticipantRuntimeEvidence. rewrite Hp, Ht. unfold finish_event, pl.
  destruct (ev_correlation_id _ == ""); cbn; by rewrite lookup_insert_eq.
Qed.

Lemma recorded_row md ix e member rest :
  ev_type e = "speech" -> is_Some (ev_payload e) -> member ∈ councilMembers md -> trim_space member = member ->
  exists m evidence, m ∈ councilMembers md /\
    runtime_row member (appended md ix e :: rest) =
    Some (appended md ix e, evidence, read_row md ix e (cursorFor (len_z (ix_events ix)) (ev_event_id e)) m).
Proof.
  intros Ht Hp Hin Htrim. cbn [runtime_row]. rewrite (evidence_recorded _ _ _ Ht Hp). set (cursor := cursorFor _ _).
  destruct (evidence_row_found md ix e cursor member Hin Htrim) as (m & Hm & Hf). exists m. eexists. split; [done|].
  rewrite lookup_fmap. unfold persistentParticipantRuntimeEvidenceForSpeech at 1. cbv zeta.
  match goal with |- context [selectedRunnerRuntimeEvidenceRows ?v] =>
    change v with (Some (AList (map (fun m => AMap (json_norm <$> m)) (map (evidence_row md ix e cursor) (councilMembers md))))) end.
  cbn [selectedRunnerRuntimeEvidenceRows]. rewrite map_map, <- (map_map (read_row md ix e cursor) AMap), any_rows_maps, Hf. done.
Qed.

(** The runtime evidence of a recorded speech is up to date for everybody.
    After a speech was appended, and whatever follows it without evidence of its
    own, no member of the council needs a rehydration: the row of the member points
    to the speech, at its cursor in the log. *)
Theorem recorded_speech_is_current md ix e ix' tail member selected
    (Hspeech : ev_type e = "speech") (Hpayload : is_Some (ev_payload e))
    (Hlog : ix_events ix' = ix_events ix ++ [appended md ix e] ++ tail)
    (Htail : forall y, y ∈ tail -> runtime_evidence_of y = None)
    (Hid : all_chars id_char (ev_event_id e) = true) (Hne : ev_event_id e <> "")
    (Hsel : trim_space selected <> ev_event_id e)
    (Hsize : len_z (ix_events ix) < 10 ^ 12)
    (Hmember : member ∈ councilMembers md) (Htrim : trim_space member = member)
    (Hgen : forall m, m ∈ councilMembers md ->
      persistentParticipantGeneration ix (md_id md) m (persistentParticipantHandle (md_id md) m) <= 2 ^ 53) :
  selectedRunnerPersistentRuntimeRehydratePayload (md_id md) ix' selected member = None.
Proof.
  unfold selectedRunnerPersistentRuntimeRehydratePayload. cbv zeta. rewrite Htrim.
  destruct (member == ""); [done|]. rewrite Hlog.
  pose proof (appended_fields md ix e) as Hf. cbv zeta in Hf. destruct Hf as (Hi & _).
  rewrite filter_rev_app, runtime_row_skip.
  2: { intros y (Hy & _)%list_elem_of_In%filter_In. by apply Htail, list_elem_of_In, in_rev. }
  2: { rewrite Hi, (trim_space_id _ Hid). apply negb_true_iff, String.eqb_neq. congruence. }
  match goal with |- context [runtime_row member (_ :: ?rest)] =>
    destruct (recorded_row md ix e member rest Hspeech Hpayload Hmember Htrim) as (m & evidence & Hm & ->) end.
  set (cursor := cursorFor (len_z (ix_events ix)) (ev_event_id e)). set (row := read_row md ix e cursor m).
  assert (Hrow : row !! "last_cursor" = Some (AStr cursor) /\ row !! "last_event_id" = Some (AStr (ev_event_id e)) /\
    row !! "participant_session_generation" = None /\
    row !! "participant_session_handle" = Some (AStr (persistentParticipantHandle (md_id md) m)) /\
    row !! "generation" = Some (json_norm (AInt (persistentParticipantGeneration ix (md_id md) m (persistentParticipantHandle (md_id md) m))))).
  { unfold row, read_row, evidence_row. cbv zeta. by destruct (is_blank _). }
  destruct Hrow as (Hcur & Hlast & Hnog & Hhandle & Hg).
  assert (Hgen' : any_int row ["participant_session_generation"; "generation"] =
                  persistentParticipantGeneration ix (md_id md) m (persistentParticipantHandle (md_id md) m)).
  { cbn [any_int]. rewrite Hnog, Hg. cbn [json_norm]. rewrite as_int_float_of_int; [done|]. unfold persistentParticipantGeneration in *.
    pose proof (scan_generation_pos (md_id md) m (persistentParticipantHandle (md_id md) m) (rev (ix_events ix))). specialize (Hgen m Hm). lia. }
  assert (Hoff : 0 <= len_z (ix_events ix) < 10 ^ 12) by (unfold len_z in *; lia).
  assert (Hnl : any_char (is_byte 10) (ev_event_id e) = false) by (by apply id_chars_no_newline).
  cbn [anyString]. rewrite Hcur, Hhandle, Hgen', (text_of_str _ _ _ Hlast), (trim_space_id _ Hid).
  rewrite (trim_space_id cursor) by (by apply cursor_id_chars). rewrite (trim_space_id _ (handle_chars _ _)).
  replace (cursor == "") with false by (unfold cursor; by rewrite cursor_text).
  change (persistentParticipantHandle (md_id md) m == "") with false.
  pose proof (scan_generation_pos (md_id md) m (persistentParticipantHandle (md_id md) m) (rev (ix_events ix))) as Hpos.
  fold (persistentParticipantGeneration ix (md_id md) m (persistentParticipantHandle (md_id md) m)) in Hpos.
  replace (_ <=? 0) with false by lia. cbn [orb]. unfold or_else. apply String.eqb_neq in Hne as Hne'. rewrite Hne'.
  unfold selectedRunnerCursorResolves, selectedRunnerEventIDResolves. unfold cursor. rewrite parse_cursor_for by done.
  rewrite (trim_space_id _ Hid), String.eqb_refl, andb_true_r.
  assert (Hnth : nth_z (ix_events ix') (len_z (ix_events ix)) = Some (appended md ix e)).
  { unfold nth_z, len_z. destruct (Z.ltb_spec (Z.of_nat (length (ix_events ix))) 0); [lia|]. rewrite Nat2Z.id, Hlog.
    rewrite lookup_app_r by lia. by rewrite Nat.sub_diag. }
  rewrite Hnth, Hi, (trim_space_id _ Hid), String.eqb_refl. unfold is_blank. rewrite (trim_space_id _ Hid), Hne'. cbn [negb andb].
  replace (existsb _ _) with true; [done|]. symmetry. apply List.existsb_exists. exists (appended md ix e). split.
  - rewrite Hlog. apply in_or_app. right. by left.
  - by rewrite Hi, (trim_space_id _ Hid), String.eqb_refl.
Qed.

(** ** Concrete prompts *)

Definition px_agenda : EventEnvelope :=
  fx_event fx_council_md "agenda" "agenda_locked" "created" "mod" ["ann"]
    {[ "decision_question" := AStr "Ship?"; "success_criteria" := AList [AStr "a date"]; "out_of_scope_policy" := AStr "park" ]}.

Definition px_selected : EventEnvelope :=
  fx_event fx_council_md "grant" "speaker_selected" "discussion" "mod" ["ann"]
    {[ "member" := AStr "ann"; "turn" := AInt 2; "stance_assignment" := AStr "support" ]}.

Definition px_speech (claim : payload) : EventEnvelope :=
  fx_event fx_council_md "speech" "speech" "discussion" "ann" ["mod"]
    {[ "turn" := AInt 1; "speech" := AStr "We should ship."; "claims" := AList [AMap claim] ]}.

Definition px_claim : payload := {[ "claim_id" := AStr "c1"; "summary" := AStr "ship" ]}.
Definition px_ix (claim : payload) : LogIndex := fx_index [px_agenda; px_speech claim; px_selected].

Definition px_member : Member := mk_member "ann" "Ann" "ann.sh" "" "critic" true "hermes-agent" [] [] "" "" None "" None.

(** With a claim that has no summary the prompt is blocked. *)
Example px_prompts :
  map (fun claim => match BuildSelectedRunnerPromptEnvelope fx_council_md (px_ix claim) px_selected px_member with
                    | Ok en => (pe_result (en_evidence en), pe_missing (en_evidence en))
                    | Err _ => ("", [])
                    end) [px_claim; {[ "claim_id" := AStr "c1" ]}] =
  [("pass", []);
   ("blocked", ["prior_claim_context"; "selected_member_latest_claims"; "selected_member_claim_index"])].
Proof. vm_compute. reflexivity. Qed.

Definition px_envelope : prompt_envelope :=
  match BuildSelectedRunnerPromptEnvelope fx_council_md (px_ix px_claim) px_selected px_member with
  | Ok en => en
  | Err _ => mk_envelope "" px_evidence
  end.

Lemma prompt_passes_iff_complete_witness : complete_context fx_council_md (px_ix px_claim) px_selected px_member.
Proof.
  destruct (prompt_passes_iff_complete fx_council_md (px_ix px_claim) px_selected px_member px_envelope) as [[H _] _].
  - vm_compute. reflexivity.
  - apply H. vm_compute. reflexivity.
Defined.

Lemma recorded_speech_is_current_witness :
  selectedRunnerPersistentRuntimeRehydratePayload "sess_council"
    (fx_index (ix_events fx_ix0 ++ [appended fx_council_md fx_ix0 (px_speech px_claim); px_selected])) "evt_grant" "bob" = None.
Proof.
  apply (recorded_speech_is_current fx_council_md fx_ix0 (px_speech px_claim) _ [px_selected]).
  - reflexivity.
  - by eexists.
  - vm_compute. reflexivity.
  - intros y ->%list_elem_of_singleton. vm_compute. reflexivity.
  - vm_compute. reflexivity.
  - discriminate.
  - vm_compute. discriminate.
  - vm_compute. reflexivity.
  - apply list_elem_of_In. vm_compute. auto.
  - vm_compute. reflexivity.
  - intros m Hm. apply list_elem_of_In in Hm. vm_compute in Hm. destruct Hm as [<-|[<-|[]]]; vm_compute; discriminate.
Defined.
