(* ===== verification/RunnerDispatch.v ===== *)
(** * Runner dispatch (daemon/runrt.go)

    One command handed to a member's runner: every attempt is recorded as it
    starts, and how it ended.  The adapter that runs the child process, the
    instants of the clock and the fault of each append are parameters.  A run
    takes time, in which other commands change the sessions: the adapter is a
    function of the sessions too, and leaves those that it finds at the end.  The
    lock that keeps two dispatches to one member apart is not modelled. *)

From S2P Require Import Prelude GoValue GoTime Model Ids Sha256 Evidence Events EventLog Delegation Registry MemberRuntime.

(** ** Requests and results *)

Record runner_cost := mk_cost { rc_tokens_in : Z; rc_tokens_out : Z; rc_usd : Z * Z; rc_source : string }.

(** runner.Result; [rt_seconds] is the float of its duration in seconds. *)
Record runner_result := mk_result {
  rt_ok : bool; rt_stdout : string; rt_seconds : Z * Z; rt_cost : option runner_cost; rt_semantic_status : string;
  rt_semantic_type : string; rt_payload : option payload; rt_error_class : string; rt_discarded : bool }.

(** runner.CostRaw: an object, or null. *)
Definition CostRaw (cost : option runner_cost) : any :=
  match cost with
  | None => ANil
  | Some c => AMap {[ "tokens_in" := AInt (rc_tokens_in c); "tokens_out" := AInt (rc_tokens_out c);
                      "usd_estimate" := AFloat (fst (rc_usd c)) (snd (rc_usd c)); "source" := AStr (rc_source c) ]}
  end.

(** runner.Request, without the environment and the arguments. *)
Record runner_request := mk_runner_request {
  rq_session : string; rq_member : Member; rq_wrapper : string; rq_prompt : string; rq_handle : string;
  rq_timeout : Z; rq_invocation : string; rq_source : string; rq_attempt : Z }.

Inductive run_error :=
| RunStorage (e : error)
| RunRegistry (category path message : string)
| RunText (text : string).

Definition run_error_text (e : run_error) : string :=
  match e with
  | RunStorage e => error_text e
  | RunRegistry category path message => join ": " (List.filter (fun s => s != "") [category; path; message])
  | RunText text => text
  end.

(** runner.VisibleDeliveryRequest, without the environment and the arguments. *)
Record VisibleDeliveryRequest := mk_visible {
  vq_session : string; vq_member : Member; vq_wrapper : string; vq_target : string; vq_content : string; vq_kind : string;
  vq_platform : string; vq_channel_id : string; vq_thread_id : string; vq_timeout : Z }.

(** The state of a dispatch: the sessions as they are stored and the metadata of
    this one, the number of clock readings so far, the faults of the appends to
    come, the requests that the adapter was handed, and the messages that it was
    told to post. *)
Record run_state := mk_run {
  dp_world : world; dp_tick : nat; dp_faults : list (option append_fault); dp_sent : list runner_request;
  dp_posted : list VisibleDeliveryRequest }.

(** RunnerTerminalValidator: it may have a message posted, which takes time. *)
Definition terminal_validator : Type :=
  world -> EventEnvelope -> sessions * list VisibleDeliveryRequest * result run_error EventEnvelope.

Record RunnerDispatchRequest := mk_dispatch {
  dq_command : string; dq_source : string; dq_causation : string; dq_prompt : string; dq_max_retries : Z; dq_timeout : Z;
  dq_cancelled : Z -> bool; dq_allowed : list string; dq_disallowed_reason : string;
  dq_validator : option terminal_validator;
  dq_missing_reason : string; dq_invalid_reason : string }.

Record RunnerDispatchResult := mk_dispatch_result {
  do_invocations : list string; do_terminal : string; do_terminal_type : string; do_attempts : Z }.

Definition no_dispatch : RunnerDispatchResult := mk_dispatch_result [] "" "" 0.

(** ** Identifiers and statuses *)

Definition HermesAgentKind : string := "hermes-agent".

Definition resolvedWrapper (m : Member) : string :=
  match me_resolved m with
  | Some w => wr_resolved w
  | None => ""
  end.

Definition invocationIDFor (commandID : string) (attempt : Z) (now : time) : string :=
  "run_" +:+ String.substring 0 24 (sha256_hex (commandID +:+ ":" +:+ itoa attempt +:+ ":" +:+ unix_nano now)).

Definition eventIDFor (commandID typ : string) (attempt : Z) (now : time) : string :=
  let clean := clean_command (commandID +:+ "_" +:+ typ) in
  "evt_" +:+ (if 60 <? str_len clean then String.substring 0 60 clean else clean) +:+ "_" +:+ itoa attempt +:+ "_" +:+ unix_nano now.

Definition statusFromPhaseForRunRT (phase : Phase) : Status :=
  if phase == "blocked" then StatusBlocked
  else if mem_str phase ["finalized"; "accepted"; "cancelled"] then StatusTerminal
  else StatusOpen.

Definition normalizeRunnerStatus (value : string) : string :=
  if mem_str value ["started"; "succeeded"; "failed"; "timeout"; "semantic_error"; "discarded_after_cancel"; "cancelled"; "interrupted"]
  then value
  else if value == "dispatch_timeout" then "timeout"
  else "failed".

Definition runnerStatus (typ : string) (r : runner_result) : string :=
  if rt_discarded r || (typ == "runner_result_discarded") then "discarded_after_cancel"
  else if rt_ok r then if rt_semantic_status r == "" then "succeeded" else normalizeRunnerStatus (rt_semantic_status r)
  else normalizeRunnerStatus (rt_error_class r).

Definition runnerFailureReason (r : runner_result) : string :=
  let a l := mem_str (rt_error_class r) l in
  if a ["timeout"; "dispatch_timeout"] then "dispatch_timeout"
  else if a ["adapter_command_mismatch"; "model_provider_failure"; "malformed_or_missing_response"; "workspace_missing";
             "workspace_invalid"; "stale_phase_evidence"] then rt_error_class r
  else if a ["transport"; "transport_error"] then "transport_error"
  else if a ["nonzero_exit"; "nonzero_exit_empty_output"] then "nonzero_exit_empty_output"
  else if a ["semantic_error"; "semantic_parse_error"] then "semantic_parse_error"
  else if a ["cancelled"; "interrupted"] then rt_error_class r
  else "other".

Definition runnerDiagnosticPayload (r : runner_result) (p : payload) : payload :=
  let p1 := if rt_error_class r == "" then p else <["error_class" := AStr (rt_error_class r)]> p in
  match rt_payload r with
  | Some q => match q !! "diagnostic_excerpt" with Some v => <["diagnostic_excerpt" := v]> p1 | None => p1 end
  | None => p1
  end.

Definition runnerSuccessPayload (r : runner_result) (terminalType : string) : payload :=
  let p := {[ "status" := AStr "succeeded"; "semantic_event_type" := AStr terminalType ]} in
  if rt_semantic_status r == "" then p else <["semantic_status" := AStr (rt_semantic_status r)]> p.

Definition retryable (r : runner_result) (err : option string) : bool :=
  match err with
  | None => false
  | Some _ => mem_str (rt_error_class r) ["timeout"; "transport"; "nonzero_exit"; ""]
  end.

Definition allowedTerminalType (typ : string) (allowed : list string) : bool :=
  match allowed with
  | [] => true
  | _ => mem_str typ allowed
  end.

Definition originalCommandID (req : RunnerDispatchRequest) : string :=
  if is_blank (dq_source req) then trim_space (dq_command req) else trim_space (dq_source req).

Definition mark_discarded (r : runner_result) (errorClass : string) : runner_result :=
  mk_result (rt_ok r) (rt_stdout r) (rt_seconds r) (rt_cost r) (rt_semantic_status r) (rt_semantic_type r) (rt_payload r)
    errorClass true.

(** The outcome of one attempt: the dispatch ends, or another attempt follows. *)
Inductive attempt_outcome :=
| Done (out : RunnerDispatchResult) (err : option run_error)
| Again (out : RunnerDispatchResult) (prior : option string).

Section dispatch.
Context (name : string) (clock : nat -> time) (member : Member) (adapter_kind : option string)
  (send : sessions -> runner_request -> sessions * (runner_result * option string)).

(** s.now() *)
Definition read_clock (st : run_state) : run_state * time :=
  (mk_run (dp_world st) (S (dp_tick st)) (dp_faults st) (dp_sent st) (dp_posted st), clock (dp_tick st)).

Definition append_event (st : run_state) (e : EventEnvelope) : run_state * result error AppendResult :=
  let '(w, r) := AppendEvent name (dp_world st) e (default None (head (dp_faults st))) in
  (mk_run w (dp_tick st) (tail (dp_faults st)) (dp_sent st) (dp_posted st), r).

(** The adapter runs the request. *)
Definition send_request (st : run_state) (q : runner_request) : run_state * (runner_result * option string) :=
  let '(ss, r) := send (wd_sessions (dp_world st)) q in
  (mk_run (mk_world ss (wd_md (dp_world st))) (dp_tick st) (dp_faults st) (dp_sent st ++ [q]) (dp_posted st), r).

Definition run_validator (st : run_state) (validate : terminal_validator) (e : EventEnvelope)
    : run_state * result run_error EventEnvelope :=
  let '(ss, posted, r) := validate (dp_world st) e in
  (mk_run (mk_world ss (wd_md (dp_world st))) (dp_tick st) (dp_faults st) (dp_sent st) (dp_posted st ++ posted), r).

Definition run_md (st : run_state) : SessionMetadata := wd_md (dp_world st).

(** The metadata's cost summary is written as zero and never updated. *)
Definition runner_calls_total (md : SessionMetadata) : Z := 0.

Definition preflight (md : SessionMetadata) : result run_error unit :=
  let phase := st_phase (md_state md) in
  reject (md_status md == StatusTerminal) || (statusFromPhaseForRunRT phase == StatusTerminal) ||
         (statusFromPhaseForRunRT phase == StatusBlocked) with
    RunStorage (NewValidationError CategoryCommandConflict "session" "session is terminal or blocked");;
  ensure Participant md (me_id member) or
    RunStorage (NewValidationError CategoryPrincipalInvalid "member" "member is not a session participant");;
  ensure me_adapter_kind member == HermesAgentKind or
    RunText ("unsupported runner adapter kind " +:+ quoted (me_adapter_kind member));;
  ensure bool_decide (adapter_kind = Some HermesAgentKind) or RunText "unsupported runner adapter kind";;
  reject resolvedWrapper member == "" with
    RunRegistry "registry_wrapper_unresolvable" "wrapper" "resolved wrapper path is required";;
  reject (0 <? li_max_runner_calls (md_limits md)) && (li_max_runner_calls (md_limits md) <=? runner_calls_total md) with
    RunStorage (NewValidationError CategoryCommandConflict "max_runner_calls" "runner call budget exceeded");;
  Ok tt.

Definition baseEvent (st : run_state) (req : RunnerDispatchRequest) (typ invocationID sourceCommandID : string) (attempt : Z)
    (r : option runner_result) (p : option payload) : run_state * EventEnvelope :=
  let md := run_md st in
  let status := match r with Some r => runnerStatus typ r | None => "started" end in
  let from := if has_prefix typ "runner_" then daemonPrincipal else me_id member in
  let commandID := if is_blank sourceCommandID then trim_space (dq_command req) else trim_space sourceCommandID in
  let '(st1, t1) := read_clock st in
  let '(st2, t2) := read_clock st1 in
  (st2, mk_event SchemaVersion (eventIDFor commandID typ attempt t1) commandID (trim_space (dq_causation req)) (md_id md)
          (md_id md) (md_session_type md) None (st_phase (md_state md)) typ from [md_moderator md] t2
          (Some (mk_runner invocationID HermesAgentKind (me_id member) attempt (1 <? attempt) sourceCommandID status
                   (rt_seconds <$> r))) None p).

Definition set_cost (e : EventEnvelope) (cost : any) : EventEnvelope :=
  mk_event (ev_schema_version e) (ev_event_id e) (ev_command_id e) (ev_causation_event_id e) (ev_correlation_id e)
    (ev_session_id e) (ev_session_type e) (ev_turn e) (ev_phase e) (ev_type e) (ev_from e) (ev_to e) (ev_created_at e)
    (ev_runner e) (Some cost) (ev_payload e).

Definition set_runner (e : EventEnvelope) (r : option RunnerInfo) : EventEnvelope :=
  mk_event (ev_schema_version e) (ev_event_id e) (ev_command_id e) (ev_causation_event_id e) (ev_correlation_id e)
    (ev_session_id e) (ev_session_type e) (ev_turn e) (ev_phase e) (ev_type e) (ev_from e) (ev_to e) (ev_created_at e)
    r (ev_cost e) (ev_payload e).

Definition startedPayload (md : SessionMetadata) (req : RunnerDispatchRequest) : payload :=
  {[ "prompt_sha256" := AStr (sha256_hex (dq_prompt req)); "member_id" := AStr (me_id member);
     "adapter_kind" := AStr HermesAgentKind; "wrapper_path_sha256" := AStr (sha256_hex (resolvedWrapper member));
     "evidence_kind" := AStr "redacted_wrapper_binding";
     "participant_session_handle" := AStr (MemberRuntime.DeterministicParticipantSessionHandle (md_id md) (me_id member));
     "participant_session_generation" := AInt 1;
     "participant_session_evidence_kind" := AStr "control_local_prslr004" ]}.

Definition appendStarted (st : run_state) (req : RunnerDispatchRequest) (invocationID sourceCommandID : string) (attempt : Z)
    : run_state * result error AppendResult :=
  let '(st1, e) := baseEvent st req "runner_invocation_started" invocationID sourceCommandID attempt None
                     (Some (startedPayload (run_md st) req)) in
  append_event st1 e.

Definition retryPayload (req : RunnerDispatchRequest) (attempt : Z) (prior : option string) : payload :=
  let p := {[ "attempt" := AInt attempt; "prior_error_class" := AStr "runner_error";
              "original_command_id" := AStr (originalCommandID req); "target_member" := AStr (me_id member) ]} in
  match prior with
  | Some text => <["prior_error" := AStr text]> p
  | None => p
  end.

Definition appendRetry (st : run_state) (req : RunnerDispatchRequest) (attempt : Z) (prior : option string)
    : run_state * result error AppendResult :=
  let md := run_md st in
  let source := originalCommandID req in
  let '(st1, t1) := read_clock st in
  let '(st2, t2) := read_clock st1 in
  append_event st2 (mk_event SchemaVersion (eventIDFor source "runner_retry_attempted" attempt t1) source "" (md_id md) (md_id md)
                (md_session_type md) None (st_phase (md_state md)) "runner_retry_attempted" daemonPrincipal [md_moderator md]
                t2 None None (Some (retryPayload req attempt prior))).

Definition appendTerminal (st : run_state) (req : RunnerDispatchRequest) (typ invocationID sourceCommandID : string)
    (attempt : Z) (r : runner_result) (p : payload) : run_state * EventEnvelope * result error AppendResult :=
  let '(st1, e) := baseEvent st req typ invocationID sourceCommandID attempt (Some r) (Some p) in
  let e1 := set_cost e (CostRaw (rt_cost r)) in
  let '(st2, res) := append_event st1 e1 in
  (st2, e1, res).

Definition buildSuccessTerminal (st : run_state) (req : RunnerDispatchRequest) (typ invocationID sourceCommandID : string)
    (attempt : Z) (r : runner_result) (p : option payload) : run_state * result run_error EventEnvelope :=
  let '(st1, e) := baseEvent st req typ invocationID sourceCommandID attempt (Some r) p in
  let e1 := set_cost e (CostRaw (rt_cost r)) in
  match dq_validator req with
  | None => (st1, Ok e1)
  | Some validate =>
      match run_validator st1 validate e1 with
      | (st2, Err err) => (st2, Err err)
      | (st2, Ok e2) =>
          let '(st3, again) := baseEvent st2 req typ invocationID sourceCommandID attempt (Some r) p in
          (st3, Ok (set_cost (set_runner e2 (ev_runner again)) (CostRaw (rt_cost r))))
      end
  end.

(** *** One attempt *)

Definition closed_by (out : RunnerDispatchResult) (e : EventEnvelope) : RunnerDispatchResult :=
  mk_dispatch_result (do_invocations out) (ev_event_id e) (ev_type e) (do_attempts out).

Definition append_error (r : result error AppendResult) : option run_error :=
  match r with
  | Ok _ => None
  | Err err => Some (RunStorage err)
  end.

(** The attempt ends with a terminal event. *)
Definition close_attempt (st : run_state) (req : RunnerDispatchRequest) (typ invocationID sourceCommandID : string)
    (attempt : Z) (r : runner_result) (p : payload) (out : RunnerDispatchResult) : run_state * attempt_outcome :=
  let '(st1, e, res) := appendTerminal st req typ invocationID sourceCommandID attempt r p in
  (st1, Done (closed_by out e) (append_error res)).

(** The first text that is not blank, trimmed. *)
Definition or_text (text fallback : string) : string := if is_blank text then fallback else trim_space text.

Definition diagnostic_owner (p : payload) : payload :=
  <["diagnostic_owner" := AStr "control/RUNFIX-003"]> (<["diagnostic_path" := AStr "internal/daemon/selected_speaker.go"]> p).

Definition finish_discarded (st : run_state) (req : RunnerDispatchRequest) (invocationID sourceCommandID : string)
    (attempt : Z) (r : runner_result) (out : RunnerDispatchResult) : run_state * attempt_outcome :=
  let r1 := mark_discarded r (if rt_error_class r == "" then "stale_phase_evidence" else rt_error_class r) in
  close_attempt st req "runner_result_discarded" invocationID sourceCommandID attempt r1
    (runnerDiagnosticPayload r1 {[ "reason" := AStr "stale_phase_evidence"; "discard_reason" := AStr "cancelled_or_late_result" ]}) out.

(** The runner answered: its answer is refused, or its success and the terminal
    event are recorded, in this order. *)
Definition finish_ok (st : run_state) (req : RunnerDispatchRequest) (invocationID sourceCommandID : string) (attempt : Z)
    (r : runner_result) (out : RunnerDispatchResult) : run_state * attempt_outcome :=
  let terminalType := if rt_semantic_type r == "" then "assignee_update" else rt_semantic_type r in
  let refuse st p :=
    let r1 := mark_discarded r (rt_error_class r) in
    close_attempt st req "runner_result_discarded" invocationID sourceCommandID attempt r1
      (runnerDiagnosticPayload r1 (diagnostic_owner (<["discarded_event_type" := AStr terminalType]> p))) out in
  if negb (allowedTerminalType terminalType (dq_allowed req)) then
    refuse st {[ "reason" := AStr (or_text (dq_disallowed_reason req) "terminal_event_type_not_allowed");
                 "allowed_event_types" := AStrs (dq_allowed req) ]}
  else
    let p := match rt_payload r, dq_validator req with
             | None, None => Some {[ "stdout" := AStr (rt_stdout r) ]}
             | p, _ => p
             end in
    match buildSuccessTerminal st req terminalType invocationID sourceCommandID attempt r p with
    | (st1, Err err) =>
        let reason := match p with None => dq_missing_reason req | Some _ => dq_invalid_reason req end in
        refuse st1 {[ "reason" := AStr (or_text reason "terminal_payload_validation_failed");
                      "validation_error" := AStr (run_error_text err) ]}
    | (st1, Ok terminal) =>
        match appendTerminal st1 req "runner_invocation_succeeded" invocationID sourceCommandID attempt r
                (runnerSuccessPayload r terminalType) with
        | (st2, succeeded, Err err) => (st2, Done (closed_by out succeeded) (Some (RunStorage err)))
        | (st2, succeeded, Ok _) =>
            let '(st3, res) := append_event st2 terminal in
            (st3, Done (closed_by out terminal) (append_error res))
        end
    end.

Definition finish_failed (st : run_state) (req : RunnerDispatchRequest) (invocationID sourceCommandID : string) (attempt : Z)
    (r : runner_result) (out : RunnerDispatchResult) : run_state * attempt_outcome :=
  let p := runnerDiagnosticPayload r {[ "error_class" := AStr (rt_error_class r); "reason" := AStr (runnerFailureReason r) ]} in
  let p1 := if rt_error_class r == "" then <["error_class" := AStr "runner_error"]> p else p in
  close_attempt st req "runner_invocation_failed" invocationID sourceCommandID attempt r p1 out.

(** What the answer of the runner leads to. *)
Definition finish_attempt (st : run_state) (req : RunnerDispatchRequest) (invocationID sourceCommandID : string)
    (maxRetries attempt : Z) (r : runner_result) (err : option string) (out : RunnerDispatchResult) : run_state * attempt_outcome :=
  if rt_discarded r || dq_cancelled req attempt then finish_discarded st req invocationID sourceCommandID attempt r out
  else if bool_decide (err = None) && rt_ok r then finish_ok st req invocationID sourceCommandID attempt r out
  else if negb (retryable r err) || (maxRetries <? attempt) then finish_failed st req invocationID sourceCommandID attempt r out
  else (st, Again out err).

Definition attempt_once (st : run_state) (req : RunnerDispatchRequest) (sourceCommandID : string) (maxRetries attempt : Z)
    (prior : option string) (out : RunnerDispatchResult) : run_state * attempt_outcome :=
  let '(st0, retried) := if 1 <? attempt then let '(s, r) := appendRetry st req attempt prior in (s, append_error r) else (st, None) in
  match retried with
  | Some err => (st0, Done out (Some err))
  | None =>
      let '(st1, t) := read_clock st0 in
      let invocationID := invocationIDFor sourceCommandID attempt t in
      let out1 := mk_dispatch_result (do_invocations out ++ [invocationID]) (do_terminal out) (do_terminal_type out) (do_attempts out) in
      let '(st2, started) := appendStarted st1 req invocationID sourceCommandID attempt in
      match started with
      | Err err => (st2, Done out1 (Some (RunStorage err)))
      | Ok _ =>
          let md := run_md st2 in
          let '(st3, (r, err)) := send_request st2
            (mk_runner_request (md_id md) member (resolvedWrapper member) (dq_prompt req)
               (MemberRuntime.DeterministicParticipantSessionHandle (md_id md) (me_id member)) (dq_timeout req)
               invocationID sourceCommandID attempt) in
          let out2 := mk_dispatch_result (do_invocations out1) (do_terminal out1) (do_terminal_type out1) attempt in
          finish_attempt st3 req invocationID sourceCommandID maxRetries attempt r err out2
      end
  end.

Fixpoint attempt_loop (fuel : nat) (st : run_state) (req : RunnerDispatchRequest) (sourceCommandID : string) (maxRetries attempt : Z)
    (prior : option string) (out : RunnerDispatchResult) : run_state * RunnerDispatchResult * option run_error :=
  match fuel with
  | O => (st, out, RunText <$> prior)
  | S fuel' =>
      match attempt_once st req sourceCommandID maxRetries attempt prior out with
      | (st', Done out' err) => (st', out', err)
      | (st', Again out' err) => attempt_loop fuel' st' req sourceCommandID maxRetries (attempt + 1) err out'
      end
  end.

(** [Dispatch], inside the lock of the session and member.  The loop runs while
    [attempt <= maxRetries + 1], a sum of machine integers. *)
Definition Dispatch (st : run_state) (req : RunnerDispatchRequest) : run_state * RunnerDispatchResult * option run_error :=
  match preflight (run_md st) with
  | Err err => (st, no_dispatch, Some err)
  | Ok _ =>
      let maxRetries := Z.max 0 (dq_max_retries req) in
      let source := if is_blank (dq_source req) then dq_command req else trim_space (dq_source req) in
      attempt_loop (Z.to_nat (wrap64 (maxRetries + 1))) st req source maxRetries 1 None no_dispatch
  end.
End dispatch.
