(* ===== verification/RunnerDispatchTheory.v ===== *)
(** * Correctness of runner dispatch

    What a dispatch leaves in the log, whatever other commands append while the
    runner works: one start per attempt, written before the runner is asked, and
    exactly one end. *)

From S2P Require Import Prelude GoValue GoTime Model Ids Sha256 Evidence Events EventLog Delegation Registry MemberRuntime RunnerDispatch Fixtures.

(** ** Logs that grow *)

(** The events of session [name]. *)
Definition log_at (name : string) (ss : sessions) : list EventEnvelope :=
  match ss !! name with
  | Some sd => log_of sd
  | None => []
  end.

(** [ss'] has the log of [ss], extended by events of which [quiet] holds. *)
Definition extends (name : string) (quiet : EventEnvelope -> Prop) (ss ss' : sessions) : Prop :=
  exists more, log_at name ss' = log_at name ss ++ more /\ Forall quiet more.

Lemma extends_refl name quiet ss : extends name quiet ss ss.
Proof. exists []. by rewrite app_nil_r. Qed.

Lemma extends_trans name quiet s1 s2 s3 : extends name quiet s1 s2 -> extends name quiet s2 s3 -> extends name quiet s1 s3.
Proof.
  intros (l1 & H1 & F1) (l2 & H2 & F2). exists (l1 ++ l2). rewrite H2, H1, app_assoc. split; [done|]. by apply Forall_app.
Qed.

Lemma extends_weaken name (P Q : EventEnvelope -> Prop) ss ss' :
  (forall e, P e -> Q e) -> extends name P ss ss' -> extends name Q ss ss'.
Proof. intros H (l & Hl & Hf). exists l. split; [done|]. by eapply Forall_impl. Qed.

Definition any_event (e : EventEnvelope) : Prop := True.

Lemma line_events_app l1 l2 : line_events (l1 ++ l2) = line_events l1 ++ line_events l2.
Proof. apply omap_app. Qed.

Lemma AppendEvent_extends name w e fault w' r :
  AppendEvent name w e fault = (w', r) -> extends name any_event (wd_sessions w) (wd_sessions w').
Proof.
  intros H. unfold extends, log_at. destruct (wd_sessions w !! name) as [sd|] eqn:Hsd.
  - destruct (AppendEvent_append_only _ _ _ _ _ _ H _ _ Hsd) as (sd' & l & -> & Hl & _).
    exists (line_events l). unfold log_of. rewrite Hl, line_events_app. split; [done|]. by apply Forall_true.
  - unfold AppendEvent in H. rewrite Hsd in H. injection H as <- _. rewrite Hsd. by exists [].
Qed.

(** A successful append adds one event. *)
Lemma AppendEvent_adds name w e fault w' a :
  AppendEvent name w e fault = (w', Ok a) ->
  exists ix, ix_events ix = log_at name (wd_sessions w) /\
    log_at name (wd_sessions w') = log_at name (wd_sessions w) ++ [appended (wd_md w) ix e].
Proof.
  destruct fault as [f|]; intros H.
  - apply AppendEvent_cases in H as [[_ Hf]|(sd & ix & sd' & md' & _ & _ & Hio & _)]; [done|]. by destruct f as [|[]| | | | |].
  - apply AppendEvent_ok in H as (ix & (sd & Hsd & Hr) & (sd' & Hsd' & Hr') & _).
    exists ix. unfold log_at. rewrite Hsd, Hsd'.
    apply ReadLogIndex_ok in Hr as (_ & He & _). apply ReadLogIndex_ok in Hr' as (_ & He' & _). cbn in He'. rewrite <- He, <- He'. done.
Qed.

Section dispatch_theory.
Context (name : string) (clock : nat -> time) (member : Member) (adapter_kind : option string)
  (send : sessions -> runner_request -> sessions * (runner_result * option string)).

(** What other commands append in the meantime. *)
Context (quiet : EventEnvelope -> Prop).
Context (others_send : forall ss q, extends name quiet ss (send ss q).1).

Context (req : RunnerDispatchRequest).
Context (others_validate : forall v w e, dq_validator req = Some v -> extends name quiet (wd_sessions w) (v w e).1.1).

Definition run_log (st : run_state) : list EventEnvelope := log_at name (wd_sessions (dp_world st)).

(** ** Steps that add nothing of their own *)

Record waited (st st' : run_state) : Prop := mk_waited {
  wt_log : extends name quiet (wd_sessions (dp_world st)) (wd_sessions (dp_world st'));
  wt_md : run_md st' = run_md st }.

Lemma waited_refl st : waited st st.
Proof. split; [apply extends_refl|done]. Qed.

Lemma waited_trans a b c : waited a b -> waited b c -> waited a c.
Proof. intros [H1 M1] [H2 M2]. split; [by eapply extends_trans|congruence]. Qed.

Lemma read_clock_same st : dp_world (read_clock clock st).1 = dp_world st.
Proof. done. Qed.

Definition run_info (invocationID source : string) (attempt : Z) (status : string) (seconds : option (Z * Z)) : RunnerInfo :=
  mk_runner invocationID HermesAgentKind (me_id member) attempt (1 <? attempt) source status seconds.

(** An event about an attempt, as it is handed to AppendEvent. *)
Record about (typ invocationID source : string) (attempt : Z) (r : option runner_result) (e : EventEnvelope) : Prop := mk_about {
  ab_type : ev_type e = typ;
  ab_cause : ev_causation_event_id e = trim_space (dq_causation req);
  ab_runner : ev_runner e =
    Some (run_info invocationID source attempt (match r with Some r => runnerStatus typ r | None => "started" end) (rt_seconds <$> r)) }.

Lemma baseEvent_about st typ inv source k r p st' e :
  baseEvent clock member st req typ inv source k r p = (st', e) ->
  dp_world st' = dp_world st /\ dp_sent st' = dp_sent st /\ dp_posted st' = dp_posted st /\ about typ inv source k r e /\ ev_payload e = p.
Proof. unfold baseEvent. cbn. intros [= <- <-]. by repeat split. Qed.

(** ** What one attempt appends *)

(** [x] is the event [e] as it is read back. *)
Definition recorded (e x : EventEnvelope) : Prop := exists md ix, x = appended md ix e.

Lemma recorded_fields e x : recorded e x ->
  ev_type x = ev_type e /\ ev_causation_event_id x = ev_causation_event_id e /\ ev_runner x = ev_runner e /\
  ev_from x = ev_from e /\ ev_event_id x = ev_event_id e /\ ev_turn x = ev_turn e.
Proof.
  intros (md & ix & ->). pose proof (appended_fields md ix e) as H. cbv zeta in H. destruct_and!. repeat split; try done.
  - unfold appended, finish_event, prepareEventForAppend, attachPersistentParticipantRuntimeEvidence.
    destruct (ev_payload e), (ev_type e == "speech"); cbn; by destruct (ev_correlation_id e == "").
  - unfold appended, finish_event, prepareEventForAppend, attachPersistentParticipantRuntimeEvidence.
    destruct (ev_payload e), (ev_type e == "speech"); cbn; by destruct (ev_correlation_id e == "").
Qed.

Context (md0 : SessionMetadata).

Definition bad_end (typ : string) : Prop := typ = "runner_invocation_failed" \/ typ = "runner_result_discarded".

(** The terminal event that an answer [r] leads to: what the validator makes of
    it, or the event itself. *)
Definition terminal_of (invocationID source : string) (attempt : Z) (r : runner_result) (e : EventEnvelope) : Prop :=
  exists typ b, allowedTerminalType typ (dq_allowed req) = true /\ about typ invocationID source attempt (Some r) b /\
    match dq_validator req with
    | None => e = set_cost b (CostRaw (rt_cost r))
    | Some v => exists w ss posted e', same_session (wd_md w) md0 /\
        v w (set_cost b (CostRaw (rt_cost r))) = (ss, posted, Ok e') /\ e = set_cost (set_runner e' (ev_runner b)) (CostRaw (rt_cost r))
    end.

Inductive ending (invocationID source : string) (attempt : Z) : list EventEnvelope -> string -> Prop :=
| ends_badly r e x :
    bad_end (ev_type x) -> about (ev_type x) invocationID source attempt (Some r) e -> recorded e x ->
    ending invocationID source attempt [x] (ev_type x)
| ends_well r s xs e x :
    rt_ok r = true -> rt_discarded r = false ->
    about "runner_invocation_succeeded" invocationID source attempt (Some r) s -> recorded s xs ->
    terminal_of invocationID source attempt r e -> recorded e x ->
    ending invocationID source attempt [xs; x] (ev_type x).

(** The retry notice before a further attempt. *)
Definition retry_notice (attempt : Z) (l : list EventEnvelope) : Prop :=
  if 1 <? attempt then
    exists e x prior, l = [x] /\ recorded e x /\ ev_type e = "runner_retry_attempted" /\ ev_causation_event_id e = "" /\
      ev_runner e = None /\ ev_payload e = Some (retryPayload member req attempt prior)
  else l = [].

(** An attempt is announced: the retry notice, then the start. *)
Definition opening (invocationID source : string) (attempt : Z) (l : list EventEnvelope) : Prop :=
  (exists i, invocationID = invocationIDFor source attempt (clock i)) /\
  exists notice e x md, l = notice ++ [x] /\ retry_notice attempt notice /\ recorded e x /\
    about "runner_invocation_started" invocationID source attempt None e /\ ev_payload e = Some (startedPayload member md req).

(** The attempts from [attempt] on: their events, amid those of others, their
    invocation ids, and the type of the last event. *)
Inductive attempts (source : string) : Z -> list EventEnvelope -> list string -> string -> Prop :=
| attempt_last k start noise closing id typ :
    opening id source k start -> Forall quiet noise -> ending id source k closing typ ->
    attempts source k (start ++ noise ++ closing) [id] typ
| attempt_again k start noise rest id ids typ :
    opening id source k start -> Forall quiet noise -> attempts source (k + 1) rest ids typ ->
    attempts source k (start ++ noise ++ rest) (id :: ids) typ.

(** ** The operations *)

Lemma append_event_ok st e st' a :
  append_event name st e = (st', Ok a) ->
  exists x, recorded e x /\ run_log st' = run_log st ++ [x] /\ same_session (run_md st') (run_md st).
Proof.
  unfold append_event, run_log, run_md. destruct (AppendEvent _ _ _ _) as [w r] eqn:H. intros [= <- ->]. cbn [dp_world].
  pose proof (AppendEvent_same _ _ _ _ _ _ H). apply AppendEvent_adds in H as (ix & _ & Hl).
  eexists. split; [by eexists _, ix|]. split; [exact Hl|done].
Qed.

Lemma append_error_none r : append_error r = None -> exists a, r = Ok a.
Proof. destruct r; [eauto|done]. Qed.

Lemma close_attempt_done st typ inv source k r p out st' out' :
  bad_end typ ->
  close_attempt name clock member st req typ inv source k r p out = (st', Done out' None) ->
  exists l, run_log st' = run_log st ++ l /\ ending inv source k l typ /\
    out' = mk_dispatch_result (do_invocations out) (do_terminal out') typ (do_attempts out).
Proof.
  intros Hbad. unfold close_attempt, appendTerminal.
  destruct (baseEvent _ _ _ _ _ _ _ _ _ _) as [st1 e] eqn:Hb. destruct (append_event _ _ _) as [st2 res] eqn:Ha.
  intros [= <- <- Hr]. apply append_error_none in Hr as [a ->]. apply append_event_ok in Ha as (x & Hx & Hl & _).
  apply baseEvent_about in Hb as (Hw & _ & _ & Hab & _). pose proof (recorded_fields _ _ Hx) as (Ht & _).
  cbn in Ht. rewrite (ab_type _ _ _ _ _ _ Hab) in Ht. exists [x]. unfold run_log in *. rewrite Hl, Hw. split; [done|].
  split; [|unfold closed_by; cbn; by rewrite (ab_type _ _ _ _ _ _ Hab)].
  rewrite <- Ht. econstructor; [by rewrite Ht| |done]. rewrite Ht. destruct Hab. by split.
Qed.

Lemma run_validator_waits st v e st' r :
  dq_validator req = Some v -> run_validator st v e = (st', r) ->
  waited st st' /\ exists ss posted, v (dp_world st) e = (ss, posted, r).
Proof.
  unfold run_validator. intros Hv. pose proof (others_validate v (dp_world st) e Hv) as Hext.
  destruct (v (dp_world st) e) as [[ss posted] r'] eqn:E. intros [= <- <-]. split; [by split|]. by exists ss, posted.
Qed.

Lemma buildSuccessTerminal_spec st typ inv source k r p st' res :
  same_session (run_md st) md0 ->
  buildSuccessTerminal clock member st req typ inv source k r p = (st', res) ->
  waited st st' /\
  match res with
  | Ok e => allowedTerminalType typ (dq_allowed req) = true -> terminal_of inv source k r e
  | Err _ => True
  end.
Proof.
  intros Hmd. unfold buildSuccessTerminal. destruct (baseEvent _ _ st _ _ _ _ _ _ _) as [st1 e] eqn:Hb.
  pose proof (baseEvent_about _ _ _ _ _ _ _ _ _ Hb) as (Hw1 & _ & _ & Hab & _).
  assert (W1 : waited st st1) by (split; [rewrite Hw1; apply extends_refl | unfold run_md; by rewrite Hw1]).
  pose proof run_validator_waits as Hwaits. destruct (dq_validator req) as [v|] eqn:Hv.
  2: { intros [= <- <-]. split; [done|]. intros Hall. exists typ, e. split; [done|]. split; [done|]. by rewrite Hv. }
  destruct (run_validator st1 v _) as [st2 [e'|err]] eqn:Hr; apply Hwaits in Hr as (W2 & ss & posted & Hr); try done.
  - destruct (baseEvent _ _ st2 _ _ _ _ _ _ _) as [st3 again] eqn:Hb2. intros [= <- <-].
    pose proof (baseEvent_about _ _ _ _ _ _ _ _ _ Hb2) as (Hw3 & _ & _ & Hab2 & _).
    split.
    { eapply waited_trans; [exact W1|]. eapply waited_trans; [exact W2|].
      split; [rewrite Hw3; apply extends_refl | unfold run_md; by rewrite Hw3]. }
    intros Hall. exists typ, e. split; [done|]. split; [done|]. rewrite Hv. exists (dp_world st1), ss, posted, e'.
    split; [by rewrite Hw1|]. split; [done|]. by rewrite (ab_runner _ _ _ _ _ _ Hab), (ab_runner _ _ _ _ _ _ Hab2).
  - intros [= <- <-]. split; [by eapply waited_trans|done].
Qed.

(** How an attempt ended: the events of others, then its own. *)
Definition ended (st st' : run_state) (inv source : string) (k : Z) (out out' : RunnerDispatchResult) : Prop :=
  exists noise l, run_log st' = run_log st ++ noise ++ l /\ Forall quiet noise /\ ending inv source k l (do_terminal_type out') /\
    do_invocations out' = do_invocations out /\ do_attempts out' = do_attempts out.

(** The attempt is over, with an error or as [ended] says. *)
Definition over (st st' : run_state) (inv source : string) (k : Z) (out : RunnerDispatchResult) (o : attempt_outcome) : Prop :=
  exists out' err, o = Done out' err /\ (err = None -> ended st st' inv source k out out').

Lemma close_attempt_over st0 st typ inv source k r p out st' o :
  waited st0 st -> bad_end typ ->
  close_attempt name clock member st req typ inv source k r p out = (st', o) -> over st0 st' inv source k out o.
Proof.
  intros [(noise & Hl & Hq) _] Hbad H. assert (exists out' err, o = Done out' err) as (out' & err & ->).
  { unfold close_attempt in H. destruct (appendTerminal _ _ _ _ _ _ _ _ _ _ _) as [[? ?] ?]. injection H as _ <-. eauto. }
  exists out', err. split; [done|]. intros ->. apply close_attempt_done in H as (l & Hl' & He & ->); [|done].
  exists noise, l. unfold run_log in *. by rewrite Hl', Hl, app_assoc.
Qed.

Lemma finish_ok_over st inv source k r out st' o :
  rt_ok r = true -> rt_discarded r = false -> same_session (run_md st) md0 ->
  finish_ok name clock member st req inv source k r out = (st', o) -> over st st' inv source k out o.
Proof.
  intros Hok Hdisc Hmd. unfold finish_ok. cbv zeta. set (typ := if rt_semantic_type r == "" then _ else _).
  destruct (allowedTerminalType typ (dq_allowed req)) eqn:Hall; cbn [negb].
  2: { apply close_attempt_over; [apply waited_refl | by right]. }
  destruct (buildSuccessTerminal _ _ st _ _ _ _ _ _ _) as [st1 [e|err]] eqn:Hb;
    apply buildSuccessTerminal_spec in Hb as [W Hb]; try done.
  2: { apply close_attempt_over; [done | by right]. }
  specialize (Hb Hall). unfold appendTerminal.
  destruct (baseEvent _ _ st1 _ _ _ _ _ _ _) as [st2 s] eqn:Hs.
  destruct (append_event _ st2 _) as [st3 [a|err]] eqn:Ha; [|intros [= _ <-]; by eexists _, _].
  destruct (append_event _ st3 e) as [st4 res] eqn:Ha2. intros [= <- <-]. eexists _, _. split; [done|]. intros Hr.
  apply append_error_none in Hr as [a2 ->]. apply baseEvent_about in Hs as (Hw & _ & _ & Hab & _).
  apply append_event_ok in Ha as (xs & Hxs & Hl & _). apply append_event_ok in Ha2 as (x & Hx & Hl2 & _).
  destruct W as [(noise & Hn & Hq) _]. exists noise, [xs; x]. unfold run_log in *.
  rewrite Hl2, Hl, Hw, Hn, <- !app_assoc. split; [done|]. split; [done|]. split; [|done].
  cbn. destruct (recorded_fields _ _ Hx) as (Ht & _). rewrite <- Ht.
  eapply ends_well; [done|done| |exact Hxs|exact Hb|exact Hx]. destruct Hab. by split.
Qed.

Lemma finish_attempt_over st inv source maxRetries k r err out st' o :
  same_session (run_md st) md0 ->
  finish_attempt name clock member st req inv source maxRetries k r err out = (st', o) ->
  over st st' inv source k out o \/ st' = st /\ o = Again out err /\ k <= maxRetries.
Proof.
  intros Hmd. unfold finish_attempt, finish_discarded, finish_failed. cbv zeta.
  destruct (rt_discarded r || _) eqn:Hd; [left; eapply close_attempt_over; [apply waited_refl|by right|done]|].
  apply orb_false_iff in Hd as [Hd _].
  destruct (_ && rt_ok r) eqn:Hok; [apply andb_true_iff in Hok as [_ Hok]; left; by eapply finish_ok_over|].
  destruct (negb _ || _) eqn:Hr; [left; eapply close_attempt_over; [apply waited_refl|by left|done]|].
  apply orb_false_iff in Hr as [_ Hr%Z.ltb_ge]. intros [= <- <-]. by right.
Qed.

(** ** One attempt *)

Definition mark_attempt (out : RunnerDispatchResult) (inv : string) (k : Z) : RunnerDispatchResult :=
  mk_dispatch_result (do_invocations out ++ [inv]) (do_terminal out) (do_terminal_type out) k.

Lemma appendRetry_ok st k prior st' a :
  1 < k -> appendRetry name clock member st req k prior = (st', Ok a) ->
  exists l, run_log st' = run_log st ++ l /\ retry_notice k l /\ same_session (run_md st') (run_md st).
Proof.
  intros Hk. unfold appendRetry. cbn [read_clock]. intros H. apply append_event_ok in H as (x & Hx & Hl & Hs).
  exists [x]. split; [exact Hl|]. split; [|exact Hs]. unfold retry_notice. rewrite (proj2 (Z.ltb_lt 1 k) Hk).
  by eexists _, x, prior.
Qed.

Lemma appendStarted_ok st inv source k st' a :
  appendStarted name clock member st req inv source k = (st', Ok a) ->
  exists e x, run_log st' = run_log st ++ [x] /\ recorded e x /\ about "runner_invocation_started" inv source k None e /\
    ev_payload e = Some (startedPayload member (run_md st) req) /\ same_session (run_md st') (run_md st).
Proof.
  unfold appendStarted. destruct (baseEvent _ _ _ _ _ _ _ _ _ _) as [st1 e] eqn:Hb. intros H.
  apply append_event_ok in H as (x & Hx & Hl & Hs). apply baseEvent_about in Hb as (Hw & _ & _ & Hab & Hp).
  exists e, x. unfold run_log, run_md in *. rewrite Hw in *. done.
Qed.

(** The announcement of an attempt, up to the run itself. *)
Lemma attempt_opens st source k prior st0 st2 t a i :
  let inv := invocationIDFor source k (clock i) in
  1 <= k ->
  (if 1 <? k then let '(s, r) := appendRetry name clock member st req k prior in (s, append_error r) else (st, None)) = (st0, None) ->
  appendStarted name clock member (mk_run (dp_world st0) t (dp_faults st0) (dp_sent st0) (dp_posted st0)) req inv source k = (st2, Ok a) ->
  exists start, run_log st2 = run_log st ++ start /\ opening inv source k start /\ same_session (run_md st2) (run_md st).
Proof.
  intros inv Hk Hretry Hstart. apply appendStarted_ok in Hstart as (e & x & Hl & Hx & Hab & Hp & Hs).
  assert (exists l, run_log st0 = run_log st ++ l /\ retry_notice k l /\ same_session (run_md st0) (run_md st)) as (l & Hl0 & Hn & Hs0).
  { destruct (Z.ltb_spec 1 k).
    - destruct (appendRetry _ _ _ _ _ _ _) as [s r] eqn:Hr. injection Hretry as <- Hr'. apply append_error_none in Hr' as [a' ->].
      by apply appendRetry_ok in Hr.
    - injection Hretry as <-. exists []. rewrite app_nil_r. split; [done|]. split; [|done].
      unfold retry_notice. by rewrite (proj2 (Z.ltb_ge 1 k)). }
  exists (l ++ [x]). unfold run_log, run_md in *. cbn [dp_world] in *. rewrite Hl, Hl0, app_assoc. split; [done|].
  split; [|by rewrite Hs]. split; [by exists i|]. by exists l, e, x, (wd_md (dp_world st0)).
Qed.

(** What an attempt leaves when it does not end in an error. *)
Lemma attempt_once_spec st source maxRetries k prior out st' o :
  1 <= k -> same_session (run_md st) md0 ->
  attempt_once name clock member send st req source maxRetries k prior out = (st', o) ->
  (exists out' err, o = Done out' (Some err)) \/
  exists start noise inv, opening inv source k start /\ Forall quiet noise /\
    match o with
    | Done out' _ => exists l, run_log st' = run_log st ++ start ++ noise ++ l /\ ending inv source k l (do_terminal_type out') /\
        do_invocations out' = do_invocations out ++ [inv] /\ do_attempts out' = k
    | Again out' _ => run_log st' = run_log st ++ start ++ noise /\ do_invocations out' = do_invocations out ++ [inv] /\
        k <= maxRetries /\ same_session (run_md st') md0
    end.
Proof.
  intros Hk Hmd. unfold attempt_once.
  destruct (if 1 <? k then _ else _) as [st0 [err|]] eqn:Hretry; [intros [= <- <-]; left; eauto|].
  cbn [read_clock]. set (inv := invocationIDFor source k _).
  destruct (appendStarted _ _ _ _ _ _ _ _) as [st2 [a|err]] eqn:Hstart; [|intros [= <- <-]; left; eauto].
  apply (attempt_opens _ _ _ _ _ _ _ _ _ Hk Hretry) in Hstart as (start & Hl & Hop & Hs). clear Hretry. fold inv in Hop.
  unfold send_request. match goal with |- context [send ?s ?q] =>
    pose proof (others_send s q) as (n1 & Hn1 & Hq1); destruct (send s q) as [ss [r err]] end.
  set (st3 := mk_run _ _ _ _ _). set (out2 := mk_dispatch_result _ _ _ _). cbn [fst] in Hn1.
  assert (Hl3 : run_log st3 = run_log st ++ start ++ n1) by (unfold run_log in *; cbn; by rewrite Hn1, Hl, app_assoc).
  assert (Hs3 : same_session (run_md st3) md0) by (unfold run_md in *; cbn; by rewrite Hs).
  clearbody st3 inv. intros H. apply finish_attempt_over in H as [(out' & e & -> & H)|(-> & -> & Hr)]; [|right|done].
  - destruct e; [left; eauto|right]. destruct (H eq_refl) as (n2 & l & Hl4 & Hq2 & He & Hi & Hat).
    exists start, (n1 ++ n2), inv. split; [done|]. split; [by apply Forall_app|]. exists l.
    rewrite Hl4, Hl3, <- !app_assoc, Hi, Hat. done.
  - by exists start, n1, inv.
Qed.

(** ** The loop *)

Lemma attempt_loop_spec fuel st source maxRetries k prior out st' out' :
  1 <= k -> (Z.of_nat fuel = maxRetries + 2 - k) -> (0 < fuel)%nat -> same_session (run_md st) md0 ->
  attempt_loop name clock member send fuel st req source maxRetries k prior out = (st', out', None) ->
  exists l ids, run_log st' = run_log st ++ l /\ attempts source k l ids (do_terminal_type out') /\
    do_invocations out' = do_invocations out ++ ids /\ do_attempts out' = k + Z.of_nat (length ids) - 1 /\
    (length ids <= fuel)%nat.
Proof.
  revert st k prior out. induction fuel as [|fuel IH]; intros st k prior out Hk Hfuel Hpos Hmd; [lia|]. cbn [attempt_loop].
  destruct (attempt_once _ _ _ _ _ _ _ _ _ _ _) as [st1 o] eqn:Ho.
  apply attempt_once_spec in Ho as [(o' & err & ->)|(start & noise & inv & Hop & Hq & Ho)]; [done| |done..].
  destruct o as [o' err|o' prior'].
  - intros [= <- <- ->]. destruct Ho as (l & Hl & He & Hi & Hat). exists (start ++ noise ++ l), [inv].
    split; [done|]. split; [by econstructor|]. split; [done|]. cbn. split; [lia|lia].
  - destruct Ho as (Hl & Hi & Hr & Hs). intros H. apply IH in H as (l & ids & Hl' & Hat & Hi' & Ha & Hlen); [|lia|lia|lia|done].
    exists (start ++ noise ++ l), (inv :: ids). rewrite Hl', Hl, <- !app_assoc. split; [done|]. split; [by econstructor|].
    rewrite Hi', Hi, <- app_assoc. split; [done|]. cbn [length]. split; lia.
Qed.

(** ** Requests are announced

    Whatever fails, the log holds a start for every request that the adapter was
    handed. *)

Definition announces (q : runner_request) (x : EventEnvelope) : Prop :=
  rq_prompt q = dq_prompt req /\ ev_type x = "runner_invocation_started" /\
  ev_causation_event_id x = trim_space (dq_causation req) /\
  exists r, ev_runner x = Some r /\ rn_invocation_id r = rq_invocation q /\ rn_attempt r = rq_attempt q.

(** Since [st0] the log grew and at most [n] requests were sent, all announced. *)
Definition announced (st0 : run_state) (n : nat) (st : run_state) : Prop :=
  extends name any_event (wd_sessions (dp_world st0)) (wd_sessions (dp_world st)) /\
  exists new, dp_sent st = dp_sent st0 ++ new /\ (length new <= n)%nat /\ forall q, q ∈ new -> exists x, x ∈ run_log st /\ announces q x.

(** The log grew and nothing was sent. *)
Record still (st st' : run_state) : Prop := mk_still {
  sl_log : extends name any_event (wd_sessions (dp_world st)) (wd_sessions (dp_world st'));
  sl_sent : dp_sent st' = dp_sent st }.

Lemma still_trans a b c : still a b -> still b c -> still a c.
Proof. intros [H1 M1] [H2 M2]. split; [by eapply extends_trans|congruence]. Qed.

Lemma still_same a b : dp_world b = dp_world a -> dp_sent b = dp_sent a -> still a b.
Proof. intros Hw Hs. split; [rewrite Hw; apply extends_refl|done]. Qed.

Lemma announced_still st0 n st st' : still st st' -> announced st0 n st -> announced st0 n st'.
Proof.
  intros [Hx Hs] (H0 & new & Hnew & Hn & H). split; [by eapply extends_trans|]. destruct Hx as (l & Hl & _). exists new. rewrite Hs. split; [done|]. split; [done|].
  intros q Hq. destruct (H q Hq) as (x & Hx & ?). exists x. split; [|done]. unfold run_log in *. rewrite Hl. by apply elem_of_app; left.
Qed.

Lemma announced_weaken st0 n m st : (n <= m)%nat -> announced st0 n st -> announced st0 m st.
Proof. intros Hm (? & new & ? & ? & ?). split; [done|]. exists new. split; [done|]. split; [lia|done]. Qed.

Lemma append_event_still st e : still st (append_event name st e).1.
Proof.
  unfold append_event. destruct (AppendEvent _ _ _ _) as [w r] eqn:H. cbn. split; [by eapply AppendEvent_extends|done].
Qed.

Lemma base_event_still st typ inv source k r p : still st (baseEvent clock member st req typ inv source k r p).1.
Proof. by apply still_same. Qed.

Lemma appendTerminal_still st typ inv source k r p : still st (appendTerminal name clock member st req typ inv source k r p).1.1.
Proof.
  unfold appendTerminal. destruct (baseEvent _ _ _ _ _ _ _ _ _ _) as [st1 e] eqn:Hb.
  pose proof (base_event_still st typ inv source k (Some r) (Some p)) as H1. rewrite Hb in H1.
  pose proof (append_event_still st1 (set_cost e (CostRaw (rt_cost r)))) as H2. destruct (append_event _ _ _).
  by eapply still_trans.
Qed.

Lemma buildSuccessTerminal_still st typ inv source k r p : still st (buildSuccessTerminal clock member st req typ inv source k r p).1.
Proof.
  unfold buildSuccessTerminal. destruct (baseEvent _ _ st _ _ _ _ _ _ _) as [st1 e] eqn:Hb.
  pose proof (base_event_still st typ inv source k (Some r) p) as H1. rewrite Hb in H1. cbn in H1.
  pose proof (run_validator_waits st1) as Hw. destruct (dq_validator req) as [v|]; [|done].
  assert (H2 : still st1 (run_validator st1 v (set_cost e (CostRaw (rt_cost r)))).1).
  { destruct (run_validator _ _ _) as [st2 res] eqn:Hr. destruct (Hw _ _ _ _ eq_refl Hr) as [[Hx _] _]. split; [by eapply extends_weaken|].
    unfold run_validator in Hr. destruct (v _ _) as [[? ?] ?]. by injection Hr as <- _. }
  destruct (run_validator _ _ _) as [st2 [e'|err]]; [|by eapply still_trans]. cbn in H2.
  destruct (baseEvent _ _ st2 _ _ _ _ _ _ _) as [st3 again] eqn:Hb2.
  pose proof (base_event_still st2 typ inv source k (Some r) p) as H3. rewrite Hb2 in H3.
  eapply still_trans; [exact H1|]. by eapply still_trans.
Qed.

Lemma close_attempt_still st typ inv source k r p out : still st (close_attempt name clock member st req typ inv source k r p out).1.
Proof.
  unfold close_attempt. pose proof (appendTerminal_still st typ inv source k r p) as H.
  by destruct (appendTerminal _ _ _ _ _ _ _ _ _ _ _) as [[? ?] ?].
Qed.

Lemma finish_attempt_still st inv source maxRetries k r err out :
  still st (finish_attempt name clock member st req inv source maxRetries k r err out).1.
Proof.
  unfold finish_attempt, finish_discarded, finish_failed, finish_ok. cbv zeta.
  destruct (_ || _); [apply close_attempt_still|]. destruct (_ && _).
  2: { destruct (_ || _); [apply close_attempt_still | by apply still_same]. }
  destruct (negb _); [apply close_attempt_still|].
  set (typ := if rt_semantic_type r == "" then _ else _). set (p := match rt_payload r with Some _ => _ | None => _ end).
  pose proof (buildSuccessTerminal_still st typ inv source k r p) as H1.
  destruct (buildSuccessTerminal _ _ _ _ _ _ _ _ _ _) as [st1 [e|e]]; cbn in H1; [|eapply still_trans; [exact H1|apply close_attempt_still]].
  pose proof (appendTerminal_still st1 "runner_invocation_succeeded" inv source k r (runnerSuccessPayload r typ)) as H2.
  destruct (appendTerminal _ _ _ _ _ _ _ _ _ _ _) as [[st2 s] [a|e']]; cbn in H2; [|by eapply still_trans].
  pose proof (append_event_still st2 e) as H3. destruct (append_event _ _ _) as [st3 res].
  eapply still_trans; [exact H1|]. by eapply still_trans.
Qed.

Lemma appendStarted_still st inv source k : still st (appendStarted name clock member st req inv source k).1.
Proof.
  unfold appendStarted. destruct (baseEvent _ _ _ _ _ _ _ _ _ _) as [st1 e] eqn:Hb.
  pose proof (base_event_still st "runner_invocation_started" inv source k None (Some (startedPayload member (run_md st) req))) as H1.
  rewrite Hb in H1. eapply still_trans; [exact H1|]. apply append_event_still.
Qed.

Lemma appendRetry_still st k prior : still st (appendRetry name clock member st req k prior).1.
Proof. unfold appendRetry. cbn [read_clock]. eapply still_trans; [|apply append_event_still]. by apply still_same. Qed.

(** At most one request is sent, and only after its start is in the log. *)
Lemma attempt_once_announced st0 n st source maxRetries k prior out :
  announced st0 n st ->
  announced st0 (S n) (attempt_once name clock member send st req source maxRetries k prior out).1.
Proof.
  intros Hst. unfold attempt_once.
  assert (Hkeep : forall st', still st st' -> announced st0 (S n) st').
  { intros st' H. eapply announced_still; [exact H|]. by eapply announced_weaken; [|exact Hst]; lia. }
  assert (H0 : still st (if 1 <? k then let '(s, r) := appendRetry name clock member st req k prior in (s, append_error r) else (st, None)).1).
  { destruct (1 <? k); [|by apply still_same]. pose proof (appendRetry_still st k prior) as H. by destruct (appendRetry _ _ _ _ _ _ _). }
  destruct (if 1 <? k then _ else _) as [sr [err|]]; [by apply Hkeep|]. cbn [fst] in H0. cbn [read_clock].
  set (st1 := mk_run _ _ _ _ _). set (inv := invocationIDFor source k _).
  assert (H1 : still st st1) by (eapply still_trans; [exact H0|by apply still_same]).
  pose proof (appendStarted_still st1 inv source k) as H2.
  destruct (appendStarted _ _ _ _ _ _ _ _) as [st2 [a|err]] eqn:Hs; cbn [fst] in H2; [|apply Hkeep; by eapply still_trans].
  apply appendStarted_ok in Hs as (e & x & Hl & Hx & Hab & _ & _).
  unfold send_request. match goal with |- context [send ?s ?q] =>
    pose proof (others_send s q) as Hn; set (rq := q) in *; destruct (send s rq) as [ss [r err]] end.
  cbn [fst] in Hn. set (st3 := mk_run _ _ _ _ _). match goal with |- context [finish_attempt _ _ _ _ _ _ _ _ _ _ _ ?o] => set (out2 := o) end.
  eapply announced_still; [apply finish_attempt_still|].
  destruct (announced_still _ _ _ _ (still_trans _ _ _ H1 H2) Hst) as (Hext & new & Hnew & Hlen & Ha).
  assert (Hlog : exists more, run_log st3 = run_log st2 ++ more) by (destruct Hn as (l & Hn & _); exists l; exact Hn).
  split; [eapply extends_trans; [exact Hext|]; by eapply extends_weaken|]. exists (new ++ [rq]). cbn [dp_sent st3]. rewrite Hnew, length_app, app_assoc. split; [done|]. split; [cbn; lia|].
  destruct Hlog as [more ->]. intros q [Hq| ->%list_elem_of_singleton]%elem_of_app.
  - destruct (Ha q Hq) as (y & Hy & ?). exists y. split; [by apply elem_of_app; left|done].
  - destruct (recorded_fields _ _ Hx) as (Ht & Hc & Hr & _). exists x. split; [rewrite Hl; set_solver|].
    unfold announces. rewrite Ht, Hc, Hr, (ab_type _ _ _ _ _ _ Hab), (ab_cause _ _ _ _ _ _ Hab), (ab_runner _ _ _ _ _ _ Hab).
    split; [done|]. split; [done|]. split; [done|]. by eexists.
Qed.

Lemma attempt_loop_announced fuel st0 n st source maxRetries k prior out :
  announced st0 n st ->
  announced st0 (fuel + n) (attempt_loop name clock member send fuel st req source maxRetries k prior out).1.1.
Proof.
  revert n st k prior out. induction fuel as [|fuel IH]; intros n st k prior out Hst; [done|]. cbn [attempt_loop].
  pose proof (attempt_once_announced st0 n st source maxRetries k prior out Hst) as H1.
  destruct (attempt_once _ _ _ _ _ _ _ _ _ _ _) as [st1 [o' err|o' prior']]; cbn [fst] in *.
  - by eapply announced_weaken; [|exact H1]; lia.
  - eapply announced_weaken; [|by apply (IH (S n))]. lia.
Qed.

Lemma Dispatch_announced st :
  announced st (Z.to_nat (Z.max 0 (dq_max_retries req) + 1)) (Dispatch name clock member adapter_kind send st req).1.1.
Proof.
  assert (H0 : announced st 0 st) by (split; [apply extends_refl|]; exists []; rewrite app_nil_r; split; [done|]; split; [done|]; by intros q ?%elem_of_nil).
  unfold Dispatch. destruct (preflight _ _ _) as [u|err]; [|by eapply announced_weaken; [|exact H0]; lia].
  eapply announced_weaken; [|by eapply attempt_loop_announced].
  set (m := Z.max 0 (dq_max_retries req)). enough (wrap64 (m + 1) <= m + 1) by lia. unfold wrap64.
  enough ((m + 1 + 2 ^ 63) mod 2 ^ 64 <= m + 1 + 2 ^ 63) by lia. apply Z.mod_le; lia.
Qed.

End dispatch_theory.

Lemma Dispatch_attempts name clock member kind send quiet req st st' out
    (others_send : forall ss q, extends name quiet ss (send ss q).1)
    (others_validate : forall v w e, dq_validator req = Some v -> extends name quiet (wd_sessions w) (v w e).1.1) :
  dq_max_retries req < int_max -> Dispatch name clock member kind send st req = (st', out, None) ->
  exists l, run_log name st' = run_log name st ++ l /\
    attempts clock member quiet req (run_md st) (if is_blank (dq_source req) then dq_command req else trim_space (dq_source req))
      1 l (do_invocations out) (do_terminal_type out) /\
    do_attempts out = len_z (do_invocations out) /\ len_z (do_invocations out) <= Z.max 0 (dq_max_retries req) + 1.
Proof.
  intros Hretries. unfold Dispatch. destruct (preflight _ _ _) as [u|err]; [|done]. set (m := Z.max 0 (dq_max_retries req)).
  assert (Hw : wrap64 (m + 1) = m + 1) by (apply wrap64_id; unfold in_int, int_min, int_max in *; lia). rewrite Hw.
  intros H. eapply (attempt_loop_spec name clock member send quiet others_send req others_validate (run_md st)) in H
    as (l & ids & Hl & Hat & Hi & Ha & Hlen); [|lia|lia|lia|done].
  cbn in Hi. subst ids. exists l. split; [done|]. split; [done|]. unfold len_z. lia.
Qed.

(** C27. A runner is asked only after the log says so.  Whatever fails in a
    dispatch (an append, the runner, the checks of its answer) and whatever
    others append meanwhile, every request that the adapter is handed has a
    [runner_invocation_started] event in the log, with its invocation id, its
    attempt and the cause of the dispatch, and at most [MaxRetries + 1] requests
    are handed over. *)
Theorem dispatch_writes_ahead name clock member kind send quiet req st
    (others_send : forall ss q, extends name quiet ss (send ss q).1)
    (others_validate : forall v w e, dq_validator req = Some v -> extends name quiet (wd_sessions w) (v w e).1.1) :
  let st' := (Dispatch name clock member kind send st req).1.1 in
  exists new, dp_sent st' = dp_sent st ++ new /\ len_z new <= Z.max 0 (dq_max_retries req) + 1 /\
    forall q, q ∈ new -> exists x r, x ∈ run_log name st' /\ ev_type x = "runner_invocation_started" /\
      ev_causation_event_id x = trim_space (dq_causation req) /\ ev_runner x = Some r /\
      rn_invocation_id r = rq_invocation q /\ rn_attempt r = rq_attempt q.
Proof.
  cbv zeta. destruct (Dispatch_announced name clock member kind send quiet others_send req others_validate st) as (_ & new & Hs & Hn & H).
  exists new. split; [done|]. split; [unfold len_z; lia|]. intros q Hq. destruct (H q Hq) as (x & Hx & _ & Ht & Hc & r & Hr & ?). by exists x, r.
Qed.

(** What a dispatch that reports no error has appended: after the log as it
    was, and amid events of others, one attempt after the other, each with its
    retry notice (from the second on) and its start, and only the last one with an
    end: a failure or discard of that invocation, or its success followed by the
    terminal event, whose type was allowed and which the validator made, carrying
    the runner information of the invocation.  The reported invocations and the
    reported type are those of the log. *)
Theorem dispatch_trace name clock member kind send quiet req st st' out
    (others_send : forall ss q, extends name quiet ss (send ss q).1)
    (others_validate : forall v w e, dq_validator req = Some v -> extends name quiet (wd_sessions w) (v w e).1.1)
    (Hretries : dq_max_retries req < int_max)
    (H : Dispatch name clock member kind send st req = (st', out, None)) :
  let source := if is_blank (dq_source req) then dq_command req else trim_space (dq_source req) in
  exists l, run_log name st' = run_log name st ++ l /\
    attempts clock member quiet req (run_md st) source 1 l (do_invocations out) (do_terminal_type out) /\
    do_attempts out = len_z (do_invocations out) /\ len_z (do_invocations out) <= Z.max 0 (dq_max_retries req) + 1.
Proof.
  cbv zeta. by eapply Dispatch_attempts.
Qed.

(** ** A concrete dispatch

    The runner of ann times out once and then answers; somebody else's event is
    appended during the first run. *)

Definition nx_member : Member :=
  mk_member "ann" "Ann" "ann.sh" "" "member" true HermesAgentKind [] [] "" "" None ""
    (Some (mk_resolution "ann.sh" "/bin/ann.sh" "/bin/ann.sh" "/bin" "path" 493)).

Definition nx_clock (i : nat) : time := fx_later + Z.of_nat i * second.

Definition nx_other : EventEnvelope :=
  fx_event fx_council_md "beat" "stream_subscriber_heartbeat" "discussion" "bob" ["mod"] ∅.

Definition nx_failed : runner_result := mk_result false "" (1, 0) None "" "" None "timeout" false.
Definition nx_answer : runner_result := mk_result true "done" (1, 0) None "" "" None "" false.

Definition nx_send (ss : sessions) (q : runner_request) : sessions * (runner_result * option string) :=
  if rq_attempt q =? 1
  then (wd_sessions (AppendEvent "sess_council" (mk_world ss fx_council_md) nx_other None).1, (nx_failed, Some "deadline exceeded"))
  else (ss, (nx_answer, None)).

Lemma nx_others ss q : extends "sess_council" any_event ss (nx_send ss q).1.
Proof.
  unfold nx_send. destruct (_ =? _); cbn; [|apply extends_refl].
  destruct (AppendEvent _ _ _ _) as [w r] eqn:H. by apply AppendEvent_extends in H.
Qed.

Definition nx_request : RunnerDispatchRequest :=
  mk_dispatch "cmd_run" "" "evt_cause" "do it" 1 0 (fun _ => false) [] "" None "" "".

Definition nx_start : run_state := mk_run fx_w0 0 [] [] [].
Definition nx_run := Dispatch "sess_council" nx_clock nx_member (Some HermesAgentKind) nx_send nx_start nx_request.

Example nx_log :
  nx_run.2 = None /\ map ev_type (run_log "sess_council" nx_run.1.1) =
  ["session_created"; "runner_invocation_started"; "stream_subscriber_heartbeat"; "runner_retry_attempted";
   "runner_invocation_started"; "runner_invocation_succeeded"; "assignee_update"].
Proof. vm_compute. by split. Qed.

Lemma nx_ok : nx_run = (nx_run.1.1, nx_run.1.2, None).
Proof. vm_compute. reflexivity. Qed.

Lemma dispatch_writes_ahead_witness :
  exists new, dp_sent nx_run.1.1 = [] ++ new /\ len_z new <= 2 /\ forall q, q ∈ new -> exists x r,
    x ∈ run_log "sess_council" nx_run.1.1 /\ ev_type x = "runner_invocation_started" /\ ev_causation_event_id x = "evt_cause" /\
    ev_runner x = Some r /\ rn_invocation_id r = rq_invocation q /\ rn_attempt r = rq_attempt q.
Proof.
  apply (dispatch_writes_ahead "sess_council" nx_clock nx_member (Some HermesAgentKind) nx_send any_event nx_request nx_start nx_others).
  intros v w e [=].
Defined.

Lemma dispatch_trace_witness :
  exists l, run_log "sess_council" nx_run.1.1 = run_log "sess_council" nx_start ++ l /\
    attempts nx_clock nx_member any_event nx_request fx_council_md "cmd_run" 1 l (do_invocations nx_run.1.2) (do_terminal_type nx_run.1.2) /\
    do_attempts nx_run.1.2 = len_z (do_invocations nx_run.1.2) /\ len_z (do_invocations nx_run.1.2) <= 2.
Proof.
  apply (dispatch_trace "sess_council" nx_clock nx_member (Some HermesAgentKind) nx_send any_event nx_request nx_start _ _ nx_others).
  - intros v w e [=].
  - vm_compute. reflexivity.
  - exact nx_ok.
Defined.
