(* ===== verification/SpeakerDispatch.v ===== *)
(** * Dispatch to the selected speaker (daemon/selected_speaker.go, council_handlers.go)

    A [speaker_selected] event is turned into one run of the selected member's
    runner, whose answer becomes the speech.  Everything that prevents this is
    recorded as a diagnostic.  Parameters: the adapter, the way it posts a visible
    message, the snapshot of the registry as it is loaded, and the builder of the
    prompt. *)

From S2P Require Import Prelude GoValue GoTime Model Ids Sha256 Evidence Events EventLog LogSpec Command Delegation Stream Registry MemberRuntime Closeout Lifecycle ArgumentGraph SelectedRunner Council Readiness PromptEvidence RunnerDispatch.

(** ** The selected member *)

Definition selectedSpeakerMember (e : EventEnvelope) : result string string :=
  let payloadMember := trim_space (payloadStringDefault (pl e) "member" "") in
  let toMember := match ev_to e with [to] => trim_space to | _ => "" end in
  reject (payloadMember != "") && (toMember != "") && (payloadMember != toMember) with
    ("speaker_selected member/to mismatch: payload.member=" +:+ quoted payloadMember +:+ " to[0]=" +:+ quoted toMember);;
  Ok (if payloadMember != "" then payloadMember else toMember).

(** payloadString of the daemon *)
Definition trimmed_text (p : payload) (key : string) : string := trim_space (payloadStringDefault p key "").

Fixpoint first_speech (p : payload) (keys : list string) : payload :=
  match keys with
  | [] => p
  | key :: rest =>
      match p !! key with
      | Some (AStr s) => if is_blank s then first_speech p rest else <["speech" := AStr s]> p
      | _ => first_speech p rest
      end
  end.

(** The speech is taken from the first of the other keys that has a text. *)
Definition normalizeSelectedRunnerSpeechPayload (p : payload) : payload :=
  if is_blank (payloadStringDefault p "speech" "") then first_speech p ["message"; "content"; "text"] else p.

(** ** Visible delivery *)

(** runner.VisibleDeliveryResult *)
Record VisibleDeliveryResult := mk_visible_result {
  vr_ok : bool; vr_status : string; vr_kind : string; vr_platform : string; vr_channel_id : string; vr_thread_id : string;
  vr_message_id : string; vr_posting_path : string; vr_sender : string; vr_error_class : string }.

Definition selectedRunnerRequiresVisibleDiscordDelivery (md : SessionMetadata) : bool :=
  match md_surface md with
  | None => false
  | Some s => (trim_space (su_kind s) == "discord_thread") || (trim_space (su_platform s) == "discord")
  end.

Definition selectedRunnerVisibleDeliveryTarget (s : Surface) : result string string :=
  ensure trim_space (su_kind s) == "discord_thread" or "selected runner visible delivery requires discord_thread surface";;
  ensure trim_space (su_platform s) == "discord" or "selected runner visible delivery requires discord platform";;
  let channelID := trim_space (su_channel_id s) in
  let threadID := trim_space (su_thread_id s) in
  reject (channelID == "") || (threadID == "") with "selected runner visible delivery requires channel_id and thread_id";;
  Ok ("discord:" +:+ channelID +:+ ":" +:+ threadID).

(** What the runner reports of the surface must be what is configured. *)
Definition observed_differs (observed configured : string) : bool :=
  (trim_space observed != "") && (trim_space observed != trim_space configured).

Definition selectedRunnerVisibleDeliveryEvidence (memberID : string) (s : Surface) (speechEventID : string)
    (r : VisibleDeliveryResult) : result string payload :=
  ensure vr_ok r or ("selected member visible delivery did not return ok status: " +:+ vr_error_class r);;
  ensure trim_space (vr_status r) == "posted" or
    ("selected member visible delivery status " +:+ quoted (vr_status r) +:+ " is not posted");;
  reject is_blank (vr_message_id r) with "selected member visible delivery message_id missing";;
  ensure trim_space (vr_posting_path r) == "selected_member_profile_send" or
    ("selected member visible delivery used disallowed posting_path " +:+ quoted (vr_posting_path r));;
  ensure trim_space (vr_sender r) == trim_space memberID or
    ("selected member visible delivery sender_member " +:+ quoted (vr_sender r) +:+ " does not match selected member " +:+ quoted memberID);;
  reject observed_differs (vr_kind r) (su_kind s) with
    ("selected member visible delivery kind " +:+ quoted (trim_space (vr_kind r)) +:+ " does not match configured surface");;
  reject observed_differs (vr_platform r) (su_platform s) with
    ("selected member visible delivery platform " +:+ quoted (trim_space (vr_platform r)) +:+ " does not match configured surface");;
  reject observed_differs (vr_channel_id r) (su_channel_id s) with "selected member visible delivery channel_id mismatch";;
  reject observed_differs (vr_thread_id r) (su_thread_id s) with "selected member visible delivery thread_id mismatch";;
  Ok {[ "status" := AStr "posted"; "kind" := AStr "discord_thread"; "platform" := AStr "discord";
        "channel_id" := AStr (trim_space (su_channel_id s)); "thread_id" := AStr (trim_space (su_thread_id s));
        "message_id" := AStr (trim_space (vr_message_id r)); "posting_path" := AStr "selected_member_profile_send";
        "sender_member" := AStr (trim_space memberID); "references_event_id" := AStr (trim_space speechEventID);
        "speech_event_id" := AStr (trim_space speechEventID) ]}.

Definition default_entry (key : string) (v : any) (p : payload) : payload :=
  match p !! key with
  | Some _ => p
  | None => <[key := v]> p
  end.

(** The first evidence object is made to name the speech. *)
Fixpoint bind_evidence (p : payload) (keys : list string) (speechEventID : string) : payload :=
  match keys with
  | [] => p
  | key :: rest =>
      match p !! key with
      | Some (AMap m) =>
          <[key := AMap (default_entry "speech_event_id" (AStr speechEventID)
                           (default_entry "references_event_id" (AStr speechEventID) m))]> p
      | _ => bind_evidence p rest speechEventID
      end
  end.

Definition bindSelectedRunnerSurfaceEvidence (p : payload) (speechEventID : string) : payload :=
  if is_blank speechEventID then p else bind_evidence p evidence_keys speechEventID.

Definition visible_sender : Type := sessions -> VisibleDeliveryRequest -> sessions * (VisibleDeliveryResult * option string).

Section handler.
Context (name : string) (clock : nat -> time) (wall : time) (adapter_kind : option string)
  (send : sessions -> runner_request -> sessions * (runner_result * option string)) (visible : option visible_sender).

(** [SelectedSpeakerDispatchHandler]; its metadata is that of the state. *)
Record SelectedSpeakerDispatchHandler := mk_handler {
  sh_member : Member; sh_max_retries : Z; sh_timeout : Z; sh_prompt_builder : option (EventEnvelope -> Member -> string) }.

(** Posts the speech when the surface demands it: the sessions it leaves, what
    was posted, and the payload with the evidence. *)
Definition bindSelectedMemberVisibleDelivery (h : SelectedSpeakerDispatchHandler) (w : world) (p : payload) (speechEventID : string)
    : sessions * list VisibleDeliveryRequest * result run_error payload :=
  let fail text := (wd_sessions w, [], Err (RunText text)) in
  let md := wd_md w in
  let m := sh_member h in
  if negb (selectedRunnerRequiresVisibleDiscordDelivery md) then (wd_sessions w, [], Ok p)
  else
    let speech := trimmed_text p "speech" in
    if speech == "" then fail "selected runner visible delivery speech is required"
    else
      match visible with
      | None => fail "selected runner adapter cannot perform participant profile visible delivery"
      | Some post =>
          let s := default no_surface (md_surface md) in
          match selectedRunnerVisibleDeliveryTarget s with
          | Err text => fail text
          | Ok target =>
              let q := mk_visible (md_id md) m (resolvedWrapper m) target speech (su_kind s) (su_platform s) (su_channel_id s)
                         (su_thread_id s) (sh_timeout h) in
              match post (wd_sessions w) q with
              | (ss, (_, Some err)) => (ss, [q], Err (RunText ("selected member visible delivery failed: " +:+ err)))
              | (ss, (r, None)) =>
                  match selectedRunnerVisibleDeliveryEvidence (me_id m) s speechEventID r with
                  | Err text => (ss, [q], Err (RunText text))
                  | Ok evidence => (ss, [q], Ok (<["surface_evidence" := AMap evidence]> p))
                  end
              end
          end
      end.

(** storage.BuildCouncilEvent *)
Definition BuildCouncilEvent (w : world) (spec : CouncilEventSpec) : result error EventEnvelope :=
  try _ := precheck (wd_md w) spec in
  match wd_sessions w !! name with
  | None => Err (NewValidationError CategorySessionUnsafe name "no such file or directory")
  | Some sd => try ix := ReadLogIndex sd (wd_md w) in buildCouncilEvent wall (wd_md w) ix spec
  end.

(** The terminal event in the form of the council's own speech. *)
Definition as_speech (e canonical : EventEnvelope) (p : payload) : EventEnvelope :=
  mk_event (ev_schema_version e) (ev_event_id e) (ev_command_id e) (ev_causation_event_id e) (ev_correlation_id e)
    (ev_session_id e) (ev_session_type e) (ev_turn canonical) (ev_phase canonical) (ev_type e) (ev_from canonical)
    (ev_to canonical) (ev_created_at e) (ev_runner e) (ev_cost e) (Some p).

Definition validateCanonicalSpeechTerminal (h : SelectedSpeakerDispatchHandler) : terminal_validator := fun w e =>
  match ev_payload e with
  | None => (wd_sessions w, [], Err (RunText "selected runner speech payload is required"))
  | Some p =>
      match BuildCouncilEvent w (mk_council_spec "speak" (me_id (sh_member h)) (ev_command_id e) (ev_causation_event_id e)
                                   (Some (normalizeSelectedRunnerSpeechPayload p)) (ev_created_at e)) with
      | Err err => (wd_sessions w, [], Err (RunStorage err))
      | Ok canonical =>
          let '(ss, posted, r) := bindSelectedMemberVisibleDelivery h w (pl canonical) (ev_event_id e) in
          (ss, posted, (fun p1 => as_speech e canonical (bindSelectedRunnerSurfaceEvidence p1 (ev_event_id e))) <$> r)
      end
  end.

(** ** The handler *)

Inductive handle_error :=
| DurableFailureRecorded
| HandleFailed (e : run_error).

Definition promptFor (h : SelectedSpeakerDispatchHandler) (e : EventEnvelope) : result string string :=
  match sh_prompt_builder h with
  | None => Err "selected speaker prompt builder is required"
  | Some build =>
      let prompt := trim_space (build e (sh_member h)) in
      reject prompt == "" with "selected speaker prompt builder returned empty prompt";; Ok prompt
  end.

(** A diagnostic about the selection [e]. *)
Definition diagnostic_event (md : SessionMetadata) (e : EventEnvelope) (t1 t2 : time) (p : payload) : EventEnvelope :=
  mk_event SchemaVersion (eventIDFor (ev_event_id e) "selected_runner_dispatch_failed" 1 t1) (ev_command_id e) (ev_event_id e)
    (md_id md) (md_id md) (md_session_type md) None (ev_phase e) "selected_runner_dispatch_failed" daemonPrincipal
    [md_moderator md] t2 None None (Some p).

Definition append_diagnostic (st : run_state) (e : EventEnvelope) (p : payload) : run_state * option run_error :=
  let '(st1, t1) := read_clock clock st in
  let '(st2, t2) := read_clock clock st1 in
  let '(st3, r) := append_event name st2 (diagnostic_event (run_md st) e t1 t2 p) in
  (st3, append_error r).

Definition appendPromptDiagnostic (h : SelectedSpeakerDispatchHandler) (st : run_state) (e : EventEnvelope) (text : string)
    : run_state * option run_error :=
  append_diagnostic st e
    {[ "reason" := AStr "selected_runner_prompt_missing"; "selected_member" := AStr (me_id (sh_member h));
       "turn" := default ANil (pl e !! "turn"); "diagnostic_owner" := AStr "control/NEWFIX-001";
       "diagnostic_path" := AStr "internal/daemon/selected_speaker.go"; "validation_error" := AStr text;
       "prompt_builder_configured" := ABool (match sh_prompt_builder h with Some _ => true | None => false end) ]}.

(** The copy of the metadata that a dispatch of [e] works with. *)
Definition dispatch_metadata (md : SessionMetadata) (e : EventEnvelope) : SessionMetadata :=
  let st := md_state md in
  mk_metadata (md_id md) (md_session_type md) (md_status md) (md_title md) (md_moderator md) (md_participants md) (md_surface md)
    (md_linked_authority md) (md_timeout_evidence md) (md_turn_mode md) (md_created_at md) (md_limits md)
    (mk_state (ev_phase e) (default (st_current_turn st) (ev_turn e)) (st_last_speaker st) (st_consensus_round st))
    (md_registry_snapshot md).

Definition set_md (st : run_state) (md : SessionMetadata) : run_state :=
  mk_run (mk_world (wd_sessions (dp_world st)) md) (dp_tick st) (dp_faults st) (dp_sent st) (dp_posted st).

Definition speaker_request (h : SelectedSpeakerDispatchHandler) (e : EventEnvelope) (prompt : string) : RunnerDispatchRequest :=
  mk_dispatch (trim_space (ev_command_id e)) (trim_space (ev_command_id e)) (ev_event_id e) prompt (sh_max_retries h)
    (sh_timeout h) (fun _ => false) ["speech"] "selected_runner_requires_canonical_speech"
    (Some (validateCanonicalSpeechTerminal h)) "selected_runner_speech_payload_missing" "selected_runner_speech_payload_invalid".

Definition failed_types : list string := ["runner_invocation_failed"; "runner_result_discarded"].

(** The metadata of the handler itself is not changed by the dispatch. *)
Definition Handle (h : SelectedSpeakerDispatchHandler) (st : run_state) (e : EventEnvelope) : run_state * option handle_error :=
  let fail text := (st, Some (HandleFailed (RunText text))) in
  if ev_type e != "speaker_selected" then (st, None)
  else
    match selectedSpeakerMember e with
    | Err text => fail text
    | Ok selected =>
        if selected == "" then fail "speaker_selected missing selected member"
        else if selected != me_id (sh_member h) then (st, None)
        else if is_blank (ev_command_id e) then fail "speaker_selected missing command_id"
        else
          match promptFor h e with
          | Err text =>
              match appendPromptDiagnostic h st e text with
              | (st1, Some err) => (st1, Some (HandleFailed err))
              | (st1, None) => (st1, Some DurableFailureRecorded)
              end
          | Ok prompt =>
              let '(st1, out, err) := Dispatch name clock (sh_member h) adapter_kind send
                                        (set_md st (dispatch_metadata (run_md st) e)) (speaker_request h e prompt) in
              (set_md st1 (run_md st),
               match err with
               | Some err => Some (HandleFailed err)
               | None => if mem_str (do_terminal_type out) failed_types then Some DurableFailureRecorded else None
               end)
          end
    end.
End handler.
