(* ===== verification/HermesAgent.v ===== *)
(** * The Hermes runner adapter (runner/hermes_agent.go, runner/cost.go)

    How a run of a member's wrapper is started, and what its output means: a
    response, with its type and payload, a delivery receipt, the cost line, or one
    of the classes of failure, with an excerpt of the output from which paths and
    secrets are gone.  The process itself is a parameter, a function from the
    command to what it printed and how it ended.  Go visits the entries of a map
    in no fixed order; where that can be seen, the order is a parameter too. *)

From S2P Require Import Prelude GoValue Ids Paths Registry Events ArgumentGraph Json Text EventCodec RunnerDispatch SpeakerDispatch.

Definition ErrorClassAdapterCommandMismatch : string := "adapter_command_mismatch".
Definition ErrorClassModelProviderFailure : string := "model_provider_failure".
Definition ErrorClassTimeout : string := "timeout".
Definition ErrorClassMalformedOrMissingResponse : string := "malformed_or_missing_response".
Definition ErrorClassWorkspaceMissing : string := "workspace_missing".
Definition ErrorClassWorkspaceInvalid : string := "workspace_invalid".
Definition ErrorClassVisibleDeliveryFailed : string := "visible_delivery_failed".
Definition ErrorClassVisibleDeliveryMalformed : string := "visible_delivery_malformed".
Definition HermesAgentCostSource : string := "hermes-agent-stderr-parse".

(** ** Lines of output *)

Definition nonEmptyOutputLines (out : string) : list string :=
  List.filter (fun l => l != "") (map trim_space (split_nl out)).

Definition isHermesCLIControlLine (line : string) : bool :=
  has_prefix line "session_handle=" || has_prefix line "session_id:" || has_prefix line "session_id=".

Definition looksLikeJSON (line : string) : bool := has_prefix line "{" || has_prefix line "[".

Definition any_marker (text : string) (markers : list string) : bool := existsb (contains text) markers.

Definition provider_markers : list string :=
  ["model_provider_failure"; "provider error"; "provider_error"; "model error"; "model_error"; "model not found"; "rate limit";
   "quota exceeded"; "invalid api key"; "authentication failed"; "permission denied"].

Definition outputHasProviderFailure (output : string) : bool := any_marker (to_lower output) provider_markers.

Definition isDeliveryOrFallbackOnly (line : string) : bool :=
  any_marker (to_lower line)
    ["platform_delivery"; "delivery_evidence"; "discord_message_id"; "message_id="; "delivered="; "fallback"; "manual output"].

(** ** Decoded responses *)

Fixpoint firstString (raw : payload) (keys : list string) : string :=
  match keys with
  | [] => ""
  | k :: rest =>
      match raw !! k with
      | Some (AStr s) => if is_blank s then firstString raw rest else trim_space s
      | _ => firstString raw rest
      end
  end.

Definition firstNonEmpty (values : list string) : string := trim_space (firstNonEmptyString values).

Definition jsonHasProviderFailure (raw : payload) : bool :=
  existsb (fun k => match raw !! k with Some (AStr s) => outputHasProviderFailure s | _ => false end)
    ["error_class"; "code"; "reason"; "error"].

Definition defines (raw : payload) (key : string) : bool :=
  match raw !! key with Some _ => true | None => false end.

Definition type_keys : list string := ["semantic_event_type"; "event_type"; "type"].

Definition jsonHasDeliveryOrFallbackOnly (raw : payload) : bool :=
  mem_str (to_lower (firstString raw type_keys)) ["platform_delivery"; "delivery_evidence"; "fallback"] ||
  existsb (defines raw) ["platform_delivery"; "delivery_evidence"; "discord_message_id"; "message_id"; "fallback"; "manual_output"] ||
  mem_str (firstString raw ["status"]) ["posted"; "delivered"; "fallback"].

(** The entries that are neither the type nor control fields. *)
Definition payloadFromTypedFields (raw : payload) : payload :=
  delete_keys ["semantic_event_type"; "event_type"; "type"; "status"; "session_handle"] raw.

(** What the output means: a response, or the class of the failure, which is its
    reason too. *)
Abbreviation semantic := (result string (string * payload)).

Definition malformed : semantic := Err ErrorClassMalformedOrMissingResponse.

Definition parseHermesJSON (raw : payload) : semantic :=
  reject jsonHasProviderFailure raw with ErrorClassModelProviderFailure;;
  reject jsonHasDeliveryOrFallbackOnly raw with ErrorClassAdapterCommandMismatch;;
  let eventType := firstString raw type_keys in
  let typed :=
    if eventType != "" then
      let p := payloadFromTypedFields raw in
      if bool_decide (p = ∅) then malformed else Ok (eventType, p)
    else
      let text := firstString raw ["response"; "text"; "message"; "content"] in
      if text != "" then Ok ("assignee_update", {[ "message" := AStr text ]}) else malformed in
  match raw !! "payload" with
  | Some (AMap p) =>
      if bool_decide (p = ∅) then typed else Ok (if eventType == "" then "assignee_update" else eventType, p)
  | _ => typed
  end.

(** json.Decoder.Decode of one value into a map, and then the end of the input;
    the first failure tells the two apart.  null decodes to a nil map. *)
Inductive decoded_map :=
| NoMap
| MoreAfter
| OneMap (raw : option payload).

Definition decode_map (text : string) : decoded_map :=
  match first_value text with
  | Some (j, rest) =>
      match j, value_of j with
      | JNull, _ => if skip_ws rest == "" then OneMap None else MoreAfter
      | JObj _, Some (AMap m) => if skip_ws rest == "" then OneMap (Some m) else MoreAfter
      | _, _ => NoMap
      end
  | None => NoMap
  end.

Definition parseHermesJSONText (text : string) : semantic :=
  match decode_map text with
  | OneMap raw => parseHermesJSON (default ∅ raw)
  | _ => malformed
  end.

(** The lines in order; [responses] are the response lines so far, in reverse.
    A class or a response ends the scan; here every text does one or the other. *)
Fixpoint scan_lines (lines responses : list string) : result semantic (list string) :=
  match lines with
  | [] => Ok (rev responses)
  | line :: rest =>
      if isHermesCLIControlLine line then scan_lines rest responses
      else if looksLikeJSON line then
        match responses with
        | _ :: _ => Err malformed
        | [] => Err (parseHermesJSONText (join nl lines))
        end
      else if isDeliveryOrFallbackOnly line then Err (Err ErrorClassAdapterCommandMismatch)
      else scan_lines rest (line :: responses)
  end.

Definition parseHermesResponseOutput (stdout stderr : string) : semantic :=
  match scan_lines (nonEmptyOutputLines stdout) [] with
  | Err r => r
  | Ok [] =>
      if outputHasProviderFailure stderr then Err ErrorClassModelProviderFailure else malformed
  | Ok responses => Ok ("assignee_update", {[ "message" := AStr (join nl responses) ]})
  end.

Definition classifyHermesCommandFailure (stdout stderr : string) : string :=
  if outputHasProviderFailure stdout || outputHasProviderFailure stderr then ErrorClassModelProviderFailure
  else "nonzero_exit".

Definition classifyHermesLaunchFailure (err : string) : string :=
  let lower := to_lower err in
  if contains lower "chdir" || contains lower "current directory" then
    if contains lower "no such file" || contains lower "not found" then ErrorClassWorkspaceMissing
    else ErrorClassWorkspaceInvalid
  else "".

(** ** Diagnostics *)

Definition secret_markers : list string :=
  ["message_id"; "token"; "secret"; "password"; "api_key"; "apikey"; "authorization"; "auth="; "profile="; "provider="; "gateway="].

Definition redact_field (field : string) : string :=
  if has_prefix field "/" || any_marker (to_lower field) secret_markers then "[redacted]" else field.

(** A byte of a path: no white space and no quote. *)
Definition path_char (a : Ascii.ascii) : bool :=
  negb (existsb (fun n => is_byte n a) [9; 10; 12; 13; 32; 34; 39]%N).

(** regexp.ReplaceAllString: a slash and the path bytes after it, at least one;
    [inside] says that the slash was replaced and its bytes are being skipped. *)
Fixpoint redact_paths (inside : bool) (s : string) : string :=
  match s with
  | EmptyString => ""
  | String a rest =>
      if inside && path_char a then redact_paths true rest
      else
        match rest with
        | String b _ =>
            if is_byte 47 a && path_char b then "[redacted_path]" +:+ redact_paths true rest
            else String a (redact_paths false rest)
        | EmptyString => String a ""
        end
  end.

Definition redactedDiagnosticExcerpt (stdout stderr : string) : string :=
  let combined := trim_space (stdout +:+ nl +:+ stderr) in
  if combined == "" then ""
  else
    let excerpt := redact_paths false (join " " (map redact_field (str_fields combined))) in
    if 240 <? str_len excerpt then str_take 240 excerpt else excerpt.

Definition diagnosticPayload (class reason stdout stderr : string) : payload :=
  let p : payload := {[ "error_class" := AStr class; "reason" := AStr reason ]} in
  let excerpt := redactedDiagnosticExcerpt stdout stderr in
  if excerpt == "" then p else <["diagnostic_excerpt" := AStr excerpt]> p.

(** ** The session handle and the cost *)

Definition ParseSessionHandle (stdout : string) : option string :=
  match find_first (fun l => has_prefix l "session_handle=") (map trim_space (split_nl stdout)) with
  | Some l => Some (trim_prefix l "session_handle=")
  | None => None
  end.

Definition costScanWindow : Z := 32 * 1024.

Definition cost_names : list string := ["tokens_in"; "tokens_out"; "usd_estimate"].

Definition decode_hermes_cost (old : runner_cost) (j : json) : option runner_cost :=
  match j with
  | JNull => Some old
  | JObj entries =>
      tokens_in ← field cost_names entries decode_int "tokens_in" (rc_tokens_in old);
      tokens_out ← field cost_names entries decode_int "tokens_out" (rc_tokens_out old);
      usd ← field cost_names entries decode_float "usd_estimate" (rc_usd old);
      Some (mk_cost tokens_in tokens_out usd (rc_source old))
  | _ => None
  end.

Definition cost_of_line (line : string) : option runner_cost :=
  match parse line with
  | Some (JObj entries) =>
      match field ["hermes_cost"] entries
              (decode_pointer (mk_cost 0 0 (0, 0) HermesAgentCostSource) decode_hermes_cost) "hermes_cost" None with
      | Some cost => cost
      | None => None
      end
  | _ => None
  end.

Fixpoint first_cost (lines : list string) : option runner_cost :=
  match lines with
  | [] => None
  | l :: rest =>
      let line := trim_space l in
      if (line == "") || negb (contains line "hermes_cost") then first_cost rest
      else match cost_of_line line with
           | Some c => Some c
           | None => first_cost rest
           end
  end.

(** The last bytes of a text. *)
Definition str_last (n : Z) (s : string) : string :=
  if n <? str_len s then String.substring (Z.to_nat (str_len s - n)) (Z.to_nat n) s else s.

Definition ParseHermesCost (stderr : string) : option runner_cost := first_cost (split_nl (str_last costScanWindow stderr)).

(** ** Delivery receipts *)

Record hermesVisibleDeliveryOutput := mk_receipt {
  hv_status : string; hv_kind : string; hv_platform : string; hv_channel_id : string; hv_thread_id : string;
  hv_message_id : string; hv_payload : payload }.

Fixpoint first_text (l : list string) : string :=
  match l with
  | [] => ""
  | s :: rest => if s == "" then first_text rest else s
  end.

Section receipts.
(** The order in which range visits the entries of a map. *)
Variable order : gmap string string -> list (string * string).

(** [firstStringDeep] of a map, and of the maps in a list. *)
Fixpoint deep_string (keys : list string) (a : any) : string :=
  match a with
  | AMap m =>
      let value := firstString m keys in
      if value != "" then value else first_text (map snd (order (deep_string keys <$> m)))
  | AList l => first_text (map (fun x => match x with AMap _ => deep_string keys x | _ => "" end) l)
  | _ => ""
  end.

Definition firstStringDeep (raw : payload) (keys : list string) : string := deep_string keys (AMap raw).

Definition posted_by_default (r : hermesVisibleDeliveryOutput) : hermesVisibleDeliveryOutput :=
  mk_receipt (if hv_status r == "" then "posted" else hv_status r) (hv_kind r) (hv_platform r) (hv_channel_id r)
    (hv_thread_id r) (hv_message_id r) (hv_payload r).

(** The class and the reason of a receipt that is none. *)
Definition parseHermesVisibleDeliveryJSON (raw : option payload) : result (string * string) hermesVisibleDeliveryOutput :=
  match raw with
  | None => Err (ErrorClassVisibleDeliveryMalformed, ErrorClassVisibleDeliveryMalformed)
  | Some raw =>
      reject firstString raw ["error"; "error_message"] != "" with
        (ErrorClassVisibleDeliveryFailed, "visible_delivery_error_result");;
      let deep := firstStringDeep raw in
      let id := deep ["message_id"; "discord_message_id"; "messageId"] in
      let message_id :=
        if id != "" then id
        else match raw !! "message" with
             | Some (AMap message) => firstString message ["id"; "message_id"]
             | _ => ""
             end in
      reject message_id == "" with (ErrorClassVisibleDeliveryMalformed, "visible_delivery_message_id_missing");;
      Ok (posted_by_default
            (mk_receipt (deep ["status"; "delivery_status"]) (deep ["kind"; "surface_kind"]) (deep ["platform"])
               (deep ["channel_id"; "chat_id"]) (deep ["thread_id"]) message_id raw))
  end.

(** strings.Trim of quotes. *)
Definition trim_quotes (s : string) : string :=
  let left t := trim_left_with (String.length t) [dquote; "'"] t in
  str_rev (left (str_rev (left s))).

(** One field of a line of text: key=value. *)
Definition receipt_field (r : hermesVisibleDeliveryOutput) (text : string) : hermesVisibleDeliveryOutput :=
  match cut 61 text with
  | None => r
  | Some (key, v) =>
      let value := trim_quotes (trim_space v) in
      let k := trim_space key in
      let pick keys old := if mem_str k keys then value else old in
      mk_receipt (pick ["status"; "delivery_status"] (hv_status r)) (pick ["kind"] (hv_kind r))
        (pick ["platform"] (hv_platform r)) (pick ["channel_id"; "chat_id"] (hv_channel_id r))
        (pick ["thread_id"] (hv_thread_id r)) (pick ["message_id"; "discord_message_id"] (hv_message_id r))
        (<[key := AStr value]> (hv_payload r))
  end.

Definition parseHermesVisibleDeliveryOutput (stdout : string) : result (string * string) hermesVisibleDeliveryOutput :=
  let text := trim_space stdout in
  reject text == "" with (ErrorClassVisibleDeliveryMalformed, "missing_visible_delivery_output");;
  match decode_map text with
  | MoreAfter => Err (ErrorClassVisibleDeliveryMalformed, ErrorClassVisibleDeliveryMalformed)
  | OneMap raw => parseHermesVisibleDeliveryJSON raw
  | NoMap =>
      let lines := List.filter (fun l => negb (isHermesCLIControlLine l)) (nonEmptyOutputLines stdout) in
      let parsed := foldl receipt_field (mk_receipt "" "" "" "" "" "" ∅) (List.concat (map str_fields lines)) in
      reject hv_message_id parsed == "" with (ErrorClassVisibleDeliveryMalformed, "visible_delivery_message_id_missing");;
      Ok (posted_by_default parsed)
  end.

(** ** Running the wrapper *)

(** What a run of a command leaves: its output, the error of cmd.Run, its exit
    code, the error of its context when that was cancelled or timed out, and how
    long it took. *)
Record process := mk_process {
  pr_stdout : string; pr_stderr : string; pr_error : option string; pr_exit : Z; pr_context : option string;
  pr_seconds : Z * Z }.

(** What os.Stat says of a path: no such file, another error, or whether it is a
    directory. *)
Inductive path_stat :=
| StatMissing (text : string)
| StatError (text : string)
| StatFile (is_dir : bool).

(** A run of the wrapper [path] with arguments in a directory, an environment and
    a time limit (none when it is not positive). *)
Variable run : string -> list string -> string -> list string -> Z -> process.
Variable stat : string -> path_stat.

(** runner.Result: what the dispatcher looks at, and the rest. *)
Record hermes_result := mk_hermes { hr_result : runner_result; hr_stderr : string; hr_exit : Z; hr_handle : option string }.

Definition failed_result (class : string) (p : option payload) : runner_result :=
  mk_result false "" (0, 0) None "" "" p class false.

(** [validateHermesWorkspace]: the class, its payload and the error. *)
Definition bad_workspace (class text : string) : result (string * payload * string) unit :=
  Err (class, diagnosticPayload class class "" text, class +:+ ": " +:+ text).

Definition validateHermesWorkspace (workspace : string) : result (string * payload * string) unit :=
  let dir := trim_space workspace in
  if dir == "" then Ok tt
  else
    match stat dir with
    | StatMissing text => bad_workspace ErrorClassWorkspaceMissing text
    | StatError text => bad_workspace ErrorClassWorkspaceInvalid text
    | StatFile true => Ok tt
    | StatFile false => bad_workspace ErrorClassWorkspaceInvalid "workspace is not a directory"
    end.

Definition resolve_wrapper (resolved : string) (m : Member) : string :=
  let wrapper := trim_space resolved in
  if (wrapper == "") then match me_resolved m with Some w => wr_resolved w | None => wrapper end else wrapper.

(** The arguments of an invocation without arguments of its own. *)
Definition invoke_args (mode : string) (handle : option string) (prompt : string) : list string :=
  if mode == "chat" then ["chat"; "-Q"] ++ (if prompt == "" then [] else ["-q"; prompt])
  else [mode] ++ match handle with Some h => ["--session"; h] | None => [] end ++ (if prompt == "" then [] else [prompt]).

Definition semantic_error (class : string) : string := "semantic runner failure: " +:+ class.

(** [invoke], for a request with arguments and an environment. *)
Definition invoke (mode : string) (q : runner_request) (handle : option string) (own_args env : list string)
    : hermes_result * option string :=
  let wrapper := resolve_wrapper (rq_wrapper q) (rq_member q) in
  if (wrapper == "") || negb (IsAbs wrapper) then
    (mk_hermes (failed_result "wrapper_unresolved" None) "" 0 None, Some "resolved wrapper path is required")
  else
    match validateHermesWorkspace (me_workspace (rq_member q)) with
    | Err (class, p, text) => (mk_hermes (failed_result class (Some p)) "" (-1) None, Some text)
    | Ok _ =>
        let args := match own_args with [] => invoke_args mode handle (rq_prompt q) | _ => own_args end in
        let out := run wrapper args (me_workspace (rq_member q)) env (rq_timeout q) in
        let stdout := pr_stdout out in
        let stderr := pr_stderr out in
        let base ok class p := mk_result ok stdout (pr_seconds out) (ParseHermesCost stderr) "" "" p class false in
        let answer r := mk_hermes r stderr (pr_exit out) (ParseSessionHandle stdout) in
        let launch :=
          match pr_error out with
          | Some text => if (stdout == "") && (stderr == "") then classifyHermesLaunchFailure text else ""
          | None => ""
          end in
        match pr_context out, pr_error out with
        | Some text, _ => (answer (base false ErrorClassTimeout None), Some text)
        | None, err =>
            if launch != "" then
              (answer (base false launch (Some (diagnosticPayload launch launch "" (default "" err)))), err)
            else
              match parseHermesResponseOutput stdout stderr, err with
              | Err class, _ =>
                  (answer (base false class (Some (diagnosticPayload class class stdout stderr))), Some (semantic_error class))
              | Ok _, Some text =>
                  let class := classifyHermesCommandFailure stdout stderr in
                  let p := if class == ErrorClassModelProviderFailure
                           then Some (diagnosticPayload class class stdout stderr) else None in
                  (answer (base false class p), Some text)
              | Ok (eventType, p), None =>
                  (answer (mk_result true stdout (pr_seconds out) (ParseHermesCost stderr) "succeeded" eventType (Some p) "" false),
                   None)
              end
        end
    end.

Definition Send := invoke "chat".
Definition Resume := invoke "resume".

(** The exit code and the payload go with the outcome of a delivery. *)
Definition visible_failure (base : VisibleDeliveryResult) (class : string) : VisibleDeliveryResult :=
  mk_visible_result false (vr_status base) (vr_kind base) (vr_platform base) (vr_channel_id base) (vr_thread_id base)
    (vr_message_id base) (vr_posting_path base) (vr_sender base) class.

Definition no_visible (class : string) : VisibleDeliveryResult := mk_visible_result false "" "" "" "" "" "" "" "" class.

Definition SendVisible (q : VisibleDeliveryRequest) (own_args env : list string)
    : VisibleDeliveryResult * option payload * option string :=
  let wrapper := resolve_wrapper (vq_wrapper q) (vq_member q) in
  if (wrapper == "") || negb (IsAbs wrapper) then
    (no_visible "wrapper_unresolved", None, Some "resolved wrapper path is required")
  else
    match validateHermesWorkspace (me_workspace (vq_member q)) with
    | Err (class, p, text) => (no_visible class, Some p, Some text)
    | Ok _ =>
        let target := trim_space (vq_target q) in
        let content := trim_space (vq_content q) in
        let args :=
          match own_args with
          | [] =>
              reject target == "" with "visible delivery target is required";;
              reject content == "" with "visible delivery content is required";;
              Ok ["send"; "--to"; target; "--json"; content]
          | _ => Ok own_args
          end in
        match args with
        | Err text => (no_visible ErrorClassVisibleDeliveryMalformed, None, Some text)
        | Ok args =>
            let out := run wrapper args (me_workspace (vq_member q)) env (vq_timeout q) in
            let stdout := pr_stdout out in
            let stderr := pr_stderr out in
            let base := mk_visible_result true "" (trim_space (vq_kind q)) (trim_space (vq_platform q))
                          (trim_space (vq_channel_id q)) (trim_space (vq_thread_id q)) "" "selected_member_profile_send"
                          (trim_space (me_id (vq_member q))) "" in
            match pr_context out, pr_error out, parseHermesVisibleDeliveryOutput stdout with
            | Some text, _, _ => (visible_failure base ErrorClassTimeout, None, Some text)
            | None, Some text, _ =>
                let class := ErrorClassVisibleDeliveryFailed in
                (visible_failure base class, Some (diagnosticPayload class class stdout stderr), Some text)
            | None, None, Err (class, reason) =>
                (visible_failure base class, Some (diagnosticPayload class reason stdout stderr), Some (class +:+ ": " +:+ reason))
            | None, None, Ok parsed =>
                (mk_visible_result true (firstNonEmpty [hv_status parsed; vr_status base])
                   (firstNonEmpty [hv_kind parsed; vr_kind base]) (firstNonEmpty [hv_platform parsed; vr_platform base])
                   (firstNonEmpty [hv_channel_id parsed; vr_channel_id base])
                   (firstNonEmpty [hv_thread_id parsed; vr_thread_id base]) (hv_message_id parsed) (vr_posting_path base)
                   (vr_sender base) "", Some (hv_payload parsed), None)
            end
        end
    end.
End receipts.

#[global] Arguments diagnosticPayload : simpl never.
#[global] Arguments parseHermesResponseOutput : simpl never.
