(* ===== verification/HermesTheory.v ===== *)
(** * Laws of the Hermes runner adapter

    Diagnostics carry no secret field and no path; a run of the wrapper succeeds
    exactly when it exited cleanly and in time with a response; a response printed
    as JSON is the response that is recorded; and whether a delivery receipt is
    accepted does not depend on the order in which Go visits a map. *)

From S2P Require Import Prelude GoValue Ids Paths Registry Events ArgumentGraph Unmarshal Json JsonTheory Text EventCodec EventCodecTheory RunnerDispatch SpeakerDispatch HermesAgent.

(** ** Substrings *)

Definition no_char (a : Ascii.ascii) (m : string) : bool := negb (any_char (Ascii.eqb a) m).

Lemma contains_cons a s m : contains (String a s) m = has_prefix (String a s) m || contains s m.
Proof. done. Qed.

Lemma has_prefix_cons a s b m : has_prefix (String a s) (String b m) = Ascii.eqb b a && has_prefix s m.
Proof. unfold has_prefix. simpl. destruct (Ascii.eqb_spec b a); [|done]; by destruct (drop_prefix m s). Qed.

Lemma has_prefix_sep x c y m : no_char c m = true -> has_prefix (x +:+ String c y) m = has_prefix x m.
Proof.
  revert x. induction m as [|b m IH]; intros x H; [by destruct x|]. unfold no_char in H. simpl in H.
  apply negb_true_iff, orb_false_iff in H as [Hb Hm].
  destruct x as [|a x].
  - change ("" +:+ String c y) with (String c y). rewrite has_prefix_cons, Ascii.eqb_sym, Hb. done.
  - rewrite str_app_cons, !has_prefix_cons, IH; [done|]. unfold no_char. by rewrite Hm.
Qed.

(** A byte that a text does not contain separates its occurrences. *)
Lemma contains_sep x c y m :
  no_char c m = true -> m <> "" -> contains (x +:+ String c y) m = contains x m || contains y m.
Proof.
  intros H Hm. induction x as [|a x IH].
  - change ("" +:+ String c y) with (String c y). rewrite contains_cons.
    pose proof (has_prefix_sep "" c y m H) as Hp. change ("" +:+ String c y) with (String c y) in Hp. rewrite Hp.
    by destruct m.
  - rewrite str_app_cons, !contains_cons, IH. rewrite <- str_app_cons, has_prefix_sep by done. by rewrite orb_assoc.
Qed.

Lemma contains_app_l x y m : contains x m = true -> contains (x +:+ y) m = true.
Proof.
  induction x as [|a x IH]; intros H.
  - destruct m; [|done]. by destruct y.
  - rewrite str_app_cons, contains_cons in *. apply orb_true_iff in H as [H|H]; [|by rewrite IH, orb_true_r].
    apply has_prefix_spec in H as [r H]. rewrite <- str_app_cons, H, str_app_assoc.
    apply orb_true_iff. left. apply has_prefix_spec. by eexists.
Qed.

(** ** Lower case *)

Definition ascii7 (a : Ascii.ascii) : bool := (Ascii.N_of_ascii a <? 128)%N.

(** The first step of [to_lower]: the byte it gives and the text it leaves. *)
Definition lower_step (s : string) : option (Ascii.ascii * string) :=
  match s with
  | EmptyString => None
  | String a rest =>
      match drop_prefix (bytes [226; 132; 170]%N) s with
      | Some t => Some (Ascii.ascii_of_N 107, t)
      | None =>
          match drop_prefix (bytes [196; 176]%N) s with
          | Some t => Some (Ascii.ascii_of_N 105, t)
          | None => Some (lower_ascii a, rest)
          end
      end
  end.

Lemma to_lower_step s :
  to_lower s = match lower_step s with Some (a, t) => String a (to_lower t) | None => "" end.
Proof.
  destruct s as [|a s]; [done|]. unfold lower_step. cbn [to_lower].
  destruct (drop_prefix (bytes [226; 132; 170]%N) (String a s)) as [t|] eqn:E.
  - apply drop_prefix_spec in E. simpl in E. injection E as _ ->. done.
  - destruct (drop_prefix (bytes [196; 176]%N) (String a s)) as [t|] eqn:E2; [|done].
    apply drop_prefix_spec in E2. simpl in E2. injection E2 as _ ->. done.
Qed.

Lemma lower_step_shorter s a t : lower_step s = Some (a, t) -> (String.length t < String.length s)%nat.
Proof.
  destruct s as [|b s]; [done|]. unfold lower_step.
  destruct (drop_prefix (bytes [226; 132; 170]%N) (String b s)) as [t'|] eqn:E.
  - apply drop_prefix_spec in E. rewrite E, string_length_app. intros [= _ <-]. simpl. lia.
  - destruct (drop_prefix (bytes [196; 176]%N) (String b s)) as [t'|] eqn:E2; [|intros [= _ <-]; simpl; lia].
    apply drop_prefix_spec in E2. rewrite E2, string_length_app. intros [= _ <-]. simpl. lia.
Qed.

(** A step is taken inside the text, unless the text is the start of one of the
    two long sequences, cut short. *)
Lemma lower_step_app x y a t :
  lower_step x = Some (a, t) ->
  lower_step (x +:+ y) = Some (a, t +:+ y) \/
  ascii7 a = false /\ (t = "" \/ t = bytes [132]%N) /\ exists c z, y = String c z /\ ascii7 c = false.
Proof.
  destruct x as [|b x]; [done|]. unfold lower_step. rewrite str_app_cons.
  assert (Happ : forall p r, drop_prefix p (String b x) = Some r -> drop_prefix p (String b (x +:+ y)) = Some (r +:+ y)).
  { intros p r H. apply drop_prefix_spec in H. apply drop_prefix_spec. by rewrite <- str_app_cons, H, str_app_assoc. }
  destruct (drop_prefix (bytes [226; 132; 170]%N) (String b x)) as [r|] eqn:E1.
  { rewrite (Happ _ _ E1). intros [= <- <-]. by left. }
  destruct (drop_prefix (bytes [196; 176]%N) (String b x)) as [r|] eqn:E3.
  { rewrite (Happ _ _ E3). apply drop_prefix_spec in E3. simpl in E3. injection E3 as -> ->. intros [= <- <-]. by left. }
  intros [= <- <-].
  destruct (drop_prefix (bytes [226; 132; 170]%N) (String b (x +:+ y))) as [r|] eqn:E2.
  { right. apply drop_prefix_spec in E2. simpl in E2. injection E2 as -> E2. split; [done|].
    destruct x as [|c [|d x]]; simpl in E2.
    - split; [by left|]. change ("" +:+ y) with y in E2. subst y. eexists _, _. by split.
    - injection E2 as -> E2. split; [by right|]. change ("" +:+ y) with y in E2. subst y. eexists _, _. by split.
    - injection E2 as -> -> E2. done. }
  destruct (drop_prefix (bytes [196; 176]%N) (String b (x +:+ y))) as [r|] eqn:E4; [|by left].
  right. apply drop_prefix_spec in E4. simpl in E4. injection E4 as -> E4. split; [done|].
  destruct x as [|c x]; simpl in E4.
  - split; [by left|]. change ("" +:+ y) with y in E4. subst y. eexists _, _. by split.
  - injection E4 as -> E4. done.
Qed.

(** Lower-casing works piece by piece around an ASCII byte. *)
Lemma to_lower_sep x c y :
  ascii7 c = true -> to_lower (x +:+ String c y) = to_lower x +:+ String (lower_ascii c) (to_lower y).
Proof.
  intros Hc. remember (String.length x) as n eqn:Hn. revert x Hn. induction (lt_wf n) as [n _ IH]. intros x ->.
  destruct (lower_step x) as [[a t]|] eqn:E.
  - pose proof (lower_step_shorter _ _ _ E) as Hlt.
    destruct (lower_step_app x (String c y) a t E) as [H|(_ & _ & c' & z & [= <- <-] & H)]; [|by rewrite Hc in H].
    rewrite (to_lower_step (x +:+ String c y)), (to_lower_step x), H, E, str_app_cons. f_equal. by eapply IH.
  - destruct x as [|b x]; [|unfold lower_step in E; by repeat case_match].
    change ("" +:+ String c y) with (String c y). rewrite to_lower_step. unfold lower_step.
    assert (Hp : forall q p, ascii7 q = false -> drop_prefix (String q p) (String c y) = None).
    { intros q p Hq. simpl. destruct (Ascii.eqb_spec q c) as [->|]; [by rewrite Hc in Hq|done]. }
    change (bytes [226; 132; 170]%N) with (String (Ascii.ascii_of_N 226) (bytes [132; 170]%N)).
    change (bytes [196; 176]%N) with (String (Ascii.ascii_of_N 196) (bytes [176]%N)).
    by rewrite !Hp.
Qed.

Definition ascii_text (m : string) : bool := forallb ascii7 (String.list_ascii_of_string m).

Lemma has_prefix_lower_app x y m :
  ascii_text m = true -> has_prefix (to_lower x) m = true -> has_prefix (to_lower (x +:+ y)) m = true.
Proof.
  revert x. induction m as [|b m IH]; intros x Hm H; [by destruct (to_lower (x +:+ y))|].
  unfold ascii_text in Hm. simpl in Hm. apply andb_true_iff in Hm as [Hb Hm].
  rewrite to_lower_step in H. destruct (lower_step x) as [[a t]|] eqn:E; [|done].
  rewrite has_prefix_cons in H. apply andb_true_iff in H as [Ha H]. apply Ascii.eqb_eq in Ha as <-.
  rewrite to_lower_step. destruct (lower_step_app x y b t E) as [->|[Hx _]].
  - rewrite has_prefix_cons, Ascii.eqb_refl. by apply IH.
  - by rewrite Hb in Hx.
Qed.

(** What a text holds in lower case, an extension of it holds. *)
Lemma contains_lower_app x y m :
  ascii_text m = true -> m <> "" -> contains (to_lower x) m = true -> contains (to_lower (x +:+ y)) m = true.
Proof.
  intros Hm Hne. remember (String.length x) as n eqn:Hn. revert x Hn. induction (lt_wf n) as [n _ IH]. intros x -> H.
  pose proof (has_prefix_lower_app x y m Hm) as Hp. rewrite to_lower_step in H.
  destruct (lower_step x) as [[a t]|] eqn:E; [|by destruct m].
  pose proof (lower_step_shorter _ _ _ E) as Hlt. rewrite contains_cons in H. apply orb_true_iff in H as [H|H].
  - rewrite (to_lower_step x), E in Hp. specialize (Hp H). unfold contains. destruct (to_lower (x +:+ y)); [|by rewrite Hp].
    by destruct m.
  - specialize (IH _ Hlt t eq_refl H). rewrite to_lower_step.
    destruct (lower_step_app x y a t E) as [->|(_ & Ht & _)]; [by rewrite contains_cons, IH, orb_true_r|].
    exfalso. destruct m as [|b m]; [done|]. unfold ascii_text in Hm. simpl in Hm. apply andb_true_iff in Hm as [Hb _].
    destruct Ht as [->| ->]; [done|]. change (to_lower (bytes [132]%N)) with (String (Ascii.ascii_of_N 132) "") in H.
    rewrite contains_cons, has_prefix_cons in H. apply orb_true_iff in H as [H|H]; [|done].
    apply andb_true_iff in H as [H _]. apply Ascii.eqb_eq in H as ->. done.
Qed.

(** ** The diagnostic excerpt *)

(** What is needed of a marker: bytes that redaction neither adds nor cuts at. *)
Definition marker_ok (m : string) : bool :=
  (m != "") && ascii_text m && negb (contains "redacted" m) && negb (contains "redacted_path" m) &&
  forallb (fun n => no_char (Ascii.ascii_of_N n) m) [9; 10; 12; 13; 32; 34; 39; 47; 91; 93]%N.

Lemma markers_ok m : m ∈ secret_markers -> marker_ok m = true.
Proof.
  intros H. assert (Hall : forallb marker_ok secret_markers = true) by (vm_compute; reflexivity).
  rewrite forallb_forall in Hall. apply Hall. by apply list_elem_of_In.
Qed.

Section Marker.
Variable m : string.
Hypothesis Hm : marker_ok m = true.

Definition clean (s : string) : Prop := contains (to_lower s) m = false.

Lemma marker_nonempty : m <> "".
Proof using Hm. intros ->. done. Qed.

Lemma marker_sep n : n ∈ [9; 10; 12; 13; 32; 34; 39; 47; 91; 93]%N -> no_char (Ascii.ascii_of_N n) m = true.
Proof using Hm.
  intros Hn. unfold marker_ok in Hm. apply andb_true_iff in Hm as [_ H]. rewrite forallb_forall in H.
  apply (H n). by apply list_elem_of_In.
Qed.

Lemma clean_sep n x y : n ∈ [9; 10; 12; 13; 32; 34; 39; 47; 91; 93]%N ->
  clean (x +:+ String (Ascii.ascii_of_N n) y) <-> clean x /\ clean y.
Proof using Hm.
  intros Hn. unfold clean. rewrite to_lower_sep.
  - replace (lower_ascii (Ascii.ascii_of_N n)) with (Ascii.ascii_of_N n).
    + rewrite contains_sep by (apply marker_nonempty || by apply marker_sep). apply orb_false_iff.
    + repeat (apply elem_of_cons in Hn as [->|Hn]; [reflexivity|]). by apply elem_of_nil in Hn.
  - repeat (apply elem_of_cons in Hn as [->|Hn]; [reflexivity|]). by apply elem_of_nil in Hn.
Qed.

Lemma clean_take k s : clean s -> clean (str_take k s).
Proof using Hm.
  unfold clean. intros H. apply not_true_iff_false in H. apply not_true_iff_false. intros Ht. apply H.
  assert (Hs : exists r, s = str_take k s +:+ r).
  { clear. unfold str_take. revert k. induction s as [|a s IH]; intros [|k]; simpl; [by exists ""|by exists ""|by eexists|].
    destruct (IH k) as [r Hr]. exists r. rewrite str_app_cons. by f_equal. }
  destruct Hs as [r Hr]. rewrite Hr. apply contains_lower_app; [|apply marker_nonempty|done].
  unfold marker_ok in Hm. by repeat apply andb_true_iff in Hm as [Hm ?].
Qed.

Lemma clean_words : clean "" /\ clean "redacted" /\ clean "redacted_path".
Proof using Hm.
  unfold clean. change (to_lower "redacted") with "redacted". change (to_lower "redacted_path") with "redacted_path".
  pose proof Hm as H. unfold marker_ok in H. repeat apply andb_true_iff in H as [H ?].
  split; [|by split; apply negb_true_iff]. destruct m; [done|]. done.
Qed.

Lemma clean_fields fs :
  clean (join " " (map redact_field fs)) <-> Forall (fun f => clean (redact_field f)) fs.
Proof using Hm.
  induction fs as [|f fs IH]; cbn [map join].
  - split; [constructor|]. intros _. apply clean_words.
  - rewrite Forall_cons, <- IH. destruct fs as [|g fs]; cbn [map].
    + cbn [join]. pose proof clean_words. tauto.
    + change (" " +:+ ?x) with (String (Ascii.ascii_of_N 32) x).
      apply (clean_sep 32). set_solver.
Qed.
End Marker.

(** The bytes skipped after a replaced slash. *)
Lemma redact_skip s :
  exists p rest, s = p +:+ rest /\ redact_paths true s = redact_paths false rest /\
    match rest with EmptyString => True | String c _ => path_char c = false end.
Proof.
  induction s as [|a s IH]; [by exists "", ""|]. destruct (path_char a) eqn:Ha.
  - destruct IH as (p & rest & -> & Hr & Hc). exists (String a p), rest. split; [done|]. split; [|done].
    cbn [redact_paths]. by rewrite Ha.
  - exists "", (String a s). split; [done|]. split; [|done]. cbn [redact_paths]. by rewrite Ha.
Qed.

(** A text without a path is kept; otherwise its first path is replaced. *)
Lemma redact_first s :
  redact_paths false s = s \/
  exists x p rest, s = x +:+ String (Ascii.ascii_of_N 47) (p +:+ rest) /\
    redact_paths false s = x +:+ "[redacted_path]" +:+ redact_paths false rest /\
    match rest with EmptyString => True | String c _ => path_char c = false end.
Proof.
  induction s as [|a s IH]; [by left|]. cbn [redact_paths andb]. destruct s as [|b s]; [by left|].
  destruct (is_byte 47 a && path_char b) eqn:E.
  - right. apply andb_true_iff in E as [Ha _]. apply is_byte_eq in Ha as ->; [|done].
    destruct (redact_skip (String b s)) as (p & rest & Hs & Hr & Hc). exists "", p, rest. rewrite Hr, Hs. done.
  - destruct IH as [->|(x & p & rest & Hs & Hr & Hc)]; [by left|right].
    exists (String a x), p, rest. rewrite Hr, Hs. done.
Qed.

Lemma not_path_char c : path_char c = false -> exists n, n ∈ [9; 10; 12; 13; 32; 34; 39]%N /\ c = Ascii.ascii_of_N n.
Proof.
  unfold path_char. intros H. apply negb_false_iff, existsb_exists in H as (n & Hn & H).
  exists n. apply list_elem_of_In in Hn. split; [done|]. apply is_byte_eq; [|done].
  repeat (apply elem_of_cons in Hn as [->|Hn]; [done|]). by apply elem_of_nil in Hn.
Qed.

Lemma clean_redacted m s : marker_ok m = true -> clean m s -> clean m (redact_paths false s).
Proof.
  intros Hm. remember (String.length s) as n eqn:Hn. revert s Hn. induction (lt_wf n) as [n _ IH]. intros s -> Hs.
  destruct (redact_first s) as [->|(x & p & rest & Hx & Hr & Hc)]; [done|]. rewrite Hr.
  rewrite Hx in Hs. apply (clean_sep m Hm 47) in Hs as [Hcx Hcp]; [|set_solver].
  assert (Hrest : clean m rest).
  { destruct rest as [|c rest]; [apply (clean_words m Hm)|]. apply not_path_char in Hc as (k & Hk & ->).
    apply (clean_sep m Hm k) in Hcp as [_ Hcp]; [|set_solver].
    apply (clean_sep m Hm k ""); [set_solver|]. split; [apply (clean_words m Hm)|done]. }
  change (x +:+ "[redacted_path]" +:+ ?y) with (x +:+ String (Ascii.ascii_of_N 91) ("redacted_path" +:+ String (Ascii.ascii_of_N 93) y)).
  apply (clean_sep m Hm 91); [set_solver|]. split; [done|]. apply (clean_sep m Hm 93); [set_solver|].
  split; [apply (clean_words m Hm)|]. eapply IH; [|done|done].
  rewrite Hx, !string_length_app. simpl. rewrite string_length_app. lia.
Qed.

Lemma clean_field m f : m ∈ secret_markers -> clean m (redact_field f).
Proof.
  intros Hm. pose proof (markers_ok m Hm) as Hok. unfold redact_field, any_marker, clean.
  destruct (existsb (contains (to_lower f)) secret_markers) eqn:E.
  - rewrite orb_true_r. apply (clean_sep m Hok 91 "" "redacted]"); [set_solver|].
    split; [apply (clean_words m Hok)|]. apply (clean_sep m Hok 93 "redacted" ""); [set_solver|]. split; apply (clean_words m Hok).
  - rewrite orb_false_r. destruct (has_prefix f "/").
    + apply (clean_sep m Hok 91 "" "redacted]"); [set_solver|].
      split; [apply (clean_words m Hok)|]. apply (clean_sep m Hok 93 "redacted" ""); [set_solver|]. split; apply (clean_words m Hok).
    + apply not_true_iff_false. intros H. apply not_true_iff_false in E. apply E, existsb_exists. exists m.
      split; [by apply list_elem_of_In|done].
Qed.

(** Whether a text has a slash before a byte of a path. *)
Fixpoint has_path (s : string) : bool :=
  match s with
  | String a rest => match rest with String b _ => (is_byte 47 a && path_char b) || has_path rest | EmptyString => false end
  | EmptyString => false
  end.

Lemma redact_no_path inside s : has_path (redact_paths inside s) = false.
Proof.
  revert inside. induction s as [|a s IH]; intros inside; [done|]. cbn [redact_paths].
  destruct (inside && path_char a); [apply IH|]. destruct s as [|b s]; [done|].
  destruct (is_byte 47 a && path_char b) eqn:E.
  - specialize (IH true). revert IH. generalize (redact_paths true (String b s)). intros r Hr.
    assert (Hw : forall w, any_char (is_byte 47) w = false -> has_path (w +:+ r) = false).
    { induction w as [|c w IHw]; intros Hw; [done|]. simpl in Hw. apply orb_false_iff in Hw as [Hc Hw].
      rewrite str_app_cons. cbn [has_path]. rewrite Hc. specialize (IHw Hw). by destruct (w +:+ r). }
    by apply Hw.
  - specialize (IH false). cbn [has_path]. destruct (redact_paths false (String b s)) as [|c t] eqn:Er; [done|].
    rewrite IH, orb_false_r. destruct (is_byte 47 a); [|done]. cbn [andb] in *.
    assert (Hb : is_byte 47 b = false) by (apply not_path_char in E as (n & Hn & ->);
      repeat (apply elem_of_cons in Hn as [->|Hn]; [done|]); by apply elem_of_nil in Hn).
    cbn [redact_paths andb] in Er. rewrite Hb in Er. cbn [andb] in Er.
    destruct s; by injection Er as <- _.
Qed.

Lemma has_path_take k s : has_path s = false -> has_path (str_take k s) = false.
Proof.
  unfold str_take. revert k. induction s as [|a s IH]; intros [|k] H; [done..|]. cbn [String.substring].
  destruct s as [|b s]; [by destruct k|]. cbn [has_path] in H. apply orb_false_iff in H as [Hab H].
  specialize (IH k H). destruct k as [|k]; [done|]. cbn [String.substring has_path] in *. by rewrite Hab, IH.
Qed.

Lemma str_take_length n s : str_len (str_take n s) <= Z.of_nat n.
Proof.
  unfold str_len, str_take. revert n. induction s as [|a s IH]; intros [|n]; simpl; [lia..|]. specialize (IH n). lia.
Qed.

(** The excerpt of a failed run's output that is recorded in the log has at
    most 240 bytes; in lower case it holds no marker of a secret, whatever the
    output was, and no slash of it is followed by a byte of a path. *)
Theorem excerpt_redacted (stdout stderr : string) :
  let x := redactedDiagnosticExcerpt stdout stderr in
  str_len x <= 240 /\ any_marker (to_lower x) secret_markers = false /\ has_path x = false.
Proof.
  unfold redactedDiagnosticExcerpt. set (combined := trim_space _). destruct (combined == ""); [by vm_compute|].
  set (full := redact_paths false _).
  assert (Hclean : forall m, m ∈ secret_markers -> clean m full).
  { intros m Hm. apply clean_redacted; [by apply markers_ok|]. apply clean_fields; [by apply markers_ok|].
    apply Forall_forall. intros f _. by apply clean_field. }
  assert (Hany : forall x, (forall m, m ∈ secret_markers -> clean m x) -> any_marker (to_lower x) secret_markers = false).
  { intros x Hx. apply not_true_iff_false. intros H. apply existsb_exists in H as (m & Hm & H).
    apply list_elem_of_In in Hm. specialize (Hx m Hm). unfold clean in Hx. by rewrite H in Hx. }
  assert (Hpath : has_path full = false) by apply redact_no_path.
  destruct (Z.ltb_spec 240 (str_len full)); [|by auto].
  split; [apply (str_take_length 240)|]. split; [|by apply has_path_take].
  apply Hany. intros m Hm. apply clean_take; [by apply markers_ok|by apply Hclean].
Qed.

(** ** The outcome of a run *)

(** A response has a type and something in its payload; a failure one of three
    classes. *)
Definition sensible (r : semantic) : Prop :=
  match r with
  | Ok (t, p) => t <> "" /\ p <> ∅
  | Err class =>
      class ∈ [ErrorClassAdapterCommandMismatch; ErrorClassModelProviderFailure; ErrorClassMalformedOrMissingResponse]
  end.

Lemma sensible_message t : sensible (Ok ("assignee_update", {[ "message" := AStr t ]})).
Proof. split; [done|apply insert_non_empty]. Qed.

Lemma sensible_malformed : sensible malformed.
Proof. unfold sensible, malformed. set_solver. Qed.

Lemma parse_json_sensible raw : sensible (parseHermesJSON raw).
Proof.
  unfold parseHermesJSON. destruct (jsonHasProviderFailure raw); [unfold sensible; set_solver|].
  destruct (jsonHasDeliveryOrFallbackOnly raw); [unfold sensible; set_solver|].
  set (ty := firstString raw type_keys).
  set (typed := if ty != "" then _ else _).
  assert (Htyped : sensible typed).
  { unfold typed. destruct (ty == "") eqn:E; cbn [negb].
    - case_match; [apply sensible_message|apply sensible_malformed].
    - apply String.eqb_neq in E. case_bool_decide; [apply sensible_malformed|by split]. }
  clearbody typed. destruct (raw !! "payload") as [[| | | | | | |p| |]|]; try done.
  case_bool_decide; [done|]. split; [|done]. destruct (ty == "") eqn:E; [done|]. by apply String.eqb_neq in E.
Qed.

Lemma parse_text_sensible text : sensible (parseHermesJSONText text).
Proof. unfold parseHermesJSONText. destruct (decode_map text); [apply sensible_malformed..|apply parse_json_sensible]. Qed.

Lemma scan_lines_sensible lines responses r : scan_lines lines responses = Err r -> sensible r.
Proof.
  revert responses. induction lines as [|l lines IH]; intros responses; cbn [scan_lines]; [done|].
  destruct (isHermesCLIControlLine l); [apply IH|]. destruct (looksLikeJSON l).
  - destruct responses; intros [= <-]; [apply parse_text_sensible|apply sensible_malformed].
  - destruct (isDeliveryOrFallbackOnly l); [intros [= <-]; unfold sensible; set_solver|apply IH].
Qed.

Lemma parse_output_sensible stdout stderr : sensible (parseHermesResponseOutput stdout stderr).
Proof.
  unfold parseHermesResponseOutput. destruct (scan_lines _ _) as [[|x l]|r] eqn:E.
  - destruct (outputHasProviderFailure stderr); [unfold sensible; set_solver|apply sensible_malformed].
  - apply sensible_message.
  - by eapply scan_lines_sensible.
Qed.

Definition failure_classes : list string :=
  ["wrapper_unresolved"; ErrorClassWorkspaceMissing; ErrorClassWorkspaceInvalid; ErrorClassTimeout; ErrorClassAdapterCommandMismatch;
   ErrorClassModelProviderFailure; ErrorClassMalformedOrMissingResponse; "nonzero_exit"].

Definition diagnostic_keys : list string := ["error_class"; "reason"; "diagnostic_excerpt"].

(** A payload of diagnostics, whose excerpt is a redacted one. *)
Definition diagnostic (p : payload) : Prop :=
  forall k v, p !! k = Some v -> k ∈ diagnostic_keys /\
    (k = "diagnostic_excerpt" -> exists stdout stderr, v = AStr (redactedDiagnosticExcerpt stdout stderr)).

Lemma diagnosticPayload_ok class reason stdout stderr : diagnostic (diagnosticPayload class reason stdout stderr).
Proof.
  intros k v. unfold diagnosticPayload.
  assert (Hbase : ({[ "error_class" := AStr class; "reason" := AStr reason ]} : payload) !! k = Some v ->
            k ∈ diagnostic_keys /\ (k = "diagnostic_excerpt" -> exists so se, v = AStr (redactedDiagnosticExcerpt so se))).
  { intros H. apply lookup_insert_Some in H as [[<- _]|[_ H]]; [split; [set_solver|done]|].
    apply lookup_singleton_Some in H as [<- _]. split; [set_solver|done]. }
  destruct (_ == ""); [done|]. intros H. apply lookup_insert_Some in H as [[<- <-]|[_ H]]; [|by apply Hbase].
  split; [set_solver|]. intros _. by eexists _, _.
Qed.

(** What a run of the wrapper may come to. *)
Definition outcome_ok (r : hermes_result) (err : option string) : Prop :=
  let result := hr_result r in
  if rt_ok result then
    err = None /\ rt_error_class result = "" /\ rt_semantic_status result = "succeeded" /\ rt_semantic_type result <> "" /\
    exists p, rt_payload result = Some p /\ p <> ∅ /\
      parseHermesResponseOutput (rt_stdout result) (hr_stderr r) = Ok (rt_semantic_type result, p)
  else err <> None /\ rt_error_class result ∈ failure_classes /\ (forall p, rt_payload result = Some p -> diagnostic p).

Lemma bad_workspace_ok c t class p text :
  bad_workspace c t = Err (class, p, text) -> class = c /\ diagnostic p.
Proof. unfold bad_workspace. intros [= <- <- _]. split; [done|apply diagnosticPayload_ok]. Qed.

Lemma workspace_class stat workspace class p text :
  validateHermesWorkspace stat workspace = Err (class, p, text) ->
  class ∈ [ErrorClassWorkspaceMissing; ErrorClassWorkspaceInvalid] /\ diagnostic p.
Proof.
  unfold validateHermesWorkspace. destruct (_ == ""); [done|].
  destruct (stat (trim_space workspace)) as [t|t|[|]]; intros H.
  3: discriminate H.
  all: apply bad_workspace_ok in H as [-> H]; split; [|exact H].
  - left.
  - right. left.
  - right. left.
Qed.

Lemma launch_class text : let c := classifyHermesLaunchFailure text in c = "" \/ c = ErrorClassWorkspaceMissing \/ c = ErrorClassWorkspaceInvalid.
Proof. unfold classifyHermesLaunchFailure. destruct (_ || _); [destruct (_ || _)|]; auto. Qed.

Lemma failed_outcome l r err :
  forallb (fun c => mem_str c failure_classes) l = true -> rt_error_class (hr_result r) ∈ l ->
  rt_ok (hr_result r) = false -> (forall p, rt_payload (hr_result r) = Some p -> diagnostic p) -> err <> None -> outcome_ok r err.
Proof.
  intros Hl Hc Hok Hp Herr. unfold outcome_ok. rewrite Hok. split; [done|]. split; [|done].
  rewrite forallb_forall in Hl. by apply mem_str_spec, Hl, list_elem_of_In.
Qed.

Section outcome.
Context (run : string -> list string -> string -> list string -> Z -> process) (stat : string -> path_stat) (mode : string)
  (q : runner_request) (handle : option string) (own_args env : list string).

(** The wrapper and the workspace of the member are there. *)
Definition launched : bool :=
  let wrapper := resolve_wrapper (rq_wrapper q) (rq_member q) in
  (wrapper != "") && IsAbs wrapper && is_ok (validateHermesWorkspace stat (me_workspace (rq_member q))).

Definition process_of : process :=
  run (resolve_wrapper (rq_wrapper q) (rq_member q)) (match own_args with [] => invoke_args mode handle (rq_prompt q) | _ => own_args end)
    (me_workspace (rq_member q)) env (rq_timeout q).

Definition response_of : semantic := parseHermesResponseOutput (pr_stdout process_of) (pr_stderr process_of).

(** Which runs succeed and which cause the others are given. *)
Lemma invoke_decides :
  let r := invoke run stat mode q handle own_args env in
  (r.2 = None <-> launched = true /\ pr_context process_of = None /\ pr_error process_of = None /\ is_ok response_of = true) /\
  (launched = true -> pr_context process_of <> None -> rt_error_class (hr_result r.1) = ErrorClassTimeout) /\
  (launched = true -> pr_context process_of = None -> pr_error process_of = None ->
   forall class, response_of = Err class -> rt_error_class (hr_result r.1) = class) /\
  (r.2 = None -> rt_stdout (hr_result r.1) = pr_stdout process_of /\ hr_stderr r.1 = pr_stderr process_of).
Proof.
  unfold invoke, launched, response_of, process_of. cbv zeta. set (wrapper := resolve_wrapper _ _).
  assert (Hnot : forall (P Q R S : Prop) (e : option string), e <> None -> (false = true -> Q) -> (false = true -> R) ->
    (e = None <-> false = true /\ P) /\ (false = true -> Q) /\ (false = true -> R) /\ (e = None -> S))
    by (intros; split; [split; [done|by intros [? _]]|done]).
  destruct (wrapper == "") eqn:Hw; cbn [orb negb andb]; [by apply Hnot|].
  destruct (IsAbs wrapper); cbn [orb negb andb]; [|by apply Hnot].
  destruct (validateHermesWorkspace stat _) as [[]|[[class p] text]]; cbn [is_ok]; [|by apply Hnot].
  set (out := run _ _ _ _ _). destruct (pr_context out) as [text|]; [by split; [split; [done|intros (_ & ? & _)]|]|].
  destruct (pr_error out) as [text|].
  - assert (Herr : (if negb ((if (pr_stdout out == "") && (pr_stderr out == "") then classifyHermesLaunchFailure text else "") == "")
                    then Some text else Some text) <> None) by by case_match.
    split; [|split; [by intros _ ?|split; [done|]]];
      [split; [|by intros (_ & _ & ? & _)]|]; destruct (negb _); try done; by destruct (parseHermesResponseOutput _ _) as [[]|].
  - cbn [String.eqb negb]. destruct (parseHermesResponseOutput _ _) as [[t p]|class]; cbn.
    + split; [by split|split; [by intros _ ?|by split]].
    + split; [by split; [|intros (_ & _ & _ & ?)]|split; [by intros _ ?|split; [by intros _ _ _ ? [= <-]|done]]].
Qed.

Lemma invoke_sensible :
  let r := invoke run stat mode q handle own_args env in outcome_ok r.1 r.2.
Proof.
  unfold invoke. destruct (_ || _).
  { apply (failed_outcome ["wrapper_unresolved"]); first [done | by left]. }
  destruct (validateHermesWorkspace stat _) as [[]|[[class p] text]] eqn:Hw.
  2: { apply workspace_class in Hw as [Hc Hp]. apply (failed_outcome [ErrorClassWorkspaceMissing; ErrorClassWorkspaceInvalid]);
         [done|exact Hc|done|by intros ? [= <-]|done]. }
  set (out := run _ _ _ _ _). destruct (pr_context out) as [text|].
  { apply (failed_outcome [ErrorClassTimeout]); first [done | by left]. }
  set (launch := match pr_error out with Some _ => _ | None => _ end).
  assert (Hl : launch = "" \/ pr_error out <> None /\ launch ∈ [ErrorClassWorkspaceMissing; ErrorClassWorkspaceInvalid]).
  { unfold launch. destruct (pr_error out) as [text|]; [|by left]. destruct (_ && _); [|by left].
    destruct (launch_class text) as [H|[H|H]]; rewrite H; [by left|right; split; [done|by apply mem_str_spec]..]. }
  clearbody launch. destruct (launch == "") eqn:El; cbn [negb].
  2: { apply String.eqb_neq in El. destruct Hl as [|[He Hl]]; [done|].
       apply (failed_outcome [ErrorClassWorkspaceMissing; ErrorClassWorkspaceInvalid]); [done|exact Hl|done| |done].
       intros ? [= <-]. apply diagnosticPayload_ok. }
  pose proof (parse_output_sensible (pr_stdout out) (pr_stderr out)) as Hs.
  destruct (parseHermesResponseOutput (pr_stdout out) (pr_stderr out)) as [[t p]|class] eqn:Hr.
  - destruct (pr_error out) as [text|].
    + unfold outcome_ok. cbn [hr_result rt_ok rt_error_class rt_payload fst snd]. unfold classifyHermesCommandFailure. split; [done|].
      split; [destruct (_ || _); by apply mem_str_spec|]. intros p'. intros Hp. case_match; [|done]. injection Hp as <-.
      apply diagnosticPayload_ok.
    + destruct Hs as [Ht Hp]. unfold outcome_ok. cbn [hr_result rt_ok rt_error_class rt_payload rt_stdout hr_stderr fst snd rt_semantic_status rt_semantic_type].
      rewrite Hr. repeat (split; [done|]). by exists p.
  - apply (failed_outcome [ErrorClassAdapterCommandMismatch; ErrorClassModelProviderFailure; ErrorClassMalformedOrMissingResponse]);
      [done|exact Hs|done| |done]. intros ? [= <-]. apply diagnosticPayload_ok.
Qed.

(** C31. A run of the wrapper succeeds exactly when the wrapper and the workspace are
    there, the process ended in time and without error, and its output holds a
    response; then the result has the type and the non-empty payload of that
    response.  In every other case there is an error, a class of a fixed list and
    a payload of redacted diagnostics or none: the class of a timeout when the
    time was over, and after a clean exit the class of what the output lacks.
    (Which class a failed exit gets is not stated here.) *)
Theorem invoke_outcome :
  let r := invoke run stat mode q handle own_args env in
  let result := hr_result r.1 in
  (r.2 = None <-> launched = true /\ pr_context process_of = None /\ pr_error process_of = None /\ is_ok response_of = true) /\
  (r.2 = None -> rt_ok result = true /\ rt_semantic_status result = "succeeded" /\
     exists p, rt_payload result = Some p /\ p <> ∅ /\ rt_semantic_type result <> "" /\ response_of = Ok (rt_semantic_type result, p)) /\
  (r.2 <> None -> rt_ok result = false /\ rt_error_class result ∈ failure_classes /\
     forall p, rt_payload result = Some p -> diagnostic p) /\
  (launched = true -> pr_context process_of <> None -> rt_error_class result = ErrorClassTimeout) /\
  (launched = true -> pr_context process_of = None -> pr_error process_of = None ->
   forall class, response_of = Err class -> rt_error_class result = class).
Proof.
  cbv zeta. destruct invoke_decides as (Hsucc & Htime & Hclass & Hout). pose proof invoke_sensible as Ho. cbv zeta in Ho.
  split; [exact Hsucc|]. split; [|split; [|by split]].
  - intros Hnone. unfold outcome_ok in Ho. destruct (rt_ok _) eqn:Hok; [|by destruct Ho].
    destruct Ho as (_ & _ & Hst & Hty & p & Hp & Hne & Hr). split; [done|]. split; [done|]. exists p. split; [done|]. split; [done|]. split; [done|].
    destruct (Hout Hnone) as [Ho He]. unfold response_of. by rewrite <- Ho, <- He.
  - intros Herr. unfold outcome_ok in Ho. destruct (rt_ok _); [by destruct Ho|]. by destruct Ho.
Qed.
End outcome.

(** ** A response printed as JSON *)

Lemma trim_braces s : trim_space ("{" +:+ s +:+ "}") = "{" +:+ s +:+ "}".
Proof.
  unfold trim_space, trim_left. rewrite trim_left_with_id by done.
  unfold trim_right. rewrite !str_rev_app_distr, trim_left_with_id by done.
  by rewrite <- !str_rev_app_distr, str_rev_involutive.
Qed.

(** The text of an object, and what a decoder makes of it. *)
Lemma object_text (m : payload) : exists s, json_text (AMap m) = "{" +:+ s +:+ "}".
Proof. by eexists. Qed.

Lemma decode_map_text (m : payload) :
  readable (AMap m) -> (json_depth (to_json (AMap m)) <= max_depth)%nat ->
  decode_map (json_text (AMap m)) = OneMap (Some (json_norm <$> m)).
Proof.
  intros Hr Hd. unfold decode_map, first_value. rewrite json_text_print, <- (str_app_nil_r (print _)).
  rewrite parse_value_print; [|by apply to_json_well_formed|done|done].
  pose proof (value_of_to_json _ Hr) as Hv. cbn [to_json] in *. by rewrite Hv.
Qed.

Lemma object_line (m : payload) :
  readable (AMap m) -> nonEmptyOutputLines (json_text (AMap m) +:+ nl) = [json_text (AMap m)].
Proof.
  intros Hr. unfold nonEmptyOutputLines, split_nl.
  assert (Hnl : no_byte 10 (json_text (AMap m))) by (rewrite json_text_print; by apply print_no_nl, to_json_well_formed).
  change nl with (bytes [10%N] +:+ ""). rewrite (split_on_sep 10 _ "" Hnl) by done.
  destruct (object_text m) as [s Hs]. rewrite Hs. cbn [map split_on]. rewrite trim_braces. done.
Qed.

(** The object a wrapper prints for a response. *)
Definition response_object (t : string) (p : payload) : payload := {[ "type" := AStr t; "payload" := AMap p ]}.

Lemma parse_response_object t (p : payload) :
  trim_space t = t -> t <> "" -> p <> ∅ -> mem_str (to_lower t) ["platform_delivery"; "delivery_evidence"; "fallback"] = false ->
  parseHermesJSON (json_norm <$> response_object t p) = Ok (t, json_norm <$> p).
Proof.
  intros Ht Hne Hp Hlow. set (raw := json_norm <$> response_object t p).
  assert (Htype : raw !! "type" = Some (AStr t)) by reflexivity.
  assert (Hpay : raw !! "payload" = Some (AMap (json_norm <$> p))) by reflexivity.
  assert (Hnone : forall k, k <> "type" -> k <> "payload" -> raw !! k = None).
  { intros k H1 H2. unfold raw, response_object. by rewrite lookup_fmap, lookup_insert_ne, lookup_singleton_ne. }
  clearbody raw.
  assert (Hty : firstString raw type_keys = t).
  { unfold type_keys. cbn [firstString]. rewrite !(Hnone "semantic_event_type"), !(Hnone "event_type"), Htype by done.
    unfold is_blank. rewrite Ht. by destruct (String.eqb_spec t ""). }
  unfold parseHermesJSON, jsonHasProviderFailure, jsonHasDeliveryOrFallbackOnly. rewrite Hty, Hlow, Hpay.
  cbn [existsb firstString defines]. unfold defines. rewrite !Hnone by done. cbn [orb mem_str existsb].
  case_bool_decide as H; [by apply fmap_empty_iff in H|].
  destruct (String.eqb_spec t ""); [done|]. done.
Qed.

(** A wrapper that prints one JSON object with the type and the payload of a
    response, and succeeds, has that response recorded: the type as it is and the
    payload decoded from its text, unless the type claims a delivery. *)
Theorem json_response_recorded run stat mode q handle own_args env t (p : payload) stderr code seconds
    (Hwrapper : IsAbs (resolve_wrapper (rq_wrapper q) (rq_member q)) = true)
    (Hworkspace : validateHermesWorkspace stat (me_workspace (rq_member q)) = Ok tt)
    (Hrun : forall path args dir vars limit,
       run path args dir vars limit = mk_process (json_text (AMap (response_object t p)) +:+ nl) stderr None code None seconds)
    (Ht : trim_space t = t) (Hne : t <> "") (Hp : p <> ∅)
    (Hlow : mem_str (to_lower t) ["platform_delivery"; "delivery_evidence"; "fallback"] = false)
    (Hreadable : readable (AMap p)) (Hdepth : (json_depth (to_json (AMap (response_object t p))) <= max_depth)%nat) :
  let r := invoke run stat mode q handle own_args env in
  r.2 = None /\ rt_ok (hr_result r.1) = true /\ rt_semantic_type (hr_result r.1) = t /\
  rt_payload (hr_result r.1) = Some (json_norm <$> p) /\ rt_cost (hr_result r.1) = ParseHermesCost stderr.
Proof.
  assert (Hr : readable (AMap (response_object t p))).
  { constructor. intros k v Hv. unfold response_object in Hv. apply lookup_insert_Some in Hv as [[_ <-]|[_ Hv]]; [constructor|].
    apply lookup_singleton_Some in Hv as [_ <-]. done. }
  assert (Hparse : parseHermesResponseOutput (json_text (AMap (response_object t p)) +:+ nl) stderr = Ok (t, json_norm <$> p)).
  { unfold parseHermesResponseOutput. rewrite (object_line _ Hr). cbn [scan_lines].
    destruct (object_text (response_object t p)) as [s Hs].
    replace (isHermesCLIControlLine _) with false by by rewrite Hs. replace (looksLikeJSON _) with true by by rewrite Hs.
    cbn [join]. unfold parseHermesJSONText. rewrite (decode_map_text _ Hr Hdepth). cbn [default].
    by apply parse_response_object. }
  unfold invoke. rewrite Hwrapper. cbn [negb]. rewrite orb_false_r.
  destruct (resolve_wrapper _ _ == "") eqn:E; [apply String.eqb_eq in E; rewrite E in Hwrapper; discriminate Hwrapper|].
  rewrite Hworkspace. cbv zeta. rewrite Hrun. cbn [pr_stdout pr_stderr pr_error pr_context pr_exit pr_seconds]. rewrite Hparse.
  change ("" == "") with true. cbn [negb fst snd hr_result rt_ok rt_semantic_type rt_payload rt_cost].
  split; [reflexivity|]. split; [reflexivity|]. split; [reflexivity|]. split; reflexivity.
Qed.

(** ** Delivery receipts and the order of maps *)

Lemma first_text_empty l : first_text l = "" <-> Forall (fun s => s = "") l.
Proof.
  induction l as [|s l IH]; cbn [first_text]; [done|]. rewrite Forall_cons, <- IH.
  destruct (String.eqb_spec s "") as [->|]; [tauto|]. split; [done|]. by intros [? _].
Qed.

(** A visit of all entries of a map, in some order. *)
Definition visits (order : gmap string string -> list (string * string)) : Prop := forall m, order m ≡ₚ map_to_list m.

Lemma visited_empty order (m : gmap string string) :
  visits order -> first_text (map snd (order m)) = "" <-> forall k s, m !! k = Some s -> s = "".
Proof.
  intros Ho. rewrite first_text_empty, (Permutation_map _ (Ho m)), Forall_fmap, Forall_forall. split.
  - intros H k s Hk. apply (H (k, s)). by apply elem_of_map_to_list.
  - intros H [k s] Hk. apply elem_of_map_to_list in Hk. by apply (H k).
Qed.

(** Whether a string is found does not depend on the order, though which one does. *)
Lemma deep_string_order order order' keys a :
  visits order -> visits order' -> deep_string order keys a = "" <-> deep_string order' keys a = "".
Proof.
  intros Ho Ho'. induction a as [a IH] using any_rect_prop. destruct a as [| | | | | |l|m| |]; try done.
  - cbn [deep_string]. rewrite !first_text_empty, !Forall_fmap, !Forall_forall.
    split; intros H x Hx; specialize (H x Hx); specialize (IH x Hx); destruct x; try done; by apply IH.
  - cbn [deep_string]. destruct (firstString m keys == ""); [|done]. cbn [negb].
    rewrite !visited_empty by done.
    split; intros H k s Hk; rewrite lookup_fmap in Hk; apply fmap_Some in Hk as (v & Hv & ->);
      apply (IH k v Hv), (H k); by rewrite lookup_fmap, Hv.
Qed.

(** Two outcomes that differ at most in what an accepted receipt says. *)
Definition same_verdict {A} (r r' : result (string * string) A) : Prop :=
  match r, r' with
  | Ok _, Ok _ => True
  | Err e, Err e' => e = e'
  | _, _ => False
  end.

(** Whether the output of a delivery is accepted as a receipt, and why not,
    does not depend on the order in which Go visits the entries of a map. *)
Theorem delivery_verdict_ordered (order order' : gmap string string -> list (string * string)) (stdout : string)
    (Ho : visits order) (Ho' : visits order') :
  same_verdict (parseHermesVisibleDeliveryOutput order stdout) (parseHermesVisibleDeliveryOutput order' stdout).
Proof.
  unfold parseHermesVisibleDeliveryOutput. destruct (trim_space stdout == ""); [done|].
  destruct (decode_map (trim_space stdout)) as [| |raw].
  - set (parsed := foldl _ _ _). by destruct (hv_message_id parsed == "").
  - done.
  - unfold parseHermesVisibleDeliveryJSON. destruct raw as [raw|]; [|done].
    destruct (firstString raw _ != ""); [done|].
    pose proof (deep_string_order order order' ["message_id"; "discord_message_id"; "messageId"] (AMap raw) Ho Ho') as Hid.
    unfold firstStringDeep. revert Hid.
    generalize (deep_string order ["message_id"; "discord_message_id"; "messageId"] (AMap raw)).
    generalize (deep_string order' ["message_id"; "discord_message_id"; "messageId"] (AMap raw)). intros id' id Hid.
    destruct (String.eqb_spec id "") as [->|Hne]; destruct (String.eqb_spec id' "") as [->|Hne']; cbn [negb];
      try (exfalso; tauto).
    + by destruct (_ == "").
    + destruct (String.eqb_spec id ""); [done|]. by destruct (String.eqb_spec id' "").
Qed.

(** ** Concrete runs *)

Definition hq (s : string) : string := dquote +:+ s +:+ dquote.
Definition forward (m : gmap string string) : list (string * string) := sorted_entries m.
Definition backward (m : gmap string string) : list (string * string) := rev (sorted_entries m).

Lemma visits_forward : visits forward.
Proof. intros m. apply sorted_entries_perm. Qed.

Lemma visits_backward : visits backward.
Proof. intros m. unfold backward. rewrite <- Permutation_rev. apply sorted_entries_perm. Qed.

(** Two messages in one receipt: which id is reported depends on the order. *)
Definition hx_receipt : string :=
  "{" +:+ hq "first" +:+ ":{" +:+ hq "message_id" +:+ ":" +:+ hq "m1" +:+ "}," +:+
  hq "second" +:+ ":{" +:+ hq "message_id" +:+ ":" +:+ hq "m2" +:+ "}}".

Lemma delivery_verdict_ordered_witness :
  same_verdict (parseHermesVisibleDeliveryOutput forward hx_receipt) (parseHermesVisibleDeliveryOutput backward hx_receipt).
Proof. exact (delivery_verdict_ordered forward backward hx_receipt visits_forward visits_backward). Defined.

Example hx_receipt_order :
  hv_message_id <$> parseHermesVisibleDeliveryOutput forward hx_receipt = Ok "m1" /\
  hv_message_id <$> parseHermesVisibleDeliveryOutput backward hx_receipt = Ok "m2".
Proof. vm_compute. split; reflexivity. Qed.

(** The value that follows a marker after a space is kept. *)
Example hx_secret_kept :
  redactedDiagnosticExcerpt "" "Authorization: Bearer abc123 in /etc/hermes/x, token=q 'see /tmp/a'" =
  "[redacted] Bearer abc123 in [redacted] [redacted] 'see [redacted]".
Proof. vm_compute. reflexivity. Qed.

Definition hx_member : Member :=
  mk_member "ann" "Ann" "hermes" "" "" true "hermes-agent" [] [] "" "" None "" None.

Definition hx_request : runner_request := mk_runner_request "sess_a" hx_member "/opt/hermes/bin/hermes" "Speak." "psh_1" 60 "inv_1" "cmd_1" 1.

Definition hx_payload : payload := {[ "speech" := AStr ("One" +:+ nl +:+ "two"); "turn" := AInt 3 ]}.

Definition hx_cost : string :=
  "{" +:+ hq "hermes_cost" +:+ ":{" +:+ hq "tokens_in" +:+ ":12," +:+ hq "tokens_out" +:+ ":3}}" +:+ nl.

Definition hx_run (out : process) (path : string) (args : list string) (dir : string) (vars : list string) (limit : Z) : process := out.

Definition hx_stat (path : string) : path_stat := StatFile true.

Definition hx_good : process :=
  mk_process (json_text (AMap (response_object "speech" hx_payload)) +:+ nl) hx_cost None 0 None (5, 0).

Lemma json_response_recorded_witness :
  let r := invoke (hx_run hx_good) hx_stat "chat" hx_request None [] [] in
  r.2 = None /\ rt_ok (hr_result r.1) = true /\ rt_semantic_type (hr_result r.1) = "speech" /\
  rt_payload (hr_result r.1) = Some (json_norm <$> hx_payload) /\ rt_cost (hr_result r.1) = ParseHermesCost hx_cost.
Proof.
  apply (json_response_recorded (hx_run hx_good) hx_stat "chat" hx_request None [] [] "speech" hx_payload hx_cost 0 (5, 0)).
  - vm_compute. reflexivity.
  - vm_compute. reflexivity.
  - intros path args dir vars limit. exact eq_refl.
  - vm_compute. reflexivity.
  - discriminate.
  - apply insert_non_empty.
  - vm_compute. reflexivity.
  - constructor. intros k v Hv. unfold hx_payload in Hv. apply lookup_insert_Some in Hv as [[_ <-]|[_ Hv]]; [constructor|].
    apply lookup_singleton_Some in Hv as [_ <-]. constructor. by split.
  - apply Nat.leb_le. vm_compute. reflexivity.
Defined.

(** What some runs come to. *)
Example hx_runs :
  let come out := let r := invoke (hx_run out) hx_stat "chat" hx_request None [] [] in
                  (rt_ok (hr_result r.1), rt_semantic_type (hr_result r.1), rt_error_class (hr_result r.1), r.2) in
  let out stdout stderr err := mk_process stdout stderr err 1 None (1, 0) in
  come (out ("session_id: 7" +:+ nl +:+ "Hello." +:+ nl) "" None) = (true, "assignee_update", "", None) /\
  come (out "" "" None) = (false, "", "malformed_or_missing_response", Some "semantic runner failure: malformed_or_missing_response") /\
  come (out "" "Rate limit reached" (Some "exit status 1")) =
    (false, "", "model_provider_failure", Some "semantic runner failure: model_provider_failure") /\
  come (out "" "" (Some "exit status 1")) =
    (false, "", "malformed_or_missing_response", Some "semantic runner failure: malformed_or_missing_response") /\
  come (out "Hello." "" (Some "exit status 1")) = (false, "", "nonzero_exit", Some "exit status 1") /\
  come (out "message_id=4" "" None) =
    (false, "", "adapter_command_mismatch", Some "semantic runner failure: adapter_command_mismatch") /\
  come (out "" "" (Some "chdir /w: no such file or directory")) =
    (false, "", "workspace_missing", Some "chdir /w: no such file or directory") /\
  rc_tokens_in <$> ParseHermesCost hx_cost = Some 12.
Proof. vm_compute. repeat split. Qed.
