(* ===== verification/GrantDispatch.v ===== *)
(** * Council commands in the daemon (daemon/council_handlers.go)

    What the daemon does around a council command: the readiness that a command
    demands before it is recorded, the dispatch to the selected speaker after a
    grant, and the answer.  A request is given as its decoded parameters. *)

From S2P Require Import Prelude GoValue GoTime Model Ids Sha256 Evidence Events EventLog LogSpec Command Delegation Stream Registry MemberRuntime Closeout Lifecycle ArgumentGraph SelectedRunner Council Readiness PromptEvidence PromptBuilder RunnerDispatch SpeakerDispatch.

(** The settings of the server: an override of the time a speaker has and of the
    retries, and the kind of the adapter when one is set. *)
Record server := mk_server { sv_timeout : Z; sv_max_retries : Z; sv_adapter : option string }.

(** The built-in adapter is of the only supported kind. *)
Definition selectedSpeakerAdapter (s : server) : result run_error string :=
  match sv_adapter s with
  | Some kind =>
      ensure kind == HermesAgentKind or RunText ("unsupported runner adapter kind " +:+ quoted kind);; Ok kind
  | None => Ok HermesAgentKind
  end.

(** ** Timeouts *)

Record selectedSpeakerTimeoutResolution := mk_timeout_resolution { rs_duration : Z; rs_source : string }.

(** [time.Duration(sec) * time.Second] *)
Definition seconds (sec : Z) : Z := wrap64 (sec * second).

Definition selectedSpeakerTimeoutResolutionForLimits (s : server) (l : Limits) : selectedSpeakerTimeoutResolution :=
  if 0 <? sv_timeout s then mk_timeout_resolution (sv_timeout s) "daemon_override"
  else if 0 <? li_dispatch_timeout_sec l then mk_timeout_resolution (seconds (li_dispatch_timeout_sec l)) "session_limit"
  else mk_timeout_resolution (30 * second) "default_fallback_30s".

Definition selectedSpeakerTimeout (s : server) (md : SessionMetadata) : Z :=
  rs_duration (selectedSpeakerTimeoutResolutionForLimits s (md_limits md)).

Definition selectedSpeakerMaxRetries (s : server) (md : SessionMetadata) : Z :=
  if 0 <? sv_max_retries s then sv_max_retries s
  else if 0 <? li_runner_max_retries (md_limits md) then li_runner_max_retries (md_limits md)
  else 0.

(** The evidence of the session as it is now, when the policy applies and is
    broken. *)
Definition selectedRunnerTimeoutRuntimeEvidence (s : server) (md : SessionMetadata) : option SelectedRunnerTimeoutEvidence :=
  match md_timeout_evidence md with
  | None => None
  | Some t =>
      if te_policy_required t then
        let r := selectedSpeakerTimeoutResolutionForLimits s (md_limits md) in
        if rs_duration r =? seconds (te_configured_timeout_sec t) then None
        else Some (mk_timeout_evidence true (te_configured_timeout_sec t) (Z.quot (rs_duration r) second) (rs_source r)
                     (te_approved_alternative t) (te_approval_basis t) false)
      else None
  end.

Definition selectedRunnerTimeoutEvidencePayload (t : SelectedRunnerTimeoutEvidence) : any :=
  AMap {[ "policy_required" := ABool (te_policy_required t); "configured_timeout_sec" := AInt (te_configured_timeout_sec t);
          "effective_timeout_sec" := AInt (te_effective_timeout_sec t); "effective_source" := AStr (te_effective_source t);
          "approved_alternative" := ABool (te_approved_alternative t); "approval_basis" := AStr (te_approval_basis t);
          "compliant" := ABool (te_compliant t) ]}.

(** ** Prerequisites *)

Definition selectedRunnerPrerequisite (s : server) (snapshot : result reg_error LoadedRegistry) (memberID : string)
    : SelectedRunnerPrerequisite :=
  let '(blockers, evidence) :=
    match snapshot with
    | Err _ => (["registry_snapshot_unavailable"], [])
    | Ok loaded =>
        match rg_members (ld_registry loaded) !! memberID with
        | None => (["selected_member_missing_in_snapshot"], [])
        | Some m =>
            ((if me_enabled m then [] else ["selected_member_not_enabled_in_snapshot"]) ++
             (if me_adapter_kind m == HermesAgentKind then [] else ["unsupported_runner_adapter_kind"]) ++
             (if resolvedWrapper m == "" then ["resolved_wrapper_missing"] else []),
             ["registry_snapshot_member:" +:+ me_id m])
        end
    end in
  let '(blockers, evidence) :=
    match selectedSpeakerAdapter s with
    | Err _ => (blockers ++ ["runner_adapter_unavailable"], evidence)
    | Ok _ => (blockers, evidence ++ ["runner_adapter:" +:+ HermesAgentKind])
    end in
  match blockers with
  | [] => mk_prerequisite true "ready" [] evidence
  | _ => mk_prerequisite false "blocking" blockers evidence
  end.

Definition grant_options (s : server) (snapshot : result reg_error LoadedRegistry) (selected : string) (now : time)
    : ParticipantRuntimeReadinessOptions :=
  mk_options true true true selected {[ selected := selectedRunnerPrerequisite s snapshot selected ]} now 0 "" "" "".

(** *** The report as JSON *)

Definition omit_strs (key : string) (l : list string) : list (string * any) :=
  match l with
  | [] => []
  | _ => [(key, AStrs l)]
  end.

Definition evidence_json (e : EvidenceStatus) : any :=
  AStruct ([("status", AStr (vs_status e))] ++ omit_str "event_id" (vs_event e) ++ omit_str "cursor" (vs_cursor e) ++
           omit_str "reason" (vs_reason e) ++ omit_str "recorded_at" (vs_recorded e)).

Definition prerequisite_json (p : SelectedRunnerPrerequisite) : any :=
  AStruct ([("ready", ABool (pq_ready p)); ("status", AStr (pq_status p))] ++ omit_strs "blocking_reasons" (pq_blocking p) ++
           omit_strs "evidence" (pq_evidence p)).

Definition member_row_json (r : ParticipantMemberRuntimeReadiness) : any :=
  AStruct ([("member", AStr (mr_member r)); ("ready", ABool (mr_ready r)); ("live_ready", ABool (mr_live r));
            ("readiness_class", AStr (mr_class r)); ("blocking_reasons", AStrs (mr_blocking r));
            ("subscriber_presence", evidence_json (mr_presence r)); ("cursor_ack", evidence_json (mr_ack r));
            ("cursor_ack_freshness", evidence_json (mr_ack_fresh r)); ("heartbeat_freshness", evidence_json (mr_heartbeat r));
            ("attendance", evidence_json (mr_attendance r)); ("preparation", evidence_json (mr_preparation r))] ++
           match mr_prerequisite r with
           | Some p => [("selected_runner_prerequisite", prerequisite_json p)]
           | None => []
           end).

Definition report_json (r : ParticipantRuntimeReadinessReport) : any :=
  AStruct ([("session_id", AStr (rr_session r)); ("ready", ABool (rr_ready r)); ("live_ready", ABool (rr_live r));
            ("status", AStr (rr_status r)); ("generated_at", AStr (rr_generated r)); ("evaluated_at", AStr (rr_evaluated r));
            ("evaluation_mode", AStr (rr_mode r))] ++
           omit_str "freshness_reference_event_id" (rr_reference_id r) ++
           omit_str "freshness_reference_event_type" (rr_reference_type r) ++
           [("required_members", strs_or_nil (rr_required r)); ("blocking_reasons", AStrs (rr_blocking r));
            ("stream_heartbeat_interval_sec", AInt (rr_heartbeat_sec r)); ("stream_stale_threshold_sec", AInt (rr_stale_sec r));
            ("stream_repoll_threshold_sec", AInt (rr_repoll_sec r)); ("attendance_required", ABool (rr_attendance r));
            ("preparation_required", ABool (rr_preparation r)); ("selected_runner_required", ABool (rr_selected_runner r));
            ("members", match rr_members r with [] => ANil | rows => AList (map member_row_json rows) end)] ++
           omit_str "latest_attendance_request_event_id" (rr_attendance_event r) ++
           omit_str "latest_preparation_request_event_id" (rr_preparation_event r)).

(** ** What the log says of the dispatch of a selection *)

Definition caused_by (id : string) (e : EventEnvelope) : bool := ev_causation_event_id e == id.

Definition selectedSpeakerDispatchRecorded (events : list EventEnvelope) (id : string) : bool :=
  existsb (fun e => caused_by id e && mem_str (ev_type e)
    ["runner_invocation_failed"; "runner_result_discarded"; "speech"; "selected_runner_dispatch_failed"]) events.

Definition selectedSpeakerDispatchStartedWithoutTerminal (events : list EventEnvelope) (id : string) : bool :=
  existsb (fun e => caused_by id e && (ev_type e == "runner_invocation_started")) events.

Definition selectedRunnerPromptEvidenceRecorded (events : list EventEnvelope) (id : string) : bool :=
  existsb (fun e => (ev_type e == "selected_runner_prompt_evidence") && caused_by id e) events.

Definition selectedMemberForDiagnostic (e : EventEnvelope) : string :=
  match selectedSpeakerMember e with
  | Ok member => member
  | Err _ => trimmed_text (pl e) "member"
  end.

Section server.
Context (name : string) (clock : nat -> time) (wall : time) (srv : server) (snapshot : result reg_error LoadedRegistry)
  (send : sessions -> runner_request -> sessions * (runner_result * option string)) (visible : option visible_sender).

Definition diagnostic_payload (e : EventEnvelope) (errorClass reason path : string) (extra : payload) : payload :=
  let p := extra ∪ {[ "reason" := AStr reason; "selected_member" := AStr (selectedMemberForDiagnostic e);
                      "diagnostic_owner" := AStr "control/RUNFIX-003"; "diagnostic_path" := AStr path ]} in
  if errorClass == "" then p else <["error_class" := AStr errorClass]> p.

Definition appendSelectedSpeakerDispatchDiagnostic (st : run_state) (e : EventEnvelope) (errorClass reason path : string)
    (extra : payload) : run_state * option run_error :=
  append_diagnostic name clock st e (diagnostic_payload e errorClass reason path extra).

Definition appendSelectedRunnerPromptEvidence (st : run_state) (e : EventEnvelope) (evidence : SelectedRunnerPromptEvidence)
    (events : list EventEnvelope) : run_state * option run_error :=
  if selectedRunnerPromptEvidenceRecorded events (ev_event_id e) then (st, None)
  else
    let md := run_md st in
    let '(st1, t1) := read_clock clock st in
    let '(st2, t2) := read_clock clock st1 in
    let source := "prompt_" +:+ String.substring 0 12 (sha256_hex (ev_event_id e)) in
    let '(st3, r) := append_event name st2
      (mk_event SchemaVersion (eventIDFor source "selected_runner_prompt_evidence" 1 t1) (ev_command_id e) (ev_event_id e)
         (md_id md) (md_id md) (md_session_type md) None (ev_phase e) "selected_runner_prompt_evidence" daemonPrincipal
         [md_moderator md] t2 None None (Some (selectedRunnerPromptEvidencePayload evidence))) in
    (st3, append_error r).

Definition speaker_file : string := "internal/daemon/selected_speaker.go".
Definition handler_file : string := "internal/daemon/council_handlers.go".
Definition prompt_file : string := "internal/storage/selected_runner_prompt_evidence.go".

(** The last part: the prompt is built and recorded, and the runner asked. *)
Definition dispatch_prompted (st : run_state) (ix : LogIndex) (e : EventEnvelope) (member : Member) (kind : string)
    : run_state * option run_error :=
  let diagnose st reason path extra := appendSelectedSpeakerDispatchDiagnostic st e "" reason path extra in
  let dm := dispatch_metadata (run_md st) e in
  match BuildSelectedRunnerPromptEnvelope dm ix e member with
  | Err err =>
      diagnose st "selected_runner_prompt_context_build_failed" prompt_file
        {[ "diagnostic_owner" := AStr "control/NEWFIX-001"; "validation_error" := AStr (error_text err) ]}
  | Ok envelope =>
      let ev := en_evidence envelope in
      match appendSelectedRunnerPromptEvidence st e ev (ix_events ix) with
      | (st1, Some err) => (st1, Some err)
      | (st1, None) =>
          if pe_result ev == "blocked" then
            diagnose st1 "selected_runner_context_missing" prompt_file
              {[ "diagnostic_owner" := AStr "control/NEWFIX-001";
                 "selected_runner_prompt_evidence" := AMap (selectedRunnerPromptEvidencePayload ev);
                 "blocking_reasons" := strs_or_nil (pe_missing ev) ]}
          else
            let h := mk_handler member (selectedSpeakerMaxRetries srv (run_md st1)) (selectedSpeakerTimeout srv (run_md st1))
                       (Some (fun _ _ => en_prompt envelope)) in
            match Handle name clock wall (Some kind) send visible h (set_md st1 dm) e with
            | (st2, Some (HandleFailed _)) =>
                diagnose (set_md st2 (run_md st1)) "selected_runner_dispatch_failed" speaker_file ∅
            | (st2, _) => (set_md st2 (run_md st1), None)
            end
      end
  end.

(** The selection is fit for a dispatch: who runs it, or the diagnostic to record. *)
Definition dispatch_target (st : run_state) (ix : LogIndex) (e : EventEnvelope) (selected : string) (now : time)
    : result (string * string * payload) (Member * string) :=
  match selectedRunnerTimeoutRuntimeEvidence srv (run_md st) with
  | Some t =>
      Err ("selected_runner_timeout_policy_blocked", handler_file,
           {[ "diagnostic_owner" := AStr "control/NEWFIX-005";
              "selected_runner_timeout_evidence" := selectedRunnerTimeoutEvidencePayload t;
              "blocking_reasons" := AStrs ["selected_runner_timeout_policy_mismatch"] ]})
  | None =>
      let report := ParticipantRuntimeReadinessFromIndex wall (run_md st) ix (grant_options srv snapshot selected now) in
      reject requiresSelectedRunnerDeliveryProof (run_md st) && negb (rr_ready report) with
        ("participant_runtime_readiness_blocked", handler_file,
         {[ "diagnostic_owner" := AStr "control/RUNFIX-011"; "participant_runtime_ready" := ABool false;
            "participant_runtime_readiness" := report_json report; "blocking_reasons" := strs_or_nil (rr_blocking report) ]});;
      match snapshot with
      | Err _ => Err ("registry_snapshot_unavailable", SnapshotFileName, ∅)
      | Ok loaded =>
          match rg_members (ld_registry loaded) !! selected with
          | None => Err ("selected_member_not_enabled_in_snapshot", SnapshotFileName, ∅)
          | Some member =>
              ensure me_enabled member or ("selected_member_not_enabled_in_snapshot", SnapshotFileName, ∅);;
              match selectedSpeakerAdapter srv with
              | Err _ => Err ("runner_adapter_unavailable", "internal/runner", ∅)
              | Ok kind => Ok (member, kind)
              end
          end
      end
  end.

(** The log is read once; the readiness report of the code reads it again, with
    nothing between the two reads but the clock. *)
Definition dispatchSelectedSpeakerAfterGrant (st : run_state) (eventID : string) : run_state * option run_error :=
  let diagnose st e errorClass reason path extra := appendSelectedSpeakerDispatchDiagnostic st e errorClass reason path extra in
  match read_session (dp_world st) name with
  | Err err => (st, Some (RunStorage err))
  | Ok ix =>
      match find_first (fun e => ev_event_id e == eventID) (ix_events ix) with
      | None => (st, None)
      | Some e =>
          if ev_type e != "speaker_selected" then (st, None)
          else if selectedSpeakerDispatchRecorded (ix_events ix) (ev_event_id e) then (st, None)
          else if selectedSpeakerDispatchStartedWithoutTerminal (ix_events ix) (ev_event_id e) then
            diagnose st e "stale_phase_evidence" "selected_runner_dispatch_incomplete_stale" speaker_file ∅
          else
            match selectedSpeakerMember e with
            | Err _ => diagnose st e "" "selected_member_mismatch" speaker_file ∅
            | Ok selected =>
                if selected == "" then diagnose st e "" "selected_member_missing" speaker_file ∅
                else
                  let '(st1, now) := read_clock clock st in
                  let st' := if requiresSelectedRunnerDeliveryProof (run_md st) &&
                                match selectedRunnerTimeoutRuntimeEvidence srv (run_md st) with Some _ => false | None => true end
                             then st1 else st in
                  match dispatch_target st ix e selected now with
                  | Err (reason, path, extra) => diagnose st' e "" reason path extra
                  | Ok (member, kind) => dispatch_prompted st' ix e member kind
                  end
            end
      end
  end.
(** ** Readiness before a command *)

Record council_request := mk_request {
  cq_action : string; cq_actor : string; cq_command_id : string; cq_causation : string; cq_payload : option payload }.

Definition request_spec (r : council_request) (now : time) : CouncilEventSpec :=
  mk_council_spec (cq_action r) (cq_actor r) (cq_command_id r) (cq_causation r) (cq_payload r) now.

(** firstNonEmpty of the daemon does not trim its answer. *)
Definition firstNonEmpty (values : list string) : string := default "" (find_first (fun v => negb (is_blank v)) values).

Definition named_member (p : payload) : string := trim_space (firstNonEmpty [trimmed_text p "member"; trimmed_text p "to"]).

Definition selectedMemberForGrantPreflight (st : run_state) (r : council_request) : run_state * result run_error string :=
  let given := named_member (default ∅ (cq_payload r)) in
  if given != "" then (st, Ok given)
  else
    let '(st1, now) := read_clock clock st in
    (st1,
     match BuildCouncilEvent name wall (dp_world st1)
             (mk_council_spec "grant" (cq_actor r) (cq_command_id r) (cq_causation r) (cq_payload r) now) with
     | Err err => Err (RunStorage err)
     | Ok e =>
         let selected := named_member (pl e) in
         let selected := if selected == "" then match ev_to e with [to] => trim_space to | _ => "" end else selected in
         reject selected == "" with
           RunStorage (NewValidationError CategoryPrincipalInvalid "member"
             "selected speaker must be resolved before readiness preflight");;
         Ok selected
     end).

Definition appendSelectedRunnerPreflightDiagnostic (st : run_state) (r : council_request) (selected : string)
    (report : ParticipantRuntimeReadinessReport) : run_state * option run_error :=
  let md := run_md st in
  let '(st, commandID) :=
    if is_blank (cq_command_id r) then
      let '(st1, now) := read_clock clock st in
      (st1, "cmd_selected_runner_preflight_" +:+ unix_nano now +:+ "_" +:+ selected)
    else (st, trim_space (cq_command_id r)) in
  match read_session (dp_world st) name with
  | Err err => (st, Some (RunStorage err))
  | Ok ix =>
      let phase := match last (ix_events ix) with Some e => ev_phase e | None => st_phase (md_state md) end in
      if existsb (fun e => (ev_type e == "selected_runner_dispatch_failed") && (ev_command_id e == commandID) &&
                           (trimmed_text (pl e) "reason" == "selected_runner_preflight_failed")) (ix_events ix)
      then (st, None)
      else
        let '(st1, t1) := read_clock clock st in
        let '(st2, t2) := read_clock clock st1 in
        let '(st3, res) := append_event name st2
          (mk_event SchemaVersion (eventIDFor commandID "selected_runner_dispatch_failed" 1 t1) commandID "" (md_id md) (md_id md)
             (md_session_type md) None phase "selected_runner_dispatch_failed" daemonPrincipal [md_moderator md] t2 None None
             (Some {[ "reason" := AStr "selected_runner_preflight_failed"; "selected_member" := AStr selected;
                      "diagnostic_owner" := AStr "control/RUNFIX-011"; "diagnostic_path" := AStr handler_file;
                      "participant_runtime_ready" := ABool false; "blocking_reasons" := strs_or_nil (rr_blocking report);
                      "participant_runtime_readiness" := report_json report ]})) in
        (st3, append_error res)
  end.

Definition storage_result {A} (r : result error A) : option run_error :=
  match r with
  | Ok _ => None
  | Err err => Some (RunStorage err)
  end.

(** The members that have not answered in time are settled, one append each. *)
Definition settle (apply : string -> world -> time -> time -> list (option append_fault) -> world * list AppendResult * result error unit)
    (st : run_state) (now : time) : run_state * option run_error :=
  let '(w, done, r) := apply name (dp_world st) wall now (dp_faults st) in
  (mk_run w (dp_tick st) (drop (length done) (dp_faults st)) (dp_sent st) (dp_posted st), storage_result r).

(** Refuses the command of a council on a Discord thread whose members are not
    ready for it. *)
Definition applyCouncilRuntimePreflight (st : run_state) (r : council_request) : run_state * option run_error :=
  if negb (live_council (run_md st)) then (st, None)
  else
    let '(st0, now) := read_clock clock st in
    let report st opts :=
      match read_session (dp_world st) name with
      | Err err => Err err
      | Ok ix => Ok (ParticipantRuntimeReadinessFromIndex wall (run_md st) ix opts)
      end in
    let ready st opts path :=
      match report st opts with
      | Err err => Some (RunStorage err)
      | Ok rep => storage_result (ParticipantReadinessError rep path)
      end in
    if cq_action r == "prepare" then
      match settle ApplyAttendanceTimeouts st0 now with
      | (st1, Some err) => (st1, Some err)
      | (st1, None) => (st1, ready st1 (mk_options true false false "" ∅ now 0 "" "" "") "participant_runtime_readiness")
      end
    else if cq_action r == "poll" then
      match settle ApplyPreparationTimeouts st0 now with
      | (st1, Some err) => (st1, Some err)
      | (st1, None) => (st1, ready st1 (mk_options true true false "" ∅ now 0 "" "" "") "participant_runtime_readiness")
      end
    else if cq_action r == "grant" then
      match selectedMemberForGrantPreflight st0 r with
      | (st1, Err err) => (st1, Some err)
      | (st1, Ok selected) =>
          match report st1 (grant_options srv snapshot selected now) with
          | Err err => (st1, Some (RunStorage err))
          | Ok rep =>
              if rr_ready rep then (st1, None)
              else
                match appendSelectedRunnerPreflightDiagnostic st1 r selected rep with
                | (st2, Some err) => (st2, Some err)
                | (st2, None) => (st2, storage_result (ParticipantReadinessError rep "selected_runner_prerequisite"))
                end
          end
      end
    else (st0, None).

(** ** The command *)

Definition first_entry (key : string) (l : list string) (p : payload) : payload :=
  match l with
  | id :: _ => <[key := AStr id]> p
  | [] => p
  end.

(** The answer to a grant: the state of its dispatch as the log accounts for it. *)
Definition councilGrantAppendResponse (st : run_state) (a : AppendResult) (dedup : bool) : payload :=
  let p := {[ "cursor" := AStr (ar_cursor a); "event_id" := AStr (ar_event_id a); "offset" := AInt (ar_offset a);
              "deduplicated" := ABool dedup; "append_status" := AStr "accepted"; "grant_event_id" := AStr (ar_event_id a) ]} in
  match read_session (dp_world st) name with
  | Err err =>
      <["dispatch_status" := AStr "status_unavailable"]> (<["followup_required" := ABool true]>
        (<["status_error" := AStr (error_text err)]> p))
  | Ok ix =>
      match find_first (fun g => ga_selected g == ar_event_id a) (sa_runners (SelectedRunnerAccountingFromIndex (run_md st) ix)) with
      | None =>
          <["dispatch_status" := AStr "pending"]> (<["runner_status" := AStr "pending"]>
            (<["speech_link_status" := AStr "pending"]> (<["followup_required" := ABool true]> p)))
      | Some g =>
          let p1 := <["selected_event_id" := AStr (ga_selected g)]> (<["selected_member" := AStr (ga_member g)]>
                      (<["dispatch_status" := AStr (ga_status g)]> (<["runner_status" := AStr (ga_runner_status g)]>
                      (<["speech_link_status" := AStr (ga_speech_status g)]>
                      (<["followup_required" := ABool (ga_followup g)]> p))))) in
          let p2 := if 0 <? ga_turn g then <["turn" := AInt (ga_turn g)]> p1 else p1 in
          let p3 := first_entry "linked_runner_speech_event_id" (ga_speeches g)
            (first_entry "dispatch_failure_event_id" (ga_dispatch g)
            (first_entry "runner_discard_event_id" (ga_discards g)
            (first_entry "runner_failure_event_id" (ga_failures g)
            (first_entry "runner_succeeded_event_id" (ga_succeeded g)
            (first_entry "runner_started_event_id" (ga_starts g) p2))))) in
          match ga_evidence g with
          | [] => p3
          | ev :: _ =>
              let p4 := <["linked_runner_delivery_evidence" := AMap ev]>
                          (<["visible_delivery_source" := AStr "selected_runner_surface_evidence"]> p3) in
              let message := trimmed_text ev "message_id" in
              if message == "" then p4 else <["linked_runner_visible_message_id" := AStr message]> p4
          end
      end
  end.

(** eventAppendResponse *)
Definition append_response (a : AppendResult) (dedup : bool) : payload :=
  {[ "cursor" := AStr (ar_cursor a); "event_id" := AStr (ar_event_id a); "offset" := AInt (ar_offset a);
     "deduplicated" := ABool dedup ]}.

(** [handleCouncilEvent], on the loaded session: readiness, the event, the
    dispatch when the event selects a speaker, the answer. *)
Definition handleCouncilEvent (st : run_state) (r : council_request) : run_state * result run_error payload :=
  match applyCouncilRuntimePreflight st r with
  | (st1, Some err) => (st1, Err err)
  | (st1, None) =>
      let '(st2, now) := read_clock clock st1 in
      let '(w, res) := run_command name (dp_world st2) wall (request_spec r now) (default None (head (dp_faults st2))) in
      let st3 := mk_run w (dp_tick st2) (tail (dp_faults st2)) (dp_sent st2) (dp_posted st2) in
      match res with
      | Err err => (st3, Err (RunStorage err))
      | Ok (a, dedup) =>
          match dispatchSelectedSpeakerAfterGrant st3 (ar_event_id a) with
          | (st4, Some err) => (st4, Err err)
          | (st4, None) =>
              (st4, Ok (if cq_action r == "grant" then councilGrantAppendResponse st4 a dedup else append_response a dedup))
          end
      end
  end.
End server.
