(* ===== verification/SpeakerTheory.v ===== *)
(** * Correctness of the dispatch to the selected speaker

    A selection is dispatched at most once, and its runner is asked only with a
    complete context. *)

From S2P Require Import Prelude GoValue GoTime Model Ids Sha256 Evidence Events EventLog LogSpec Command Delegation Stream Registry MemberRuntime Closeout Lifecycle ArgumentGraph SelectedRunner SelectedRunnerTheory Council Readiness PromptEvidence PromptBuilder PromptTheory RunnerDispatch RunnerDispatchTheory SpeakerDispatch GrantDispatch Fixtures.

Section speaker.
Context (name : string) (clock : nat -> time) (wall : time) (adapter_kind : option string)
  (send : sessions -> runner_request -> sessions * (runner_result * option string)) (visible : option visible_sender)
  (quiet : EventEnvelope -> Prop).
Context (others_send : forall ss q, extends name quiet ss (send ss q).1)
  (others_post : forall post ss q, visible = Some post -> extends name quiet ss (post ss q).1).

Lemma visible_extends h w p id :
  extends name quiet (wd_sessions w) (bindSelectedMemberVisibleDelivery visible h w p id).1.1.
Proof.
  unfold bindSelectedMemberVisibleDelivery. cbv zeta. pose proof others_post as Hp.
  destruct (negb _); [apply extends_refl|]. destruct (trimmed_text p "speech" == ""); [apply extends_refl|].
  destruct visible as [post|]; [|apply extends_refl].
  destruct (selectedRunnerVisibleDeliveryTarget _) as [target|]; [|apply extends_refl].
  match goal with |- context [post ?ss ?q] => specialize (Hp post ss q eq_refl); destruct (post ss q) as [ss' [r [err|]]] end; [done|].
  by destruct (selectedRunnerVisibleDeliveryEvidence _ _ _ _).
Qed.

Lemma validator_extends h w e : extends name quiet (wd_sessions w) (validateCanonicalSpeechTerminal name wall visible h w e).1.1.
Proof.
  unfold validateCanonicalSpeechTerminal. destruct (ev_payload e) as [p|]; [|apply extends_refl].
  destruct (BuildCouncilEvent _ _ _ _) as [c|err]; [|apply extends_refl].
  pose proof (visible_extends h w (pl c) (ev_event_id e)) as H.
  by destruct (bindSelectedMemberVisibleDelivery _ _ _ _ _) as [[ss posted] r].
Qed.

Lemma others_speaker h e prompt v w x :
  dq_validator (speaker_request name wall visible h e prompt) = Some v -> extends name quiet (wd_sessions w) (v w x).1.1.
Proof. intros [= <-]. apply validator_extends. Qed.

(** ** At most one dispatch *)

Notation log := (run_log name).

Lemma diagnostic_still st e p : still name st (append_diagnostic name clock st e p).1.
Proof.
  unfold append_diagnostic. cbn [read_clock].
  match goal with |- context [append_event ?n ?s ?x] => pose proof (append_event_still n s x) as H; destruct (append_event n s x) end.
  by destruct H.
Qed.

Lemma set_md_still st st' md : still name st st' -> still name st (set_md st' md).
Proof. by intros [? ?]. Qed.

(** The requests that were sent on behalf of the selection [id] are announced. *)
Definition accounted (id : string) (st st' : run_state) : Prop :=
  extends name any_event (wd_sessions (dp_world st)) (wd_sessions (dp_world st')) /\
  exists new, dp_sent st' = dp_sent st ++ new /\
    (new <> [] -> exists x, x ∈ log st' /\ ev_type x = "runner_invocation_started" /\ ev_causation_event_id x = trim_space id).

Lemma still_accounted id st st' : still name st st' -> accounted id st st'.
Proof. intros [H Hs]. split; [done|]. exists []. by rewrite app_nil_r. Qed.

Lemma accounted_still id a b c : accounted id a b -> still name b c -> accounted id a c.
Proof.
  intros [H1 (new & Hn & Ha)] [H2 Hs]. split; [by eapply extends_trans|]. exists new. rewrite Hs. split; [done|].
  intros Hne. destruct (Ha Hne) as (x & Hx & ?). exists x. split; [|done]. destruct H2 as (l & Hl & _).
  unfold run_log in *. rewrite Hl. by apply elem_of_app; left.
Qed.

Lemma still_accounted_trans id a b c : still name a b -> accounted id b c -> accounted id a c.
Proof.
  intros [H1 Hs] [H2 (new & Hn & Ha)]. split; [by eapply extends_trans|]. exists new. by rewrite Hn, Hs.
Qed.

Lemma accounted_same id st a b : dp_sent b = dp_sent a -> wd_sessions (dp_world b) = wd_sessions (dp_world a) ->
  accounted id st a -> accounted id st b.
Proof. intros Hs Hw [H1 H2]. unfold accounted, run_log in *. by rewrite Hs, Hw. Qed.

(** A dispatch of the handler. *)
Lemma Handle_accounted h st e : accounted (ev_event_id e) st (Handle name clock wall adapter_kind send visible h st e).1.
Proof.
  unfold Handle. cbv zeta. pose proof (still_accounted (ev_event_id e) st st (still_same name st st eq_refl eq_refl)) as H0.
  destruct (ev_type e != "speaker_selected"); [done|]. destruct (selectedSpeakerMember e) as [selected|]; [|done].
  destruct (selected == ""); [done|]. destruct (selected != me_id (sh_member h)); [done|]. destruct (is_blank _); [done|].
  destruct (promptFor h e) as [prompt|text].
  - pose proof (Dispatch_announced name clock (sh_member h) adapter_kind send quiet others_send
      (speaker_request name wall visible h e prompt) (others_speaker h e prompt) (set_md st (dispatch_metadata (run_md st) e))) as H.
    destruct (Dispatch _ _ _ _ _ _ _) as [[st1 out] err]. cbn [fst] in *. destruct H as (Hext & new & Hs & _ & Ha).
    eapply accounted_same; [| |split; [exact Hext|]]; [done|done|]. exists new. split; [exact Hs|]. intros Hne.
    destruct new as [|q new]; [done|]. destruct (Ha q (list_elem_of_here _ _)) as (x & Hx & _ & Ht & Hc & _). by exists x.
  - unfold appendPromptDiagnostic. match goal with |- context [append_diagnostic ?n ?c ?s ?x ?p] =>
      pose proof (diagnostic_still s x p) as H; destruct (append_diagnostic n c s x p) as [st1 [err|]] end; by apply still_accounted.
Qed.

Context (srv : server) (snapshot : result reg_error LoadedRegistry).

Lemma prompt_evidence_still st e ev events : still name st (appendSelectedRunnerPromptEvidence name clock st e ev events).1.
Proof.
  unfold appendSelectedRunnerPromptEvidence. destruct (selectedRunnerPromptEvidenceRecorded _ _); [by apply still_same|]. cbn [read_clock].
  match goal with |- context [append_event ?n ?s ?x] => pose proof (append_event_still n s x) as H; destruct (append_event n s x) end.
  by destruct H.
Qed.

End speaker.

Section dispatch_once.
Context (name : string) (clock : nat -> time) (wall : time) (srv : server) (snapshot : result reg_error LoadedRegistry)
  (send : sessions -> runner_request -> sessions * (runner_result * option string)) (visible : option visible_sender)
  (quiet : EventEnvelope -> Prop).
Context (others_send : forall ss q, extends name quiet ss (send ss q).1)
  (others_post : forall post ss q, visible = Some post -> extends name quiet ss (post ss q).1).

Notation log := (run_log name).

Lemma dispatch_prompted_accounted st ix e member kind :
  accounted name (ev_event_id e) st (dispatch_prompted name clock wall srv send visible st ix e member kind).1.
Proof.
  unfold dispatch_prompted, appendSelectedSpeakerDispatchDiagnostic. cbv zeta.
  destruct (BuildSelectedRunnerPromptEnvelope _ _ _ _) as [envelope|err]; [|apply still_accounted, diagnostic_still].
  match goal with |- context [appendSelectedRunnerPromptEvidence ?n ?c ?s ?x ?p ?l] =>
    pose proof (prompt_evidence_still n c s x p l) as H1; destruct (appendSelectedRunnerPromptEvidence n c s x p l) as [st1 [err|]] end;
    cbn [fst] in H1; [by apply still_accounted|].
  destruct (_ == "blocked").
  { apply still_accounted. eapply still_trans; [exact H1|]. apply diagnostic_still. }
  set (st2 := set_md st1 _).
  match goal with |- context [Handle ?n ?c ?w ?k ?s ?v ?h st2 ?x] =>
    pose proof (Handle_accounted n c w k s v quiet others_send others_post h st2 x) as H2; destruct (Handle n c w k s v h st2 x) as [st3 o] end.
  assert (H3 : accounted name (ev_event_id e) st (set_md st3 (run_md st1))).
  { eapply still_accounted_trans; [exact H1|]. eapply accounted_same; [| |exact H2]; done. }
  destruct o as [[|err]|]; [done| |done]. eapply accounted_still; [exact H3|]. apply diagnostic_still.
Qed.

Notation dispatch := (dispatchSelectedSpeakerAfterGrant name clock wall srv snapshot send visible).

Lemma diagnose_accounted id st a e errorClass reason path extra :
  still name st a -> accounted name id st (appendSelectedSpeakerDispatchDiagnostic name clock a e errorClass reason path extra).1.
Proof. intros H. apply still_accounted. eapply still_trans; [exact H|]. apply diagnostic_still. Qed.

Lemma dispatch_accounted st id : accounted name id st (dispatch st id).1.
Proof.
  assert (H0 : still name st st) by (by apply still_same).
  unfold dispatchSelectedSpeakerAfterGrant. cbv zeta. destruct (read_session _ _) as [ix|]; [|by apply still_accounted].
  destruct (find_first _ _) as [e|] eqn:Hf; [|by apply still_accounted].
  apply List.find_some in Hf as [_ Hid]. apply String.eqb_eq in Hid.
  destruct (ev_type e != "speaker_selected"); [by apply still_accounted|].
  destruct (selectedSpeakerDispatchRecorded _ _); [by apply still_accounted|].
  destruct (selectedSpeakerDispatchStartedWithoutTerminal _ _); [by apply diagnose_accounted|].
  destruct (selectedSpeakerMember e) as [selected|]; [|by apply diagnose_accounted].
  destruct (selected == ""); [by apply diagnose_accounted|]. cbn [read_clock].
  set (st' := if _ && _ then _ else st). assert (H1 : still name st st') by (subst st'; destruct (_ && _); by apply still_same).
  destruct (dispatch_target _ _ _ _ _ _ _ _) as [[member kind]|[[reason path] extra]]; [|by apply diagnose_accounted].
  eapply still_accounted_trans; [exact H1|]. rewrite <- Hid. apply dispatch_prompted_accounted.
Qed.

Lemma read_session_log w ix : read_session w name = Ok ix -> ix_events ix = log_at name (wd_sessions w).
Proof.
  unfold read_session, log_at. destruct (wd_sessions w !! name) as [sd|]; [|done]. intros H. by apply ReadLogIndex_ok in H as (_ & ? & _).
Qed.

(** A selection whose runner was started is not dispatched again. *)
Lemma started_not_dispatched st id x :
  x ∈ log st -> ev_type x = "runner_invocation_started" -> ev_causation_event_id x = id ->
  dp_sent (dispatch st id).1 = dp_sent st /\ dp_posted (dispatch st id).1 = dp_posted st.
Proof.
  intros Hx Ht Hc. unfold dispatchSelectedSpeakerAfterGrant. cbv zeta. destruct (read_session _ _) as [ix|] eqn:Hr; [|done].
  apply read_session_log in Hr. destruct (find_first _ _) as [e|] eqn:Hf; [|done].
  apply List.find_some in Hf as [_ Hid]. apply String.eqb_eq in Hid. destruct (ev_type e != "speaker_selected"); [done|].
  destruct (selectedSpeakerDispatchRecorded _ _); [done|].
  assert (selectedSpeakerDispatchStartedWithoutTerminal (ix_events ix) (ev_event_id e) = true) as ->.
  { apply List.existsb_exists. exists x. unfold run_log in Hx. rewrite Hr. split; [by apply list_elem_of_In|].
    unfold caused_by. by rewrite Hc, Ht, Hid, String.eqb_refl. }
  unfold appendSelectedSpeakerDispatchDiagnostic, append_diagnostic, append_event. cbn [read_clock]. by destruct (AppendEvent _ _ _ _).
Qed.

Lemma dispatch_sent_started st id :
  dp_sent (dispatch st id).1 <> dp_sent st ->
  exists x, x ∈ log (dispatch st id).1 /\ ev_type x = "runner_invocation_started" /\ ev_causation_event_id x = trim_space id.
Proof.
  intros Hne. destruct (dispatch_accounted st id) as (_ & new & Hs & Ha). apply Ha. intros ->. by rewrite app_nil_r in Hs.
Qed.
End dispatch_once.

(** ** What a runner is asked

    The prompt of every request that a dispatch handed over. *)

Definition asked (P : string -> Prop) (st st' : run_state) : Prop :=
  exists new, dp_sent st' = dp_sent st ++ new /\ forall q, q ∈ new -> P (rq_prompt q).

Lemma asked_nothing P st st' : dp_sent st' = dp_sent st -> asked P st st'.
Proof. intros H. exists []. rewrite app_nil_r. split; [done|]. by intros q ?%elem_of_nil. Qed.

Lemma asked_from P Q a b c : dp_sent b = dp_sent a -> (forall p, P p -> Q p) -> asked P b c -> asked Q a c.
Proof. intros Hs HPQ (new & Hn & H). exists new. rewrite <- Hs. split; [done|]. intros q Hq. by apply HPQ, H. Qed.

Lemma asked_then P a b c : asked P a b -> dp_sent c = dp_sent b -> asked P a c.
Proof. intros (new & Hn & H) Hs. exists new. by rewrite Hs. Qed.

Section asked.
Context (name : string) (clock : nat -> time) (wall : time) (srv : server) (snapshot : result reg_error LoadedRegistry)
  (send : sessions -> runner_request -> sessions * (runner_result * option string)) (visible : option visible_sender)
  (quiet : EventEnvelope -> Prop).
Context (others_send : forall ss q, extends name quiet ss (send ss q).1)
  (others_post : forall post ss q, visible = Some post -> extends name quiet ss (post ss q).1).

Lemma Handle_asked kind h st e :
  asked (fun p => promptFor h e = Ok p) st (Handle name clock wall kind send visible h st e).1.
Proof.
  unfold Handle. cbv zeta. destruct (ev_type e != "speaker_selected"); [by apply asked_nothing|].
  destruct (selectedSpeakerMember e) as [selected|]; [|by apply asked_nothing]. destruct (selected == ""); [by apply asked_nothing|].
  destruct (selected != me_id (sh_member h)); [by apply asked_nothing|]. destruct (is_blank _); [by apply asked_nothing|].
  destruct (promptFor h e) as [prompt|text].
  - pose proof (Dispatch_announced name clock (sh_member h) kind send quiet others_send
      (speaker_request name wall visible h e prompt) (others_speaker name wall visible quiet others_post h e prompt)
      (set_md st (dispatch_metadata (run_md st) e))) as H.
    destruct (Dispatch _ _ _ _ _ _ _) as [[st1 out] err]. cbn [fst] in *. destruct H as (_ & new & Hs & _ & Ha).
    exists new. split; [exact Hs|]. intros q Hq. destruct (Ha q Hq) as (x & _ & -> & _). done.
  - unfold appendPromptDiagnostic. match goal with |- context [append_diagnostic ?n ?c ?s ?x ?p] =>
      pose proof (diagnostic_still n c s x p) as [_ H]; destruct (append_diagnostic n c s x p) as [st1 [err|]] end; by apply asked_nothing.
Qed.

(** The prompt is the one of a context that passed. *)
Definition passing_prompt (md : SessionMetadata) (ix : LogIndex) (e : EventEnvelope) (m : Member) (p : string) : Prop :=
  exists en, BuildSelectedRunnerPromptEnvelope md ix e m = Ok en /\ pe_result (en_evidence en) <> "blocked" /\ p = trim_space (en_prompt en).

Lemma dispatch_prompted_asked st ix e member kind :
  asked (passing_prompt (dispatch_metadata (run_md st) e) ix e member) st
    (dispatch_prompted name clock wall srv send visible st ix e member kind).1.
Proof.
  unfold dispatch_prompted, appendSelectedSpeakerDispatchDiagnostic, passing_prompt. cbv zeta.
  pose proof (fun s p => sl_sent _ _ _ (diagnostic_still name clock s e p)) as Hdiag.
  destruct (BuildSelectedRunnerPromptEnvelope _ _ _ _) as [en|err] eqn:Hb; [|by apply asked_nothing].
  match goal with |- context [appendSelectedRunnerPromptEvidence ?n ?c ?s ?x ?p ?l] =>
    pose proof (prompt_evidence_still n c s x p l) as [_ H1]; destruct (appendSelectedRunnerPromptEvidence n c s x p l) as [st1 [err|]] end;
    cbn [fst] in H1; [by apply asked_nothing|].
  destruct (pe_result (en_evidence en) == "blocked") eqn:Hblocked; [apply asked_nothing; by rewrite Hdiag|]. apply String.eqb_neq in Hblocked.
  match goal with |- context [Handle ?n ?c ?w ?k ?s ?v ?h ?st ?x] =>
    pose proof (Handle_asked k h st x) as H2; destruct (Handle n c w k s v h st x) as [st3 o] end. cbn [fst] in H2.
  assert (H3 : asked (fun p => exists en', @Ok error _ en = Ok en' /\ pe_result (en_evidence en') <> "blocked" /\ p = trim_space (en_prompt en')) st (set_md st3 (run_md st1))).
  { eapply (asked_from _ _ st); [|intros p Hp|eapply asked_then; [exact H2|done]]; [exact H1|].
    exists en. split; [done|]. split; [done|]. unfold promptFor in Hp. cbn [sh_prompt_builder] in Hp. cbv zeta in Hp. run_step Hp. by injection Hp as <-. }
  destruct o as [[|err]|]; [exact H3| |exact H3]. eapply asked_then; [exact H3|]. by rewrite Hdiag.
Qed.
End asked.

(** The prompt [p] is that of the selection [id]: built, from the log as it was
    read and with a complete context, for the enabled member of the snapshot that
    was selected. *)
Definition well_prompted (name : string) (snapshot : result reg_error LoadedRegistry) (st : run_state) (id p : string) : Prop :=
  exists ix e loaded selected m en,
    read_session (dp_world st) name = Ok ix /\ e ∈ ix_events ix /\ ev_event_id e = id /\ snapshot = Ok loaded /\
    selectedSpeakerMember e = Ok selected /\ rg_members (ld_registry loaded) !! selected = Some m /\ me_enabled m = true /\
    complete_context (dispatch_metadata (run_md st) e) ix e m /\
    BuildSelectedRunnerPromptEnvelope (dispatch_metadata (run_md st) e) ix e m = Ok en /\ p = trim_space (en_prompt en).

Lemma target_enabled wall srv snapshot st ix e selected now m kind :
  dispatch_target wall srv snapshot st ix e selected now = Ok (m, kind) ->
  exists loaded, snapshot = Ok loaded /\ rg_members (ld_registry loaded) !! selected = Some m /\ me_enabled m = true.
Proof.
  unfold dispatch_target. cbv zeta. destruct (selectedRunnerTimeoutRuntimeEvidence _ _); [done|]. destruct (_ && _); [done|].
  destruct snapshot as [loaded|]; [|done]. destruct (rg_members _ !! selected) as [m'|] eqn:Hm; [|done]. intros H. run_step H.
  destruct (selectedSpeakerAdapter srv); [|done]. injection H as <- _. by exists loaded.
Qed.

(** C29. A runner is asked only with a complete context.  Every request that the
    dispatch of a selection hands over carries the prompt that was built from the
    log for the member that was selected, an enabled member of the session's
    registry snapshot, and the context of that prompt was complete. *)
Theorem asked_with_complete_context name clock wall srv snapshot send visible quiet st id
    (others_send : forall ss q, extends name quiet ss (send ss q).1)
    (others_post : forall post ss q, visible = Some post -> extends name quiet ss (post ss q).1) :
  asked (well_prompted name snapshot st id) st (dispatchSelectedSpeakerAfterGrant name clock wall srv snapshot send visible st id).1.
Proof.
  unfold dispatchSelectedSpeakerAfterGrant. cbv zeta. unfold appendSelectedSpeakerDispatchDiagnostic.
  pose proof (fun s e p => sl_sent _ _ _ (diagnostic_still name clock s e p)) as Hdiag.
  destruct (read_session _ _) as [ix|] eqn:Hr; [|by apply asked_nothing].
  destruct (find_first _ _) as [e|] eqn:Hf; [|by apply asked_nothing]. apply List.find_some in Hf as [Hin Hid]. apply String.eqb_eq in Hid.
  destruct (ev_type e != "speaker_selected"); [by apply asked_nothing|].
  destruct (selectedSpeakerDispatchRecorded _ _); [by apply asked_nothing|].
  destruct (selectedSpeakerDispatchStartedWithoutTerminal _ _); [apply asked_nothing; by rewrite Hdiag|].
  destruct (selectedSpeakerMember e) as [selected|] eqn:Hs; [|apply asked_nothing; by rewrite Hdiag].
  destruct (selected == ""); [apply asked_nothing; by rewrite Hdiag|]. cbn [read_clock].
  set (st' := if _ && _ then _ else st). assert (H1 : dp_sent st' = dp_sent st /\ run_md st' = run_md st) by (subst st'; by destruct (_ && _)).
  destruct H1 as [H1 Hmd]. destruct (dispatch_target _ _ _ _ _ _ _ _) as [[m kind]|[[reason path] extra]] eqn:Ht;
    [|apply asked_nothing; by rewrite Hdiag].
  apply target_enabled in Ht as (loaded & Hsn & Hm & He).
  eapply asked_from; [exact H1| |by eapply dispatch_prompted_asked]. intros p (en & Hb & Hpass & ->).
  exists ix, e, loaded, selected, m, en. rewrite Hmd in Hb. repeat (split; [first [done|by apply list_elem_of_In]|]).
  split; [|done]. by apply (built_complete _ _ _ _ en).
Qed.

(** C26. A selection is dispatched at most once.  If a call of the dispatch for the
    selection [id] handed a request to the runner, whatever failed afterwards,
    then every later call for [id], in any state whose log extends the one that
    call left (a retry of the grant, a restart of the daemon, other settings of
    the server), hands nothing to the runner and posts no message. *)
Theorem selection_dispatched_once name clock wall srv snapshot send visible quiet clock' wall' srv' snapshot' send' visible'
    st st2 id
    (others_send : forall ss q, extends name quiet ss (send ss q).1)
    (others_post : forall post ss q, visible = Some post -> extends name quiet ss (post ss q).1)
    (Hid : trim_space id = id) :
  let dispatch := dispatchSelectedSpeakerAfterGrant name clock wall srv snapshot send visible in
  let dispatch' := dispatchSelectedSpeakerAfterGrant name clock' wall' srv' snapshot' send' visible' in
  let st1 := (dispatch st id).1 in
  dp_sent st1 <> dp_sent st ->
  extends name any_event (wd_sessions (dp_world st1)) (wd_sessions (dp_world st2)) ->
  dp_sent (dispatch' st2 id).1 = dp_sent st2 /\ dp_posted (dispatch' st2 id).1 = dp_posted st2.
Proof.
  cbv zeta. intros Hsent (l & Hl & _).
  eapply dispatch_sent_started in Hsent as (x & Hx & Ht & Hc); [|done..]. rewrite Hid in Hc.
  eapply started_not_dispatched; [|done..]. unfold run_log in *. rewrite Hl. by apply elem_of_app; left.
Qed.
