(* ===== verification/SpeakerPass.v ===== *)
(** * A dispatched selection is proved

    The composition of runner dispatch, the council's own speech and the
    accounting: what a dispatch appends belongs to its selection, and when it ends
    with a speech that evidence is complete. *)

From S2P Require Import Prelude GoValue GoTime Model Ids Sha256 Evidence Events EventLog LogSpec Command Delegation Stream Registry MemberRuntime Closeout Lifecycle ArgumentGraph Council CouncilTheory SelectedRunner SelectedRunnerTheory Readiness ReadinessTimeouts PromptEvidence PromptBuilder PromptTheory RunnerDispatch RunnerDispatchTheory SpeakerDispatch GrantDispatch SpeakerTheory Fixtures.

(** ** Invocation ids *)

Lemma invocation_plain source k t : let inv := invocationIDFor source k t in trim_space inv = inv /\ inv <> "".
Proof.
  cbv zeta. unfold invocationIDFor. split; [|done]. apply trim_space_id. rewrite all_chars_app.
  by rewrite (all_chars_substring _ _ _ _ (sha256_hex_chars _)).
Qed.

(** ** Who owns what *)

Section ownership.
Context (e : EventEnvelope) (ours : string -> Prop).
Let id := ev_event_id e.

(** An event of others: it is not about the selection. *)
Record unrelated (y : EventEnvelope) : Prop := mk_unrelated {
  un_invocation : ~ ours (runner_invocation y);
  un_cause : ev_causation_event_id y <> id;
  un_names : forall key, key ∈ grant_keys -> payloadStringDefault (pl y) key "" <> id }.

(** The events [own] belong to the selection, and so do its invocations [bound]. *)
Record holds (l own : list EventEnvelope) (bound : list string) : Prop := mk_holds {
  hd_own : owned l id = own;
  hd_bound : forall inv, inv ∈ bound -> ow_bound (foldl own_step nobody l) !! inv = Some id;
  hd_only : forall inv, ow_bound (foldl own_step nobody l) !! inv = Some id -> inv <> "" /\ ours inv;
  hd_ours : forall inv j, ours inv -> ow_bound (foldl own_step nobody l) !! inv = Some j -> j = id }.

Lemma named_grant_value p (g : gmap string nat) keys n :
  named_grant p g keys = Some n -> exists key, key ∈ keys /\ payloadStringDefault p key "" = n.
Proof.
  induction keys as [|k keys IH]; [done|]. cbn. destruct (_ && _).
  - intros [= <-]. exists k. split; [by left|done].
  - intros H. destruct (IH H) as (key & ? & ?). exists key. split; [by right|done].
Qed.

Lemma unrelated_owner o y :
  id <> "" -> unrelated y -> (forall inv, ow_bound o !! inv = Some id -> inv <> "" /\ ours inv) -> owner o y <> id.
Proof.
  intros Hid [Hi Hc Hn] Hb. unfold owner, matchingSelectedGrant. cbv zeta.
  destruct (negb _) eqn:Hbound.
  - intros H. destruct (runner_invocation y == ""); [done|]. destruct (ow_bound o !! runner_invocation y) as [j|] eqn:E; cbn in H; [|done].
    subst j. by apply Hb in E as [_ ?].
  - destruct (named_grant _ _ _) as [n|] eqn:E.
    + apply named_grant_value in E as (key & Hk & <-). by apply Hn.
    + destruct (_ && _); [done|]. intros H. by symmetry in H.
Qed.

Lemma owned_snoc l y : owned (l ++ [y]) id = default [] (ow_events (own_step (foldl own_step nobody l) y) !! id).
Proof. unfold owned. by rewrite foldl_snoc. Qed.

Lemma holds_unrelated l y own bound :
  id <> "" -> unrelated y -> holds l own bound -> holds (l ++ [y]) own bound.
Proof.
  intros Hid Hy [Ho Hb Hon Hou]. pose proof (unrelated_owner (foldl own_step nobody l) y Hid Hy Hon) as Hne.
  split; rewrite ?owned_snoc, ?foldl_snoc; unfold own_step; cbv zeta;
    destruct (ev_type y == "speaker_selected"); cbn [ow_bound ow_events]; try done;
    destruct (ow_known _ !! _) as [s|]; cbn [ow_bound ow_events]; try done.
  - by rewrite lookup_insert_ne.
  - intros inv Hinv. case_decide; [|by apply Hb]. unfold bind_invocation. destruct (_ == ""); [by apply Hb|].
    rewrite lookup_insert_ne; [by apply Hb|]. intros <-. destruct (Hon _ (Hb _ Hinv)) as [_ ?]. by destruct Hy.
  - intros inv. case_decide; [|by apply Hon]. unfold bind_invocation. destruct (_ == ""); [by apply Hon|].
    rewrite lookup_insert_Some. intros [[_ ?]|[_ ?]]; [done|by apply Hon].
  - intros inv j Hinv. case_decide; [|by apply Hou]. unfold bind_invocation. destruct (_ == ""); [by apply Hou|].
    rewrite lookup_insert_Some. intros [[<- _]|[_ ?]]; [by destruct Hy|by eapply Hou].
Qed.

Lemma holds_noise l noise own bound :
  id <> "" -> Forall unrelated noise -> holds l own bound -> holds (l ++ noise) own bound.
Proof.
  intros Hid Hn. revert l. induction Hn as [|y noise Hy _ IH]; intros l H; [by rewrite app_nil_r|].
  replace (l ++ y :: noise) with ((l ++ [y]) ++ noise) by (by rewrite <- app_assoc). apply IH. by apply holds_unrelated.
Qed.

Lemma holds_start : holds [] [] [].
Proof. split; [done|by intros inv ?%elem_of_nil|intros inv; cbn; by rewrite lookup_empty|intros inv j _; cbn; by rewrite lookup_empty]. Qed.

(** The selection is known. *)
Lemma known_selection l : plain_ids l -> e ∈ selections l -> ow_known (foldl own_step nobody l) !! id = Some e.
Proof. intros Hp He. apply (rp_known _ _ _ (scan_replays ∅ l Hp)). done. Qed.

Lemma own_step_owned o x s :
  ev_type x <> "speaker_selected" -> owner o x = id -> ow_known o !! id = Some s ->
  own_step o x = mk_ownership (ow_known o)
    (if decide (starts s x) then bind_invocation (ow_bound o) (runner_invocation x) id else ow_bound o)
    (<[id := default [] (ow_events o !! id) ++ [x]]> (ow_events o)).
Proof. intros Ht%String.eqb_neq Ho Hk. unfold own_step. cbv zeta. by rewrite Ht, Ho, Hk. Qed.

(** An event of the selection that starts nothing. *)
Lemma holds_bound l x own bound :
  plain_ids l -> e ∈ selections l -> id <> "" ->
  ev_type x <> "speaker_selected" -> ev_type x <> "runner_invocation_started" -> runner_invocation x ∈ bound ->
  holds l own bound -> holds (l ++ [x]) (own ++ [x]) bound.
Proof.
  intros Hp He Hid Ht Hst Hx [Ho Hb Hon Hou]. pose proof (known_selection l Hp He) as Hk. pose proof (Hb _ Hx) as Hbx.
  assert (Howner : owner (foldl own_step nobody l) x = id).
  { unfold owner, matchingSelectedGrant. cbv zeta. destruct (Hon _ Hbx) as [Hne _]. destruct (String.eqb_spec (runner_invocation x) ""); [done|].
    rewrite Hbx. cbn. by destruct (String.eqb_spec id ""). }
  assert (Hs : ~ starts e x) by (by intros [? _]). pose proof (own_step_owned _ _ _ Ht Howner Hk) as Hstep.
  rewrite decide_False in Hstep by done.
  split; rewrite ?owned_snoc, ?foldl_snoc, Hstep; cbn [ow_bound ow_events]; try done.
  rewrite lookup_insert_eq. cbn. unfold owned in Ho. by rewrite Ho.
Qed.

(** A start of the selection's runner. *)
Lemma holds_started l x r own bound :
  plain_ids l -> e ∈ selections l -> id <> "" ->
  ev_type x = "runner_invocation_started" -> ev_runner x = Some r -> of_member e r -> ours (rn_invocation_id r) ->
  rn_invocation_id r <> "" -> ev_causation_event_id x = id ->
  (forall key, key ∈ grant_keys -> payloadStringDefault (pl x) key "" = "") ->
  holds l own bound -> holds (l ++ [x]) (own ++ [x]) (rn_invocation_id r :: bound).
Proof.
  intros Hp He Hid Ht Hr Hm Hours Hinv Hc Hn [Ho Hb Hon Hou]. pose proof (known_selection l Hp He) as Hk.
  assert (Hri : runner_invocation x = rn_invocation_id r) by (unfold runner_invocation; by rewrite Hr).
  assert (Howner : owner (foldl own_step nobody l) x = id).
  { unfold owner, matchingSelectedGrant. cbv zeta. rewrite Hri. destruct (String.eqb_spec (rn_invocation_id r) ""); [done|].
    destruct (ow_bound _ !! rn_invocation_id r) as [j|] eqn:E; cbn [from_option].
    - pose proof (Hou _ _ Hours E) as ->. cbn [Datatypes.id]. by destruct (String.eqb_spec id "").
    - cbn [Datatypes.id]. change (negb ("" == "")) with false. cbv iota. destruct (named_grant _ _ _) as [m|] eqn:En.
      { destruct (named_grant_known _ _ _ _ En) as [Hm0 _]. apply named_grant_value in En as (key & Hkey & <-). by rewrite Hn in Hm0. }
      rewrite Hc. destruct (String.eqb_spec id ""); [done|]. rewrite bool_decide_eq_true_2; [done|].
      rewrite lookup_fmap, Hk. by eexists. }
  assert (Hs : starts e x) by (split; [done|]; by exists r).
  assert (Ht' : ev_type x <> "speaker_selected") by (by rewrite Ht). pose proof (own_step_owned _ _ _ Ht' Howner Hk) as Hstep.
  rewrite decide_True in Hstep by done. rewrite Hri in Hstep. unfold bind_invocation in Hstep.
  destruct (String.eqb_spec (rn_invocation_id r) ""); [done|].
  split; rewrite ?owned_snoc, ?foldl_snoc, Hstep; cbn [ow_bound ow_events].
  - rewrite lookup_insert_eq. cbn. unfold owned in Ho. by rewrite Ho.
  - intros inv [->|Hi]%elem_of_cons; [by rewrite lookup_insert_eq|]. rewrite lookup_insert_Some. destruct (decide (rn_invocation_id r = inv)); auto.
  - intros inv. rewrite lookup_insert_Some. intros [[<- _]|[_ ?]]; [done|by apply Hon].
  - intros inv j Hi. rewrite lookup_insert_Some. intros [[_ <-]|[_ ?]]; [done|by eapply Hou].
Qed.
End ownership.

(** ** The events of a dispatch belong to its selection *)

Lemma recorded_payload e x : ev_type e <> "speech" -> recorded e x -> pl x = json_norm <$> pl e.
Proof.
  intros Ht (md & ix & ->). unfold appended. rewrite pl_norm. f_equal.
  rewrite prepare_non_speech by done. unfold finish_event. by destruct (_ == "").
Qed.

Lemma no_grant_keys (p : payload) key :
  key ∈ grant_keys -> Forall (fun k => p !! k = None) grant_keys -> payloadStringDefault (json_norm <$> p) key "" = "".
Proof.
  intros Hk H. rewrite Forall_forall in H. unfold payloadStringDefault. by rewrite lookup_fmap, (H key Hk).
Qed.

Section dispatched.
Context (e : EventEnvelope) (clock : nat -> time) (member : Member) (req : RunnerDispatchRequest) (md0 : SessionMetadata)
  (source : string).
Let id := ev_event_id e.

(** The invocations of this dispatch. *)
Definition dispatch_invocation (inv : string) : Prop := exists k i, inv = invocationIDFor source k (clock i).

Notation others := (unrelated e dispatch_invocation).

Context (Hid : id <> "") (Hcause : trim_space (dq_causation req) = id) (Hmember : selectedRunnerMember e = me_id member).

Lemma retry_unrelated k l : retry_notice member req k l -> Forall others l.
Proof.
  unfold retry_notice. destruct (1 <? k); [|by intros ->]. intros (x0 & x & prior & -> & Hx & Ht & Hc & Hr & Hp). constructor; [|done].
  pose proof (recorded_fields _ _ Hx) as (_ & Hc' & Hr' & _). split.
  - unfold runner_invocation. rewrite Hr', Hr. intros (j & i & Hi). by destruct (invocation_plain source j (clock i)).
  - rewrite Hc', Hc. by intros H.
  - intros key Hkey. rewrite (recorded_payload x0) by (rewrite ?Ht; done). unfold pl at 1. rewrite Hp. cbn [from_option].
    rewrite no_grant_keys; [done|done|]. unfold retryPayload. destruct prior; repeat constructor.
Qed.

Definition is_start (y : EventEnvelope) : Prop :=
  ev_type y = "runner_invocation_started" /\ exists r, ev_runner y = Some r /\ rn_member r = me_id member.

Lemma opening_holds l0 own bound inv k start :
  plain_ids (l0 ++ start) -> e ∈ selections l0 -> holds e dispatch_invocation l0 own bound ->
  opening clock member req inv source k start ->
  exists y bound', holds e dispatch_invocation (l0 ++ start) (own ++ [y]) bound' /\ inv ∈ bound' /\ bound ⊆ bound' /\
    is_start y /\ runner_invocation y = inv /\ inv <> "" /\ trim_space inv = inv.
Proof.
  intros Hp He H ((i & Hinv) & notice & x0 & x & md & -> & Hn & Hx & Hab & Hpl).
  pose proof (invocation_plain source k (clock i)) as [Htrim Hne]. rewrite <- Hinv in Htrim, Hne.
  pose proof (recorded_fields _ _ Hx) as (Ht & Hc & Hr & _). rewrite (ab_type _ _ _ _ _ _ _ _ Hab) in Ht.
  rewrite (ab_cause _ _ _ _ _ _ _ _ Hab), Hcause in Hc. rewrite (ab_runner _ _ _ _ _ _ _ _ Hab) in Hr.
  rewrite app_assoc in *. set (l1 := l0 ++ notice) in *.
  assert (Hl1 : holds e dispatch_invocation l1 own bound) by (apply holds_noise; [done|by eapply retry_unrelated|done]).
  assert (Hp1 : plain_ids l1) by (by apply plain_snoc in Hp as [? _]).
  exists x. eexists. split.
  - eapply (holds_started e dispatch_invocation l1 x); try exact Hl1; try exact Hr; try done.
    + unfold l1, selections. rewrite List.filter_app. apply elem_of_app. by left.
    + right. done.
    + exists k, i. done.
    + intros key Hkey. rewrite (recorded_payload x0) by (rewrite ?(ab_type _ _ _ _ _ _ _ _ Hab); done).
      unfold pl. rewrite Hpl. cbn [from_option]. apply no_grant_keys; [done|]. repeat constructor.
  - cbn. split; [by left|]. split; [by right|]. split; [split; [done|]; by eexists|]. unfold runner_invocation. by rewrite Hr.
Qed.
Lemma plain_prefix (l1 l2 : list EventEnvelope) : plain_ids (l1 ++ l2) -> plain_ids l1.
Proof. intros [Hn Hf]. rewrite map_app in Hn. apply NoDup_app in Hn as (Hn & _ & _). apply Forall_app in Hf as [Hf _]. by split. Qed.

Lemma selected_app l1 l2 : e ∈ selections l1 -> e ∈ selections (l1 ++ l2).
Proof. intros H. unfold selections. rewrite List.filter_app. apply elem_of_app. by left. Qed.

Lemma ending_runner inv k l typ y : ending member req md0 inv source k l typ -> y ∈ l -> runner_invocation y = inv.
Proof.
  intros H Hy. destruct H as [r x0 x Hbad Hab Hx|r s xs x0 x Hok Hd Hab Hxs Hterm Hx].
  - apply list_elem_of_singleton in Hy as ->. pose proof (recorded_fields _ _ Hx) as (_ & _ & Hr & _).
    unfold runner_invocation. by rewrite Hr, (ab_runner _ _ _ _ _ _ _ _ Hab).
  - apply elem_of_cons in Hy as [->| ->%list_elem_of_singleton].
    + pose proof (recorded_fields _ _ Hxs) as (_ & _ & Hr & _). unfold runner_invocation. by rewrite Hr, (ab_runner _ _ _ _ _ _ _ _ Hab).
    + pose proof (recorded_fields _ _ Hx) as (_ & _ & Hr & _). destruct Hterm as (typ & b & _ & Hb & Hv).
      unfold runner_invocation. rewrite Hr. destruct (dq_validator req).
      * destruct Hv as (w & ss & posted & e' & _ & _ & ->). cbn. by rewrite (ab_runner _ _ _ _ _ _ _ _ Hb).
      * subst x0. cbn. by rewrite (ab_runner _ _ _ _ _ _ _ _ Hb).
Qed.

Definition closes (typ : string) : Prop := typ <> "speaker_selected" /\ typ <> "runner_invocation_started".

Lemma ending_types inv k l typ y : closes typ -> ending member req md0 inv source k l typ -> y ∈ l -> closes (ev_type y).
Proof.
  intros Hc H Hy. destruct H as [r x0 x _ _ _|r s xs x0 x _ _ Hab Hxs _ _].
  - by apply list_elem_of_singleton in Hy as ->.
  - apply elem_of_cons in Hy as [->| ->%list_elem_of_singleton]; [|done]. pose proof (recorded_fields _ _ Hxs) as (Ht & _).
    rewrite (ab_type _ _ _ _ _ _ _ _ Hab) in Ht. by split; rewrite Ht.
Qed.

Lemma closing_holds l0 own bound inv l :
  plain_ids (l0 ++ l) -> e ∈ selections l0 -> inv ∈ bound -> holds e dispatch_invocation l0 own bound ->
  (forall y, y ∈ l -> runner_invocation y = inv /\ closes (ev_type y)) -> holds e dispatch_invocation (l0 ++ l) (own ++ l) bound.
Proof.
  intros Hp He Hinv H. revert l0 own Hp He H. induction l as [|y l IH]; intros l0 own Hp He H Hall; [by rewrite !app_nil_r|].
  replace (l0 ++ y :: l) with ((l0 ++ [y]) ++ l) in * by (by rewrite <- app_assoc).
  replace (own ++ y :: l) with ((own ++ [y]) ++ l) by (by rewrite <- app_assoc).
  destruct (Hall y (list_elem_of_here _ _)) as [Hy [Hs Hst]]. apply IH; [done|by apply selected_app| |].
  - eapply holds_bound; try done; [|by rewrite Hy]. apply plain_prefix in Hp. by apply plain_prefix in Hp.
  - intros z Hz. apply Hall. by right.
Qed.

(** What belongs to the selection after its dispatch: the starts of the attempts
    and the end of the last one. *)
Lemma attempts_hold k l ids typ l0 own bound :
  closes typ -> attempts clock member others req md0 source k l ids typ ->
  plain_ids (l0 ++ l) -> e ∈ selections l0 -> holds e dispatch_invocation l0 own bound ->
  exists starts_ closing inv j, owned (l0 ++ l) id = own ++ starts_ ++ closing /\ ending member req md0 inv source j closing typ /\
    Forall is_start starts_ /\ (exists y, y ∈ starts_ /\ runner_invocation y = inv) /\ inv <> "" /\ trim_space inv = inv /\
    exists before, l0 ++ l = before ++ closing.
Proof.
  intros Hc H. revert l0 own bound. induction H as [k start noise closing inv typ Hop Hn Hend|k start noise rest inv ids typ Hop Hn H IH];
    intros l0 own bound Hp He Hh.
  - rewrite !app_assoc in *.
    destruct (opening_holds l0 own bound inv k start) as (y & bound' & Hh1 & Hb & _ & Hy & Hyi & Hne & Htr); try done.
    { apply plain_prefix in Hp. by apply plain_prefix in Hp. }
    pose proof (holds_noise _ _ _ _ _ _ Hid Hn Hh1) as Hh2.
    pose proof (closing_holds _ _ _ inv closing Hp ltac:(by repeat apply selected_app) Hb Hh2) as Hh3.
    exists [y], closing, inv, k. split; [|split; [done|]].
    + rewrite app_assoc. apply Hh3. intros z Hz. split; [by eapply ending_runner|by eapply ending_types].
    + split; [by constructor|]. split; [exists y; set_solver|]. split; [done|]. split; [done|]. by eexists.
  - rewrite !app_assoc in *.
    destruct (opening_holds l0 own bound inv k start) as (y & bound' & Hh1 & Hb & _ & Hy & Hyi & Hne & Htr); try done.
    { apply plain_prefix in Hp. by apply plain_prefix in Hp. }
    pose proof (holds_noise _ _ _ _ _ _ Hid Hn Hh1) as Hh2.
    destruct (IH Hc _ _ _ Hp ltac:(by repeat apply selected_app) Hh2) as (sts & closing & inv' & j & Ho & Hend & Hst & (z & Hz & Hzi) & Hne' & Htr' & Hb').
    exists (y :: sts), closing, inv', j. rewrite Ho, <- app_assoc. split; [done|]. split; [done|]. split; [by constructor|].
    split; [exists z; split; [by right|done]|]. done.
Qed.
End dispatched.

(** ** What the validator makes of an answer *)

Lemma norm_texts (m : payload) : map_Forall (fun _ v => exists s, v = AStr s) m -> json_norm <$> m = m.
Proof.
  intros H. apply map_eq. intros k. rewrite lookup_fmap. destruct (m !! k) as [v|] eqn:E; [|done].
  by destruct (H k v E) as [s ->].
Qed.

Definition delivered (member : string) (s : Surface) (message id : string) : payload :=
  {[ "status" := AStr "posted"; "kind" := AStr "discord_thread"; "platform" := AStr "discord";
     "channel_id" := AStr (trim_space (su_channel_id s)); "thread_id" := AStr (trim_space (su_thread_id s));
     "message_id" := AStr (trim_space message); "posting_path" := AStr "selected_member_profile_send";
     "sender_member" := AStr (trim_space member); "references_event_id" := AStr (trim_space id);
     "speech_event_id" := AStr (trim_space id) ]}.

Lemma evidence_delivered member s id r ev :
  selectedRunnerVisibleDeliveryEvidence member s id r = Ok ev ->
  ev = delivered member s (vr_message_id r) id /\ is_blank (vr_message_id r) = false.
Proof. unfold selectedRunnerVisibleDeliveryEvidence. intros H. run_inv H. by subst ev. Qed.

Lemma delivered_texts member s message id : map_Forall (fun _ v => exists t, v = AStr t) (delivered member s message id).
Proof. unfold delivered. repeat (apply map_Forall_insert_2; [by eexists|]). apply map_Forall_empty. Qed.

Lemma pointer_in p key keys t :
  key ∈ keys -> p !! key = Some (AStr t) -> is_blank t = false -> hasAnyEvidencePointer p keys = true.
Proof.
  intros Hk Hp Ht. apply List.existsb_exists. exists key. split; [by apply list_elem_of_In|]. rewrite Hp. cbn. unfold nonblank. rewrite Ht.
  by destruct (key == "evidence").
Qed.

Lemma must_repeat_same expected absent differs : must_repeat expected (trim_space expected) absent differs = None.
Proof. unfold must_repeat. destruct (trim_space expected == "") eqn:E; [done|]. by rewrite String.eqb_refl. Qed.

Lemma blank_trim t : is_blank (trim_space t) = is_blank t.
Proof. unfold is_blank. by rewrite trim_space_idemp. Qed.

(** The evidence that the daemon puts into a speech passes the checks of the
    accounting. *)
Lemma delivered_proved s member x message target :
  selectedRunnerVisibleDeliveryTarget s = Ok target -> is_blank message = false -> trim_space member = member ->
  trim_space (ev_event_id x) = ev_event_id x ->
  pl x !! "surface_evidence" = Some (AMap (delivered member s message (ev_event_id x))) -> delivery_problem s member x = None.
Proof.
  unfold selectedRunnerVisibleDeliveryTarget. intros Ht Hm Hmem Hid Hpl. run_inv Ht. bool_prop.
  unfold delivery_problem, evidence_keys. cbn [anyMap]. rewrite Hpl. cbv zeta.
  set (ev := delivered member s message (ev_event_id x)).
  assert (Htext : forall key v, ev !! key = Some (AStr v) -> text_of ev key = trim_space v) by (intros; by apply text_of_str).
  assert (Hstatus : deliveryEvidenceStatus ev = "posted").
  { unfold deliveryEvidenceStatus. rewrite bool_decide_eq_false_2 by done. change (trim_space (map_string ev "status")) with "posted". cbv zeta.
    rewrite (pointer_in ev "message_id" posted_pointers (trim_space message)); [done|set_solver|done|by rewrite blank_trim]. }
  assert (Hlinks : selectedRunnerDeliveryLinksSpeech ev (ev_event_id x) = true).
  { unfold selectedRunnerDeliveryLinksSpeech. cbn [existsb]. rewrite (Htext "references_event_id" _ eq_refl), trim_space_idemp, Hid.
    by rewrite String.eqb_refl. }
  rewrite Hstatus, Hlinks, (Htext "kind" _ eq_refl), (Htext "platform" _ eq_refl), (Htext "channel_id" _ eq_refl),
    (Htext "message_id" _ eq_refl), (Htext "posting_path" _ eq_refl), (Htext "sender_member" _ eq_refl), (Htext "thread_id" _ eq_refl).
  assert (Hplat : forall a d, must_repeat (su_platform s) (trim_space "discord") a d = None).
  { intros a d. change (trim_space "discord") with "discord". rewrite <- Hguard0. apply must_repeat_same. }
  rewrite Hplat, !trim_space_idemp, !must_repeat_same, Hmem, !String.eqb_refl.
  change (trim_space message == "") with (is_blank message). by rewrite Hm.
Qed.

Lemma speak_from clock md ix spec p m :
  cn_action spec = "speak" -> is_blank (cn_actor spec) = false ->
  councilTransition (council_call clock md ix spec) p = Ok m -> cm_from m = trim_space (cn_actor spec).
Proof.
  intros Ha Hb H. unfold councilTransition in H. run_step H. unfold council_call in H at 1. cbn [ca_action] in H. rewrite Ha in H.
  change (act_speak (council_call clock md ix spec) p = Ok m) in H. unfold act_speak in H. run_inv H. subst m. cbn. by rewrite Hb.
Qed.

Section validated.
Context (name : string) (wall : time) (visible : option visible_sender) (h : SelectedSpeakerDispatchHandler).

Lemma bind_keeps (m p : payload) id :
  p !! "surface_evidence" = Some (AMap m) -> is_Some (m !! "references_event_id") -> is_Some (m !! "speech_event_id") ->
  bindSelectedRunnerSurfaceEvidence p id !! "surface_evidence" = Some (AMap m).
Proof.
  intros Hp [a Ha] [b Hb]. unfold bindSelectedRunnerSurfaceEvidence. destruct (is_blank id); [done|]. cbn [bind_evidence evidence_keys].
  rewrite Hp. unfold default_entry. by rewrite Ha, Hb, lookup_insert_eq.
Qed.

(** A message was posted for the speech [id], and the payload proves it. *)
Definition proves_delivery (md : SessionMetadata) (id : string) (p : payload) : Prop :=
  selectedRunnerRequiresVisibleDiscordDelivery md = true -> exists target message,
    selectedRunnerVisibleDeliveryTarget (default no_surface (md_surface md)) = Ok target /\ is_blank message = false /\
    p !! "surface_evidence" = Some (AMap (delivered (me_id (sh_member h)) (default no_surface (md_surface md)) message id)).

Lemma delivery_bound w p id ss posted p1 :
  bindSelectedMemberVisibleDelivery visible h w p id = (ss, posted, Ok p1) -> proves_delivery (wd_md w) id p1.
Proof.
  unfold bindSelectedMemberVisibleDelivery, proves_delivery. cbv zeta. intros H Hreq. rewrite Hreq in H. cbn [negb] in H.
  destruct (_ == ""); [done|]. destruct visible as [post|]; [|done].
  destruct (selectedRunnerVisibleDeliveryTarget _) as [target|] eqn:Ht; [|done].
  destruct (post _ _) as [ss1 [r [err|]]]; [done|]. destruct (selectedRunnerVisibleDeliveryEvidence _ _ _ _) as [ev|] eqn:He; [|done].
  injection H as _ _ <-. apply evidence_delivered in He as [-> Hm]. exists target, (vr_message_id r). by rewrite lookup_insert_eq.
Qed.

Lemma bound_evidence md id p : proves_delivery md id p -> proves_delivery md id (bindSelectedRunnerSurfaceEvidence p id).
Proof.
  intros H Hreq. destruct (H Hreq) as (target & message & Ht & Hm & Hp). exists target, message. split; [done|]. split; [done|].
  apply bind_keeps; [done|by eexists|by eexists].
Qed.

Lemma validated_speech w b ss posted e' :
  validateCanonicalSpeechTerminal name wall visible h w b = (ss, posted, Ok e') -> is_blank (me_id (sh_member h)) = false ->
  ev_type e' = ev_type b /\ ev_event_id e' = ev_event_id b /\ ev_causation_event_id e' = ev_causation_event_id b /\
  ev_from e' = trim_space (me_id (sh_member h)) /\ exists p, ev_payload e' = Some p /\ proves_delivery (wd_md w) (ev_event_id b) p.
Proof.
  unfold validateCanonicalSpeechTerminal. intros H Hb. destruct (ev_payload b) as [p0|]; [|done].
  destruct (BuildCouncilEvent _ _ _ _) as [canonical|] eqn:Hc; [|done].
  destruct (bindSelectedMemberVisibleDelivery _ _ _ _ _) as [[ss1 posted1] [p1|]] eqn:Hd; [|done]. injection H as _ _ <-. cbn.
  repeat split; [|eexists; split; [done|]; eapply bound_evidence, delivery_bound; exact Hd].
  unfold BuildCouncilEvent in Hc. run_step Hc. destruct (wd_sessions w !! name) as [sd|]; [|done]. run_step Hc.
  apply buildCouncilEvent_ok in Hc as (m & Hm & ->).
  match goal with |- ev_from (prepareEventForAppend ?md ?ix ?x) = _ => pose proof (prepare_fields md ix x) as Hf end.
  cbv zeta in Hf. destruct_and!. etransitivity; [eassumption|]. cbn.
  by apply speak_from in Hm.
Qed.
End validated.

(** ** The evidence is complete *)

(** A runner event of the invocation [inv] that succeeded. *)
Definition succeeded_run (member : Member) (inv : string) (y : EventEnvelope) : Prop :=
  exists r, ev_runner y = Some r /\ rn_invocation_id r = inv /\ rn_member r = me_id member /\ rn_status r = "succeeded".

Lemma not_a_speech e b y : ev_type y <> "speech" -> ~ links e b y.
Proof. by intros H [? _]. Qed.

Lemma spoken_evidence md e member sts xs x inv :
  selectedRunnerMember e = me_id member -> me_id member <> "" -> 0 < grant_turn e -> inv <> "" -> trim_space inv = inv ->
  Forall (is_start member) sts -> (exists y, y ∈ sts /\ runner_invocation y = inv) ->
  ev_type xs = "runner_invocation_succeeded" -> succeeded_run member inv xs ->
  ev_type x = "speech" -> succeeded_run member inv x -> ev_from x = me_id member -> ev_causation_event_id x = ev_event_id e ->
  selectedRunnerSpeechTurn x = grant_turn e ->
  (requiresSelectedRunnerDeliveryProof md = true -> delivery_problem (default no_surface (md_surface md)) (me_id member) x = None) ->
  runner_evidence md e (sts ++ [xs; x]).
Proof.
  intros Hm Hmne Hturn Hinv Htrim Hst (y & Hy & Hyi) Hxs (rs & Hrs & Hrsi & Hrsm & Hrss) Hx (r & Hr & Hri & Hrm & Hrst) Hfrom Hc Ht Hd.
  rewrite Forall_forall in Hst.
  assert (Hstarts : forall z, z ∈ sts -> starts e z).
  { intros z Hz. destruct (Hst z Hz) as (Hty & rz & Hrz & Hrzm). split; [done|]. exists rz. split; [done|]. right. by rewrite Hm. }
  split; [done| | | |].
  - intros z [Hz|[->| ->%list_elem_of_singleton]%elem_of_cons]%elem_of_app [Hf|[Hf|Hf]]; try (by rewrite Hxs in Hf); try (by rewrite Hx in Hf);
      by destruct (Hst z Hz) as [Hz' _]; rewrite Hz' in Hf.
  - exists y. split; [set_solver|by apply Hstarts].
  - exists xs. split; [set_solver|]. split; [done|]. exists rs. repeat split; try done; [right; by rewrite Hm|by rewrite Hrsi].
  - exists (sts ++ [xs]), x, []. split; [by rewrite <- app_assoc|]. split; [|split].
    + split; [done|]. exists r. rewrite Hm. do 7 (split; [done|]). rewrite Hri. split; [done|]. split.
      * exists y. split; [set_solver|]. split; [left; by apply Hstarts|]. by rewrite Hyi.
      * unfold selectedGrantForSpeech. destruct (named_grant _ _ _) as [n|] eqn:En.
        { apply named_grant_known in En as [_ [i Hi]]. by apply lookup_singleton_Some in Hi as [? _]. }
        rewrite Hc, bool_decide_eq_true_2; [done|]. by rewrite lookup_singleton_eq.
    + intros b1 z b2 Heq. apply not_a_speech.
      assert (Hz : z ∈ sts ++ [xs]) by (rewrite Heq; set_solver).
      apply elem_of_app in Hz as [Hz| ->%list_elem_of_singleton]; [|by rewrite Hxs]. destruct (Hst z Hz) as [Hz' _]. by rewrite Hz'.
    + by rewrite Hm.
Qed.

(** *** The end of a dispatch to the selected speaker *)

Lemma recorded_entry e x key : recorded e x -> key <> runtime_key -> pl x !! key = json_norm <$> (pl e !! key).
Proof.
  intros (md & ix & ->) Hk. unfold appended. rewrite pl_norm, lookup_fmap. f_equal. unfold finish_event, prepareEventForAppend,
    attachPersistentParticipantRuntimeEvidence, pl. destruct (ev_payload e) as [p|] eqn:Hp; [destruct (_ == "speech")|]; destruct (_ == ""); cbn;
    rewrite ?Hp; cbn; rewrite ?lookup_insert_ne by (unfold runtime_key in Hk; congruence); done.
Qed.

Section handled.
Context (name : string) (clock : nat -> time) (wall : time) (adapter_kind : option string)
  (send : sessions -> runner_request -> sessions * (runner_result * option string)) (visible : option visible_sender)
  (h : SelectedSpeakerDispatchHandler) (e : EventEnvelope).
Let id := ev_event_id e.
Let source := trim_space (ev_command_id e).

Notation ours := (dispatch_invocation clock source).
Notation others := (unrelated e ours).
Notation log := (run_log name).

Context (others_send : forall ss q, extends name others ss (send ss q).1)
  (others_post : forall post ss q, visible = Some post -> extends name others ss (post ss q).1).
Context (Hm : selectedRunnerMember e = me_id (sh_member h)) (Hs : selectedSpeakerMember e = Ok (me_id (sh_member h)))
  (Hturn : 0 < grant_turn e).

Lemma member_trimmed : trim_space (me_id (sh_member h)) = me_id (sh_member h).
Proof. rewrite <- Hm. unfold selectedRunnerMember. by rewrite trim_space_idemp. Qed.

Lemma ending_spoken prompt md inv k closing md0 :
  same_session md md0 -> me_id (sh_member h) <> "" -> trim_space id = id ->
  ending (sh_member h) (speaker_request name wall visible h e prompt) md0 inv source k closing "speech" ->
  exists xs x, closing = [xs; x] /\ ev_type xs = "runner_invocation_succeeded" /\ ev_type x = "speech" /\
    ev_from x = me_id (sh_member h) /\ ev_causation_event_id x = id /\
    (exists r, ev_runner x = Some r) /\
    (forall r, ev_runner x = Some r -> rn_status r = "succeeded" -> succeeded_run (sh_member h) inv xs /\ succeeded_run (sh_member h) inv x) /\
    (trim_space (ev_event_id x) = ev_event_id x -> requiresSelectedRunnerDeliveryProof md = true ->
     delivery_problem (default no_surface (md_surface md)) (me_id (sh_member h)) x = None).
Proof.
  intros Hmd Hne Hid H. inversion H as [r x0 x Hbad Hab Hx|r s xs x0 x Hok Hdis Hab Hxs Hterm Hx]; subst.
  { unfold bad_end in Hbad. destruct Hbad as [Hb|Hb]; congruence. }
  destruct Hterm as (typ & b & Hall & Hb & Hv). cbn in Hv. destruct Hv as (w & ss & posted & e' & Hw & Hv & ->).
  assert (Hblank : is_blank (me_id (sh_member h)) = false).
  { unfold is_blank. rewrite member_trimmed. by apply String.eqb_neq. }
  apply validated_speech in Hv as (Hty & Hi & Hc & Hf & p & Hp & Hd); [|done]. cbn in Hty, Hi, Hc.
  rewrite (ab_type _ _ _ _ _ _ _ _ Hb) in Hty. rewrite (ab_cause _ _ _ _ _ _ _ _ Hb) in Hc. cbn in Hc. fold id in Hc. rewrite Hid in Hc.
  pose proof (recorded_fields _ _ Hxs) as (Hty1 & _ & Hr1 & _). pose proof (recorded_fields _ _ Hx) as (Hty2 & Hc2 & Hr2 & Hf2 & Hi2 & _).
  rewrite (ab_type _ _ _ _ _ _ _ _ Hab) in Hty1. rewrite (ab_runner _ _ _ _ _ _ _ _ Hab) in Hr1.
  cbn in Hty2, Hc2, Hr2, Hf2, Hi2. rewrite (ab_runner _ _ _ _ _ _ _ _ Hb) in Hr2.
  assert (Hspeech : typ = "speech").
  { cbn in Hall. rewrite orb_false_r in Hall. by apply String.eqb_eq. }
  exists xs, x. split; [done|]. split; [done|]. split; [done|]. split; [by rewrite Hf2, Hf, member_trimmed|].
  split; [by rewrite Hc2|]. split; [by eexists|]. split.
  - intros rx Hrx Hst. rewrite Hr2 in Hrx. injection Hrx as <-. cbn in Hst.
    assert (Hst1 : runnerStatus "runner_invocation_succeeded" r = "succeeded") by (rewrite <- Hst, Hspeech; done).
    split; eexists; (split; [eassumption|]); done.
  - intros Hix Hreq. destruct Hmd as (_ & _ & _ & _ & _ & Hsurf & _). destruct Hw as (_ & _ & _ & _ & _ & Hsurf' & _).
    destruct Hd as (target & message & Ht & Hmsg & Hpl).
    { unfold requiresSelectedRunnerDeliveryProof in Hreq. unfold selectedRunnerRequiresVisibleDiscordDelivery. rewrite Hsurf', <- Hsurf.
      destruct (md_surface md) as [su|]; [|done]. apply String.eqb_eq in Hreq. by rewrite Hreq. }
    rewrite Hsurf', <- Hsurf in Ht, Hpl. eapply delivered_proved; try done; [apply member_trimmed|].
    rewrite (recorded_entry _ _ "surface_evidence" Hx) by done. unfold pl at 1. cbn. rewrite Hp. cbn. rewrite Hpl. cbn.
    by rewrite (norm_texts _ (delivered_texts _ _ _ _)), Hi2, Hi.
Qed.

Notation handle := (Handle name clock wall adapter_kind send visible h).

Context (st : run_state) (He : e ∈ selections (log st)) (Hold : Forall others (log st)) (Hretries : sh_max_retries h < int_max).

Lemma nothing_owned : id <> "" -> holds e ours (log st) [] [].
Proof. intros Hid. apply (holds_noise e ours [] (log st) [] []); [done|done|apply holds_start]. Qed.

Lemma own_caused l x own bound :
  plain_ids l -> e ∈ selections l -> holds e ours l own bound -> ev_type x <> "speaker_selected" -> ev_runner x = None ->
  ev_causation_event_id x = id -> (forall key, key ∈ grant_keys -> payloadStringDefault (pl x) key "" = "") -> id <> "" ->
  owned (l ++ [x]) id = own ++ [x].
Proof.
  intros Hp Hin [Ho _ _ _] Ht Hr Hc Hn Hid. pose proof (known_selection e l Hp Hin) as Hk. fold id in Hk.
  assert (Howner : owner (foldl own_step nobody l) x = id).
  { unfold owner, matchingSelectedGrant, runner_invocation. cbv zeta. rewrite Hr. cbn [String.eqb negb].
    destruct (named_grant _ _ _) as [n|] eqn:En.
    { destruct (named_grant_known _ _ _ _ En) as [Hm0 _]. apply named_grant_value in En as (key & Hkey & <-). by rewrite Hn in Hm0. }
    rewrite Hc. destruct (String.eqb_spec id ""); [done|]. rewrite bool_decide_eq_true_2; [done|]. rewrite lookup_fmap, Hk. by eexists. }
  unfold id in *. rewrite owned_snoc, (own_step_owned _ _ _ _ Ht Howner Hk). cbn. rewrite lookup_insert_eq. cbn. unfold owned in Ho. by rewrite Ho.
Qed.

(** What belongs to the selection when its dispatch is over. *)
Definition dispatched (st' : run_state) (o : option handle_error) : Prop :=
  match o with
  | None =>
      exists before xs x, log st' = before ++ [xs; x] /\ ev_type x = "speech" /\
        (plain_ids (log st') -> selectedRunnerSpeechTurn x = grant_turn e -> rn_status <$> ev_runner x = Some "succeeded" ->
         runner_evidence (run_md st) e (owned (log st') id))
  | Some DurableFailureRecorded => plain_ids (log st') -> exists x, x ∈ owned (log st') id /\ fails x
  | Some (HandleFailed _) => True
  end.

Lemma diagnosed p st' :
  trim_space id = id -> id <> "" -> Forall (fun k => p !! k = None) grant_keys ->
  append_diagnostic name clock st e p = (st', None) -> dispatched st' (Some DurableFailureRecorded).
Proof.
  intros Htrim Hid Hp. unfold append_diagnostic. cbn [read_clock]. match goal with |- context [append_event ?n ?s ?x] =>
    destruct (append_event n s x) as [st1 r] eqn:Ha end.
  intros [= <- Hr]. apply append_error_none in Hr as [a ->]. apply append_event_ok in Ha as (x & Hx & Hl & _).
  pose proof (recorded_fields _ _ Hx) as (Ht & Hc & Hr & _). cbn in Ht, Hc, Hr. intros Hpl. change (log st1 = log st ++ [x]) in Hl.
  rewrite Hl in Hpl |- *. exists x. split; [|by right; right; rewrite Ht].
  rewrite (own_caused (log st) x [] []); [set_solver|by apply plain_snoc in Hpl as [? _]|done|by apply nothing_owned|by rewrite Ht|done|done| |done].
  intros key Hkey. rewrite (recorded_payload (diagnostic_event (run_md st) e (clock (dp_tick st)) (clock (S (dp_tick st))) p)) by done.
  by apply no_grant_keys.
Qed.

Lemma member_not_blank : me_id (sh_member h) <> "" -> is_blank (me_id (sh_member h)) = false.
Proof. intros H. unfold is_blank. rewrite member_trimmed. by apply String.eqb_neq. Qed.

Lemma ending_type prompt md0 inv k closing typ :
  me_id (sh_member h) <> "" ->
  ending (sh_member h) (speaker_request name wall visible h e prompt) md0 inv source k closing typ -> bad_end typ \/ typ = "speech".
Proof.
  intros Hne H. destruct H as [r x0 x Hbad _ _|r s xs x0 x _ _ _ _ Hterm Hx]; [by left|right].
  destruct Hterm as (typ & b & Hall & Hb & w & ss & posted & e' & _ & Hv & ->). pose proof (recorded_fields _ _ Hx) as (Ht & _).
  apply validated_speech in Hv as (Hty & _); [|by apply member_not_blank]. cbn in Ht, Hty, Hall.
  rewrite (ab_type _ _ _ _ _ _ _ _ Hb) in Hty. rewrite orb_false_r in Hall. apply String.eqb_eq in Hall. congruence.
Qed.

Lemma attempts_type prompt md0 k l ids typ :
  me_id (sh_member h) <> "" ->
  attempts clock (sh_member h) others (speaker_request name wall visible h e prompt) md0 source k l ids typ -> bad_end typ \/ typ = "speech".
Proof. intros Hne. induction 1; [by eapply ending_type|done]. Qed.

(** A dispatch that is over, with the events that belong to the selection. *)
Lemma attempts_dispatched prompt l ids typ st' :
  trim_space id = id -> id <> "" -> me_id (sh_member h) <> "" -> plain_ids (log st') -> log st' = log st ++ l ->
  attempts clock (sh_member h) others (speaker_request name wall visible h e prompt) (dispatch_metadata (run_md st) e) source 1 l ids typ ->
  dispatched st' (if mem_str typ failed_types then Some DurableFailureRecorded else None).
Proof.
  intros Htrim Hid Hne Hp Hl Hat. rewrite Hl in Hp. pose proof (attempts_type _ _ _ _ _ _ Hne Hat) as Htyp.
  assert (Hc : closes typ) by (destruct Htyp as [[->| ->]| ->]; by split).
  destruct (attempts_hold e clock (sh_member h) (speaker_request name wall visible h e prompt) (dispatch_metadata (run_md st) e) source
    Hid Htrim Hm 1 l ids typ (log st) [] [] Hc Hat Hp He (nothing_owned Hid))
    as (sts & closing & inv & j & Hown & Hend & Hst & Hy & Hinv & Hit & before & Hb).
  rewrite <- Hl in Hown, Hb. cbn [app] in Hown. destruct Htyp as [Hbad| ->].
  - replace (mem_str typ failed_types) with true by (destruct Hbad as [->| ->]; done). intros _.
    inversion Hend as [r x0 x _ _ _|r s xs x0 x _ _ _ _ _ _]; subst.
    + exists x. fold id in Hown. rewrite Hown. split; [set_solver|]. destruct Hbad as [?|?]; [by left|by right; left].
    + exists x. fold id in Hown. rewrite Hown. split; [set_solver|]. destruct Hbad as [?|?]; [by left|by right; left].
  - cbn [mem_str existsb failed_types]. change (mem_str "speech" failed_types) with false. cbv iota.
    apply (ending_spoken prompt (run_md st)) in Hend as (xs & x & -> & Hxs & Hx & Hf & Hcx & [rx Hrx] & Hrun & Hdel); [|done..].
    exists before, xs, x. split; [done|]. split; [done|]. intros Hp' Ht Hs'. fold id in Hown. rewrite Hown.
    rewrite Hrx in Hs'. injection Hs' as Hs'. destruct (Hrun rx Hrx Hs') as [Hr1 Hr2].
    apply (spoken_evidence _ _ (sh_member h) _ _ _ inv); try done. apply Hdel.
    destruct Hp' as [_ Hp']. rewrite Forall_forall in Hp'. apply Hp'. rewrite Hb. set_solver.
Qed.

Lemma Handle_dispatched st' o :
  plain_ids (log st') -> Forall (fun x => x ∈ log st') (log st) -> handle st e = (st', o) -> dispatched st' o.
Proof.
  intros Hp Hin. pose proof He as Hsel. apply in_selections in Hsel as [Hel Hty]. unfold selected in Hty.
  assert (Hid : id <> "" /\ trim_space id = id).
  { destruct Hp as [_ Hp]. rewrite Forall_forall in Hp, Hin. by apply Hp, Hin. }
  unfold Handle. cbv zeta. rewrite Hty. cbn [negb]. rewrite Hs. destruct (me_id (sh_member h) == "") eqn:Hne; [by intros [= <- <-]|].
  apply String.eqb_neq in Hne. rewrite String.eqb_refl. cbn [negb]. destruct (is_blank (ev_command_id e)) eqn:Hb; [by intros [= <- <-]|].
  destruct (promptFor h e) as [prompt|text].
  - destruct (Dispatch _ _ _ _ _ _ _) as [[st1 out] err] eqn:Hd. intros [= <- <-]. destruct err as [err|]; [done|].
    apply (Dispatch_attempts name clock (sh_member h) adapter_kind send others) in Hd as (l & Hl & Hat & _ & _);
      [|done|intros; by eapply others_speaker|done].
    unfold speaker_request in Hat at 2 3 4. cbn [dq_source dq_command] in Hat. unfold source in *.
    rewrite blank_trim, Hb, trim_space_idemp in Hat. destruct Hid as [Hid Htrim].
    by apply (attempts_dispatched prompt l (do_invocations out)).
  - destruct Hid as [Hid Htrim]. unfold appendPromptDiagnostic.
    match goal with |- context [append_diagnostic ?n ?c ?s ?x ?p] => destruct (append_diagnostic n c s x p) as [st1 [err|]] eqn:Hd end;
      intros [= <- <-]; [done|]. eapply diagnosed; [done|done| |exact Hd]. repeat constructor.
Qed.
End handled.

(** The accounting passes the selection [id]. *)
Definition accounting_passes (md : SessionMetadata) (ix : LogIndex) (id : string) : Prop :=
  exists g, g ∈ sa_runners (SelectedRunnerAccountingFromIndex md ix) /\ ga_selected g = id /\ ga_pass g = true.

Lemma accounting_passes_iff md ix x :
  plain_ids (ix_events ix) -> x ∈ selections (ix_events ix) ->
  (accounting_passes md ix (ev_event_id x) <-> runner_evidence md x (owned (ix_events ix) (ev_event_id x))).
Proof.
  intros Hp Hx. destruct (accounting_rows md ix Hp) as [H _]. split.
  - intros (g & Hg & Hid & Hpass). apply list_elem_of_lookup in Hg as [i Hg]. destruct (Forall2_lookup_r _ _ _ _ _ H Hg) as (y & Hy & Hyid & Hyp).
    apply list_elem_of_lookup_2 in Hy. assert (y = x) as ->; [|by apply Hyp].
    apply in_selections in Hx as [? _]. apply in_selections in Hy as [? _]. apply (plain_inj (ix_events ix)); congruence.
  - intros He. apply list_elem_of_lookup in Hx as [i Hx]. destruct (Forall2_lookup_l _ _ _ _ _ H Hx) as (g & Hg & Hid & Hpass).
    exists g. split; [by eapply list_elem_of_lookup_2|]. split; [done|]. by apply Hpass.
Qed.

(** C28. The accounting agrees with the dispatch.  When the handler of a selected
    speaker returns without error for a selection in the log that nothing refers
    to yet, while what others append meanwhile does not refer to it either, and
    the event ids of the log are distinct and have no blanks around them, then
    the log ends with the speech of its runner, and if the runner reported
    success and spoke for the turn it was selected for, the selected-runner
    accounting of the log passes the selection, the proof of delivery included
    where the council demands one.  When the handler reports a recorded failure,
    the accounting does not pass it. *)
Theorem dispatch_agrees_with_accounting name clock wall kind send visible h e st st' o
    (quiet := unrelated e (dispatch_invocation clock (trim_space (ev_command_id e))))
    (others_send : forall ss q, extends name quiet ss (send ss q).1)
    (others_post : forall post ss q, visible = Some post -> extends name quiet ss (post ss q).1)
    (Hids : plain_ids (run_log name st')) (Hin : e ∈ selections (run_log name st)) (Hnew : Forall quiet (run_log name st))
    (Hmember : selectedRunnerMember e = me_id (sh_member h)) (Hselected : selectedSpeakerMember e = Ok (me_id (sh_member h)))
    (Hturn : 0 < grant_turn e) (Hretries : sh_max_retries h < int_max)
    (H : Handle name clock wall kind send visible h st e = (st', o)) :
  match o with
  | None =>
      exists before xs x, run_log name st' = before ++ [xs; x] /\ ev_type x = "speech" /\
        (selectedRunnerSpeechTurn x = grant_turn e -> rn_status <$> ev_runner x = Some "succeeded" ->
         forall ix, ix_events ix = run_log name st' -> accounting_passes (run_md st) ix (ev_event_id e))
  | Some DurableFailureRecorded =>
      forall ix, ix_events ix = run_log name st' -> ~ accounting_passes (run_md st) ix (ev_event_id e)
  | Some (HandleFailed _) => True
  end.
Proof.
  pose proof (Handle_accounted name clock wall kind send visible quiet others_send others_post h st e) as [(l & Hl & _) _].
  rewrite H in Hl. cbn [fst] in Hl. change (run_log name st' = run_log name st ++ l) in Hl.
  assert (Hsel : e ∈ selections (run_log name st')) by (rewrite Hl; by apply selected_app).
  eapply Handle_dispatched in H; try done; [|rewrite Hl; apply Forall_forall; set_solver].
  destruct o as [[|err]|]; [|done|]; cbn in H.
  - intros ix Hix. rewrite <- Hix in Hids, Hsel, H. rewrite (accounting_passes_iff _ _ _ Hids Hsel). intros Hr.
    destruct (H Hids) as (x & Hx & Hf). by eapply rv_clean.
  - destruct H as (before & xs & x & Hb & Hx & Hpass). exists before, xs, x. split; [done|]. split; [done|].
    intros Ht Hst ix Hix. rewrite <- Hix in Hids, Hsel, Hpass. rewrite (accounting_passes_iff _ _ _ Hids Hsel). by apply Hpass.
Qed.

(** ** A concrete selection

    A council on a Discord thread selects ann; her runner times out once, and then
    speaks, which is posted to the thread. *)

Definition sp_commands : list CouncilEventSpec :=
  [cx_spec "request-attendance" "mod" "a1" ∅; cx_spec "attend" "ann" "a2" {[ "status" := AStr "present" ]};
   cx_spec "attend" "bob" "a3" {[ "status" := AStr "present" ]};
   cx_spec "lock-agenda" "mod" "a4"
     {[ "decision_question" := AStr "Ship?"; "success_criteria" := AStr "a date"; "out_of_scope_policy" := AStr "park" ]};
   cx_spec "prepare" "mod" "a5" ∅; cx_spec "ready" "ann" "a6" {[ "summary" := AStr "read" ]};
   cx_spec "ready" "bob" "a7" {[ "summary" := AStr "read" ]}; cx_spec "poll" "mod" "a8" ∅;
   cx_spec "hand-raise" "ann" "a9" {[ "intent" := AStr "support" ]}; cx_spec "grant" "mod" "a10" {[ "member" := AStr "ann" ]}].

Definition sp_world : world := cx_runs tx_w0 sp_commands.
Definition sp_log : list EventEnvelope := Eval vm_compute in log_at "sess_council" (wd_sessions sp_world).
Definition sp_selection : EventEnvelope := default tx_created (last sp_log).

Definition sp_answer : runner_result :=
  mk_result true "" (1, 0) None "" "speech" (Some {[ "message" := AStr "We should ship." ]}) "" false.

Definition sp_send (ss : sessions) (q : runner_request) : sessions * (runner_result * option string) :=
  (ss, if rq_attempt q =? 1 then (nx_failed, Some "deadline exceeded") else (sp_answer, None)).

Definition sp_post (ss : sessions) (q : VisibleDeliveryRequest) : sessions * (VisibleDeliveryResult * option string) :=
  (ss, (mk_visible_result true "posted" "" "" "" "" "msg_1" "selected_member_profile_send" "ann" "", None)).

Definition sp_handler (retries : Z) : SelectedSpeakerDispatchHandler :=
  mk_handler nx_member retries (30 * second) (Some (fun _ _ => "Speak.")).

Definition sp_start : run_state := mk_run sp_world 0 [] [] [].
Notation sp_run retries :=
  (Handle "sess_council" nx_clock fx_later (Some HermesAgentKind) sp_send (Some sp_post) (sp_handler retries) sp_start sp_selection).

(** With one retry she speaks, with none her failure is recorded. *)
Example sp_runs :
  map (fun retries => ((sp_run retries).2, drop 11 (map ev_type (run_log "sess_council" (sp_run retries).1)))) [1; 0] =
  [(None, ["runner_invocation_started"; "runner_retry_attempted"; "runner_invocation_started"; "runner_invocation_succeeded"; "speech"]);
   (Some DurableFailureRecorded, ["runner_invocation_started"; "runner_invocation_failed"])].
Proof. vm_compute. reflexivity. Qed.

Lemma unrelated_check e clock source l :
  forallb (fun y => (runner_invocation y == "") && (ev_causation_event_id y != ev_event_id e) &&
                    forallb (fun key => payloadStringDefault (pl y) key "" != ev_event_id e) grant_keys) l = true ->
  Forall (unrelated e (dispatch_invocation clock source)) l.
Proof.
  intros H. rewrite forallb_forall in H. apply Forall_forall. intros y Hy. specialize (H y (proj1 (list_elem_of_In _ _) Hy)).
  apply andb_true_iff in H as [[Hi Hc]%andb_true_iff Hn]. rewrite forallb_forall in Hn. bool_prop. split; [|done|].
  - rewrite Hi. intros (k & i & Hk). by destruct (invocation_plain source k (clock i)).
  - intros key Hkey. apply String.eqb_neq. apply negb_true_iff. by apply Hn, list_elem_of_In.
Qed.

Lemma plain_check l :
  bool_decide (NoDup (map ev_event_id l)) && forallb (fun y => (ev_event_id y != "") && (trim_space (ev_event_id y) == ev_event_id y)) l = true ->
  plain_ids l.
Proof.
  intros [Hd Hf]%andb_true_iff. apply bool_decide_eq_true_1 in Hd. split; [done|]. rewrite forallb_forall in Hf.
  apply Forall_forall. intros y Hy. specialize (Hf y (proj1 (list_elem_of_In _ _) Hy)). apply andb_true_iff in Hf as [? ?]. by bool_prop.
Qed.

Lemma sp_plain : plain_ids (run_log "sess_council" (sp_run 1).1).
Proof. apply plain_check. vm_compute. reflexivity. Qed.

Lemma sp_selected : sp_selection ∈ selections (run_log "sess_council" sp_start).
Proof. apply list_elem_of_lookup. exists 0%nat. vm_compute. reflexivity. Qed.

Lemma snd_eq {A B} (p : A * B) b : p.2 = b -> p = (p.1, b).
Proof. destruct p. by intros [= <-]. Qed.

Lemma sp_ok : sp_run 1 = ((sp_run 1).1, None).
Proof. apply snd_eq. vm_compute. reflexivity. Qed.

Lemma dispatch_agrees_with_accounting_witness :
  exists before xs x, run_log "sess_council" (sp_run 1).1 = before ++ [xs; x] /\ ev_type x = "speech" /\
    (selectedRunnerSpeechTurn x = 1 -> rn_status <$> ev_runner x = Some "succeeded" ->
     forall ix, ix_events ix = run_log "sess_council" (sp_run 1).1 -> accounting_passes (run_md sp_start) ix (ev_event_id sp_selection)).
Proof.
  apply (dispatch_agrees_with_accounting "sess_council" nx_clock fx_later (Some HermesAgentKind) sp_send (Some sp_post) (sp_handler 1)
    sp_selection sp_start (sp_run 1).1 None).
  - intros ss q. apply extends_refl.
  - intros post ss q [= <-]. apply extends_refl.
  - exact sp_plain.
  - exact sp_selected.
  - apply unrelated_check. vm_compute. reflexivity.
  - reflexivity.
  - reflexivity.
  - vm_compute. reflexivity.
  - vm_compute. reflexivity.
  - exact sp_ok.
Defined.

(** ** A selection whose dispatch was cut

    The runner answered, but its speech could not be appended: a later command
    does not ask it again. *)

Definition dx_snapshot : LoadedRegistry :=
  mk_loaded "/home" "/home/registry.yaml" "sha256:00" 501 (mk_registry 1 {[ "ann" := nx_member ]} [] []) SnapshotContent.

Definition dx_world : world := cx_runs fx_w0 (drop 3 sp_commands).
Definition dx_selection : string := "evt_speaker_selected_a10".
Definition dx_start : run_state := mk_run dx_world 0 [None; None; None; None; None; Some FaultOpen] [] [].

Notation dx_dispatch st :=
  (dispatchSelectedSpeakerAfterGrant "sess_council" nx_clock fx_later (mk_server 0 1 None) (Ok dx_snapshot) sp_send None st dx_selection).

Example dx_cut :
  drop 8 (map ev_type (run_log "sess_council" (dx_dispatch dx_start).1)) =
  ["selected_runner_prompt_evidence"; "runner_invocation_started"; "runner_retry_attempted"; "runner_invocation_started";
   "runner_invocation_succeeded"; "selected_runner_dispatch_failed"].
Proof. vm_compute. reflexivity. Qed.

Lemma dx_sent : dp_sent (dx_dispatch dx_start).1 <> dp_sent dx_start.
Proof. intros H. apply (f_equal length) in H. vm_compute in H. discriminate. Qed.

Lemma selection_dispatched_once_witness :
  dp_sent (dx_dispatch (dx_dispatch dx_start).1).1 = dp_sent (dx_dispatch dx_start).1 /\
  dp_posted (dx_dispatch (dx_dispatch dx_start).1).1 = dp_posted (dx_dispatch dx_start).1.
Proof.
  apply (selection_dispatched_once "sess_council" nx_clock fx_later (mk_server 0 1 None) (Ok dx_snapshot) sp_send None any_event
    nx_clock fx_later (mk_server 0 1 None) (Ok dx_snapshot) sp_send None dx_start (dx_dispatch dx_start).1 dx_selection).
  - intros ss q. apply extends_refl.
  - intros post ss q [=].
  - vm_compute. reflexivity.
  - exact dx_sent.
  - apply extends_refl.
Defined.

Lemma asked_with_complete_context_witness :
  asked (well_prompted "sess_council" (Ok dx_snapshot) dx_start dx_selection) dx_start (dx_dispatch dx_start).1.
Proof.
  apply (asked_with_complete_context "sess_council" nx_clock fx_later (mk_server 0 1 None) (Ok dx_snapshot) sp_send None any_event).
  - intros ss q. apply extends_refl.
  - intros post ss q [=].
Defined.

(** Evidence is looked for in events of every type: bob's raised hand, which
    carries an empty row list under the key of the runtime evidence, keeps the
    runner of ann, who was selected, from being asked. *)
Definition dx_forged : world :=
  cx_runs fx_w0 (firstn 6 (drop 3 sp_commands) ++
    [cx_spec "hand-raise" "bob" "b1"
       {[ "intent" := AStr "support"; "persistent_participant_runtime_evidence" := AMap {[ "members" := AList [] ]} ]};
     cx_spec "grant" "mod" "a10" {[ "member" := AStr "ann" ]}]).

Example dx_forged_blocks :
  let st := (dx_dispatch (mk_run dx_forged 0 [] [] [])).1 in
  (length (dp_sent st), drop 9 (map (fun e => (ev_type e, payloadStringDefault (pl e) "reason" "")) (run_log "sess_council" st))) =
  (0%nat, [("selected_runner_prompt_evidence", ""); ("selected_runner_dispatch_failed", "selected_runner_context_missing")]).
Proof. vm_compute. reflexivity. Qed.
