(* ===== verification/Session.v ===== *)
(** * Session creation and discovery (storage/session.go, FindActiveSession of
    storage/stream.go, the creators of storage/delegation.go and storage/council.go)

    A session is made in a staging directory of the sessions root, which is then
    renamed to the session's name.  The model has the faults that can cut this
    anywhere, and whether the deferred removal of the staging directory happened:
    a process that dies at a step is the fault of that step without removal. *)

From S2P Require Import Prelude Paths GoValue GoTime Model Ids Registry Evidence Events Delegation Lifecycle ArgumentGraph Council.

(** ** State and errors *)

(** The data home: the registry and the nodes of the file system, the entries of
    the sessions root by name, and the registry snapshots in them. *)
Record home := mk_home {
  hm_reg : reg_world; hm_sessions : sessions; hm_snapshots : gmap string snapshot_content }.

Abbreviation hm_fs h := (rw_fs (hm_reg h)).

Definition set_nodes (h : home) (fs : filesystem) : home :=
  mk_home (mk_reg_world fs (rw_doc (hm_reg h))) (hm_sessions h) (hm_snapshots h).

Definition set_sessions (h : home) (ss : sessions) : home := mk_home (hm_reg h) ss (hm_snapshots h).

(** Errors of the registry package and of the storage package. *)
Inductive session_error :=
| ERegistry (e : reg_error)
| EStored (e : error).

Definition lift_registry {A} (r : result reg_error A) : result session_error A :=
  match r with
  | Ok a => Ok a
  | Err e => Err (ERegistry e)
  end.

Definition stored {A} (r : result error A) : result session_error A :=
  match r with
  | Ok a => Ok a
  | Err e => Err (EStored e)
  end.

Definition session_fail (category path message : string) : session_error :=
  EStored (NewValidationError category path message).

Definition CategorySnapshotFailed : string := "storage_snapshot_failed".
Definition CategoryRegistryMismatch : string := "storage_registry_mismatch".

(** ** Paths (ids.go) *)

Definition sessions_root (dataHome : string) : string := Join [Clean dataHome; SessionsDirName].

Definition SessionDir (dataHome id : string) : result error string :=
  try _ := ValidateSessionID id in
  let root := sessions_root dataHome in
  let sessionDir := Join [root; id] in
  ensure pathContains root sessionDir or
    NewValidationError CategoryPathUnsafe sessionDir "session path escapes sessions root";;
  Ok sessionDir.

(** [mkdir_fails]: the operating system refuses the new directory. *)
Definition ensureSessionsRoot (h : home) (dataHome : string) (ru : Runtime) (mkdir_fails : bool)
    : home * result error string :=
  let root := sessions_root dataHome in
  let unsafe message := Err (NewValidationError CategorySessionUnsafe root message) in
  match hm_fs h !! root with
  | None => if mkdir_fails then (h, unsafe io_error) else (set_nodes h (<[root := private_dir ru]> (hm_fs h)), Ok root)
  | Some info =>
      (h, match fi_kind info with
          | KSymlink _ => unsafe "sessions directory symlinks are forbidden"
          | _ =>
              if negb (is_dir info) then unsafe "sessions path is not a directory"
              else if group_writable info then unsafe (unsafe_mode info)
              else Ok root
          end)
  end.

(** ** FindActiveSession *)

Record ActiveSession := mk_active { ac_session_id : string; ac_phase : Phase; ac_status : Status }.

(** An entry that the search looks at. *)
Definition searched (p : string * session_dir) : bool :=
  sd_is_dir p.2 && negb (sd_symlink p.2) && negb (has_prefix p.1 ".tmp-").

(** One entry: the session, unless it is terminal. *)
Definition active_entry (dataHome : string) (p : string * session_dir) : result error (option ActiveSession) :=
  try _ := SessionDir dataHome p.1 in
  try md := LoadSessionYAML p.2 in
  try ix := ReadLogIndex p.2 md in
  let phase := latestPhase md ix in
  Ok (if terminal_phase phase then None else Some (mk_active (md_id md) phase (statusFromPhase phase))).

Fixpoint find_active (dataHome : string) (active : option ActiveSession) (entries : list (string * session_dir))
    : result error (option ActiveSession) :=
  match entries with
  | [] => Ok active
  | p :: rest =>
      if negb (searched p) then find_active dataHome active rest
      else
        try current := active_entry dataHome p in
        match current, active with
        | None, _ => find_active dataHome active rest
        | Some _, Some _ =>
            Err (NewValidationError CategoryCommandConflict "active_session" "multiple active sessions found")
        | Some s, None => find_active dataHome (Some s) rest
        end
  end.

Definition FindActiveSession (h : home) (dataHome : string) (ru : Runtime)
    : result session_error (option ActiveSession) :=
  let cleanDataHome := Clean dataHome in
  try _ := lift_registry (ValidateDataHome (hm_fs h) cleanDataHome ru) in
  let root := sessions_root cleanDataHome in
  match hm_fs h !! root with
  | None => Ok None
  | Some info =>
      reject negb (is_dir info) with session_fail CategorySessionUnsafe root "sessions path is unsafe";;
      stored (find_active cleanDataHome None (sorted_entries (hm_sessions h)))
  end.

(** ** The session specification (session.go) *)

Fixpoint participant_issues (members : gmap string Member) (seen participants : list string) : list Issue :=
  match participants with
  | [] => []
  | id :: rest =>
      if is_blank id then mk_issue CategoryPrincipalInvalid "participants" "participant id is required"
                          :: participant_issues members seen rest
      else
        issue_when (mem_str id seen) CategoryPrincipalInvalid "participants" "duplicate participant" ++
        issue_when (bool_decide (members !! id = None)) CategoryPrincipalInvalid "participants"
          "participant is not in loaded registry" ++
        participant_issues members (id :: seen) rest
  end.

Definition timeout_evidence_issues (evidence : option SelectedRunnerTimeoutEvidence) : list Issue :=
  let add b field message :=
    issue_when b CategoryInvalidEnvelope ("selected_runner_timeout_evidence." +:+ field) message in
  match evidence with
  | None => []
  | Some e =>
      add (te_policy_required e && (te_configured_timeout_sec e <=? 0)) "configured_timeout_sec"
        "configured_timeout_sec is required when policy_required is true" ++
      add (te_policy_required e && (te_effective_timeout_sec e <=? 0)) "effective_timeout_sec"
        "effective_timeout_sec is required when policy_required is true" ++
      add (te_policy_required e && is_blank (te_effective_source e)) "effective_source"
        "effective_source is required when policy_required is true" ++
      add (te_approved_alternative e && is_blank (te_approval_basis e)) "approval_basis"
        "approval_basis is required when approved_alternative is true"
  end.

Definition spec_issues (members : gmap string Member) (spec : SessionSpec) : list Issue :=
  result_issues (ValidateSessionID (sp_id spec)) ++
  issue_when (negb (validSessionType (sp_session_type spec))) CategoryMetadataInvalid "session_type"
    "session_type must be delegation or council" ++
  issue_when (is_blank (sp_title spec)) CategoryMetadataInvalid "title" "title is required" ++
  issue_when (is_blank (sp_moderator spec)) CategoryMetadataInvalid "moderator" "moderator is required" ++
  issue_when (len_z (sp_participants spec) =? 0) CategoryMetadataInvalid "participants"
    "at least one participant is required" ++
  issue_when (negb (mem_str (sp_moderator spec) (sp_participants spec))) CategoryMetadataInvalid "participants"
    "moderator must be included in participants" ++
  participant_issues members [] (sp_participants spec) ++
  issue_when (bool_decide (members !! sp_moderator spec = None)) CategoryPrincipalInvalid "moderator"
    "moderator is not in loaded registry" ++
  issue_when (sp_event_id spec == "") CategoryInvalidEnvelope "event_id" "session_created event id is required" ++
  issue_when (match sp_surface spec with
              | Some s => (su_kind s == "discord_thread") && is_blank (su_thread_id s)
              | None => false
              end) CategoryInvalidEnvelope "surface.thread_id" "discord_thread surface requires thread_id" ++
  issue_when ((sp_turn_mode spec != "") && negb (validTurnMode (sp_turn_mode spec))) CategoryMetadataInvalid
    "turn_mode" "unsupported turn_mode" ++
  timeout_evidence_issues (sp_timeout_evidence spec) ++
  (if sp_session_type spec == SessionTypeCouncil
   then result_issues (validateDiscussionLifecycleLimits (sp_limits spec)) ++
        result_issues (validateDiscussionQualityLimits (sp_limits spec))
   else []).

Definition validateSessionSpec (loaded : LoadedRegistry) (spec : SessionSpec) : result error unit :=
  match spec_issues (rg_members (ld_registry loaded)) spec with
  | [] => Ok tt
  | issues => Err (NewValidationErrors issues)
  end.

Definition metadataFromSpec (spec : SessionSpec) (loaded : LoadedRegistry) (now : time) : SessionMetadata :=
  mk_metadata (sp_id spec) (sp_session_type spec) StatusOpen (sp_title spec) (sp_moderator spec)
    (sp_participants spec) (sp_surface spec) (sp_linked_authority spec) (sp_timeout_evidence spec)
    (sp_turn_mode spec) now (sp_limits spec) (mk_state PhaseCreated 0 "" 0)
    (mk_snapshot (ld_source_path loaded) (ld_sha256 loaded) now (ld_uid loaded)
       (EffectiveSchemaVersion (ld_registry loaded))).

Definition put_some {A} (key : string) (json : A -> any) (o : option A) (p : payload) : payload :=
  match o with
  | Some a => <[key := json a]> p
  | None => p
  end.

Definition created_payload (md : SessionMetadata) (request_context : payload) : payload :=
  let base : payload :=
    {[ "session_type" := AStr (md_session_type md); "title" := AStr (md_title md);
       "moderator" := AStr (md_moderator md); "participants" := AStrs (md_participants md);
       "limits" := limits_json (md_limits md) ]} in
  let p1 := put_some "surface" surface_json (md_surface md) base in
  let p2 := if bool_decide (request_context = ∅) then p1 else <["request_context" := AMap request_context]> p1 in
  let p3 := put_some "linked_authority" linked_authority_json (md_linked_authority md) p2 in
  let p4 := put_some "selected_runner_timeout_evidence" timeout_evidence_json (md_timeout_evidence md) p3 in
  if md_turn_mode md == "" then p4 else <["turn_mode" := AStr (md_turn_mode md)]> p4.

Definition sessionCreatedEvent (md : SessionMetadata) (spec : SessionSpec) (now : time) : EventEnvelope :=
  mk_event SchemaVersion (sp_event_id spec) (sp_command_id spec) ""
    (if sp_correlation_id spec == "" then md_id md else sp_correlation_id spec)
    (md_id md) (md_session_type md) None PhaseCreated "session_created" "atn-controld"
    (sort_strings (md_participants md)) now None None (Some (created_payload md (sp_request_context spec))).

(** ** CreateSession *)

(** Where creating a session is cut.  session.yaml may be in place already when
    its directory cannot be synced. *)
Inductive create_fault :=
| FaultMkdirRoot
| FaultMkdirStaging
| FaultSnapshot (f : snapshot_fault)
| FaultMetadata (written : bool)
| FaultAppend (f : append_fault)
| FaultRename
| FaultSyncRoot.

Definition staging_name (id : string) (staged : time) : string := ".tmp-" +:+ id +:+ "-" +:+ itoa (wrap64 staged).

(** The deferred os.RemoveAll, if it happens. *)
Definition drop_staging (h : home) (cleanup : bool) (staging : string) : home :=
  if cleanup then mk_home (hm_reg h) (delete staging (hm_sessions h)) (delete staging (hm_snapshots h)) else h.

Definition new_dir (path : string) : session_dir := mk_session_dir path false true None None.

Definition moved (sd : session_dir) (path : string) : session_dir :=
  mk_session_dir path (sd_symlink sd) (sd_is_dir sd) (sd_channel sd) (sd_yaml sd).

Definition put_snapshot_file (h : home) (name : string) (o : option snapshot_content) : home :=
  match o with
  | Some c => mk_home (hm_reg h) (hm_sessions h) (<[name := c]> (hm_snapshots h))
  | None => h
  end.

(** The entry [staging] becomes the entry [id]. *)
Definition rename_session (h : home) (staging id finalDir : string) : home :=
  match hm_sessions h !! staging with
  | None => h
  | Some sd =>
      let h1 := set_sessions h (<[id := moved sd finalDir]> (delete staging (hm_sessions h))) in
      mk_home (hm_reg h1) (hm_sessions h1)
        (match hm_snapshots h !! staging with
         | Some c => <[id := c]> (delete staging (hm_snapshots h))
         | None => hm_snapshots h
         end)
  end.

(** The steps inside the new staging directory up to the first event: the home
    they leave, the metadata and the result of the append. *)
Definition fill_staging (h : home) (staging stagingDir : string) (loaded : LoadedRegistry) (spec : SessionSpec)
    (now : time) (ru : Runtime) (fault : option create_fault)
    : home * result error (SessionMetadata * AppendResult) :=
  let snapshot_fault := match fault with Some (FaultSnapshot f) => Some f | _ => None end in
  let '(sw, r1) := WriteSnapshotAtomic (mk_snapshot_world (<[stagingDir := private_dir ru]> (hm_fs h)) ∅)
                     stagingDir loaded now ru snapshot_fault in
  let h1 := put_snapshot_file h staging (sw_docs sw !! Join [stagingDir; SnapshotFileName]) in
  match r1 with
  | Err e => (h1, Err (NewValidationError CategorySnapshotFailed SnapshotFileName (reg_text e)))
  | Ok _ =>
      let md := metadataFromSpec spec loaded now in
      let written := set_sessions h1 (<[staging := set_yaml (new_dir stagingDir) md]> (hm_sessions h1)) in
      let failed := Err (NewValidationError CategoryMetadataWrite stagingDir io_error) in
      match fault with
      | Some (FaultMetadata done) => (if done then written else h1, failed)
      | _ =>
          let append_fault := match fault with Some (FaultAppend f) => Some f | _ => None end in
          let '(w, r2) := AppendEvent staging (mk_world (hm_sessions written) md) (sessionCreatedEvent md spec now)
                            append_fault in
          (set_sessions written (wd_sessions w), (fun a => (wd_md w, a)) <$> r2)
      end
  end.

(** The checks before anything of the session is made. *)
Definition create_checks (h : home) (dataHome : string) (loaded : LoadedRegistry) (spec : SessionSpec)
    (ru : Runtime) : result session_error unit :=
  try _ := lift_registry (ValidateDataHome (hm_fs h) dataHome ru) in
  reject Clean (ld_data_home loaded) != dataHome with
    session_fail CategoryRegistryMismatch "registry.data_home"
      "loaded registry data home does not match session data home";;
  reject is_blank (ld_source_path loaded) || is_blank (ld_sha256 loaded) ||
         match ld_content loaded with NoContent => true | _ => false end with
    session_fail CategorySnapshotRequired "registry" "loaded registry metadata is incomplete";;
  stored (validateSessionSpec loaded spec).

Definition final_checks (h : home) (finalDir id : string) : result session_error unit :=
  match hm_sessions h !! id with
  | Some sd =>
      Err (session_fail CategorySessionExists finalDir
             (if sd_symlink sd then "final session path is a symlink" else "session already exists"))
  | None => Ok tt
  end.

Definition active_conflict (active : ActiveSession) : session_error :=
  session_fail CategoryCommandConflict "active_session"
    ("active session " +:+ ac_session_id active +:+ " is " +:+ ac_status active).

(** What follows once the sessions root is there: [finalDir] or why there is no
    session to make. *)
Definition admit_session (h : home) (dataHome : string) (spec : SessionSpec) (ru : Runtime)
    : result session_error string :=
  try finalDir := stored (SessionDir dataHome (sp_id spec)) in
  try _ := final_checks h finalDir (sp_id spec) in
  try active := FindActiveSession h dataHome ru in
  match active with
  | Some s => Err (active_conflict s)
  | None => Ok finalDir
  end.

(** The staging directory and everything after it. *)
Definition stage_session (h : home) (root finalDir : string) (loaded : LoadedRegistry) (spec : SessionSpec)
    (staged now : time) (ru : Runtime) (fault : option create_fault) (cleanup : bool)
    : home * result session_error (SessionMetadata * AppendResult) :=
  let staging := staging_name (sp_id spec) staged in
  let stagingDir := Join [root; staging] in
  if negb (pathContains root stagingDir)
  then (h, Err (session_fail CategoryPathUnsafe stagingDir "staging path escapes sessions root"))
  else
    let mkdir_fails := match fault, hm_sessions h !! staging with
                       | Some FaultMkdirStaging, _ => true
                       | _, Some _ => true
                       | _, None => false
                       end in
    if mkdir_fails then (h, Err (session_fail CategorySessionUnsafe stagingDir io_error))
    else
      let h1 := set_sessions h (<[staging := new_dir stagingDir]> (hm_sessions h)) in
      let '(h2, r) := fill_staging h1 staging stagingDir loaded spec now ru fault in
      match (try made := stored r in try _ := final_checks h2 finalDir (sp_id spec) in Ok made) with
      | Err e => (drop_staging h2 cleanup staging, Err e)
      | Ok made =>
          match fault with
          | Some FaultRename => (drop_staging h2 cleanup staging, Err (session_fail CategorySessionUnsafe finalDir io_error))
          | _ =>
              (rename_session h2 staging (sp_id spec) finalDir,
               match fault with
               | Some FaultSyncRoot => Err (session_fail CategorySessionUnsafe root io_error)
               | _ => Ok made
               end)
          end
      end.

(** [staged] and [now] are what the clock says for the staging name and for the
    session. *)
Definition CreateSession (h : home) (dataHome : string) (loaded : option LoadedRegistry) (spec : SessionSpec)
    (staged now : time) (ru : Runtime) (fault : option create_fault) (cleanup : bool)
    : home * result session_error (SessionMetadata * AppendResult) :=
  match loaded with
  | None => (h, Err (session_fail CategorySnapshotRequired "registry" "loaded registry is required"))
  | Some loaded =>
      let cleanDataHome := Clean dataHome in
      match create_checks h cleanDataHome loaded spec ru with
      | Err e => (h, Err e)
      | Ok _ =>
          let '(h1, r) := ensureSessionsRoot h cleanDataHome ru
                            (match fault with Some FaultMkdirRoot => true | _ => false end) in
          match r with
          | Err e => (h1, Err (EStored e))
          | Ok root =>
              match admit_session h1 cleanDataHome spec ru with
              | Err e => (h1, Err e)
              | Ok finalDir => stage_session h1 root finalDir loaded spec staged now ru fault cleanup
              end
          end
      end
  end.

#[global] Arguments CreateSession : simpl never.
#[global] Arguments FindActiveSession : simpl never.
#[global] Arguments validateSessionSpec : simpl never.
