(* ===== verification/SessionStart.v ===== *)
(** * Starting delegations and councils (CreateDelegation of storage/delegation.go,
    CreateCouncil and CouncilReconcilePrincipals of storage/council.go, the
    council.new handler of daemon/council_handlers.go) *)

From S2P Require Import Prelude Paths GoValue GoTime Model Ids Registry Evidence Events Delegation Council Session.

(** ** What is there already *)

(** [existingDelegation] and [existingCouncil], which are the same function. *)
Definition existingSession (h : home) (dataHome id : string) : result error (option (SessionMetadata * session_dir)) :=
  try sessionDir := SessionDir dataHome id in
  match hm_sessions h !! id with
  | None => Ok None
  | Some sd =>
      reject sd_symlink sd || negb (sd_is_dir sd) with
        NewValidationError CategorySessionUnsafe sessionDir "session path is unsafe";;
      try md := LoadSessionYAML sd in Ok (Some (md, sd))
  end.

(** The results, and whether the command was answered from the log. *)
Definition started : Type := SessionMetadata * list AppendResult * bool.

(** ** CreateDelegation *)

Record DelegationStartSpec := mk_delegation_start {
  ds_session : SessionSpec; ds_assignee : string; ds_task : string; ds_context : string;
  ds_acceptance : list string; ds_expected : list string; ds_event_id : string; ds_now : time }.

Definition put_text (key value : string) (p : payload) : payload :=
  if value == "" then p else <[key := AStr value]> p.

Definition put_texts (key : string) (values : list string) (p : payload) : payload :=
  match values with
  | [] => p
  | _ => <[key := AStrs values]> p
  end.

Definition assigned_payload (spec : DelegationStartSpec) : payload :=
  put_texts "expected_outputs" (ds_expected spec)
    (put_texts "acceptance_criteria" (ds_acceptance spec)
       (put_text "context" (ds_context spec) {[ "task" := AStr (ds_task spec) ]})).

Definition taskAssignedEvent (md : SessionMetadata) (spec : DelegationStartSpec) (now : time) : EventEnvelope :=
  mk_event SchemaVersion (ds_event_id spec) (sp_command_id (ds_session spec)) "" (md_id md) (md_id md)
    (md_session_type md) None "assigned" "task_assigned" (md_moderator md) [ds_assignee spec] now None None
    (Some (assigned_payload spec)).

Definition with_participants (s : SessionSpec) (type : SessionType) (moderator : string) (participants : list string)
    (eventID commandID : string) : SessionSpec :=
  mk_spec (sp_id s) type (sp_title s) moderator participants (sp_surface s) (sp_request_context s)
    (sp_linked_authority s) (sp_timeout_evidence s) (sp_turn_mode s) (sp_limits s) eventID commandID
    (sp_correlation_id s).

(** The specification with its defaults. *)
Definition delegation_start (spec : DelegationStartSpec) : result error DelegationStartSpec :=
  let s := ds_session spec in
  let type := if sp_session_type s == "" then SessionTypeDelegation else sp_session_type s in
  reject type != SessionTypeDelegation with
    NewValidationError CategoryMetadataInvalid "session_type" "delegate new requires delegation session_type";;
  reject is_blank (ds_assignee spec) with
    NewValidationError CategoryPrincipalInvalid "assignee" "assignee is required";;
  reject is_blank (ds_task spec) with NewValidationError CategoryInvalidEnvelope "task" "task is required";;
  let participants := if mem_str (ds_assignee spec) (sp_participants s) then sp_participants s
                      else sp_participants s ++ [ds_assignee spec] in
  let eventID := if ds_event_id spec == "" then eventIDFromCommand "evt_task_assigned" (sp_command_id s)
                 else ds_event_id spec in
  Ok (mk_delegation_start (with_participants s type (sp_moderator s) participants (sp_event_id s) (sp_command_id s))
        (ds_assignee spec) (ds_task spec) (ds_context spec) (ds_acceptance spec) (ds_expected spec) eventID
        (ds_now spec)).

Definition delegation_replay (md : SessionMetadata) (sd : session_dir) (spec : DelegationStartSpec) (now : time)
    : result error started :=
  try ix := ReadLogIndex sd md in
  match ix_events ix with
  | e0 :: e1 :: _ =>
      ensure commandEquivalent e1 (taskAssignedEvent md spec now) or
        NewValidationError CategorySessionExists (sd_path sd) "session already exists with different delegation payload";;
      Ok (md, [existing_result 0 e0; existing_result 1 e1], true)
  | _ => Err (NewValidationError CategorySessionExists (sd_path sd) "session already exists with different delegation payload")
  end.

(** [staged], [created] and [clock] are successive readings of the clock; the
    faults are those of the creation and of the second append. *)
Definition CreateDelegation (h : home) (dataHome : string) (loaded : option LoadedRegistry) (spec : DelegationStartSpec)
    (clock staged created : time) (ru : Runtime) (fault : option create_fault) (cleanup : bool)
    (fault2 : option append_fault) : home * result session_error started :=
  match delegation_start spec with
  | Err e => (h, Err (EStored e))
  | Ok spec =>
      let now := event_time clock (ds_now spec) in
      match existingSession h dataHome (sp_id (ds_session spec)) with
      | Err e => (h, Err (EStored e))
      | Ok (Some (md, sd)) => (h, stored (delegation_replay md sd spec now))
      | Ok None =>
          let '(h1, r) := CreateSession h dataHome loaded (ds_session spec) staged created ru fault cleanup in
          match r with
          | Err e => (h1, Err e)
          | Ok (md, first) =>
              match SessionDir dataHome (md_id md) with
              | Err e => (h1, Err (EStored e))
              | Ok _ =>
                  let '(w, r2) := AppendEvent (md_id md) (mk_world (hm_sessions h1) md) (taskAssignedEvent md spec now) fault2 in
                  (set_sessions h1 (wd_sessions w),
                   stored ((fun second => (wd_md w, [first; second], false)) <$> r2))
              end
          end
      end
  end.

(** ** CreateCouncil *)

Record CouncilStartSpec := mk_council_start { cs_session : SessionSpec; cs_members : list string; cs_now : time }.

(** The session of a council: its type, roster and ids settled. *)
Definition council_session (spec : CouncilStartSpec) : result error SessionSpec :=
  let s := cs_session spec in
  let type := if sp_session_type s == "" then SessionTypeCouncil else sp_session_type s in
  reject type != SessionTypeCouncil with
    NewValidationError CategoryMetadataInvalid "session_type" "council new requires council session_type";;
  let moderator := trim_space (sp_moderator s) in
  reject moderator == "" with NewValidationError CategoryPrincipalInvalid "moderator" "moderator is required";;
  try members := canonicalCouncilMembers moderator (cs_members spec) in
  let eventID := if sp_event_id s == "" then eventIDFromCommand "evt_session_created" (sp_command_id s)
                 else sp_event_id s in
  let commandID := if sp_command_id s == "" then "cmd_council_new_" +:+ sp_id s else sp_command_id s in
  Ok (with_participants s type moderator (moderator :: members) eventID commandID).

(** The first event of an existing session, when it is the one this command
    would create. *)
Definition council_replay (md : SessionMetadata) (sd : session_dir) (loaded : LoadedRegistry) (session : SessionSpec)
    : result error EventEnvelope :=
  try ix := ReadLogIndex sd md in
  let created := sessionCreatedEvent (metadataFromSpec session loaded (md_created_at md)) session (md_created_at md) in
  let different := NewValidationError CategorySessionExists (sd_path sd) "session already exists with different council payload" in
  match ix_events ix with
  | e0 :: _ => ensure commandEquivalent e0 created or different;; Ok e0
  | [] => Err different
  end.

Definition CreateCouncil (h : home) (dataHome : string) (loaded : LoadedRegistry) (spec : CouncilStartSpec)
    (clock : time) (ru : Runtime) (fault : option create_fault) (cleanup : bool) : home * result session_error started :=
  match council_session spec with
  | Err e => (h, Err (EStored e))
  | Ok session =>
      let now := event_time clock (cs_now spec) in
      match existingSession h dataHome (sp_id session) with
      | Err e => (h, Err (EStored e))
      | Ok (Some (md, sd)) =>
          (h, stored (try e0 := council_replay md sd loaded session in Ok (md, [existing_result 0 e0], true)))
      | Ok None =>
          let '(h1, r) := CreateSession h dataHome (Some loaded) session now now ru fault cleanup in
          (h1, try made := r in Ok (made.1, [made.2], false))
      end
  end.

(** A member that exists by name alone. *)
Definition bare_member (id : string) : Member :=
  mk_member id "" "" "" "" false "" [] [] "" "" None "" None.

Definition add_principal (members : gmap string Member) (id : string) : gmap string Member :=
  match members !! id with
  | Some _ => members
  | None => <[id := bare_member id]> members
  end.

Definition cloneLoadedRegistryWithPrincipals (loaded : LoadedRegistry) (principals : list string) : LoadedRegistry :=
  let rg := ld_registry loaded in
  mk_loaded (ld_data_home loaded) (ld_source_path loaded) (ld_sha256 loaded) (ld_uid loaded)
    (mk_registry (rg_schema rg) (foldl add_principal (rg_members rg) principals) (rg_allowlist rg) (rg_secrets rg))
    (ld_content loaded).

Definition CouncilReconcilePrincipals (h : home) (dataHome : string) (loaded : option LoadedRegistry)
    (spec : CouncilStartSpec) (ru : Runtime) : result session_error (list string) :=
  match loaded with
  | None => Err (session_fail CategorySnapshotRequired "registry" "loaded registry is required")
  | Some loaded =>
      try session := stored (council_session spec) in
      let preflight := cloneLoadedRegistryWithPrincipals loaded (sp_participants session) in
      try _ := stored (validateSessionSpec preflight session) in
      try existing := stored (existingSession h dataHome (sp_id session)) in
      match existing with
      | Some (md, sd) => stored (try _ := council_replay md sd preflight session in Ok [])
      | None =>
          try active := FindActiveSession h dataHome ru in
          match active with
          | Some s => Err (active_conflict s)
          | None => Ok (sp_participants session)
          end
      end
  end.

(** ** The council.new request, from the point where its specification is built *)

Section handler.
Variable compile_error : string -> option string.
Variable digest : registry_doc -> string.
Variable opened : file_info -> file_info.
Variable new_file : file_info.
Variable meanwhile : reg_world -> reg_world.

Definition set_registry (h : home) (w : reg_world) : home := mk_home w (hm_sessions h) (hm_snapshots h).

(** [registry_fault] and [fault] are the faults of reconciling and of creating.
    The result has the report of the members added. *)
Definition handleCouncilNew (h : home) (dataHome : string) (spec : CouncilStartSpec) (clock : time) (ru : Runtime)
    (registry_fault : bool) (fault : option create_fault) (cleanup : bool)
    : home * result session_error (started * ReconcileReport) :=
  match lift_registry (Load compile_error digest (hm_reg h) opened dataHome ru) with
  | Err e => (h, Err e)
  | Ok loaded =>
      match CouncilReconcilePrincipals h dataHome (Some loaded) spec ru with
      | Err e => (h, Err e)
      | Ok principals =>
          let '(w, report, r) :=
            match principals with
            | [] => (hm_reg h, mk_report "" (ld_sha256 loaded) (ld_sha256 loaded) [], Ok loaded)
            | _ => ReconcileCouncilMembers compile_error digest opened new_file registry_fault meanwhile
                     (hm_reg h) dataHome principals ru
            end in
          let h1 := set_registry h w in
          match r with
          | Err e => (h1, Err (ERegistry e))
          | Ok loaded =>
              let '(h2, r2) := CreateCouncil h1 dataHome loaded spec clock ru fault cleanup in
              (h2, (fun s => (s, report)) <$> r2)
          end
      end
  end.

End handler.
