(* ===== verification/SessionTheory.v ===== *)
(** * Correctness of session creation

    Which specifications are accepted; a created session is whole or absent,
    whatever interrupts its creation; there is one live session at most. *)

From S2P Require Import Prelude Paths GoValue GoTime Model Ids Registry RegistryTheory Evidence Events EventLog LogSpec Delegation Lifecycle ArgumentGraph Council Session.

(** ** The specification *)

(** What an accepted specification of a session satisfies. *)
Record spec_ok (members : gmap string Member) (spec : SessionSpec) : Prop := mk_spec_ok {
  so_id : ValidateSessionID (sp_id spec) = Ok tt;
  so_type : sp_session_type spec = SessionTypeDelegation \/ sp_session_type spec = SessionTypeCouncil;
  so_title : is_blank (sp_title spec) = false;
  so_moderator : sp_moderator spec ∈ sp_participants spec;
  so_participants : NoDup (sp_participants spec);
  so_members : forall p, p ∈ sp_participants spec -> is_blank p = false /\ is_Some (members !! p);
  so_event : sp_event_id spec <> "";
  so_surface : forall s, sp_surface spec = Some s -> su_kind s = "discord_thread" -> is_blank (su_thread_id s) = false;
  so_turn_mode : sp_turn_mode spec = "" \/ validTurnMode (sp_turn_mode spec) = true;
  so_required : forall e, sp_timeout_evidence spec = Some e -> te_policy_required e = true ->
    0 < te_configured_timeout_sec e /\ 0 < te_effective_timeout_sec e /\ is_blank (te_effective_source e) = false;
  so_alternative : forall e, sp_timeout_evidence spec = Some e -> te_approved_alternative e = true ->
    is_blank (te_approval_basis e) = false;
  so_limits : sp_session_type spec = SessionTypeCouncil ->
    validateDiscussionLifecycleLimits (sp_limits spec) = Ok tt /\ validateDiscussionQualityLimits (sp_limits spec) = Ok tt }.

Lemma is_some_false {A} (o : option A) `{!Decision (o = None)} : bool_decide (o = None) = false <-> is_Some o.
Proof. rewrite bool_decide_eq_false. by destruct o; split; [eauto| |intros []|intros [? ?]]. Qed.

Lemma participant_issues_nil members seen l :
  participant_issues members seen l = [] <->
  NoDup l /\ forall p, p ∈ l -> p ∉ seen /\ is_blank p = false /\ is_Some (members !! p).
Proof.
  revert seen. induction l as [|x l IH]; intros seen; simpl.
  { split; [intros _; split; [constructor | by intros p Hp%elem_of_nil] | done]. }
  destruct (is_blank x) eqn:Hb.
  - split; [done|]. intros [_ H]. destruct (H x) as (_ & H' & _); [set_solver | congruence].
  - rewrite !app_nil, !issue_when_nil, IH, is_some_false, NoDup_cons. split.
    + intros (Hx & Hm & Hnd & Hl). assert (Hs : x ∉ seen) by (intros Hin; apply mem_str_spec in Hin; congruence).
      split; [split; [|done]; intros Hin; destruct (Hl x Hin) as [Hn _]; set_solver|].
      intros p [->|Hp]%elem_of_cons; [done|]. destruct (Hl p Hp) as (Hn & ?). set_solver.
    + intros ([Hn Hnd] & H). split; [|split; [|split; [done|]]].
      * apply not_true_iff_false. intros Hin%mem_str_spec. destruct (H x); set_solver.
      * apply H. set_solver.
      * intros p Hp. destruct (H p) as (? & ?); [set_solver|]. split; [|done]. intros [->|?]%elem_of_cons; done.
Qed.

(** An issue with a category is an issue: only success has none. *)
Lemma result_issues_nil {A} (r : result error A) : (forall e, r = Err e -> Issues e <> []) -> result_issues r = [] <-> is_ok r = true.
Proof. destruct r as [a|e]; simpl; intros H; split; try done. intros Hn. by destruct (H e). Qed.

Lemma is_ok_unit (r : result error unit) : is_ok r = true <-> r = Ok tt.
Proof. destruct r as [[]|]; by split. Qed.

Lemma timeout_issues_nil o :
  timeout_evidence_issues o = [] <->
  (forall e, o = Some e -> te_policy_required e = true ->
    0 < te_configured_timeout_sec e /\ 0 < te_effective_timeout_sec e /\ is_blank (te_effective_source e) = false) /\
  (forall e, o = Some e -> te_approved_alternative e = true -> is_blank (te_approval_basis e) = false).
Proof.
  unfold timeout_evidence_issues. destruct o as [e|]; [|done]. rewrite !app_nil, !issue_when_nil, !andb_false_iff, !Z.leb_gt.
  split.
  - intros (H1 & H2 & H3 & H4). split; intros e' [= <-] He; rewrite He in *; intuition congruence.
  - intros [H1 H2]. specialize (H1 e eq_refl). specialize (H2 e eq_refl).
    destruct (te_policy_required e), (te_approved_alternative e); intuition.
Qed.

(** An error of a chain of checks is one of the errors written there. *)
Ltac no_issue :=
  intros; repeat match goal with H : _ = Err _ |- _ => progress (run_step H) end; subst; done.

Lemma session_id_issues id : result_issues (ValidateSessionID id) = [] <-> ValidateSessionID id = Ok tt.
Proof. rewrite result_issues_nil; [apply is_ok_unit|]. intros e. unfold ValidateSessionID. no_issue. Qed.

Lemma lifecycle_limits_issues l :
  result_issues (validateDiscussionLifecycleLimits l) = [] <-> validateDiscussionLifecycleLimits l = Ok tt.
Proof. rewrite result_issues_nil; [apply is_ok_unit|]. intros e. unfold validateDiscussionLifecycleLimits. no_issue. Qed.

Lemma quality_limits_issues l :
  result_issues (validateDiscussionQualityLimits l) = [] <-> validateDiscussionQualityLimits l = Ok tt.
Proof.
  rewrite result_issues_nil; [apply is_ok_unit|]. intros e.
  unfold validateDiscussionQualityLimits, resolveDiscussionQualityPolicy. no_issue.
Qed.

Lemma surface_issue (o : option Surface) :
  match o with Some s => (su_kind s == "discord_thread") && is_blank (su_thread_id s) | None => false end = false <->
  forall s, o = Some s -> su_kind s = "discord_thread" -> is_blank (su_thread_id s) = false.
Proof.
  destruct o as [s|]; [|done]. rewrite andb_false_iff, String.eqb_neq. split.
  - intros H s' [= <-] Hk. by destruct H.
  - intros H. destruct (decide (su_kind s = "discord_thread")); [right; by apply H | by left].
Qed.

Lemma council_limits_issues spec :
  (if sp_session_type spec == SessionTypeCouncil
   then result_issues (validateDiscussionLifecycleLimits (sp_limits spec)) ++
        result_issues (validateDiscussionQualityLimits (sp_limits spec))
   else []) = [] <->
  (sp_session_type spec = SessionTypeCouncil ->
    validateDiscussionLifecycleLimits (sp_limits spec) = Ok tt /\ validateDiscussionQualityLimits (sp_limits spec) = Ok tt).
Proof.
  destruct (String.eqb_spec (sp_session_type spec) SessionTypeCouncil) as [E|E]; [|by split].
  rewrite app_nil, lifecycle_limits_issues, quality_limits_issues. split; [done | intros H; by apply H].
Qed.

Lemma valid_type t : negb (validSessionType t) = false <-> t = SessionTypeDelegation \/ t = SessionTypeCouncil.
Proof. unfold validSessionType. by rewrite negb_false_iff, orb_true_iff, !String.eqb_eq. Qed.

Lemma mode_issue mode : (mode != "") && negb (validTurnMode mode) = false <-> mode = "" \/ validTurnMode mode = true.
Proof. by rewrite andb_false_iff, !negb_false_iff, String.eqb_eq. Qed.

Lemma spec_issues_nil members spec : spec_issues members spec = [] <-> spec_ok members spec.
Proof.
  unfold spec_issues. rewrite !app_nil, !issue_when_nil, session_id_issues, valid_type, participant_issues_nil,
    timeout_issues_nil, council_limits_issues, surface_issue, mode_issue, is_some_false, negb_false_iff, mem_str_spec,
    Z.eqb_neq, String.eqb_neq.
  split.
  - intros (? & ? & ? & _ & _ & ? & [? Hp] & _ & ? & ? & ? & [? ?] & ?). constructor; try done. intros p Hin. by apply Hp.
  - intros H. destruct (so_members _ _ H _ (so_moderator _ _ H)) as [Hb Hm].
    pose proof (so_moderator _ _ H) as Hin. split_and!; try (by apply H); try done.
    + intros Hlen. destruct (sp_participants spec); [by apply elem_of_nil in Hin | unfold len_z in Hlen; simpl in Hlen; lia].
    + intros p Hp. split; [by intros ?%elem_of_nil | by apply H].
Qed.

(** A session specification is accepted exactly when its id is safe, its type
    known, its title and event id are given, its participants are distinct
    members of the registry with the moderator among them, a Discord thread has
    its id, the turn mode is known or absent, the evidence of the runner timeout
    has what its flags require, and the limits of a council are sound; a refusal
    lists at least one issue. *)
Theorem session_spec_accepted loaded spec :
  (validateSessionSpec loaded spec = Ok tt <-> spec_ok (rg_members (ld_registry loaded)) spec) /\
  (forall e, validateSessionSpec loaded spec = Err e -> Issues e = spec_issues (rg_members (ld_registry loaded)) spec /\ Issues e <> []).
Proof.
  rewrite <- spec_issues_nil. unfold validateSessionSpec. destruct (spec_issues _ _) eqn:E; split; try done.
  by intros e [= <-].
Qed.

(** ** The search for the live session *)

Lemma sorted_entries_nodup {A} (m : gmap string A) : NoDup (sorted_entries m).
Proof. unfold sorted_entries. rewrite (merge_sort_Permutation _ (map_to_list m)). apply NoDup_map_to_list. Qed.

(** No entry that is looked at is live. *)
Definition none_active (dataHome : string) (ss : sessions) : Prop :=
  forall name sd, ss !! name = Some sd -> searched (name, sd) = true -> active_entry dataHome (name, sd) = Ok None.

Lemma find_active_skips d active l :
  (forall p, p ∈ l -> searched p = true -> active_entry d p = Ok None) -> find_active d active l = Ok active.
Proof.
  induction l as [|p l IH]; intros H; simpl; [done|].
  destruct (searched p) eqn:Hs; simpl; [rewrite (H p) by (done || set_solver); simpl|]; apply IH; set_solver.
Qed.

Lemma find_active_keeps d s l : find_active d (Some s) l <> Ok None.
Proof.
  induction l as [|q l IH]; simpl; [done|]. destruct (searched q); simpl; [|done].
  by destruct (active_entry d q) as [[]|].
Qed.

Lemma find_active_none d ss : find_active d None (sorted_entries ss) = Ok None <-> none_active d ss.
Proof.
  unfold none_active. split.
  - intros H name sd Hin Hs. apply sorted_entries_elem in Hin. revert H Hin.
    generalize (sorted_entries ss) as l. induction l as [|p l IH]; intros H Hin; [by apply elem_of_nil in Hin|].
    simpl in H. destruct (searched p) eqn:Hp; simpl in H.
    + destruct (active_entry d p) as [[s|]|] eqn:He; simpl in H; [by apply find_active_keeps in H | | done].
      apply elem_of_cons in Hin as [<-|Hin]; [done | by apply IH].
    + apply elem_of_cons in Hin as [<-|Hin]; [congruence | by apply IH].
  - intros H. apply find_active_skips. intros [name sd] Hin. by apply H, sorted_entries_elem.
Qed.

Lemma find_active_one d l p s :
  NoDup l -> p ∈ l -> searched p = true -> active_entry d p = Ok (Some s) ->
  (forall q, q ∈ l -> q <> p -> searched q = true -> active_entry d q = Ok None) ->
  find_active d None l = Ok (Some s).
Proof.
  induction l as [|q l IH]; intros Hnd Hin Hp Hs Hother; [by apply elem_of_nil in Hin|].
  apply NoDup_cons in Hnd as [Hq Hnd]. apply elem_of_cons in Hin as [<-|Hin]; simpl.
  - rewrite Hp, Hs. simpl. apply find_active_skips. intros q Hql. apply Hother; set_solver.
  - destruct (searched q) eqn:Hsq; simpl; [rewrite (Hother q) by (done || set_solver); simpl|]; apply IH; set_solver.
Qed.

(** A live entry among terminal ones is the one that is found. *)
Lemma find_active_new d ss name sd s :
  none_active d ss -> searched (name, sd) = true -> active_entry d (name, sd) = Ok (Some s) ->
  find_active d None (sorted_entries (<[name := sd]> ss)) = Ok (Some s).
Proof.
  intros Hnone Hs Ha. apply (find_active_one _ _ (name, sd)); try done; [apply sorted_entries_nodup | |].
  - apply sorted_entries_elem, lookup_insert_eq.
  - intros [n x] Hin Hne Hq. apply sorted_entries_elem, lookup_insert_Some in Hin as [[-> <-]|[_ Hin]]; [done|].
    by apply Hnone.
Qed.

(** ** The staging directory *)

(** The directory of a session that has just been created. *)
Definition created_dir (path : string) (md : SessionMetadata) (e : EventEnvelope) : session_dir :=
  mk_session_dir path false true (Some (mk_channel NRegular [LineEvent false e] false)) (Some md).

(** What the first append leaves of a directory. *)
Definition first_event (spec : SessionSpec) (loaded : LoadedRegistry) (now : time) : EventEnvelope :=
  let md := metadataFromSpec spec loaded now in appended md empty_index (sessionCreatedEvent md spec now).

Lemma append_frame name w e f w' r :
  AppendEvent name w e f = (w', r) ->
  forall n, n <> name -> wd_sessions w' !! n = wd_sessions w !! n.
Proof.
  intros H n Hn. apply AppendEvent_cases in H as [[-> _]|(sd & ix & sd' & md' & _ & _ & _ & ->)]; [done|].
  simpl. by rewrite lookup_insert_ne.
Qed.

Lemma append_names name w e f w' r sd :
  AppendEvent name w e f = (w', r) -> wd_sessions w !! name = Some sd ->
  wd_sessions w' = <[name := default sd (wd_sessions w' !! name)]> (wd_sessions w).
Proof.
  intros H Hsd. apply AppendEvent_cases in H as [[-> _]|(sd1 & ix & sd' & md' & _ & _ & _ & ->)]; simpl.
  - by rewrite Hsd, insert_id.
  - by rewrite lookup_insert_eq.
Qed.

(** Projecting the creation event changes nothing. *)
Lemma project_created spec loaded now e :
  ev_phase e = PhaseCreated -> ev_turn e = None -> ev_type e = "session_created" ->
  project_metadata (metadataFromSpec spec loaded now) e = metadataFromSpec spec loaded now.
Proof. intros Hp Ht Hty. unfold project_metadata. rewrite Hp, Ht, Hty. reflexivity. Qed.

Lemma first_append staging ss stagingDir spec loaded now f w' a :
  let md := metadataFromSpec spec loaded now in
  ss !! staging = Some (set_yaml (new_dir stagingDir) md) ->
  AppendEvent staging (mk_world ss md) (sessionCreatedEvent md spec now) f = (w', Ok a) ->
  wd_sessions w' = <[staging := created_dir stagingDir md (first_event spec loaded now)]> ss /\ wd_md w' = md /\
  a = mk_append_result (cursorFor 0 (sp_event_id spec)) 0 (sp_event_id spec) /\
  ReadLogIndex (created_dir stagingDir md (first_event spec loaded now)) md =
    Ok (index_add empty_index (first_event spec loaded now)).
Proof.
  intros md Hsd H. apply AppendEvent_cases in H as [[_ ?]|(sd & ix & sd' & md' & Hsd' & Hc & Hio & ->)]; [done|].
  simpl in Hsd', Hc, Hio. rewrite Hsd in Hsd'. injection Hsd' as <-.
  pose proof (append_checks_ok _ _ _ _ _ _ _ Hc) as (Hr & _). injection Hr as <-.
  pose proof (append_checks_extend _ _ _ _ _ _ _ Hc) as Hext. cbv zeta in Hext.
  rewrite prepare_non_speech in * by done.
  destruct f as [[]|]; try done. injection Hio as <- <- <-.
  assert (Hmd : project_metadata md (finish_event (sessionCreatedEvent md spec now)) = md).
  { pose proof (finish_event_fields (sessionCreatedEvent md spec now)) as Hf. cbv zeta in Hf. destruct_and!.
    by apply project_created. }
  rewrite Hmd. split; [done|]. split; [done|]. split; [|exact Hext].
  pose proof (finish_event_fields (sessionCreatedEvent md spec now)) as Hf. cbv zeta in Hf. destruct Hf as [Hf _].
  by rewrite Hf.
Qed.

(** A session that is whole, under the name [name] at [path]. *)
Record made (h : home) (name path : string) (loaded : LoadedRegistry) (spec : SessionSpec) (now : time)
    (a : AppendResult) : Prop := mk_made {
  ma_dir : hm_sessions h !! name = Some (created_dir path (metadataFromSpec spec loaded now) (first_event spec loaded now));
  ma_reads : ReadLogIndex (created_dir path (metadataFromSpec spec loaded now) (first_event spec loaded now))
    (metadataFromSpec spec loaded now) = Ok (index_add empty_index (first_event spec loaded now));
  ma_snapshot : hm_snapshots h !! name = Some (SnapDoc (snapshot_of loaded now));
  ma_result : a = mk_append_result (cursorFor 0 (sp_event_id spec)) 0 (sp_event_id spec) }.

(** Only the entry [name] differs. *)
Definition same_but (name : string) (h h' : home) : Prop :=
  hm_reg h' = hm_reg h /\ forall n, n <> name -> hm_sessions h' !! n = hm_sessions h !! n /\ hm_snapshots h' !! n = hm_snapshots h !! n.

(** The append that ends the filling of the staging directory. *)
Lemma append_staged h h1 staging stagingDir loaded spec now f w r md :
  md = metadataFromSpec spec loaded now -> same_but staging h h1 ->
  hm_sessions h1 !! staging = Some (set_yaml (new_dir stagingDir) md) ->
  hm_snapshots h1 !! staging = Some (SnapDoc (snapshot_of loaded now)) ->
  AppendEvent staging (mk_world (hm_sessions h1) md) (sessionCreatedEvent md spec now) f = (w, r) ->
  let h' := set_sessions h1 (wd_sessions w) in
  same_but staging h h' /\
  forall a, r = Ok a -> wd_md w = md /\ made h' staging stagingDir loaded spec now a.
Proof.
  intros -> [Hreg Hsame] Hdir Hsnap Ha. pose proof (append_frame _ _ _ _ _ _ Ha) as Hframe. split.
  - split; [done|]. intros n Hn. cbn. rewrite Hframe by done. by apply Hsame.
  - intros a ->. apply (first_append staging _ stagingDir) in Ha as (Hss & Hmd & -> & Hread); [|done]. split; [done|].
    constructor; try done. cbn. rewrite Hss. apply lookup_insert_eq.
Qed.

Lemma fill_staging_ok h staging stagingDir loaded spec now ru fault h' r :
  hm_sessions h !! staging = Some (new_dir stagingDir) ->
  fill_staging h staging stagingDir loaded spec now ru fault = (h', r) ->
  same_but staging h h' /\
  forall md a, r = Ok (md, a) -> md = metadataFromSpec spec loaded now /\ made h' staging stagingDir loaded spec now a.
Proof.
  intros Hdir H. unfold fill_staging in H. cbv zeta in H.
  destruct (WriteSnapshotAtomic _ _ _ _ _ _) as [sw [[]|e1]] eqn:Hw; cycle 1.
  { injection H as <- <-. split; [|done]. destruct (sw_docs sw !! _); [|by split].
    split; [done|]. intros n Hn. cbn. by rewrite lookup_insert_ne. }
  apply write_snapshot_ok in Hw as [_ Hdoc]. cbv zeta in Hdoc. rewrite Hdoc in H. cbn [put_snapshot_file] in H.
  set (h1 := mk_home _ _ _) in H. set (written := set_sessions _ _) in H.
  assert (Hh1 : same_but staging h h1).
  { split; [done|]. intros n Hn. cbn. by rewrite lookup_insert_ne. }
  assert (Hwritten : same_but staging h written).
  { split; [done|]. intros n Hn. cbn. by rewrite !lookup_insert_ne. }
  assert (Hend : forall f, (let '(w, r2) := AppendEvent staging (mk_world (hm_sessions written) (metadataFromSpec spec loaded now))
      (sessionCreatedEvent (metadataFromSpec spec loaded now) spec now) f in
    (set_sessions written (wd_sessions w), (fun a => (wd_md w, a)) <$> r2)) = (h', r) ->
    same_but staging h h' /\
    forall md a, r = Ok (md, a) -> md = metadataFromSpec spec loaded now /\ made h' staging stagingDir loaded spec now a).
  { intros f. destruct (AppendEvent staging _ _ f) as [w r2] eqn:Ha. intros [= <- <-].
    apply (append_staged h written _ stagingDir loaded) in Ha as [Hs Hok]; try done; [|apply lookup_insert_eq..].
    split; [done|]. intros md a Hr. destruct r2 as [a'|]; [|done]. cbn in Hr. injection Hr as <- <-. by apply Hok. }
  destruct fault as [[]|]; try solve [exact (Hend None H) | exact (Hend (Some f) H)].
  all: match type of H with ((if ?b then _ else _), _) = _ => destruct b end; injection H as <- <-; by split.
Qed.

(** ** Renaming it *)

Lemma read_lines_path md path path' i l ix ix' :
  read_lines md path i l ix = Ok ix' -> read_lines md path' i l ix = Ok ix'.
Proof.
  revert i ix. induction l as [|[|m|st e] l IH]; intros i ix H; simpl in *; try done.
  do 2 run_step H. run_step H. simpl. by apply IH.
Qed.

Lemma moved_reads sd md path ix : ReadLogIndex sd md = Ok ix -> ReadLogIndex (moved sd path) md = Ok ix.
Proof.
  unfold ReadLogIndex, safeSessionDirForAppend, channel_path. cbn [moved sd_symlink sd_is_dir sd_channel sd_path]. intros H.
  run_step H. destruct (sd_symlink sd), (sd_is_dir sd); try done. simpl.
  destruct (sd_channel sd) as [c|]; [|done]. destruct (ch_kind c); try done. run_step H. by eapply read_lines_path.
Qed.

Lemma safe_id_prefix id : ValidateSessionID id = Ok tt -> has_prefix id "." = false.
Proof.
  unfold ValidateSessionID. intros H. do 3 (run_step H). apply negb_false_iff in Hguard1. destruct id as [|a id]; [done|].
  unfold has_prefix in *. cbn [drop_prefix] in *.
  match type of Hguard1 with context [if Ascii.eqb ?c a then _ else _] => destruct (Ascii.eqb_spec c a) as [<-|]; [|done] end.
  by destruct id.
Qed.

Lemma not_staging name : has_prefix name "." = false -> has_prefix name ".tmp-" = false.
Proof. unfold has_prefix. destruct name as [|c s]; [done|]. cbn [drop_prefix]. by destruct (Ascii.eqb _ c). Qed.

Lemma staging_hidden id staged : has_prefix (staging_name id staged) ".tmp-" = true /\ has_prefix (staging_name id staged) "." = true.
Proof. unfold staging_name, has_prefix. by split. Qed.

(** Renaming puts the made session into the home as it was before staging. *)
Lemma rename_made h h2 staging stagingDir finalDir loaded spec now a :
  hm_sessions h !! staging = None -> staging <> sp_id spec -> same_but staging h h2 ->
  made h2 staging stagingDir loaded spec now a ->
  let h' := rename_session h2 staging (sp_id spec) finalDir in
  hm_reg h' = hm_reg h /\ made h' (sp_id spec) finalDir loaded spec now a /\
  hm_sessions h' = <[sp_id spec := created_dir finalDir (metadataFromSpec spec loaded now) (first_event spec loaded now)]>
                     (hm_sessions h) /\
  forall n, n <> sp_id spec -> n <> staging -> hm_snapshots h' !! n = hm_snapshots h !! n.
Proof.
  intros Hnone Hne [Hreg Hsame] Hm. unfold rename_session. rewrite (ma_dir _ _ _ _ _ _ _ Hm), (ma_snapshot _ _ _ _ _ _ _ Hm).
  cbn [hm_reg hm_sessions hm_snapshots set_sessions]. split; [done|].
  assert (Hdel : delete staging (hm_sessions h2) = hm_sessions h).
  { apply map_eq. intros n. destruct (decide (n = staging)) as [->|Hn]; [by rewrite lookup_delete_eq|].
    rewrite lookup_delete_ne by done. by apply Hsame. }
  split; [|split; [by rewrite Hdel|]].
  2: { intros n Hn Hn'. rewrite lookup_insert_ne, lookup_delete_ne by done. by apply Hsame. }
  constructor; cbn [hm_sessions hm_snapshots]; [by rewrite lookup_insert_eq | |by rewrite lookup_insert_eq | apply Hm].
  apply (moved_reads _ _ finalDir), Hm.
Qed.

(** What staging comes to: nothing visible, or the whole session. *)
Lemma stage_outcome h root finalDir loaded spec staged now ru fault cleanup h' r :
  ValidateSessionID (sp_id spec) = Ok tt ->
  stage_session h root finalDir loaded spec staged now ru fault cleanup = (h', r) ->
  let staging := staging_name (sp_id spec) staged in
  (same_but staging h h' /\ is_ok r = false) \/
  exists a, hm_reg h' = hm_reg h /\ made h' (sp_id spec) finalDir loaded spec now a /\
    hm_sessions h !! sp_id spec = None /\
    hm_sessions h' = <[sp_id spec := created_dir finalDir (metadataFromSpec spec loaded now) (first_event spec loaded now)]>
                       (hm_sessions h) /\
    (forall n, n <> sp_id spec -> n <> staging -> hm_snapshots h' !! n = hm_snapshots h !! n) /\
    (r = Ok (metadataFromSpec spec loaded now, a) \/ fault = Some FaultSyncRoot /\ is_ok r = false).
Proof.
  intros Hid H staging. unfold stage_session in H. fold staging in H. cbv zeta in H.
  assert (Hne : staging <> sp_id spec).
  { intros E. apply safe_id_prefix in Hid. destruct (staging_hidden (sp_id spec) staged) as [_ Hh]. fold staging in Hh. congruence. }
  destruct (negb (pathContains _ _)); [injection H as <- <-; left; by split|].
  destruct (hm_sessions h !! staging) as [sd|] eqn:Hnone.
  { assert (Hm : (match fault with Some FaultMkdirStaging | _ => true end) = true) by (by destruct fault as [[]|]).
    destruct fault as [[]|]; injection H as <- <-; left; by split. }
  destruct (match fault with Some FaultMkdirStaging => true | _ => false end) eqn:Hmk.
  { destruct fault as [[]|]; try done. injection H as <- <-. left; by split. }
  set (h1 := set_sessions h _) in H.
  assert (Hh1 : same_but staging h h1) by (split; [done|]; intros n Hn; cbn; by rewrite lookup_insert_ne).
  destruct (fill_staging h1 staging _ loaded spec now ru fault) as [h2 r2] eqn:Hf.
  apply fill_staging_ok in Hf as [Hsame Hmade]; [|apply lookup_insert_eq].
  assert (Hh2 : same_but staging h h2).
  { destruct Hh1 as [Hr1 Hs1], Hsame as [Hr2 Hs2]. split; [congruence|]. intros n Hn.
    destruct (Hs1 n Hn), (Hs2 n Hn). split; congruence. }
  assert (Hdrop : same_but staging h (drop_staging h2 cleanup staging)).
  { destruct cleanup; [|done]. split; [apply Hh2|]. intros n Hn. cbn. rewrite !lookup_delete_ne by done. by apply Hh2. }
  destruct r2 as [[md a]|]; cycle 1.
  { destruct fault as [[]|]; try done; injection H as <- <-; by left. }
  destruct (Hmade md a eq_refl) as [-> Hm]. unfold final_checks in H. cbn [stored mbind result_bind] in H.
  destruct (hm_sessions h2 !! sp_id spec) eqn:Hfree.
  { destruct fault as [[]|]; try done; injection H as <- <-; by left. }
  assert (Hfree' : hm_sessions h !! sp_id spec = None) by (destruct Hh2 as [_ Hs]; rewrite <- Hfree; symmetry; by apply Hs).
  destruct (rename_made _ _ _ _ finalDir _ _ _ _ Hnone Hne Hh2 Hm) as (Hreg & Hmd & Hss & Hsn).
  destruct fault as [[]|]; try done; injection H as <- <-; try (by left);
    right; exists a; split_and!; try done; auto.
Qed.

(** ** CreateSession *)

(** Nothing happened, or the sessions root was made. *)
Definition rooted (dataHome : string) (ru : Runtime) (h h1 : home) : Prop :=
  h1 = h \/
  hm_fs h !! sessions_root dataHome = None /\ h1 = set_nodes h (<[sessions_root dataHome := private_dir ru]> (hm_fs h)).

Lemma rooted_same dataHome ru h h1 :
  rooted dataHome ru h h1 -> hm_sessions h1 = hm_sessions h /\ hm_snapshots h1 = hm_snapshots h /\ rw_doc (hm_reg h1) = rw_doc (hm_reg h).
Proof. by intros [->|[_ ->]]. Qed.

(** The ways CreateSession can go. *)
Lemma create_outcome h dataHome loaded spec staged now ru fault cleanup h' r :
  CreateSession h dataHome (Some loaded) spec staged now ru fault cleanup = (h', r) ->
  (rooted (Clean dataHome) ru h h' /\ is_ok r = false) \/
  exists h1 root finalDir,
    create_checks h (Clean dataHome) loaded spec ru = Ok tt /\ rooted (Clean dataHome) ru h h1 /\
    is_Some (hm_fs h1 !! sessions_root (Clean dataHome)) /\ root = sessions_root (Clean dataHome) /\
    SessionDir (Clean dataHome) (sp_id spec) = Ok finalDir /\
    FindActiveSession h1 (Clean dataHome) ru = Ok None /\
    stage_session h1 root finalDir loaded spec staged now ru fault cleanup = (h', r).
Proof.
  unfold CreateSession. cbv zeta. intros H.
  destruct (create_checks _ _ _ _ _) as [[]|] eqn:Hchecks; [|injection H as <- <-; left; split; [by left|done]].
  destruct (ensureSessionsRoot _ _ _ _) as [h1 [root|e]] eqn:Hroot.
  - assert (Hr : rooted (Clean dataHome) ru h h1 /\ is_Some (hm_fs h1 !! sessions_root (Clean dataHome)) /\
                 root = sessions_root (Clean dataHome)).
    { unfold ensureSessionsRoot in Hroot. cbv zeta in Hroot. destruct (hm_fs h !! _) as [info|] eqn:Hn.
      - destruct (fi_kind info); try done; destruct (negb (is_dir info)), (group_writable info); try done;
          injection Hroot as <- <-; (split; [by left|]); by rewrite Hn.
      - destruct (match fault with Some FaultMkdirRoot => true | _ => false end); [done|]. injection Hroot as <- <-.
        split; [by right|]. cbn. by rewrite lookup_insert_eq. }
    destruct Hr as (Hr & Hsome & ->). destruct (admit_session _ _ _ _) as [finalDir|e] eqn:Ha.
    + right. exists h1, (sessions_root (Clean dataHome)), finalDir. unfold admit_session in Ha.
      destruct (SessionDir _ _) as [dir|] eqn:Hd; [|done]. cbn [stored mbind result_bind] in Ha. run_step Ha.
      destruct (FindActiveSession _ _ _) as [[s|]|] eqn:Hact; try done. cbn [mbind result_bind] in Ha. injection Ha as <-.
      by split_and!.
    + injection H as <- <-. by left.
  - injection H as <- <-. left. split; [|done]. unfold ensureSessionsRoot in Hroot. cbv zeta in Hroot.
    destruct (hm_fs h !! _) as [info|]; [injection Hroot as <- _; by left|].
    destruct (match fault with Some FaultMkdirRoot => true | _ => false end); [|done]. injection Hroot as <- _. by left.
Qed.

Lemma checks_spec h dataHome loaded spec ru :
  create_checks h dataHome loaded spec ru = Ok tt ->
  ValidateDataHome (hm_fs h) dataHome ru = Ok tt /\ spec_ok (rg_members (ld_registry loaded)) spec.
Proof.
  unfold create_checks. intros H. run_step H. do 2 run_step H. destruct (validateSessionSpec loaded spec) as [[]|] eqn:Hv; [|done].
  split.
  - destruct (ValidateDataHome _ _ _) as [[]|]; done.
  - apply spec_issues_nil. unfold validateSessionSpec in Hv. by destruct (spec_issues _ _).
Qed.

(** C14. A session is created whole or not at all: whatever the operating system
    refuses and wherever the process stops, with or without the removal of the
    staging directory, every entry that readers look at is as it was, except that
    the new session may be there, with its registry snapshot, its metadata and a
    log that reads as exactly the creation event; success means it is there, and
    it is there without success only when the last sync failed. *)
Theorem create_session_atomic h dataHome loaded spec staged now ru fault cleanup h' r :
  CreateSession h dataHome (Some loaded) spec staged now ru fault cleanup = (h', r) ->
  rw_doc (hm_reg h') = rw_doc (hm_reg h) /\
  (forall name, name <> sp_id spec -> has_prefix name ".tmp-" = false ->
    hm_sessions h' !! name = hm_sessions h !! name /\ hm_snapshots h' !! name = hm_snapshots h !! name) /\
  ((hm_sessions h' !! sp_id spec = hm_sessions h !! sp_id spec /\ is_ok r = false) \/
   exists finalDir a, hm_sessions h !! sp_id spec = None /\ SessionDir (Clean dataHome) (sp_id spec) = Ok finalDir /\
     spec_ok (rg_members (ld_registry loaded)) spec /\ made h' (sp_id spec) finalDir loaded spec now a /\
     (r = Ok (metadataFromSpec spec loaded now, a) \/ fault = Some FaultSyncRoot /\ is_ok r = false)).
Proof.
  intros H. apply create_outcome in H as [[Hr Hbad]|(h1 & root & finalDir & Hchecks & Hr & _ & _ & Hdir & _ & Hstage)];
    apply rooted_same in Hr as (Hss & Hsn & Hdoc).
  { split; [done|]. split; [by intros; rewrite Hss, Hsn|]. left. by rewrite Hss. }
  apply checks_spec in Hchecks as [_ Hspec]. pose proof (so_id _ _ Hspec) as Hid.
  destruct (staging_hidden (sp_id spec) staged) as [Hhid Hhid2].
  assert (Hne : staging_name (sp_id spec) staged <> sp_id spec).
  { intros E. apply safe_id_prefix in Hid. congruence. }
  apply stage_outcome in Hstage as [[[Hreg Hsame] Hbad]|(a & Hreg & Hmade & Hnone & Hh' & Hsnap & Hres)]; [..|done].
  - split; [by rewrite Hreg|]. rewrite <- Hss, <- Hsn. split; [|left; split; [by apply Hsame | done]].
    intros name _ Hp. apply Hsame. congruence.
  - split; [by rewrite Hreg|]. rewrite <- Hss, <- Hsn. split; [|right; by exists finalDir, a].
    intros name Hn Hp. rewrite Hh', lookup_insert_ne by done. split; [done|]. apply Hsnap; congruence.
Qed.

(** ** One live session at most *)

(** The entries of a sessions root that is not there. *)
Definition home_ok (h : home) (dataHome : string) : Prop :=
  hm_fs h !! sessions_root (Clean dataHome) = None -> hm_sessions h = ∅.

(** A data home whose sessions can be searched. *)
Definition searchable (h : home) (dataHome : string) (ru : Runtime) : Prop :=
  ValidateDataHome (hm_fs h) (Clean dataHome) ru = Ok tt /\
  exists info, hm_fs h !! sessions_root (Clean dataHome) = Some info /\ is_dir info = true.

Lemma find_searchable h dataHome ru :
  searchable h dataHome ru ->
  FindActiveSession h dataHome ru = stored (find_active (Clean dataHome) None (sorted_entries (hm_sessions h))).
Proof. intros (Hv & info & Hi & Hd). unfold FindActiveSession. by rewrite Hv, Hi; cbn [lift_registry mbind result_bind]; rewrite Hd. Qed.

Lemma find_ok h dataHome ru o :
  FindActiveSession h dataHome ru = Ok o ->
  ValidateDataHome (hm_fs h) (Clean dataHome) ru = Ok tt /\
  (hm_fs h !! sessions_root (Clean dataHome) = None /\ o = None \/
   searchable h dataHome ru /\ find_active (Clean dataHome) None (sorted_entries (hm_sessions h)) = Ok o).
Proof.
  unfold FindActiveSession, searchable. intros H. destruct (ValidateDataHome _ _ _) as [[]|]; [|done]. split; [done|].
  cbn [lift_registry mbind result_bind] in H. destruct (hm_fs h !! _) as [info|]; [|injection H as <-; by left].
  right. run_step H. apply negb_false_iff in Hguard. split; [split; [done|]; by exists info|].
  by destruct (find_active _ _ _); [injection H as <-|].
Qed.

Lemma none_active_searchable h dataHome ru :
  searchable h dataHome ru -> none_active (Clean dataHome) (hm_sessions h) -> FindActiveSession h dataHome ru = Ok None.
Proof. intros Hs H. rewrite find_searchable by done. by rewrite (proj2 (find_active_none _ _) H). Qed.

(** Making the sessions root leaves the data home valid. *)
Lemma rooted_searchable dataHome ru h h1 :
  ValidateDataHome (hm_fs h) (Clean dataHome) ru = Ok tt -> rooted (Clean dataHome) ru h h1 ->
  h1 = h \/ hm_fs h !! sessions_root (Clean dataHome) = None /\ searchable h1 dataHome ru.
Proof.
  intros Hv [->|[Hnone ->]]; [by left|]. right. split; [done|]. unfold searchable. cbn [hm_reg rw_fs set_nodes]. split.
  - unfold ValidateDataHome in *. destruct (decide (Clean dataHome = sessions_root (Clean dataHome))) as [E|E].
    + rewrite <- E, lookup_insert_eq. cbn. by rewrite Z.eqb_refl.
    + by rewrite lookup_insert_ne by done.
  - eexists. split; [apply lookup_insert_eq | done].
Qed.

Lemma created_active dataHome path loaded spec now :
  SessionDir dataHome (sp_id spec) = Ok path ->
  ReadLogIndex (created_dir path (metadataFromSpec spec loaded now) (first_event spec loaded now))
    (metadataFromSpec spec loaded now) = Ok (index_add empty_index (first_event spec loaded now)) ->
  active_entry dataHome (sp_id spec, created_dir path (metadataFromSpec spec loaded now) (first_event spec loaded now))
    = Ok (Some (mk_active (sp_id spec) PhaseCreated StatusOpen)).
Proof.
  intros Hdir Hread. unfold active_entry. cbn [fst snd]. rewrite Hdir. cbn [mbind result_bind].
  replace (LoadSessionYAML _) with (Ok (E := error) (metadataFromSpec spec loaded now)) by done.
  cbn [mbind result_bind]. rewrite Hread.
  cbn [mbind result_bind]. unfold latestPhase. cbn [index_add ix_events empty_index app last].
  pose proof (appended_fields (metadataFromSpec spec loaded now) empty_index
    (sessionCreatedEvent (metadataFromSpec spec loaded now) spec now)) as Hf. cbv zeta in Hf.
  destruct Hf as (_ & _ & _ & Hphase & _). unfold first_event. cbv zeta. rewrite Hphase. done.
Qed.

(** No live session: still none but for the one that was created. *)
Lemma stage_active h dataHome finalDir loaded spec staged now ru fault cleanup h' r :
  searchable h dataHome ru -> FindActiveSession h dataHome ru = Ok None -> ValidateSessionID (sp_id spec) = Ok tt ->
  SessionDir (Clean dataHome) (sp_id spec) = Ok finalDir ->
  stage_session h (sessions_root (Clean dataHome)) finalDir loaded spec staged now ru fault cleanup = (h', r) ->
  searchable h' dataHome ru /\
  (FindActiveSession h' dataHome ru = Ok None /\ is_ok r = false \/
   FindActiveSession h' dataHome ru = Ok (Some (mk_active (sp_id spec) PhaseCreated StatusOpen))).
Proof.
  intros Hs Hnone Hid Hdir H. rewrite find_searchable in Hnone by done.
  assert (Hn : none_active (Clean dataHome) (hm_sessions h)).
  { apply find_active_none. by destruct (find_active _ _ _); [injection Hnone as ->|]. }
  apply stage_outcome in H as [[[Hreg Hsame] Hbad]|(a & Hreg & Hmade & _ & Hh' & _)]; [..|done];
    (assert (Hs' : searchable h' dataHome ru) by (unfold searchable; by rewrite Hreg)); (split; [done|]).
  - left. split; [|done]. apply none_active_searchable; [done|]. intros name sd Hin Hsr. apply Hn; [|done].
    rewrite <- Hin. symmetry. apply Hsame. intros ->. destruct (staging_hidden (sp_id spec) staged) as [Hh _].
    unfold searched in Hsr. cbn [fst] in Hsr. rewrite Hh in Hsr. by rewrite andb_false_r in Hsr.
  - right. rewrite find_searchable, Hh' by done. rewrite (find_active_new _ _ _ _ (mk_active (sp_id spec) PhaseCreated StatusOpen));
      [done | done | | by apply created_active; [|apply Hmade]].
    unfold searched. cbn [fst snd created_dir sd_is_dir sd_symlink]. by rewrite not_staging by (by apply safe_id_prefix).
Qed.

(** C15. There is one live session at most: creating a session, whatever fails and
    wherever it stops, leaves a data home in which the search for the live
    session still succeeds and finds what it found before, except that where
    there was none it may find the new session, open and in its first phase;
    success means that there was none and that the new session is found. *)
Theorem create_keeps_single_active h dataHome loaded spec staged now ru fault cleanup h' r o :
  IsAbs dataHome = true -> home_ok h dataHome -> FindActiveSession h dataHome ru = Ok o ->
  CreateSession h dataHome (Some loaded) spec staged now ru fault cleanup = (h', r) ->
  let created := Some (mk_active (sp_id spec) PhaseCreated StatusOpen) in
  home_ok h' dataHome /\
  (FindActiveSession h' dataHome ru = Ok o /\ is_ok r = false \/
   o = None /\ FindActiveSession h' dataHome ru = Ok created).
Proof.
  intros Habs Hhome Hfind H created. pose proof (find_ok _ _ _ _ Hfind) as [Hv Ho].
  assert (Hroot : forall h1, rooted (Clean dataHome) ru h h1 -> home_ok h1 dataHome /\
    (FindActiveSession h1 dataHome ru = Ok o)).
  { intros h1 Hr. destruct (rooted_searchable _ _ _ _ Hv Hr) as [->|[Hnone Hs]]; [done|].
    destruct (rooted_same _ _ _ _ Hr) as (Hss & _ & _). destruct Ho as [[_ ->]|[[_ (info & Hi & _)] _]]; [|congruence].
    split; [by destruct Hs as (_ & info & Hi & _); intros ?; congruence|].
    apply none_active_searchable; [done|]. rewrite Hss, (Hhome Hnone). by intros ? ? ?%lookup_empty_Some. }
  apply create_outcome in H as [[Hr Hbad]|(h1 & root & finalDir & Hchecks & Hr & [info Hsome] & -> & Hdir & Hact & Hstage)].
  { destruct (Hroot _ Hr). split; [done|]. by left. }
  apply checks_spec in Hchecks as [_ Hspec]. destruct (Hroot _ Hr) as [_ Hfind1].
  assert (Hclean : FindActiveSession h1 (Clean dataHome) ru = FindActiveSession h1 dataHome ru)
    by (unfold FindActiveSession; by rewrite clean_idemp by done).
  rewrite Hclean, Hfind1 in Hact. injection Hact as ->.
  apply find_ok in Hfind1 as [_ [[Hno _]|[Hs Hf]]]; [congruence|].
  apply (stage_active _ dataHome) in Hstage as [(_ & info' & Hi & _) Hres]; [|done| |apply Hspec|done].
  - split; [intros ?; congruence|]. destruct Hres as [?|?]; [by left | by right].
  - rewrite find_searchable by done. by rewrite Hf.
Qed.

(** ** Concrete sessions *)

Definition sx_home : home := mk_home wx_world ∅ ∅.

Definition sx_spec : SessionSpec :=
  mk_spec "sess_a" SessionTypeDelegation "Report" "ann" ["ann"] None ∅ None None "" no_limits "evt_a" "cmd_a" "".

(** The session is made on 2026-01-02, unless it is cut. *)
Definition sx_run (fault : option create_fault) (cleanup : bool) : home * result session_error (SessionMetadata * AppendResult) :=
  CreateSession sx_home "/home/u/.atn" (Some wx_loaded) sx_spec 5 (1767323045 * second) wx_ru fault cleanup.

Example session_spec_accepted_witness : spec_ok (rg_members (ld_registry wx_loaded)) sx_spec.
Proof. apply (session_spec_accepted wx_loaded sx_spec). vm_compute. reflexivity. Defined.

Example create_session_atomic_witness :
  is_ok (sx_run None true).2 = true /\
  exists finalDir a, made (sx_run None true).1 "sess_a" finalDir wx_loaded sx_spec (1767323045 * second) a.
Proof.
  assert (Hok : is_ok (sx_run None true).2 = true) by (vm_compute; reflexivity). split; [exact Hok|].
  destruct (create_session_atomic sx_home "/home/u/.atn" wx_loaded sx_spec 5 (1767323045 * second) wx_ru None true
    (sx_run None true).1 (sx_run None true).2) as (_ & _ & [[_ Hbad]|(finalDir & a & _ & _ & _ & Hm & _)]).
  - apply surjective_pairing.
  - rewrite Hok in Hbad. discriminate Hbad.
  - exists finalDir, a. exact Hm.
Defined.

(** A process that dies before the rename leaves its staging directory, which
    nobody looks at. *)
Example dead_before_rename :
  map fst (sorted_entries (hm_sessions (sx_run (Some FaultRename) false).1)) = [".tmp-sess_a-5"] /\
  FindActiveSession (sx_run (Some FaultRename) false).1 "/home/u/.atn" wx_ru = Ok None.
Proof. split; vm_compute; reflexivity. Qed.

Example create_keeps_single_active_witness :
  FindActiveSession (sx_run (Some FaultSyncRoot) true).1 "/home/u/.atn" wx_ru = Ok None /\ is_ok (sx_run (Some FaultSyncRoot) true).2 = false \/
  FindActiveSession (sx_run (Some FaultSyncRoot) true).1 "/home/u/.atn" wx_ru = Ok (Some (mk_active "sess_a" PhaseCreated StatusOpen)).
Proof.
  destruct (create_keeps_single_active sx_home "/home/u/.atn" wx_loaded sx_spec 5 (1767323045 * second) wx_ru
    (Some FaultSyncRoot) true (sx_run (Some FaultSyncRoot) true).1 (sx_run (Some FaultSyncRoot) true).2 None)
    as [_ [H|[_ H]]]; [reflexivity | intros _; reflexivity | vm_compute; reflexivity | apply surjective_pairing | left; exact H | right; exact H].
Defined.
