(* ===== verification/StartTheory.v ===== *)
(** * Correctness of starting a council

    The council.new request joins the registry and the sessions: what its success
    says of both. *)

From S2P Require Import Prelude Paths GoValue GoTime Model Ids Registry RegistryTheory Evidence Events EventLog LogSpec Fixtures Delegation Council Session SessionStart SessionTheory.

(** ** The roster *)

Lemma canonical_members_trimmed moderator seen raw members :
  canonical_members moderator seen raw = Ok members -> Forall (fun p => trim_space p = p) members.
Proof.
  revert seen members. induction raw as [|v raw IH]; intros seen members H; simpl in H; [injection H as <-; constructor|].
  do 5 run_step H. apply ok_inj in H as <-. constructor; [apply trim_space_idemp | by eapply IH].
Qed.

Lemma council_session_ok spec session :
  council_session spec = Ok session ->
  sp_session_type session = SessionTypeCouncil /\ sp_participants session <> [] /\
  sp_id session = sp_id (cs_session spec) /\ Forall (fun p => trim_space p = p) (sp_participants session).
Proof.
  unfold council_session. cbv zeta. intros H. do 3 run_step H. apply ok_inj in H as <-. cbn. bool_prop.
  split_and!; try done. unfold canonicalCouncilMembers in Hrun. do 3 run_step Hrun. apply ok_inj in Hrun as <-.
  constructor; [apply trim_space_idemp | by eapply canonical_members_trimmed].
Qed.

(** Without a roster to reconcile, the request was a retry. *)
Lemma preflight_retry h dataHome loaded loaded' spec clock ru fault cleanup h' md results :
  CouncilReconcilePrincipals h dataHome (Some loaded) spec ru = Ok [] ->
  CreateCouncil h dataHome loaded' spec clock ru fault cleanup = (h', Ok (md, results, false)) -> False.
Proof.
  unfold CouncilReconcilePrincipals, CreateCouncil. intros H Hc. destruct (council_session spec) as [session|] eqn:Hs; [|done].
  apply council_session_ok in Hs as (_ & Hne & _). cbn [stored mbind result_bind] in H. run_step H.
  destruct (existingSession _ _ _) as [[[md' sd]|]|]; [| |done].
  - destruct (council_replay md' sd loaded' session); done.
  - cbn [stored mbind result_bind] in H. destruct (FindActiveSession _ _ _) as [[?|]|]; try done. cbn [mbind result_bind] in H.
    by injection H.
Qed.

Lemma preflight_roster h dataHome loaded spec ru principals :
  CouncilReconcilePrincipals h dataHome (Some loaded) spec ru = Ok principals -> principals <> [] ->
  exists session, council_session spec = Ok session /\ sp_participants session = principals.
Proof.
  unfold CouncilReconcilePrincipals. intros H Hne. destruct (council_session spec) as [session|]; [|done].
  cbn [stored mbind result_bind] in H. exists session. split; [done|]. run_step H.
  destruct (existingSession _ _ _) as [[[md' sd]|]|]; [| |done]; cbn [stored mbind result_bind] in H.
  - destruct (council_replay md' sd _ session); [by injection H as <- | done].
  - destruct (FindActiveSession _ _ _) as [[?|]|]; try done. cbn [mbind result_bind] in H. by injection H.
Qed.

(** A council that was not there before is a whole session. *)
Lemma create_council_new h dataHome loaded spec clock ru h' md results :
  CreateCouncil h dataHome loaded spec clock ru None true = (h', Ok (md, results, false)) ->
  exists session finalDir a, council_session spec = Ok session /\ results = [a] /\
    md = metadataFromSpec session loaded (event_time clock (cs_now spec)) /\
    rw_doc (hm_reg h') = rw_doc (hm_reg h) /\
    made h' (sp_id session) finalDir loaded session (event_time clock (cs_now spec)) a.
Proof.
  unfold CreateCouncil. intros H. destruct (council_session spec) as [session|]; [|done]. cbv zeta in H.
  destruct (existingSession _ _ _) as [[[md' sd]|]|]; [by destruct (council_replay md' sd loaded session)| |done].
  destruct (CreateSession _ _ _ _ _ _ _ _ _) as [h1 [[md1 a]|]] eqn:Hc; [|done]. cbn in H. injection H as <- <- <-.
  apply create_outcome in Hc as [[_ ?]|(h2 & root & finalDir & Hchecks & Hr & _ & _ & _ & _ & Hstage)]; [done|].
  apply checks_spec in Hchecks as [_ Hspec].
  apply stage_outcome in Hstage as [[_ ?]|(a' & Hreg & Hmade & _ & _ & _ & [[= -> ->]|[? _]])]; try done; [|apply Hspec].
  apply rooted_same in Hr as (_ & _ & Hdoc). exists session, finalDir, a'. split_and!; try done. by rewrite Hreg.
Qed.

Section handler.
Context (compile_error : string -> option string) (digest : registry_doc -> string).

(** Every participant is an enabled member of the registry document. *)
Definition registered (raw : rawRegistry) (participants : list string) : Prop :=
  exists members, rr_members raw = Some members /\
    forall p, p ∈ participants -> exists m, members !! p = Some m /\ rm_enabled m = Some true.

Lemma reconciled_registered dataHome principals raw raw' added loaded :
  reconciled dataHome principals raw raw' added loaded -> Forall (fun p => trim_space p = p) principals ->
  registered raw' principals.
Proof.
  intros [members members' _ Hafter _ _ _ Hp Hloaded] Htrim. exists members'. split; [done|]. intros p Hin.
  destruct (Hp p Hin) as (_ & _ & m & Hm & He). rewrite (proj1 (Forall_forall _ _) Htrim p Hin) in Hm.
  specialize (Hloaded p). rewrite Hm in Hloaded. destruct (members' !! p) as [rm|]; [|done]. exists rm. split; [done|].
  cbn in Hloaded. by rewrite Hloaded, He.
Qed.

(** C21. A council that council.new starts is registered: every participant, the
    moderator included, is an enabled member in the registry that is on disk
    afterwards, where the roster's missing members were added and nothing else
    was changed, and the session is there, whole, made from that registry. *)
Theorem council_new_registered opened new_file meanwhile h dataHome spec clock ru h' md results report raw :
  rw_doc (hm_reg h) = DocRaw raw -> (forall d, digest d = digest (DocRaw raw) -> d = DocRaw raw) ->
  handleCouncilNew compile_error digest opened new_file meanwhile h dataHome spec clock ru false None true
    = (h', Ok (md, results, false, report)) ->
  exists raw' loaded session finalDir a,
    rw_doc (hm_reg h') = DocRaw raw' /\ registered raw' (md_participants md) /\
    reconciled (Clean dataHome) (md_participants md) raw raw' (rc_added report) loaded /\
    council_session spec = Ok session /\ md = metadataFromSpec session loaded (event_time clock (cs_now spec)) /\
    results = [a] /\ made h' (md_id md) finalDir loaded session (event_time clock (cs_now spec)) a.
Proof.
  intros Hdoc Hdig H. unfold handleCouncilNew in H. destruct (Load _ _ _ _ _ _) as [loaded0|]; [|done]. cbn [lift_registry] in H.
  destruct (CouncilReconcilePrincipals _ _ _ _ _) as [principals|] eqn:Hp; [|done].
  destruct principals as [|p principals].
  { destruct (CreateCouncil _ _ _ _ _ _ _ _) as [h2 [[[md2 rs2] dedup]|]] eqn:Hc; [|done]. cbn in H. injection H as _ -> -> -> _.
    destruct h as [[fs doc] ss sn]. cbn [set_registry hm_reg hm_sessions hm_snapshots] in Hc. by destruct (preflight_retry _ _ _ _ _ _ _ _ _ _ _ _ Hp Hc). }
  destruct (ReconcileCouncilMembers _ _ _ _ _ _ _ _ _ _) as [[w report1] [loaded|]] eqn:Hrec; [|done].
  apply (reconcile_ok _ _ _ _ _ _ _ _ _ _ _ _ _ raw Hdoc Hdig) in Hrec as (raw' & Hraw' & Hre & _).
  destruct (CreateCouncil _ _ _ _ _ _ _ _) as [h2 [[[md2 rs2] dedup]|]] eqn:Hc; [|done]. cbn in H. injection H as -> -> -> -> ->.
  apply create_council_new in Hc as (session & finalDir & a & Hs & -> & -> & Hd & Hmade).
  destruct (preflight_roster _ _ _ _ _ _ Hp) as (session' & Hs' & Hpart); [done|]. rewrite Hs in Hs'. injection Hs' as <-.
  pose proof (council_session_ok _ _ Hs) as (_ & _ & _ & Htrim). rewrite <- Hpart in Hre.
  exists raw', loaded, session, finalDir, a. cbn [md_participants md_id metadataFromSpec]. split; [by rewrite Hd|].
  split; [by eapply reconciled_registered|]. by split_and!.
Qed.

End handler.

(** ** A concrete request: Ann starts a council with Bob, who is not a member yet *)

Definition hx_spec : CouncilStartSpec :=
  mk_council_start (mk_spec "sess_c" "" "Roadmap" " ann" [] None ∅ None None "relevance" no_limits "evt_c" "cmd_c" "") ["bob "] 0.

Definition hx_run : home * result session_error (started * ReconcileReport) :=
  handleCouncilNew (fun _ => None) wx_digest id (wx_info KRegular 384 1000) id sx_home "/home/u/.atn" hx_spec
    (1767323045 * second) wx_ru false None true.

Definition hx_started : started * ReconcileReport :=
  match hx_run.2 with
  | Ok s => s
  | Err _ => (fx_council_md, [], false, no_report)
  end.

Example council_new_registered_witness :
  hx_run.2 = Ok hx_started /\ md_participants hx_started.1.1.1 = ["ann"; "bob"] /\ rc_added hx_started.2 = ["bob"] /\
  exists raw', rw_doc (hm_reg hx_run.1) = DocRaw raw' /\ registered raw' ["ann"; "bob"].
Proof.
  split; [vm_compute; reflexivity|]. split; [vm_compute; reflexivity|]. split; [vm_compute; reflexivity|].
  destruct (council_new_registered (fun _ => None) wx_digest id (wx_info KRegular 384 1000) id sx_home "/home/u/.atn"
    hx_spec (1767323045 * second) wx_ru hx_run.1 hx_started.1.1.1 hx_started.1.1.2 hx_started.2 wx_raw)
    as (raw' & _ & _ & _ & _ & Hdoc & Hreg & _).
  - reflexivity.
  - exact wx_digest_raw.
  - vm_compute. reflexivity.
  - exists raw'. split; [exact Hdoc|]. replace ["ann"; "bob"] with (md_participants hx_started.1.1.1) by (vm_compute; reflexivity).
    exact Hreg.
Defined.
