(* ===== verification/CouncilIntent.v ===== *)
(** * The output intent of a council.new request (daemon/council_handlers.go)

    A council.new request must say where its discussion is to be seen, in its
    parameters or in its request context, and the daemon completes the session's
    specification from that. *)

From S2P Require Import Prelude GoValue GoTime Model Ids Registry Evidence Events Delegation Council Session SessionStart PromptBuilder RunnerDispatch GrantDispatch Unmarshal Requests.

(** ** Output modes *)

(** The mode a name stands for, and whether it is supported. *)
Definition normalizeCouncilOutputMode (mode : string) : string * bool :=
  let m := trim_space mode in
  if m == "" then ("", true)
  else if mem_str m ["live_visible_thread"; "artifact_only"; "daemon_cli_actor_speech"; "activation_planning_only"] then (m, true)
  else if mem_str m ["transcript/export-only"; "transcript_export_only"] then ("artifact_only", true)
  else if mem_str m ["local-daemon-only"; "local_daemon_only"] then ("activation_planning_only", true)
  else (m, false).

Definition selectedRunnerNonVisibleRequested (mode : string) : bool :=
  mem_str (trim_space mode) ["artifact_only"; "daemon_cli_actor_speech"; "activation_planning_only"].

Definition mode_keys : list string := ["requested_output_mode"; "output_mode"; "requested_output"].

(** The six places where a mode may be given, in their order of precedence. *)
Definition given_modes (r : CommandRequest) (context : payload) : list string :=
  map (stringParam r) mode_keys ++ map (mapString context) mode_keys.

Definition intent_error (path message : string) : error := NewValidationError CategoryInvalidEnvelope path message.

Definition validateCouncilNewOutputModeAliasConsistency (r : CommandRequest) (context : payload) : result error unit :=
  let modes := map (fun v => (normalizeCouncilOutputMode v).1) (List.filter (fun v => negb (is_blank v)) (given_modes r context)) in
  reject 1 <? len_z (remove_dups modes) with
    intent_error "request_context.requested_output_mode"
      "ATN council.new output-mode aliases must not declare conflicting requested output modes";;
  Ok tt.

Definition conflict_error (key : string) : error :=
  intent_error ("request_context." +:+ key)
    "ATN council.new output-intent fields must not conflict between top-level params and request_context".

(** One of the two flags: a bool where it is given, and the same in both places. *)
Definition check_flag (r : CommandRequest) (context : payload) (key : string) : result error unit :=
  let not_bool path := intent_error path "ATN council.new boolean output-intent fields must be true or false" in
  try nested := match context !! key with
                | None => Ok None
                | Some (ABool b) => Ok (Some b)
                | Some _ => Err (not_bool ("request_context." +:+ key))
                end in
  match params r !! key with
  | None => Ok tt
  | Some (ABool top) =>
      match nested with
      | Some b => reject negb (eqb top b) with conflict_error key;; Ok tt
      | None => Ok tt
      end
  | Some _ => Err (not_bool key)
  end.

Fixpoint check_flags (r : CommandRequest) (context : payload) (keys : list string) : result error unit :=
  match keys with
  | [] => Ok tt
  | key :: rest => try _ := check_flag r context key in check_flags r context rest
  end.

(** [flags] is the order in which a Go map yields the two flags. *)
Definition validateCouncilNewIntentFieldConsistency (flags : list string) (r : CommandRequest) (context : payload)
    : result error unit :=
  try _ := validateCouncilNewOutputModeAliasConsistency r context in
  let top := stringParam r "override_reason" in
  let nested := mapString context "override_reason" in
  reject (top != "") && (nested != "") && (top != nested) with conflict_error "override_reason";;
  check_flags r context flags.

Definition check_visible_surface (surface : option Surface) : result error unit :=
  match surface with
  | None => Err (intent_error "surface" "Discord-origin or live-visible ATN council requires a Discord visible surface before council.new")
  | Some s =>
      reject su_platform s != "discord" with
        intent_error "surface.platform" "live-visible ATN council surface.platform must be discord";;
      if su_kind s == "discord_thread" then
        reject is_blank (su_thread_id s) with
          intent_error "surface.thread_id" "discord_thread live-visible surface requires thread_id";;
        Ok tt
      else if mem_str (su_kind s) ["discord_channel"; "discord_parent_channel"] then
        reject is_blank (su_channel_id s) with
          intent_error "surface.channel_id" "Discord parent-channel fallback surface requires channel_id";;
        Ok tt
      else Err (intent_error "surface.kind" "live-visible ATN council surface.kind must be discord_thread or approved Discord channel fallback")
  end.

Definition validateCouncilNewVisibleSurface (flags : list string) (r : CommandRequest) (surface : option Surface)
    : result error unit :=
  let context := default ∅ (mapParam r "request_context") in
  try _ := validateCouncilNewIntentFieldConsistency flags r context in
  let source := firstNonEmpty [stringParam r "request_source"; stringParam r "source"; mapString context "source"] in
  let raw := firstNonEmpty (given_modes r context) in
  let '(mode, supported) := normalizeCouncilOutputMode raw in
  let explicit := boolParam r "explicit_non_visible_override" || mapBool context "explicit_non_visible_override" in
  let reason := firstNonEmpty [stringParam r "override_reason"; mapString context "override_reason"] in
  let nonVisible := mem_str mode ["artifact_only"; "daemon_cli_actor_speech"; "activation_planning_only"] in
  let complete := explicit && negb (is_blank reason) in
  reject negb (is_blank raw) && negb supported with
    intent_error "request_context.requested_output_mode"
      "ATN council requested_output_mode must be live_visible_thread, artifact_only, daemon_cli_actor_speech, transcript/export-only, transcript_export_only, local-daemon-only, local_daemon_only, or activation_planning_only";;
  reject is_blank raw with
    intent_error "request_context.requested_output_mode"
      "ATN council.new must declare live-visible requested_output_mode=live_visible_thread with a Discord surface, or a supported non-visible/local-daemon-only mode with explicit_non_visible_override and override_reason before council.new";;
  reject nonVisible && negb complete with
    intent_error "request_context.explicit_non_visible_override"
      "ATN councils require live-visible output unless the user explicitly requested a supported non-visible/local-daemon-only mode with override_reason before council.new";;
  let flag := boolParam r "visible_output_required" || mapBool context "visible_output_required" in
  let required := flag || (mode == "live_visible_thread") || match surface with Some _ => true | None => false end ||
                  (has_prefix source "discord" && (negb nonVisible || negb complete)) in
  if required then check_visible_surface surface else Ok tt.

(** ** The request context *)

Definition set_context (key value : string) (context : payload) : payload :=
  if value == "" then context else <[key := AStr value]> context.

Definition set_flag (r : CommandRequest) (key : string) (context : payload) : payload :=
  match params r !! key with
  | Some (ABool b) => <[key := ABool b]> context
  | _ => context
  end.

Definition set_mode (value : string) (context : payload) : payload :=
  if value == "" then context
  else
    let '(normalized, supported) := normalizeCouncilOutputMode value in
    delete "requested_output" (delete "output_mode"
      (<["requested_output_mode" := AStr (if supported then normalized else value)]> context)).

(** The context with the parameters folded in; the keys set are distinct, so the
    order of the code's maps does not matter.  An empty context is none. *)
Definition councilRequestContextParam (r : CommandRequest) : payload :=
  let given := default ∅ (mapParam r "request_context") in
  let context := set_context "override_reason" (stringParam r "override_reason")
                   (set_context "source" (stringParam r "request_source") (set_context "source" (stringParam r "source") given)) in
  let context := set_mode (firstNonEmpty (given_modes r context)) context in
  set_flag r "explicit_non_visible_override" (set_flag r "visible_output_required" context).

(** ** The timeout policy of live-visible councils *)

Definition requiredLiveVisibleDispatchTimeoutSec : Z := 150.
Definition defaultLiveVisibleMaxDiscussionTurns : Z := 15.

Definition selectedRunnerTimeoutPolicyRequired (surface : option Surface) (context : payload) : bool :=
  match surface with
  | None => false
  | Some s =>
      if trim_space (su_platform s) != "discord" then false
      else
        let mode := trim_space (mapString context "requested_output_mode") in
        if mode == "" then false
        else
          let complete := mapBool context "explicit_non_visible_override" && negb (is_blank (mapString context "override_reason")) in
          negb (selectedRunnerNonVisibleRequested mode && complete)
  end.

(** A positive integer, given as any kind of number. *)
Definition mapPositiveInt (m : payload) (key : string) : option Z :=
  match m !! key with
  | Some (AInt z) => if 0 <? z then Some z else None
  | Some (AFloat f e) =>
      match float_integral f e with
      | Some z => if (int_min <=? z) && (z <=? int_max) && (0 <? z) then Some z else None
      | None => None
      end
  | _ => None
  end.

Record selectedRunnerTimeoutOverride := mk_override { to_sec : Z; to_basis : string }.

Definition override_key : string := "selected_runner_timeout_override".

Definition selectedRunnerTimeoutOverrideFromContext (context : payload) : result error (option selectedRunnerTimeoutOverride) :=
  let path := "request_context.selected_runner_timeout_override" in
  match context !! override_key with
  | None | Some ANil => Ok None
  | Some (AMap value) =>
      match mapPositiveInt value "timeout_sec" with
      | None => Err (intent_error (path +:+ ".timeout_sec") "selected_runner_timeout_override.timeout_sec must be a positive integer")
      | Some sec =>
          let basis := trim_space (mapString value "approval_basis") in
          reject basis == "" with
            intent_error (path +:+ ".approval_basis") "selected_runner_timeout_override.approval_basis is required";;
          Ok (Some (mk_override sec basis))
      end
  | Some _ => Err (intent_error path "selected_runner_timeout_override must be an object")
  end.

(** The context with the override as it is approved, and whether it is one. *)
Definition approve_timeout (configured : Z) (override : option selectedRunnerTimeoutOverride) (context : payload)
    : result error (payload * bool * string) :=
  let path := "request_context.selected_runner_timeout_override" in
  if configured =? requiredLiveVisibleDispatchTimeoutSec then
    Ok (match override with Some _ => delete override_key context | None => context end, false, "")
  else
    match override with
    | None =>
        Err (intent_error path "non-150 dispatch_timeout_sec for Discord live-visible selected-runner councils requires request_context.selected_runner_timeout_override")
    | Some o =>
        reject negb (to_sec o =? configured) with
          intent_error (path +:+ ".timeout_sec") "selected_runner_timeout_override.timeout_sec must match limits.dispatch_timeout_sec";;
        Ok (<[override_key := AMap {[ "timeout_sec" := AInt (to_sec o); "approval_basis" := AStr (to_basis o) ]}]> context, true, to_basis o)
    end.

Definition normalizeSelectedRunnerTimeoutRequestContext (srv : server) (surface : option Surface) (limits : Limits) (context : payload)
    : result error (payload * option SelectedRunnerTimeoutEvidence) :=
  if negb (selectedRunnerTimeoutPolicyRequired surface context) then Ok (context, None)
  else
    let configured := li_dispatch_timeout_sec limits in
    reject configured <=? 0 with
      intent_error "limits.dispatch_timeout_sec" "Discord live-visible selected-runner councils require configured limits.dispatch_timeout_sec";;
    try override := selectedRunnerTimeoutOverrideFromContext context in
    try approved := approve_timeout configured override context in
    let '(context', alternative, basis) := approved in
    let resolution := selectedSpeakerTimeoutResolutionForLimits srv limits in
    reject negb (rs_duration resolution =? seconds configured) with
      NewValidationError CategoryCommandConflict "limits.dispatch_timeout_sec"
        "guarded live-visible selected-runner timeout must match the current daemon SelectedSpeakerTimeout override before council.new";;
    Ok (context', Some (mk_timeout_evidence true configured configured (rs_source resolution) alternative basis true)).

(** ** The specification *)

Definition with_live_defaults (l : Limits) : Limits :=
  let turns := if li_max_discussion_turns l <=? 0 then defaultLiveVisibleMaxDiscussionTurns else li_max_discussion_turns l in
  let timeout := if li_dispatch_timeout_sec l <=? 0 then requiredLiveVisibleDispatchTimeoutSec else li_dispatch_timeout_sec l in
  mk_limits (li_max_turns l) turns (li_max_consensus_rounds l) (li_consensus_round_warning_threshold l) (li_no_progress_round_limit l)
    (li_preparation_timeout_sec l) (li_hand_raise_research_timeout_sec l) timeout (li_clarification_response_timeout_sec l)
    (li_escalation_response_timeout_sec l) (li_runner_max_retries l) (li_max_runner_calls l) (li_max_tokens_total l) (li_max_usd l)
    (li_max_user_escalations l) (li_max_elapsed_sec l) (li_max_artifact_bytes l) (li_stream_heartbeat_interval_sec l)
    (li_stream_stale_threshold_sec l) (li_stream_repoll_threshold_sec l) (li_discussion_quality l).

(** What a council.new request asks for; [now] and [spec_now] are two readings of
    the clock. *)
Definition council_new_spec (srv : server) (flags : list string) (r : CommandRequest) (now spec_now : time)
    : result error CouncilStartSpec :=
  try limits := limitsParam r in
  let sessionID := or_else (stringParam r "session_id") ("sess_council_" +:+ unix_nano now) in
  let surface := surfaceParam r in
  try _ := validateCouncilNewVisibleSurface flags r surface in
  let context := councilRequestContextParam r in
  let standard := selectedRunnerTimeoutPolicyRequired surface context in
  let limits := if standard then with_live_defaults limits else limits in
  try normalized := normalizeSelectedRunnerTimeoutRequestContext srv surface limits context in
  let turnMode := stringParam r "turn_mode" in
  Ok (mk_council_start
        (mk_spec sessionID SessionTypeCouncil (stringParam r "title") (stringParam r "moderator") [] surface normalized.1
           (linkedAuthorityParam r) normalized.2 (if standard && (turnMode == "") then "relevance" else turnMode) limits
           (or_else (stringParam r "event_id") ("evt_session_created_" +:+ sessionID))
           (or_else (stringParam r "command_id") ("cmd_council_new_" +:+ sessionID)) (stringParam r "correlation_id"))
        (stringSliceParam r "members") spec_now).
