(* ===== verification/CouncilIntentTheory.v ===== *)
(** * Correctness of the output intent of council.new *)

From S2P Require Import Prelude Paths GoValue GoTime Model Ids Registry RegistryTheory Evidence Events EventLog Fixtures Delegation Council Session SessionTheory SessionStart StartTheory PromptBuilder RunnerDispatch GrantDispatch Unmarshal Requests CouncilIntent.

(** ** What a request must say *)

Definition supported_modes : list string := ["live_visible_thread"; "artifact_only"; "daemon_cli_actor_speech"; "activation_planning_only"].

Definition flag_keys : list string := ["visible_output_required"; "explicit_non_visible_override"].

(** A flag where it is given: a bool, the same in both places. *)
Definition flag_sound (r : CommandRequest) (context : payload) (key : string) : Prop :=
  (forall v, context !! key = Some v -> exists b, v = ABool b) /\
  (forall v, params r !! key = Some v -> exists b, v = ABool b) /\
  (forall a b, params r !! key = Some (ABool a) -> context !! key = Some (ABool b) -> a = b).

Definition flag_set (r : CommandRequest) (context : payload) (key : string) : Prop :=
  boolParam r key = true \/ mapBool context key = true.

(** Some place gives a mode, and all that do give this one. *)
Definition declares (r : CommandRequest) (context : payload) (mode : string) : Prop :=
  (exists v, v ∈ given_modes r context /\ is_blank v = false) /\
  forall v, v ∈ given_modes r context -> is_blank v = false -> normalizeCouncilOutputMode v = (mode, true).

Definition reason_given (r : CommandRequest) (context : payload) : Prop :=
  is_blank (stringParam r "override_reason") = false \/ is_blank (mapString context "override_reason") = false.

Definition reason_sound (r : CommandRequest) (context : payload) : Prop :=
  stringParam r "override_reason" = "" \/ mapString context "override_reason" = "" \/
  stringParam r "override_reason" = mapString context "override_reason".

Definition discord_surface (surface : option Surface) : Prop :=
  exists s, surface = Some s /\ su_platform s = "discord" /\
    ((su_kind s = "discord_thread" /\ is_blank (su_thread_id s) = false) \/
     (su_kind s ∈ ["discord_channel"; "discord_parent_channel"] /\ is_blank (su_channel_id s) = false)).

Definition request_context (r : CommandRequest) : payload := default ∅ (mapParam r "request_context").

Record intent_sound (r : CommandRequest) (context : payload) (surface : option Surface) (mode : string) : Prop := {
  in_mode : declares r context mode;
  in_reason : reason_sound r context;
  in_flags : Forall (flag_sound r context) flag_keys;
  in_override : mode = "live_visible_thread" \/ (flag_set r context "explicit_non_visible_override" /\ reason_given r context);
  in_surface : mode = "live_visible_thread" \/ flag_set r context "visible_output_required" \/ surface <> None ->
               discord_surface surface }.

(** ** Lemmas *)

Lemma normalize_supported v m : normalizeCouncilOutputMode v = (m, true) -> is_blank v = false -> m ∈ supported_modes.
Proof.
  unfold normalizeCouncilOutputMode, is_blank. cbv zeta. intros H Hb. rewrite Hb in H.
  destruct (mem_str (trim_space v) ["live_visible_thread"; _; _; _]) eqn:E1.
  { injection H as <-. by apply mem_str_spec in E1. }
  destruct (mem_str _ ["transcript/export-only"; _]); [injection H as <-; set_solver|].
  destruct (mem_str _ ["local-daemon-only"; _]); [injection H as <-; set_solver | done].
Qed.

Lemma normalize_nonblank v : is_blank v = false -> (normalizeCouncilOutputMode v).1 <> "".
Proof.
  unfold normalizeCouncilOutputMode, is_blank. cbv zeta. intros Hb. rewrite Hb. apply String.eqb_neq in Hb.
  by repeat match goal with |- context [if ?b then _ else _] => destruct b end.
Qed.

Lemma firstNonEmpty_none l : is_blank (firstNonEmpty l) = true <-> forall v, v ∈ l -> is_blank v = true.
Proof.
  unfold firstNonEmpty. destruct (find_first _ l) as [v|] eqn:E; cbn [default].
  - apply find_first_Some in E as [Hin Hv]. apply negb_true_iff in Hv. unfold id. split; [by rewrite Hv|]. intros H. by rewrite (H v Hin) in Hv.
  - split; [|done]. intros _ v Hin. destruct (is_blank v) eqn:Hb; [done|]. exfalso.
    revert E. induction l as [|x l IH]; [set_solver|]. cbn. destruct (negb (is_blank x)) eqn:Hx; [done|].
    apply elem_of_cons in Hin as [->|Hin]; [by rewrite Hb in Hx | by apply IH].
Qed.

Lemma firstNonEmpty_in l : is_blank (firstNonEmpty l) = false -> firstNonEmpty l ∈ l.
Proof.
  unfold firstNonEmpty. destruct (find_first _ l) as [v|] eqn:E; cbn [default]; [|done]. unfold id. by apply find_first_Some in E as [? _].
Qed.

Lemma check_flag_ok r context key : check_flag r context key = Ok tt <-> flag_sound r context key.
Proof.
  unfold check_flag, flag_sound.
  destruct (context !! key) as [[]|] eqn:Ec; cbn [mbind result_bind];
    try (split; [done|]; intros (H & _); by destruct (H _ eq_refl)).
  - destruct (params r !! key) as [[]|] eqn:Ep; try (split; [done|]; intros (_ & H & _); by destruct (H _ eq_refl)).
    + destruct (eqb b0 b) eqn:E; cbn.
      * apply eqb_prop in E as ->. split; [|done]. intros _. split_and!; intros; simplify_eq; eauto.
      * split; [done|]. intros (_ & _ & H). rewrite (H b0 b) in E by done. by rewrite eqb_reflx in E.
    + split; [|done]. intros _. split_and!; intros; simplify_eq; eauto.
  - destruct (params r !! key) as [[]|] eqn:Ep; try (split; [done|]; intros (_ & H & _); by destruct (H _ eq_refl));
      (split; [|done]); intros _; split_and!; intros; simplify_eq; eauto.
Qed.

Lemma check_flags_ok r context keys : check_flags r context keys = Ok tt <-> Forall (flag_sound r context) keys.
Proof.
  induction keys as [|key keys IH]; cbn [check_flags]; [by split|].
  rewrite Forall_cons, <- check_flag_ok, <- IH.
  destruct (check_flag r context key) as [[]|]; cbn [mbind result_bind]; naive_solver.
Qed.

Lemma modes_agree {A} `{EqDecision A} (l : list A) : len_z (remove_dups l) <= 1 <-> forall a b, a ∈ l -> b ∈ l -> a = b.
Proof.
  split.
  - intros H a b Ha Hb. rewrite <- elem_of_remove_dups in Ha, Hb. unfold len_z in H.
    destruct (remove_dups l) as [|x [|y rest]]; [set_solver | set_solver | cbn in H; lia].
  - intros H. pose proof (NoDup_remove_dups l) as Hnd. unfold len_z.
    destruct (remove_dups l) as [|x [|y rest]] eqn:E; [cbn; lia..|]. exfalso.
    assert (x = y) by (apply H; rewrite <- elem_of_remove_dups, E; set_solver). subst.
    apply NoDup_cons in Hnd as [Hn _]. set_solver.
Qed.

Lemma surface_ok surface : check_visible_surface surface = Ok tt <-> discord_surface surface.
Proof.
  unfold check_visible_surface, discord_surface. destruct surface as [s|]; [|split; [done | by intros (? & ? & _)]].
  split.
  - destruct (su_platform s == "discord") eqn:Ep; cbn [negb]; [|done]. apply String.eqb_eq in Ep.
    destruct (su_kind s == "discord_thread") eqn:Ek.
    + apply String.eqb_eq in Ek. destruct (is_blank (su_thread_id s)) eqn:Eb; [done|]. intros _. exists s. by repeat split; auto.
    + destruct (mem_str (su_kind s) _) eqn:Em; [|done]. apply mem_str_spec in Em.
      destruct (is_blank (su_channel_id s)) eqn:Eb; [done|]. intros _. exists s. by repeat split; auto.
  - intros (s' & [= <-] & -> & Hk). change (negb ("discord" == "discord")) with false. cbv iota.
    destruct Hk as [[-> ->]|[Hk ->]]; [done|].
    destruct (su_kind s == "discord_thread") eqn:Ek; [apply String.eqb_eq in Ek; rewrite Ek in Hk; set_solver|].
    by rewrite (proj2 (mem_str_spec _ _) Hk).
Qed.

Lemma aliases_ok r context :
  validateCouncilNewOutputModeAliasConsistency r context = Ok tt <->
  forall v v', v ∈ given_modes r context -> v' ∈ given_modes r context -> is_blank v = false -> is_blank v' = false ->
    (normalizeCouncilOutputMode v).1 = (normalizeCouncilOutputMode v').1.
Proof.
  unfold validateCouncilNewOutputModeAliasConsistency. cbv zeta.
  set (modes := map _ (List.filter _ _)).
  assert (Hiff : len_z (remove_dups modes) <= 1 <-> (1 <? len_z (remove_dups modes)) = false) by (rewrite Z.ltb_ge; done).
  destruct (1 <? _); (split; [|try done]).
  - done.
  - intros H. exfalso. assert (true = false); [|done]. apply Hiff, modes_agree. intros a b Ha Hb.
    unfold modes in *. apply list_elem_of_In, in_map_iff in Ha as (v & <- & Hv%filter_In).
    apply list_elem_of_In, in_map_iff in Hb as (v' & <- & Hv'%filter_In). rewrite <- !list_elem_of_In, !negb_true_iff in *.
    by apply H; destruct_and?.
  - intros _ v v' Hv Hv' Hb Hb'. eapply modes_agree; [by apply Hiff|..];
      apply list_elem_of_In, in_map_iff; [exists v | exists v']; (split; [done|]); apply filter_In;
      rewrite <- list_elem_of_In, negb_true_iff; done.
Qed.

Lemma flag_set_spec r context key : boolParam r key || mapBool context key = true <-> flag_set r context key.
Proof. unfold flag_set. by rewrite orb_true_iff. Qed.

Lemma reason_spec r context :
  negb (is_blank (firstNonEmpty [stringParam r "override_reason"; mapString context "override_reason"])) = true <->
  reason_given r context.
Proof.
  unfold reason_given. rewrite negb_true_iff, <- not_true_iff_false, firstNonEmpty_none. split.
  - intros H. destruct (is_blank (stringParam r _)) eqn:E1; [|by left]. destruct (is_blank (mapString context _)) eqn:E2; [|by right].
    exfalso. apply H. set_solver.
  - intros [E|E] H; rewrite H in E; set_solver.
Qed.

(** The declared mode, as the code finds it. *)
Lemma declared_mode r context mode :
  declares r context mode <->
  validateCouncilNewOutputModeAliasConsistency r context = Ok tt /\ is_blank (firstNonEmpty (given_modes r context)) = false /\
  normalizeCouncilOutputMode (firstNonEmpty (given_modes r context)) = (mode, true).
Proof.
  split.
  - intros [(v & Hv & Hb) Hall].
    assert (Hf : is_blank (firstNonEmpty (given_modes r context)) = false).
    { apply not_true_iff_false. rewrite firstNonEmpty_none. intros H. rewrite (H v Hv) in Hb. done. }
    split; [|split; [done | by apply Hall; [apply firstNonEmpty_in|]]].
    apply aliases_ok. intros x y Hx Hy Hbx Hby. by rewrite (Hall x), (Hall y).
  - intros (Ha & Hf & Hn). split; [exists (firstNonEmpty (given_modes r context)); by split; [apply firstNonEmpty_in|]|].
    intros v Hv Hb. destruct (normalizeCouncilOutputMode v) as [m ok] eqn:Ev.
    rewrite aliases_ok in Ha. pose proof (Ha _ _ Hv (firstNonEmpty_in _ Hf) Hb Hf) as Hm. rewrite Ev, Hn in Hm. cbn in Hm. subst m.
    f_equal. pose proof (normalize_supported _ _ Hn Hf) as Hs.
    revert Ev. unfold normalizeCouncilOutputMode. cbv zeta. intros Ev.
    repeat match type of Ev with context [if ?b then _ else _] => destruct b eqn:?; [congruence|] end.
    injection Ev as E <-. rewrite <- E in Hs. apply mem_str_spec in Hs. unfold supported_modes in Hs. congruence.
Qed.

Definition nonvisible_modes : list string := ["artifact_only"; "daemon_cli_actor_speech"; "activation_planning_only"].

Lemma nonvisible_mode mode : mode ∈ supported_modes -> mem_str mode nonvisible_modes = negb (mode == "live_visible_thread").
Proof. unfold supported_modes. intros H. repeat (apply elem_of_cons in H as [->|H]; [done|]). set_solver. Qed.

Lemma visible_required (flag live complete nonvisible surface : bool) :
  nonvisible = negb live -> (nonvisible && negb complete) = false ->
  forall discord : bool, flag || live || surface || (discord && (negb nonvisible || negb complete)) = flag || live || surface.
Proof. by destruct flag, live, complete, nonvisible, surface; intros; destruct discord. Qed.

(** ** The request *)

(** A council.new request passes the check of its output intent exactly when
    it declares one supported mode (wherever it gives one), its flags are bools
    and nothing is said differently in two places, a non-visible mode comes with
    the explicit override and a reason, and a Discord surface with its thread or
    channel is named when the mode is the visible one, the visible flag is set or
    a surface is given at all.  Where the request comes from does not matter. *)
Theorem council_new_intent flags r surface (Hflags : flags ≡ₚ flag_keys) :
  validateCouncilNewVisibleSurface flags r surface = Ok tt <-> exists mode, intent_sound r (request_context r) surface mode.
Proof.
  set (context := request_context r).
  unfold validateCouncilNewVisibleSurface, validateCouncilNewIntentFieldConsistency. cbv zeta. fold (request_context r). fold context.
  pose proof (declared_mode r context) as Hdecl.
  assert (Hcf : check_flags r context flags = Ok tt <-> Forall (flag_sound r context) flag_keys) by by rewrite check_flags_ok, Hflags.
  pose proof (reason_spec r context) as Hreason. pose proof (flag_set_spec r context) as Hset.
  assert (Hrs : (stringParam r "override_reason" != "") && (mapString context "override_reason" != "") &&
                (stringParam r "override_reason" != mapString context "override_reason") = false <-> reason_sound r context).
  { unfold reason_sound. rewrite !andb_false_iff, !negb_false_iff, !String.eqb_eq. tauto. }
  fold nonvisible_modes.
  destruct (validateCouncilNewOutputModeAliasConsistency r context) as [[]|] eqn:Hal; cbn [mbind result_bind];
    [|split; [done|]; intros (m & [Hd]); by apply Hdecl in Hd as [? _]].
  destruct (_ && _ && _) eqn:Hrc in |- *; [split; [done|]; intros (m & [_ Hr]); by apply Hrs in Hr; rewrite Hr in Hrc|].
  destruct (check_flags r context flags) as [[]|] eqn:Hfl; cbn [mbind result_bind];
    [|split; [done|]; intros (m & [_ _ Hf]); by apply Hcf in Hf].
  destruct (normalizeCouncilOutputMode (firstNonEmpty (given_modes r context))) as [mode supported] eqn:Hn.
  destruct (is_blank (firstNonEmpty (given_modes r context))) eqn:Hb; cbn [negb andb].
  { split; [by destruct (negb supported)|]. intros (m & [Hd]). apply Hdecl in Hd as (_ & Hd & _). congruence. }
  destruct supported; cbn [negb andb];
    [|split; [done|]; intros (m & [Hd]); apply Hdecl in Hd as (_ & _ & Hd); congruence].
  pose proof (nonvisible_mode _ (normalize_supported _ _ Hn Hb)) as Hnv. rewrite Hnv.
  set (live := mode == "live_visible_thread") in *.
  set (complete := (boolParam r "explicit_non_visible_override" || mapBool context "explicit_non_visible_override") &&
                   negb (is_blank (firstNonEmpty [stringParam r "override_reason"; mapString context "override_reason"]))).
  assert (Hov : negb live && negb complete = false <->
                mode = "live_visible_thread" \/ (flag_set r context "explicit_non_visible_override" /\ reason_given r context)).
  { unfold live, complete. rewrite andb_false_iff, !negb_false_iff, String.eqb_eq, andb_true_iff, Hset, Hreason. done. }
  destruct (negb live && negb complete) eqn:Hok.
  { split; [done|]. intros (m & [Hd _ _ Ho]). apply Hdecl in Hd as (_ & _ & Hd). injection Hd as <-. by apply Hov in Ho. }
  rewrite visible_required by done.
  set (wanted := _ || live || _).
  assert (Hw : wanted = true <-> mode = "live_visible_thread" \/ flag_set r context "visible_output_required" \/ surface <> None).
  { assert (Hsf : match surface with Some _ => true | None => false end = true <-> surface <> None) by by destruct surface.
    unfold wanted, live, flag_set. rewrite !orb_true_iff, String.eqb_eq, Hsf. tauto. }
  split.
  - intros H. exists mode. split; [by apply Hdecl|by apply Hrs|by apply Hcf|by apply Hov|].
    intros Hv%Hw. rewrite Hv in H. by apply surface_ok.
  - intros (m & [Hd _ _ _ Hs]). apply Hdecl in Hd as (_ & _ & Hd). injection Hd as <-.
    destruct wanted; [|done]. by apply surface_ok, Hs, Hw.
Qed.

(** ** The timeouts of a live-visible council *)

Lemma create_council_metadata h dataHome loaded spec clock ru fault cleanup h' md results :
  CreateCouncil h dataHome loaded spec clock ru fault cleanup = (h', Ok (md, results, false)) ->
  exists session, council_session spec = Ok session /\ md = metadataFromSpec session loaded (event_time clock (cs_now spec)).
Proof.
  unfold CreateCouncil. intros H. destruct (council_session spec) as [session|]; [|done]. cbv zeta in H.
  destruct (existingSession _ _ _) as [[[md' sd]|]|]; [by destruct (council_replay md' sd loaded session)| |done].
  destruct (CreateSession _ _ _ _ _ _ _ _ _) as [h1 [[md1 a]|]] eqn:Hc; [|done]. cbn in H. injection H as <- <- <-.
  apply create_outcome in Hc as [[_ ?]|(h2 & root & finalDir & Hchecks & _ & _ & _ & _ & _ & Hstage)]; [done|].
  apply checks_spec in Hchecks as [_ Hspec].
  apply stage_outcome in Hstage as [[_ ?]|(a' & _ & _ & _ & _ & _ & [[= -> ->]|[_ ?]])]; try done; [|apply Hspec]. eauto.
Qed.

Lemma council_session_fields spec session :
  council_session spec = Ok session ->
  sp_limits session = sp_limits (cs_session spec) /\ sp_timeout_evidence session = sp_timeout_evidence (cs_session spec) /\
  sp_surface session = sp_surface (cs_session spec).
Proof. unfold council_session. cbv zeta. intros H. do 3 run_step H. by apply ok_inj in H as <-. Qed.

Section guarded.
Context (compile_error : string -> option string) (digest : registry_doc -> string) (opened : file_info -> file_info)
  (new_file : file_info) (meanwhile : reg_world -> reg_world).

Lemma handle_council_new_metadata h dataHome spec clock ru registry_fault fault cleanup h' md results report :
  handleCouncilNew compile_error digest opened new_file meanwhile h dataHome spec clock ru registry_fault fault cleanup
    = (h', Ok (md, results, false, report)) ->
  md_limits md = sp_limits (cs_session spec) /\ md_timeout_evidence md = sp_timeout_evidence (cs_session spec) /\
  md_surface md = sp_surface (cs_session spec).
Proof.
  unfold handleCouncilNew. intros H. destruct (lift_registry _) as [loaded|]; [|done].
  destruct (CouncilReconcilePrincipals _ _ _ _ _) as [principals|]; [|done].
  assert (Hdone : forall h1 loaded', (let '(h2, r2) := CreateCouncil h1 dataHome loaded' spec clock ru fault cleanup in
      (h2, (fun s => (s, report)) <$> r2)) = (h', Ok (md, results, false, report)) ->
      md_limits md = sp_limits (cs_session spec) /\ md_timeout_evidence md = sp_timeout_evidence (cs_session spec) /\
      md_surface md = sp_surface (cs_session spec)).
  { intros h1 loaded' Hc. destruct (CreateCouncil _ _ _ _ _ _ _ _) as [h2 [[[md2 rs2] dedup]|]] eqn:E; [|done].
    cbn in Hc. injection Hc as _ -> _ ->. apply create_council_metadata in E as (session & Hs & ->).
    apply council_session_fields in Hs as (<- & <- & <-). done. }
  destruct principals as [|p ps].
  - destruct (CreateCouncil _ _ _ _ _ _ _ _) as [h2 r2] eqn:E. apply (Hdone (set_registry h (hm_reg h)) loaded). rewrite E.
    destruct r2 as [s|]; [|done]. cbn in *. by injection H as -> -> <-.
  - destruct (ReconcileCouncilMembers _ _ _ _ _ _ _ _ _ _) as [[w report1] [loaded'|]]; [|done].
    destruct (CreateCouncil _ _ _ _ _ _ _ _) as [h2 r2] eqn:E. apply (Hdone (set_registry h w) loaded'). rewrite E.
    destruct r2 as [s|]; [|done]. cbn in *. by injection H as -> -> <-.
Qed.

(** The policy of a timeout, where one is approved. *)
Definition timeout_approved (t : SelectedRunnerTimeoutEvidence) : Prop :=
  te_configured_timeout_sec t = requiredLiveVisibleDispatchTimeoutSec \/
  (te_approved_alternative t = true /\ te_approval_basis t <> "").

Lemma normalized_evidence srv surface limits context context' t :
  normalizeSelectedRunnerTimeoutRequestContext srv surface limits context = Ok (context', Some t) ->
  te_policy_required t = true /\ te_configured_timeout_sec t = li_dispatch_timeout_sec limits /\ 0 < li_dispatch_timeout_sec limits /\
  rs_duration (selectedSpeakerTimeoutResolutionForLimits srv limits) = seconds (li_dispatch_timeout_sec limits) /\ timeout_approved t.
Proof.
  unfold normalizeSelectedRunnerTimeoutRequestContext. intros H. cbv zeta in H.
  destruct (negb _); [done|]. destruct (_ <=? 0) eqn:Hpos; [done|]. apply Z.leb_gt in Hpos.
  destruct (selectedRunnerTimeoutOverrideFromContext context) as [o|] eqn:Ho; [|done]. cbn [mbind result_bind] in H.
  destruct (approve_timeout _ _ _) as [[[c alt] basis]|] eqn:Ha; [|done]. cbn [mbind result_bind] in H.
  destruct (negb (_ =? _)) eqn:Hd in H; [done|]. injection H as <- <-. apply negb_false_iff, Z.eqb_eq in Hd. cbn.
  split_and!; try done. unfold timeout_approved, approve_timeout in *. cbn. cbv zeta in Ha.
  destruct (_ =? requiredLiveVisibleDispatchTimeoutSec) eqn:Eq in Ha; [left; by apply Z.eqb_eq|].
  destruct o as [o|]; [|done]. destruct (negb _) in Ha; [done|]. injection Ha as _ <- <-. right. split; [done|].
  unfold selectedRunnerTimeoutOverrideFromContext in Ho. cbv zeta in Ho.
  destruct (context !! override_key) as [[]|]; try done. destruct (mapPositiveInt m _); [|done].
  destruct (_ == "") eqn:E in Ho; [done|]. injection Ho as <-. cbn. by apply String.eqb_neq in E.
Qed.

(** A council that council.new starts is never held up by the timeout policy.
    Whatever fails, if the handler made the session of a request, then a grant in
    it, under the same setting of the daemon, finds no broken policy, and if the
    policy applies the council has a positive number of discussion turns and its
    timeout is the required one or an alternative approved with a basis. *)
Theorem council_new_timeout_guard srv flags r now spec_now spec h dataHome clock ru registry_fault fault cleanup h' md results report srv'
    (Hspec : council_new_spec srv flags r now spec_now = Ok spec)
    (Hnew : handleCouncilNew compile_error digest opened new_file meanwhile h dataHome spec clock ru registry_fault fault cleanup
            = (h', Ok (md, results, false, report)))
    (Hsrv : sv_timeout srv' = sv_timeout srv) :
  selectedRunnerTimeoutRuntimeEvidence srv' md = None /\
  (selectedRunnerTimeoutPolicyRequired (md_surface md) (councilRequestContextParam r) = true ->
   0 < li_max_discussion_turns (md_limits md) /\ exists t, md_timeout_evidence md = Some t /\ timeout_approved t).
Proof.
  apply handle_council_new_metadata in Hnew as (Hl & Ht & Hs).
  unfold council_new_spec in Hspec. destruct (limitsParam r) as [limits|]; [|done]. cbn [mbind result_bind] in Hspec. cbv zeta in Hspec.
  destruct (validateCouncilNewVisibleSurface _ _ _) as [[]|]; [|done]. cbn [mbind result_bind] in Hspec.
  destruct (normalizeSelectedRunnerTimeoutRequestContext _ _ _ _) as [[context t]|] eqn:Hn; [|done]. cbn [mbind result_bind] in Hspec.
  injection Hspec as <-. cbn in Hl, Ht, Hs. subst t.
  assert (Hres : forall l, selectedSpeakerTimeoutResolutionForLimits srv' l = selectedSpeakerTimeoutResolutionForLimits srv l)
    by (intros; unfold selectedSpeakerTimeoutResolutionForLimits; by rewrite Hsrv).
  split.
  - unfold selectedRunnerTimeoutRuntimeEvidence. destruct (md_timeout_evidence md) as [t|] eqn:Et; [|done].
    apply normalized_evidence in Hn as (Hp & Hc & _ & Hd & _). rewrite Hp. cbv zeta.
    by rewrite Hl, Hres, Hd, Hc, Z.eqb_refl.
  - intros Hp. rewrite Hs in Hp. rewrite Hp in Hl, Hn. rewrite Hl. split.
    + unfold with_live_defaults. cbn. destruct (_ <=? 0) eqn:E; [done|]. by apply Z.leb_gt in E.
    + destruct (md_timeout_evidence md) as [t|]; [by apply normalized_evidence in Hn as (_ & _ & _ & _ & ?); eauto|].
      exfalso. unfold normalizeSelectedRunnerTimeoutRequestContext in Hn. rewrite Hp in Hn. cbn [negb] in Hn. cbv zeta in Hn.
      destruct (_ <=? 0); [done|]. destruct (selectedRunnerTimeoutOverrideFromContext _); [|done]. cbn [mbind result_bind] in Hn.
      destruct (approve_timeout _ _ _) as [[[? ?] ?]|]; [|done]. cbn [mbind result_bind] in Hn. by destruct (negb _) in Hn.
Qed.
End guarded.

(** ** Concrete requests *)

Definition ix_request (p : payload) : CommandRequest := mk_command_request 1 "req_1" "council.new" (Some p).

Definition ix_surface : payload :=
  {[ "kind" := AStr "discord_thread"; "platform" := AStr "discord"; "channel_id" := AStr "c"; "thread_id" := AStr "t" ]}.

Definition ix_visible : payload :=
  {[ "session_id" := AStr "sess_c"; "title" := AStr "Roadmap"; "moderator" := AStr "ann"; "members" := AList [AStr "bob"];
     "requested_output_mode" := AStr "live_visible_thread"; "surface" := AMap ix_surface; "source" := AStr "discord:42" ]}.

Definition ix_timeout (sec : Z) (context : payload) : payload :=
  <["limits" := AMap {[ "dispatch_timeout_sec" := AFloat sec 0 ]}]> (<["request_context" := AMap context]> ix_visible).

Definition ix_approved : payload :=
  {[ "selected_runner_timeout_override" := AMap {[ "timeout_sec" := AFloat 90 0; "approval_basis" := AStr "user" ]} ]}.

Definition ix_server : server := mk_server 0 0 None.

Definition ix_spec (srv : server) (p : payload) : result error CouncilStartSpec :=
  council_new_spec srv flag_keys (ix_request p) 0 (1767323045 * second).

(** The path of the error, or the turns, the timeout and whether it is an alternative. *)
Definition ix_result (srv : server) (p : payload) : string + (Z * Z * option bool) :=
  match ix_spec srv p with
  | Ok s => inr (li_max_discussion_turns (sp_limits (cs_session s)), li_dispatch_timeout_sec (sp_limits (cs_session s)),
                 te_approved_alternative <$> sp_timeout_evidence (cs_session s))
  | Err e => inl (error_path e)
  end.

Example ix_results :
  ix_result ix_server ix_visible = inr (15, 150, Some false) /\
  ix_result ix_server (<["output_mode" := AStr "artifact_only"]> ix_visible) = inl "request_context.requested_output_mode" /\
  ix_result ix_server (delete "surface" ix_visible) = inl "surface" /\
  ix_result ix_server (<["requested_output_mode" := AStr "transcript/export-only"]> ix_visible) =
    inl "request_context.explicit_non_visible_override" /\
  ix_result ix_server (<["visible_output_required" := AStr "yes"]> ix_visible) = inl "visible_output_required" /\
  ix_result ix_server (<["requested_output_mode" := AStr "local-daemon-only"]>
    (<["explicit_non_visible_override" := ABool true]> (<["override_reason" := AStr "dry run"]> (delete "surface" ix_visible)))) =
    inr (0, 0, None) /\
  ix_result ix_server (ix_timeout 90 ∅) = inl "request_context.selected_runner_timeout_override" /\
  ix_result ix_server (ix_timeout 90 ix_approved) = inr (15, 90, Some true) /\
  ix_result ix_server (ix_timeout 91 ix_approved) = inl "request_context.selected_runner_timeout_override.timeout_sec" /\
  ix_result (mk_server (30 * second) 0 None) ix_visible = inl "limits.dispatch_timeout_sec".
Proof. vm_compute. repeat split. Qed.

Lemma council_new_intent_witness :
  exists mode, intent_sound (ix_request ix_visible) (request_context (ix_request ix_visible))
    (surfaceParam (ix_request ix_visible)) mode.
Proof.
  apply (council_new_intent flag_keys (ix_request ix_visible) (surfaceParam (ix_request ix_visible))).
  - reflexivity.
  - vm_compute. reflexivity.
Defined.

Notation ix_started_spec := (match ix_spec ix_server (ix_timeout 90 ix_approved) with Ok s => s | Err _ => hx_spec end) (only parsing).

Definition ix_run : home * result session_error (started * ReconcileReport) :=
  handleCouncilNew (fun _ => None) wx_digest id (wx_info KRegular 384 1000) id sx_home "/home/u/.atn" ix_started_spec
    (1767323045 * second) wx_ru false None true.

Definition ix_started : started * ReconcileReport :=
  match ix_run.2 with
  | Ok s => s
  | Err _ => (fx_council_md, [], false, no_report)
  end.

Lemma council_new_timeout_guard_witness :
  selectedRunnerTimeoutRuntimeEvidence ix_server ix_started.1.1.1 = None /\
  0 < li_max_discussion_turns (md_limits ix_started.1.1.1) /\
  exists t, md_timeout_evidence ix_started.1.1.1 = Some t /\ timeout_approved t.
Proof.
  destruct (council_new_timeout_guard (fun _ => None) wx_digest id (wx_info KRegular 384 1000) id ix_server flag_keys
    (ix_request (ix_timeout 90 ix_approved)) 0 (1767323045 * second) ix_started_spec sx_home "/home/u/.atn"
    (1767323045 * second) wx_ru false None true ix_run.1 ix_started.1.1.1 ix_started.1.1.2 ix_started.2 ix_server) as [H1 H2].
  - vm_compute. reflexivity.
  - vm_compute. reflexivity.
  - reflexivity.
  - split; [exact H1|]. apply H2. vm_compute. reflexivity.
Defined.
