(* ===== verification/Sweeper.v ===== *)
(** * The sweep of response windows (daemon/response_window_sweeper.go)

    Once a second the daemon looks at every session of its data home and times
    out the expired response windows of the councils.  The root is given as it is
    read; other commands are taken to come before or after the sweep of a
    session. *)

From S2P Require Import Prelude Paths GoValue GoTime Model Ids Registry Evidence Events EventLog LogSpec Command Delegation Session Fixtures Closeout Lifecycle ArgumentGraph Council DelegationTheory CouncilTheory CouncilWindow.

(** The sessions, the readings of the clock and the faults of the appends to come. *)
Record sweep_state := mk_sweep { sw_sessions : sessions; sw_tick : nat; sw_faults : list (option append_fault) }.

Section sweeper.
Context (dataHome : string) (clock : nat -> time) (wall : time).

(** The turn whose window has timed out by [now].  The code compares the status
    of the session with a value of another type, so an ended session is no
    exception. *)
Definition swept_turn (md : SessionMetadata) (ix : LogIndex) (now : time) : option Z :=
  let turn := currentCouncilTurn ix in
  if turn <=? 0 then None
  else
    let accounting := responseWindowAccountingFromIndex wall (Some md) ix now turn in
    if (payloadStringDefault accounting "state" "" == "closed") && (payloadStringDefault accounting "closed_reason" "" == "timeout")
    then Some turn else None.

Definition sweep_council (st : sweep_state) (name : string) (md : SessionMetadata) (ix : LogIndex) : sweep_state * result error unit :=
  let st1 := mk_sweep (sw_sessions st) (S (sw_tick st)) (sw_faults st) in
  match swept_turn md ix (clock (sw_tick st)) with
  | None => (st1, Ok tt)
  | Some turn =>
      let '(w, done, r) := RecordCouncilResponseWindowTimeout name (mk_world (sw_sessions st) md) wall turn
                             (clock (sw_tick st1)) (sw_faults st) in
      (mk_sweep (wd_sessions w) (S (sw_tick st1)) (drop (length done) (sw_faults st)), (fun _ => tt) <$> r)
  end.

(** One entry of the sessions root: anything but a readable council is passed over. *)
Definition sweep_session (st : sweep_state) (name : string) : sweep_state * result error unit :=
  match sw_sessions st !! name, SessionDir dataHome name with
  | Some sd, Ok _ =>
      if negb (sd_is_dir sd) then (st, Ok tt)
      else
        match LoadSessionYAML sd with
        | Err _ => (st, Ok tt)
        | Ok md =>
            if md_session_type md != SessionTypeCouncil then (st, Ok tt)
            else
              match ReadLogIndex sd md with
              | Err _ => (mk_sweep (sw_sessions st) (S (sw_tick st)) (sw_faults st), Ok tt)
              | Ok ix => sweep_council st name md ix
              end
        end
  | _, _ => (st, Ok tt)
  end.

Fixpoint sweep_names (st : sweep_state) (names : list string) : sweep_state * result error unit :=
  match names with
  | [] => (st, Ok tt)
  | name :: rest =>
      match sweep_session st name with
      | (st', Ok _) => sweep_names st' rest
      | (st', Err err) => (st', Err err)
      end
  end.

(** The entries in the order of os.ReadDir; the first error ends the sweep. *)
Definition sweepCouncilResponseWindowTimeouts (st : sweep_state) : sweep_state * result error unit :=
  sweep_names st (map fst (sorted_entries (sw_sessions st))).
End sweeper.

(** ** Lemmas *)

Section sweep_theory.
Context (dataHome : string) (clock : nat -> time) (wall : time).

(** The window of the turn is as polls open it, and nobody it waits for was
    dropped from it before. *)
Definition sound_window (md : SessionMetadata) (ix : LogIndex) (turn : Z) : Prop :=
  exists w, latestResponseWindowForTurn ix turn = Some w /\ turn <= 2 ^ 53 /\ rw_required w <> [] /\ is_zero (rw_deadline w) = false /\
    NoDup (rw_required w) /\ Forall canonical (rw_required w) /\
    forall m x, m ∈ window_missing None ix w -> x ∈ ix_events ix -> ev_command_id x <> timeout_command md turn m.

(** The session is as it was, but for one automatic drop for each member that was
    missing, and nobody is missing any more. *)
Definition settled (name : string) (md : SessionMetadata) (ix : LogIndex) (turn : Z) (ss : sessions) : Prop :=
  exists w sd ix' drops, latestResponseWindowForTurn ix turn = Some w /\ ss !! name = Some sd /\ ReadLogIndex sd md = Ok ix' /\
    ix_events ix' = ix_events ix ++ drops /\ Forall2 (dropped_by_daemon turn) (window_missing None ix w) drops /\
    latestResponseWindowForTurn ix' turn = Some w /\ window_missing None ix' w = [].

(** A council that the sweep looks at, and the log it finds. *)
Definition swept_council (ss : sessions) (name : string) (sd : session_dir) (md : SessionMetadata) (ix : LogIndex) : Prop :=
  ss !! name = Some sd /\ is_ok (SessionDir dataHome name) = true /\ sd_is_dir sd = true /\ LoadSessionYAML sd = Ok md /\
  md_session_type md = SessionTypeCouncil /\ ReadLogIndex sd md = Ok ix.

Lemma drop_missing_frame name wall' window turn now : forall missing w faults results d w' results' r,
  drop_missing name w wall' window turn now missing faults results d = (w', results', r) ->
  (forall n, n <> name -> wd_sessions w' !! n = wd_sessions w !! n) /\ same_session (wd_md w') (wd_md w).
Proof.
  induction missing as [|m ms IH]; intros w faults results d w' results' r H; cbn in H; [by injection H as <- _ _|].
  destruct (run_command _ _ _ _ _) as [w1 [[a dedup]|]] eqn:Hrun.
  - apply IH in H as [H1 H2]. split; [intros n Hn; rewrite H1 by done; by eapply run_command_frame|].
    etrans; [exact H2|]. by eapply run_command_same.
  - injection H as <- _ _. split; [intros n Hn; by eapply run_command_frame | by eapply run_command_same].
Qed.

Lemma timeout_frame name w wall' turn now faults w' results r :
  RecordCouncilResponseWindowTimeout name w wall' turn now faults = (w', results, r) ->
  (forall n, n <> name -> wd_sessions w' !! n = wd_sessions w !! n) /\ same_session (wd_md w') (wd_md w).
Proof.
  unfold RecordCouncilResponseWindowTimeout. destruct (timeout_window _ _ _ _ _) as [[ix window]|]; [|by intros [= <- _ _]].
  apply drop_missing_frame.
Qed.

(** A session is left alone by the sweep of another one. *)
Lemma sweep_session_frame st name st' r :
  sweep_session dataHome clock wall st name = (st', r) ->
  (forall n, n <> name -> sw_sessions st' !! n = sw_sessions st !! n) /\ (sw_tick st <= sw_tick st')%nat.
Proof.
  unfold sweep_session, sweep_council. intros H.
  destruct (sw_sessions st !! name) as [sd|]; [|by injection H as <- _].
  destruct (SessionDir dataHome name); [|by injection H as <- _]. destruct (negb (sd_is_dir sd)); [by injection H as <- _|].
  destruct (LoadSessionYAML sd) as [md|]; [|by injection H as <- _]. destruct (_ != SessionTypeCouncil); [by injection H as <- _|].
  destruct (ReadLogIndex sd md) as [ix|]; [|injection H as <- _; cbn; split; [done|lia]].
  destruct (swept_turn _ _ _ _) as [turn|]; [|injection H as <- _; cbn; split; [done|lia]].
  destruct (RecordCouncilResponseWindowTimeout _ _ _ _ _ _) as [[w done] q] eqn:E. injection H as <- _.
  apply timeout_frame in E as [E _]. cbn in *. split; [done|lia].
Qed.

(** Whatever is not a readable council is passed over. *)
Lemma sweep_session_other st name st' r :
  (forall sd md ix, ~ swept_council (sw_sessions st) name sd md ix) ->
  sweep_session dataHome clock wall st name = (st', r) -> sw_sessions st' = sw_sessions st.
Proof.
  intros Hno. unfold sweep_session, swept_council in *. destruct (sw_sessions st !! name) as [sd|]; [|by intros [= <- _]].
  destruct (SessionDir dataHome name); [|by intros [= <- _]]. destruct (sd_is_dir sd) eqn:Hd; cbn [negb]; [|by intros [= <- _]].
  destruct (LoadSessionYAML sd) as [md|] eqn:Hl; [|by intros [= <- _]].
  destruct (md_session_type md == SessionTypeCouncil) eqn:Ht; cbn [negb]; [|by intros [= <- _]].
  destruct (ReadLogIndex sd md) as [ix|] eqn:Hr; [|by intros [= <- _]]. apply String.eqb_eq in Ht. by destruct (Hno sd md ix).
Qed.

Lemma swept_positive md ix now turn : swept_turn wall md ix now = Some turn -> 0 < turn.
Proof.
  unfold swept_turn. cbv zeta. destruct (_ <=? 0) eqn:E; [done|]. destruct (_ && _); [|done]. intros [= <-]. by apply Z.leb_gt.
Qed.

Lemma sweep_council_settles st name sd md ix st' :
  swept_council (sw_sessions st) name sd md ix ->
  (forall turn, swept_turn wall md ix (clock (sw_tick st)) = Some turn -> sound_window md ix turn) ->
  sweep_session dataHome clock wall st name = (st', Ok tt) ->
  (sw_tick st < sw_tick st')%nat /\
  match swept_turn wall md ix (clock (sw_tick st)) with
  | None => sw_sessions st' !! name = Some sd
  | Some turn => settled name md ix turn (sw_sessions st')
  end.
Proof.
  intros (Hsd & Hdir & Hisdir & Hload & Hty & Hread) Hsound H. unfold sweep_session in H.
  destruct (SessionDir dataHome name); [|done]. rewrite Hsd, Hisdir, Hload, Hty, Hread in H. cbn [negb] in H.
  change (SessionTypeCouncil != SessionTypeCouncil) with false in H. cbv iota in H. unfold sweep_council in H.
  destruct (swept_turn wall md ix (clock (sw_tick st))) as [turn|] eqn:Ht; [|injection H as <-; cbn; split; [lia|done]].
  destruct (RecordCouncilResponseWindowTimeout _ _ _ _ _ _) as [[w done] q] eqn:E. injection H as <- Hq.
  destruct q as [d|]; [|done]. cbn. split; [lia|].
  destruct (Hsound turn eq_refl) as (window & Hw & Hle & Hreq & Hz & Hnd & Hcan & Hfresh).
  pose proof (timeout_frame _ _ _ _ _ _ _ _ _ E) as [_ Hsame].
  pose proof (fun a b c d e f g h => window_settled _ _ _ _ _ _ _ _ _ ix window a b c d e f g h E) as Hset. cbn in Hset.
  destruct Hset as (ix' & drops & (sd' & Hsd' & Hr') & He & Hall & _ & Hw' & Hmiss & _); try done.
  - by exists sd.
  - split; [by eapply swept_positive | done].
  - exists window, sd', ix', drops. split_and!; try done.
    rewrite <- Hr'. apply ReadLogIndex_proper; [done|]. by symmetry.
Qed.

(** A session that was settled stays so when another is swept. *)
Definition swept (name : string) (sd : session_dir) (md : SessionMetadata) (ix : LogIndex) (i : nat) (ss : sessions) : Prop :=
  match swept_turn wall md ix (clock i) with
  | None => ss !! name = Some sd
  | Some turn => settled name md ix turn ss
  end.

Lemma swept_frame name sd md ix i ss ss' : ss' !! name = ss !! name -> swept name sd md ix i ss -> swept name sd md ix i ss'.
Proof. unfold swept, settled. intros H. destruct (swept_turn _ _ _ _); by rewrite H. Qed.

Lemma sweep_names_settle names : NoDup names -> forall st st',
  (forall name sd md ix i turn, name ∈ names -> swept_council (sw_sessions st) name sd md ix ->
     swept_turn wall md ix (clock i) = Some turn -> sound_window md ix turn) ->
  sweep_names dataHome clock wall st names = (st', Ok tt) ->
  (sw_tick st <= sw_tick st')%nat /\
  (forall n, n ∉ names \/ (forall sd md ix, ~ swept_council (sw_sessions st) n sd md ix) ->
     sw_sessions st' !! n = sw_sessions st !! n) /\
  forall name sd md ix, name ∈ names -> swept_council (sw_sessions st) name sd md ix ->
    exists i, (sw_tick st <= i < sw_tick st')%nat /\ swept name sd md ix i (sw_sessions st').
Proof.
  induction 1 as [|name names Hnin Hnd IH]; intros st st' Hsound H; cbn in H.
  { injection H as <-. split; [lia|]. split; [done|]. set_solver. }
  destruct (sweep_session dataHome clock wall st name) as [st1 [[]|]] eqn:E; [|done].
  pose proof (sweep_session_frame _ _ _ _ E) as [Hframe Htick].
  assert (Hkeep : forall n sd md ix, n <> name -> swept_council (sw_sessions st1) n sd md ix <-> swept_council (sw_sessions st) n sd md ix)
    by (intros n sd md ix Hn; unfold swept_council; by rewrite Hframe).
  assert (Hne : forall n, n ∈ names -> n <> name) by (intros n Hn ->; done).
  destruct (IH st1 st') as (Ht & Hout & Hin); [|done|].
  { intros n sd md ix i turn Hn Hc. apply (Hsound n sd md ix i turn); [set_solver|]. by apply Hkeep; [apply Hne|]. }
  split; [lia|]. split.
  { intros n Hn. destruct (decide (n = name)) as [->|Hneq].
    - rewrite Hout by (by left). destruct Hn as [Hn|Hn]; [set_solver|]. by erewrite sweep_session_other.
    - rewrite Hout; [by apply Hframe|]. destruct Hn as [Hn|Hn]; [left; set_solver|].
      right. intros sd md ix Hc. by eapply Hn, Hkeep. }
  intros n sd md ix [->|Hn]%elem_of_cons Hc.
  - destruct (sweep_council_settles _ _ _ _ _ _ Hc (fun turn => Hsound name sd md ix (sw_tick st) turn (list_elem_of_here _ _) Hc) E)
      as [Hlt Hset].
    exists (sw_tick st). split; [lia|]. eapply swept_frame; [by apply Hout; left|done].
  - destruct (Hin n sd md ix Hn) as (i & Hi & Hs); [by apply Hkeep; [apply Hne|]|]. exists i. split; [lia|done].
Qed.

(** C23. A sweep settles every expired window.  If the sweep of a data home returns
    without error, and the windows of its councils are as polls open them, then
    for every council there was an instant during the sweep at which its current
    window had not timed out and its session is as it was, or had, and then the
    log has one automatic drop for each member that was missing, nothing else was
    added, and nobody is missing any more.  All other sessions are as they were. *)
Theorem sweep_settles_windows st st'
    (Hsound : forall name sd md ix i turn, swept_council (sw_sessions st) name sd md ix ->
       swept_turn wall md ix (clock i) = Some turn -> sound_window md ix turn)
    (Hsweep : sweepCouncilResponseWindowTimeouts dataHome clock wall st = (st', Ok tt)) :
  (forall name, (forall sd md ix, ~ swept_council (sw_sessions st) name sd md ix) -> sw_sessions st' !! name = sw_sessions st !! name) /\
  forall name sd md ix, swept_council (sw_sessions st) name sd md ix ->
    exists i, (sw_tick st <= i < sw_tick st')%nat /\ swept name sd md ix i (sw_sessions st').
Proof.
  assert (Hp : map fst (sorted_entries (sw_sessions st)) ≡ₚ (map_to_list (sw_sessions st)).*1)
    by (apply Permutation_map, merge_sort_Permutation).
  assert (Hnd : NoDup (map fst (sorted_entries (sw_sessions st)))) by (rewrite Hp; apply NoDup_fst_map_to_list).
  destruct (sweep_names_settle _ Hnd st st') as (_ & Hout & Hin); [naive_solver|exact Hsweep|]. split; [by auto|].
  intros name sd md ix Hc. apply Hin; [|done]. rewrite Hp. destruct Hc as [Hc _].
  apply list_elem_of_fmap. exists (name, sd). split; [done|]. by apply elem_of_map_to_list.
Qed.
End sweep_theory.

(** ** Concrete sweeps: a minute after the deadline of the window that Bob missed *)

Definition vx_clock (n : nat) : time := fx_later + 180 * second.

Definition vx_state (w : world) : sweep_state := mk_sweep (wd_sessions w) 0 [].

Definition vx_sweep (w : world) : sweep_state * result error unit :=
  sweepCouncilResponseWindowTimeouts "/home/u/.atn" vx_clock fx_later (vx_state w).

Definition vx_log (st : sweep_state) : list (string * string) :=
  match sw_sessions st !! "sess_council" with
  | Some sd => map (fun e => (ev_type e, responseWindowResponseMember e)) (drop 4 (log_of sd))
  | None => []
  end.

(** The council is cancelled while the window is open. *)
Definition vx_ended : world :=
  (run_command "sess_council" cx_w_raised fx_later (mk_cancel "mod" "stop" "user_request" "c9" (fx_later + 60 * second)) None).1.

(** One sweep drops Bob and a second one does nothing; but a council that ended
    with an open window makes every sweep fail. *)
Example vx_sweeps :
  vx_log (vx_sweep cx_w_raised).1 = [("hand_raise", "ann"); ("hand_raise_dropped", "bob")] /\
  (vx_sweep cx_w_raised).2 = Ok tt /\
  (let '(st, r) := vx_sweep (mk_world (sw_sessions (vx_sweep cx_w_raised).1) fx_council_md) in (vx_log st, r)) =
    ([("hand_raise", "ann"); ("hand_raise_dropped", "bob")], Ok tt) /\
  vx_log (vx_state vx_ended) = [("hand_raise", "ann"); ("session_cancelled", "mod")] /\
  match (vx_sweep vx_ended).2 with Err e => error_path e | Ok _ => "" end = "phase".
Proof. vm_compute. repeat split. Qed.

Lemma vx_council name sd md ix :
  swept_council "/home/u/.atn" (wd_sessions cx_w_raised) name sd md ix -> name = "sess_council" /\ md = wd_md cx_w_raised /\ ix = cx_read cx_w_raised.
Proof.
  intros (Hsd & _ & _ & Hl & Ht & Hr).
  assert (Hn : name = "sess_council" \/ name = "sess_deleg").
  { assert (Hin : name ∈ map fst (map_to_list (wd_sessions cx_w_raised)))
      by (apply list_elem_of_fmap; exists (name, sd); split; [done|]; by apply elem_of_map_to_list).
    assert (Hall : forallb (fun n => (n == "sess_council") || (n == "sess_deleg")) (map fst (map_to_list (wd_sessions cx_w_raised))) = true)
      by (vm_compute; reflexivity).
    rewrite forallb_forall in Hall. apply list_elem_of_In, Hall, orb_true_iff in Hin as [?%String.eqb_eq|?%String.eqb_eq]; auto. }
  destruct Hn as [->| ->].
  - split; [done|]. destruct (cx_read_reads cx_w_raised) as (sd' & Hsd' & Hr'); [vm_compute; reflexivity|].
    rewrite Hsd in Hsd'. injection Hsd' as <-.
    assert (Hmd : LoadSessionYAML sd = Ok (wd_md cx_w_raised)).
    { apply (inj Some).
      transitivity (LoadSessionYAML <$> (wd_sessions cx_w_raised !! "sess_council")); [rewrite Hsd; exact eq_refl | vm_compute; reflexivity]. }
    assert (Hx : forall A (a b c : result error A), a = b -> a = c -> b = c) by (intros; congruence).
    assert (Hy : forall A (a b : A), Ok (E := error) a = Ok b -> a = b) by (intros A a b H; congruence).
    assert (E := Hy _ _ _ (Hx _ _ _ _ Hl Hmd)). split; [exact E|].
    clear Hmd. revert Hr. rewrite E. intros Hr. exact (Hy _ _ _ (Hx _ _ _ _ Hr Hr')).
  - exfalso.
    assert (H : (fun s => (fun m => md_session_type m) <$> LoadSessionYAML s) <$> (wd_sessions cx_w_raised !! "sess_deleg") =
                Some (Ok SessionTypeDelegation)) by (vm_compute; reflexivity).
    rewrite Hsd in H. cbn in H. rewrite Hl in H. cbn in H. injection H as H. by rewrite Ht in H.
Qed.

Lemma sweep_settles_windows_witness :
  (forall name, (forall sd md ix, ~ swept_council "/home/u/.atn" (wd_sessions cx_w_raised) name sd md ix) ->
     sw_sessions (vx_sweep cx_w_raised).1 !! name = wd_sessions cx_w_raised !! name) /\
  forall name sd md ix, swept_council "/home/u/.atn" (wd_sessions cx_w_raised) name sd md ix ->
    exists i, (0 <= i < sw_tick (vx_sweep cx_w_raised).1)%nat /\
      swept vx_clock fx_later name sd md ix i (sw_sessions (vx_sweep cx_w_raised).1).
Proof.
  apply (sweep_settles_windows "/home/u/.atn" vx_clock fx_later (vx_state cx_w_raised)).
  - intros name sd md ix i turn (-> & -> & ->)%vx_council Ht.
    replace turn with 1 by (cut (Some 1 = Some turn); [by intros [= ->]|]; rewrite <- Ht; vm_compute; reflexivity).
    clear Ht. exists cx_window. split; [vm_compute; reflexivity|]. split; [lia|]. split; [discriminate|]. split; [reflexivity|].
    split; [repeat (constructor; [set_solver|]); constructor|].
    split; [repeat (constructor; [split; [vm_compute; reflexivity | discriminate]|]); constructor|].
    intros m x _ Hx. apply (commands_without_prefix _ "cmd_response_window_timeout_") with (2 := Hx). vm_compute. reflexivity.
  - vm_compute. reflexivity.
Defined.
