(* ===== verification/Projection.v ===== *)
(** * The rows of the query projection (storage/projection_rows.go,
    storage/argument_graph_projection.go)

    network.sqlite is rebuilt from the logs: a replay applies every event of every
    session to a state of rows by key.  A pair of a value and a flag that says
    whether there is one is an [option] here.  The texts of JSON columns are those
    of the decoded values, which can always be encoded; the column
    [recipient_json] is kept as the list of recipients.  Sums of costs are taken
    to stay below 2^1024. *)

From S2P Require Import Prelude GoValue GoTime Model Ids Evidence Events Closeout ArgumentGraph Unmarshal.

(** ** Accessors and texts (projection.go) *)

Definition anyFloat (p : payload) (keys : list string) : option (Z * Z) :=
  first_some (fun k => match p !! k with
                       | Some v => float_of_json v
                       | None => None
                       end) keys.

(** canonicalJSON of a slice or a map of a payload: nil ones read null. *)
Definition slice_json (p : payload) (key : string) : string :=
  match p !! key with
  | Some (AList l) => json_text (AList l)
  | _ => "null"
  end.

Definition map_json (o : option payload) : string :=
  match o with
  | Some m => json_text (AMap m)
  | None => "null"
  end.

(** canonicalJSON of a pointer to a struct *)
Definition pointer_json {A} (f : A -> any) (o : option A) : string :=
  match o with
  | Some a => json_text (f a)
  | None => "null"
  end.

Definition runner_json (r : RunnerInfo) : any :=
  AStruct ([("invocation_id", AStr (rn_invocation_id r)); ("adapter_kind", AStr (rn_adapter_kind r));
            ("member", AStr (rn_member r)); ("attempt", AInt (rn_attempt r)); ("is_retry", ABool (rn_is_retry r))] ++
           omit_str "source_command_id" (rn_source_command_id r) ++ [("status", AStr (rn_status r))] ++
           match rn_duration_sec r with
           | Some (m, e) => [("duration_sec", AFloat m e)]
           | None => []
           end).

Definition timeText (t : time) : string := time_format t.

(** A key of a row: its parts with NUL between them. *)
Definition row_key (parts : list string) : string := join nul parts.

(** ** Costs *)

Record parsedCost := mk_cost {
  pc_tokens_in : option Z; pc_tokens_out : option Z; pc_usd : option (Z * Z); pc_source : string; pc_null : bool }.

Definition no_cost : parsedCost := mk_cost None None None "" false.

Definition float_to_int (f : Z * Z) : Z := int_of_float f.1 f.2.

Definition parseCost (raw : option any) : parsedCost :=
  match raw with
  | None | Some ANil => mk_cost None None None "" true
  | Some (AMap p) =>
      mk_cost (float_to_int <$> anyFloat p ["tokens_in"; "input_tokens"; "tokens_input"])
        (float_to_int <$> anyFloat p ["tokens_out"; "output_tokens"; "tokens_output"])
        (anyFloat p ["usd_estimate"; "usd"; "cost_usd"]) (anyString p ["source"]) false
  | Some _ => no_cost
  end.

(** float64 addition *)
Definition float_add (a b : Z * Z) : Z * Z :=
  let e := Z.min a.2 b.2 in
  let s := a.1 * 2 ^ (a.2 - e) + b.1 * 2 ^ (b.2 - e) in
  if s =? 0 then (0, 0)
  else let r := f64_round (float_num (Z.abs s) e) (float_den e) in (Z.sgn s * r.1, r.2).

(** ** Rows *)

Record blockProjection := mk_block_row { bl_prior_phase : string; bl_resume_phase : string; bl_blocked_by : string }.

Record costProjection := mk_costs {
  co_tokens_in : Z; co_tokens_out : Z; co_usd : Z * Z; co_runner_calls : Z; co_missing : Z }.

Record escalationProjection := mk_escalations {
  es_total : Z; es_pending_batches : Z; es_pending_candidates : Z; es_waiting_event : string; es_waiting_batch : string }.

(** [sessionProjection], with the columns that change together in records of
    their own. *)
Record sessionProjection := mk_session_row {
  sr_id : string; sr_type : string; sr_title : string; sr_moderator : string; sr_status : string; sr_phase : string;
  sr_block : blockProjection; sr_turn : Z; sr_round : Z; sr_last_speaker : string; sr_costs : costProjection;
  sr_escalations : escalationProjection; sr_surface : string; sr_linked : string; sr_linked_result : string;
  sr_created_at : string; sr_updated_at : string; sr_closed_at : string }.

Record participantProjection := mk_participant_row {
  pr_session_id : string; pr_member : string; pr_display_name : string; pr_role : string; pr_wrapper : string;
  pr_session_ref : string; pr_runtime_status : string }.

Record eventProjection := mk_event_row {
  ep_event_id : string; ep_schema_version : Z; ep_command_id : string; ep_causation : string; ep_correlation : string;
  ep_session_id : string; ep_session_type : string; ep_turn : option Z; ep_phase : string; ep_type : string;
  ep_sender : string; ep_recipients : list string; ep_runner : string; ep_cost : parsedCost; ep_created_at : string;
  ep_payload : string }.

Record recipientProjection := mk_recipient_row {
  rp_event_id : string; rp_session_id : string; rp_recipient : string; rp_ordinal : Z }.

Record runnerProjection := mk_runner_row {
  rr_invocation_id : string; rr_session_id : string; rr_member : string; rr_adapter_kind : string;
  rr_source_command_id : string; rr_started_event : string; rr_terminal_event : string; rr_attempt : Z; rr_is_retry : bool;
  rr_status : string; rr_cost : parsedCost; rr_cost_missing : bool; rr_cost_aggregated : bool;
  rr_duration : option (Z * Z); rr_started_at : string; rr_completed_at : string }.

Record batchProjection := mk_batch_row {
  br_batch_id : string; br_session_id : string; br_status : string; br_first_event : string; br_latest_event : string;
  br_user_event : string; br_window_sec : Z; br_pending : Z; br_deadline_at : string; br_prior_phase : string;
  br_resume_phase : string; br_created_at : string; br_updated_at : string; br_flushed_at : string }.

Record batchItemProjection := mk_item_row {
  bi_batch_id : string; bi_session_id : string; bi_source_event : string; bi_added_event : string; bi_source_member : string;
  bi_question_hash : string; bi_urgency : string; bi_created_at : string }.

Record streamCursorProjection := mk_cursor_row {
  cu_session_id : string; cu_member : string; cu_cursor : string; cu_event_id : string; cu_acknowledged_at : string }.

Record streamSubscriberProjection := mk_subscriber_row {
  sb_session_id : string; sb_member : string; sb_subscriber_id : string; sb_connected_at : string;
  sb_last_heartbeat_at : string; sb_last_cursor : string; sb_status : string }.

Record delegationReviewProjection := mk_review_row {
  dr_session_id : string; dr_round : Z; dr_reviewer : string; dr_verdict : string; dr_findings : string; dr_created_at : string }.

Record handRaiseProjection := mk_raise_row {
  hr_session_id : string; hr_turn : Z; hr_member : string; hr_wants_to_speak : bool; hr_eligible : bool; hr_intent : string;
  hr_reason : string; hr_evidence_summary : string; hr_ineligibility : string; hr_drop_status : string;
  hr_drop_event : string; hr_request_event : string; hr_observed_cursor : string; hr_stance_continuity : string;
  hr_stance_summary : string; hr_accepted_claims : string; hr_relevance : option Z; hr_urgency : option Z;
  hr_created_at : string }.

Record attendanceProjection := mk_attendance_row {
  at_session_id : string; at_member : string; at_requested_event : string; at_attended_event : string; at_status : string;
  at_summary : string; at_surface_evidence : string; at_requested_at : string; at_attended_at : string; at_required : bool }.

Record agendaLockProjection := mk_lock_row {
  al_session_id : string; al_event_id : string; al_locked_by : string; al_decision_question : string; al_constraints : string;
  al_surface_evidence : string; al_locked_at : string }.

Record voteProjection := mk_vote_row {
  vp_session_id : string; vp_round : Z; vp_draft : Z; vp_member : string; vp_vote : string; vp_reason : string;
  vp_required_change : string; vp_created_at : string }.

Record linkedAuthorityProjection := mk_linked_row {
  lp_session_id : string; lp_terminal_event : string; lp_status : string; lp_card : string; lp_comment : string;
  lp_note : string; lp_followup : string; lp_failure : string; lp_evidence : string; lp_recorded_at : string }.

Record commandProjection := mk_command_row {
  cp_command_id : string; cp_session_id : string; cp_first_event : string; cp_summary : string; cp_created_at : string }.

Record artifactProjection := mk_artifact_row {
  ap_session_id : string; ap_artifact_id : string; ap_source_path : string; ap_stored_path : string; ap_size : Z;
  ap_sha256 : string; ap_mime : string; ap_ingested_at : string }.

Record argumentGraphProjectionRow := mk_graph_row {
  ag_session_id : string; ag_event_id : string; ag_ordinal : Z; ag_turn : Z; ag_speaker : string; ag_speech : string;
  ag_contribution_type : string; ag_new_axis_reason : string; ag_status : string; ag_diagnostic : string; ag_claims : string;
  ag_stance_links : string; ag_evidence : string; ag_quality_diagnostics : string; ag_relation_audit : string }.

(** ** State *)

(** Tables that council events change. *)
Record council_tables := mk_council_tables {
  ct_attendance : gmap string attendanceProjection; ct_locks : gmap string agendaLockProjection;
  ct_raises : gmap string handRaiseProjection; ct_votes : gmap string voteProjection;
  ct_linked : gmap string linkedAuthorityProjection }.

(** Tables that stream, review and submission events change, and the speeches. *)
Record other_tables := mk_other_tables {
  ot_cursors : gmap string streamCursorProjection; ot_subscribers : gmap string streamSubscriberProjection;
  ot_reviews : gmap string delegationReviewProjection; ot_artifacts : gmap string artifactProjection;
  ot_graphs : gmap string argumentGraphProjectionRow }.

Record batch_tables := mk_batch_tables {
  bt_batches : gmap string batchProjection; bt_items : gmap string batchItemProjection }.

(** [projectionState]; [pj_hashed] is what the hash was fed so far. *)
Record projectionState := mk_projection {
  pj_sessions : gmap string sessionProjection; pj_participants : gmap string participantProjection;
  pj_events : list eventProjection; pj_recipients : list recipientProjection; pj_runners : gmap string runnerProjection;
  pj_batch : batch_tables; pj_council : council_tables; pj_other : other_tables;
  pj_commands : gmap string commandProjection; pj_command_events : gmap string (list eventProjection);
  pj_hashed : string }.

Definition newProjectionState : projectionState :=
  mk_projection ∅ ∅ [] [] ∅ (mk_batch_tables ∅ ∅) (mk_council_tables ∅ ∅ ∅ ∅ ∅) (mk_other_tables ∅ ∅ ∅ ∅ ∅) ∅ ∅ "".

(** ** initSession *)

(** What readSnapshotMembers keeps of a member. *)
Record snapshotMember := mk_snapshot_member { sm_display_name : string; sm_role : string; sm_wrapper : string }.

Definition no_block : blockProjection := mk_block_row "" "" "".
Definition no_costs : costProjection := mk_costs 0 0 (0, 0) 0 0.
Definition no_escalations : escalationProjection := mk_escalations 0 0 0 "" "".

Definition session_row (md : SessionMetadata) : sessionProjection :=
  let st := md_state md in
  mk_session_row (md_id md) (md_session_type md) (md_title md) (md_moderator md) (statusFromPhase (st_phase st)) (st_phase st)
    no_block (st_current_turn st) (st_consensus_round st) (st_last_speaker st) no_costs no_escalations
    (pointer_json surface_json (md_surface md)) (pointer_json linked_authority_json (md_linked_authority md)) ""
    (timeText (md_created_at md)) (timeText (md_created_at md)) "".

Definition participant_row (md : SessionMetadata) (snapshot : gmap string snapshotMember) (member : string)
    : participantProjection :=
  let snap := default (mk_snapshot_member "" "" "") (snapshot !! member) in
  mk_participant_row (md_id md) member (sm_display_name snap) (sm_role snap) (sm_wrapper snap) (md_id md) "unknown".

Definition initSession (st : projectionState) (md : SessionMetadata) (snapshot : gmap string snapshotMember)
    : projectionState :=
  mk_projection (<[md_id md := session_row md]> (pj_sessions st))
    (foldl (fun m member => <[row_key [md_id md; member] := participant_row md snapshot member]> m) (pj_participants st)
       (md_participants md))
    (pj_events st) (pj_recipients st) (pj_runners st) (pj_batch st) (pj_council st) (pj_other st) (pj_commands st)
    (pj_command_events st) (pj_hashed st).

(** ** applyEvent *)

Definition event_row (e : EventEnvelope) (cost : parsedCost) : eventProjection :=
  mk_event_row (ev_event_id e) (ev_schema_version e) (ev_command_id e) (ev_causation_event_id e) (ev_correlation_id e)
    (ev_session_id e) (ev_session_type e) (ev_turn e) (ev_phase e) (ev_type e) (ev_from e) (ev_to e)
    (pointer_json runner_json (ev_runner e)) cost (timeText (ev_created_at e)) (map_json (ev_payload e)).

(** [%012d] *)
Definition ordinal_text (offset : Z) : string :=
  if (0 <=? offset) && (offset <? 10 ^ 12) then pad_digits 12 offset else itoa offset.

Definition hash_parts (parts : list string) : string := foldr (fun p rest => p +:+ nul +:+ rest) "" parts.

Fixpoint recipient_rows (e : EventEnvelope) (ordinal : Z) (to : list string) : list recipientProjection :=
  match to with
  | [] => []
  | r :: rest => mk_recipient_row (ev_event_id e) (ev_session_id e) r ordinal :: recipient_rows e (ordinal + 1) rest
  end.

(** The columns of the session that applyEvent itself changes. *)
Definition block_step (b : blockProjection) (e : EventEnvelope) : blockProjection :=
  let b := if ev_phase e == "blocked"
           then mk_block_row (anyString (pl e) ["prior_phase"]) (anyString (pl e) ["resume_phase"]) (ev_event_id e) else b in
  if (ev_type e == "session_resumed") || ((ev_type e == "limits_extended") && (statusFromPhase (ev_phase e) == StatusOpen))
  then no_block else b.

Definition escalation_step (es : escalationProjection) (e : EventEnvelope) : escalationProjection :=
  if ev_type e == "user_escalation_requested" then
    mk_escalations (es_total es + 1) (es_pending_batches es) (es_pending_candidates es) (ev_event_id e)
      (anyString (pl e) ["batch_id"])
  else es.

Definition session_step (r : sessionProjection) (e : EventEnvelope) : sessionProjection :=
  let status := statusFromPhase (ev_phase e) in
  let round := anyInt (pl e) "consensus_round" in
  let at_ := timeText (ev_created_at e) in
  mk_session_row (sr_id r) (sr_type r) (sr_title r) (sr_moderator r) status (ev_phase e) (block_step (sr_block r) e)
    (default (sr_turn r) (ev_turn e)) (if round =? 0 then sr_round r else round) (sr_last_speaker r) (sr_costs r)
    (escalation_step (sr_escalations r) e) (sr_surface r) (sr_linked r) (sr_linked_result r) (sr_created_at r) at_
    (if status == StatusTerminal then at_ else sr_closed_at r).

Definition with_costs (r : sessionProjection) (c : costProjection) : sessionProjection :=
  mk_session_row (sr_id r) (sr_type r) (sr_title r) (sr_moderator r) (sr_status r) (sr_phase r) (sr_block r) (sr_turn r)
    (sr_round r) (sr_last_speaker r) c (sr_escalations r) (sr_surface r) (sr_linked r) (sr_linked_result r)
    (sr_created_at r) (sr_updated_at r) (sr_closed_at r).

Definition with_escalations (r : sessionProjection) (es : escalationProjection) : sessionProjection :=
  mk_session_row (sr_id r) (sr_type r) (sr_title r) (sr_moderator r) (sr_status r) (sr_phase r) (sr_block r) (sr_turn r)
    (sr_round r) (sr_last_speaker r) (sr_costs r) es (sr_surface r) (sr_linked r) (sr_linked_result r) (sr_created_at r)
    (sr_updated_at r) (sr_closed_at r).

Definition with_linked_result (r : sessionProjection) (json : string) : sessionProjection :=
  mk_session_row (sr_id r) (sr_type r) (sr_title r) (sr_moderator r) (sr_status r) (sr_phase r) (sr_block r) (sr_turn r)
    (sr_round r) (sr_last_speaker r) (sr_costs r) (sr_escalations r) (sr_surface r) (sr_linked r) json (sr_created_at r)
    (sr_updated_at r) (sr_closed_at r).

(** ** Runner events *)

Definition invocation_of (e : EventEnvelope) (r : RunnerInfo) : string :=
  if rn_invocation_id r == "" then anyString (pl e) ["invocation_id"] else rn_invocation_id r.

Definition started_row (e : EventEnvelope) (r : RunnerInfo) (id : string) : runnerProjection :=
  mk_runner_row id (ev_session_id e) (rn_member r) (rn_adapter_kind r) (rn_source_command_id r) (ev_event_id e) ""
    (rn_attempt r) (rn_is_retry r) "started" no_cost false false None (timeText (ev_created_at e)) "".

Definition runner_outcome (e : EventEnvelope) (r : RunnerInfo) : string :=
  if ev_type e == "runner_result_discarded" then "discarded_after_cancel"
  else if ev_type e == "runner_invocation_failed" then
    if rn_status r == "" then
      let status := anyString (pl e) ["status"; "reason"] in
      if status == "" then "failed" else status
    else rn_status r
  else "succeeded".

(** The cost of an invocation is taken from its first event after its start. *)
Definition ended_row (row : runnerProjection) (e : EventEnvelope) (r : RunnerInfo) (cost : parsedCost) : runnerProjection :=
  let fresh := negb (rr_cost_aggregated row) in
  mk_runner_row (rr_invocation_id row) (rr_session_id row) (rr_member row) (rr_adapter_kind row) (rr_source_command_id row)
    (rr_started_event row) (ev_event_id e) (rr_attempt row) (rr_is_retry row) (runner_outcome e r)
    (if fresh then cost else rr_cost row) (if fresh && pc_null cost then true else rr_cost_missing row) true
    (match rn_duration_sec r with Some d => Some d | None => rr_duration row end) (rr_started_at row)
    (timeText (ev_created_at e)).

Definition add_cost (c : costProjection) (cost : parsedCost) : costProjection :=
  if pc_null cost then mk_costs (co_tokens_in c) (co_tokens_out c) (co_usd c) (co_runner_calls c) (co_missing c + 1)
  else
    mk_costs (match pc_tokens_in cost with Some n => wrap64 (co_tokens_in c + n) | None => co_tokens_in c end)
      (match pc_tokens_out cost with Some n => wrap64 (co_tokens_out c + n) | None => co_tokens_out c end)
      (match pc_usd cost with Some f => float_add (co_usd c) f | None => co_usd c end) (co_runner_calls c) (co_missing c).

Definition add_call (c : costProjection) : costProjection :=
  mk_costs (co_tokens_in c) (co_tokens_out c) (co_usd c) (co_runner_calls c + 1) (co_missing c).

Definition applyRunnerEvent (runners : gmap string runnerProjection) (session : option sessionProjection) (e : EventEnvelope)
    (cost : parsedCost) : gmap string runnerProjection * option sessionProjection :=
  match ev_runner e with
  | None => (runners, session)
  | Some r =>
      let id := invocation_of e r in
      if id == "" then (runners, session)
      else if ev_type e == "runner_invocation_started" then
        (<[id := started_row e r id]> runners, (fun s => with_costs s (add_call (sr_costs s))) <$> session)
      else
        let row := default (started_row e r id) (runners !! id) in
        (<[id := ended_row row e r cost]> runners,
         if rr_cost_aggregated row then session else (fun s => with_costs s (add_cost (sr_costs s) cost)) <$> session)
  end.

(** ** Escalation events *)

Definition new_batch (e : EventEnvelope) (id : string) : batchProjection :=
  mk_batch_row id (ev_session_id e) "pending" (ev_event_id e) "" "" (anyInt (pl e) "batch_window_sec") 0
    (anyString (pl e) ["batch_deadline_at"]) (anyString (pl e) ["prior_phase"]) (anyString (pl e) ["resume_phase"])
    (timeText (ev_created_at e)) "" "".

Definition grown_batch (b : batchProjection) (e : EventEnvelope) : batchProjection :=
  mk_batch_row (br_batch_id b) (br_session_id b) (br_status b) (br_first_event b) (ev_event_id e) (br_user_event b)
    (br_window_sec b) (br_pending b + 1) (br_deadline_at b) (br_prior_phase b) (br_resume_phase b) (br_created_at b)
    (timeText (ev_created_at e)) (br_flushed_at b).

Definition flushed_batch (b : batchProjection) (e : EventEnvelope) : batchProjection :=
  mk_batch_row (br_batch_id b) (br_session_id b) "flushed" (br_first_event b) (ev_event_id e) (ev_event_id e)
    (br_window_sec b) 0 (br_deadline_at b) (br_prior_phase b) (br_resume_phase b) (br_created_at b)
    (timeText (ev_created_at e)) (timeText (ev_created_at e)).

Definition limited_batch (b : batchProjection) (e : EventEnvelope) : batchProjection :=
  mk_batch_row (br_batch_id b) (br_session_id b) "rate_limited" (br_first_event b) (ev_event_id e) (br_user_event b)
    (br_window_sec b) (br_pending b) (br_deadline_at b) (br_prior_phase b) (br_resume_phase b) (br_created_at b)
    (timeText (ev_created_at e)) (br_flushed_at b).

Definition batch_item (e : EventEnvelope) (id : string) : batchItemProjection :=
  let source := anyString (pl e) ["source_event_id"] in
  mk_item_row id (ev_session_id e) (if source == "" then ev_event_id e else source) (ev_event_id e)
    (anyString (pl e) ["source_member"; "member"]) (anyString (pl e) ["question_hash"]) (anyString (pl e) ["urgency"])
    (timeText (ev_created_at e)).

Definition is_pending (sid : string) (b : batchProjection) : bool := (br_session_id b == sid) && (br_status b == "pending").

Definition pending_of (batches : gmap string batchProjection) (sid : string) : gmap string batchProjection :=
  filter (fun kb : string * batchProjection => is_pending sid kb.2 = true) batches.

(** Sums over the values of a Go map do not depend on its order. *)
Definition countPendingBatches (batches : gmap string batchProjection) (sid : string) : Z :=
  Z.of_nat (size (pending_of batches sid)).

Definition countPendingBatchItems (batches : gmap string batchProjection) (sid : string) : Z :=
  map_fold (fun _ b n => n + br_pending b) 0 (pending_of batches sid).

Definition with_pending (r : sessionProjection) (batches : gmap string batchProjection) (sid : string) : sessionProjection :=
  let es := sr_escalations r in
  with_escalations r (mk_escalations (es_total es) (countPendingBatches batches sid) (countPendingBatchItems batches sid)
                        (es_waiting_event es) (es_waiting_batch es)).

(** The tables after an escalation event; what the code does to the counters
    before it counts again is not seen. *)
Definition batch_tables_step (t : batch_tables) (e : EventEnvelope) (id : string) : batch_tables :=
  let batches := bt_batches t in
  if ev_type e == "escalation_batched" then
    let item := batch_item e id in
    mk_batch_tables (<[id := grown_batch (default (new_batch e id) (batches !! id)) e]> batches)
      (<[row_key [id; bi_source_event item] := item]> (bt_items t))
  else if (ev_type e == "user_escalation_requested") && (id != "") && anyBool (pl e) ["batch"; "batched"] then
    mk_batch_tables (alter (fun b => flushed_batch b e) id batches) (bt_items t)
  else if (ev_type e == "escalation_rate_limited") && (id != "") then
    mk_batch_tables (alter (fun b => limited_batch b e) id batches) (bt_items t)
  else t.

Definition applyEscalationEvent (t : batch_tables) (session : option sessionProjection) (e : EventEnvelope)
    : batch_tables * option sessionProjection :=
  let id := anyString (pl e) ["batch_id"] in
  if (ev_type e == "escalation_batched") && (id == "") then (t, session)
  else
    let t' := batch_tables_step t e id in
    (t', (fun s => with_pending s (bt_batches t') (ev_session_id e)) <$> session).

(** ** Council events *)

Definition stringSetFromPayload (p : payload) (key : string) : gset string :=
  list_to_set (omap (fun v => match v with AStr s => Some s | _ => None end) (anySlice p key)).

Definition requested_row (e : EventEnvelope) (required : gset string) (member : string) : attendanceProjection :=
  mk_attendance_row (ev_session_id e) member (ev_event_id e) "" "requested" "" "" (timeText (ev_created_at e)) ""
    (bool_decide (required = ∅) || bool_decide (member ∈ required)).

Definition attendance_answered (row : attendanceProjection) (e : EventEnvelope) : attendanceProjection :=
  mk_attendance_row (at_session_id row) (at_member row) (at_requested_event row) (ev_event_id e)
    (anyString (pl e) ["attendance_status"; "status"]) (anyString (pl e) ["attendance_summary"; "summary"])
    (map_json (anyMap (pl e) ["surface_evidence"])) (at_requested_at row) (timeText (ev_created_at e)) (at_required row).

(** The member an event is about: the payload's, or the sender. *)
Definition member_or_sender (key : string) (e : EventEnvelope) : string :=
  let member := anyString (pl e) [key] in
  if member == "" then ev_from e else member.

Definition lock_row (e : EventEnvelope) : agendaLockProjection :=
  mk_lock_row (ev_session_id e) (ev_event_id e) (ev_from e) (anyString (pl e) ["decision_question"])
    (map_json (anyMap (pl e) ["constraints"])) (map_json (anyMap (pl e) ["surface_evidence"])) (timeText (ev_created_at e)).

Definition raise_turn (e : EventEnvelope) : Z := default (anyInt (pl e) "turn") (ev_turn e).

Definition raise_row (session : option sessionProjection) (e : EventEnvelope) : handRaiseProjection :=
  let dropped := ev_type e == "hand_raise_dropped" in
  let recent := match session with Some s => sr_last_speaker s == ev_from e | None => false end in
  let text key := anyString (pl e) [key] in
  mk_raise_row (ev_session_id e) (raise_turn e) (ev_from e) (anyBool (pl e) ["wants_to_speak"]) (negb dropped && negb recent)
    (text "intent") (text "reason") (text "evidence_summary") (if recent then "recent_speaker" else "")
    (if dropped then "dropped" else "raised") (if dropped then ev_event_id e else text "drop_event_id")
    (text "request_event_id") (text "observed_cursor") (text "stance_continuity") (text "current_stance_summary")
    (slice_json (pl e) "accepted_claims") (float_to_int <$> anyFloat (pl e) ["relevance"])
    (float_to_int <$> anyFloat (pl e) ["urgency"]) (timeText (ev_created_at e)).

Definition vote_round (session : option sessionProjection) (e : EventEnvelope) : Z :=
  let round := anyInt (pl e) "consensus_round" in
  match session with
  | Some s => if round =? 0 then sr_round s else round
  | None => round
  end.

Definition vote_projection (session : option sessionProjection) (e : EventEnvelope) : voteProjection :=
  mk_vote_row (ev_session_id e) (vote_round session e) (anyInt (pl e) "draft_version") (ev_from e) (anyString (pl e) ["vote"])
    (anyString (pl e) ["reason"]) (anyString (pl e) ["required_change"]) (timeText (ev_created_at e)).

Definition vote_key (v : voteProjection) : string :=
  row_key [vp_session_id v; itoa (vp_round v); itoa (vp_draft v); vp_member v].

Definition linked_row (e : EventEnvelope) (result : payload) : linkedAuthorityProjection :=
  let text key := anyString result [key] in
  mk_linked_row (ev_session_id e) (ev_event_id e) (text "status") (text "kanban_card_id") (text "kanban_comment_id")
    (text "vault_decision_note") (text "followup_card_id") (text "failure_reason") (map_json (anyMap result ["evidence"]))
    (timeText (ev_created_at e)).

Definition attendance_projection_step (m : gmap string attendanceProjection) (e : EventEnvelope) : gmap string attendanceProjection :=
  if ev_type e == "attendance_requested" then
    let required := stringSetFromPayload (pl e) "required_members" in
    foldl (fun m member => if member == "user" then m
                           else <[row_key [ev_session_id e; member] := requested_row e required member]> m) m (ev_to e)
  else if ev_type e == "member_attended" then
    let member := member_or_sender "member" e in
    let key := row_key [ev_session_id e; member] in
    let fresh := mk_attendance_row (ev_session_id e) member "" "" "" "" "" (timeText (ev_created_at e)) "" true in
    <[key := attendance_answered (default fresh (m !! key)) e]> m
  else m.

Definition applyCouncilEvent (t : council_tables) (session : option sessionProjection) (e : EventEnvelope)
    : council_tables * option sessionProjection :=
  let '(mk_council_tables attendance locks raises votes linked) := t in
  if mem_str (ev_type e) ["attendance_requested"; "member_attended"] then
    (mk_council_tables (attendance_projection_step attendance e) locks raises votes linked, session)
  else if ev_type e == "agenda_locked" then
    (mk_council_tables attendance (<[ev_session_id e := lock_row e]> locks) raises votes linked, session)
  else if mem_str (ev_type e) ["hand_raise"; "hand_raise_dropped"] then
    let key := row_key [ev_session_id e; itoa (raise_turn e); ev_from e] in
    (mk_council_tables attendance locks (<[key := raise_row session e]> raises) votes linked, session)
  else if ev_type e == "consensus_vote" then
    let row := vote_projection session e in
    (mk_council_tables attendance locks raises (<[vote_key row := row]> votes) linked, session)
  else if mem_str (ev_type e) ["council_finalized"; "council_unresolved"] then
    match anyMap (pl e) ["linked_authority_result"] with
    | Some result =>
        (mk_council_tables attendance locks raises votes (<[ev_session_id e := linked_row e result]> linked),
         (fun s => with_linked_result s (json_text (AMap result))) <$> session)
    | None => (t, session)
    end
  else (t, session).

(** ** Speeches (argument_graph_projection.go) *)

Definition argumentGraphObjectHasProjectionString (object : payload) (keys : list string) : bool :=
  existsb (fun key => match object !! key with
                      | Some (AStr s) => negb (is_blank s)
                      | _ => false
                      end) keys.

Definition argumentGraphObjectArray (value : any) (keys : list string) : bool :=
  match value with
  | AList items =>
      forallb (fun item => match item with
                           | AMap object => argumentGraphObjectHasProjectionString object keys
                           | _ => false
                           end) items
  | AMaps items => forallb (fun object => argumentGraphObjectHasProjectionString object keys) items
  | _ => false
  end.

Definition argumentGraphClaimsArray (value : any) : bool :=
  argumentGraphObjectArray value ["id"; "claim_id"; "text"; "summary"; "content"].

Definition argumentGraphStanceLinksArray (value : any) : bool :=
  argumentGraphObjectArray value ["target_event_id"; "target_claim_id"; "claim_id"; "target"; "stance"].

Definition argumentGraphQualityDiagnosticsArray (value : any) : bool :=
  argumentGraphObjectArray value ["code"; "diagnostic"; "message"; "severity"; "field"; "detail"].

Definition argumentGraphEvidenceElement (value : any) : bool :=
  match value with
  | AStr _ | AMap _ => true
  | _ => false
  end.

Definition argumentGraphEvidenceArray (value : any) : bool :=
  match value with
  | AList items => forallb argumentGraphEvidenceElement items
  | AStrs _ | AMaps _ => true
  | _ => false
  end.

Definition relation_audit_keys : list string :=
  ["relation_audit"; "argument_graph_audit"; "prior_speaker_argue_quality_evidence"].

Definition argumentGraphRelationAudit (p : payload) : option payload :=
  let out := filter (fun kv : string * any => mem_str kv.1 relation_audit_keys = true) p in
  if bool_decide (out = ∅) then None else Some out.

(** The JSON column of a field and its diagnostics. *)
Definition graph_field (p : payload) (key : string) (ok : any -> bool) (diagnostic : string) : string * list string :=
  match p !! key with
  | None => ("null", [])
  | Some value => if ok value then (mustCompactJSON value, []) else ("null", [diagnostic])
  end.

Definition contribution_field (p : payload) : string * list string :=
  match p !! "contribution_type" with
  | None => ("", [])
  | Some (AStr text) =>
      let text := trim_space text in
      if mem_str text argumentGraphContributionTypes then (text, []) else ("", ["unsupported_contribution_type"])
  | Some _ => ("", ["malformed_contribution_type"])
  end.

Definition new_axis_field (p : payload) : string * list string :=
  match p !! "new_axis_reason" with
  | None | Some ANil => ("", [])
  | Some (AStr text) => (trim_space text, [])
  | Some _ => ("", ["malformed_new_axis_reason"])
  end.

Definition relation_keys : list string :=
  ["claims"; "stance_links"; "contribution_type"; "new_axis_reason"; "evidence"; "quality_diagnostics"].

Definition argumentGraphProjectionRowFromEvent (ordinal : Z) (e : EventEnvelope) : argumentGraphProjectionRow :=
  let p := pl e in
  let claims := graph_field p "claims" argumentGraphClaimsArray "malformed_claims" in
  let links := graph_field p "stance_links" argumentGraphStanceLinksArray "malformed_stance_links" in
  let contribution := contribution_field p in
  let axis := new_axis_field p in
  let evidence := graph_field p "evidence" argumentGraphEvidenceArray "malformed_evidence" in
  let quality := graph_field p "quality_diagnostics" argumentGraphQualityDiagnosticsArray "malformed_quality_diagnostics" in
  let audit := argumentGraphRelationAudit p in
  let present := existsb (fun k => match p !! k with Some _ => true | None => false end) relation_keys ||
                 match audit with Some _ => true | None => false end in
  let diagnostics := claims.2 ++ links.2 ++ contribution.2 ++ axis.2 ++ evidence.2 ++ quality.2 ++
                     (if present then [] else ["missing_argument_graph_fields"]) in
  mk_graph_row (ev_session_id e) (ev_event_id e) ordinal (default 0 (payloadInt p "turn")) (ev_from e)
    (payloadStringDefault p "speech" "") contribution.1 axis.1
    (match diagnostics with [] => "projected" | _ => "diagnostic" end) (join "," diagnostics)
    claims.1 links.1 evidence.1 quality.1
    (match audit with Some m => mustCompactJSON (AMap m) | None => "null" end).

Fixpoint argumentGraphProjectionRows (ordinal : Z) (events : list EventEnvelope) : list argumentGraphProjectionRow :=
  match events with
  | [] => []
  | e :: rest =>
      let rows := argumentGraphProjectionRows (ordinal + 1) rest in
      if ev_type e == "speech" then argumentGraphProjectionRowFromEvent ordinal e :: rows else rows
  end.

Definition applyArgumentGraphProjection (m : gmap string argumentGraphProjectionRow) (offset : Z) (e : EventEnvelope)
    : gmap string argumentGraphProjectionRow :=
  if ev_type e == "speech"
  then <[row_key [ev_session_id e; ev_event_id e] := argumentGraphProjectionRowFromEvent offset e]> m else m.

(** ** Stream, review and submission events *)

Definition cursor_row (e : EventEnvelope) : streamCursorProjection :=
  mk_cursor_row (ev_session_id e) (member_or_sender "member" e) (anyString (pl e) ["cursor"]) (anyString (pl e) ["event_id"])
    (timeText (ev_created_at e)).

Definition cursors_step (m : gmap string streamCursorProjection) (e : EventEnvelope) : gmap string streamCursorProjection :=
  if ev_type e == "stream_cursor_acknowledged"
  then <[row_key [ev_session_id e; member_or_sender "member" e] := cursor_row e]> m else m.

Definition subscriber_row (e : EventEnvelope) (id : string) (known : option streamSubscriberProjection)
    : streamSubscriberProjection :=
  let connected := match known with Some row => sb_connected_at row | None => timeText (ev_created_at e) end in
  let status := anyString (pl e) ["status"] in
  mk_subscriber_row (ev_session_id e) (member_or_sender "member" e) id connected (timeText (ev_created_at e))
    (anyString (pl e) ["last_cursor"; "cursor"])
    (if status == "" then trim_prefix (ev_type e) "stream_subscriber_" else status).

Definition subscribers_step (m : gmap string streamSubscriberProjection) (e : EventEnvelope)
    : gmap string streamSubscriberProjection :=
  if mem_str (ev_type e) ["stream_subscriber_connected"; "stream_subscriber_heartbeat"; "stream_subscriber_disconnected"] then
    let id := anyString (pl e) ["subscriber_id"] in
    if id == "" then m
    else let key := row_key [ev_session_id e; member_or_sender "member" e; id] in <[key := subscriber_row e id (m !! key)]> m
  else m.

Definition review_row (e : EventEnvelope) : delegationReviewProjection :=
  let round := anyInt (pl e) "review_round" in
  mk_review_row (ev_session_id e) (if round =? 0 then 1 else round) (member_or_sender "reviewer" e)
    (anyString (pl e) ["verdict"]) (slice_json (pl e) "findings") (timeText (ev_created_at e)).

Definition applyReviewEvent (m : gmap string delegationReviewProjection) (e : EventEnvelope)
    : gmap string delegationReviewProjection :=
  if mem_str (ev_type e) ["review_submitted"; "review_verdict"] then
    let row := review_row e in <[row_key [dr_session_id row; itoa (dr_round row); dr_reviewer row] := row]> m
  else m.

Definition artifact_row (e : EventEnvelope) (id : string) (artifact : payload) : artifactProjection :=
  let text key := anyString artifact [key] in
  mk_artifact_row (ev_session_id e) id (text "source_path") (text "stored_path") (anyInt artifact "size_bytes") (text "sha256")
    (text "mime") (timeText (ev_created_at e)).

Definition put_artifact (e : EventEnvelope) (m : gmap string artifactProjection) (item : any) : gmap string artifactProjection :=
  match item with
  | AMap artifact =>
      let id := anyString artifact ["artifact_id"] in
      if id == "" then m else <[row_key [ev_session_id e; id] := artifact_row e id artifact]> m
  | _ => m
  end.

Definition artifacts_of (e : EventEnvelope) : list any :=
  if ev_type e == "work_submitted" then anySlice (pl e) "artifacts"
  else if ev_type e == "review_requested" then anySlice (pl e) "target_artifacts"
  else if ev_type e == "work_accepted" then anySlice (pl e) "accepted_artifacts"
  else [].

Definition applyArtifacts (m : gmap string artifactProjection) (e : EventEnvelope) : gmap string artifactProjection :=
  foldl (put_artifact e) m (artifacts_of e).

Definition other_tables_step (t : other_tables) (offset : Z) (e : EventEnvelope) : other_tables :=
  mk_other_tables (cursors_step (ot_cursors t) e) (subscribers_step (ot_subscribers t) e) (applyReviewEvent (ot_reviews t) e)
    (applyArtifacts (ot_artifacts t) e) (applyArgumentGraphProjection (ot_graphs t) offset e).

(** ** One event *)

Definition command_events_step (m : gmap string (list eventProjection)) (row : eventProjection)
    : gmap string (list eventProjection) :=
  let id := ep_command_id row in
  if id == "" then m else <[id := default [] (m !! id) ++ [row]]> m.

Definition put_session (m : gmap string sessionProjection) (sid : string) (session : option sessionProjection)
    : gmap string sessionProjection :=
  match session with
  | Some s => <[sid := s]> m
  | None => m
  end.

Definition applyEvent (st : projectionState) (offset : Z) (e : EventEnvelope) : projectionState :=
  let cost := parseCost (ev_cost e) in
  let row := event_row e cost in
  let sid := ev_session_id e in
  let session := (fun s => session_step s e) <$> (pj_sessions st !! sid) in
  let '(runners, session) := applyRunnerEvent (pj_runners st) session e cost in
  let '(batch, session) := applyEscalationEvent (pj_batch st) session e in
  let '(council, session) := applyCouncilEvent (pj_council st) session e in
  mk_projection (put_session (pj_sessions st) sid session) (pj_participants st) (pj_events st ++ [row])
    (pj_recipients st ++ recipient_rows e 0 (ev_to e)) runners batch council (other_tables_step (pj_other st) offset e)
    (pj_commands st) (command_events_step (pj_command_events st) row)
    (pj_hashed st +:+ hash_parts [sid; ordinal_text offset; ev_event_id e; ev_type e; map_json (ev_payload e)]).
