(* ===== verification/Replay.v ===== *)
(** * The replay of a data home (storage/projection.go)

    ReplayProjectionState reads every session of the data home and applies all
    events to the state that network.sqlite is filled with.  A registry snapshot
    is the document it decodes to; one that is not a regular file is not
    modelled, and neither is the database. *)

From S2P Require Import Prelude Paths GoValue GoTime Model Ids Registry Evidence Events Sha256 Session Projection.

(** ** Errors *)

Record ProjectionError := mk_projection_error { pe_kind : string; pe_detail : string; pe_err : session_error }.

(** errors.As finds a projection error that is wrapped already. *)
Definition wrapProjectionError (kind detail : string) (err : session_error) : ProjectionError :=
  match err with
  | EStored (EProjection k d inner) => mk_projection_error k d (EStored inner)
  | _ => mk_projection_error kind detail err
  end.

Definition ProjectionErrorValidation : string := "validation".
Definition ProjectionErrorUnsafeDataHome : string := "unsafe_data_home".
Definition ProjectionErrorReplay : string := "replay".
Definition ProjectionErrorMigration : string := "migration".

Definition wrapped {A} (kind detail : string) (r : result error A) : result ProjectionError A :=
  match r with
  | Ok a => Ok a
  | Err e => Err (wrapProjectionError kind detail (EStored e))
  end.

Definition projection_fail (kind detail category path message : string) : ProjectionError :=
  wrapProjectionError kind detail (EStored (NewValidationError category path message)).

(** ** The data home *)

Definition validateProjectionDataHome (fs : filesystem) (dataHome : string) (ru : Runtime) : result ProjectionError string :=
  let clean := Clean dataHome in
  reject is_blank clean || (clean == ".") with
    projection_fail ProjectionErrorValidation "data home is required" CategoryPathUnsafe "data_home" "data home is required";;
  match ValidateDataHome fs clean ru with
  | Ok _ => Ok clean
  | Err e => Err (wrapProjectionError ProjectionErrorUnsafeDataHome "validate data home" (ERegistry e))
  end.

Definition safeHomeEntries (h : home) (root : string) : result ProjectionError (list (string * session_dir)) :=
  let unsafe detail message :=
    Err (projection_fail ProjectionErrorUnsafeDataHome detail CategorySessionUnsafe root message) in
  match hm_fs h !! root with
  | None => Ok []
  | Some info =>
      match fi_kind info with
      | KSymlink _ => unsafe "sessions root symlink" "sessions directory symlinks are forbidden"
      | _ =>
          if negb (is_dir info) then unsafe "sessions root not directory" "sessions path is not a directory"
          else wrapped ProjectionErrorUnsafeDataHome "" (safeSessionEntries (hm_sessions h))
      end
  end.

Definition snapshot_members (doc : snapshotFile) : gmap string snapshotMember :=
  (fun m => mk_snapshot_member (rm_display_name m) (rm_role m) (rm_wrapper m)) <$> sf_members doc.

Definition readSnapshotMembers (h : home) (name path : string) : result error (gmap string snapshotMember) :=
  let required message := Err (NewValidationError CategorySnapshotRequired path message) in
  match hm_snapshots h !! name with
  | None => required "registry snapshot is required for replay"
  | Some (SnapBad message) => required message
  | Some (SnapDoc doc) =>
      if bool_decide (sf_members doc = ∅) then required "registry snapshot members are required" else Ok (snapshot_members doc)
  end.

(** ** Sessions *)

(** The rows so far, and the ids of the events that were applied. *)
Abbreviation replay_state := (projectionState * gset string)%type.

Fixpoint replay_events (st : replay_state) (offset : Z) (events : list EventEnvelope) : result ProjectionError replay_state :=
  match events with
  | [] => Ok st
  | e :: rest =>
      reject bool_decide (ev_event_id e ∈ st.2) with
        projection_fail ProjectionErrorReplay "duplicate event id across sessions" CategoryDuplicateEventID (ev_event_id e)
          "duplicate event id across sessions";;
      reject negb (ev_schema_version e =? SchemaVersion) with
        projection_fail ProjectionErrorMigration "unsupported event schema" CategoryInvalidEnvelope (ev_event_id e)
          ("unsupported schema version " +:+ itoa (ev_schema_version e));;
      replay_events (applyEvent st.1 offset e, {[ev_event_id e]} ∪ st.2) (offset + 1) rest
  end.

(** What is read of a session before its events are applied. *)
Definition read_for_replay (h : home) (p : string * session_dir)
    : result ProjectionError (SessionMetadata * LogIndex * gmap string snapshotMember) :=
  let '(name, sd) := p in
  try md := wrapped ProjectionErrorReplay "load session metadata" (LoadSessionYAML sd) in
  let version := sn_schema_version (md_registry_snapshot md) in
  reject negb (version =? SchemaVersion) with
    projection_fail ProjectionErrorMigration "unsupported registry snapshot schema" CategoryMetadataInvalid (sd_path sd)
      ("unsupported snapshot schema version " +:+ itoa version);;
  try ix := wrapped ProjectionErrorReplay "read channel.jsonl" (ReadLogIndex sd md) in
  try snapshot := wrapped ProjectionErrorReplay "read registry snapshot"
                    (readSnapshotMembers h name (Join [sd_path sd; SnapshotFileName])) in
  Ok (md, ix, snapshot).

Definition replay_session (h : home) (st : replay_state) (p : string * session_dir) : result ProjectionError replay_state :=
  try read := read_for_replay h p in
  let '(md, ix, snapshot) := read in
  replay_events (initSession st.1 md snapshot, st.2) 0 (ix_events ix).

Fixpoint replay_sessions (h : home) (st : replay_state) (entries : list (string * session_dir))
    : result ProjectionError replay_state :=
  match entries with
  | [] => Ok st
  | p :: rest => try st' := replay_session h st p in replay_sessions h st' rest
  end.

(** ** finalizeCommands *)

Definition command_summary (rows : list eventProjection) : string :=
  json_text (AMaps (map (fun r => {[ "event_id" := AStr (ep_event_id r); "type" := AStr (ep_type r);
                                     "phase" := AStr (ep_phase r) ]}) rows)).

Definition finalize_command (commands : gmap string commandProjection) (p : string * list eventProjection)
    : result ProjectionError (gmap string commandProjection) :=
  match p.2 with
  | [] => Ok commands
  | first :: rest =>
      reject existsb (fun r => ep_session_id r != ep_session_id first) rest with
        projection_fail ProjectionErrorReplay "command id crosses sessions" CategoryCommandConflict p.1
          "command_id maps to multiple sessions";;
      Ok (<[p.1 := mk_command_row p.1 (ep_session_id first) (ep_event_id first) (command_summary p.2) (ep_created_at first)]>
            commands)
  end.

Fixpoint finalize_all (commands : gmap string commandProjection) (l : list (string * list eventProjection))
    : result ProjectionError (gmap string commandProjection) :=
  match l with
  | [] => Ok commands
  | p :: rest => try commands' := finalize_command commands p in finalize_all commands' rest
  end.

Definition with_commands (st : projectionState) (commands : gmap string commandProjection) : projectionState :=
  mk_projection (pj_sessions st) (pj_participants st) (pj_events st) (pj_recipients st) (pj_runners st) (pj_batch st)
    (pj_council st) (pj_other st) commands (pj_command_events st) (pj_hashed st).

Definition finalizeCommands (st : projectionState) : result ProjectionError projectionState :=
  try commands := finalize_all (pj_commands st) (sorted_entries (pj_command_events st)) in
  Ok (with_commands st commands).

(** ** ReplayProjectionState *)

Definition ReplayProjectionState (h : home) (dataHome : string) (ru : Runtime) : result ProjectionError projectionState :=
  try clean := validateProjectionDataHome (hm_fs h) dataHome ru in
  try entries := safeHomeEntries h (Join [clean; SessionsDirName]) in
  try st := replay_sessions h (newProjectionState, ∅) entries in
  finalizeCommands st.1.

Definition sourceHash (st : projectionState) : string := "sha256:" +:+ sha256_hex (pj_hashed st).
