(* ===== verification/ReplayTheory.v ===== *)
(** * Correctness of the replay

    When a data home can be replayed and what the rows then are: every session's
    rows are those of its own log, and its row in the table of sessions reports
    that log. *)

From S2P Require Import Prelude Paths GoValue GoTime Model Ids Registry Evidence Events EventLog Session Projection Replay.

(** ** The replay as a fold over what was read *)

Abbreviation session_input := (SessionMetadata * LogIndex * gmap string snapshotMember)%type.

Fixpoint apply_all (st : projectionState) (offset : Z) (events : list EventEnvelope) : projectionState :=
  match events with
  | [] => st
  | e :: rest => apply_all (applyEvent st offset e) (offset + 1) rest
  end.

Definition input_events (i : session_input) : list EventEnvelope := ix_events i.1.2.

Definition project (st : projectionState) (i : session_input) : projectionState :=
  apply_all (initSession st i.1.1 i.2) 0 (input_events i).

Definition projected (l : list session_input) : projectionState := foldl project newProjectionState l.

Definition events_of (l : list session_input) : list EventEnvelope := concat (map input_events l).

(** Every event of what was read is valid for its session. *)
Definition input_ok (i : session_input) : Prop := Forall (fun e => envelope_issues i.1.1 e = []) (input_events i).

Lemma valid_event md e :
  envelope_issues md e = [] -> ev_schema_version e = SchemaVersion /\ ev_session_id e = md_id md /\ ValidateSessionID (md_id md) = Ok tt.
Proof.
  unfold envelope_issues. intros H. repeat (apply app_eq_nil in H as [? H]).
  rewrite issue_when_nil in *. bool_prop. split; [done|]. split; [done|].
  match goal with H : result_issues _ = [] |- _ => revert H end.
  replace (ev_session_id e) with (md_id md) by done. unfold ValidateSessionID.
  repeat match goal with |- context [if ?b then _ else _] => destruct b; [by intros|] end. done.
Qed.

Lemma replay_events_ok events : forall st offset r,
  Forall (fun e => ev_schema_version e = SchemaVersion) events ->
  replay_events st offset events = Ok r <->
  NoDup (map ev_event_id events) /\ (forall x, x ∈ map ev_event_id events -> x ∉ st.2) /\
  r = (apply_all st.1 offset events, list_to_set (map ev_event_id events) ∪ st.2).
Proof.
  induction events as [|e events IH]; intros [st ids] offset r Hv; cbn [replay_events apply_all map list_to_set fst snd].
  - rewrite union_empty_l_L. split; [intros [= <-]|intros (_ & _ & ->); done].
    split; [constructor|]. split; [set_solver | done].
  - inversion Hv as [|? ? Hve Hv']; subst. rewrite Hve, Z.eqb_refl. cbn [negb].
    destruct (bool_decide_reflect (ev_event_id e ∈ ids)) as [Hin|Hin].
    { split; [done|]. intros (_ & Hd & _). destruct (Hd (ev_event_id e)); [by left | done]. }
    rewrite IH by done. cbn [fst snd]. rewrite NoDup_cons. split.
    + intros (Hnd & Hd & ->). split_and!; [|done| |].
      * intros Hx. apply Hd in Hx. set_solver.
      * intros x [->|Hx]%elem_of_cons; [done|]. apply Hd in Hx. set_solver.
      * f_equal. set_solver.
    + intros ([Hne Hnd] & Hd & ->). split_and!; [done| |].
      * intros x Hx. specialize (Hd x). rewrite elem_of_cons in Hd. intros [->%elem_of_singleton|Hy]%elem_of_union; [done|]. naive_solver.
      * f_equal. set_solver.
Qed.

Lemma read_for_replay_ok h p i :
  read_for_replay h p = Ok i -> LoadSessionYAML p.2 = Ok i.1.1 /\ ReadLogIndex p.2 i.1.1 = Ok i.1.2 /\ input_ok i.
Proof.
  unfold read_for_replay, wrapped. destruct p as [name sd]. intros H. run_inv H. subst i. cbn.
  destruct (LoadSessionYAML sd) eqn:Hl; [|done]. injection Hrun as ->. destruct (ReadLogIndex sd a) eqn:Hr; [|done].
  injection Hrun0 as ->. split; [done|]. split; [done|]. by apply ReadLogIndex_ok in Hr as (_ & _ & Hr).
Qed.

Lemma input_versions i : input_ok i -> Forall (fun e => ev_schema_version e = SchemaVersion) (input_events i).
Proof. intros H. eapply Forall_impl; [exact H|]. intros e He. by apply valid_event in He as [He _]. Qed.

Lemma seen_app (a b : list string) (ids : gset string) :
  list_to_set b ∪ (list_to_set a ∪ ids) = (list_to_set (a ++ b) ∪ ids : gset string).
Proof. rewrite list_to_set_app_L. set_solver. Qed.

Lemma replay_sessions_ok h entries : forall st r,
  replay_sessions h st entries = Ok r <->
  exists l, Forall2 (fun p i => read_for_replay h p = Ok i) entries l /\
    NoDup (map ev_event_id (events_of l)) /\ (forall x, x ∈ map ev_event_id (events_of l) -> x ∉ st.2) /\
    r = (foldl project st.1 l, list_to_set (map ev_event_id (events_of l)) ∪ st.2).
Proof.
  induction entries as [|p entries IH]; intros [st ids] r; cbn [replay_sessions].
  { split.
    - intros [= <-]. exists []. cbn. rewrite union_empty_l_L. split_and!; [constructor|constructor|set_solver|done].
    - intros (l & Hl & _ & _ & ->). inversion Hl; subst. cbn. by rewrite union_empty_l_L. }
  unfold replay_session. destruct (read_for_replay h p) as [i|] eqn:Hread; cbn [mbind result_bind].
  2: { split; [done|]. intros (l & Hl & _). inversion Hl; subst. by rewrite Hread in *. }
  pose proof (input_versions i (proj2 (proj2 (read_for_replay_ok _ _ _ Hread)))) as Hv. destruct i as [[md ix] snap] eqn:Ei. cbn [fst snd].
  pose proof (replay_events_ok (ix_events ix) (initSession st md snap, ids) 0) as Hev. cbn [fst snd] in Hev.
  assert (Hcat : forall l, map ev_event_id (events_of ((md, ix, snap) :: l)) = map ev_event_id (ix_events ix) ++ map ev_event_id (events_of l))
    by (intros l; unfold events_of, input_events; cbn; by rewrite map_app).
  split.
  - destruct (replay_events _ _ _) as [st1|] eqn:E; cbn [mbind result_bind]; [|done]. intros H.
    destruct (proj1 (Hev st1 Hv) eq_refl) as (Hnd & Hd & ->). apply IH in H as (l & Hl & Hnd' & Hd' & ->). cbn [fst snd] in *.
    exists ((md, ix, snap) :: l). rewrite Hcat, <- seen_app. split_and!; [by constructor| | |done].
    + apply NoDup_app. split_and!; [done| |done]. intros x Hx Hx'. apply (Hd' x Hx'), elem_of_union_l, elem_of_list_to_set, Hx.
    + intros x [Hx|Hx]%elem_of_app; [by apply Hd|]. intros Hy. apply (Hd' x Hx). by apply elem_of_union_r.
  - intros (l & Hl & Hnd & Hd & ->). inversion Hl as [|? i' ? l' Hi Hl']; subst. rewrite Hread in Hi. injection Hi as <-.
    rewrite Hcat, <- seen_app in *. apply NoDup_app in Hnd as (Hnd1 & Hdis & Hnd2).
    destruct (replay_events _ _ _) as [st1|] eqn:E.
    + destruct (proj1 (Hev st1 Hv) eq_refl) as (_ & _ & ->). cbn [mbind result_bind]. apply IH. exists l'. cbn [fst snd].
      split_and!; [done|done| |done].
      intros x Hx [Hy%elem_of_list_to_set|Hy]%elem_of_union; [by apply (Hdis x Hy)|].
      apply (Hd x); [|done]. apply elem_of_app. by right.
    + assert (H : Err e = Ok (apply_all (initSession st md snap) 0 (ix_events ix), list_to_set (map ev_event_id (ix_events ix)) ∪ ids));
        [|discriminate H]. apply Hev; [done|]. split_and!; [done| |reflexivity]. intros x Hx. apply Hd, elem_of_app. by left.
Qed.

(** ** The events of a command *)

Definition row_of (e : EventEnvelope) : eventProjection := event_row e (parseCost (ev_cost e)).

Definition of_command (id : string) (r : eventProjection) : bool := ep_command_id r == id.

Definition commands_listed (st : projectionState) : Prop :=
  forall id, pj_command_events st !! id =
    match List.filter (of_command id) (pj_events st) with
    | [] => None
    | rows => if id == "" then None else Some rows
    end.

Lemma applyEvent_fields st offset e :
  pj_events (applyEvent st offset e) = pj_events st ++ [row_of e] /\
  pj_command_events (applyEvent st offset e) = command_events_step (pj_command_events st) (row_of e) /\
  pj_commands (applyEvent st offset e) = pj_commands st.
Proof.
  unfold applyEvent. destruct (applyRunnerEvent _ _ _ _) as [runners s1]. destruct (applyEscalationEvent _ _ _) as [batch s2].
  by destruct (applyCouncilEvent _ _ _) as [council s3].
Qed.

Lemma applyEvent_listed st offset e : commands_listed st -> commands_listed (applyEvent st offset e).
Proof.
  intros H id. destruct (applyEvent_fields st offset e) as (-> & -> & _). unfold command_events_step.
  rewrite List.filter_app. cbn [List.filter]. change (of_command id (row_of e)) with (String.eqb (ev_command_id e) id).
  change (ep_command_id (row_of e)) with (ev_command_id e). specialize (H id).
  destruct (String.eqb_spec (ev_command_id e) id) as [He|Hne]; [rewrite He|].
  - destruct (id == "") eqn:Hid; [rewrite H; by destruct (List.filter _ _)|].
    rewrite lookup_insert_eq, H. destruct (List.filter (of_command id) (pj_events st)) as [|r rows]; done.
  - rewrite app_nil_r. destruct (ev_command_id e == ""); [exact H|]. rewrite lookup_insert_ne by done. exact H.
Qed.

Lemma apply_all_rows events : forall st offset,
  pj_events (apply_all st offset events) = pj_events st ++ map row_of events /\
  pj_commands (apply_all st offset events) = pj_commands st /\
  (commands_listed st -> commands_listed (apply_all st offset events)).
Proof.
  induction events as [|e events IH]; intros st offset; cbn [apply_all map]; [by rewrite app_nil_r|].
  destruct (IH (applyEvent st offset e) (offset + 1)) as (-> & -> & Hl). destruct (applyEvent_fields st offset e) as (-> & _ & ->).
  rewrite <- app_assoc. split_and!; [done|done|]. intros H. by apply Hl, applyEvent_listed.
Qed.

Lemma projected_rows l : forall st,
  pj_events (foldl project st l) = pj_events st ++ map row_of (events_of l) /\ pj_commands (foldl project st l) = pj_commands st /\
  (commands_listed st -> commands_listed (foldl project st l)).
Proof.
  induction l as [|i l IH]; intros st; cbn [foldl]; [by rewrite app_nil_r|].
  destruct (IH (project st i)) as (-> & -> & Hl). unfold project at 1 2.
  destruct (apply_all_rows (input_events i) (initSession st i.1.1 i.2) 0) as (-> & -> & Hc).
  unfold events_of. cbn. rewrite map_app, app_assoc. split_and!; [done|done|]. intros H. apply Hl, Hc. exact H.
Qed.

Definition one_session (p : string * list eventProjection) : Prop :=
  forall x y, x ∈ p.2 -> y ∈ p.2 -> ep_session_id x = ep_session_id y.

Lemma finalize_command_ok commands p : (exists r, finalize_command commands p = Ok r) <-> one_session p.
Proof.
  destruct p as [id [|first rest]]; unfold finalize_command, one_session; cbn [fst snd].
  { split; [set_solver | eauto]. }
  split.
  - intros [r H]. destruct (existsb _ rest) eqn:E; [done|].
    assert (Hall : forall x, x ∈ first :: rest -> ep_session_id x = ep_session_id first).
    { intros x [->|Hx]%elem_of_cons; [done|]. destruct (String.eqb_spec (ep_session_id x) (ep_session_id first)) as [|Hne]; [done|].
      apply not_true_iff_false in E as []. apply existsb_exists. exists x. split; [by apply list_elem_of_In|].
      by apply negb_true_iff, String.eqb_neq. }
    intros x y Hx Hy. by rewrite (Hall x), (Hall y).
  - intros H. destruct (existsb _ rest) eqn:E; [|eauto]. apply existsb_exists in E as (x & Hx & E).
    rewrite (H x first), String.eqb_refl in E; [done| |set_solver]. right. by apply list_elem_of_In.
Qed.

Lemma finalize_all_ok l : forall commands, (exists r, finalize_all commands l = Ok r) <-> Forall one_session l.
Proof.
  induction l as [|p l IH]; intros commands; cbn; [split; eauto|].
  rewrite Forall_cons, <- (finalize_command_ok commands). split.
  - intros [r H]. apply bind_ok in H as (c & Hc & H). split; [eauto|]. apply (IH c). eauto.
  - intros [[c Hc] H]. rewrite Hc. cbn. by apply IH.
Qed.

(** The command ids of the log are used in one session each. *)
Definition commands_separate (events : list EventEnvelope) : Prop :=
  forall e f, e ∈ events -> f ∈ events -> ev_command_id e <> "" -> ev_command_id e = ev_command_id f -> ev_session_id e = ev_session_id f.

Lemma finalizeCommands_ok l :
  let st := projected l in (exists r, finalizeCommands st = Ok r) <-> commands_separate (events_of l).
Proof.
  cbv zeta. destruct (projected_rows l newProjectionState) as (Hev & _ & Hl).
  assert (Hlisted : commands_listed (projected l)) by (apply Hl; by intros id). clear Hl. change (foldl project _ l) with (projected l) in Hev.
  cbn in Hev. unfold finalizeCommands. set (st := projected l) in *.
  transitivity (Forall one_session (sorted_entries (pj_command_events st))).
  { rewrite <- (finalize_all_ok _ (pj_commands st)). split.
    - intros [r H]. apply bind_ok in H as (c & Hc & _). eauto.
    - intros [c Hc]. rewrite Hc. eexists. reflexivity. }
  rewrite Forall_forall. split.
  - intros H e f He Hf Hne Heq.
    assert (Hin : forall x, x ∈ events_of l -> ev_command_id x = ev_command_id e -> row_of x ∈ List.filter (of_command (ev_command_id e)) (pj_events st)).
    { intros x Hx Hxe. apply list_elem_of_In, filter_In. split.
      - apply list_elem_of_In. rewrite Hev. by apply list_elem_of_fmap_2.
      - apply String.eqb_eq, Hxe. }
    pose proof (Hlisted (ev_command_id e)) as Hrows. destruct (List.filter _ _) as [|r rows] eqn:E; [specialize (Hin e He eq_refl); set_solver|].
    apply String.eqb_neq in Hne. rewrite Hne in Hrows.
    apply (H (ev_command_id e, r :: rows)) with (x := row_of e) (y := row_of f); [by apply sorted_entries_elem|by apply Hin|by apply Hin].
  - intros H [id rows] Hp%sorted_entries_elem x y Hx Hy. cbn in Hx, Hy. rewrite Hlisted in Hp.
    destruct (List.filter _ _) as [|r rs] eqn:E; [done|]. destruct (String.eqb_spec id "") as [|Hne]; [done|]. injection Hp as <-. rewrite <- E in Hx, Hy.
    assert (Hback : forall z, z ∈ List.filter (of_command id) (pj_events st) -> exists e, e ∈ events_of l /\ ev_command_id e = id /\ ep_session_id z = ev_session_id e).
    { intros z Hz. apply list_elem_of_In, filter_In in Hz as [Hz Hid]. apply list_elem_of_In in Hz. rewrite Hev in Hz.
      apply list_elem_of_fmap in Hz as (e & -> & He). exists e. split; [done|]. by apply String.eqb_eq in Hid. }
    apply Hback in Hx as (e & He & <- & ->). apply Hback in Hy as (f & Hf & Hef & ->). by apply H.
Qed.

(** ** When a replay succeeds *)

Lemma replay_ok h dataHome ru st :
  ReplayProjectionState h dataHome ru = Ok st ->
  exists clean entries l, validateProjectionDataHome (hm_fs h) dataHome ru = Ok clean /\
    safeHomeEntries h (Join [clean; SessionsDirName]) = Ok entries /\
    Forall2 (fun p i => read_for_replay h p = Ok i) entries l /\
    NoDup (map ev_event_id (events_of l)) /\ st = with_commands (projected l) (pj_commands st).
Proof.
  unfold ReplayProjectionState. intros H. apply bind_ok in H as (clean & Hc & H). apply bind_ok in H as (entries & He & H).
  apply bind_ok in H as (st1 & Hs & H). apply replay_sessions_ok in Hs as (l & Hl & Hnd & _ & ->).
  apply bind_ok in H as (c & _ & H). apply ok_inj in H as <-. by exists clean, entries, l.
Qed.

(** C17. A data home can be replayed exactly when it is safe, its visible entries
    are directories of sessions whose metadata, log and registry snapshot can be
    read, no two events anywhere in it share an id, and no command id is used in
    two sessions.  Appends check the first of these two for their own log only. *)
Theorem replay_succeeds_iff h dataHome ru :
  (exists st, ReplayProjectionState h dataHome ru = Ok st) <->
  exists clean entries l, validateProjectionDataHome (hm_fs h) dataHome ru = Ok clean /\
    safeHomeEntries h (Join [clean; SessionsDirName]) = Ok entries /\
    Forall2 (fun p i => read_for_replay h p = Ok i) entries l /\
    NoDup (map ev_event_id (events_of l)) /\ commands_separate (events_of l).
Proof.
  unfold ReplayProjectionState. split.
  - intros [st H]. apply bind_ok in H as (clean & Hc & H). apply bind_ok in H as (entries & He & H).
    apply bind_ok in H as (st1 & Hs & H). apply replay_sessions_ok in Hs as (l & Hl & Hnd & _ & ->).
    exists clean, entries, l. split_and!; [done..|]. apply finalizeCommands_ok. by exists st.
  - intros (clean & entries & l & -> & He & Hl & Hnd & Hsep). cbn [mbind result_bind]. rewrite He. cbn [mbind result_bind].
    rewrite (proj2 (replay_sessions_ok h entries (newProjectionState, ∅) (projected l, list_to_set (map ev_event_id (events_of l)) ∪ ∅))).
    + by apply finalizeCommands_ok.
    + exists l. split_and!; [done|done|set_solver|done].
Qed.
