(* ===== verification/ReplayFixtures.v ===== *)
(** * A data home to replay

    The home in which session [sess_a] was created, with the directory of the
    council of the council fixtures beside it, and variants of it. *)

From S2P Require Import Prelude Paths GoValue GoTime Model Ids Registry RegistryTheory Evidence Events EventLog Command Delegation Stream Session Fixtures Closeout Lifecycle ArgumentGraph Council SessionTheory CouncilTheory Projection Replay ReplayTheory.

Definition rx_created : home := (sx_run None true).1.

Definition moved (root : string) (sd : session_dir) (name : string) : session_dir :=
  mk_session_dir (root +:+ "/" +:+ name) (sd_symlink sd) (sd_is_dir sd) (sd_channel sd) (sd_yaml sd).

(** The home with one more session, of which the registry snapshot is a copy. *)
Definition with_session (h : home) (name : string) (sd : session_dir) : home :=
  mk_home (hm_reg h) (<[name := moved "/home/u/.atn/sessions" sd name]> (hm_sessions h))
    (match hm_snapshots h !! "sess_a" with Some doc => <[name := doc]> (hm_snapshots h) | None => hm_snapshots h end).

Definition council_dir : session_dir := default (fx_dir fx_council_md []) (wd_sessions cx_w_final !! "sess_council").

Definition rx_home : home := with_session rx_created "sess_council" council_dir.

Definition rx_replay (h : home) : result ProjectionError projectionState := ReplayProjectionState h "/home/u/.atn" wx_ru.

Definition rx_state (h : home) : projectionState := match rx_replay h with Ok st => st | Err _ => newProjectionState end.

(** What a replay of the home reads, when it can read all of it. *)
Definition rx_inputs (h : home) : list session_input :=
  match safeHomeEntries h "/home/u/.atn/sessions" with
  | Ok entries => omap (fun p => match read_for_replay h p with Ok i => Some i | Err _ => None end) entries
  | Err _ => []
  end.

Definition rx_input (h : home) (name : string) : session_input :=
  default (fx_council_md, empty_index, ∅) (find_first (fun i => md_id i.1.1 == name) (rx_inputs h)).

Example rx_home_replays : is_ok (rx_replay rx_home) = true /\ map (fun i => md_id i.1.1) (rx_inputs rx_home) = ["sess_a"; "sess_council"].
Proof. vm_compute. split; reflexivity. Qed.

(** ** An event id that is used in two sessions

    The session is cancelled and a second one is created whose first event has the
    id of the first session's: the creation succeeds and no replay does. *)
Definition rx_md (h : home) (name : string) : SessionMetadata :=
  default fx_deleg_md (match hm_sessions h !! name with Some sd => sd_yaml sd | None => None end).


(** The home after a command of the session, and whether the command succeeded. *)
Definition rx_do `{Command C} (name : string) (c : C) (h : home) : home :=
  set_sessions h (wd_sessions (run_command name (mk_world (hm_sessions h) (rx_md h name)) fx_later c None).1).

Definition rx_accepts `{Command C} (name : string) (c : C) (h : home) : bool :=
  is_ok (run_command name (mk_world (hm_sessions h) (rx_md h name)) fx_later c None).2.

Definition rx_cancel : SessionCancelSpec := mk_cancel "ann" "done" "" "cmd_stop" zero_time.

Definition rx_twice : home * result session_error (SessionMetadata * AppendResult) :=
  CreateSession (rx_do "sess_a" rx_cancel rx_created) "/home/u/.atn" (Some wx_loaded)
    (mk_spec "sess_b" SessionTypeDelegation "Again" "ann" ["ann"] None ∅ None None "" no_limits "evt_a" "cmd_b" "")
    9 (1767323045 * second) wx_ru None true.

Example rx_same_event_id :
  is_ok (rx_replay (rx_do "sess_a" rx_cancel rx_created)) = true /\ is_ok rx_twice.2 = true /\
  match rx_replay rx_twice.1 with Ok _ => "" | Err e => pe_detail e end = "duplicate event id across sessions".
Proof. vm_compute. repeat split. Qed.

(** ** The block of a session

    An acknowledgement of a cursor while the session is blocked overwrites what the
    row says of the block, and a cancellation leaves the block in the row. *)
Definition rx_row (h : home) (name : string) : sessionProjection :=
  default (session_row (rx_md h name)) (pj_sessions (rx_state h) !! name).

Definition rx_block : SessionBlockSpec := mk_block "ann" "scope_conflict" "unclear" "cmd_block" zero_time.
Definition rx_ack : AckSpec := mk_ack "ann" "cur_000000000000_evt_a" "cmd_ack" fx_later.

Definition rx_blocked : home := rx_do "sess_a" rx_block rx_created.

Example rx_block_row :
  rx_accepts "sess_a" rx_ack rx_blocked = true /\
  sr_block (rx_row rx_blocked "sess_a") = mk_block_row "created" "created" "evt_session_blocked_cmd_block" /\
  sr_block (rx_row (rx_do "sess_a" rx_ack rx_blocked) "sess_a") = mk_block_row "" "" "evt_stream_ack_sess_a_cmd_ack" /\
  sr_phase (rx_row (rx_do "sess_a" rx_ack rx_blocked) "sess_a") = "blocked" /\
  sr_block (rx_row (rx_do "sess_a" rx_cancel rx_blocked) "sess_a") = mk_block_row "created" "created" "evt_session_blocked_cmd_block" /\
  sr_phase (rx_row (rx_do "sess_a" rx_cancel rx_blocked) "sess_a") = "cancelled".
Proof. vm_compute. repeat split. Qed.

(** ** The raise that led to a speech

    Nobody had spoken when [ann] raised her hand, but her row says that she was the
    recent speaker: the row is built with the last speaker of session.yaml. *)
Definition rx_raise : option handRaiseProjection :=
  snd <$> head (map_to_list (ct_raises (pj_council (rx_state rx_home)))).

Example rx_raise_row : hr_member <$> rx_raise = Some "ann" /\ hr_ineligibility <$> rx_raise = Some "recent_speaker".
Proof. vm_compute. split; reflexivity. Qed.

Example rx_order :
  map (fun e => (ev_type e, ev_from e)) (take 7 (ix_events (rx_input rx_home "sess_council").1.2)) =
  [("session_created", "atn-controld"); ("preparation_requested", "mod"); ("member_ready", "ann"); ("hand_raise_requested", "mod");
   ("hand_raise", "ann"); ("speaker_selected", "mod"); ("speech", "ann")].
Proof. vm_compute. reflexivity. Qed.

(** ** Runner invocations

    A delegation whose log has two invocations: the second ending of the first one
    is not counted, and the second has no cost. *)
Definition rx_runner (cmd ty inv : string) (cost : option any) : EventEnvelope :=
  let e := fx_event fx_deleg_md cmd ty "assigned" "ann" ["mod"] ∅ in
  mk_event (ev_schema_version e) (ev_event_id e) (ev_command_id e) "" (ev_correlation_id e) (ev_session_id e) (ev_session_type e) (Some 3)
    (ev_phase e) (ev_type e) (ev_from e) (ev_to e) (ev_created_at e)
    (Some (mk_runner inv "hermes" "ann" 1 false "cmd_x" "succeeded" None)) cost (ev_payload e).

Definition rx_tokens (n m : Z) : option any := Some (AMap {[ "tokens_in" := AInt n; "tokens_out" := AInt m ]}).

Definition rx_runner_log : list EventEnvelope :=
  fx_deleg_log ++
  [rx_runner "r1" "runner_invocation_started" "inv_1" None; rx_runner "r2" "assignee_acknowledged" "inv_1" (rx_tokens 10 5);
   rx_runner "r3" "assignee_update" "inv_1" (rx_tokens 100 50); rx_runner "r4" "runner_invocation_started" "inv_2" None;
   rx_runner "r5" "assignee_update" "inv_2" (Some ANil)].

Definition rx_costs : home := with_session rx_home "sess_deleg" (fx_dir fx_deleg_md rx_runner_log).

Example rx_costs_row :
  sr_costs (rx_row rx_costs "sess_deleg") = mk_costs 10 5 (0, 0) 2 1 /\ sr_turn (rx_row rx_costs "sess_deleg") = 3.
Proof. vm_compute. split; reflexivity. Qed.
