(* ===== verification/ReplayLocal.v ===== *)
(** * Every session is projected by itself

    Rows are kept by keys that begin with the id of their session; the rows of
    runner invocations and of batches have keys of their own.  So the rows of a
    session are what its own log alone gives, as long as no other session names
    its invocations and its batches. *)

From S2P Require Import Prelude Paths GoValue GoTime Model Ids Registry Evidence Events EventLog Session RegistryTheory Projection Replay ReplayTheory ReplayFixtures.

(** ** Keys *)

(** The first part of a key. *)
Fixpoint key_session (key : string) : string :=
  match key with
  | EmptyString => ""
  | String a rest => if is_byte 0 a then "" else String a (key_session rest)
  end.

Definition no_nul (s : string) : Prop := any_char (is_byte 0) s = false.

Lemma key_session_app s rest : no_nul s -> key_session (s +:+ nul +:+ rest) = s.
Proof.
  unfold no_nul. induction s as [|a s IH]; cbn [any_char]; intros H; [done|]. apply orb_false_iff in H as [Ha H].
  rewrite str_app_cons. cbn [key_session]. by rewrite Ha, IH.
Qed.

Lemma key_session_id s : no_nul s -> key_session s = s.
Proof.
  unfold no_nul. induction s as [|a s IH]; cbn [any_char]; intros H; [done|]. apply orb_false_iff in H as [Ha H].
  cbn [key_session]. by rewrite Ha, IH.
Qed.

Lemma row_key_session sid part parts : no_nul sid -> key_session (row_key (sid :: part :: parts)) = sid.
Proof. intros H. unfold row_key. cbn [join]. by apply key_session_app. Qed.

Lemma valid_id_no_nul id : ValidateSessionID id = Ok tt -> no_nul id.
Proof. unfold ValidateSessionID, no_nul. intros H. run_inv H. by bool_prop. Qed.

#[global] Arguments row_key : simpl never.

(** ** Steps that touch the rows of one session only *)

Definition same_own {A} (sid : string) (m1 m2 : gmap string A) : Prop := forall k, key_session k = sid -> m1 !! k = m2 !! k.

Definition touches_only {A} (sid : string) (f : gmap string A -> gmap string A) : Prop :=
  (forall m k, key_session k <> sid -> f m !! k = m !! k) /\ (forall m1 m2, same_own sid m1 m2 -> same_own sid (f m1) (f m2)).

Create HintDb local discriminated.

Lemma touch_id {A} sid : touches_only (A := A) sid (fun m => m).
Proof. by split. Qed.

Lemma touch_update {A} sid key (row : option A -> A) :
  key_session key = sid -> touches_only sid (fun m => <[key := row (m !! key)]> m).
Proof.
  intros Hk. split.
  - intros m k Hne. apply lookup_insert_ne. congruence.
  - intros m1 m2 H k Hk'. destruct (decide (k = key)) as [->|Hne].
    + rewrite !lookup_insert_eq. by rewrite (H key).
    + rewrite !lookup_insert_ne by done. by apply H.
Qed.

Lemma touch_insert {A} sid key (row : A) : key_session key = sid -> touches_only sid (fun m => <[key := row]> m).
Proof. apply (touch_update sid key (fun _ => row)). Qed.

Lemma touch_foldl {A B} sid (f : gmap string A -> B -> gmap string A) l :
  (forall x, touches_only sid (fun m => f m x)) -> touches_only sid (fun m => foldl f m l).
Proof.
  intros H. induction l as [|x l IH]; [apply touch_id|]. destruct (H x) as [Hf Hl]. destruct IH as [IHf IHl]. split.
  - intros m k Hk. cbn. rewrite IHf by done. by apply Hf.
  - intros m1 m2 Hm. cbn. by apply IHl, Hl.
Qed.

Lemma touch_if {A} sid (b : bool) (f g : gmap string A -> gmap string A) :
  touches_only sid f -> touches_only sid g -> touches_only sid (fun m => if b then f m else g m).
Proof. by destruct b. Qed.

#[export] Hint Resolve touch_id touch_insert touch_if key_session_id : local.
#[export] Hint Extern 1 (key_session (row_key _) = _) => apply row_key_session : local.

Section steps.
Context (e : EventEnvelope) (Hsid : no_nul (ev_session_id e)).
Let sid := ev_session_id e.

Lemma touch_attendance : touches_only sid (fun m => attendance_projection_step m e).
Proof using Hsid.
  unfold attendance_projection_step. apply touch_if; [|apply touch_if; [|auto with local]].
  - apply touch_foldl. intros member. auto with local.
  - set (key := row_key _). apply (touch_update sid key (fun o => attendance_answered (default _ o) e)). by apply row_key_session.
Qed.

Lemma touch_cursors : touches_only sid (fun m => cursors_step m e).
Proof using Hsid. unfold cursors_step. auto with local. Qed.

Lemma touch_subscribers : touches_only sid (fun m => subscribers_step m e).
Proof using Hsid.
  unfold subscribers_step. cbv zeta. apply touch_if; [|apply touch_id]. apply touch_if; [apply touch_id|].
  set (key := row_key _). apply (touch_update sid key (subscriber_row e _)). by apply row_key_session.
Qed.

Lemma touch_reviews : touches_only sid (fun m => applyReviewEvent m e).
Proof using Hsid. unfold applyReviewEvent. cbv zeta. auto with local. Qed.

Lemma touch_artifacts : touches_only sid (fun m => applyArtifacts m e).
Proof using Hsid.
  unfold applyArtifacts. apply touch_foldl. intros item. unfold put_artifact. destruct item; auto with local.
Qed.

Lemma touch_graphs offset : touches_only sid (fun m => applyArgumentGraphProjection m offset e).
Proof using Hsid. unfold applyArgumentGraphProjection. auto with local. Qed.

End steps.

(** ** Runs and batches *)

(** The invocation and the batch an event names. *)
Definition named_invocation (e : EventEnvelope) : option string :=
  match ev_runner e with
  | Some r => if invocation_of e r == "" then None else Some (invocation_of e r)
  | None => None
  end.

Definition named_batch (e : EventEnvelope) : option string :=
  let id := anyString (pl e) ["batch_id"] in if id == "" then None else Some id.

Definition agree_on {A} (P : string -> Prop) (m1 m2 : gmap string A) : Prop := forall id, P id -> m1 !! id = m2 !! id.

Lemma agree_insert {A} (P : string -> Prop) (m1 m2 : gmap string A) id a :
  agree_on P m1 m2 -> agree_on P (<[id := a]> m1) (<[id := a]> m2).
Proof.
  intros H x Hx. destruct (decide (x = id)) as [->|Hne]; [by rewrite !lookup_insert_eq|]. rewrite !lookup_insert_ne by done. by apply H.
Qed.

Lemma agree_insert_out {A} (P : string -> Prop) (m1 m2 : gmap string A) id a :
  ~ P id -> agree_on P m1 m2 -> agree_on P (<[id := a]> m1) m2.
Proof. intros Hid H x Hx. rewrite lookup_insert_ne by (by intros ->). by apply H. Qed.

Lemma agree_alter {A} (P : string -> Prop) (m1 m2 : gmap string A) id f :
  agree_on P m1 m2 -> agree_on P (alter f id m1) (alter f id m2).
Proof.
  intros H x Hx. destruct (decide (x = id)) as [->|Hne]; [rewrite !lookup_alter_eq; by rewrite H|].
  rewrite !lookup_alter_ne by done. by apply H.
Qed.

Lemma agree_alter_out {A} (P : string -> Prop) (m1 m2 : gmap string A) id f :
  ~ P id -> agree_on P m1 m2 -> agree_on P (alter f id m1) m2.
Proof. intros Hid H x Hx. rewrite lookup_alter_ne by (by intros ->). by apply H. Qed.

Lemma runner_own (P : string -> Prop) m1 m2 s e cost :
  (forall id, named_invocation e = Some id -> P id) -> agree_on P m1 m2 ->
  let '(m1', s1) := applyRunnerEvent m1 s e cost in
  let '(m2', s2) := applyRunnerEvent m2 s e cost in agree_on P m1' m2' /\ s1 = s2.
Proof.
  unfold named_invocation, applyRunnerEvent. intros Hid H. destruct (ev_runner e) as [r|]; [|done].
  destruct (_ == "") eqn:E; [done|]. specialize (Hid _ eq_refl). destruct (_ == "runner_invocation_started").
  - split; [by apply agree_insert|done].
  - rewrite (H _ Hid). split; [by apply agree_insert|done].
Qed.

Lemma runner_other (P : string -> Prop) m1 m2 s e cost :
  (forall id, named_invocation e = Some id -> ~ P id) -> agree_on P m1 m2 -> agree_on P (applyRunnerEvent m1 s e cost).1 m2.
Proof.
  unfold named_invocation, applyRunnerEvent. intros Hid H. destruct (ev_runner e) as [r|]; [|done].
  destruct (_ == "") eqn:E; [done|]. specialize (Hid _ eq_refl).
  destruct (_ == "runner_invocation_started"); by apply agree_insert_out.
Qed.

(** The batches of a session have ids in [P]. *)
Definition batches_in (sid : string) (P : string -> Prop) (m : gmap string batchProjection) : Prop :=
  forall id b, m !! id = Some b -> br_session_id b = sid -> P id.

Lemma pending_agree sid P m1 m2 :
  agree_on P m1 m2 -> batches_in sid P m1 -> batches_in sid P m2 -> pending_of m1 sid = pending_of m2 sid.
Proof.
  intros H H1 H2. apply map_eq. intros id. apply option_eq. intros b. unfold pending_of.
  rewrite !map_lookup_filter_Some. cbn. unfold is_pending.
  split; intros [Hb Hp]; (split; [|done]); apply andb_true_iff in Hp as [Hs%String.eqb_eq _].
  - rewrite <- H; [done|]. by eapply H1.
  - rewrite H; [done|]. by eapply H2.
Qed.

Lemma batch_update_in sid P m id b :
  batches_in sid P m -> (br_session_id b = sid -> P id) -> batches_in sid P (<[id := b]> m).
Proof.
  intros H Hb x y Hx Hy. destruct (decide (x = id)) as [->|Hne].
  - rewrite lookup_insert_eq in Hx. injection Hx as <-. by apply Hb.
  - rewrite lookup_insert_ne in Hx by done. by eapply H.
Qed.

Lemma batch_alter_in sid P m id f :
  batches_in sid P m -> (forall b, br_session_id (f b) = br_session_id b) -> batches_in sid P (alter f id m).
Proof.
  intros H Hf x y Hx Hy. destruct (decide (x = id)) as [->|Hne].
  - rewrite lookup_alter_eq in Hx. destruct (m !! id) as [b|] eqn:E; [|done]. injection Hx as <-. rewrite Hf in Hy. by eapply H.
  - rewrite lookup_alter_ne in Hx by done. by eapply H.
Qed.

(** The batch id of the step is nonempty where it matters. *)
Lemma batch_step_in sid P t e id :
  batches_in sid P (bt_batches t) -> (ev_session_id e = sid -> id <> "" -> P id) -> (ev_type e = "escalation_batched" -> id <> "") ->
  batches_in sid P (bt_batches (batch_tables_step t e id)).
Proof.
  intros H Hid Hne. unfold batch_tables_step. destruct (String.eqb_spec (ev_type e) "escalation_batched") as [Ht|_]; cbn [bt_batches].
  - apply batch_update_in; [done|]. cbn. intros Hs. destruct (bt_batches t !! id) as [b|] eqn:E; cbn in Hs; [by eapply H|]. auto.
  - destruct (_ && _ && _); [by apply batch_alter_in|]. destruct (_ && _); [by apply batch_alter_in|done].
Qed.

Lemma batch_step_own P t1 t2 e id :
  P id -> agree_on P (bt_batches t1) (bt_batches t2) ->
  agree_on P (bt_batches (batch_tables_step t1 e id)) (bt_batches (batch_tables_step t2 e id)).
Proof.
  intros Hid H. unfold batch_tables_step. destruct (_ == "escalation_batched"); cbn [bt_batches].
  - rewrite (H id Hid). by apply agree_insert.
  - destruct (_ && _ && _); [by apply agree_alter|]. destruct (_ && _); [by apply agree_alter|done].
Qed.

Lemma batch_step_other (P : string -> Prop) t1 t2 e id :
  ~ P id -> agree_on P (bt_batches t1) (bt_batches t2) -> agree_on P (bt_batches (batch_tables_step t1 e id)) (bt_batches t2).
Proof.
  intros Hid H. unfold batch_tables_step. destruct (_ == "escalation_batched"); cbn [bt_batches]; [by apply agree_insert_out|].
  destruct (_ && _ && _); [by apply agree_alter_out|]. destruct (_ && _); [by apply agree_alter_out|done].
Qed.

(** An event that names no batch leaves the batches alone. *)
Lemma batch_step_none t e : ev_type e <> "escalation_batched" -> batch_tables_step t e "" = t.
Proof. intros Ht%String.eqb_neq. unfold batch_tables_step. rewrite Ht. cbn. by rewrite !andb_false_r. Qed.

(** ** Rows of a session *)

Definition same_council (sid : string) (t1 t2 : council_tables) : Prop :=
  same_own sid (ct_attendance t1) (ct_attendance t2) /\ same_own sid (ct_locks t1) (ct_locks t2) /\
  same_own sid (ct_raises t1) (ct_raises t2) /\ same_own sid (ct_votes t1) (ct_votes t2) /\
  same_own sid (ct_linked t1) (ct_linked t2).

Definition same_other (sid : string) (t1 t2 : other_tables) : Prop :=
  same_own sid (ot_cursors t1) (ot_cursors t2) /\ same_own sid (ot_subscribers t1) (ot_subscribers t2) /\
  same_own sid (ot_reviews t1) (ot_reviews t2) /\ same_own sid (ot_artifacts t1) (ot_artifacts t2) /\
  same_own sid (ot_graphs t1) (ot_graphs t2).

(** Two states have the same rows of a session, of the invocations in [I] and of
    the batches in [B]. *)
Definition same_rows (sid : string) (I B : string -> Prop) (st1 st2 : projectionState) : Prop :=
  pj_sessions st1 !! sid = pj_sessions st2 !! sid /\ same_own sid (pj_participants st1) (pj_participants st2) /\
  same_council sid (pj_council st1) (pj_council st2) /\ same_other sid (pj_other st1) (pj_other st2) /\
  agree_on I (pj_runners st1) (pj_runners st2) /\ agree_on B (bt_batches (pj_batch st1)) (bt_batches (pj_batch st2)).

Definition own_batches (sid : string) (B : string -> Prop) (st : projectionState) : Prop :=
  batches_in sid B (bt_batches (pj_batch st)).

Lemma same_own_refl {A} sid (m : gmap string A) : same_own sid m m.
Proof. by intros k. Qed.
Lemma same_own_update {A} sid (m1 m2 : gmap string A) f :
  touches_only sid f -> same_own sid m1 m2 -> same_own sid (f m1) (f m2).
Proof. intros [_ H]. apply H. Qed.
Lemma same_own_frame {A} sid sid' (m1 m2 : gmap string A) f :
  touches_only sid' f -> sid' <> sid -> same_own sid m1 m2 -> same_own sid (f m1) m2.
Proof. intros [H _] Hne Hm k Hk. rewrite H by congruence. by apply Hm. Qed.

Lemma same_own_insert {A} sid (m1 m2 : gmap string A) key row :
  key_session key = sid -> same_own sid m1 m2 -> same_own sid (<[key := row]> m1) (<[key := row]> m2).
Proof. intros H. by apply (same_own_update _ _ _ _ (touch_insert sid key row H)). Qed.

Lemma same_own_insert_frame {A} sid sid' (m1 m2 : gmap string A) key row :
  key_session key = sid' -> sid' <> sid -> same_own sid m1 m2 -> same_own sid (<[key := row]> m1) m2.
Proof. intros H. by apply (same_own_frame _ _ _ _ _ (touch_insert sid' key row H)). Qed.

#[export] Hint Resolve same_own_refl same_own_insert : local.

Ltac council_cases e :=
  unfold applyCouncilEvent; destruct (mem_str (ev_type e) ["attendance_requested"; "member_attended"]);
  [|destruct (ev_type e == "agenda_locked");
    [|destruct (mem_str (ev_type e) ["hand_raise"; "hand_raise_dropped"]);
      [|destruct (ev_type e == "consensus_vote");
        [|destruct (mem_str (ev_type e) ["council_finalized"; "council_unresolved"]);
          [destruct (anyMap (pl e) ["linked_authority_result"])|]]]]].

Lemma council_own t1 t2 s e :
  no_nul (ev_session_id e) -> same_council (ev_session_id e) t1 t2 ->
  same_council (ev_session_id e) (applyCouncilEvent t1 s e).1 (applyCouncilEvent t2 s e).1 /\
  (applyCouncilEvent t1 s e).2 = (applyCouncilEvent t2 s e).2.
Proof.
  destruct t1 as [a1 l1 r1 v1 k1], t2 as [a2 l2 r2 v2 k2]. intros Hn (Ha & Hl & Hr & Hv & Hk).
  council_cases e; (split; [unfold same_council; cbn in *; split_and!; try done|done]).
  - by apply (same_own_update _ _ _ _ (touch_attendance e Hn)).
  - apply same_own_insert; auto with local.
  - apply same_own_insert; auto with local.
  - apply same_own_insert; [unfold vote_key; auto with local|done].
  - apply same_own_insert; auto with local.
Qed.

Lemma council_other sid t1 t2 s e :
  no_nul (ev_session_id e) -> ev_session_id e <> sid -> same_council sid t1 t2 -> same_council sid (applyCouncilEvent t1 s e).1 t2.
Proof.
  destruct t1 as [a1 l1 r1 v1 k1], t2 as [a2 l2 r2 v2 k2]. intros Hn Hne (Ha & Hl & Hr & Hv & Hk).
  council_cases e; (unfold same_council; cbn in *; split_and!; try done).
  - by apply (same_own_frame _ _ _ _ _ (touch_attendance e Hn)).
  - apply (same_own_insert_frame _ (ev_session_id e)); [auto with local|done|done].
  - apply (same_own_insert_frame _ (ev_session_id e)); [auto with local|done|done].
  - apply (same_own_insert_frame _ (ev_session_id e)); [unfold vote_key; auto with local|done|done].
  - apply (same_own_insert_frame _ (ev_session_id e)); [auto with local|done|done].
Qed.

Lemma other_own t1 t2 offset e :
  no_nul (ev_session_id e) -> same_other (ev_session_id e) t1 t2 ->
  same_other (ev_session_id e) (other_tables_step t1 offset e) (other_tables_step t2 offset e).
Proof.
  intros Hn (H1 & H2 & H3 & H4 & H5). unfold other_tables_step, same_other. cbn.
  split_and!.
  - by apply (same_own_update _ _ _ _ (touch_cursors e Hn)).
  - by apply (same_own_update _ _ _ _ (touch_subscribers e Hn)).
  - by apply (same_own_update _ _ _ _ (touch_reviews e Hn)).
  - by apply (same_own_update _ _ _ _ (touch_artifacts e Hn)).
  - by apply (same_own_update _ _ _ _ (touch_graphs e Hn offset)).
Qed.

Lemma other_other sid t1 t2 offset e :
  no_nul (ev_session_id e) -> ev_session_id e <> sid -> same_other sid t1 t2 -> same_other sid (other_tables_step t1 offset e) t2.
Proof.
  intros Hn Hne (H1 & H2 & H3 & H4 & H5). unfold other_tables_step, same_other. cbn.
  split_and!.
  - by apply (same_own_frame _ _ _ _ _ (touch_cursors e Hn)).
  - by apply (same_own_frame _ _ _ _ _ (touch_subscribers e Hn)).
  - by apply (same_own_frame _ _ _ _ _ (touch_reviews e Hn)).
  - by apply (same_own_frame _ _ _ _ _ (touch_artifacts e Hn)).
  - by apply (same_own_frame _ _ _ _ _ (touch_graphs e Hn offset)).
Qed.

Lemma with_pending_agree sid m1 m2 (s : option sessionProjection) :
  pending_of m1 sid = pending_of m2 sid -> (fun r => with_pending r m1 sid) <$> s = (fun r => with_pending r m2 sid) <$> s.
Proof. intros H. destruct s; [|done]. cbn. unfold with_pending, countPendingBatches, countPendingBatchItems. by rewrite H. Qed.

Lemma escalation_own (B : string -> Prop) t1 t2 s e :
  (forall id, named_batch e = Some id -> B id) -> agree_on B (bt_batches t1) (bt_batches t2) ->
  batches_in (ev_session_id e) B (bt_batches t1) -> batches_in (ev_session_id e) B (bt_batches t2) ->
  let r1 := applyEscalationEvent t1 s e in
  let r2 := applyEscalationEvent t2 s e in
  agree_on B (bt_batches r1.1) (bt_batches r2.1) /\ r1.2 = r2.2 /\
  batches_in (ev_session_id e) B (bt_batches r1.1) /\ batches_in (ev_session_id e) B (bt_batches r2.1).
Proof.
  unfold named_batch, applyEscalationEvent. cbv zeta. set (id := anyString _ _). intros Hid H H1 H2.
  destruct (String.eqb_spec id "") as [Hi|Hi].
  - destruct (String.eqb_spec (ev_type e) "escalation_batched") as [Ht|Ht]; cbn [andb fst snd]; [done|].
    rewrite Hi, !batch_step_none by done. split_and!; [done| |done|done]. by apply with_pending_agree, (pending_agree _ B).
  - specialize (Hid _ eq_refl). rewrite andb_false_r. cbn [fst snd].
    assert (Hin : forall t, batches_in (ev_session_id e) B (bt_batches t) -> batches_in (ev_session_id e) B (bt_batches (batch_tables_step t e id)))
      by (intros t Hb; by apply batch_step_in).
    pose proof (batch_step_own B t1 t2 e id Hid H) as Hag. split_and!; [done| |auto|auto].
    apply with_pending_agree, (pending_agree _ B); auto.
Qed.

Lemma escalation_other sid (B : string -> Prop) t1 t2 s e :
  (forall id, named_batch e = Some id -> ~ B id) -> ev_session_id e <> sid -> agree_on B (bt_batches t1) (bt_batches t2) ->
  batches_in sid B (bt_batches t1) ->
  let r := applyEscalationEvent t1 s e in agree_on B (bt_batches r.1) (bt_batches t2) /\ batches_in sid B (bt_batches r.1).
Proof.
  unfold named_batch, applyEscalationEvent. cbv zeta. set (id := anyString _ _). intros Hid Hne H H1.
  destruct (String.eqb_spec id "") as [Hi|Hi].
  - destruct (String.eqb_spec (ev_type e) "escalation_batched") as [Ht|Ht]; cbn [andb fst snd]; [done|].
    by rewrite Hi, batch_step_none.
  - specialize (Hid _ eq_refl). rewrite andb_false_r. cbn [fst snd]. split; [by apply batch_step_other|]. by apply batch_step_in.
Qed.

(** ** One event *)

(** An event of the session changes its rows alike in both states. *)
Lemma applyEvent_own I B st1 st2 offset e :
  no_nul (ev_session_id e) -> (forall id, named_invocation e = Some id -> I id) -> (forall id, named_batch e = Some id -> B id) ->
  own_batches (ev_session_id e) B st1 -> own_batches (ev_session_id e) B st2 ->
  same_rows (ev_session_id e) I B st1 st2 ->
  same_rows (ev_session_id e) I B (applyEvent st1 offset e) (applyEvent st2 offset e) /\
  own_batches (ev_session_id e) B (applyEvent st1 offset e) /\ own_batches (ev_session_id e) B (applyEvent st2 offset e).
Proof.
  intros Hn HI HB Ho1 Ho2 (Hs & Hp & Hc & Ho & Hr & Hb). unfold applyEvent. rewrite Hs.
  set (s := (fun s => session_step s e) <$> _). set (cost := parseCost _).
  pose proof (runner_own I (pj_runners st1) (pj_runners st2) s e cost HI Hr) as H1.
  destruct (applyRunnerEvent (pj_runners st1) s e cost) as [r1 s1]. destruct (applyRunnerEvent (pj_runners st2) s e cost) as [r2 s2].
  destruct H1 as [Hr' <-].
  pose proof (escalation_own B (pj_batch st1) (pj_batch st2) s1 e HB Hb Ho1 Ho2) as H2. cbv zeta in H2.
  destruct (applyEscalationEvent (pj_batch st1) s1 e) as [b1 s3]. destruct (applyEscalationEvent (pj_batch st2) s1 e) as [b2 s4].
  cbn [fst snd] in H2. destruct H2 as (Hb' & <- & Ho1' & Ho2').
  pose proof (council_own (pj_council st1) (pj_council st2) s3 e Hn Hc) as H3.
  destruct (applyCouncilEvent (pj_council st1) s3 e) as [c1 s5]. destruct (applyCouncilEvent (pj_council st2) s3 e) as [c2 s6].
  cbn [fst snd] in H3. destruct H3 as (Hc' & <-). split; [|by split]. unfold same_rows. cbn.
  split_and!; [|done|done| |done|done].
  - unfold put_session. destruct s5; [by rewrite !lookup_insert_eq|done].
  - by apply other_own.
Qed.

(** An event of another session changes none of them. *)
Lemma applyEvent_other sid I B st1 st2 offset e :
  no_nul (ev_session_id e) -> ev_session_id e <> sid -> (forall id, named_invocation e = Some id -> ~ I id) ->
  (forall id, named_batch e = Some id -> ~ B id) -> own_batches sid B st1 -> same_rows sid I B st1 st2 ->
  same_rows sid I B (applyEvent st1 offset e) st2 /\ own_batches sid B (applyEvent st1 offset e).
Proof.
  intros Hn Hne HI HB Ho1 (Hs & Hp & Hc & Ho & Hr & Hb). unfold applyEvent.
  set (s := (fun s => session_step s e) <$> _). set (cost := parseCost _).
  pose proof (runner_other I (pj_runners st1) (pj_runners st2) s e cost HI Hr) as Hr'.
  destruct (applyRunnerEvent (pj_runners st1) s e cost) as [r1 s1].
  pose proof (escalation_other sid B (pj_batch st1) (pj_batch st2) s1 e HB Hne Hb Ho1) as [Hb' Ho1'].
  destruct (applyEscalationEvent (pj_batch st1) s1 e) as [b1 s3].
  pose proof (council_other sid (pj_council st1) (pj_council st2) s3 e Hn Hne Hc) as Hc'.
  destruct (applyCouncilEvent (pj_council st1) s3 e) as [c1 s5]. split; [|done]. unfold same_rows. cbn.
  split_and!; [|done|done| |done|done].
  - unfold put_session. destruct s5; [by rewrite lookup_insert_ne|done].
  - by apply other_other.
Qed.

(** ** Sessions *)

Definition sid_of (i : session_input) : string := md_id i.1.1.

Definition names_invocation (i : session_input) (id : string) : Prop :=
  exists e, e ∈ input_events i /\ named_invocation e = Some id.
Definition names_batch (i : session_input) (id : string) : Prop := exists e, e ∈ input_events i /\ named_batch e = Some id.

Lemma touch_participants md snapshot : no_nul (md_id md) ->
  touches_only (md_id md)
    (fun m => foldl (fun m member => <[row_key [md_id md; member] := participant_row md snapshot member]> m) m (md_participants md)).
Proof. intros H. apply touch_foldl. auto with local. Qed.

Lemma init_own I B st1 st2 md snapshot :
  no_nul (md_id md) -> same_rows (md_id md) I B st1 st2 ->
  same_rows (md_id md) I B (initSession st1 md snapshot) (initSession st2 md snapshot).
Proof.
  intros Hn (Hs & Hp & Hc & Ho & Hr & Hb). unfold same_rows. cbn. split_and!; try done.
  - by rewrite !lookup_insert_eq.
  - by apply (same_own_update _ _ _ _ (touch_participants md snapshot Hn)).
Qed.

Lemma init_other sid I B st1 st2 md snapshot :
  no_nul (md_id md) -> md_id md <> sid -> same_rows sid I B st1 st2 -> same_rows sid I B (initSession st1 md snapshot) st2.
Proof.
  intros Hn Hne (Hs & Hp & Hc & Ho & Hr & Hb). unfold same_rows. cbn. split_and!; try done.
  - by rewrite lookup_insert_ne.
  - by apply (same_own_frame _ _ _ _ _ (touch_participants md snapshot Hn)).
Qed.

Lemma apply_all_own sid I B events : no_nul sid -> forall st1 st2 offset,
  Forall (fun e => ev_session_id e = sid /\ (forall id, named_invocation e = Some id -> I id) /\
                   (forall id, named_batch e = Some id -> B id)) events ->
  own_batches sid B st1 -> own_batches sid B st2 -> same_rows sid I B st1 st2 ->
  same_rows sid I B (apply_all st1 offset events) (apply_all st2 offset events) /\ own_batches sid B (apply_all st1 offset events).
Proof.
  intros Hn. induction events as [|e events IH]; intros st1 st2 offset Hall H1 H2 Hs; cbn [apply_all]; [done|].
  apply Forall_cons in Hall as [(He & HI & HB) Hall]. subst sid.
  destruct (applyEvent_own I B st1 st2 offset e) as (Hs' & H1' & H2'); [done..|]. by apply IH.
Qed.

Lemma apply_all_other sid I B events : forall st1 st2 offset,
  Forall (fun e => no_nul (ev_session_id e) /\ ev_session_id e <> sid /\ (forall id, named_invocation e = Some id -> ~ I id) /\
                   (forall id, named_batch e = Some id -> ~ B id)) events ->
  own_batches sid B st1 -> same_rows sid I B st1 st2 ->
  same_rows sid I B (apply_all st1 offset events) st2 /\ own_batches sid B (apply_all st1 offset events).
Proof.
  induction events as [|e events IH]; intros st1 st2 offset Hall H1 Hs; cbn [apply_all]; [done|].
  apply Forall_cons in Hall as [(Hn & Hne & HI & HB) Hall].
  destruct (applyEvent_other sid I B st1 st2 offset e) as (Hs' & H1'); [done..|]. by apply IH.
Qed.

Section sessions.
Context (i : session_input) (Hok : input_ok i) (Hn : no_nul (sid_of i)).
Let same := same_rows (sid_of i) (names_invocation i) (names_batch i).
Let owned := own_batches (sid_of i) (names_batch i).

Lemma project_own st1 st2 : owned st1 -> owned st2 -> same st1 st2 -> same (project st1 i) (project st2 i) /\ owned (project st1 i).
Proof using Hn Hok.
  intros H1 H2 Hs. unfold project. apply apply_all_own; try done; [|by apply init_own].
  apply Forall_forall. intros e He. split; [|split; intros id Hid; by exists e].
  unfold input_ok in Hok. rewrite Forall_forall in Hok. by apply valid_event, Hok.
Qed.

(** A session that shares nothing with [i]. *)
Definition apart (j : session_input) : Prop :=
  input_ok j /\ no_nul (sid_of j) /\ sid_of j <> sid_of i /\
  forall e, e ∈ input_events j ->
    (forall id, named_invocation e = Some id -> ~ names_invocation i id) /\
    (forall id, named_batch e = Some id -> ~ names_batch i id).

Lemma project_other st1 st2 j : apart j -> owned st1 -> same st1 st2 -> same (project st1 j) st2 /\ owned (project st1 j).
Proof using Hn Hok.
  intros (Hj & Hnj & Hne & Hnames) H1 Hs. unfold project. apply apply_all_other; [|done|by apply init_other].
  apply Forall_forall. intros e He. unfold input_ok in Hj. rewrite Forall_forall in Hj.
  destruct (valid_event _ _ (Hj e He)) as (_ & -> & _). destruct (Hnames e He) as [HI HB]. by split_and!.
Qed.

Lemma projected_other l : Forall apart l -> forall st1 st2, owned st1 -> same st1 st2 ->
  same (foldl project st1 l) st2 /\ owned (foldl project st1 l).
Proof using Hn Hok.
  induction 1 as [|j l Hj Hl IH]; intros st1 st2 H1 Hs; cbn [foldl]; [done|].
  destruct (project_other st1 st2 j) as [Hs' H1']; [done..|]. by apply IH.
Qed.

Lemma projected_local l1 l2 : Forall apart l1 -> Forall apart l2 ->
  same (projected (l1 ++ i :: l2)) (project newProjectionState i) /\ owned (projected (l1 ++ i :: l2)) /\
  owned (project newProjectionState i).
Proof using Hn Hok.
  intros Hl1 Hl2. unfold projected. rewrite foldl_app. cbn [foldl].
  assert (H0 : owned newProjectionState) by (intros id b Hb; cbn in Hb; by rewrite lookup_empty in Hb).
  assert (Hrefl : same newProjectionState newProjectionState) by (unfold same, same_rows; by split_and!).
  destruct (projected_other l1 Hl1 newProjectionState newProjectionState) as [Hs H1]; [done..|].
  destruct (project_own (foldl project newProjectionState l1) newProjectionState) as [Hs' H1']; [done..|].
  destruct (projected_other l2 Hl2 (project (foldl project newProjectionState l1) i) (project newProjectionState i)) as [H2 H3]; [done..|].
  split; [done|]. split; [done|]. by apply (project_own newProjectionState newProjectionState).
Qed.

End sessions.

(** ** The data home *)

Lemma safe_entries_names l : forall r, safe_entries l = Ok r -> sublist (map fst r) (map fst l) /\ Forall (fun p => ValidateSessionID p.1 = Ok tt) r.
Proof.
  induction l as [|[name sd] l IH]; intros r H; cbn in H; [injection H as <-; by split|].
  destruct (has_prefix name "."); [apply IH in H as [H1 H2]; split; [by apply sublist_cons|done]|].
  destruct (ValidateSessionID name) as [[]|] eqn:Hv; [|done]. destruct (_ || _); [done|].
  apply bind_ok in H as (r' & Hr & H). apply ok_inj in H as <-. apply IH in Hr as [H1 H2].
  split; [by apply sublist_skip|by constructor].
Qed.

Lemma home_entries_ok h root entries :
  safeHomeEntries h root = Ok entries -> NoDup (map fst entries) /\ Forall (fun p => ValidateSessionID p.1 = Ok tt) entries.
Proof.
  unfold safeHomeEntries. intros H. destruct (hm_fs h !! root) as [info|]; [|injection H as <-; split; constructor].
  destruct (fi_kind info); try done; (destruct (negb (is_dir info)); [done|]);
    unfold wrapped in H; (destruct (safeSessionEntries (hm_sessions h)) as [r|] eqn:E; [|done]); apply ok_inj in H as <-;
    apply safe_entries_names in E as [Hsub Hv]; (split; [|done]);
    (apply (sublist_NoDup _ (map fst (sorted_entries (hm_sessions h)))); [|done]);
    unfold sorted_entries; rewrite (merge_sort_Permutation _ (map_to_list (hm_sessions h))); apply NoDup_fst_map_to_list.
Qed.

(** What a replay of the data home reads: [l], every session under its own id. *)
Definition home_inputs (h : home) (dataHome : string) (ru : Runtime) (l : list session_input) : Prop :=
  exists clean entries, validateProjectionDataHome (hm_fs h) dataHome ru = Ok clean /\
    safeHomeEntries h (Join [clean; SessionsDirName]) = Ok entries /\
    Forall2 (fun p i => read_for_replay h p = Ok i /\ p.1 = sid_of i) entries l.

Lemma home_inputs_ok h dataHome ru l :
  home_inputs h dataHome ru l -> NoDup (map sid_of l) /\ Forall (fun i => input_ok i /\ no_nul (sid_of i)) l.
Proof.
  intros (clean & entries & _ & He & Hl). apply home_entries_ok in He as [Hnd Hv].
  assert (Hnames : map sid_of l = map fst entries).
  { clear Hnd Hv. induction Hl as [|p i entries l [_ Hp] Hl IH]; cbn; [done|]. by rewrite Hp, IH. }
  rewrite Hnames. split; [done|]. clear Hnd Hnames. induction Hl as [|p i entries l [Hr Hp] Hl IH]; [constructor|].
  apply Forall_cons in Hv as [Hv Hvs]. constructor; [|by apply IH]. split; [by apply read_for_replay_ok in Hr as (_ & _ & Hr)|].
  rewrite <- Hp. by apply valid_id_no_nul.
Qed.

Lemma replay_of_inputs h dataHome ru l st :
  ReplayProjectionState h dataHome ru = Ok st -> home_inputs h dataHome ru l -> st = with_commands (projected l) (pj_commands st).
Proof.
  intros H (clean & entries & Hc & He & Hl). apply replay_ok in H as (clean' & entries' & l' & Hc' & He' & Hl' & _ & Hst).
  rewrite Hc in Hc'. injection Hc' as <-. rewrite He in He'. injection He' as <-.
  replace l with l'; [done|]. clear -Hl Hl'. revert l' Hl'. induction Hl as [|p i entries l [Hr _] Hl IH]; intros l' Hl'; inversion Hl'; subst; [done|].
  f_equal; [congruence|]. by apply IH.
Qed.

(** No other session of [l] names an invocation or a batch of [i]. *)
Definition unshared (l : list session_input) (i : session_input) : Prop :=
  forall j e, j ∈ l -> sid_of j <> sid_of i -> e ∈ input_events j ->
    (forall id, named_invocation e = Some id -> ~ names_invocation i id) /\
    (forall id, named_batch e = Some id -> ~ names_batch i id).

Lemma replay_local h dataHome ru l st i :
  ReplayProjectionState h dataHome ru = Ok st -> home_inputs h dataHome ru l -> i ∈ l -> unshared l i ->
  same_rows (sid_of i) (names_invocation i) (names_batch i) st (project newProjectionState i) /\
  own_batches (sid_of i) (names_batch i) st /\ own_batches (sid_of i) (names_batch i) (project newProjectionState i).
Proof.
  intros Hst Hin Hi Hun. pose proof (home_inputs_ok _ _ _ _ Hin) as [Hnd Hall]. rewrite Forall_forall in Hall.
  rewrite (replay_of_inputs _ _ _ _ _ Hst Hin). apply list_elem_of_split in Hi as (l1 & l2 & ->).
  destruct (Hall i) as [Hok Hn]; [set_solver|].
  assert (Hap : forall j, j ∈ l1 \/ j ∈ l2 -> apart i j).
  { intros j Hj. destruct (Hall j) as [Hokj Hnj]; [set_solver|].
    assert (Hne : sid_of j <> sid_of i).
    { rewrite map_app in Hnd. cbn in Hnd. apply NoDup_app in Hnd as (_ & Hd1 & Hd2). apply NoDup_cons in Hd2 as [Hd2 _].
      destruct Hj as [Hj|Hj]; intros Heq; [apply (Hd1 (sid_of i)); [rewrite <- Heq; by apply list_elem_of_fmap_2|by left]|].
      apply Hd2. rewrite <- Heq. by apply list_elem_of_fmap_2. }
    split_and!; [done..|]. intros e He. apply (Hun j e); [set_solver|done|done]. }
  pose proof (projected_local i Hok Hn l1 l2) as H. apply H; apply Forall_forall; intros j Hj; apply Hap; auto.
Qed.

(** C19. Every session is projected by itself: in the replay of a data home whose
    sessions share no runner invocation and no batch with this one, the rows of
    the session, in every table that is keyed by sessions, and those of its
    invocations and batches are what the replay of this session alone gives. *)
Theorem session_rows_local h dataHome ru l st i
    (Hst : ReplayProjectionState h dataHome ru = Ok st) (Hl : home_inputs h dataHome ru l) (Hi : i ∈ l) (Hun : unshared l i) :
  same_rows (sid_of i) (names_invocation i) (names_batch i) st (project newProjectionState i).
Proof. by apply (replay_local h dataHome ru l). Qed.

(** ** Concrete homes *)

(** Decides that what is read of a home is read under the sessions' own names. *)
Definition home_inputs_b (h : home) (dataHome : string) (ru : Runtime) : bool :=
  match validateProjectionDataHome (hm_fs h) dataHome ru with
  | Ok clean =>
      (Join [clean; SessionsDirName] == "/home/u/.atn/sessions") &&
      match safeHomeEntries h "/home/u/.atn/sessions" with
      | Ok entries => forallb (fun p => match read_for_replay h p with Ok i => p.1 == sid_of i | Err _ => false end) entries
      | Err _ => false
      end
  | Err _ => false
  end.

Lemma home_inputs_spec h dataHome ru : home_inputs_b h dataHome ru = true -> home_inputs h dataHome ru (rx_inputs h).
Proof.
  unfold home_inputs_b, home_inputs, rx_inputs. destruct (validateProjectionDataHome _ _ _) as [clean|]; [|done].
  intros [Hc%String.eqb_eq H]%andb_true_iff. destruct (safeHomeEntries h "/home/u/.atn/sessions") as [entries|] eqn:E; [|done].
  exists clean, entries. rewrite Hc. split_and!; [done|done|]. clear E. induction entries as [|p entries IH]; [constructor|]. cbn in *.
  apply andb_true_iff in H as [Hp H]. destruct (read_for_replay h p) as [i|] eqn:Ei; [|done]. constructor; [|by apply IH].
  split; [done|]. by apply String.eqb_eq.
Qed.

Definition names_apart (f : EventEnvelope -> option string) (l1 l2 : list EventEnvelope) : bool :=
  forallb (fun e => forallb (fun e' => match f e with Some id => bool_decide (f e' <> Some id) | None => true end) l2) l1.

Lemma names_apart_spec f l1 l2 :
  names_apart f l1 l2 = true -> forall e, e ∈ l1 -> forall id, f e = Some id -> ~ exists e', e' ∈ l2 /\ f e' = Some id.
Proof.
  unfold names_apart. intros H e He id Hid (e' & He' & Hid'). apply forallb_forall with (x := e) in H; [|by apply list_elem_of_In].
  apply forallb_forall with (x := e') in H; [|by apply list_elem_of_In]. rewrite Hid in H. by apply bool_decide_eq_true in H.
Qed.

Definition unshared_b (l : list session_input) (i : session_input) : bool :=
  forallb (fun j => (sid_of j == sid_of i) || (names_apart named_invocation (input_events j) (input_events i)
                                               && names_apart named_batch (input_events j) (input_events i))) l.

Lemma unshared_spec l i : unshared_b l i = true -> unshared l i.
Proof.
  intros H j e Hj Hne He. apply forallb_forall with (x := j) in H; [|by apply list_elem_of_In].
  apply String.eqb_neq in Hne. rewrite Hne in H. apply andb_true_iff in H as [H1 H2].
  split; intros id Hid; [by apply (names_apart_spec _ _ _ H1 e)|by apply (names_apart_spec _ _ _ H2 e)].
Qed.

Lemma rx_state_ok h : is_ok (rx_replay h) = true -> ReplayProjectionState h "/home/u/.atn" wx_ru = Ok (rx_state h).
Proof. unfold rx_state, rx_replay. by destruct (ReplayProjectionState _ _ _). Qed.

Lemma rx_input_in h name : existsb (fun i => md_id i.1.1 == name) (rx_inputs h) = true -> rx_input h name ∈ rx_inputs h.
Proof.
  unfold rx_input. induction (rx_inputs h) as [|i l IH]; cbn; [done|]. destruct (md_id i.1.1 == name); [by left|].
  intros H. right. by apply IH.
Qed.

Lemma rx_parts_in h name :
  existsb (fun i => md_id i.1.1 == name) (rx_inputs h) = true ->
  ((rx_input h name).1.1, (rx_input h name).1.2, (rx_input h name).2) ∈ rx_inputs h.
Proof. intros H%rx_input_in. by destruct (rx_input h name) as [[md ix] snapshot]. Qed.

Lemma session_rows_local_witness :
  same_rows "sess_deleg" (names_invocation (rx_input rx_costs "sess_deleg")) (names_batch (rx_input rx_costs "sess_deleg"))
    (rx_state rx_costs) (project newProjectionState (rx_input rx_costs "sess_deleg")).
Proof.
  apply (session_rows_local rx_costs "/home/u/.atn" wx_ru (rx_inputs rx_costs) (rx_state rx_costs) (rx_input rx_costs "sess_deleg")).
  - apply rx_state_ok. vm_compute. reflexivity.
  - apply home_inputs_spec. vm_compute. reflexivity.
  - apply rx_input_in. vm_compute. reflexivity.
  - apply unshared_spec. vm_compute. reflexivity.
Defined.
