(* ===== verification/ReplayRows.v ===== *)
(** * What the row of a session says

    The columns of the table of sessions are functions of the session's log: its
    last phase, its turns, its escalations and calls, and the costs of its runner
    invocations, each counted once. *)

From S2P Require Import Prelude Paths GoValue GoTime Model Ids Registry Evidence Events EventLog Session RegistryTheory Fixtures Delegation DelegationTheory Projection Replay ReplayTheory ReplayFixtures ReplayLocal.

(** ** Invariants of a replay *)

Lemma apply_all_ind (P : projectionState -> list EventEnvelope -> Prop) st events :
  P st [] ->
  (forall st past e, P st past -> past ++ [e] `prefix_of` events -> P (applyEvent st (len_z past) e) (past ++ [e])) ->
  P (apply_all st 0 events) events.
Proof.
  intros H0 Hstep.
  assert (Hgen : forall rest past st, P st past -> events = past ++ rest -> P (apply_all st (len_z past) rest) events).
  { induction rest as [|e rest IH]; intros past st' Hp Heq; cbn [apply_all].
    - rewrite app_nil_r in Heq. by subst.
    - replace (len_z past + 1) with (len_z (past ++ [e])) by (unfold len_z; rewrite length_app; cbn; lia).
      apply IH; [|by rewrite <- app_assoc]. apply Hstep; [done|]. exists rest. by rewrite <- app_assoc. }
  by apply (Hgen events [] st).
Qed.

(** ** What is counted *)

Definition is_start (e : EventEnvelope) : bool := ev_type e == "runner_invocation_started".

Definition counts_call (e : EventEnvelope) : bool := match named_invocation e with Some _ => is_start e | None => false end.

(** The first event of every invocation that is not its start, with the
    invocations met so far. *)
Definition billing_step (acc : gset string * list EventEnvelope) (e : EventEnvelope) : gset string * list EventEnvelope :=
  match named_invocation e with
  | Some id => if is_start e || bool_decide (id ∈ acc.1) then acc else ({[id]} ∪ acc.1, acc.2 ++ [e])
  | None => acc
  end.

Definition billed (l : list EventEnvelope) : list EventEnvelope := (foldl billing_step (∅, []) l).2.

(** No invocation is started under an id that was used before. *)
Definition fresh_starts (l : list EventEnvelope) : Prop :=
  forall past e, past ++ [e] `prefix_of` l -> is_start e = true ->
    forall f, f ∈ past -> named_invocation e <> None -> named_invocation f <> named_invocation e.

Definition cost_of (e : EventEnvelope) : parsedCost := parseCost (ev_cost e).

Definition sum_of (f : EventEnvelope -> Z) (l : list EventEnvelope) : Z := foldr (fun e n => f e + n) 0 l.

Definition count_of (p : EventEnvelope -> bool) (l : list EventEnvelope) : Z := len_z (List.filter p l).

(** What the billed events cost; a cost that is null counts as missing. *)
Definition costs_spec (l : list EventEnvelope) (c : costProjection) : Prop :=
  co_runner_calls c = count_of counts_call l /\
  co_missing c = count_of (fun e => pc_null (cost_of e)) (billed l) /\
  co_tokens_in c = wrap64 (sum_of (fun e => default 0 (pc_tokens_in (cost_of e))) (billed l)) /\
  co_tokens_out c = wrap64 (sum_of (fun e => default 0 (pc_tokens_out (cost_of e))) (billed l)) /\
  co_usd c = foldl (fun s e => match pc_usd (cost_of e) with Some f => float_add s f | None => s end) (0, 0) (billed l).

(** The columns of the row that the log determines. *)
Definition row_spec (md : SessionMetadata) (batches : gmap string batchProjection) (l : list EventEnvelope)
    (r : sessionProjection) : Prop :=
  sr_phase r = match last l with Some e => ev_phase e | None => st_phase (md_state md) end /\
  sr_status r = statusFromPhase (sr_phase r) /\
  sr_turn r = default (st_current_turn (md_state md)) (last (omap ev_turn l)) /\
  sr_updated_at r = timeText (match last l with Some e => ev_created_at e | None => md_created_at md end) /\
  sr_closed_at r = match find_last (fun e => terminal_phase (ev_phase e)) l with Some e => timeText (ev_created_at e) | None => "" end /\
  es_total (sr_escalations r) = count_of (fun e => ev_type e == "user_escalation_requested") l /\
  es_pending_batches (sr_escalations r) = countPendingBatches batches (md_id md) /\
  es_pending_candidates (sr_escalations r) = countPendingBatchItems batches (md_id md).

(** ** The row after one event *)

Definition runner_costs (runners : gmap string runnerProjection) (c : costProjection) (e : EventEnvelope) : costProjection :=
  match named_invocation e with
  | None => c
  | Some id =>
      if is_start e then add_call c
      else match runners !! id with
           | Some row => if rr_cost_aggregated row then c else add_cost c (cost_of e)
           | None => add_cost c (cost_of e)
           end
  end.

Lemma runner_session m s e :
  exists s', (applyRunnerEvent m (Some s) e (cost_of e)).2 = Some s' /\ s' = with_costs s (runner_costs m (sr_costs s) e).
Proof.
  assert (Hsame : with_costs s (sr_costs s) = s) by (by destruct s).
  unfold applyRunnerEvent, runner_costs, named_invocation. destruct (ev_runner e) as [r|]; [|by exists s].
  destruct (_ == ""); [by exists s|]. unfold is_start. destruct (_ == "runner_invocation_started"); [by eexists|]. cbn [snd].
  destruct (m !! _) as [row|]; cbn [default from_option]; [|by eexists]. cbn. destruct (rr_cost_aggregated row); [by exists s|by eexists].
Qed.

(** The columns that escalation and council events leave alone. *)
Definition same_columns (a b : sessionProjection) : Prop :=
  sr_phase a = sr_phase b /\ sr_status a = sr_status b /\ sr_turn a = sr_turn b /\ sr_updated_at a = sr_updated_at b /\
  sr_closed_at a = sr_closed_at b /\ sr_costs a = sr_costs b /\ es_total (sr_escalations a) = es_total (sr_escalations b).

Definition pending_ok (batches : gmap string batchProjection) (sid : string) (r : sessionProjection) : Prop :=
  es_pending_batches (sr_escalations r) = countPendingBatches batches sid /\
  es_pending_candidates (sr_escalations r) = countPendingBatchItems batches sid.

Lemma escalation_session t s e :
  pending_ok (bt_batches t) (ev_session_id e) s ->
  exists s', (applyEscalationEvent t (Some s) e).2 = Some s' /\ same_columns s' s /\
    pending_ok (bt_batches (applyEscalationEvent t (Some s) e).1) (ev_session_id e) s'.
Proof. unfold applyEscalationEvent, same_columns. intros H. destruct (_ && _); cbn; eexists; split_and!; try done. Qed.

Lemma council_session t s e :
  exists s', (applyCouncilEvent t (Some s) e).2 = Some s' /\ same_columns s' s /\ sr_escalations s' = sr_escalations s.
Proof.
  destruct t. unfold same_columns. council_cases e; cbn; eexists; by split_and!.
Qed.

Definition escalates (e : EventEnvelope) : bool := ev_type e == "user_escalation_requested".

Lemma applyEvent_session st offset e r :
  pj_sessions st !! ev_session_id e = Some r -> pending_ok (bt_batches (pj_batch st)) (ev_session_id e) r ->
  exists r', let st' := applyEvent st offset e in
    pj_sessions st' !! ev_session_id e = Some r' /\ pending_ok (bt_batches (pj_batch st')) (ev_session_id e) r' /\
    sr_phase r' = ev_phase e /\ sr_status r' = statusFromPhase (ev_phase e) /\ sr_turn r' = default (sr_turn r) (ev_turn e) /\
    sr_updated_at r' = timeText (ev_created_at e) /\
    sr_closed_at r' = (if terminal_phase (ev_phase e) then timeText (ev_created_at e) else sr_closed_at r) /\
    sr_costs r' = runner_costs (pj_runners st) (sr_costs r) e /\
    es_total (sr_escalations r') = es_total (sr_escalations r) + (if escalates e then 1 else 0) /\
    pj_runners st' = (applyRunnerEvent (pj_runners st) None e (cost_of e)).1.
Proof.
  intros Hs Hp. unfold applyEvent. rewrite Hs. cbn [fmap option_fmap option_map].
  destruct (runner_session (pj_runners st) (session_step r e) e) as (s1 & H1 & Hs1).
  assert (Hr : (applyRunnerEvent (pj_runners st) (Some (session_step r e)) e (cost_of e)).1 = (applyRunnerEvent (pj_runners st) None e (cost_of e)).1).
  { unfold applyRunnerEvent. destruct (ev_runner e); [|done]. destruct (_ == ""); [done|]. by destruct (_ == "runner_invocation_started"). }
  unfold cost_of in *. destruct (applyRunnerEvent (pj_runners st) (Some (session_step r e)) e _) as [runners o1]. cbn [fst snd] in H1, Hr. subst o1.
  assert (Hp1 : pending_ok (bt_batches (pj_batch st)) (ev_session_id e) s1).
  { subst s1. unfold pending_ok in *. cbn. unfold escalation_step. by destruct (_ == "user_escalation_requested"). }
  destruct (escalation_session (pj_batch st) s1 e Hp1) as (s2 & H2 & Hc2 & Hp2).
  destruct (applyEscalationEvent (pj_batch st) (Some s1) e) as [batch o2]. cbn [fst snd] in H2, Hp2. subst o2.
  destruct (council_session (pj_council st) s2 e) as (s3 & H3 & Hc3 & He3).
  destruct (applyCouncilEvent (pj_council st) (Some s2) e) as [council o3]. cbn [fst snd] in H3. subst o3.
  exists s3. cbn. rewrite lookup_insert_eq. unfold same_columns, pending_ok in *. destruct_and?. subst s1. cbn in *.
  assert (Ht : es_total (sr_escalations s3) = es_total (escalation_step (sr_escalations r) e)) by congruence.
  split_and!; try congruence; [unfold terminal_phase; congruence|]. rewrite Ht.
  unfold escalation_step, escalates. destruct (_ == "user_escalation_requested"); cbn; lia.
Qed.

(** ** Costs *)

Lemma sum_of_snoc f l e : sum_of f (l ++ [e]) = sum_of f l + f e.
Proof. unfold sum_of. induction l as [|x l IH]; cbn; [lia|]. rewrite IH. lia. Qed.

Lemma count_of_snoc p l e : count_of p (l ++ [e]) = count_of p l + (if p e then 1 else 0).
Proof.
  unfold count_of. rewrite List.filter_app. cbn. destruct (p e); [apply len_z_snoc|]. rewrite app_nil_r. lia.
Qed.

Lemma wrap64_add a b : wrap64 (wrap64 a + b) = wrap64 (a + b).
Proof.
  unfold wrap64. f_equal. replace ((a + 2 ^ 63) mod 2 ^ 64 - 2 ^ 63 + b + 2 ^ 63) with ((a + 2 ^ 63) mod 2 ^ 64 + b) by lia.
  rewrite Z.add_mod_idemp_l by lia. f_equal. lia.
Qed.

Definition seen (l : list EventEnvelope) : gset string := (foldl billing_step (∅, []) l).1.

Lemma billing_snoc l e :
  (seen (l ++ [e]), billed (l ++ [e])) =
  match named_invocation e with
  | Some id => if is_start e || bool_decide (id ∈ seen l) then (seen l, billed l) else ({[id]} ∪ seen l, billed l ++ [e])
  | None => (seen l, billed l)
  end.
Proof.
  unfold seen, billed. rewrite !foldl_snoc. destruct (foldl _ _ l) as [s b]. unfold billing_step. cbn [fst snd].
  destruct (named_invocation e) as [id|]; [|done]. by destruct (_ || _).
Qed.

(** The rows of the invocations, beside what was counted. *)
Definition runners_ok (runners : gmap string runnerProjection) (l : list EventEnvelope) : Prop :=
  forall id, match runners !! id with
             | Some row => (exists f, f ∈ l /\ named_invocation f = Some id) /\ (rr_cost_aggregated row = true <-> id ∈ seen l)
             | None => id ∉ seen l
             end.

Lemma runner_rows runners e :
  (applyRunnerEvent runners None e (cost_of e)).1 =
  match ev_runner e, named_invocation e with
  | Some r, Some id =>
      if is_start e then <[id := started_row e r id]> runners
      else <[id := ended_row (default (started_row e r id) (runners !! id)) e r (cost_of e)]> runners
  | _, _ => runners
  end.
Proof.
  unfold applyRunnerEvent, named_invocation, is_start. destruct (ev_runner e) as [r|]; [|done]. destruct (_ == ""); [done|].
  by destruct (_ == "runner_invocation_started").
Qed.

Lemma runners_ok_step runners l e :
  runners_ok runners l -> (is_start e = true -> forall f, f ∈ l -> named_invocation e <> None -> named_invocation f <> named_invocation e) ->
  runners_ok (applyRunnerEvent runners None e (cost_of e)).1 (l ++ [e]).
Proof.
  intros H Hfresh id. rewrite runner_rows.
  assert (Hold : forall (s : gset string) m, (id ∈ s <-> id ∈ seen l) -> m = runners !! id ->
    match m with
    | Some row => (exists f, f ∈ l ++ [e] /\ named_invocation f = Some id) /\ (rr_cost_aggregated row = true <-> id ∈ s)
    | None => id ∉ s
    end).
  { intros s m Hs ->. specialize (H id). destruct (runners !! id) as [row|]; [|by rewrite Hs].
    destruct H as [(f & Hf & Hid) Ha]. split; [exists f; set_solver|by rewrite Hs]. }
  pose proof (f_equal fst (billing_snoc l e)) as Hb. cbn [fst] in Hb.
  destruct (named_invocation e) as [x|] eqn:Hx; [|rewrite Hb; destruct (ev_runner e); by apply Hold].
  assert (exists r, ev_runner e = Some r) as [r Hr] by (revert Hx; unfold named_invocation; destruct (ev_runner e); [eauto|done]).
  rewrite Hr. pose proof (H x) as Hrow.
  assert (Hin : exists f, f ∈ l ++ [e] /\ named_invocation f = Some x) by (exists e; split; [set_solver|done]).
  destruct (is_start e) eqn:Hst; cbn [orb fst] in Hb.
  - rewrite Hb. destruct (decide (id = x)) as [->|Hd]; [|apply Hold; [done|by apply lookup_insert_ne]]. rewrite lookup_insert_eq.
    split; [done|]. cbn. split; [done|]. intros Hs. exfalso. destruct (runners !! x) as [row|]; [|done].
    destruct Hrow as [(f & Hf & Hfx) _]. by apply (Hfresh eq_refl f Hf).
  - assert (Hseen : seen (l ++ [e]) = {[x]} ∪ seen l).
    { rewrite Hb. destruct (bool_decide_reflect (x ∈ seen l)) as [Hs|Hs]; cbn [fst]; [set_solver|done]. }
    rewrite Hseen. destruct (decide (id = x)) as [->|Hd]; [|apply Hold; [set_solver|by apply lookup_insert_ne]].
    rewrite lookup_insert_eq. split; [done|]. cbn. set_solver.
Qed.

Lemma add_cost_spec l e c :
  costs_spec l c -> named_invocation e <> None -> is_start e = false -> billed (l ++ [e]) = billed l ++ [e] ->
  costs_spec (l ++ [e]) (add_cost c (cost_of e)).
Proof.
  intros (Hc & Hm & Hi & Ho & Hu) Hn Hst Hb. unfold costs_spec. rewrite Hb, !count_of_snoc, !sum_of_snoc, foldl_snoc, <- Hu.
  assert (Hcall : counts_call e = false) by (unfold counts_call; by destruct (named_invocation e)). rewrite Hcall, Z.add_0_r.
  unfold add_cost. destruct (pc_null (cost_of e)) eqn:Hnull; cbn.
  - assert (Hnone : pc_tokens_in (cost_of e) = None /\ pc_tokens_out (cost_of e) = None /\ pc_usd (cost_of e) = None).
    { revert Hnull. unfold cost_of, parseCost. destruct (ev_cost e) as [[]|]; cbn; by intros. }
    destruct Hnone as (-> & -> & ->). cbn. rewrite !Z.add_0_r. split_and!; try done. by rewrite Hm.
  - rewrite Z.add_0_r. split_and!; try done.
    + destruct (pc_tokens_in (cost_of e)); cbn; [by rewrite Hi, wrap64_add|by rewrite Z.add_0_r].
    + destruct (pc_tokens_out (cost_of e)); cbn; [by rewrite Ho, wrap64_add|by rewrite Z.add_0_r].
Qed.

Lemma costs_step runners l e c :
  runners_ok runners l -> costs_spec l c -> costs_spec (l ++ [e]) (runner_costs runners c e).
Proof.
  intros Hr Hc. pose proof (f_equal snd (billing_snoc l e)) as Hb. cbn [snd] in Hb. unfold runner_costs.
  destruct (named_invocation e) as [x|] eqn:Hx.
  2: { destruct Hc as (H1 & H2 & H3 & H4 & H5). unfold costs_spec. rewrite Hb, count_of_snoc. unfold counts_call at 2. rewrite Hx, Z.add_0_r. by split_and!. }
  specialize (Hr x). destruct (is_start e) eqn:Hst; cbn [orb snd] in Hb.
  { destruct Hc as (H1 & H2 & H3 & H4 & H5). unfold costs_spec. rewrite Hb, count_of_snoc. unfold counts_call at 2. rewrite Hx, Hst. cbn.
    split_and!; [by rewrite H1|done..]. }
  assert (Hsame : x ∈ seen l -> costs_spec (l ++ [e]) c).
  { intros Hs. rewrite bool_decide_true in Hb by done. destruct Hc as (H1 & H2 & H3 & H4 & H5). unfold costs_spec. cbn [snd] in Hb.
    rewrite Hb, count_of_snoc. unfold counts_call at 2. rewrite Hx, Hst, Z.add_0_r. by split_and!. }
  assert (Hnew : x ∉ seen l -> costs_spec (l ++ [e]) (add_cost c (cost_of e))).
  { intros Hs. rewrite bool_decide_false in Hb by done. apply add_cost_spec; [done|by rewrite Hx|done|exact Hb]. }
  destruct (runners !! x) as [row|]; [|by apply Hnew]. destruct Hr as [_ Ha]. destruct (rr_cost_aggregated row); [by apply Hsame, Ha|].
  apply Hnew. intros Hs. by apply Ha in Hs.
Qed.

(** ** The row after the replay of its session *)

Lemma row_spec_step md batches batches' l e r r' :
  row_spec md batches l r ->
  pending_ok batches' (md_id md) r' -> sr_phase r' = ev_phase e -> sr_status r' = statusFromPhase (ev_phase e) ->
  sr_turn r' = default (sr_turn r) (ev_turn e) -> sr_updated_at r' = timeText (ev_created_at e) ->
  sr_closed_at r' = (if terminal_phase (ev_phase e) then timeText (ev_created_at e) else sr_closed_at r) ->
  es_total (sr_escalations r') = es_total (sr_escalations r) + (if escalates e then 1 else 0) ->
  row_spec md batches' (l ++ [e]) r'.
Proof.
  intros (_ & _ & Ht & _ & Hc & He & _) [Hp1 Hp2] H1 H2 H3 H4 H5 H6. unfold row_spec.
  rewrite last_snoc, omap_app, find_last_app, count_of_snoc, <- He. cbn. split_and!; try done.
  - by rewrite H2, H1.
  - rewrite H3, Ht. destruct (ev_turn e) as [t|]; cbn; [by rewrite last_snoc|by rewrite app_nil_r].
  - rewrite H5, Hc. by destruct (terminal_phase (ev_phase e)).
Qed.

Lemma project_row md ix snapshot :
  let i := (md, ix, snapshot) in
  input_ok i ->
  exists r, pj_sessions (project newProjectionState i) !! sid_of i = Some r /\
    row_spec md (bt_batches (pj_batch (project newProjectionState i))) (input_events i) r /\
    (fresh_starts (input_events i) -> costs_spec (input_events i) (sr_costs r)).
Proof.
  intros i Hok. unfold project.
  set (P st past := exists r, pj_sessions st !! md_id md = Some r /\ row_spec md (bt_batches (pj_batch st)) past r /\
         (fresh_starts (input_events i) -> costs_spec past (sr_costs r) /\ runners_ok (pj_runners st) past)).
  assert (Hfinal : P (apply_all (initSession newProjectionState i.1.1 i.2) 0 (input_events i)) (input_events i)).
  2: { destruct Hfinal as (r & Hr & Hs & Hc). exists r. split_and!; [done|done|]. intros Hf. by apply Hc. }
  apply apply_all_ind.
  - exists (session_row md). cbn. rewrite lookup_insert_eq. split_and!; [done| |].
    + unfold row_spec. by split_and!.
    + intros _. split; [by unfold costs_spec|]. intros id. cbn. rewrite lookup_empty. set_solver.
  - intros st past e (r & Hr & Hs & Hc) Hpre.
    assert (Hsid : ev_session_id e = md_id md).
    { unfold input_ok in Hok. rewrite Forall_forall in Hok. apply (valid_event md e), Hok. destruct Hpre as [rest ->]. set_solver. }
    rewrite <- Hsid in Hr. destruct (applyEvent_session st (len_z past) e r) as (r' & H); [done|by rewrite Hsid; destruct_and?; unfold row_spec in Hs; destruct_and?|].
    cbv zeta in H. destruct H as (Hr' & Hp & H1 & H2 & H3 & H4 & H5 & Hcost & H6 & Hrun). exists r'. rewrite <- Hsid. split_and!; [done| |].
    + rewrite Hsid in Hp. by eapply row_spec_step.
    + intros Hf. specialize (Hc Hf) as [Hc Hok']. rewrite Hcost, Hrun. split; [by apply costs_step|].
      apply runners_ok_step; [done|]. intros Hst f Hin Hne. by apply (Hf past e).
Qed.

Lemma row_spec_pending md batches batches' l r :
  pending_of batches (md_id md) = pending_of batches' (md_id md) -> row_spec md batches l r -> row_spec md batches' l r.
Proof. unfold row_spec, countPendingBatches, countPendingBatchItems. by intros ->. Qed.

(** C18. The row of a session reports its log: in the replay of a data home whose
    sessions share no invocation and no batch with this one, the phase, status,
    turn and time of the row are those of the last events, [closed_at] is the last
    event in a terminal phase, escalations and runner calls are counted once per
    event, the pending escalations are those in the table of batches and, if no
    invocation is started twice, the costs are those of the first ending of every
    invocation. *)
Theorem session_row_reports_log h dataHome ru l st md ix snapshot
    (Hst : ReplayProjectionState h dataHome ru = Ok st) (Hl : home_inputs h dataHome ru l) (Hi : (md, ix, snapshot) ∈ l)
    (Hun : unshared l (md, ix, snapshot)) :
  exists r, pj_sessions st !! md_id md = Some r /\ row_spec md (bt_batches (pj_batch st)) (ix_events ix) r /\
    (fresh_starts (ix_events ix) -> costs_spec (ix_events ix) (sr_costs r)).
Proof.
  destruct (replay_local _ _ _ _ _ _ Hst Hl Hi Hun) as ((Hs & _ & _ & _ & _ & Hb) & Ho1 & Ho2).
  pose proof (home_inputs_ok _ _ _ _ Hl) as [_ Hall]. rewrite Forall_forall in Hall. destruct (Hall _ Hi) as [Hok _].
  destruct (project_row md ix snapshot Hok) as (r & Hr & Hrow & Hc).
  exists r. change (md_id md) with (sid_of (md, ix, snapshot)) at 1. rewrite Hs. split_and!; [done| |done].
  eapply row_spec_pending; [|exact Hrow]. symmetry. by apply (pending_agree _ (names_batch (md, ix, snapshot))).
Qed.

(** Decides [fresh_starts] of the rest of a log. *)
Fixpoint fresh_starts_b (past rest : list EventEnvelope) : bool :=
  match rest with
  | [] => true
  | e :: rest' =>
      (negb (is_start e) || forallb (fun f => bool_decide (named_invocation e = None \/ named_invocation f <> named_invocation e)) past)
      && fresh_starts_b (past ++ [e]) rest'
  end.

Lemma fresh_starts_spec l : fresh_starts_b [] l = true -> fresh_starts l.
Proof.
  assert (Hgen : forall rest before, fresh_starts_b before rest = true -> forall past e, past ++ [e] `prefix_of` rest ->
    is_start e = true -> forall f, f ∈ before ++ past -> named_invocation e <> None -> named_invocation f <> named_invocation e).
  2: { intros H past e Hp Hs f Hf. by apply (Hgen l [] H past). }
  induction rest as [|x rest IH]; intros before H past e Hp Hs f Hf Hne.
  { destruct Hp as [k Hk]. by destruct past. }
  cbn in H. apply andb_true_iff in H as [Hx H]. destruct past as [|y past].
  - destruct Hp as [k Hk]. injection Hk as -> ->. rewrite app_nil_r in Hf. rewrite Hs in Hx. cbn in Hx.
    apply forallb_forall with (x := f) in Hx; [|by apply list_elem_of_In]. apply bool_decide_eq_true in Hx. by destruct Hx.
  - destruct Hp as [k Hk]. injection Hk as -> ->.
    apply (IH (before ++ [y]) H past e); [by exists k|done| |done]. by rewrite <- app_assoc.
Qed.

Lemma session_row_reports_log_witness :
  let i := rx_input rx_costs "sess_deleg" in
  exists r, pj_sessions (rx_state rx_costs) !! md_id i.1.1 = Some r /\
    row_spec i.1.1 (bt_batches (pj_batch (rx_state rx_costs))) (ix_events i.1.2) r /\ costs_spec (ix_events i.1.2) (sr_costs r).
Proof.
  destruct (session_row_reports_log rx_costs "/home/u/.atn" wx_ru (rx_inputs rx_costs) (rx_state rx_costs)
    (rx_input rx_costs "sess_deleg").1.1 (rx_input rx_costs "sess_deleg").1.2 (rx_input rx_costs "sess_deleg").2) as (r & H1 & H2 & H3).
  - apply rx_state_ok. vm_compute. reflexivity.
  - apply home_inputs_spec. vm_compute. reflexivity.
  - apply rx_parts_in. vm_compute. reflexivity.
  - apply unshared_spec. vm_compute. reflexivity.
  - exists r. split; [exact H1|]. split; [exact H2|]. apply H3, fresh_starts_spec. vm_compute. reflexivity.
Defined.
