(* ===== verification/ReplayVotes.v ===== *)
(** * The votes of a council in the projection

    The table of votes is keyed by round, draft and member, so it can hold the
    votes of a log only when no member votes twice; the council's commands see to
    that, and the table then has one row for every vote. *)

From S2P Require Import Prelude Paths GoValue GoTime Model Ids Registry Evidence Events EventLog Command Delegation Session RegistryTheory Fixtures Closeout Lifecycle ArgumentGraph Council DelegationTheory CouncilTheory Projection Replay ReplayTheory ReplayFixtures ReplayLocal ReplayRows.

(** ** Keys of votes *)

Lemma key_parts a b x y : no_nul a -> no_nul b -> a +:+ nul +:+ x = b +:+ nul +:+ y -> a = b /\ x = y.
Proof.
  intros Ha Hb H. assert (a = b) as <- by (by rewrite <- (key_session_app a x), H, key_session_app).
  split; [done|]. clear Ha Hb. induction a as [|c a IH]; [by injection H|]. rewrite !str_app_cons in H. injection H as H. auto.
Qed.

Lemma no_nul_cons a s : no_nul (String a s) <-> is_byte 0 a = false /\ no_nul s.
Proof. unfold no_nul. cbn. apply orb_false_iff. Qed.

Lemma pretty_char_no_nul x : is_byte 0 (pretty_N_char x) = false.
Proof. unfold pretty_N_char. by repeat case_match. Qed.

Lemma pretty_go_no_nul x : forall s, no_nul s -> no_nul (pretty_N_go x s).
Proof.
  induction (N.lt_wf_0 x) as [x _ IH]. intros s Hs. destruct (decide (x = 0)%N) as [->|Hx]; [by rewrite pretty_N_go_0|].
  rewrite pretty_N_go_step by lia. apply IH; [apply N.div_lt; lia|]. apply no_nul_cons. split; [apply pretty_char_no_nul|done].
Qed.

Lemma itoa_no_nul z : no_nul (itoa z).
Proof.
  assert (HN : forall n : N, no_nul (pretty n)).
  { intros n. unfold pretty, pretty_N. destruct (decide _); [done|]. by apply pretty_go_no_nul. }
  unfold itoa. destruct z as [|p|p]; [done|apply HN|]. unfold pretty, pretty_Z. apply no_nul_cons. split; [done|apply HN].
Qed.

Lemma itoa_inj a b : itoa a = itoa b -> a = b.
Proof. unfold itoa. apply (inj pretty). Qed.

Lemma vote_key_inj a b :
  vp_session_id a = vp_session_id b -> no_nul (vp_session_id a) -> vote_key a = vote_key b ->
  vp_round a = vp_round b /\ vp_draft a = vp_draft b /\ vp_member a = vp_member b.
Proof.
  intros Hs Hn H. unfold vote_key, row_key in H. cbn [join] in H. rewrite <- Hs in H.
  apply key_parts in H as [_ H]; [|done..]. apply key_parts in H as [Hr H]; [|apply itoa_no_nul..].
  apply key_parts in H as [Hd H]; [|apply itoa_no_nul..]. split; [by apply itoa_inj|]. split; [by apply itoa_inj|done].
Qed.

(** ** The table of votes *)

Definition is_vote (e : EventEnvelope) : bool := ev_type e == "consensus_vote".

(** The row of a vote, of a log whose votes have rounds. *)
Definition ballot (e : EventEnvelope) : voteProjection := vote_projection None e.

Lemma applyEvent_votes st offset e :
  (is_vote e = true -> anyInt (pl e) "consensus_round" <> 0) ->
  ct_votes (pj_council (applyEvent st offset e)) =
  if is_vote e then <[vote_key (ballot e) := ballot e]> (ct_votes (pj_council st)) else ct_votes (pj_council st).
Proof.
  intros Hround. unfold applyEvent. destruct (applyRunnerEvent _ _ _ _) as [runners s1]. destruct (applyEscalationEvent _ _ _) as [batch s2].
  assert (H : ct_votes (applyCouncilEvent (pj_council st) s2 e).1 =
              if is_vote e then <[vote_key (ballot e) := ballot e]> (ct_votes (pj_council st)) else ct_votes (pj_council st)).
  2: { by destruct (applyCouncilEvent _ _ _) as [council s3]. }
  destruct (pj_council st) as [a l r v k]. unfold is_vote in *. destruct (String.eqb_spec (ev_type e) "consensus_vote") as [Ht|Ht].
  - unfold applyCouncilEvent. rewrite Ht. cbn.
    replace (vote_projection s2 e) with (ballot e); [done|]. unfold ballot, vote_projection. f_equal. unfold vote_round. destruct s2; [|done].
    by rewrite (proj2 (Z.eqb_neq _ _) (Hround eq_refl)).
  - apply String.eqb_neq in Ht. unfold applyCouncilEvent. rewrite Ht.
    repeat match goal with |- context [if ?b then _ else _] => destruct b; [done|] end.
    destruct (mem_str _ _); [|done]. by destruct (anyMap _ _).
Qed.

(** The rows of the table are the ballots of the log, one for each. *)
Definition votes_spec (l : list EventEnvelope) (t : gmap string voteProjection) : Prop :=
  (forall k v, t !! k = Some v <-> exists e, e ∈ l /\ is_vote e = true /\ v = ballot e /\ k = vote_key v) /\
  len_z (List.filter is_vote l) = Z.of_nat (size t).

Lemma votes_spec_snoc l t e :
  votes_spec l t -> (is_vote e = true -> forall f, f ∈ l -> is_vote f = true -> vote_key (ballot f) <> vote_key (ballot e)) ->
  votes_spec (l ++ [e]) (if is_vote e then <[vote_key (ballot e) := ballot e]> t else t).
Proof.
  intros [Ht Hc] Hnew. unfold votes_spec. rewrite List.filter_app. cbn. destruct (is_vote e) eqn:He.
  - specialize (Hnew eq_refl).
    assert (Hfresh : t !! vote_key (ballot e) = None).
    { destruct (t !! _) as [v|] eqn:E; [|done]. apply Ht in E as (f & Hf & Hv & -> & Hk). by destruct (Hnew f Hf Hv). }
    split.
    + intros k v. destruct (decide (k = vote_key (ballot e))) as [->|Hne].
      * rewrite lookup_insert_eq. split; [intros [= <-]; exists e; set_solver|]. intros (f & Hf & Hv & -> & Hk). f_equal.
        apply elem_of_app in Hf as [Hf|Hf]; [by destruct (Hnew f Hf Hv)|]. by apply list_elem_of_singleton in Hf as ->.
      * rewrite lookup_insert_ne, Ht by done. split; intros (f & Hf & Hv & -> & Hk); exists f; split_and!; try done; [set_solver|].
        apply elem_of_app in Hf as [Hf|Hf]; [done|]. by apply list_elem_of_singleton in Hf as ->.
    + rewrite map_size_insert_None by done. unfold len_z in *. rewrite length_app. cbn. lia.
  - rewrite app_nil_r. split; [|done]. intros k v. rewrite Ht. split; intros (f & Hf & Hv & -> & Hk); exists f; split_and!; try done; [set_solver|].
    apply elem_of_app in Hf as [Hf|Hf]; [done|]. apply list_elem_of_singleton in Hf as ->. by rewrite He in Hv.
Qed.

Lemma apply_all_votes sid st events :
  Forall (fun e => ev_session_id e = sid) events -> no_nul sid -> ct_votes (pj_council st) = ∅ ->
  (forall e, e ∈ events -> is_vote e = true -> anyInt (pl e) "consensus_round" <> 0) ->
  (forall past e f, past ++ [e] `prefix_of` events -> f ∈ past -> is_vote e = true -> is_vote f = true ->
     ~ (vp_round (ballot f) = vp_round (ballot e) /\ vp_draft (ballot f) = vp_draft (ballot e) /\ vp_member (ballot f) = vp_member (ballot e))) ->
  votes_spec events (ct_votes (pj_council (apply_all st 0 events))).
Proof.
  intros Hsid Hn H0 Hround Huniq. rewrite Forall_forall in Hsid.
  apply (apply_all_ind (fun st past => votes_spec past (ct_votes (pj_council st)))).
  - rewrite H0. split; [|done]. intros k v. rewrite lookup_empty. split; [done|]. intros (e & He & _). set_solver.
  - intros st' past e Hp Hpre.
    assert (Hin : forall x, x ∈ past ++ [e] -> x ∈ events) by (intros x Hx; destruct Hpre as [rest ->]; set_solver).
    rewrite applyEvent_votes by (apply Hround, Hin; set_solver). apply votes_spec_snoc; [done|].
    intros He f Hf Hv Hk. apply vote_key_inj in Hk; [by destruct (Huniq past e f Hpre Hf He Hv)| |].
    + cbn. rewrite !Hsid; [done|apply Hin; set_solver|apply Hin; set_solver].
    + cbn. rewrite Hsid; [done|apply Hin; set_solver].
Qed.

(** ** The votes of a council *)

Lemma votes_apart md l past e f :
  justified_log md l -> counts_small l -> past ++ [e] `prefix_of` l -> f ∈ past -> is_vote e = true -> is_vote f = true ->
  (forall x, x ∈ l -> is_vote x = true -> anyInt (pl x) "consensus_round" <> 0) ->
  ~ (vp_round (ballot f) = vp_round (ballot e) /\ vp_draft (ballot f) = vp_draft (ballot e) /\ vp_member (ballot f) = vp_member (ballot e)).
Proof.
  intros Hj Hs [rest Hl] [i Hi]%list_elem_of_lookup He Hf Hround (Hr & Hd & Hm). cbn in Hr, Hd, Hm.
  pose proof (lookup_lt_Some _ _ _ Hi) as Hlt.
  assert (Hi' : l !! i = Some f) by (rewrite Hl, <- app_assoc, lookup_app_l by done; done).
  assert (He' : l !! length past = Some e) by (rewrite Hl, <- app_assoc, lookup_app_r, Nat.sub_diag by done; done).
  assert (Hin : forall x, is_vote x = true -> anyInt (pl x) "consensus_round" = anyInt (pl e) "consensus_round" ->
                anyInt (pl x) "draft_version" = anyInt (pl e) "draft_version" ->
                vote_in (anyInt (pl e) "consensus_round") (anyInt (pl e) "draft_version") x = true).
  { intros x Hx H1 H2. unfold vote_in, is_vote in *. by rewrite Hx, H1, H2, !Z.eqb_refl. }
  pose proof (vote_unique md l i (length past) f e _ _ Hj Hs Hi' He' (Hin f Hf Hr Hd) (Hin e He eq_refl eq_refl) Hm). lia.
Qed.

Lemma own_votes_filter sid (t t1 : gmap string voteProjection) :
  same_own sid t t1 -> (forall k v, t1 !! k = Some v -> key_session k = sid) -> filter (fun p => key_session p.1 = sid) t = t1.
Proof.
  intros Hsame Hown. apply map_eq. intros k. apply option_eq. intros v. rewrite map_lookup_filter_Some. cbn. split.
  - intros [Hk Hs]. by rewrite <- Hsame.
  - intros Hk. pose proof (Hown _ _ Hk) as Hs. by rewrite Hsame.
Qed.

(** C13. The table of votes holds the council's votes and nothing else: after any
    run of council commands whose votes name their rounds, the rows of the session
    in the replay of its data home are exactly the ballots of its log, one row for
    every vote: the key of the table never makes one member's vote hide another. *)
Theorem votes_projected_exactly name w w' ix ix' h dataHome ru l st md snapshot
    (Hrun : rtc (command_step (C := council_command) name) w w') (Hix : reads w name ix)
    (Hj : justified_log (wd_md w) (ix_events ix)) (Hix' : reads w' name ix') (Hs : counts_small (ix_events ix'))
    (Hround : forall e, e ∈ ix_events ix' -> is_vote e = true -> anyInt (pl e) "consensus_round" <> 0)
    (Hst : ReplayProjectionState h dataHome ru = Ok st) (Hl : home_inputs h dataHome ru l) (Hi : (md, ix', snapshot) ∈ l)
    (Hun : unshared l (md, ix', snapshot)) :
  let rows := filter (fun p => key_session p.1 = md_id md) (ct_votes (pj_council st)) in
  (forall k v, rows !! k = Some v <-> exists e, e ∈ ix_events ix' /\ is_vote e = true /\ v = ballot e /\ k = vote_key v) /\
  len_z (List.filter is_vote (ix_events ix')) = Z.of_nat (size rows).
Proof.
  pose proof (council_run_justified _ _ _ _ _ Hrun Hix Hj Hix') as Hlog.
  destruct (replay_local _ _ _ _ _ _ Hst Hl Hi Hun) as ((_ & _ & Hc & _) & _).
  pose proof (home_inputs_ok _ _ _ _ Hl) as [_ Hall]. rewrite Forall_forall in Hall. destruct (Hall _ Hi) as [Hok Hnul].
  assert (Hsid : Forall (fun e => ev_session_id e = md_id md) (ix_events ix')).
  { eapply Forall_impl; [exact Hok|]. intros e He. by apply (valid_event md e). }
  assert (Hvotes : votes_spec (ix_events ix') (ct_votes (pj_council (project newProjectionState (md, ix', snapshot))))).
  { unfold project, input_events. cbn [fst snd]. apply (apply_all_votes (md_id md)); [done|done|done|done|].
    intros past e f Hpre Hf He Hv. by eapply votes_apart. }
  cbv zeta. rewrite (own_votes_filter (md_id md) _ (ct_votes (pj_council (project newProjectionState (md, ix', snapshot))))); [exact Hvotes|apply Hc|].
  intros k v Hk. apply Hvotes in Hk as (e & He & _ & -> & ->). rewrite Forall_forall in Hsid.
  unfold vote_key. cbn. rewrite (Hsid e He). by apply row_key_session.
Qed.

Definition rounds_named_b (l : list EventEnvelope) : bool :=
  forallb (fun e => negb (is_vote e) || negb (anyInt (pl e) "consensus_round" =? 0)) l.

Lemma rounds_named_spec l :
  rounds_named_b l = true -> forall e, e ∈ l -> is_vote e = true -> anyInt (pl e) "consensus_round" <> 0.
Proof.
  intros H e He Hv. apply forallb_forall with (x := e) in H; [|by apply list_elem_of_In]. rewrite Hv in H. cbn in H. by apply negb_true_iff, Z.eqb_neq in H.
Qed.

(** *** What a replay reads of a session is the log of its directory *)

Lemma safe_entries_from l : forall r p, safe_entries l = Ok r -> p ∈ r -> p ∈ l.
Proof.
  induction l as [|[name sd] l IH]; intros r p H Hp; cbn in H; [by injection H as <-|].
  destruct (has_prefix name "."); [right; by eapply IH|].
  destruct (ValidateSessionID name) as [[]|]; [|done]. destruct (_ || _); [done|].
  apply bind_ok in H as (r' & Hr & H). apply ok_inj in H as <-.
  apply elem_of_cons in Hp as [->|Hp]; [by left|right; by eapply IH].
Qed.

Lemma home_entry h root entries p : safeHomeEntries h root = Ok entries -> p ∈ entries -> hm_sessions h !! p.1 = Some p.2.
Proof.
  unfold safeHomeEntries. intros H Hp. destruct (hm_fs h !! root) as [info|]; [|injection H as <-; by apply elem_of_nil in Hp].
  destruct p as [name sd]. apply sorted_entries_elem.
  destruct (fi_kind info); try done; (destruct (negb (is_dir info)); [done|]);
    unfold wrapped in H; (destruct (safeSessionEntries (hm_sessions h)) as [r|] eqn:E; [|done]); apply ok_inj in H as <-;
    by eapply safe_entries_from.
Qed.

Lemma rx_input_dir h name sd :
  home_inputs_b h "/home/u/.atn" wx_ru = true -> existsb (fun i => md_id i.1.1 == name) (rx_inputs h) = true ->
  hm_sessions h !! name = Some sd -> ReadLogIndex sd (rx_input h name).1.1 = Ok (rx_input h name).1.2.
Proof.
  intros Hb Hex Hsd. apply home_inputs_spec in Hb as (clean & entries & _ & He & Hl).
  pose proof (rx_input_in h name Hex) as Hi. apply list_elem_of_lookup in Hi as [k Hi].
  destruct (Forall2_lookup_r _ _ _ _ _ Hl Hi) as (p & Hp & Hread & Hname).
  apply list_elem_of_lookup_2 in Hp. apply (home_entry _ _ _ _ He) in Hp.
  assert (Hid : md_id (rx_input h name).1.1 = name).
  { unfold rx_input. destruct (find_first _ (rx_inputs h)) as [i|] eqn:Ef.
    - apply find_some in Ef as [_ Ef]. by apply String.eqb_eq in Ef.
    - apply existsb_exists in Hex as (i & Hin & Hex). pose proof (find_none _ _ Ef i Hin) as Hn. cbn in Hn. by rewrite Hex in Hn. }
  unfold sid_of in Hname. rewrite Hname, Hid, Hsd in Hp. injection Hp as ->.
  by apply read_for_replay_ok in Hread as (_ & Hread & _).
Qed.

Lemma read_index_eq sd sd' md md' ix ix' :
  ReadLogIndex sd md = Ok ix -> ReadLogIndex sd' md' = Ok ix' -> sd_channel sd = sd_channel sd' -> ix = ix'.
Proof.
  intros H H' Hc. apply ReadLogIndex_ok in H as ([_ Hids] & Hev & _). apply ReadLogIndex_ok in H' as ([_ Hids'] & Hev' & _).
  unfold log_of, lines_of in *. rewrite Hc in Hev. destruct ix, ix'. cbn in *. congruence.
Qed.

Lemma council_dir_reads : ReadLogIndex council_dir (wd_md cx_w_final) = Ok (cx_read cx_w_final).
Proof.
  assert (Hok : is_ok (read_session cx_w_final "sess_council") = true) by (vm_compute; reflexivity).
  destruct (cx_read_reads _ Hok) as (sd & Hsd & Hread). unfold council_dir. by rewrite Hsd.
Qed.

Lemma moved_dir_reads root sd name md md' ix ix' :
  ReadLogIndex (moved root sd name) md = Ok ix -> ReadLogIndex sd md' = Ok ix' -> ix = ix'.
Proof. intros H H'. by apply (read_index_eq _ _ _ _ _ _ H H'). Qed.

Lemma with_session_dir h name sd : hm_sessions (with_session h name sd) !! name = Some (moved "/home/u/.atn/sessions" sd name).
Proof. apply lookup_insert_eq. Qed.

(** The council of the home has the log of the council fixtures. *)
Lemma rx_council_log : (rx_input rx_home "sess_council").1.2 = cx_read cx_w_final.
Proof.
  assert (Hb : home_inputs_b rx_home "/home/u/.atn" wx_ru = true) by (vm_compute; reflexivity).
  assert (Hex : existsb (fun i => md_id i.1.1 == "sess_council") (rx_inputs rx_home) = true) by (vm_compute; reflexivity).
  pose proof (rx_input_dir rx_home "sess_council" _ Hb Hex (with_session_dir rx_created "sess_council" council_dir)) as H.
  exact (moved_dir_reads _ _ _ _ _ _ _ H council_dir_reads).
Qed.

Lemma rx_council_in :
  ((rx_input rx_home "sess_council").1.1, cx_read cx_w_final, (rx_input rx_home "sess_council").2) ∈ rx_inputs rx_home.
Proof. rewrite <- rx_council_log. apply rx_parts_in. vm_compute. reflexivity. Qed.

Lemma rx_council_unshared :
  unshared (rx_inputs rx_home) ((rx_input rx_home "sess_council").1.1, cx_read cx_w_final, (rx_input rx_home "sess_council").2).
Proof. apply unshared_spec. vm_compute. reflexivity. Qed.

Lemma votes_projected_exactly_witness :
  let rows := filter (fun p => key_session p.1 = md_id (rx_input rx_home "sess_council").1.1) (ct_votes (pj_council (rx_state rx_home))) in
  len_z (List.filter is_vote (ix_events (cx_read cx_w_final))) = Z.of_nat (size rows).
Proof.
  apply (votes_projected_exactly "sess_council" fx_w0 cx_w_final fx_ix0 (cx_read cx_w_final) rx_home "/home/u/.atn" wx_ru (rx_inputs rx_home)
    (rx_state rx_home) (rx_input rx_home "sess_council").1.1 (rx_input rx_home "sess_council").2).
  - unfold cx_w_final, cx_w_spoken. etrans; apply cx_runs_rtc.
  - apply fx_reads0.
  - apply cx_justified0.
  - apply cx_read_reads. vm_compute. reflexivity.
  - apply counts_small_spec. vm_compute. reflexivity.
  - apply rounds_named_spec. vm_compute. reflexivity.
  - apply rx_state_ok. vm_compute. reflexivity.
  - apply home_inputs_spec. vm_compute. reflexivity.
  - apply rx_council_in.
  - apply rx_council_unshared.
Defined.
