(* ===== verification/Transcript.v ===== *)
(** * Transcripts (storage/transcript.go, storage/summary_turn_accounting.go)

    The text of a session: its log as JSON lines and as Markdown, with the
    summaries of costs, selected runners, prompts, visible surfaces, speeches and
    turns.  A raw cost is known by its value, so its keys are printed in order;
    instants are printed in UTC. *)

From S2P Require Import Prelude GoValue GoTime Model Ids Evidence Events Closeout Lifecycle SelectedRunner PromptEvidence Text Json EventCodec Projection.

(** ** Text *)

Definition lines_text (lines : list string) : string := join "" (map (fun l => l +:+ nl) lines).

Definition code (s : string) : string := "`" +:+ s +:+ "`".

(** [- label: `value`] *)
Definition md_field (label value : string) : string := "- " +:+ label +:+ ": " +:+ code value.

Definition bool_text (b : bool) : string := if b then "true" else "false".

Definition pad_left (width : nat) (s : string) : string :=
  join "" (repeat "0" (width - String.length s)) +:+ s.

(** [%.6f] *)
Definition fixed6 (f : Z * Z) : string :=
  let n := rdiv_even (Z.abs (float_num f.1 f.2) * 1000000) (float_den f.2) in
  (if f.1 <? 0 then "-" else "") +:+ itoa (n / 1000000) +:+ "." +:+ pad_left 6 (itoa (n mod 1000000)).

Fixpoint escapeMarkdownTableCell (value : string) : string :=
  match value with
  | EmptyString => ""
  | String a rest =>
      if is_byte 124 a then bytes [92; 124]%N +:+ escapeMarkdownTableCell rest
      else String a (escapeMarkdownTableCell rest)
  end.

Definition sortedStrings (values : list string) : list string := sort_strings values.

Definition code_list (values : list string) : string := join "`, `" values.

(** The format 2006-01-02T15:04:05Z07:00 in UTC. *)
Definition seconds_text (t : time) : string := time_format (t - t mod second).

(** json.MarshalIndent with two spaces. *)
Fixpoint print_indent (margin : string) (j : json) : string :=
  let inner := margin +:+ "  " in
  let block opening closing items :=
    match items with
    | [] => opening +:+ closing
    | _ => opening +:+ nl +:+ join ("," +:+ nl) (map (fun i => inner +:+ i) items) +:+ nl +:+ margin +:+ closing
    end in
  match j with
  | JArr l => block "[" "]" (map (print_indent inner) l)
  | JObj l => block "{" "}" (map (fun kv => quoted kv.1 +:+ ": " +:+ print_indent inner kv.2) l)
  | _ => print j
  end.

Definition marshalIndentDeterministic (value : any) : string := print_indent "" (to_json value).

(** ** Turns of a summary (summary_turn_accounting.go) *)

Record summaryTurnAccountingRow := mk_turn_row {
  st_turn : Z; st_member : string; st_selected : string; st_speech : string; st_invocation : string; st_message : string;
  st_stage : string; st_visible_index : Z; st_visible_total : Z }.

Definition evidence_kinds : list string :=
  ["discord"; "discord_message"; "discord_thread"; "visible_message"; "visible_surface"; "platform_delivery"].

Definition isExplicitVisibleMessageEvidence (p : payload) : bool :=
  existsb (fun key => match stringValue (p !! key) with
                      | Some value => mem_str (trim_space value) evidence_kinds
                      | None => false
                      end) ["kind"; "target"; "type"; "platform"].

(** The first of the keys that holds a string that is not blank. *)
Fixpoint first_trimmed (p : payload) (keys : list string) : string :=
  match keys with
  | [] => ""
  | key :: rest =>
      let value := trim_space (map_string p key) in
      if value == "" then first_trimmed p rest else value
  end.

Definition explicitVisibleMessageIDFromObject (value : any) : string :=
  match asStringMap value with
  | None => ""
  | Some p =>
      let id := first_trimmed p ["visible_message_id"] in
      if id != "" then id
      else if isExplicitVisibleMessageEvidence p
      then first_trimmed p ["message_id"; "final_message_id"; "discord_message_id"; "thread_message_id"]
      else ""
  end.

Definition first_id (values : list any) : string := firstNonEmptyString (map explicitVisibleMessageIDFromObject values).

Definition explicitVisibleMessageID (value : any) : string :=
  first_id (value :: match value with
                     | AMaps l => map AMap l
                     | AList l => l
                     | _ => []
                     end).

Definition visibleMessageIDFromSummaryPayload (p : payload) : string :=
  firstNonEmptyString
    (map (fun key => match p !! key with Some value => explicitVisibleMessageID value | None => "" end)
       ["plugin_evidence"; "evidence"; "surface_evidence"]).

Definition fill_text (old new : string) : string := if old == "" then new else old.
Definition fill_int (old new : Z) : Z := if old =? 0 then new else old.

(** SpeechVisibleTurnTotalByID: the speeches with an index have the same total. *)
Definition lifecycle_total (lifecycle : CouncilDiscussionLifecycle) (id : string) : Z :=
  match lc_indexes lifecycle !! id with
  | Some _ => lc_expected_visible_turns lifecycle
  | None => 0
  end.

(** What a speech adds to the row of its turn and member. *)
Definition with_turn_speech (lifecycle : CouncilDiscussionLifecycle) (row : summaryTurnAccountingRow) (e : EventEnvelope)
    : summaryTurnAccountingRow :=
  let id := ev_event_id e in
  mk_turn_row (st_turn row) (st_member row) (st_selected row) (fill_text (st_speech row) id)
    (fill_text (st_invocation row) (match ev_runner e with Some r => trim_space (rn_invocation_id r) | None => "" end))
    (fill_text (st_message row) (visibleMessageIDFromSummaryPayload (pl e)))
    (fill_text (st_stage row) (default "" (lc_stages lifecycle !! id)))
    (fill_int (st_visible_index row) (default 0 (lc_indexes lifecycle !! id)))
    (fill_int (st_visible_total row) (lifecycle_total lifecycle id)).

Definition is_row_of (turn : Z) (member : string) (row : summaryTurnAccountingRow) : bool :=
  (st_turn row =? turn) && (st_member row == member).

Definition selected_turn_member (e : EventEnvelope) : string :=
  let member := selectedRunnerMember e in
  if member == "" then match ev_to e with to :: _ => trim_space to | [] => "" end else member.

Definition summary_turn_step (lifecycle : CouncilDiscussionLifecycle) (rows : list summaryTurnAccountingRow) (e : EventEnvelope)
    : list summaryTurnAccountingRow :=
  match payloadInt (pl e) "turn" with
  | None => rows
  | Some turn =>
      if ev_type e == "speaker_selected" then
        let member := selected_turn_member e in
        if (member == "") || existsb (is_row_of turn member) rows then rows
        else rows ++ [mk_turn_row turn member (ev_event_id e) "" "" "" "" 0 0]
      else if ev_type e == "speech" then
        let member := trim_space (ev_from e) in
        if member == "" then rows
        else map (fun row => if is_row_of turn member row then with_turn_speech lifecycle row e else row) rows
      else rows
  end.

Definition summaryTurnAccountingRows (md : SessionMetadata) (ix : LogIndex) : list summaryTurnAccountingRow :=
  foldl (summary_turn_step (councilDiscussionLifecycle md ix)) [] (ix_events ix).

(** ** Visible surfaces *)

Record surfaceProjectionRow := mk_surface_row {
  sp_event_id : string; sp_event_type : string; sp_target : string; sp_status : string; sp_evidence : string }.

(** The status of a delivery with its text. *)
Definition delivery_evidence (value : any) : string * string :=
  match asStringMap value with
  | None => ("missing/unproven", "")
  | Some p => (deliveryEvidenceStatus p, if bool_decide (p = ∅) then "" else mustCompactJSON (AMap p))
  end.

Definition speech_surface_row (selected : gmap Z string) (e : EventEnvelope) : surfaceProjectionRow :=
  let turn := payloadInt (pl e) "turn" in
  let member := match turn with Some t => default "" (selected !! t) | None => "" end in
  let text := match turn with Some t => itoa t | None => "unknown" end in
  let granted := match turn with Some _ => member == ev_from e | None => false end in
  mk_surface_row (ev_event_id e) (ev_type e) "speech"
    (if granted then "renderable" else "floor_grant_missing_or_mismatched")
    ("turn=" +:+ text +:+ " selected=" +:+ member +:+ " speaker=" +:+ ev_from e).

Definition closeout_surface_rows (e : EventEnvelope) : list surfaceProjectionRow :=
  let visible := visibleCloseoutSurfaceStatus (default ANil (pl e !! "surface_evidence")) in
  let closeout := closeoutProjectionStatus (pl e) visible.1 visible.2 in
  mk_surface_row (ev_event_id e) (ev_type e) "visible_surface" closeout.1 closeout.2 ::
  match pl e !! "linked_authority_result" with
  | Some value =>
      let linked := delivery_evidence value in
      [mk_surface_row (ev_event_id e) (ev_type e) "linked_authority" linked.1 linked.2]
  | None => []
  end.

(** The members selected so far, by turn, and the rows. *)
Definition surface_step (acc : gmap Z string * list surfaceProjectionRow) (e : EventEnvelope)
    : gmap Z string * list surfaceProjectionRow :=
  let '(selected, rows) := acc in
  if ev_type e == "speaker_selected" then
    match payloadInt (pl e) "turn", ev_to e with
    | Some turn, to :: _ => (<[turn := to]> selected, rows)
    | _, _ => acc
    end
  else if ev_type e == "speech" then (selected, rows ++ [speech_surface_row selected e])
  else if mem_str (ev_type e) ["council_finalized"; "council_unresolved"; "session_cancelled"] then
    (selected, rows ++ closeout_surface_rows e)
  else acc.

Definition visibleSurfaceProjectionRows (events : list EventEnvelope) : list surfaceProjectionRow :=
  (foldl surface_step (∅, []) events).2.

(** ** Costs *)

Record CostSummary := mk_cost_summary {
  cs_tokens_in : Z; cs_tokens_out : Z; cs_usd : Z * Z; cs_runner_calls : Z; cs_missing : Z }.

Definition no_cost_summary : CostSummary := mk_cost_summary 0 0 (0, 0) 0 0.

Definition with_parsed_cost (s : CostSummary) (cost : parsedCost) : CostSummary :=
  if pc_null cost then mk_cost_summary (cs_tokens_in s) (cs_tokens_out s) (cs_usd s) (cs_runner_calls s) (cs_missing s + 1)
  else
    mk_cost_summary (match pc_tokens_in cost with Some n => wrap64 (cs_tokens_in s + n) | None => cs_tokens_in s end)
      (match pc_tokens_out cost with Some n => wrap64 (cs_tokens_out s + n) | None => cs_tokens_out s end)
      (match pc_usd cost with Some f => float_add (cs_usd s) f | None => cs_usd s end) (cs_runner_calls s) (cs_missing s).

Definition transcript_cost_step (acc : gset string * CostSummary) (e : EventEnvelope) : gset string * CostSummary :=
  let '(seen, s) := acc in
  match ev_runner e with
  | None => acc
  | Some r =>
      let id := rn_invocation_id r in
      if ev_type e == "runner_invocation_started" then
        (seen, mk_cost_summary (cs_tokens_in s) (cs_tokens_out s) (cs_usd s) (cs_runner_calls s + 1) (cs_missing s))
      else if (id != "") && bool_decide (id ∈ seen) then acc
      else (if id == "" then seen else {[id]} ∪ seen, with_parsed_cost s (parseCost (ev_cost e)))
  end.

(** [stored] is the summary of the metadata, which stands for an empty log. *)
Definition transcriptCostSummary (stored : CostSummary) (events : list EventEnvelope) : CostSummary :=
  match events with
  | [] => stored
  | _ => (foldl transcript_cost_step (∅, no_cost_summary) events).2
  end.

(** ** JSON lines *)

(** [nil_to] says of each event whether its empty recipient list is a nil slice. *)
Definition renderTranscriptJSONL (nil_to : EventEnvelope -> bool) (events : list EventEnvelope) : string :=
  join "" (map (fun e => event_line (nil_to e) e) events).

(** ** Markdown *)

Definition cost_section (cost : CostSummary) : list string :=
  ["## Runner And Cost Summary";
   md_field "runner_calls_total" (itoa (cs_runner_calls cost));
   md_field "usd_estimate_total" (fixed6 (cs_usd cost));
   md_field "missing_cost_runner_calls_total" (itoa (cs_missing cost)); ""].

Definition table_row (cells : list string) : string := "| " +:+ join " | " (map code cells) +:+ " |".

Definition grant_table_row (g : SelectedRunnerGrantAccounting) : string :=
  table_row [ga_selected g; ga_member g; itoa (ga_turn g); ga_status g; ga_runner_status g; ga_speech_status g;
             code_list (ga_succeeded g); code_list (ga_speeches g); code_list (ga_failures g ++ ga_discards g);
             code_list (ga_dispatch g)].

Definition labelled (label value : string) : string := if value == "" then "" else " " +:+ label +:+ "=" +:+ code value.

Definition diagnostic_line (d : SelectedRunnerDiagnostic) : string :=
  "  - " +:+ code (dg_code d) +:+ labelled "event" (dg_event d) +:+ labelled "selected" (dg_selected d) +:+
  labelled "invocation" (dg_invocation d).

Definition when {A} (b : bool) (l : list A) : list A := if b then l else [].

Definition renderSelectedRunnerAccountingSummary (a : SelectedRunnerAccounting) : list string :=
  let c := sa_counts a in
  if (ct_selected c =? 0) && (ct_started c =? 0) && (ct_runnerless c =? 0) then []
  else
    ["## Selected Runner Accounting"; "";
     md_field "selected_runner_pass" (bool_text (sa_pass a));
     md_field "selected_speaker_count" (itoa (ct_selected c));
     md_field "runner_started_count" (itoa (ct_started c));
     md_field "runner_succeeded_count" (itoa (ct_succeeded c));
     md_field "runner_failed_count" (itoa (ct_failed c));
     md_field "terminal_discard_count" (itoa (ct_discards c));
     md_field "dispatch_failure_count" (itoa (ct_dispatch c));
     md_field "linked_runner_speech_count" (itoa (SelectedRunner.ct_linked c));
     md_field "runnerless_speech_count" (itoa (ct_runnerless c));
     md_field "manual_or_fallback_speech_count" (itoa (ct_manual c))] ++
    match sa_runners a with
    | [] => []
    | runners =>
       [""; "### Selected Runner Evidence Table"; "";
        "| selected_event_id | member | turn | status | runner_status | speech_link_status | runner_succeeded_event_ids | linked_runner_speech_event_ids | terminal_event_ids | dispatch_failure_event_ids |";
        "| --- | --- | ---: | --- | --- | --- | --- | --- | --- | --- |"] ++ map grant_table_row runners
    end ++
    match sa_diagnostics a with
    | [] => []
    | diagnostics => "- diagnostics:" :: map diagnostic_line diagnostics
    end ++
    [""].

(** A line for a text or a list that is not empty. *)
Definition text_field (label value : string) : list string := when (value != "") [md_field label value].

Definition ids_field (label : string) (ids : list string) : list string :=
  when (negb (bool_decide (ids = []))) [md_field label (mustCompactJSON (AStrs ids))].

Definition renderSelectedRunnerPromptEvidenceSummary (o : option SelectedRunnerPromptEvidence) : list string :=
  match o with
  | None => []
  | Some e =>
      ["## Selected Runner Prompt Evidence"; "";
       md_field "result" (pe_result e);
       md_field "speaker_selected_event_id" (pe_selected_event e);
       md_field "selected_member" (pe_member e);
       md_field "turn" (itoa (pe_turn e))] ++
      text_field "causation_event_id" (pe_causation e) ++
      text_field "prompt_context_sha256" (pe_sha256 e) ++
      ids_field "included_context" (pe_included e) ++
      ids_field "missing_required_context" (pe_missing e) ++
      ids_field "agenda_source_event_ids" (pe_agenda e) ++
      ids_field "prior_context_source_event_ids" (pe_prior e) ++
      ids_field "own_history_source_event_ids" (pe_own_history e) ++
      ids_field "own_latest_claim_source_event_ids" (pe_own_latest e) ++
      ids_field "own_claim_index_source_event_ids" (pe_own_index e) ++
      text_field "participant_runtime_mode" (pe_mode e) ++
      text_field "hot_prompt_strategy" (pe_strategy e) ++
      ids_field "delta_source_event_ids" (pe_delta e) ++
      ids_field "rehydrate_source_event_ids" (pe_rehydrate e) ++
      text_field "rehydrate_validation_status" (pe_rehydrate_status e) ++
      ids_field "rehydrate_validation_failures" (pe_rehydrate_failures e) ++
      [md_field "stateless_fallback" (bool_text (pe_fallback e))] ++
      text_field "stateless_fallback_status" (pe_fallback_status e) ++
      text_field "full_history_hot_prompt_status" (pe_full_history e) ++
      text_field "own_history_hot_prompt_status" (pe_own_history_status e) ++
      text_field "runtime_block_status" (pe_block_status e) ++
      text_field "runtime_block_reason" (pe_block_reason e) ++
      when (negb (is_blank (pe_excerpt e))) [md_field "redacted_prompt_excerpt" (escapeMarkdownTableCell (pe_excerpt e))] ++
      [""]
  end.

Definition surface_table_row (row : surfaceProjectionRow) : string :=
  table_row [sp_event_id row; sp_event_type row; sp_target row; sp_status row; escapeMarkdownTableCell (sp_evidence row)].

Definition renderVisibleSurfaceProjectionSummary (events : list EventEnvelope) : list string :=
  match visibleSurfaceProjectionRows events with
  | [] => []
  | rows =>
      ["## Visible Surface Projection Summary"; ""; "| event_id | type | target | status | evidence |";
       "| --- | --- | --- | --- | --- |"] ++ map surface_table_row rows ++ [""]
  end.

(** A column of JSON decoded into maps; null and a text that does not decode give
    none.  A null element is a nil map. *)
Fixpoint decoded_maps (l : list json) : option (list payload) :=
  match l with
  | [] => Some []
  | j :: rest =>
      match j, value_of j, decoded_maps rest with
      | JNull, _, Some ms => Some (∅ :: ms)
      | _, Some (AMap m), Some ms => Some (m :: ms)
      | _, _, _ => None
      end
  end.

Definition decodeCompactJSON (text : string) : list payload :=
  match parse text with
  | Some (JArr l) => default [] (decoded_maps l)
  | _ => []
  end.

Definition trimmed (p : payload) (key : string) : string := trim_space (anyString p [key]).

Definition renderArgumentGraphClaims (claims : string) : list string :=
  omap (fun claim =>
    let id := trimmed claim "claim_id" in
    let summary := trimmed claim "summary" in
    if (id == "") && (summary == "") then None
    else Some ("- claim " +:+ code id +:+ ": " +:+ escapeMarkdownTableCell summary)) (decodeCompactJSON claims).

Definition stance_link_line (link : payload) : string :=
  let claim := trimmed link "target_claim_id" in
  let rationale := trimmed link "rationale" in
  let target := trimmed link "target_event_id" +:+ (if claim == "" then "" else "/" +:+ claim) in
  "- link " +:+ code (trimmed link "stance") +:+ " -> " +:+ code target +:+
  (if rationale == "" then "" else ": " +:+ escapeMarkdownTableCell rationale).

Definition renderArgumentGraphStanceLinks (links : string) : list string :=
  map stance_link_line (decodeCompactJSON links).

Definition renderArgumentGraphJSONField (label value : string) : list string :=
  if (value == "") || (value == "null") then [] else [md_field label (escapeMarkdownTableCell value)].

Definition graph_section (row : argumentGraphProjectionRow) : list string :=
  ["### " +:+ code (ag_event_id row) +:+ " T" +:+ itoa (ag_turn row) +:+ " " +:+ code (ag_speaker row) +:+
     (if ag_contribution_type row == "" then "" else " -- " +:+ code (ag_contribution_type row)); "";
   md_field "status" (ag_status row)] ++
  text_field "diagnostic" (ag_diagnostic row) ++
  when (ag_new_axis_reason row != "") ["- new_axis_reason: " +:+ escapeMarkdownTableCell (ag_new_axis_reason row)] ++
  renderArgumentGraphClaims (ag_claims row) ++
  renderArgumentGraphStanceLinks (ag_stance_links row) ++
  renderArgumentGraphJSONField "evidence" (ag_evidence row) ++
  renderArgumentGraphJSONField "quality_diagnostics" (ag_quality_diagnostics row) ++
  renderArgumentGraphJSONField "relation_audit" (ag_relation_audit row) ++ [""].

Definition renderArgumentGraphProjectionSummary (events : list EventEnvelope) : list string :=
  match argumentGraphProjectionRows 0 events with
  | [] => []
  | rows => ["## Argument Graph Projection Summary"; ""] ++ List.concat (map graph_section rows)
  end.

Definition shown_keys : list string :=
  ["surface"; "linked_authority"; "linked_authority_result"; "closeout_diagnostics"; "attendance"; "agenda"; "blocker"; "blockers";
   "recipients"; "review"; "verdict"].

Definition event_section (i : nat) (e : EventEnvelope) : list string :=
  [""; "### " +:+ pad_left 3 (itoa (Z.of_nat i)) +:+ " " +:+ code (ev_event_id e); "";
   md_field "type" (ev_type e);
   md_field "created_at" (seconds_text (ev_created_at e));
   md_field "phase" (ev_phase e);
   md_field "from" (ev_from e);
   md_field "to" (code_list (sortedStrings (ev_to e)))] ++
  text_field "command_id" (ev_command_id e) ++
  match ev_runner e with
  | Some r => [md_field "runner" (mustCompactJSON (runner_json r))]
  | None => []
  end ++
  match ev_cost e with
  | Some c => [md_field "cost" (json_text c)]
  | None => []
  end ++
  omap (fun key => (fun value => md_field key (mustCompactJSON value)) <$> pl e !! key) shown_keys ++
  [""; "```json"; trim_space (marshalIndentDeterministic (match ev_payload e with Some p => AMap p | None => ANil end)); "```"].

Definition renderTranscriptMarkdown (md : SessionMetadata) (stored : CostSummary) (events : list EventEnvelope) : string :=
  let ix := mk_index events ∅ in
  lines_text
    (["# " +:+ md_title md; "";
      md_field "session_id" (md_id md);
      md_field "session_type" (md_session_type md);
      md_field "status" (md_status md);
      md_field "phase" (st_phase (md_state md));
      md_field "moderator" (md_moderator md);
      md_field "participants" (code_list (sortedStrings (md_participants md)))] ++
     match md_surface md with
     | Some s => [md_field "surface" (mustCompactJSON (surface_json s))]
     | None => []
     end ++
     match md_linked_authority md with
     | Some l => [md_field "linked_authority" (mustCompactJSON (linked_authority_json l))]
     | None => []
     end ++
     [md_field "registry_snapshot_sha256" (sn_source_sha256 (md_registry_snapshot md)); ""] ++
     cost_section (transcriptCostSummary stored events) ++
     renderSelectedRunnerAccountingSummary (SelectedRunnerAccountingFromIndex md ix) ++
     renderSelectedRunnerPromptEvidenceSummary (LatestSelectedRunnerPromptEvidenceFromIndex ix) ++
     renderVisibleSurfaceProjectionSummary events ++
     renderArgumentGraphProjectionSummary events ++
     ["## Events"] ++ List.concat (imap event_section events)).

Definition renderBrief (md : SessionMetadata) : string :=
  lines_text ["# Brief: " +:+ md_title md; "";
              md_field "session_id" (md_id md);
              md_field "status" (md_status md);
              md_field "phase" (st_phase (md_state md));
              md_field "registry_snapshot_sha256" (sn_source_sha256 (md_registry_snapshot md))].

Definition TranscriptMarkdownFormat : string := "md".
Definition TranscriptJSONLFormat : string := "jsonl".

(** [md] as it was given or loaded. *)
Definition RenderTranscript (sd : session_dir) (md : SessionMetadata) (stored : CostSummary) (nil_to : EventEnvelope -> bool)
    (format : string) : result error string :=
  try ix := ReadLogIndex sd md in
  if format == TranscriptMarkdownFormat then Ok (renderTranscriptMarkdown md stored (ix_events ix))
  else if format == TranscriptJSONLFormat then Ok (renderTranscriptJSONL nil_to (ix_events ix))
  else Err (NewValidationError CategoryInvalidEnvelope "format" "transcript format must be md or jsonl").
