(* ===== verification/TranscriptTheory.v ===== *)
(** * Laws of the transcripts

    The costs a transcript reports are those of the projection; an exported log
    reads back as the log; the speeches of a council are renderable as long as no
    turn was granted twice; the rows of a summary are the turns of the log. *)

From S2P Require Import Prelude Paths GoValue GoTime Model Ids Registry RegistryTheory Evidence Events EventLog Command Session Fixtures Council CouncilTheory Closeout Lifecycle SelectedRunner PromptEvidence Text Json JsonTheory EventCodec EventCodecTheory Projection Replay ReplayTheory ReplayFixtures ReplayLocal ReplayRows Transcript.

(** ** Costs *)

Definition as_costs (s : CostSummary) : costProjection :=
  mk_costs (cs_tokens_in s) (cs_tokens_out s) (cs_usd s) (cs_runner_calls s) (cs_missing s).

(** Every runner of the log names its invocation itself, not in the payload. *)
Definition runners_named (l : list EventEnvelope) : Prop :=
  forall e r, e ∈ l -> ev_runner e = Some r -> rn_invocation_id r <> "".

Lemma as_costs_parsed s cost : as_costs (with_parsed_cost s cost) = add_cost (as_costs s) cost.
Proof. unfold with_parsed_cost, add_cost. by destruct (pc_null cost). Qed.

Lemma costs_spec_unique l c c' : costs_spec l c -> costs_spec l c' -> c = c'.
Proof. destruct c, c'. unfold costs_spec. cbn. intros (-> & -> & -> & -> & ->) (-> & -> & -> & -> & ->). done. Qed.

Lemma transcript_costs_spec l :
  runners_named l ->
  let acc := foldl transcript_cost_step (∅, no_cost_summary) l in acc.1 = seen l /\ costs_spec l (as_costs acc.2).
Proof.
  induction l as [|e l IH] using rev_ind; [done|]. intros Hn.
  assert (Hn' : runners_named l) by (intros f r Hf; apply Hn; set_solver).
  specialize (IH Hn'). rewrite foldl_snoc. destruct (foldl transcript_cost_step _ l) as [sn s]. cbn [fst snd] in IH.
  destruct IH as [-> Hs]. pose proof (billing_snoc l e) as Hb. unfold transcript_cost_step.
  destruct (ev_runner e) as [r|] eqn:Hr.
  2: { assert (Hnone : named_invocation e = None) by (unfold named_invocation; by rewrite Hr).
       rewrite Hnone in Hb. injection Hb as -> Hbilled. split; [done|]. unfold costs_spec in *.
       rewrite Hbilled, count_of_snoc. unfold counts_call. by rewrite Hnone, Z.add_0_r. }
  assert (Hid : named_invocation e = Some (rn_invocation_id r)).
  { unfold named_invocation, invocation_of. rewrite Hr. specialize (Hn e r ltac:(set_solver) Hr).
    destruct (String.eqb_spec (rn_invocation_id r) ""); [done|]. by destruct (String.eqb_spec (rn_invocation_id r) ""). }
  pose proof (Hn e r ltac:(set_solver) Hr) as Hne. rewrite Hid in Hb. unfold is_start in Hb.
  destruct (ev_type e == "runner_invocation_started") eqn:Hst.
  { cbn [orb] in Hb. injection Hb as -> Hbilled. cbn [fst snd]. split; [done|]. unfold costs_spec in *.
    rewrite Hbilled, count_of_snoc. unfold counts_call, is_start. rewrite Hid, Hst. cbn.
    destruct Hs as (Hc & Hs). cbn in *. rewrite Hc. done. }
  destruct (String.eqb_spec (rn_invocation_id r) "") as [|_]; [done|]. cbn [negb andb orb] in *.
  destruct (bool_decide_reflect (rn_invocation_id r ∈ seen l)) as [Hin|Hin]; injection Hb as Hseen Hbilled; cbn [fst snd].
  - rewrite Hseen. split; [done|]. unfold costs_spec in *. rewrite Hbilled, count_of_snoc. unfold counts_call, is_start.
    by rewrite Hid, Hst, Z.add_0_r.
  - rewrite Hseen. split; [done|]. rewrite as_costs_parsed. apply (add_cost_spec l e); [done|by rewrite Hid|done|done].
Qed.

(** C20. The transcript and the projection of a session agree on what it cost: if
    no invocation is started twice and every runner names its invocation, the
    cost summary of the transcript is the cost columns of the session's row in
    the replay of the data home. *)
Theorem transcript_costs_agree h dataHome ru l st md ix snapshot stored
    (Hst : ReplayProjectionState h dataHome ru = Ok st) (Hl : home_inputs h dataHome ru l) (Hi : (md, ix, snapshot) ∈ l)
    (Hun : unshared l (md, ix, snapshot)) (Hfresh : fresh_starts (ix_events ix)) (Hnamed : runners_named (ix_events ix))
    (Hsome : ix_events ix <> []) :
  exists r, pj_sessions st !! md_id md = Some r /\ sr_costs r = as_costs (transcriptCostSummary stored (ix_events ix)).
Proof.
  destruct (replay_local _ _ _ _ _ _ Hst Hl Hi Hun) as ((Hs & _) & _).
  pose proof (home_inputs_ok _ _ _ _ Hl) as [_ Hall]. rewrite Forall_forall in Hall. destruct (Hall _ Hi) as [Hok _].
  destruct (project_row md ix snapshot Hok) as (r & Hr & _ & Hc). exists r. split.
  - change (md_id md) with (sid_of (md, ix, snapshot)) at 1. by rewrite Hs.
  - apply (costs_spec_unique (ix_events ix)); [by apply Hc|]. unfold transcriptCostSummary.
    destruct (ix_events ix) as [|e es] eqn:He; [done|]. rewrite <- He in *. by apply transcript_costs_spec.
Qed.

(** ** JSON lines *)

Lemma norm_event_idemp e : norm_event (norm_event e) = norm_event e.
Proof.
  unfold norm_event. cbn. f_equal.
  - destruct (ev_cost e); [|done]. cbn. by rewrite json_norm_idemp.
  - destruct (ev_payload e) as [p|]; [|done]. cbn. f_equal. rewrite <- map_fmap_compose. apply map_fmap_ext.
    intros k v _. apply json_norm_idemp.
Qed.

Lemma join_empty_snoc l x : join "" (l ++ [x]) = join "" l +:+ x.
Proof.
  induction l as [|y l IH]; [done|]. cbn [app join]. destruct l as [|z l].
  - done.
  - cbn [app] in *. rewrite IH. by rewrite !str_app_assoc.
Qed.

Lemma read_lines_shape md path i l ix ix' :
  read_lines md path i l ix = Ok ix' -> l = map (LineEvent false) (line_events l).
Proof.
  revert i ix. induction l as [|[|m|s e] l IH]; intros i ix H; simpl in H; try done.
  run_inv H. apply IH in H. simpl. destruct s; [done|]. by f_equal.
Qed.

(** The channel that the lines of some events stand for. *)
Lemma channel_of_events dm (nil_to : EventEnvelope -> bool) l :
  (forall e, e ∈ l -> writable (nil_to e) e) ->
  channel_of dm NRegular (renderTranscriptJSONL nil_to l) = mk_channel NRegular (map (LineEvent false) (map norm_event l)) false.
Proof.
  unfold renderTranscriptJSONL. induction l as [|e l IH] using rev_ind; intros Hw; [done|].
  rewrite !map_app. cbn [map]. rewrite join_empty_snoc.
  change (event_line (nil_to e) e) with (json_text (event_value (nil_to e) e) +:+ nl).
  assert (He : writable (nil_to e) e) by (apply Hw; set_solver).
  assert (IH' := IH ltac:(intros f Hf; apply Hw; set_solver)). clear IH.
  rewrite channel_of_line; [|by apply event_line_no_nl|by rewrite IH'].
  by rewrite IH', decode_event_line by done.
Qed.

(** C4. A transcript in JSON lines is a log again: for a log that reads, the
    transcript renders, and reading its bytes as the bytes of channel.jsonl gives
    the same index, when the events are as a log has them. *)
Theorem transcript_reads_back dm (sd : session_dir) (md : SessionMetadata) (stored : CostSummary) (nil_to : EventEnvelope -> bool)
    (ix : LogIndex) (Hix : ReadLogIndex sd md = Ok ix)
    (Hw : forall e, e ∈ ix_events ix -> writable (nil_to e) e /\ norm_event e = e) :
  exists text, RenderTranscript sd md stored nil_to "jsonl" = Ok text /\
    ReadLogContent dm (channel_path sd) md text = Ok ix.
Proof.
  exists (renderTranscriptJSONL nil_to (ix_events ix)). unfold RenderTranscript. rewrite Hix. split; [done|].
  unfold ReadLogIndex in Hix. destruct (safeSessionDirForAppend sd) as [[]|] eqn:Hsafe; [|done]. cbn [mbind result_bind] in Hix.
  rewrite <- read_log_content by done. rewrite channel_of_events by (intros e He; by apply Hw).
  replace (map norm_event (ix_events ix)) with (ix_events ix).
  2: { symmetry. rewrite <- (List.map_id (ix_events ix)) at 2. apply map_ext_in. intros e He. apply Hw. by apply list_elem_of_In. }
  unfold ReadLogIndex. replace (safeSessionDirForAppend (set_channel sd _)) with (@Ok error unit tt) by done.
  cbn [set_channel sd_channel ch_kind ch_partial ch_lines mbind result_bind].
  destruct (sd_channel sd) as [c|]; [|by injection Hix as <-]. destruct (ch_kind c); [|done..].
  destruct (ch_partial c); [done|]. cbn in Hix. pose proof (read_lines_shape _ _ _ _ _ _ Hix) as Hl.
  apply read_lines_events in Hix as Hev. destruct Hev as (Hev & _). cbn in Hev. rewrite Hev, <- Hl. done.
Qed.

(** ** Witnesses *)

Definition runners_named_b (l : list EventEnvelope) : bool :=
  forallb (fun e => match ev_runner e with Some r => rn_invocation_id r != "" | None => true end) l.

Lemma runners_named_spec l : runners_named_b l = true -> runners_named l.
Proof.
  intros H e r He Hr. unfold runners_named_b in H. rewrite forallb_forall in H.
  specialize (H e ltac:(by apply list_elem_of_In)). rewrite Hr in H. by apply negb_true_iff, String.eqb_neq in H.
Qed.

Lemma transcript_costs_agree_witness :
  let i := rx_input rx_costs "sess_deleg" in
  exists r, pj_sessions (rx_state rx_costs) !! md_id i.1.1 = Some r /\
    sr_costs r = as_costs (transcriptCostSummary no_cost_summary (ix_events i.1.2)).
Proof.
  apply (transcript_costs_agree rx_costs "/home/u/.atn" wx_ru (rx_inputs rx_costs) (rx_state rx_costs)
    (rx_input rx_costs "sess_deleg").1.1 (rx_input rx_costs "sess_deleg").1.2 (rx_input rx_costs "sess_deleg").2).
  - apply rx_state_ok. vm_compute. reflexivity.
  - apply home_inputs_spec. vm_compute. reflexivity.
  - apply rx_parts_in. vm_compute. reflexivity.
  - apply unshared_spec. vm_compute. reflexivity.
  - apply fresh_starts_spec. vm_compute. reflexivity.
  - apply runners_named_spec. vm_compute. reflexivity.
  - intros H. assert (Hne : negb (bool_decide (length (ix_events (rx_input rx_costs "sess_deleg").1.2) = 0%nat)) = true)
      by (vm_compute; reflexivity). rewrite H in Hne. by vm_compute in Hne.
Defined.

(** Decides [readable]. *)
Fixpoint readable_b (a : any) : bool :=
  let all (m : payload) := map_fold (fun _ v acc => readable_b v && acc) true m in
  match a with
  | AInt z => (int_min <=? z) && (z <=? int_max)
  | AFloat m e => float_reads m e
  | AList l => forallb readable_b l
  | AMap m => all m
  | AMaps l => forallb all l
  | AStruct fs => bool_decide (NoDup fs.*1) && forallb (fun kv => readable_b kv.2) fs
  | _ => true
  end.

Lemma all_entries (f : any -> bool) (m : payload) k v :
  map_fold (fun _ v acc => f v && acc) true m = true -> m !! k = Some v -> f v = true.
Proof.
  intros H. revert H k v. apply (map_fold_weak_ind (fun r m => r = true -> forall k v, m !! k = Some v -> f v = true)); [done|].
  intros k v m' r _ IH [Hv Hr]%andb_true_iff k' v' [[_ <-]|[_ Hl]]%lookup_insert_Some; [done|by eapply IH].
Qed.

Lemma readable_spec a : readable_b a = true -> readable a.
Proof.
  induction a as [a IH] using any_rect_prop. destruct a as [|b|z|m e|s|l|l|m|l|fs]; cbn; intros H; constructor.
  - unfold in_int. lia.
  - done.
  - intros x Hx. apply IH; [done|]. rewrite forallb_forall in H. by apply H, list_elem_of_In.
  - intros k v Hv. apply (IH k v Hv). by eapply all_entries.
  - intros m k v Hm Hv. apply (IH m k v Hm Hv). rewrite forallb_forall in H. eapply all_entries; [|exact Hv].
    by apply H, list_elem_of_In.
  - apply andb_true_iff in H as [H _]. by apply bool_decide_eq_true in H.
  - intros k v Hv. apply (IH k v Hv). apply andb_true_iff in H as [_ H]. rewrite forallb_forall in H.
    apply (H (k, v)). by apply list_elem_of_In.
Qed.

Definition writable_b (nil_to : bool) (e : EventEnvelope) : bool :=
  readable_b (AInt (ev_schema_version e)) && from_option (fun t => readable_b (AInt t)) true (ev_turn e) &&
  time_json_ok (ev_created_at e) &&
  from_option (fun r => readable_b (AInt (rn_attempt r)) &&
                        from_option (fun d : Z * Z => float_reads d.1 d.2) true (rn_duration_sec r)) true (ev_runner e) &&
  from_option readable_b true (ev_cost e) && from_option (fun p => readable_b (AMap p)) true (ev_payload e) &&
  (json_depth (to_json (event_value nil_to e)) <=? max_depth)%nat.

Lemma writable_spec nil_to e : writable_b nil_to e = true -> writable nil_to e.
Proof.
  unfold writable_b. intros H. 
  repeat match type of H with (_ && _) = true => apply andb_true_iff in H as [H ?Hpart] end.
  assert (Hint : forall z, readable_b (AInt z) = true -> in_int z) by (intros z Hz; cbn in Hz; unfold in_int; lia).
  split; try done.
  - by apply Hint.
  - intros t Ht. rewrite Ht in *. by apply Hint.
  - intros r Hr. rewrite Hr in *. match goal with X : from_option _ _ (Some r) = true |- _ => apply andb_true_iff in X as [X _]; by apply Hint end.
  - intros r m x Hr Hd. rewrite Hr in *.
    match goal with X : from_option _ _ (Some r) = true |- _ => apply andb_true_iff in X as [_ X]; by rewrite Hd in X end.
  - intros c Hc. rewrite Hc in *. by apply readable_spec.
  - intros p Hp. rewrite Hp in *. by apply readable_spec.
  - by apply Nat.leb_le.
Qed.

(** A log of a council with an event that carries a runner, a cost and nested
    objects. *)
Definition tx_event : EventEnvelope :=
  mk_event 1 "evt_2" "cmd_2" "" "corr" "sess_council" "council" (Some 3) "discussion" "speech" "ann" ["bob"] fx_later
    (Some (mk_runner "inv_1" "hermes-agent" "ann" 1 false "" "succeeded" (Some (5, 0))))
    (Some (AMap {[ "tokens_in" := AInt 12; "source" := AStr "hermes-agent-stderr-parse" ]}))
    (Some {[ "speech" := AStr ("one" +:+ nl +:+ "two"); "claims" := AMaps [{[ "turn" := AInt 3; "new" := ABool true ]}] ]}).

Definition tx_log : list EventEnvelope := [norm_event (fx_created fx_council_md); norm_event tx_event].
Definition tx_dir : session_dir := fx_dir fx_council_md tx_log.
Definition tx_index : LogIndex := match ReadLogIndex tx_dir fx_council_md with Ok ix => ix | Err _ => empty_index end.

Lemma tx_reads : ReadLogIndex tx_dir fx_council_md = Ok tx_index.
Proof.
  assert (H : is_ok (ReadLogIndex tx_dir fx_council_md) = true) by (vm_compute; reflexivity).
  unfold tx_index. by destruct (ReadLogIndex tx_dir fx_council_md).
Qed.

Lemma tx_events : ix_events tx_index = tx_log.
Proof.
  pose proof tx_reads as H. unfold ReadLogIndex in H. run_inv H. apply read_lines_events in H as (H & _).
  injection Hcase as <-. exact H.
Qed.

Lemma transcript_reads_back_witness :
  exists text, RenderTranscript tx_dir fx_council_md no_cost_summary (fun _ => false) "jsonl" = Ok text /\
    ReadLogContent (fun _ => "invalid JSON") (channel_path tx_dir) fx_council_md text = Ok tx_index.
Proof.
  apply (transcript_reads_back (fun _ => "invalid JSON") tx_dir fx_council_md no_cost_summary (fun _ => false) tx_index tx_reads).
  intros e He. rewrite tx_events in He. apply elem_of_cons in He as [->|He]; [|apply list_elem_of_singleton in He as ->]; split.
  - apply writable_spec. vm_compute. reflexivity.
  - apply norm_event_idemp.
  - apply writable_spec. vm_compute. reflexivity.
  - apply norm_event_idemp.
Defined.
