(* ===== verification/SpeechRows.v ===== *)
(** * The speeches of a transcript

    Over any run of council commands, what the transcript of a council says of
    its speeches: each is renderable, unless its turn was granted to two members,
    when the transcript disowns speeches that the council accepted. *)

From S2P Require Import Prelude GoValue GoTime Model Ids Evidence Events EventLog Command Fixtures Council CouncilTheory Closeout Transcript.

(** No turn was granted to two members. *)
Definition granted_once (l : list EventEnvelope) : Prop :=
  forall g g' turn, g ∈ l -> g' ∈ l -> ev_type g = "speaker_selected" -> ev_type g' = "speaker_selected" ->
    ev_turn g = Some turn -> ev_turn g' = Some turn -> ev_to g = ev_to g'.

(** A grant that the scan of the transcript uses. *)
Definition scanned_grant (l : list EventEnvelope) (turn : Z) (member : string) : Prop :=
  exists g to, g ∈ l /\ ev_type g = "speaker_selected" /\ payloadInt (pl g) "turn" = Some turn /\ ev_to g = member :: to.

Lemma scanned_app l e turn member : scanned_grant l turn member -> scanned_grant (l ++ [e]) turn member.
Proof. intros (g & to & Hg & H). exists g, to. split; [set_solver|done]. Qed.

Lemma selected_scanned l :
  let selected := (foldl surface_step (∅, []) l).1 in
  (forall turn member, selected !! turn = Some member -> scanned_grant l turn member) /\
  (forall turn member, scanned_grant l turn member -> is_Some (selected !! turn)).
Proof.
  induction l as [|e l IH] using rev_ind; cbn zeta.
  { split; [done|]. intros turn member (g & to & Hg & _). by apply elem_of_nil in Hg. }
  rewrite foldl_snoc. destruct (foldl surface_step _ l) as [selected rows]. cbn [fst] in *. destruct IH as [IH1 IH2].
  assert (Hsplit : forall turn member, scanned_grant (l ++ [e]) turn member -> scanned_grant l turn member \/ scanned_grant [e] turn member).
  { intros turn member (g & to & Hg & H). apply elem_of_app in Hg as [Hg|Hg]; [left|right]; by exists g, to. }
  assert (Hsame : ev_type e <> "speaker_selected" \/ payloadInt (pl e) "turn" = None \/ ev_to e = [] ->
    (forall turn member, selected !! turn = Some member -> scanned_grant (l ++ [e]) turn member) /\
    (forall turn member, scanned_grant (l ++ [e]) turn member -> is_Some (selected !! turn))).
  { intros Hno. split; [intros; by apply scanned_app, IH1|]. intros turn member [H|H]%Hsplit; [by eapply IH2|].
    destruct H as (g & to & Hg & Ht & Hturn & Hto). apply list_elem_of_singleton in Hg as ->.
    destruct Hno as [Hno|[Hno|Hno]]; [done|by rewrite Hno in Hturn|by rewrite Hno in Hto]. }
  unfold surface_step. destruct (String.eqb_spec (ev_type e) "speaker_selected") as [Ht|Ht].
  2: { destruct (ev_type e == "speech"); [cbn [fst]; auto|]. destruct (mem_str _ _); cbn [fst]; auto. }
  destruct (payloadInt (pl e) "turn") as [turn|] eqn:Hturn; [|cbn [fst]; auto].
  destruct (ev_to e) as [|to tos] eqn:Hto; [cbn [fst]; auto|]. cbn [fst].
  assert (He : scanned_grant (l ++ [e]) turn to) by (exists e, tos; split; [set_solver|done]). split.
  - intros turn' member [[<- <-]|[_ H]]%lookup_insert_Some; [done|by apply scanned_app, IH1].
  - intros turn' member [H|H]%Hsplit; destruct (decide (turn = turn')) as [->|Hd]; try (rewrite lookup_insert_eq; by eexists).
    + rewrite lookup_insert_ne by done. by eapply IH2.
    + destruct H as (g & to' & Hg & _ & Hturn' & _). apply list_elem_of_singleton in Hg as ->. congruence.
Qed.

Lemma anyInt_payloadInt p key z : anyInt p key = z -> 0 < z -> payloadInt p key = Some z.
Proof.
  unfold anyInt, payloadInt. destruct (p !! key) as [v|]; [|intros <- ?; lia].
  destruct (as_int v); cbn; [by intros -> _|intros <- ?; lia].
Qed.

Lemma grant_scanned md past g turn member :
  grant_ok md past g -> (forall t, ev_turn g = Some t -> small t) -> payloadInt (pl g) "turn" = Some turn ->
  (payloadStringDefault (pl g) "member" "" = member \/ ev_to g = [member]) -> ev_to g = [member] /\ ev_turn g = Some turn.
Proof.
  intros (_ & m & t & Hto & Hm & Ht & Hrec & _) Hsmall Hp Hmem.
  assert (Hi : anyInt (pl g) "turn" = turn) by (unfold anyInt, payloadInt in *; destruct (pl g !! "turn"); [by rewrite Hp|done]).
  rewrite <- (Hrec (Hsmall t Ht)), Hi in Ht. split; [|done].
  destruct Hmem as [<-|<-]; [by rewrite Hm|done].
Qed.

(** One speech of a justified log. *)
Lemma speech_renderable md l i e :
  justified_log md l -> granted_once l -> (forall x turn, x ∈ l -> ev_turn x = Some turn -> small turn) ->
  l !! i = Some e -> ev_type e = "speech" ->
  sp_status (speech_surface_row (foldl surface_step (∅, []) (take i l)).1 e) = "renderable".
Proof.
  intros Hj Honce Hsmall Hi Ht. destruct (Hj i e Hi) as (Hspeech & _).
  destruct (Hspeech Ht) as (turn & Hturn & Hpos & _ & Hgrant & Hrec).
  assert (Hp : payloadInt (pl e) "turn" = Some turn).
  { apply anyInt_payloadInt; [|done]. apply Hrec, (Hsmall e); [by eapply list_elem_of_lookup_2|done]. }
  apply existsb_take in Hgrant as (j & g & Hlt & Hg & Hgr). unfold grants in Hgr. bool_prop.
  assert (Hall : forall k x to m, take i l !! k = Some x -> ev_type x = "speaker_selected" -> payloadInt (pl x) "turn" = Some turn ->
    payloadStringDefault (pl x) "member" "" = m \/ ev_to x = [m] \/ ev_to x = m :: to -> ev_to x = [m] /\ ev_turn x = Some turn).
  { intros k x to m Hx Hxt Hxp Hxm. apply lookup_take_Some in Hx as [Hx _]. destruct (Hj k x Hx) as (_ & Hok & _).
    specialize (Hok Hxt). assert (Hxs : forall t, ev_turn x = Some t -> small t).
    { intros t. apply Hsmall. by eapply list_elem_of_lookup_2. }
    apply (grant_scanned _ _ _ _ _ Hok Hxs Hxp). destruct Hxm as [Hc|[Hc|Hc]]; [by left|by right|right].
    destruct Hok as (_ & m' & t' & Hto & _). rewrite Hto in Hc. injection Hc as -> _. done. }
  assert (Hgi : take i l !! j = Some g) by (by rewrite lookup_take_lt).
  destruct (Hall j g [] (ev_from e) Hgi) as [Hgto Hgt]; [done|by apply anyInt_payloadInt| |].
  { match goal with R : _ \/ _ |- _ => destruct R as [R|R] end; bool_prop; [by left|]. right. left.
    destruct (ev_to g) as [|x [|]]; try done. bool_prop. by subst. }
  destruct (selected_scanned (take i l)) as [Hs1 Hs2]. cbn zeta in Hs1, Hs2.
  destruct (Hs2 turn (ev_from e)) as [member Hmember].
  { exists g, []. split; [by eapply list_elem_of_lookup_2|]. split; [done|]. split; [by apply anyInt_payloadInt|done]. }
  destruct (Hs1 turn member Hmember) as (g' & to & Hg' & Ht' & Hp' & Hto').
  apply list_elem_of_lookup in Hg' as [k Hk].
  destruct (Hall k g' to member Hk) as [Hg'to Hg't]; [done|done|by right; right|].
  assert (member = ev_from e) as ->.
  { assert (Heq : ev_to g = ev_to g').
    { apply lookup_take_Some in Hk as [Hk _]. apply (Honce g g' turn); try done; by eapply list_elem_of_lookup_2. }
    rewrite Hgto, Hg'to in Heq. by injection Heq. }
  unfold speech_surface_row. cbn [sp_status]. rewrite Hp, Hmember. cbn. by rewrite String.eqb_refl.
Qed.

(** The rows with the speeches they are about. *)
Lemma speech_rows_from l row :
  row ∈ visibleSurfaceProjectionRows l -> sp_target row = "speech" ->
  exists i e, l !! i = Some e /\ ev_type e = "speech" /\
    row = speech_surface_row (foldl surface_step (∅, []) (take i l)).1 e.
Proof.
  unfold visibleSurfaceProjectionRows. induction l as [|e l IH] using rev_ind; [cbn; set_solver|].
  rewrite foldl_snoc. intros Hrow Htarget.
  assert (Hold : row ∈ (foldl surface_step (∅, []) l).2 -> exists i x, (l ++ [e]) !! i = Some x /\ ev_type x = "speech" /\
    row = speech_surface_row (foldl surface_step (∅, []) (take i (l ++ [e]))).1 x).
  { intros H. destruct (IH H Htarget) as (i & x & Hi & Hx & ->). exists i, x.
    pose proof (lookup_lt_Some _ _ _ Hi). split; [by apply lookup_app_l_Some|]. split; [done|]. by rewrite take_app_le by lia. }
  destruct (foldl surface_step (∅, []) l) as [selected rows] eqn:Hacc. cbn [fst snd] in Hold. unfold surface_step in Hrow.
  destruct (ev_type e == "speaker_selected").
  { destruct (payloadInt _ _); [destruct (ev_to e)|]; by apply Hold. }
  destruct (String.eqb_spec (ev_type e) "speech") as [Ht|_].
  { cbn [snd] in Hrow. apply elem_of_app in Hrow as [Hrow|Hrow]; [by apply Hold|]. apply list_elem_of_singleton in Hrow as ->.
    exists (length l), e. split; [by rewrite lookup_app_r, Nat.sub_diag|]. split; [done|]. by rewrite take_app_length, Hacc. }
  destruct (mem_str _ _); [|by apply Hold]. cbn [snd] in Hrow. apply elem_of_app in Hrow as [Hrow|Hrow]; [by apply Hold|].
  unfold closeout_surface_rows in Hrow. apply elem_of_cons in Hrow as [->|Hrow]; [done|].
  destruct (pl e !! _); [|by apply elem_of_nil in Hrow]. by apply list_elem_of_singleton in Hrow as ->.
Qed.

(** C10. The transcript agrees with the council about who had the floor: over any
    run of council commands, under any faults, every speech of the log is
    renderable in the transcript, as long as no turn was granted to two members. *)
Theorem council_speeches_renderable name w w' ix ix' row
    (Hrun : rtc (command_step (C := council_command) name) w w') (Hix : reads w name ix)
    (Hj : justified_log (wd_md w) (ix_events ix)) (Hix' : reads w' name ix')
    (Hsmall : forall x turn, x ∈ ix_events ix' -> ev_turn x = Some turn -> small turn)
    (Honce : granted_once (ix_events ix')) :
  row ∈ visibleSurfaceProjectionRows (ix_events ix') -> sp_target row = "speech" -> sp_status row = "renderable".
Proof.
  intros Hrow Ht. pose proof (council_run_justified _ _ _ _ _ Hrun Hix Hj Hix') as Hall.
  destruct (speech_rows_from _ _ Hrow Ht) as (i & e & Hi & He & ->). by eapply speech_renderable.
Qed.

(** ** Concrete runs *)

(** Decides [granted_once] of a concrete log. *)
Definition granted_once_b (l : list EventEnvelope) : bool :=
  forallb (fun g => forallb (fun g' =>
    negb ((ev_type g == "speaker_selected") && (ev_type g' == "speaker_selected")) ||
    negb (bool_decide (ev_turn g = ev_turn g')) || bool_decide (ev_to g = ev_to g')) l) l.

Lemma granted_once_spec l : granted_once_b l = true -> granted_once l.
Proof.
  intros H g g' turn Hg Hg' Ht Ht' Hturn Hturn'. unfold granted_once_b in H.
  rewrite forallb_forall in H. specialize (H g ltac:(by apply list_elem_of_In)).
  rewrite forallb_forall in H. specialize (H g' ltac:(by apply list_elem_of_In)).
  rewrite Ht, Ht', Hturn, Hturn' in H. rewrite bool_decide_true in H by done. by apply bool_decide_eq_true in H.
Qed.

Definition sx_rows (w : world) : list (string * string * string) :=
  map (fun row => (sp_event_type row, sp_status row, sp_evidence row)) (visibleSurfaceProjectionRows (ix_events (cx_read w))).

Lemma council_speeches_renderable_witness :
  exists row, row ∈ visibleSurfaceProjectionRows (ix_events (cx_read cx_w_final)) /\ sp_target row = "speech" /\
    sp_status row = "renderable".
Proof.
  assert (H : exists row, row ∈ visibleSurfaceProjectionRows (ix_events (cx_read cx_w_final)) /\ sp_target row = "speech").
  { exists (hd (mk_surface_row "" "" "" "" "") (visibleSurfaceProjectionRows (ix_events (cx_read cx_w_final)))).
    split; [|vm_compute; reflexivity].
    destruct (visibleSurfaceProjectionRows (ix_events (cx_read cx_w_final))) as [|row rows] eqn:E; [|left].
    assert (Hne : negb (bool_decide (length (visibleSurfaceProjectionRows (ix_events (cx_read cx_w_final))) = 0%nat)) = true)
      by (vm_compute; reflexivity).
    rewrite E in Hne. exfalso. by vm_compute in Hne. }
  destruct H as (row & Hrow & Ht). exists row. split; [exact Hrow|]. split; [exact Ht|].
  apply (council_speeches_renderable "sess_council" fx_w0 cx_w_final fx_ix0 (cx_read cx_w_final) row).
  - unfold cx_w_final, cx_w_spoken. etransitivity; apply cx_runs_rtc.
  - apply fx_reads0.
  - apply cx_justified0.
  - apply cx_read_reads. vm_compute. reflexivity.
  - apply turns_small_spec. vm_compute. reflexivity.
  - apply granted_once_spec. vm_compute. reflexivity.
  - exact Hrow.
  - exact Ht.
Defined.

(** Two members are granted the same turn and both speak: the council accepts both
    speeches, and the transcript disowns the first. *)
Example disowned_speech :
  let w := cx_runs fx_w0 (take 4 cx_discussion ++
    [cx_spec "hand-raise" "bob" "d1" {[ "intent" := AStr "object" ]};
     cx_spec "grant" "mod" "d2" {[ "member" := AStr "ann" ]};
     cx_spec "grant" "mod" "d3" {[ "member" := AStr "bob" ]};
     cx_spec "speak" "ann" "d4" {[ "speech" := AStr "We should ship." ]};
     cx_spec "speak" "bob" "d5" {[ "speech" := AStr "We should wait." ]}]) in
  sx_rows w = [("speech", "floor_grant_missing_or_mismatched", "turn=1 selected=bob speaker=ann");
               ("speech", "renderable", "turn=1 selected=bob speaker=bob")].
Proof. vm_compute. reflexivity. Qed.
