(* ===== verification/SummaryTurns.v ===== *)
(** * The turns of a summary

    The rows of summary_turn_accounting.go have a declarative meaning: one row per
    member and turn that was selected, with the first speech that answered it. *)

From S2P Require Import Prelude GoValue GoTime Model Ids Evidence Events EventLog Command Fixtures Council CouncilTheory Lifecycle SelectedRunner Transcript.

(** The event gives the turn to the member. *)
Definition selects (turn : Z) (member : string) (e : EventEnvelope) : bool :=
  (ev_type e == "speaker_selected") && bool_decide (payloadInt (pl e) "turn" = Some turn) && (selected_turn_member e == member).

Definition speaks (turn : Z) (member : string) (e : EventEnvelope) : bool :=
  (ev_type e == "speech") && bool_decide (payloadInt (pl e) "turn" = Some turn) && (trim_space (ev_from e) == member).

(** The first element that satisfies [p], and what follows it. *)
Fixpoint split_first {A} (p : A -> bool) (l : list A) : option (A * list A) :=
  match l with
  | [] => None
  | x :: rest => if p x then Some (x, rest) else split_first p rest
  end.

Lemma split_first_snoc {A} (p : A -> bool) l x :
  split_first p (l ++ [x]) =
  match split_first p l with
  | Some (y, rest) => Some (y, rest ++ [x])
  | None => if p x then Some (x, []) else None
  end.
Proof. induction l as [|y l IH]; cbn; [by destruct (p x)|]. by destruct (p y). Qed.

Lemma find_snoc {A} (p : A -> bool) l x :
  find_first p (l ++ [x]) = match find_first p l with Some y => Some y | None => if p x then Some x else None end.
Proof. unfold find_first. induction l as [|y l IH]; cbn; [done|]. by destruct (p y). Qed.

(** What a row says of the log. *)
Definition row_reports (l : list EventEnvelope) (row : summaryTurnAccountingRow) : Prop :=
  exists g rest, split_first (selects (st_turn row) (st_member row)) l = Some (g, rest) /\
    st_selected row = ev_event_id g /\
    st_speech row = from_option ev_event_id "" (find_first (speaks (st_turn row) (st_member row)) rest).

Definition row_key_of (row : summaryTurnAccountingRow) : Z * string := (st_turn row, st_member row).

Definition rows_ok (l : list EventEnvelope) (rows : list summaryTurnAccountingRow) : Prop :=
  NoDup (map row_key_of rows) /\
  (forall turn member, (turn, member) ∈ map row_key_of rows <-> member <> "" /\ exists g, g ∈ l /\ selects turn member g = true) /\
  forall row, row ∈ rows -> row_reports l row.

Lemma has_row_spec turn member rows : existsb (is_row_of turn member) rows = true <-> (turn, member) ∈ map row_key_of rows.
Proof.
  rewrite existsb_exists. unfold is_row_of. split.
  - intros (row & Hin & [Ht Hm]%andb_true_iff). apply Z.eqb_eq in Ht as <-. apply String.eqb_eq in Hm as <-.
    apply list_elem_of_fmap. exists row. split; [done|]. by apply list_elem_of_In.
  - intros (row & [= -> ->] & Hin)%list_elem_of_fmap. exists row. split; [by apply list_elem_of_In|]. by rewrite Z.eqb_refl, String.eqb_refl.
Qed.

Lemma selected_exists_snoc (p : EventEnvelope -> bool) l e :
  (exists g, g ∈ l ++ [e] /\ p g = true) <-> (exists g, g ∈ l /\ p g = true) \/ p e = true.
Proof. set_solver. Qed.

Lemma split_first_None {A} (p : A -> bool) l : split_first p l = None <-> ~ exists x, x ∈ l /\ p x = true.
Proof.
  induction l as [|y l IH]; cbn.
  { split; [|done]. by intros _ (x & ?%elem_of_nil & _). }
  destruct (p y) eqn:Hy.
  - split; [done|]. intros H. exfalso. apply H. exists y. split; [by left|done].
  - rewrite IH. split; intros H (x & Hx & Hp); apply H; [|exists x; split; [by right|done]].
    apply elem_of_cons in Hx as [->|Hx]; [congruence|by exists x].
Qed.

(** An event that is no selection and no speech of a row leaves the row true. *)
Lemma row_reports_other l e row :
  row_reports l row -> speaks (st_turn row) (st_member row) e = false -> row_reports (l ++ [e]) row.
Proof.
  intros (g & rest & Hg & Hs & Hp) He. exists g, (rest ++ [e]). rewrite split_first_snoc, Hg. split; [done|]. split; [done|].
  rewrite find_snoc, He, Hp. by destruct (find_first _ rest).
Qed.

Lemma row_reports_speech lifecycle l e row :
  ev_event_id e <> "" -> row_reports l row -> (forall x, x ∈ l -> ev_event_id x <> "") ->
  speaks (st_turn row) (st_member row) e = true -> row_reports (l ++ [e]) (with_turn_speech lifecycle row e).
Proof.
  intros Hid (g & rest & Hg & Hs & Hp) Hids He. exists g, (rest ++ [e]). cbn [st_turn st_member st_selected st_speech with_turn_speech].
  rewrite split_first_snoc, Hg. split; [done|]. split; [done|]. rewrite find_snoc, He, Hp. unfold fill_text.
  destruct (find_first _ rest) as [x|] eqn:Hx; cbn; [|done].
  assert (Hxl : x ∈ l).
  { apply find_some in Hx as [Hx _]. apply list_elem_of_In in Hx.
    clear -Hg Hx. revert Hg. induction l as [|y l IH]; cbn; [done|]. destruct (selects _ _ y).
    - intros [= <- <-]. set_solver.
    - intros H. specialize (IH H). set_solver. }
  destruct (String.eqb_spec (ev_event_id x) ""); [|done]. by destruct (Hids x Hxl).
Qed.

Lemma no_speech_row turn member e : ev_type e <> "speech" -> speaks turn member e = false.
Proof. unfold speaks. by destruct (String.eqb_spec (ev_type e) "speech"). Qed.

Lemma no_selection turn member e : ev_type e <> "speaker_selected" -> selects turn member e = false.
Proof. unfold selects. by destruct (String.eqb_spec (ev_type e) "speaker_selected"). Qed.

(** Rows that are neither added nor touched. *)
Lemma rows_ok_same l e rows :
  rows_ok l rows -> (forall row, row ∈ rows -> speaks (st_turn row) (st_member row) e = false) ->
  (forall turn member, selects turn member e = true -> member = "" \/ (turn, member) ∈ map row_key_of rows) ->
  rows_ok (l ++ [e]) rows.
Proof.
  intros (Hnd & Hkeys & Hrows) Hs Hsel. split; [done|]. split.
  - intros turn member. rewrite Hkeys, selected_exists_snoc. split; [tauto|]. intros [Hm [H|H]]; [done|].
    destruct (Hsel _ _ H) as [|Hk]; [done|]. apply Hkeys in Hk. tauto.
  - intros row Hrow. apply row_reports_other; auto.
Qed.

Lemma selects_turn turn turn' member member' e :
  payloadInt (pl e) "turn" = Some turn -> selected_turn_member e = member ->
  selects turn' member' e = true -> turn' = turn /\ member' = member.
Proof.
  unfold selects. intros Ht <- [[_ H]%andb_true_iff Hm]%andb_true_iff.
  apply bool_decide_eq_true in H. apply String.eqb_eq in Hm. split; congruence.
Qed.

(** A selection of a member and turn that have no row yet. *)
Lemma rows_ok_selected l e rows turn :
  rows_ok l rows -> ev_type e = "speaker_selected" -> payloadInt (pl e) "turn" = Some turn ->
  selected_turn_member e <> "" -> (turn, selected_turn_member e) ∉ map row_key_of rows ->
  rows_ok (l ++ [e]) (rows ++ [mk_turn_row turn (selected_turn_member e) (ev_event_id e) "" "" "" "" 0 0]).
Proof.
  intros (Hnd & Hkeys & Hrows) Ht Hturn Hm Hnew. set (member := selected_turn_member e) in *.
  assert (Hsel : selects turn member e = true).
  { unfold selects. rewrite Ht, Hturn, bool_decide_true by done. rewrite String.eqb_refl. apply String.eqb_refl. }
  split; [|split].
  - rewrite map_app. apply NoDup_app. split; [done|]. split; [|apply NoDup_singleton].
    intros key Hk ->%list_elem_of_singleton. exact (Hnew Hk).
  - intros turn' member'. rewrite map_app, elem_of_app, Hkeys, selected_exists_snoc. cbn [map]. rewrite list_elem_of_singleton.
    unfold row_key_of at 1. cbn [st_turn st_member]. split.
    + intros [H|[= -> ->]]; [tauto|]. split; [done|]. by right.
    + intros [Hne [H|H]]; [tauto|]. right. by destruct (selects_turn turn turn' member member' e Hturn eq_refl H) as [-> ->].
  - intros row [Hrow|Hrow]%elem_of_app; [apply row_reports_other; [auto|apply no_speech_row; by rewrite Ht]|].
    apply list_elem_of_singleton in Hrow as ->. exists e, []. cbn [st_turn st_member st_selected st_speech]. split; [|done].
    rewrite split_first_snoc, Hsel. replace (split_first _ l) with (@None (EventEnvelope * list EventEnvelope)); [done|].
    symmetry. apply split_first_None. intros Hg. apply Hnew, Hkeys. done.
Qed.

(** A speech fills the rows of its turn and member. *)
Lemma rows_ok_speech lifecycle l e rows turn :
  rows_ok l rows -> ev_event_id e <> "" -> (forall x, x ∈ l -> ev_event_id x <> "") -> ev_type e = "speech" ->
  payloadInt (pl e) "turn" = Some turn ->
  rows_ok (l ++ [e]) (map (fun row => if is_row_of turn (trim_space (ev_from e)) row then with_turn_speech lifecycle row e else row) rows).
Proof.
  intros (Hnd & Hkeys & Hrows) Hid Hids Ht Hturn. set (step := fun row => if is_row_of turn _ row then _ else row).
  assert (Hkey : map row_key_of (map step rows) = map row_key_of rows).
  { rewrite map_map. apply map_ext. intros row. unfold step. by destruct (is_row_of _ _ row). }
  split; [by rewrite Hkey|]. split.
  - intros turn' member'. rewrite Hkey, Hkeys, selected_exists_snoc, no_selection by (by rewrite Ht). intuition congruence.
  - intros row' (row & -> & Hrow)%list_elem_of_fmap. unfold step. unfold is_row_of.
    assert (Hs : speaks (st_turn row) (st_member row) e = ((st_turn row =? turn) && (st_member row == trim_space (ev_from e)))).
    { unfold speaks. rewrite Ht, Hturn. cbn [andb]. rewrite (String.eqb_sym (trim_space _)). f_equal.
      destruct (Z.eqb_spec (st_turn row) turn) as [->|Hne]; [by apply bool_decide_true|]. apply bool_decide_false. congruence. }
    rewrite <- Hs. destruct (speaks _ _ e) eqn:He; [apply row_reports_speech; auto|apply row_reports_other; auto].
Qed.

Lemma summary_step_ok lifecycle l e rows :
  rows_ok l rows -> ev_event_id e <> "" -> (forall x, x ∈ l -> ev_event_id x <> "") ->
  rows_ok (l ++ [e]) (summary_turn_step lifecycle rows e).
Proof.
  intros Hok Hid Hids. unfold summary_turn_step.
  destruct (payloadInt (pl e) "turn") as [turn|] eqn:Hturn.
  2: { apply rows_ok_same; [done| |]; intros; unfold speaks, selects in *; rewrite Hturn in *; cbn in *;
       [by rewrite andb_false_r|]. by destruct (ev_type e == "speaker_selected"). }
  destruct (String.eqb_spec (ev_type e) "speaker_selected") as [Ht|Ht].
  - cbv zeta. destruct (_ || _) eqn:Hskip.
    + apply rows_ok_same; [done|intros; apply no_speech_row; by rewrite Ht|]. intros turn' member' Hs.
      destruct (selects_turn turn turn' _ member' e Hturn eq_refl Hs) as [-> ->].
      apply orb_true_iff in Hskip as [H|H]; [left; by apply String.eqb_eq|right; by apply has_row_spec].
    + apply orb_false_iff in Hskip as [H1 H2]. apply String.eqb_neq in H1.
      apply rows_ok_selected; try done. intros H. apply has_row_spec in H. congruence.
  - assert (Hsel : forall turn' member', selects turn' member' e = true -> member' = "" \/ (turn', member') ∈ map row_key_of rows).
    { intros turn' member'. by rewrite no_selection. }
    destruct (String.eqb_spec (ev_type e) "speech") as [Hs|Hs].
    + cbv zeta. destruct (String.eqb_spec (trim_space (ev_from e)) "") as [Hm|Hm]; [|by apply rows_ok_speech].
      apply rows_ok_same; [done| |done]. intros row Hrow. destruct Hok as (_ & Hkeys & _).
      destruct (Hkeys (st_turn row) (st_member row)) as [H _].
      destruct (H ltac:(apply list_elem_of_fmap; by exists row)) as [Hne _]. unfold speaks. rewrite Hm.
      destruct (String.eqb_spec "" (st_member row)); [congruence|]. by rewrite andb_false_r.
    + apply rows_ok_same; [done|intros; by apply no_speech_row|done].
Qed.

(** The summary of turns says what the log says: it has one row for each
    member and turn that a selection named, with the first such selection and
    the first speech of the member in the turn that came after it, if any. *)
Theorem summary_turns_spec (md : SessionMetadata) (ix : LogIndex) (Hids : forall e, e ∈ ix_events ix -> ev_event_id e <> "") :
  rows_ok (ix_events ix) (summaryTurnAccountingRows md ix).
Proof.
  unfold summaryTurnAccountingRows. generalize (councilDiscussionLifecycle md ix). intros lifecycle. revert Hids.
  induction (ix_events ix) as [|e l IH] using rev_ind; intros Hids.
  { split; [constructor|]. split; [|by intros row ?%elem_of_nil]. intros turn member. cbn. split; [by intros ?%elem_of_nil|].
    by intros (_ & g & ?%elem_of_nil & _). }
  rewrite foldl_snoc. apply summary_step_ok; [apply IH; intros x Hx; apply Hids; set_solver|apply Hids; set_solver|].
  intros x Hx. apply Hids. set_solver.
Qed.

(** Decides that every event has an id. *)
Lemma ids_spec l : forallb (fun e => ev_event_id e != "") l = true -> forall e, e ∈ l -> ev_event_id e <> "".
Proof.
  rewrite forallb_forall. intros H e He. specialize (H e ltac:(by apply list_elem_of_In)). by apply negb_true_iff, String.eqb_neq in H.
Qed.

Lemma summary_turns_spec_witness :
  rows_ok (ix_events (cx_read cx_w_final)) (summaryTurnAccountingRows fx_council_md (cx_read cx_w_final)).
Proof. apply (summary_turns_spec fx_council_md (cx_read cx_w_final)). apply ids_spec. vm_compute. reflexivity. Defined.

(** A member speaks twice in one turn, first without a runner: the row has the
    first speech and the invocation of the second. *)
Example mixed_row :
  let speech id runner := mk_event 1 id "" "" "" "sess_council" "council" (Some 1) "discussion" "speech" "ann" ["mod"] fx_later
                            runner None (Some {[ "turn" := AInt 1 ]}) in
  let grant := mk_event 1 "g" "" "" "" "sess_council" "council" (Some 1) "discussion" "speaker_selected" "mod" ["ann"] fx_later
                 None None (Some {[ "turn" := AInt 1; "member" := AStr "ann" ]}) in
  let runner := mk_runner "inv_2" "hermes-agent" "ann" 1 false "" "succeeded" None in
  map (fun r => (st_speech r, st_invocation r))
    (summaryTurnAccountingRows fx_council_md (mk_index [grant; speech "s1" None; speech "s2" (Some runner)] ∅)) = [("s1", "inv_2")].
Proof. vm_compute. reflexivity. Qed.
