(* ===== verification/ExportBundle.v ===== *)
(** * Export bundles (storage/transcript.go)

    A directory with the transcripts of a session, its metadata, its files and a
    manifest, written file by file: to a temporary name that is then renamed.  The
    file system is the nodes by path and the bytes of the regular files; every
    step can fail, a write after any part of its bytes. *)

From S2P Require Import Prelude Paths GoValue GoTime Model Ids Registry Evidence Events Closeout Lifecycle SelectedRunner PromptEvidence Text Json EventCodec Projection Transcript.

(** ** JSON of the manifest *)

Definition omit_list (key : string) (l : list string) : list (string * any) :=
  match l with
  | [] => []
  | _ => [(key, AStrs l)]
  end.

Definition omit_rows (key : string) (l : list any) : list (string * any) :=
  match l with
  | [] => []
  | _ => [(key, AList l)]
  end.

Definition diagnostic_json (d : SelectedRunnerDiagnostic) : any :=
  AStruct ([("code", AStr (dg_code d))] ++ omit_str "event_id" (dg_event d) ++ omit_str "selected_event_id" (dg_selected d) ++
           omit_str "member" (dg_member d) ++ omit_str "runner_invocation_id" (dg_invocation d) ++ omit_str "message" (dg_message d)).

Definition grant_json (g : SelectedRunnerGrantAccounting) : any :=
  AStruct ([("selected_event_id", AStr (ga_selected g))] ++ omit_str "member" (ga_member g) ++ omit_int "turn" (ga_turn g) ++
           [("runner_started", ABool (ga_started g)); ("runner_status", AStr (ga_runner_status g));
            ("speech_link_status", AStr (ga_speech_status g)); ("followup_required", ABool (ga_followup g))] ++
           omit_list "runner_start_event_ids" (ga_starts g) ++ omit_list "runner_succeeded_event_ids" (ga_succeeded g) ++
           omit_list "runner_invocation_ids" (ga_invocations g) ++ omit_list "linked_runner_speech_event_ids" (ga_speeches g) ++
           omit_list "linked_runner_delivery_event_ids" (ga_deliveries g) ++
           omit_rows "linked_runner_delivery_evidence" (map AMap (ga_evidence g)) ++
           omit_list "terminal_failure_event_ids" (ga_failures g) ++ omit_list "terminal_discard_event_ids" (ga_discards g) ++
           omit_list "dispatch_failure_event_ids" (ga_dispatch g) ++
           [("pass", ABool (ga_pass g)); ("status", AStr (ga_status g))]).

Definition accounting_json (a : SelectedRunnerAccounting) : any :=
  let c := sa_counts a in
  AStruct ([("selected_runner_pass", ABool (sa_pass a)); ("selected_speaker_count", AInt (ct_selected c));
            ("runner_started_count", AInt (ct_started c)); ("runner_succeeded_count", AInt (ct_succeeded c));
            ("runner_failed_count", AInt (ct_failed c)); ("terminal_discard_count", AInt (ct_discards c));
            ("dispatch_failure_count", AInt (ct_dispatch c)); ("linked_runner_speech_count", AInt (SelectedRunner.ct_linked c));
            ("visible_delivery_echo_count", AInt (ct_echoes c)); ("runnerless_speech_count", AInt (ct_runnerless c));
            ("manual_or_fallback_speech_count", AInt (ct_manual c))] ++
           omit_rows "diagnostics" (map diagnostic_json (sa_diagnostics a)) ++
           omit_rows "selected_runners" (map grant_json (sa_runners a))).

Definition prompt_evidence_json (e : SelectedRunnerPromptEvidence) : any :=
  AStruct ([("session_id", AStr (pe_session e)); ("speaker_selected_event_id", AStr (pe_selected_event e));
            ("selected_member", AStr (pe_member e))] ++ omit_int "turn" (pe_turn e) ++
           omit_str "causation_event_id" (pe_causation e) ++ [("result", AStr (pe_result e))] ++
           omit_list "included_context" (pe_included e) ++ omit_list "missing_required_context" (pe_missing e) ++
           omit_list "agenda_source_event_ids" (pe_agenda e) ++ omit_list "prior_context_source_event_ids" (pe_prior e) ++
           omit_list "own_history_source_event_ids" (pe_own_history e) ++
           omit_list "own_latest_claim_source_event_ids" (pe_own_latest e) ++
           omit_list "own_claim_index_source_event_ids" (pe_own_index e) ++
           omit_str "participant_runtime_mode" (pe_mode e) ++ omit_str "hot_prompt_strategy" (pe_strategy e) ++
           omit_list "delta_source_event_ids" (pe_delta e) ++ omit_list "rehydrate_source_event_ids" (pe_rehydrate e) ++
           omit_str "rehydrate_validation_status" (pe_rehydrate_status e) ++
           omit_list "rehydrate_validation_failures" (pe_rehydrate_failures e) ++
           [("stateless_fallback", ABool (pe_fallback e))] ++ omit_str "stateless_fallback_status" (pe_fallback_status e) ++
           omit_str "full_history_hot_prompt_status" (pe_full_history e) ++
           omit_str "own_history_hot_prompt_status" (pe_own_history_status e) ++
           omit_str "runtime_block_status" (pe_block_status e) ++ omit_str "runtime_block_reason" (pe_block_reason e) ++
           omit_str "prompt_context_sha256" (pe_sha256 e) ++ omit_str "redacted_prompt_excerpt" (pe_excerpt e)).

Definition omit_ints (key : string) (l : list Z) : list (string * any) := omit_rows key (map AInt l).

Definition bool_count (b : bool) : Z := if b then 1 else 0.

Definition visible_turn_accounting (l : CouncilDiscussionLifecycle) : list (string * any) :=
  if lc_configured l then
    [("visible_turn_accounting",
      AMap {[ "moderator_opening" := AInt (bool_count (lc_opening_present l));
              "discussion_speeches" := AInt (len_z (lc_discussion_present l));
              "participant_closeout" := AInt (len_z (lc_closeout_present l));
              "terminal_conclusion" := AInt (bool_count (lc_terminal_event l != "")) ]})]
  else [].

Definition lifecycle_json (l : CouncilDiscussionLifecycle) : any :=
  let blockers := if lc_configured l then lc_blocking_reasons l else [] in
  let proof := terminalVisibleCloseoutProofStatus (lc_terminal_type l) (lc_terminal_payload l) in
  AStruct ([("configured", ABool (lc_configured l))] ++ omit_int "max_discussion_turns" (lc_max_discussion_turns l) ++
           omit_int "legacy_max_turns_display" (lc_legacy_max_turns l) ++
           [("participant_count", AInt (lc_participant_count l))] ++
           omit_int "expected_visible_turns" (lc_expected_visible_turns l) ++
           omit_int "terminal_synthesis_turn" (lc_synthesis_turn l) ++
           omit_int "terminal_synthesis_expected_visible_index" (lc_expected_visible_turns l) ++
           omit_str "opening_event_id" (lc_opening_event l) ++ omit_int "opening_turn" (lc_opening_turn l) ++
           omit_ints "discussion_turns_present" (lc_discussion_present l) ++
           omit_ints "missing_discussion_turns" (lc_discussion_missing l) ++
           omit_list "closeout_members_present" (lc_closeout_present l) ++
           omit_list "missing_closeout_members" (lc_closeout_missing l) ++
           omit_int "discussion_turns_required" (lc_max_discussion_turns l) ++
           [("discussion_turns_present_count", AInt (len_z (lc_discussion_present l)));
            ("discussion_turns_complete", ABool (lc_discussion_complete l))] ++
           omit_int "participant_closeouts_required" (if lc_configured l then lc_participant_count l else 0) ++
           [("participant_closeouts_present_count", AInt (len_z (lc_closeout_present l)));
            ("participant_closeouts_complete", ABool (lc_closeouts_complete l));
            ("moderator_opening_present", ABool (lc_opening_present l));
            ("moderator_synthesis_present", ABool (lifecycleTerminalSynthesisPresent l));
            ("terminal_synthesis_summary_present",
             ABool (terminalSynthesisSummaryPresent (lc_terminal_type l) (lc_terminal_payload l)))] ++
           omit_str "terminal_visible_closeout_proof_status" proof.1 ++
           omit_str "terminal_visible_closeout_proof_blocker" proof.2 ++
           omit_str "terminal_phase" (terminalLifecyclePhase (lc_terminal_type l) proof.1) ++
           omit_str "completion_verdict" (lifecycleCompletionVerdict l) ++
           omit_str "terminal_event_id" (lc_terminal_event l) ++
           omit_str "terminal_synthesis_event_id" (lc_terminal_event l) ++
           omit_str "terminal_event_type" (lc_terminal_type l) ++
           [("propose_ready", ABool (lc_configured l && lc_propose_ready l));
            ("terminal_visible", ABool (lc_terminal_event l != ""))] ++
           omit_list "blocking_reasons" blockers ++
           omit_int "visible_turn_total" (lc_expected_visible_turns l) ++ visible_turn_accounting l).

Definition turn_row_json (r : summaryTurnAccountingRow) : any :=
  AStruct ([("turn", AInt (st_turn r)); ("member", AStr (st_member r)); ("speaker_selected_event_id", AStr (st_selected r));
            ("speech_event_id", AStr (st_speech r)); ("runner_invocation_id", AStr (st_invocation r));
            ("visible_message_id", AStr (st_message r))] ++ omit_str "lifecycle_stage" (st_stage r) ++
           omit_int "visible_turn_index" (st_visible_index r) ++ omit_int "visible_turn_total" (st_visible_total r)).

Definition surface_row_json (r : surfaceProjectionRow) : any :=
  AStruct ([("event_id", AStr (sp_event_id r)); ("event_type", AStr (sp_event_type r)); ("target", AStr (sp_target r));
            ("status", AStr (sp_status r))] ++ omit_str "evidence" (sp_evidence r)).

Definition graph_row_json (r : argumentGraphProjectionRow) : any :=
  AStruct ([("session_id", AStr (ag_session_id r)); ("event_id", AStr (ag_event_id r)); ("event_ordinal", AInt (ag_ordinal r));
            ("turn", AInt (ag_turn r)); ("speaker", AStr (ag_speaker r)); ("speech", AStr (ag_speech r))] ++
           omit_str "contribution_type" (ag_contribution_type r) ++ omit_str "new_axis_reason" (ag_new_axis_reason r) ++
           [("status", AStr (ag_status r))] ++ omit_str "diagnostic" (ag_diagnostic r) ++ omit_str "claims_json" (ag_claims r) ++
           omit_str "stance_links_json" (ag_stance_links r) ++ omit_str "evidence_json" (ag_evidence r) ++
           omit_str "quality_diagnostics_json" (ag_quality_diagnostics r) ++ omit_str "relation_audit_json" (ag_relation_audit r)).

(** The snapshot metadata has no JSON names. *)
Definition snapshot_metadata_json (s : SnapshotMetadata) : any :=
  AStruct [("SourcePath", AStr (sn_source_path s)); ("SourceSHA256", AStr (sn_source_sha256 s));
           ("LoadedAt", AStr (time_format (sn_loaded_at s))); ("LoadedByUID", AInt (sn_loaded_by_uid s));
           ("SchemaVersion", AInt (sn_schema_version s))].

Definition cost_summary_json (c : CostSummary) : any :=
  AStruct [("tokens_in_total", AInt (cs_tokens_in c)); ("tokens_out_total", AInt (cs_tokens_out c));
           ("usd_estimate_total", AFloat (cs_usd c).1 (cs_usd c).2); ("runner_calls_total", AInt (cs_runner_calls c));
           ("missing_cost_runner_calls_total", AInt (cs_missing c))].

Definition optional {A} (key : string) (json : A -> any) (o : option A) : list (string * any) :=
  match o with
  | Some a => [(key, json a)]
  | None => []
  end.

(** The summaries of the metadata that the model of it leaves out. *)
Record stored_summaries := mk_stored { ss_cost : CostSummary; ss_escalations : any }.

Definition metadata_json (md : SessionMetadata) (s : stored_summaries) : any :=
  let state := md_state md in
  AStruct ([("id", AStr (md_id md)); ("session_type", AStr (md_session_type md)); ("status", AStr (md_status md));
            ("title", AStr (md_title md)); ("moderator", AStr (md_moderator md)); ("participants", AStrs (md_participants md))] ++
           optional "surface" surface_json (md_surface md) ++
           optional "linked_authority" linked_authority_json (md_linked_authority md) ++
           optional "selected_runner_timeout_evidence" timeout_evidence_json (md_timeout_evidence md) ++
           omit_str "turn_mode" (md_turn_mode md) ++
           [("created_at", AStr (time_format (md_created_at md))); ("limits", limits_json (md_limits md));
            ("state", AStruct ([("phase", AStr (st_phase state)); ("current_turn", AInt (st_current_turn state))] ++
                               omit_str "last_speaker" (st_last_speaker state) ++
                               [("consensus_round", AInt (st_consensus_round state))]));
            ("cost", cost_summary_json (ss_cost s)); ("escalations", ss_escalations s);
            ("registry_snapshot", snapshot_metadata_json (md_registry_snapshot md))]).

Definition ChannelJSONLName : string := "channel.jsonl".

Definition bundled_files : list string :=
  ["transcript.md"; "transcript.jsonl"; "brief.md"; "session.json"; ChannelJSONLName; SnapshotFileName].

Definition manifest_json (md : SessionMetadata) (ix : LogIndex) : any :=
  AMap (list_to_map
    [("session_id", AStr (md_id md)); ("protocol_export", AStr "transcript-export-v1");
     ("source_event_log", AStr ChannelJSONLName); ("registry_snapshot", snapshot_metadata_json (md_registry_snapshot md));
     ("includes_operator_evidence", ABool true);
     ("selected_runner_accounting", accounting_json (SelectedRunnerAccountingFromIndex md ix));
     ("selected_runner_prompt_evidence",
      from_option prompt_evidence_json ANil (LatestSelectedRunnerPromptEvidenceFromIndex ix));
     ("selected_runner_timeout_evidence", from_option timeout_evidence_json ANil (md_timeout_evidence md));
     ("discussion_lifecycle", lifecycle_json (councilDiscussionLifecycle md ix));
     ("closeout_diagnostics", match closeoutDiagnosticsForStatus md ix with [] => ANil | l => AMaps l end);
     ("summary_turn_accounting", AList (map turn_row_json (summaryTurnAccountingRows md ix)));
     ("surface_delivery_projection", AList (map surface_row_json (visibleSurfaceProjectionRows (ix_events ix))));
     ("argument_graph_projection", AList (map graph_row_json (argumentGraphProjectionRows 0 (ix_events ix))));
     ("files", AStrs bundled_files)]).

(** ** The file system *)

Record bundle_world := mk_bundle_world { bw_nodes : filesystem; bw_bytes : gmap string string }.

Definition set_nodes_of (w : bundle_world) (fs : filesystem) : bundle_world := mk_bundle_world fs (bw_bytes w).

(** Errors of the storage package, and those of the operating system as they are. *)
Inductive bundle_error :=
| BundleInvalid (e : error)
| BundleSystem (text : string).

Definition unsafe_path (path message : string) : bundle_error :=
  BundleInvalid (NewValidationError CategoryPathUnsafe path message).

Definition checked {A} (r : result error A) : result bundle_error A :=
  match r with
  | Ok a => Ok a
  | Err e => Err (BundleInvalid e)
  end.

(** Where the operating system cuts the writing of a file: it does not open, the
    bytes after which the write fails, the rename. *)
Inductive file_fault :=
| FileOpen
| FileWrite (bytes : nat)
| FileRename.

Definition new_bundle_file (ru : Runtime) : file_info := mk_info KRegular 384 (ru_uid ru) 0 0.

(** os.WriteFile: it follows links, makes the file they end at, or truncates it. *)
Definition os_write_file (w : bundle_world) (ru : Runtime) (path content : string) (fault : option file_fault)
    : bundle_world * result string unit :=
  match fault, stat_path (bw_nodes w) path with
  | Some FileOpen, _ => (w, Err io_error)
  | _, None => (w, Err ("open " +:+ path +:+ ": too many levels of symbolic links"))
  | _, Some target =>
      let opened info :=
        let put bytes := mk_bundle_world (<[target := info]> (bw_nodes w)) (<[target := bytes]> (bw_bytes w)) in
        match fault with
        | Some (FileWrite n) => (put (str_take n content), Err io_error)
        | _ => (put content, Ok tt)
        end in
      match bw_nodes w !! target with
      | None => opened (new_bundle_file ru)
      | Some info => if is_regular info then opened info else (w, Err ("open " +:+ path +:+ ": not a regular file"))
      end
  end.

(** rename(2): the entry itself moves, a link as a link. *)
Definition os_rename (w : bundle_world) (from to : string) : bundle_world :=
  mk_bundle_world (partial_alter (fun _ => bw_nodes w !! from) to (delete from (bw_nodes w)))
    (partial_alter (fun _ => bw_bytes w !! from) to (delete from (bw_bytes w))).

(** ** Paths *)

Definition ExportsDirName : string := "exports".

Definition exportBundleDir (sessionDir sessionID outputPath : string) : result bundle_error string :=
  if is_blank outputPath then Ok (Join [Clean sessionDir; ExportsDirName; sessionID +:+ "-bundle"])
  else
    let clean := Clean outputPath in
    reject contains clean nul || contains clean ".." with
      unsafe_path "output" "output path must not contain NUL or dot-dot segments";;
    Ok clean.

(** Whether a node may be the bundle's directory. *)
Definition bundle_node (path : string) (info : file_info) : result bundle_error unit :=
  reject match fi_kind info with KSymlink _ => true | _ => false end with
    unsafe_path path "bundle directory symlinks are forbidden";;
  ensure is_dir info or unsafe_path path "bundle path is not a directory";;
  Ok tt.

Definition no_entry (path : string) : string := "lstat " +:+ path +:+ ": no such file or directory".

Definition ensureSafeBundleDir (fs : filesystem) (bundleDir : string) : result bundle_error unit :=
  match fs !! bundleDir with
  | None => Err (unsafe_path bundleDir (no_entry bundleDir))
  | Some info => bundle_node bundleDir info
  end.

Definition validateBundleOutputTarget (fs : filesystem) (bundleDir : string) : result bundle_error unit :=
  let clean := Clean bundleDir in
  reject Dir clean == clean with unsafe_path clean "bundle output directory must not be a filesystem root";;
  match fs !! clean with
  | None => Ok tt
  | Some info => bundle_node clean info
  end.

(** ** Files *)

Definition bundle_target (fs : filesystem) (bundleDir path : string) : result bundle_error unit :=
  ensure pathContains bundleDir path or unsafe_path path "bundle file escapes output directory";;
  match fs !! path with
  | Some info =>
      ensure is_regular info or unsafe_path path "bundle file must be regular non-symlink";;
      Ok tt
  | None => Ok tt
  end.

Definition writeBundleFile (w : bundle_world) (ru : Runtime) (bundleDir name content : string) (fault : option file_fault)
    : bundle_world * result bundle_error unit :=
  let path := Join [bundleDir; name] in
  match bundle_target (bw_nodes w) bundleDir path with
  | Err e => (w, Err e)
  | Ok _ =>
      let tmp := path +:+ ".tmp" in
      match os_write_file w ru tmp content fault with
      | (w1, Err text) => (w1, Err (unsafe_path tmp text))
      | (w1, Ok _) =>
          match fault with
          | Some FileRename => (w1, Err (unsafe_path path io_error))
          | _ => (os_rename w1 tmp path, Ok tt)
          end
      end
  end.

(** The files in order, each with its fault, up to the first that fails. *)
Fixpoint write_files (w : bundle_world) (ru : Runtime) (bundleDir : string) (files : list (string * string))
    (faults : list (option file_fault)) : bundle_world * result bundle_error unit :=
  match files with
  | [] => (w, Ok tt)
  | (name, content) :: rest =>
      match writeBundleFile w ru bundleDir name content (default None (head faults)) with
      | (w1, Err e) => (w1, Err e)
      | (w1, Ok _) => write_files w1 ru bundleDir rest (tail faults)
      end
  end.

Definition readSafeSessionFile (w : bundle_world) (sessionDir name : string) : result bundle_error string :=
  let path := Join [Clean sessionDir; name] in
  ensure pathContains sessionDir path or unsafe_path path "session file escapes session directory";;
  match bw_nodes w !! path with
  | None => Err (BundleInvalid (NewValidationError CategorySessionUnsafe path (no_entry path)))
  | Some info =>
      ensure is_regular info or unsafe_path path "session file must be regular non-symlink";;
      match bw_bytes w !! path with
      | Some content => Ok content
      | None => Err (BundleSystem ("open " +:+ path +:+ ": " +:+ io_error))
      end
  end.

(** ** BuildExportBundle *)

(** A time with a year that JSON has no text for. *)
Definition year_error : string :=
  "json: error calling MarshalJSON for type time.Time: Time.MarshalJSON: year outside of range [0,9999]".

Definition marshal_metadata (md : SessionMetadata) (s : stored_summaries) : result bundle_error string :=
  ensure time_json_ok (md_created_at md) && time_json_ok (sn_loaded_at (md_registry_snapshot md)) or
    BundleInvalid (NewValidationError CategoryInvalidEnvelope "session" year_error);;
  Ok (marshalIndentDeterministic (metadata_json md s)).

(** The files of a bundle, in the order in which they are made. *)
Definition bundle_files (w : bundle_world) (sd : session_dir) (md : SessionMetadata) (s : stored_summaries)
    (nil_to : EventEnvelope -> bool) : result bundle_error (list (string * string)) :=
  try markdown := checked (RenderTranscript sd md (ss_cost s) nil_to TranscriptMarkdownFormat) in
  try lines := checked (RenderTranscript sd md (ss_cost s) nil_to TranscriptJSONLFormat) in
  try metadata := marshal_metadata md s in
  try channel := readSafeSessionFile w (sd_path sd) ChannelJSONLName in
  try snapshot := readSafeSessionFile w (sd_path sd) SnapshotFileName in
  try ix := checked (ReadLogIndex sd md) in
  Ok [("transcript.md", markdown); ("transcript.jsonl", lines); ("brief.md", renderBrief md); ("session.json", metadata);
      (ChannelJSONLName, channel); (SnapshotFileName, snapshot);
      ("bundle_manifest.json", marshalIndentDeterministic (manifest_json md ix))].

Record ExportBundleResult := mk_bundle_result { br_session : string; br_dir : string; br_files : list string }.

Definition BuildExportBundle (w : bundle_world) (ru : Runtime) (sd : session_dir) (md : SessionMetadata) (s : stored_summaries)
    (nil_to : EventEnvelope -> bool) (outputPath : string) (faults : list (option file_fault))
    : bundle_world * result bundle_error ExportBundleResult :=
  match (try _ := checked (safeSessionDirForAppend sd) in
         try dir := exportBundleDir (sd_path sd) (md_id md) outputPath in
         try _ := validateBundleOutputTarget (bw_nodes w) dir in
         Ok dir) with
  | Err e => (w, Err e)
  | Ok dir =>
      match MkdirAll ru (bw_nodes w) dir with
      | (fs, Err e) => (set_nodes_of w fs, Err (unsafe_path dir (reg_text e)))
      | (fs, Ok _) =>
          let w1 := set_nodes_of w fs in
          match (try _ := ensureSafeBundleDir fs dir in bundle_files w1 sd md s nil_to) with
          | Err e => (w1, Err e)
          | Ok files =>
              match write_files w1 ru dir files faults with
              | (w2, Err e) => (w2, Err e)
              | (w2, Ok _) => (w2, Ok (mk_bundle_result (md_id md) dir (sort_strings (map fst files))))
              end
          end
      end
  end.
