(* ===== verification/BundleTheory.v ===== *)
(** * Laws of the export bundle

    Whatever fails, a file of a bundle is the one that was there or the whole new
    one, and nothing else changes, as long as no temporary name is a link. *)

From S2P Require Import Prelude Paths GoValue GoTime Model Ids Registry Evidence Events EventLog Command Fixtures Text Json EventCodec EventCodecTheory Transcript ExportBundle.

(** ** Paths *)

Lemma split_slash_snoc s name : contains name "/" = false -> split_slash (s +:+ "/" +:+ name) = split_slash s ++ [name].
Proof.
  intros Hn. induction s as [|a s IH].
  - change ("" +:+ "/" +:+ name) with (String (Ascii.ascii_of_N 47) name). cbn [split_slash]. cbn. by rewrite split_slash_one.
  - rewrite str_app_cons. cbn [split_slash]. rewrite IH. destruct (Ascii.N_of_ascii a =? 47)%N; [done|].
    destruct (split_slash s) as [|p ps] eqn:E; [|done]. by destruct s as [|b s]; cbn in E; [|destruct (_ =? _)%N; [|destruct (split_slash s)]].
Qed.

(** Where the entries of a directory are. *)
Definition dir_prefix (dir : string) : string :=
  (if IsAbs dir then "/" else "") +:+ match clean_parts dir with [] => "" | parts => join "/" parts +:+ "/" end.

Lemma join_file dir name : dir <> "" -> plain_part name -> Join [dir; name] = dir_prefix dir +:+ name.
Proof.
  intros Hd (Hne & Hdot & Hdots & Hs). unfold Join. destruct (String.eqb_spec dir ""); [done|]. cbn [join].
  assert (Habs : IsAbs (dir +:+ "/" +:+ name) = IsAbs dir).
  { destruct dir as [|a dir]; [done|]. rewrite str_app_cons. unfold IsAbs, has_prefix. cbn [drop_prefix].
    match goal with |- context [Ascii.eqb ?x a] => by destruct (Ascii.eqb x a) end. }
  assert (Hparts : clean_parts (dir +:+ "/" +:+ name) = clean_parts dir ++ [name]).
  { unfold clean_parts. rewrite Habs, split_slash_snoc, foldl_snoc by done. unfold clean_part at 1.
    destruct (String.eqb_spec name ""), (String.eqb_spec name "."), (String.eqb_spec name ".."); done. }
  unfold Clean, dir_prefix. rewrite Hparts, Habs.
  assert (Hjoin : join "/" (clean_parts dir ++ [name]) = match clean_parts dir with [] => "" | parts => join "/" parts +:+ "/" end +:+ name).
  { destruct (clean_parts dir) as [|p ps]; [done|]. rewrite join_app. by rewrite str_app_assoc. }
  rewrite Hjoin, str_app_assoc. destruct (IsAbs dir); [done|]. clear -Hne.
  generalize (match clean_parts dir with [] => "" | s :: l => join "/" (s :: l) +:+ "/" end). intros prefix.
  destruct (String.eqb_spec (prefix +:+ name) "") as [E|_]; [|done]. exfalso. by destruct prefix.
Qed.

(** ** Writing files *)

Section files.
Variables (ru : Runtime) (dir : string) (names : list string).
Hypothesis Hdir : dir <> "".
Hypothesis Hplain : Forall plain_part names.
(** No name is another with the ending of temporary names. *)
Hypothesis Hapart : forall a b, a ∈ names -> b ∈ names -> a <> b +:+ ".tmp".

Let path (name : string) : string := Join [dir; name].
Let tmp (name : string) : string := path name +:+ ".tmp".

Lemma str_app_inj p a b : p +:+ a = p +:+ b -> a = b.
Proof. induction p as [|c p IH]; [done|]. rewrite !str_app_cons. intros [= H]. by apply IH. Qed.

Lemma path_prefix a : a ∈ names -> path a = dir_prefix dir +:+ a.
Proof. intros Ha. apply join_file; [done|]. rewrite Forall_forall in Hplain. auto. Qed.

Lemma path_inj a b : a ∈ names -> b ∈ names -> path a = path b -> a = b.
Proof. intros Ha Hb. rewrite !path_prefix by done. apply str_app_inj. Qed.

Lemma tmp_inj a b : a ∈ names -> b ∈ names -> tmp a = tmp b -> a = b.
Proof.
  intros Ha Hb H. apply path_inj; [done..|]. unfold tmp in H.
  apply (f_equal str_rev) in H. rewrite !str_rev_app_distr in H. apply str_app_inj in H.
  rewrite <- (str_rev_involutive (path a)), <- (str_rev_involutive (path b)). by rewrite H.
Qed.

Lemma path_tmp a b : a ∈ names -> b ∈ names -> path a <> tmp b.
Proof.
  intros Ha Hb. unfold tmp. rewrite !path_prefix, str_app_assoc by done. intros H%str_app_inj. by apply (Hapart a b).
Qed.

(** A path that no file of the bundle uses. *)
Definition elsewhere (p : string) : Prop := forall a, a ∈ names -> p <> path a /\ p <> tmp a.

Definition is_link (o : option file_info) : bool :=
  match o with
  | Some info => match fi_kind info with KSymlink _ => true | _ => false end
  | None => false
  end.

Definition links_free (w : bundle_world) : Prop := forall a, a ∈ names -> is_link (bw_nodes w !! tmp a) = false.

Lemma stat_plain fs p : is_link (fs !! p) = false -> stat_path fs p = Some p.
Proof.
  unfold stat_path. cbn. destruct (fs !! p) as [[k m u i s]|]; [|done]. cbn. by destruct k.
Qed.

(** What os.WriteFile does to a path that is no link. *)
Lemma os_write_outcome w p content fault w' r :
  is_link (bw_nodes w !! p) = false -> os_write_file w ru p content fault = (w', r) ->
  (forall q, q <> p -> bw_nodes w' !! q = bw_nodes w !! q /\ bw_bytes w' !! q = bw_bytes w !! q) /\
  is_link (bw_nodes w' !! p) = false /\
  (r = Ok tt -> bw_bytes w' !! p = Some content /\ is_Some (bw_nodes w' !! p)).
Proof.
  intros Hl. unfold os_write_file. rewrite stat_plain by done.
  assert (Hput : forall info bytes,
    let w1 := mk_bundle_world (<[p := info]> (bw_nodes w)) (<[p := bytes]> (bw_bytes w)) in
    (forall q, q <> p -> bw_nodes w1 !! q = bw_nodes w !! q /\ bw_bytes w1 !! q = bw_bytes w !! q) /\
    is_link (bw_nodes w1 !! p) = is_link (Some info) /\ bw_bytes w1 !! p = Some bytes /\ is_Some (bw_nodes w1 !! p)).
  { intros info bytes. cbn. rewrite !lookup_insert_eq. split; [|done]. intros q Hq. by rewrite !lookup_insert_ne by done. }
  assert (Hfail : forall text, (w, Err text) = (w', r) ->
    (forall q, q <> p -> bw_nodes w' !! q = bw_nodes w !! q /\ bw_bytes w' !! q = bw_bytes w !! q) /\
    is_link (bw_nodes w' !! p) = false /\ (r = Ok tt -> bw_bytes w' !! p = Some content /\ is_Some (bw_nodes w' !! p))).
  { intros text [= <- <-]. split; [done|]. by split. }
  assert (Hopened : forall info, is_link (Some info) = false ->
    (let put bytes := mk_bundle_world (<[p := info]> (bw_nodes w)) (<[p := bytes]> (bw_bytes w)) in
     match fault with Some (FileWrite n) => (put (str_take n content), Err io_error) | _ => (put content, Ok tt) end) = (w', r) ->
    (forall q, q <> p -> bw_nodes w' !! q = bw_nodes w !! q /\ bw_bytes w' !! q = bw_bytes w !! q) /\
    is_link (bw_nodes w' !! p) = false /\ (r = Ok tt -> bw_bytes w' !! p = Some content /\ is_Some (bw_nodes w' !! p))).
  { intros info Hi H. cbv zeta in H.
    destruct fault as [[| n |]|]; injection H as <- <-;
      [destruct (Hput info content) as (H1 & H2 & H3 & H4)|destruct (Hput info (str_take n content)) as (H1 & H2 & H3 & H4)|
       destruct (Hput info content) as (H1 & H2 & H3 & H4)|destruct (Hput info content) as (H1 & H2 & H3 & H4)];
      (split; [exact H1|]); rewrite H2; by split. }
  destruct fault as [[| n |]|]; try (apply Hfail);
    (destruct (bw_nodes w !! p) as [info|] eqn:Hn; [destruct (is_regular info) eqn:Hr; [|apply Hfail]|]);
    apply Hopened; try done; unfold is_link, is_regular in *; by destruct (fi_kind info).
Qed.

(** One file: the others stay, and this one is the old or the whole new one. *)
Lemma write_file_outcome w name content fault w' r :
  links_free w -> name ∈ names -> writeBundleFile w ru dir name content fault = (w', r) ->
  links_free w' /\
  (forall q, q <> path name -> q <> tmp name -> bw_bytes w' !! q = bw_bytes w !! q) /\
  match r with
  | Ok _ => bw_bytes w' !! path name = Some content
  | Err _ => bw_bytes w' !! path name = bw_bytes w !! path name
  end.
Proof.
  intros Hfree Hname. unfold writeBundleFile. fold (path name). fold (tmp name).
  destruct (bundle_target _ _ _) as [[]|]; [|by intros [= <- <-]].
  destruct (os_write_file w ru (tmp name) content fault) as [w1 [[]|text]] eqn:Hw;
    destruct (os_write_outcome _ _ _ _ _ _ (Hfree name Hname) Hw) as (Hsame & Hlink & Hdone).
  - assert (Hpt : path name <> tmp name) by by apply path_tmp.
    destruct (Hdone eq_refl) as [Hbytes _]. intros H.
    assert (Hf1 : links_free w1).
    { intros a Ha. destruct (decide (a = name)) as [->|Hne]; [done|].
      destruct (Hsame (tmp a)) as [-> _]; [|by apply Hfree]. intros Heq. by apply Hne, tmp_inj. }
    destruct fault as [[| |]|]; injection H as <- <-.
    3: { split; [done|]. split; [intros q _ Hq; by destruct (Hsame q Hq)|]. by destruct (Hsame _ Hpt). }
    all: split; [|split].
    all: try (intros a Ha; cbn; rewrite lookup_partial_alter_ne by (intros Heq; symmetry in Heq; revert Heq; intros Heq;
      by apply (path_tmp name a)); destruct (decide (a = name)) as [->|Hne]; [by rewrite lookup_delete_eq|];
      rewrite lookup_delete_ne by (intros Heq; by apply Hne, tmp_inj); by apply Hf1).
    all: try (intros q Hq Hq'; cbn; rewrite lookup_partial_alter_ne, lookup_delete_ne by done; by destruct (Hsame q)).
    all: cbn; by rewrite lookup_partial_alter_eq.
  - intros [= <- <-]. split; [|split].
    + intros a Ha. destruct (decide (a = name)) as [->|Hne]; [done|].
      destruct (Hsame (tmp a)) as [-> _]; [|by apply Hfree]. intros Heq. by apply Hne, tmp_inj.
    + intros q _ Hq. by destruct (Hsame q Hq).
    + destruct (Hsame (path name)) as [_ ->]; [|done]. by apply path_tmp.
Qed.

(** All files: each is the old or the whole new one, and all are new at the end. *)
Lemma write_files_outcome files w faults w' r :
  links_free w -> (forall f, f ∈ files -> f.1 ∈ names) -> NoDup (map fst files) -> write_files w ru dir files faults = (w', r) ->
  (forall q, elsewhere q -> bw_bytes w' !! q = bw_bytes w !! q) /\
  (forall name, name ∈ names -> bw_bytes w' !! path name = bw_bytes w !! path name \/
     exists content, (name, content) ∈ files /\ bw_bytes w' !! path name = Some content) /\
  (r = Ok tt -> forall name content, (name, content) ∈ files -> bw_bytes w' !! path name = Some content) /\
  (forall name, name ∈ names -> name ∉ map fst files -> bw_bytes w' !! path name = bw_bytes w !! path name).
Proof.
  revert w faults. induction files as [|[name content] files IH]; intros w faults Hfree Hin Hnd; cbn [write_files].
  { intros [= <- <-]. split; [done|]. split; [by left|]. split; [|done]. by intros _ name content ?%elem_of_nil. }
  cbn in Hnd. apply NoDup_cons in Hnd as [Hnew Hnd].
  assert (Hname : name ∈ names) by (apply (Hin (name, content)); left).
  destruct (writeBundleFile _ _ _ _ _ _) as [w1 r1] eqn:Hw.
  destruct (write_file_outcome _ _ _ _ _ _ Hfree Hname Hw) as (Hfree1 & Hrest & Hone).
  assert (Hothers : forall a, a ∈ names -> a <> name -> bw_bytes w1 !! path a = bw_bytes w !! path a).
  { intros a Ha Hne. apply Hrest; [intros H; by apply Hne, path_inj|by apply path_tmp]. }
  assert (Helse : forall q, elsewhere q -> bw_bytes w1 !! q = bw_bytes w !! q).
  { intros q Hq. destruct (Hq name Hname). by apply Hrest. }
  destruct r1 as [[]|e].
  - intros H. destruct (IH w1 (tail faults) Hfree1 ltac:(intros f Hf; apply Hin; by right) Hnd H) as (He & Hold & Hdone & Hnot).
    split; [intros q Hq; rewrite He; auto|]. split; [|split].
    + intros a Ha. destruct (decide (a = name)) as [->|Hne].
      * right. exists content. split; [left|]. by rewrite Hnot.
      * destruct (Hold a Ha) as [->|(c & Hc & ->)]; [left; auto|right; exists c; split; [by right|done]].
    + intros Hr a c Hac. apply elem_of_cons in Hac as [[= -> ->]|Hac]; [by rewrite Hnot|by apply Hdone].
    + intros a Ha Hna. rewrite Hnot; [apply Hothers; [done|]|done|]; set_solver.
  - intros [= <- <-]. split; [done|]. split; [|split; [done|]].
    + intros a Ha. left. destruct (decide (a = name)) as [->|Hne]; [done|by apply Hothers].
    + intros a Ha Hna. apply Hothers; [done|]. set_solver.
Qed.
End files.

(** ** The names of a bundle *)

Definition bundle_names : list string := bundled_files ++ ["bundle_manifest.json"].

Lemma bundle_names_plain : Forall plain_part bundle_names.
Proof.
  assert (H : forallb (fun p => (p != "") && (p != ".") && (p != "..") && negb (contains p "/")) bundle_names = true) by (vm_compute; reflexivity).
  apply Forall_forall. intros p Hp. rewrite forallb_forall in H. specialize (H p ltac:(by apply list_elem_of_In)).
  repeat (apply andb_true_iff in H as [H ?Hp]). unfold plain_part. repeat split.
  1-3: by (apply String.eqb_neq, negb_true_iff).
  by apply negb_true_iff.
Qed.

Lemma bundle_names_apart a b : a ∈ bundle_names -> b ∈ bundle_names -> a <> b +:+ ".tmp".
Proof.
  assert (H : forallb (fun a => forallb (fun b => a != (b +:+ ".tmp")) bundle_names) bundle_names = true) by (vm_compute; reflexivity).
  intros Ha Hb. rewrite forallb_forall in H. specialize (H a ltac:(by apply list_elem_of_In)).
  rewrite forallb_forall in H. specialize (H b ltac:(by apply list_elem_of_In)). by apply String.eqb_neq, negb_true_iff.
Qed.

Lemma bundle_files_names w sd md s nil_to files : bundle_files w sd md s nil_to = Ok files -> map fst files = bundle_names.
Proof. unfold bundle_files. intros H. run_inv H. by subst files. Qed.

(** MkdirAll adds directories and leaves the other nodes. *)
Lemma make_dirs_link ru fs dirs p : is_link (fs !! p) = false -> is_link ((make_dirs ru fs dirs).1 !! p) = false.
Proof.
  revert fs. induction dirs as [|d dirs IH]; intros fs Hp; cbn [make_dirs]; [done|].
  destruct (make_dir ru fs d) as [fs1|e] eqn:Hd; [|done]. apply IH. unfold make_dir in Hd.
  destruct (fs !! d) as [info|] eqn:E.
  - destruct (stat_path fs d) as [t|]; [|done]. destruct (fs !! t) as [i|]; [|done]. destruct (is_dir i); [by injection Hd as <-|done].
  - injection Hd as <-. destruct (decide (p = d)) as [->|Hne]; [by rewrite lookup_insert_eq|by rewrite lookup_insert_ne].
Qed.

Lemma exportBundleDir_ne sessionDir id out dir : exportBundleDir sessionDir id out = Ok dir -> dir <> "".
Proof.
  assert (Hclean : forall p, Clean p <> "").
  { intros p. unfold Clean. destruct (IsAbs p); [done|]. destruct (String.eqb_spec (join "/" (clean_parts p)) ""); done. }
  unfold exportBundleDir. destruct (is_blank out).
  - intros [= <-]. unfold Join. destruct (String.eqb_spec (Clean sessionDir) ""); [by destruct (Hclean sessionDir)|apply Hclean].
  - intros H. run_inv H. rewrite <- H. apply Hclean.
Qed.

(** C16. Exporting a bundle is safe: whatever the operating system refuses, every
    file of the bundle is the one that was there or the whole new one, all are new
    when it succeeds, and no byte of any other file changes, as long as none of
    the temporary names in the bundle's directory is a symbolic link. *)
Theorem bundle_written_whole w ru sd md s nil_to out faults w' r dir
    (Hdir : exportBundleDir (sd_path sd) (md_id md) out = Ok dir)
    (Hlinks : links_free dir bundle_names w)
    (Hrun : BuildExportBundle w ru sd md s nil_to out faults = (w', r)) :
  let path name := Join [dir; name] in
  let made := bundle_files (set_nodes_of w (MkdirAll ru (bw_nodes w) dir).1) sd md s nil_to in
  (forall q, elsewhere dir bundle_names q -> bw_bytes w' !! q = bw_bytes w !! q) /\
  (forall name, name ∈ bundle_names -> bw_bytes w' !! path name = bw_bytes w !! path name \/
     exists files content, made = Ok files /\ (name, content) ∈ files /\ bw_bytes w' !! path name = Some content) /\
  (forall res, r = Ok res -> br_dir res = dir /\ br_files res = sort_strings bundle_names /\
     exists files, made = Ok files /\ forall name content, (name, content) ∈ files -> bw_bytes w' !! path name = Some content).
Proof.
  intros path made. unfold BuildExportBundle in Hrun. rewrite Hdir in Hrun.
  assert (Hkeep : forall fs e, (set_nodes_of w fs, Err e) = (w', r) ->
    (forall q, elsewhere dir bundle_names q -> bw_bytes w' !! q = bw_bytes w !! q) /\
    (forall name, name ∈ bundle_names -> bw_bytes w' !! path name = bw_bytes w !! path name \/
       exists files content, made = Ok files /\ (name, content) ∈ files /\ bw_bytes w' !! path name = Some content) /\
    (forall res, r = Ok res -> br_dir res = dir /\ br_files res = sort_strings bundle_names /\
       exists files, made = Ok files /\ forall name content, (name, content) ∈ files -> bw_bytes w' !! path name = Some content)).
  { intros fs e [= <- <-]. split; [done|]. split; [by left|done]. }
  destruct (checked (safeSessionDirForAppend sd)) as [a|e]; cbn [mbind result_bind] in Hrun.
  2: { apply (Hkeep (bw_nodes w) e). by destruct w. }
  destruct (validateBundleOutputTarget _ _) as [b|e]; cbn [mbind result_bind] in Hrun.
  2: { apply (Hkeep (bw_nodes w) e). by destruct w. }
  subst made. unfold MkdirAll in *.
  assert (Hfree : links_free dir bundle_names (set_nodes_of w (make_dirs ru (bw_nodes w) (ancestors dir)).1)).
  { intros name Hname. cbn. by apply make_dirs_link, Hlinks. }
  destruct (make_dirs ru (bw_nodes w) (ancestors dir)) as [fs [c|e]]; [|by apply (Hkeep _ _ Hrun)]. cbn [fst] in *.
  destruct (ensureSafeBundleDir fs dir) as [d|e]; cbn [mbind result_bind] in Hrun; [|by apply (Hkeep _ _ Hrun)].
  destruct (bundle_files (set_nodes_of w fs) sd md s nil_to) as [files|e] eqn:Hfiles; [|by apply (Hkeep _ _ Hrun)].
  pose proof (bundle_files_names _ _ _ _ _ _ Hfiles) as Hnames.
  destruct (write_files (set_nodes_of w fs) ru dir files faults) as [w2 r2] eqn:Hw.
  assert (Hin : forall f, f ∈ files -> f.1 ∈ bundle_names) by (intros f Hf; rewrite <- Hnames; by apply list_elem_of_fmap_2).
  assert (Hnd : NoDup (map fst files)) by (rewrite Hnames; apply (bool_decide_unpack _); vm_compute; exact I).
  destruct (write_files_outcome ru dir bundle_names (exportBundleDir_ne _ _ _ _ Hdir) bundle_names_plain bundle_names_apart
    files _ _ _ _ Hfree Hin Hnd Hw) as (He & Hold & Hdone & _).
  assert (Hw2 : w' = w2) by (destruct r2 as [[]|]; by injection Hrun as <- _). subst w2.
  split; [exact He|]. split.
  - intros name Hname. destruct (Hold name Hname) as [H|(content & Hc & H)]; [by left|right; by exists files, content].
  - intros res ->. destruct r2 as [[]|]; [|done]. injection Hrun as <-. cbn [br_dir br_files]. rewrite Hnames.
    split; [done|]. split; [done|]. exists files. split; [done|]. intros name content Hc. by apply Hdone.
Qed.

(** ** Concrete bundles *)

Definition bx_sd : session_dir := fx_dir fx_council_md (fx_log fx_council_md).
Definition bx_file (name : string) : string := sd_path bx_sd +:+ "/" +:+ name.
Definition bx_dir_info : file_info := mk_info KDir 448 1000 0 0.
Definition bx_file_info : file_info := mk_info KRegular 384 1000 0 0.

Definition bx_nodes : filesystem :=
  list_to_map ([(sd_path bx_sd, bx_dir_info); (bx_file "channel.jsonl", bx_file_info);
                (bx_file "registry_snapshot.yaml", bx_file_info)] ++
               map (fun d => (d, bx_dir_info)) ["/"; "/home"; "/home/sessions"; "/home/out"]).

Definition bx_bytes : gmap string string :=
  list_to_map [(bx_file "channel.jsonl", event_line true (fx_created fx_council_md)); (bx_file "registry_snapshot.yaml", "members: {}")].

Definition bx_world : bundle_world := mk_bundle_world bx_nodes bx_bytes.
Definition bx_ru : Runtime := mk_reg_runtime (fun _ => None) (Ok "/home") 1000.
Definition bx_stored : stored_summaries := mk_stored no_cost_summary ANil.

Definition bx_export (w : bundle_world) (out : string) (faults : list (option file_fault)) :=
  BuildExportBundle w bx_ru bx_sd fx_council_md bx_stored (fun _ => true) out faults.

Lemma bundle_written_whole_witness :
  let b := bx_export bx_world "/home/out" [None; Some (FileWrite 3)] in
  is_ok b.2 = false /\ (forall q, elsewhere "/home/out" bundle_names q -> bw_bytes b.1 !! q = bw_bytes bx_world !! q).
Proof.
  split; [vm_compute; reflexivity|].
  destruct (bundle_written_whole bx_world bx_ru bx_sd fx_council_md bx_stored (fun _ => true) "/home/out" [None; Some (FileWrite 3)]
    (bx_export bx_world "/home/out" [None; Some (FileWrite 3)]).1 (bx_export bx_world "/home/out" [None; Some (FileWrite 3)]).2
    "/home/out") as (H & _ & _).
  - vm_compute. reflexivity.
  - intros name Hname. assert (Hall : forallb (fun name => negb (is_link (bw_nodes bx_world !! (Join ["/home/out"; name] +:+ ".tmp")))) bundle_names = true)
      by (vm_compute; reflexivity).
    rewrite forallb_forall in Hall. specialize (Hall name ltac:(by apply list_elem_of_In)). by apply negb_true_iff.
  - unfold bx_export. apply surjective_pairing.
  - exact H.
Defined.

(** A bundle that is written, and one whose second file is cut after three bytes. *)
Example bx_exports :
  let b := bx_export bx_world "" [] in
  let c := bx_export bx_world "/home/out" [None; Some (FileWrite 3)] in
  br_files <$> b.2 = Ok ["brief.md"; "bundle_manifest.json"; "channel.jsonl"; "registry_snapshot.yaml"; "session.json"; "transcript.jsonl";
                         "transcript.md"] /\
  bw_bytes b.1 !! bx_file "exports/sess_council-bundle/channel.jsonl" = bx_bytes !! bx_file "channel.jsonl" /\
  is_ok c.2 = false /\ is_Some (bw_bytes c.1 !! "/home/out/transcript.md") /\ bw_bytes c.1 !! "/home/out/transcript.jsonl" = None /\
  String.length <$> bw_bytes c.1 !! "/home/out/transcript.jsonl.tmp" = Some 3%nat.
Proof. vm_compute. repeat split. by eexists. Qed.

(** A link at a temporary name is followed: a file outside of the bundle is
    overwritten. *)
Example bx_link_followed :
  let planted := mk_bundle_world (<["/home/out/brief.md.tmp" := mk_info (KSymlink "/home/notes") 511 1000 0 0]> bx_nodes)
                   (<["/home/notes" := "mine"]> bx_bytes) in
  let nodes := mk_bundle_world (<["/home/notes" := bx_file_info]> (bw_nodes planted)) (bw_bytes planted) in
  let b := bx_export nodes "/home/out" [] in
  is_ok b.2 = true /\ bw_bytes b.1 !! "/home/notes" = Some (renderBrief fx_council_md).
Proof. vm_compute. repeat split. Qed.

(** A bundle may be written into the directory of its session, where it puts the
    log that was read in place of the log that is there. *)
Example bx_over_log :
  let b := bx_export bx_world (sd_path bx_sd) [] in
  is_ok b.2 = true /\ exportBundleDir (sd_path bx_sd) "sess_council" (sd_path bx_sd) = Ok (sd_path bx_sd) /\
  Join [sd_path bx_sd; ChannelJSONLName] = bx_file "channel.jsonl".
Proof. vm_compute. repeat split. Qed.
