(* ===== verification/QualityStatus.v ===== *)
(** * The quality of a discussion as its status reports it
    (councilDiscussionQualityStatus of storage/council_argument_graph.go)

    One scan of the log counts links, orphans, new axes and diagnostics; the
    theorem says what the verdict of the scan means, speech by speech. *)

From S2P Require Import Prelude GoValue GoTime Model Ids Evidence Events Closeout Lifecycle ArgumentGraph SelectedRunner Fixtures ArgumentGraphTheory.

(** ** The scan *)

Abbreviation counts := (gmap string Z).

Definition count (code : string) (m : counts) : counts := <[code := default 0 (m !! code) + 1]> m.

Record quality_scan := mk_quality_scan {
  qs_relations : counts; qs_raise_relations : counts; qs_diagnostics : counts; qs_hard : counts;
  qs_speeches : Z; qs_openings : Z; qs_linked : Z; qs_echoes : Z; qs_justified : Z; qs_repeated : Z;
  qs_target_links : Z; qs_raise_links : Z; qs_omitted : Z; qs_prior_axis : bool;
  qs_targets : list payload; qs_orphans : list payload; qs_axes : list payload; qs_invalid : list payload;
  qs_first_orphan : string; qs_prior : list EventEnvelope }.

Definition no_quality_scan : quality_scan :=
  mk_quality_scan ∅ ∅ ∅ ∅ 0 0 0 0 0 0 0 0 0 false [] [] [] [] "" [].

Definition hard_codes : list string :=
  ["orphan_speech"; "repeated_new_axis"; "omitted_graph_need_targets"; "runtime_noise"; "missing_required_argue_linkage";
   "missing_argument_graph_fields"].

Definition linkage_code : string := "missing_required_argue_linkage".

Definition payloadDiagnostics (p : payload) (key : string) : list payload :=
  match p !! key with
  | Some raw => default [] (rawObjectSlice raw)
  | None => []
  end.

Definition diagnostic_code (d : payload) : string := trim_space (anyString d ["code"]).

Definition invalid_row (e : EventEnvelope) (field : string) (err : error) : payload :=
  {[ "event_id" := AStr (ev_event_id e); "field" := AStr field; "reason" := AStr (error_text err) ]}.

(** The links of an event to what came before it. *)
Definition prior_links (prior : list EventEnvelope) (e : EventEnvelope) (key : string) : result error (list argumentTargetLink) :=
  parseArgumentTargetLinks (mk_index prior ∅) (pl e) key false.

Definition count_stances (links : list argumentTargetLink) (m : counts) : counts :=
  foldl (fun m l => count (al_stance l) m) m links.

Definition quality_raise (s : quality_scan) (e : EventEnvelope) : quality_scan :=
  match prior_links (qs_prior s) e "target_links" with
  | Err err =>
      mk_quality_scan (qs_relations s) (qs_raise_relations s) (count linkage_code (qs_diagnostics s)) (count linkage_code (qs_hard s))
        (qs_speeches s) (qs_openings s) (qs_linked s) (qs_echoes s) (qs_justified s) (qs_repeated s)
        (qs_target_links s) (qs_raise_links s) (qs_omitted s) (qs_prior_axis s)
        (qs_targets s) (qs_orphans s) (qs_axes s) (qs_invalid s ++ [invalid_row e "target_links" err])
        (qs_first_orphan s) (qs_prior s)
  | Ok links =>
      mk_quality_scan (qs_relations s) (count_stances links (qs_raise_relations s)) (qs_diagnostics s) (qs_hard s)
        (qs_speeches s) (qs_openings s) (qs_linked s) (qs_echoes s) (qs_justified s) (qs_repeated s)
        (qs_target_links s) (qs_raise_links s + len_z links) (qs_omitted s) (qs_prior_axis s)
        (qs_targets s) (qs_orphans s) (qs_axes s) (qs_invalid s) (qs_first_orphan s) (qs_prior s)
  end.

Definition is_new_axis (e : EventEnvelope) : bool := payloadStringDefault (pl e) "contribution_type" "" == "new_axis".
Definition new_axis_reason (e : EventEnvelope) : string := trim_space (payloadStringDefault (pl e) "new_axis_reason" "").
Definition justified_new_axis (e : EventEnvelope) : bool := is_new_axis e && (new_axis_reason e != "").

Definition speech_turn (e : EventEnvelope) : Z :=
  let turn := anyInt (pl e) "turn" in
  if turn =? 0 then default 0 (ev_turn e) else turn.

Definition recorded_hard_codes (e : EventEnvelope) : list string :=
  List.filter (fun c => mem_str c hard_codes) (map diagnostic_code (payloadDiagnostics (pl e) "quality_diagnostics")).

(** The hard warnings of a speech, each counted once. *)
Definition speech_warnings (repeated orphan : bool) (e : EventEnvelope) : list string :=
  remove_dups ((if repeated then ["repeated_new_axis"] else []) ++ (if orphan then ["orphan_speech"] else []) ++
               (if deterministicRuntimeNoise (payloadStringDefault (pl e) "speech" "") then ["runtime_noise"] else []) ++
               recorded_hard_codes e).

Definition target_row (e : EventEnvelope) (l : argumentTargetLink) : payload :=
  {[ "event_id" := AStr (ev_event_id e); "target_event_id" := AStr (al_event l); "target_claim_id" := AStr (al_claim l);
     "stance" := AStr (al_stance l) ]}.

Definition orphan_row (e : EventEnvelope) : payload :=
  {[ "event_id" := AStr (ev_event_id e); "turn" := AInt (speech_turn e); "speaker" := AStr (ev_from e);
     "responds_to_event_id_status" := AStr "display_only" ]}.

Definition axis_row (e : EventEnvelope) : payload :=
  {[ "event_id" := AStr (ev_event_id e); "reason" := AStr (new_axis_reason e) ]}.

Definition one (b : bool) : Z := if b then 1 else 0.
Definition row_when (b : bool) (row : payload) : list payload := if b then [row] else [].

Definition quality_speech (policy : discussionQualityPolicy) (s : quality_scan) (e : EventEnvelope) : quality_scan :=
  let after := dp_opening policy <=? qs_speeches s in
  let parsed := prior_links (qs_prior s) e "stance_links" in
  let links := match parsed with Ok links => links | Err _ => [] end in
  let malformed := match parsed with Ok _ => [] | Err err => [invalid_row e "stance_links" err] end in
  let justified := justified_new_axis e in
  let repeated := justified && qs_prior_axis s in
  let orphan := after && (len_z links =? 0) && negb justified in
  let noted := payloadDiagnostics (pl e) "quality_diagnostics" in
  let broken := match malformed with [] => [] | _ => [linkage_code] end in
  mk_quality_scan (count_stances links (qs_relations s)) (qs_raise_relations s)
    (foldl (fun m c => count c m) (qs_diagnostics s) (broken ++ List.filter (fun c => c != "") (map diagnostic_code noted)))
    (foldl (fun m c => count c m) (qs_hard s) (broken ++ speech_warnings repeated orphan e))
    (qs_speeches s + 1) (qs_openings s + one (negb after)) (qs_linked s + one (negb (len_z links =? 0))) (qs_echoes s)
    (qs_justified s + one justified) (qs_repeated s + one repeated) (qs_target_links s + len_z links) (qs_raise_links s)
    (foldl (fun n d => n + len_z (anySlice d "missing_targets")) (qs_omitted s) noted)
    (is_new_axis e)
    (qs_targets s ++ map (target_row e) links) (qs_orphans s ++ row_when orphan (orphan_row e))
    (qs_axes s ++ row_when (justified && after) (axis_row e)) (qs_invalid s ++ malformed)
    (if orphan && (qs_first_orphan s == "") then ev_event_id e else qs_first_orphan s) (qs_prior s).

Definition with_prior (s : quality_scan) (e : EventEnvelope) : quality_scan :=
  mk_quality_scan (qs_relations s) (qs_raise_relations s) (qs_diagnostics s) (qs_hard s)
    (qs_speeches s) (qs_openings s) (qs_linked s) (qs_echoes s) (qs_justified s) (qs_repeated s)
    (qs_target_links s) (qs_raise_links s) (qs_omitted s) (qs_prior_axis s)
    (qs_targets s) (qs_orphans s) (qs_axes s) (qs_invalid s) (qs_first_orphan s) (qs_prior s ++ [e]).

Definition with_echo (s : quality_scan) : quality_scan :=
  mk_quality_scan (qs_relations s) (qs_raise_relations s) (qs_diagnostics s) (qs_hard s)
    (qs_speeches s) (qs_openings s) (qs_linked s) (qs_echoes s + 1) (qs_justified s) (qs_repeated s)
    (qs_target_links s) (qs_raise_links s) (qs_omitted s) (qs_prior_axis s)
    (qs_targets s) (qs_orphans s) (qs_axes s) (qs_invalid s) (qs_first_orphan s) (qs_prior s).

(** A speech that only repeats what was delivered visibly. *)
Definition delivery_echo (echoes : gset string) (e : EventEnvelope) : bool :=
  (ev_type e == "speech") && bool_decide (ev_event_id e ∈ echoes).

(** An echo is passed over altogether. *)
Definition quality_step (policy : discussionQualityPolicy) (echoes : gset string) (s : quality_scan) (e : EventEnvelope)
    : quality_scan :=
  if ev_type e == "hand_raise" then with_prior (quality_raise s e) e
  else if ev_type e == "speech" then
    if delivery_echo echoes e then with_echo s else with_prior (quality_speech policy s e) e
  else with_prior s e.

Definition counts_json (m : counts) : any := AMap (AInt <$> m).

Definition sortedMapKeys (m : counts) : list string := map fst (sorted_entries m).

Definition prior_speaker_evidence (policy : discussionQualityPolicy) (s : quality_scan) : payload :=
  list_to_map
    [("pass", ABool ((len_z (qs_orphans s) =? 0) && (len_z (qs_invalid s) =? 0))); ("mode", AStr (dp_mode policy));
     ("opening_unlinked_turns", AInt (dp_opening policy)); ("display_hint_authority", AStr "rejected");
     ("responds_to_event_id_status", AStr "display_only"); ("first_orphan_event_id", AStr (qs_first_orphan s));
     ("orphan_count", AInt (len_z (qs_orphans s))); ("orphan_events", AMaps (qs_orphans s));
     ("valid_prior_target_count", AInt (len_z (qs_targets s))); ("valid_prior_targets", AMaps (qs_targets s));
     ("invalid_relation_count", AInt (len_z (qs_invalid s))); ("invalid_relation_diagnostics", AMaps (qs_invalid s));
     ("new_axis_exception_count", AInt (len_z (qs_axes s))); ("new_axis_exceptions", AMaps (qs_axes s))].

Definition discussion_pass (policy : discussionQualityPolicy) (s : quality_scan) : bool :=
  bool_decide (qs_hard s = ∅) &&
  negb ((dp_mode policy == discussionQualityCompatibility) && (qs_linked s =? 0) && (qs_justified s =? 0)).

Definition quality_scan_of (policy : discussionQualityPolicy) (md : SessionMetadata) (ix : LogIndex) : quality_scan :=
  foldl (quality_step policy (selectedRunnerVisibleDeliveryEchoEventIDs md ix)) no_quality_scan (ix_events ix).

Definition invalid_policy_status (phase : Phase) : payload :=
  let code := "invalid_discussion_quality_policy" in
  {[ "mode" := AStr "invalid"; "lifecycle_pass" := ABool (phase == "finalized"); "discussion_quality_pass" := ABool false;
     "hard_warning_counts" := counts_json {[ code := 1 ]}; "hard_warning_codes" := AStrs [code] ]}.

Definition councilDiscussionQualityStatus (md : SessionMetadata) (ix : LogIndex) (phase : Phase) : payload :=
  match resolveDiscussionQualityPolicy (md_limits md) with
  | Err _ => invalid_policy_status phase
  | Ok policy =>
      let s := quality_scan_of policy md ix in
      list_to_map
    [("mode", AStr (dp_mode policy)); ("mode_reason", AStr (dp_mode_reason policy));
         ("lifecycle_pass", ABool (phase == "finalized")); ("discussion_quality_pass", ABool (discussion_pass policy s));
         ("speech_count", AInt (qs_speeches s)); ("opening_speech_count", AInt (qs_openings s));
         ("linked_speech_count", AInt (qs_linked s)); ("orphan_speech_count", AInt (len_z (qs_orphans s)));
         ("visible_delivery_echo_count", AInt (qs_echoes s)); ("justified_new_axis_count", AInt (qs_justified s));
         ("repeated_new_axis_count", AInt (qs_repeated s)); ("target_link_count", AInt (qs_target_links s));
         ("relation_counts", counts_json (qs_relations s)); ("quality_diagnostic_counts", counts_json (qs_diagnostics s));
         ("hard_warning_counts", counts_json (qs_hard s)); ("hard_warning_codes", AStrs (sortedMapKeys (qs_hard s)));
         ("omitted_graph_need_targets", AInt (qs_omitted s));
         ("hand_raise_target_link_count", AInt (qs_raise_links s));
         ("hand_raise_relation_counts", counts_json (qs_raise_relations s));
         ("prior_speaker_argue_quality_evidence", AMap (prior_speaker_evidence policy s))]
  end.

(** ** What the verdict means *)

(** Every event of a log, with the events before it; some event of a log. *)
Definition each (P : list EventEnvelope -> EventEnvelope -> Prop) (l : list EventEnvelope) : Prop :=
  forall i e, l !! i = Some e -> P (take i l) e.

Definition some (P : list EventEnvelope -> EventEnvelope -> Prop) (l : list EventEnvelope) : Prop :=
  exists i e, l !! i = Some e /\ P (take i l) e.

(** What the discussion is without the echoes. *)
Definition heard (echoes : gset string) (l : list EventEnvelope) : list EventEnvelope :=
  List.filter (fun e => negb (delivery_echo echoes e)) l.

Definition speeches (l : list EventEnvelope) : list EventEnvelope := List.filter (fun e => ev_type e == "speech") l.

Definition links_of (prior : list EventEnvelope) (e : EventEnvelope) : list argumentTargetLink :=
  match prior_links prior e "stance_links" with
  | Ok links => links
  | Err _ => []
  end.

(** A speech after the opening that takes up nothing and is no new axis. *)
Definition orphaned (policy : discussionQualityPolicy) (prior : list EventEnvelope) (e : EventEnvelope) : Prop :=
  dp_opening policy <= len_z (speeches prior) /\ links_of prior e = [] /\ justified_new_axis e = false.

(** A new axis right after a speech that opened one. *)
Definition repeats_axis (prior : list EventEnvelope) (e : EventEnvelope) : Prop :=
  justified_new_axis e = true /\ exists before, last (speeches prior) = Some before /\ is_new_axis before = true.

Definition flawless (policy : discussionQualityPolicy) (prior : list EventEnvelope) (e : EventEnvelope) : Prop :=
  (ev_type e = "hand_raise" -> exists links, prior_links prior e "target_links" = Ok links) /\
  (ev_type e = "speech" ->
     (exists links, prior_links prior e "stance_links" = Ok links) /\ ~ orphaned policy prior e /\ ~ repeats_axis prior e /\
     deterministicRuntimeNoise (payloadStringDefault (pl e) "speech" "") = false /\
     (forall d, d ∈ payloadDiagnostics (pl e) "quality_diagnostics" -> diagnostic_code d ∉ hard_codes)).

(** A speech that takes up another one or opens a justified axis. *)
Definition contributes (prior : list EventEnvelope) (e : EventEnvelope) : Prop :=
  ev_type e = "speech" /\ (links_of prior e <> [] \/ justified_new_axis e = true).

(** [P] of the events that are no echoes, and of what was heard before them. *)
Definition aloud (echoes : gset string) (P : list EventEnvelope -> EventEnvelope -> Prop) (pre : list EventEnvelope)
    (e : EventEnvelope) : Prop :=
  delivery_echo echoes e = false -> P (heard echoes pre) e.

Definition aloud_too (echoes : gset string) (P : list EventEnvelope -> EventEnvelope -> Prop) (pre : list EventEnvelope)
    (e : EventEnvelope) : Prop :=
  delivery_echo echoes e = false /\ P (heard echoes pre) e.

Lemma each_snoc P l x : each P (l ++ [x]) <-> each P l /\ P l x.
Proof.
  split.
  - intros H. split.
    + intros i e Hi. pose proof (lookup_lt_Some _ _ _ Hi). specialize (H i e). rewrite lookup_app_l in H by done.
      rewrite take_app_le in H by lia. by apply H.
    + specialize (H (length l) x). rewrite list_lookup_middle in H by done. rewrite take_app_length in H. by apply H.
  - intros [H Hx] i e Hi. apply lookup_snoc_Some in Hi as [[Hlt Hi]|[-> <-]].
    + rewrite take_app_le by lia. by apply H.
    + by rewrite take_app_length.
Qed.

Lemma some_snoc P l x : some P (l ++ [x]) <-> some P l \/ P l x.
Proof.
  split.
  - intros (i & e & Hi & HP). apply lookup_snoc_Some in Hi as [[Hlt Hi]|[-> <-]].
    + left. exists i, e. rewrite take_app_le in HP by lia. done.
    + right. by rewrite take_app_length in HP.
  - intros [(i & e & Hi & HP)|HP].
    + exists i, e. pose proof (lookup_lt_Some _ _ _ Hi). by rewrite lookup_app_l, take_app_le by lia.
    + exists (length l), x. by rewrite list_lookup_middle, take_app_length.
Qed.

Lemma aloud_snoc echoes P l e :
  each (aloud echoes P) (l ++ [e]) <-> each (aloud echoes P) l /\ (delivery_echo echoes e = false -> P (heard echoes l) e).
Proof. apply each_snoc. Qed.

Lemma aloud_too_snoc echoes P l e :
  some (aloud_too echoes P) (l ++ [e]) <-> some (aloud_too echoes P) l \/ (delivery_echo echoes e = false /\ P (heard echoes l) e).
Proof. apply some_snoc. Qed.

Lemma heard_snoc echoes l e : heard echoes (l ++ [e]) = heard echoes l ++ (if delivery_echo echoes e then [] else [e]).
Proof. unfold heard. rewrite List.filter_app. cbn. by destruct (delivery_echo echoes e). Qed.

Lemma speeches_snoc l e : speeches (l ++ [e]) = speeches l ++ (if ev_type e == "speech" then [e] else []).
Proof. unfold speeches. rewrite List.filter_app. cbn. by destruct (ev_type e == "speech"). Qed.

Lemma count_not_empty c m : count c m <> ∅.
Proof. apply insert_non_empty. Qed.

Lemma counted_empty l m : foldl (fun m c => count c m) m l = ∅ <-> m = ∅ /\ l = [].
Proof.
  revert m. induction l as [|c l IH]; intros m; cbn; [naive_solver|]. rewrite IH. split.
  - intros [H _]. by apply count_not_empty in H.
  - by intros [_ [=]].
Qed.

Lemma remove_dups_nil (l : list string) : remove_dups l = [] <-> l = [].
Proof.
  split; [|by intros ->]. intros H. destruct l as [|x l]; [done|].
  assert (Hx : x ∈ remove_dups (x :: l)) by (apply elem_of_remove_dups; left). by rewrite H in Hx; apply elem_of_nil in Hx.
Qed.

Lemma recorded_none e :
  recorded_hard_codes e = [] <-> forall d, d ∈ payloadDiagnostics (pl e) "quality_diagnostics" -> diagnostic_code d ∉ hard_codes.
Proof.
  unfold recorded_hard_codes. induction (payloadDiagnostics (pl e) "quality_diagnostics") as [|d l IH]; cbn [map List.filter].
  { split; [|done]. intros _ d Hd. by apply elem_of_nil in Hd. }
  destruct (mem_str (diagnostic_code d) hard_codes) eqn:Hd.
  - split; [done|]. intros H. destruct (H d); [left|]. by apply mem_str_spec.
  - rewrite IH. split.
    + intros H d' Hd'. apply elem_of_cons in Hd' as [->|Hd']; [|by apply H].
      intros Hin. apply mem_str_spec in Hin. congruence.
    + intros H d' Hd'. apply H. by right.
Qed.

Lemma no_warnings repeated orphan e :
  speech_warnings repeated orphan e = [] <->
  repeated = false /\ orphan = false /\ deterministicRuntimeNoise (payloadStringDefault (pl e) "speech" "") = false /\
  (forall d, d ∈ payloadDiagnostics (pl e) "quality_diagnostics" -> diagnostic_code d ∉ hard_codes).
Proof.
  unfold speech_warnings. rewrite remove_dups_nil, <- recorded_none.
  destruct repeated, orphan, (deterministicRuntimeNoise _); cbn; naive_solver.
Qed.

Section verdict.
Context (policy : discussionQualityPolicy) (echoes : gset string).

Abbreviation scan l := (foldl (quality_step policy echoes) no_quality_scan l).

(** What a scan knows of the events before the next one. *)
Record scan_knows (l : list EventEnvelope) (s : quality_scan) : Prop := mk_scanned {
  sc_prior : qs_prior s = heard echoes l;
  sc_speeches : qs_speeches s = len_z (speeches (heard echoes l));
  sc_axis : qs_prior_axis s = true <-> exists before, last (speeches (heard echoes l)) = Some before /\ is_new_axis before = true;
  sc_hard : qs_hard s = ∅ <-> each (aloud echoes (flawless policy)) l;
  sc_linked : 0 <= qs_linked s /\ 0 <= qs_justified s;
  sc_contributes : (0 < qs_linked s \/ 0 < qs_justified s) <-> some (aloud_too echoes contributes) l }.

Lemma scanned_nil : scan_knows [] no_quality_scan.
Proof.
  split; [done|done| | |done|]; cbn.
  - split; [done|]. by intros (before & Hb & _).
  - split; [|done]. intros _ i e Hi. by rewrite lookup_nil in Hi.
  - split; [lia|]. intros (i & e & Hi & _). by rewrite lookup_nil in Hi.
Qed.

(** An event that is neither a speech nor a hand raise, or an echo, says nothing. *)
Lemma flawless_other prior e : ev_type e <> "hand_raise" -> ev_type e <> "speech" -> flawless policy prior e.
Proof. by split. Qed.

Lemma contributes_other prior e : ev_type e <> "speech" -> ~ contributes prior e.
Proof. intros H [? _]. by apply H. Qed.

Lemma scanned_quiet l s e : scan_knows l s -> delivery_echo echoes e = false -> ev_type e <> "speech" -> flawless policy (heard echoes l) e ->
  scan_knows (l ++ [e]) (with_prior s e).
Proof.
  intros [Hp Hs Ha Hh Hl Hc] He Ht Hf. apply String.eqb_neq in Ht as Hb. split; cbn.
  - by rewrite heard_snoc, He, Hp.
  - by rewrite heard_snoc, He, speeches_snoc, Hb, app_nil_r.
  - by rewrite heard_snoc, He, speeches_snoc, Hb, app_nil_r.
  - rewrite aloud_snoc, Hh. naive_solver.
  - done.
  - rewrite aloud_too_snoc, Hc. pose proof (contributes_other (heard echoes l) e Ht). naive_solver.
Qed.

Lemma len_z_zero {A} (l : list A) : (len_z l =? 0) = true <-> l = [].
Proof. rewrite Z.eqb_eq. unfold len_z. destruct l; cbn; [done|]. split; [lia | done]. Qed.

(** The tests of the scan of a speech, as the meaning has them. *)
Lemma orphan_test l s e : scan_knows l s ->
  ((dp_opening policy <=? qs_speeches s) && (len_z (links_of (heard echoes l) e) =? 0) && negb (justified_new_axis e)) = true <->
  orphaned policy (heard echoes l) e.
Proof.
  intros H. rewrite (sc_speeches _ _ H), !andb_true_iff, negb_true_iff, Z.leb_le, len_z_zero. unfold orphaned. tauto.
Qed.

Lemma repeat_test l s e : scan_knows l s ->
  justified_new_axis e && qs_prior_axis s = true <-> repeats_axis (heard echoes l) e.
Proof. intros H. rewrite andb_true_iff, (sc_axis _ _ H). done. Qed.

Lemma not_true_iff b P : (b = true <-> P) -> (b = false <-> ~ P).
Proof. destruct b; naive_solver. Qed.

Lemma flawless_speech prior e : ev_type e = "speech" ->
  flawless policy prior e <->
  (exists links, prior_links prior e "stance_links" = Ok links) /\ ~ orphaned policy prior e /\ ~ repeats_axis prior e /\
  deterministicRuntimeNoise (payloadStringDefault (pl e) "speech" "") = false /\
  (forall d, d ∈ payloadDiagnostics (pl e) "quality_diagnostics" -> diagnostic_code d ∉ hard_codes).
Proof.
  intros Ht. unfold flawless. split; [intros [_ H]; by apply H|]. intros H. split; intros H'; [congruence | exact H].
Qed.

Lemma flawless_raise prior e : ev_type e = "hand_raise" ->
  flawless policy prior e <-> exists links, prior_links prior e "target_links" = Ok links.
Proof.
  intros Ht. unfold flawless. split; [intros [H _]; by apply H|]. intros H. split; intros H'; [exact H | congruence].
Qed.

Lemma scanned_speech l s e : scan_knows l s -> delivery_echo echoes e = false -> ev_type e = "speech" ->
  scan_knows (l ++ [e]) (with_prior (quality_speech policy s e) e).
Proof.
  intros H He Ht. pose proof (orphan_test l s e H) as Ho%not_true_iff. pose proof (repeat_test l s e H) as Hr%not_true_iff.
  destruct H as [Hp Hs Ha Hh Hl Hc]. apply String.eqb_eq in Ht as Hb.
  assert (Hlast : speeches (heard echoes (l ++ [e])) = speeches (heard echoes l) ++ [e])
    by (rewrite heard_snoc, He, speeches_snoc, Hb; done).
  unfold quality_speech. rewrite Hp. fold (links_of (heard echoes l) e). split; cbn.
  - by rewrite heard_snoc, He.
  - rewrite Hlast, Hs. unfold len_z. rewrite length_app. cbn. lia.
  - rewrite Hlast, last_snoc. naive_solver.
  - rewrite counted_empty, app_nil, no_warnings, Ho, Hr, aloud_snoc, <- Hh, flawless_speech by done.
    unfold links_of in *. destruct (prior_links (heard echoes l) e "stance_links"); naive_solver.
  - destruct Hl. split; [destruct (len_z _ =? 0) | destruct (justified_new_axis e)]; cbn; lia.
  - rewrite aloud_too_snoc. destruct Hl as [Hl1 Hl2]. unfold contributes at 2.
    assert (Hlen : (len_z (links_of (heard echoes l) e) =? 0) = false <-> links_of (heard echoes l) e <> [])
      by (apply not_true_iff, len_z_zero).
    destruct (len_z (links_of (heard echoes l) e) =? 0), (justified_new_axis e); cbn;
      rewrite ?Z.add_0_r; naive_solver lia.
Qed.

Lemma scanned_same l s s' : scan_knows l s -> qs_prior s' = qs_prior s -> qs_speeches s' = qs_speeches s ->
  qs_prior_axis s' = qs_prior_axis s -> qs_hard s' = qs_hard s -> qs_linked s' = qs_linked s -> qs_justified s' = qs_justified s ->
  scan_knows l s'.
Proof. intros [Hp Hs Ha Hh Hl Hc] E1 E2 E3 E4 E5 E6. split; rewrite ?E1, ?E2, ?E3, ?E4, ?E5, ?E6; done. Qed.

Lemma scanned_raise l s e : scan_knows l s -> ev_type e = "hand_raise" -> scan_knows (l ++ [e]) (with_prior (quality_raise s e) e).
Proof.
  intros H Ht. assert (He : delivery_echo echoes e = false) by (unfold delivery_echo; by rewrite Ht).
  assert (Hn : ev_type e <> "speech") by (by rewrite Ht). pose proof (flawless_raise (heard echoes l) e Ht) as Hf.
  unfold quality_raise. rewrite (sc_prior _ _ H). destruct (prior_links (heard echoes l) e "target_links") as [links|err].
  - apply (scanned_same (l ++ [e]) (with_prior s e)); [|cbn; by rewrite ?(sc_prior _ _ H)..]. apply scanned_quiet; try done. apply Hf. by exists links.
  - destruct H as [Hp Hs Ha Hh Hl Hc]. apply String.eqb_neq in Hn as Hb.
    assert (Hsame : speeches (heard echoes (l ++ [e])) = speeches (heard echoes l))
      by (by rewrite heard_snoc, He, speeches_snoc, Hb, app_nil_r).
    split; cbn; rewrite ?Hsame; try done.
    + by rewrite heard_snoc, He.
    + rewrite aloud_snoc, Hf. split; [intros Hc'; by apply count_not_empty in Hc'|]. intros [_ Hx].
      by destruct (Hx He).
    + rewrite aloud_too_snoc, Hc. pose proof (contributes_other (heard echoes l) e Hn). naive_solver.
Qed.

Lemma scanned_echo l s e : scan_knows l s -> delivery_echo echoes e = true -> scan_knows (l ++ [e]) (with_echo s).
Proof.
  intros [Hp Hs Ha Hh Hl Hc] He. assert (Hsame : heard echoes (l ++ [e]) = heard echoes l) by (by rewrite heard_snoc, He, app_nil_r).
  split; cbn; rewrite ?Hsame, ?aloud_snoc, ?aloud_too_snoc; try done.
  - rewrite Hh. split; [intros H; split; [exact H | congruence] | by intros [H _]].
  - rewrite Hc. split; [by left | intros [H|[? _]]; [exact H | congruence]].
Qed.

Lemma scan_scanned l : scan_knows l (scan l).
Proof.
  induction l as [|e l IH] using rev_ind; [apply scanned_nil|]. rewrite foldl_app. cbn. unfold quality_step at 1.
  destruct (ev_type e == "hand_raise") eqn:Hr; [apply String.eqb_eq in Hr; by apply scanned_raise|].
  destruct (ev_type e == "speech") eqn:Hs.
  - apply String.eqb_eq in Hs. destruct (delivery_echo echoes e) eqn:He; [by apply scanned_echo | by apply scanned_speech].
  - apply String.eqb_neq in Hr, Hs. apply scanned_quiet; [done| |done|by apply flawless_other].
    unfold delivery_echo. apply String.eqb_neq in Hs. by rewrite Hs.
Qed.
End verdict.

(** C25. The verdict of the status on the quality of a discussion: it passes exactly
    when every hand raise and every speech that is not an echo is without flaw, seen
    against what was heard before it, and, under the lenient policy, when some
    speech took up another or opened a justified axis.  So the counters of the scan
    neither miss a flaw nor make one up. *)
Theorem quality_verdict (md : SessionMetadata) (ix : LogIndex) (phase : Phase) (policy : discussionQualityPolicy)
    (Hpolicy : resolveDiscussionQualityPolicy (md_limits md) = Ok policy) :
  let echoes := selectedRunnerVisibleDeliveryEchoEventIDs md ix in
  exists pass, councilDiscussionQualityStatus md ix phase !! "discussion_quality_pass" = Some (ABool pass) /\
    (pass = true <->
     each (aloud echoes (flawless policy)) (ix_events ix) /\
     (dp_mode policy = discussionQualityCompatibility -> some (aloud_too echoes contributes) (ix_events ix))).
Proof.
  intros echoes. exists (discussion_pass policy (quality_scan_of policy md ix)).
  unfold councilDiscussionQualityStatus. rewrite Hpolicy. split; [done|].
  pose proof (scan_scanned policy echoes (ix_events ix)) as [_ _ _ Hh [Hl1 Hl2] Hc]. unfold discussion_pass, quality_scan_of. fold echoes.
  rewrite andb_true_iff, bool_decide_eq_true, Hh, negb_true_iff, !andb_false_iff, String.eqb_neq, !Z.eqb_neq, <- Hc.
  apply and_iff_compat_l. split.
  - intros [[H|H]|H] Hm; [done | left; lia | right; lia].
  - intros H. destruct (decide (dp_mode policy = discussionQualityCompatibility)) as [Hm|Hm]; [|by left; left].
    destruct (H Hm); [left; right; lia | right; lia].
Qed.

(** ** A concrete discussion *)

Definition qx_speech (cmd from : string) (p : payload) : EventEnvelope := fx_event gx_md cmd "speech" "discussion" from ["mod"] p.

(** Bob takes up ann's claim. *)
Definition qx_ix : LogIndex := index_add gx_ix (qx_speech "s2" "bob" gx_accepted).

Lemma quality_verdict_witness :
  resolveDiscussionQualityPolicy (md_limits gx_md) = Ok gx_policy /\
  councilDiscussionQualityStatus gx_md qx_ix "discussion" !! "discussion_quality_pass" = Some (ABool true) /\
  each (aloud (selectedRunnerVisibleDeliveryEchoEventIDs gx_md qx_ix) (flawless gx_policy)) (ix_events qx_ix).
Proof.
  assert (Hpass : councilDiscussionQualityStatus gx_md qx_ix "discussion" !! "discussion_quality_pass" = Some (ABool true))
    by (vm_compute; reflexivity).
  split; [vm_compute; reflexivity|]. split; [exact Hpass|].
  destruct (quality_verdict gx_md qx_ix "discussion" gx_policy ltac:(vm_compute; reflexivity)) as (pass & Hp & Hiff).
  rewrite Hpass in Hp. injection Hp as <-. exact (proj1 (proj1 Hiff eq_refl)).
Defined.

Definition qx_claims : any := AMaps [{[ "claim_id" := AStr "c9"; "summary" := AStr "look at costs" ]}].

Definition qx_new_axis (contribution : string) : payload :=
  {[ "speech" := AStr "what about costs"; "contribution_type" := AStr contribution; "new_axis_reason" := AStr "gap";
     "claims" := qx_claims ]}.

(** A padded contribution type: the speech is accepted as a new axis, and reported
    as an orphan. *)
Example padded_axis_reported :
  is_ok (validateArgumentGraphSpeech gx_md gx_ix "bob" 2 (qx_new_axis "new_axis ")) = true /\
  councilDiscussionQualityStatus gx_md (index_add gx_ix (qx_speech "s2" "bob" (qx_new_axis "new_axis "))) "discussion"
    !! "hard_warning_codes" = Some (AStrs ["orphan_speech"]).
Proof. split; vm_compute; reflexivity. Qed.

(** The session allows two new axes in a row, and the second one fails the status. *)
Definition qx_md : SessionMetadata :=
  mk_metadata "sess_council" SessionTypeCouncil StatusOpen "Roadmap" "mod" ["mod"; "ann"; "bob"; "cyd"]
    None None None "" fx_now
    (mk_limits 0 0 0 0 0 0 0 0 0 0 0 0 0 (0, 0) 0 0 0 0 0 0 (Some (mk_quality "quality_required" 1 true false true 2)))
    (mk_state PhaseCreated 0 "" 0) fx_snapshot.

Definition qx_one_axis : LogIndex := index_add gx_ix (qx_speech "s2" "bob" (qx_new_axis "new_axis")).

Example allowed_axis_reported :
  is_ok (validateArgumentGraphSpeech qx_md qx_one_axis "cyd" 3 (qx_new_axis "new_axis")) = true /\
  councilDiscussionQualityStatus qx_md (index_add qx_one_axis (qx_speech "s3" "cyd" (qx_new_axis "new_axis"))) "discussion"
    !! "hard_warning_codes" = Some (AStrs ["repeated_new_axis"]).
Proof. split; vm_compute; reflexivity. Qed.
