(* ===== verification/CouncilStatus.v ===== *)
(** * What the status of a session says (CouncilStatusFromLogAt of
    storage/council.go, StreamStatusFromLogAt of storage/stream.go)

    Structs are given by the fields they are encoded with. *)

From S2P Require Import Prelude GoValue GoTime Model Ids Evidence Events Delegation Stream EventCodec Closeout Lifecycle ArgumentGraph SelectedRunner Council Readiness PromptEvidence PromptBuilder RunnerDispatch SpeakerDispatch GrantDispatch Transcript ExportBundle QualityStatus.

Section status.
Variable wall : time.

Definition last_entries (ix : LogIndex) : list (string * any) :=
  match last (ix_events ix) with
  | Some e => [("latest_event_id", AStr (ev_event_id e));
               ("latest_cursor", AStr (cursorFor (len_z (ix_events ix) - 1) (ev_event_id e)))]
  | None => []
  end.

Definition status_readiness (md : SessionMetadata) (ix : LogIndex) (now : time) : any :=
  report_json (ParticipantRuntimeReadinessFromIndex wall md ix
                 (readinessOptionsForStatus md ix now (SelectedRunnerAccountingFromIndex md ix))).

(** On the log as it was read. *)
Definition CouncilStatusFromLogAt (md : SessionMetadata) (read : result error LogIndex) (now : time) : result error payload :=
  reject md_session_type md != SessionTypeCouncil with
    NewValidationError CategoryMetadataInvalid "session_type" "council status requires council session";;
  try ix := read in
  let phase := latestPhase md ix in
  Ok (list_to_map
    ([("phase", AStr phase); ("status", AStr (statusFromPhase phase)); ("current_turn", AInt (currentCouncilTurn ix));
      ("consensus_round", AInt (latestConsensusRound ix)); ("moderator", AStr (md_moderator md));
      ("members", AStrs (councilMembers md)); ("attendance", AMap (councilAttendanceStatus md ix));
      ("agenda", AMap (councilAgendaStatus ix)); ("draft", AMap (councilDraftStatus ix));
      ("hand_raises", AMaps (councilHandRaiseStatus ix)); ("vote", AMap (councilVoteStatus md ix));
      ("discussion_quality", AMap (councilDiscussionQualityStatus md ix phase));
      ("discussion_lifecycle", lifecycle_json (councilDiscussionLifecycle md ix));
      ("response_window_accounting", AMap (responseWindowAccountingFromIndex wall (Some md) ix now (currentCouncilTurn ix)));
      ("selected_runner_accounting", accounting_json (SelectedRunnerAccountingFromIndex md ix))] ++
     optional "selected_runner_prompt_evidence" prompt_evidence_json (LatestSelectedRunnerPromptEvidenceFromIndex ix) ++
     optional "selected_runner_timeout_evidence" timeout_evidence_json (md_timeout_evidence md) ++
     [("participant_runtime_readiness", status_readiness md ix now)] ++
     optional "persistent_participant_runtime_evidence" AMap (latestPersistentParticipantRuntimeEvidenceFromIndex ix) ++
     match closeoutDiagnosticsForStatus md ix with [] => [] | l => [("closeout_diagnostics", AMaps l)] end ++
     last_entries ix ++
     optional "linked_authority" linked_authority_json (md_linked_authority md) ++
     optional "linked_authority_result" AMap (latestLinkedAuthorityResult ix))).

(** ** The stream *)

Definition cursor_json (c : StreamCursorState) : any :=
  AStruct [("cursor", AStr (cu_cursor c)); ("event_id", AStr (cu_event_id c)); ("acknowledged_at", AStr (cu_acknowledged_at c))].

Definition subscriber_json (s : StreamSubscriberState) : any :=
  AStruct ([("member", AStr (ss_member s)); ("subscriber_id", AStr (ss_subscriber_id s))] ++
           omit_str "last_cursor" (ss_last_cursor s) ++
           [("status", AStr (ss_status s)); ("last_heartbeat_at", AStr (ss_last_heartbeat s))]).

Definition StreamStatusFromLogAt (md : SessionMetadata) (read : result error LogIndex) (now : time) : result error any :=
  try ix := read in
  let s := StreamStatusFromLog md ix in
  Ok (AStruct
    ([("session_id", AStr (sg_session_id s))] ++ omit_str "latest_cursor" (sg_latest_cursor s) ++
     omit_str "latest_event_id" (sg_latest_event_id s) ++
     [("cursors", AMap (cursor_json <$> sg_cursors s)); ("subscribers", AList (map subscriber_json (sg_subscribers s)));
      ("participant_runtime_readiness", status_readiness md ix now);
      ("selected_runner_accounting", accounting_json (SelectedRunnerAccountingFromIndex md ix))])).

(** ** Frames and batches *)

Definition frame_json (nil_to : EventEnvelope -> bool) (f : StreamFrame) : any :=
  AStruct [("cursor", AStr (fr_cursor f)); ("is_replay", ABool (fr_is_replay f));
           ("event", event_value (nil_to (fr_event f)) (fr_event f))].

Definition batch_json (b : EscalationBatchSummary) : any :=
  AStruct ([("batch_id", AStr (eb_batch_id b)); ("pending_count", AInt (eb_pending b)); ("first_event_id", AStr (eb_first_event b))] ++
           omit_str "deadline_at" (eb_deadline b) ++ omit_str "phase_at_batch" (eb_phase b) ++
           [("can_flush", ABool (eb_can_flush b))] ++ omit_str "latest_event_id" (eb_latest_event b)).

End status.
