(* ===== verification/Protocol.v ===== *)
(** * The protocol of the daemon (internal/protocol)

    Responses, the errors they carry with their codes, categories and exit codes,
    and what the daemon says of its version and features. *)

From S2P Require Import Prelude GoValue GoTime Model Ids Requests.

(** ** Errors (errors.go) *)

Definition ExitOK : Z := 0.
Definition ExitUsage : Z := 1.
Definition ExitDaemonUnavailable : Z := 2.
Definition ExitUnsafe : Z := 3.
Definition ExitActiveSession : Z := 4.
Definition ExitReserved : Z := 5.
Definition ExitStorage : Z := 6.
Definition ExitInternal : Z := 70.

Definition ErrorUnsupportedFeature : string := "unsupported_feature".
Definition ErrorDaemonUnavailable : string := "daemon_unavailable".
Definition ErrorUnsafe : string := "unsafe_runtime".
Definition ErrorStorage : string := "storage_failure".
Definition ErrorValidation : string := "validation_error".
Definition ErrorInternal : string := "internal_error".

(** [se_exit_code] is not part of the JSON form. *)
Record StructuredError := mk_structured {
  se_code : string; se_category : string; se_message : string; se_details : option payload; se_next : list string;
  se_exit_code : Z }.

Definition categoryForCode (code : string) : string :=
  if mem_str code [ErrorUnsupportedFeature; ErrorValidation] then "validation"
  else if code == ErrorDaemonUnavailable then "daemon"
  else if code == ErrorUnsafe then "security"
  else if code == ErrorStorage then "storage"
  else if code == ErrorInternal then "internal"
  else "validation".

(** An empty map becomes nil. *)
Definition cloneDetails (details : payload) : option payload := if bool_decide (details = ∅) then None else Some details.

Definition NewCategorizedError (code category message : string) (exitCode : Z) (details : payload) (next : list string)
    : StructuredError :=
  mk_structured code category message (cloneDetails details) next exitCode.

Definition NewError (code message : string) (exitCode : Z) (details : payload) : StructuredError :=
  NewCategorizedError code (categoryForCode code) message exitCode details [].

Definition UnsupportedFeature (feature : string) : StructuredError :=
  NewError ErrorUnsupportedFeature (feature +:+ " is not implemented in DAEMN-001") ExitUsage {[ "feature" := AStr feature ]}.

Definition DaemonUnavailable (message : string) : StructuredError :=
  NewError ErrorDaemonUnavailable (if message == "" then "daemon is unavailable" else message) ExitDaemonUnavailable ∅.

Definition UnsafeRuntime (message : string) (details : payload) : StructuredError := NewError ErrorUnsafe message ExitUnsafe details.

Definition StorageFailure (message : string) (details : payload) : StructuredError :=
  NewError ErrorStorage message ExitStorage details.

Definition InternalError (message : string) : StructuredError :=
  NewError ErrorInternal (if message == "" then "internal error" else message) ExitInternal ∅.

(** An error of Go: one of the protocol, or any other, known by its text. *)
Inductive go_error :=
| Structured (e : StructuredError)
| Plain (text : string).

Definition ClassifyExit (err : option go_error) : Z :=
  match err with
  | None => ExitOK
  | Some (Structured e) => if se_exit_code e =? 0 then ExitInternal else se_exit_code e
  | Some (Plain _) => ExitInternal
  end.

Definition ToStructuredError (err : go_error) : StructuredError :=
  match err with
  | Structured e =>
      mk_structured (se_code e) (if se_category e == "" then categoryForCode (se_code e) else se_category e) (se_message e)
        (match se_details e with Some d => cloneDetails d | None => None end) (se_next e) (se_exit_code e)
  | Plain text => InternalError text
  end.

(** ** Responses (command.go) *)

Record CommandResponse := mk_response {
  cp_schema_version : Z; cp_request_id : string; cp_ok : bool; cp_result : option payload; cp_error : option StructuredError }.

Definition SuccessResponse (r : CommandRequest) (result : payload) : CommandResponse :=
  mk_response SchemaVersion (cr_request_id r) true (Some result) None.

Definition ErrorResponse (r : CommandRequest) (err : go_error) : CommandResponse :=
  mk_response SchemaVersion (cr_request_id r) false None (Some (ToStructuredError err)).

(** ** Versions and features (version.go, features.go) *)

Definition ProtocolVersion : string := "atn-protocol-v1alpha0".
Definition ControlVersion : string := "v0.1.0".
Definition DaemonVersion : string := ControlVersion.

Definition FeatureVersionRead : string := "version.read".
Definition FeatureStatusRead : string := "status.read".
Definition FeatureDiagnosticsRead : string := "diagnostics.read".
Definition FeatureStreamReplay : string := "stream.replay".
Definition FeatureStreamAck : string := "stream.ack".
Definition FeatureStreamStatus : string := "stream.status".
Definition FeatureTranscriptRender : string := "transcript.render".
Definition FeatureExportBundle : string := "export.bundle".

Definition RequiredFeatureGroups : list string :=
  [FeatureVersionRead; FeatureStatusRead; FeatureDiagnosticsRead; "command_envelope"; "event_envelope"; "structured_error";
   "stream_frame"; FeatureStreamReplay; "stream.follow"; FeatureStreamAck; FeatureStreamStatus; "active_session.lock";
   "delivery_evidence"; "conformance.fixtures"; "council.lifecycle"; FeatureTranscriptRender; FeatureExportBundle].

Record VersionFeatures := mk_features {
  vf_schema_version : Z; vf_protocol : string; vf_daemon : string; vf_min_plugin : string; vf_live : bool;
  vf_features : list string; vf_groups : list string; vf_manifest : string }.

Definition NewVersionFeatures : VersionFeatures :=
  mk_features SchemaVersion ProtocolVersion DaemonVersion ProtocolVersion true RequiredFeatureGroups RequiredFeatureGroups
    "testdata/conformance/manifest.json".

Definition features_json (v : VersionFeatures) : any :=
  AStruct [("schema_version", AInt (vf_schema_version v)); ("protocol_version", AStr (vf_protocol v));
           ("daemon_version", AStr (vf_daemon v)); ("min_plugin_protocol_version", AStr (vf_min_plugin v));
           ("live_readiness", ABool (vf_live v)); ("features", AStrs (vf_features v)); ("feature_groups", AStrs (vf_groups v));
           ("fixture_manifest", AStr (vf_manifest v))].

Definition readOnlyFeature (feature : string) : bool :=
  mem_str feature
    [FeatureVersionRead; FeatureStatusRead; FeatureDiagnosticsRead; FeatureStreamReplay; "stream.follow"; FeatureStreamStatus;
     FeatureTranscriptRender; FeatureExportBundle; "command_envelope"; "event_envelope"; "structured_error"; "stream_frame";
     "conformance.fixtures"].

Definition FeatureCapabilityState (groups : list string) : payload :=
  list_to_map (map (fun f => (f, AMap {[ "state" := AStr "supported"; "read_only" := ABool (readOnlyFeature f) ]})) groups).
