(* ===== verification/Daemon.v ===== *)
(** * The requests of the daemon (daemon/server.go, daemon/daemn002.go,
    daemon/delegation_handlers.go, daemon/council_handlers.go)

    [Handle] takes a request to its handler: the handler decodes the parameters,
    loads the session that the request names, calls the storage package and puts
    the result or the error into a response.  Requests are handled one at a time;
    Concurrency.v has those that overlap. *)

From S2P Require Import Prelude Paths GoValue GoTime Model Ids Registry Evidence Events Command Delegation Stream EventCodec Lifecycle ArgumentGraph Council Session SessionStart Readiness PromptBuilder RunnerDispatch SpeakerDispatch GrantDispatch Unmarshal Requests CouncilIntent Transcript ExportBundle QualityStatus CouncilStatus Protocol.

(** ** Errors *)

(** What the daemon needs to know of an error of another package. *)
Class GoError (E : Type) := {
  storage_error : E -> option error;   (* storage.IsValidationError *)
  go_text : E -> string }.

#[global] Instance error_go : GoError error := { storage_error e := Some e; go_text := error_text }.
#[global] Instance reg_error_go : GoError reg_error := { storage_error _ := None; go_text := reg_text }.

#[global] Instance session_error_go : GoError session_error := {
  storage_error e := match e with EStored e => Some e | ERegistry _ => None end;
  go_text e := match e with EStored e => error_text e | ERegistry e => reg_text e end }.

#[global] Instance run_error_go : GoError run_error := {
  storage_error e := match e with RunStorage e => Some e | _ => None end;
  go_text := run_error_text }.

#[global] Instance bundle_error_go : GoError bundle_error := {
  storage_error e := match e with BundleInvalid e => Some e | BundleSystem _ => None end;
  go_text e := match e with BundleInvalid e => error_text e | BundleSystem text => text end }.

Definition is_conflict (i : Issue) : bool := is_category i == CategoryCommandConflict.

(** fmt.Sprint of issues *)
Definition issues_text (issues : list Issue) : string := "[" +:+ join " " (map Issue_String issues) +:+ "]".

(** The first conflict among the issues decides. *)
Definition validation_response (e : error) : StructuredError :=
  match find_first is_conflict (Issues e) with
  | Some i =>
      if is_path i == "active_session"
      then NewCategorizedError "active_session_locked" "concurrency" (is_message i) ExitActiveSession {[ "path" := AStr (is_path i) ]} []
      else NewError ErrorValidation (is_message i) ExitUsage {[ "category" := AStr (is_category i); "path" := AStr (is_path i) ]}
  | None => NewError ErrorValidation (error_text e) ExitUsage {[ "issues" := AStr (issues_text (Issues e)) ]}
  end.

Definition daemonProtocolError {E} `{!GoError E} (err : E) : go_error :=
  match storage_error err with
  | Some e => Structured (validation_response e)
  | None => Plain (go_text err)
  end.

Definition reply {E} `{!GoError E} (r : CommandRequest) (res : result E payload) : CommandResponse :=
  match res with
  | Ok p => SuccessResponse r p
  | Err err => ErrorResponse r (daemonProtocolError err)
  end.

(** ** State *)

(** [dm_bytes] are the contents of files, for export bundles. *)
Record daemon_state := mk_daemon {
  dm_home : home; dm_bytes : gmap string string; dm_ready : bool; dm_started : option time }.

Definition with_home (st : daemon_state) (h : home) : daemon_state := mk_daemon h (dm_bytes st) (dm_ready st) (dm_started st).

Definition with_sessions (st : daemon_state) (ss : sessions) : daemon_state := with_home st (set_sessions (dm_home st) ss).

(** What the operating system, the clock and other processes do while a request is
    handled: the readings of the clock, the faults, what polls of the log find, and
    what the checks of other parts of the program say. *)
Record request_env := mk_env {
  en_clock : nat -> time; en_wall : time; en_faults : list (option append_fault);
  en_create : option create_fault; en_cleanup : bool; en_registry_fault : bool; en_staged : time; en_created : time;
  en_flags : list string; en_polls : list (result error LogIndex); en_after_replay : result error unit;
  en_ingested : result error (list payload); en_file_faults : list (option file_fault);
  en_storage : result (string * string) (string * Z); en_socket : string }.

Definition en_now (env : request_env) : time := en_clock env 0%nat.
Definition en_fault (env : request_env) : option append_fault := default None (head (en_faults env)).

(** ** Fields of results *)

Definition append_result_json (a : AppendResult) : any :=
  AStruct [("cursor", AStr (ar_cursor a)); ("offset", AInt (ar_offset a)); ("event_id", AStr (ar_event_id a))].

(** eventAppendResponse *)
Definition eventAppendResponse (a : AppendResult * bool) : payload := append_response a.1 a.2.

Definition structToMap (value : any) : payload :=
  match json_norm value with
  | AMap m => m
  | _ => ∅
  end.

Definition statusForPhase (phase : Phase) : Status :=
  if mem_str phase ["accepted"; "cancelled"; "finalized"; "unresolved"] then StatusTerminal
  else if phase == "blocked" then StatusBlocked
  else StatusOpen.

Definition sessionPhaseStatus (sd : session_dir) (md : SessionMetadata) : result error (Phase * Status) :=
  try ix := ReadLogIndex sd md in
  let phase := match last (ix_events ix) with Some e => ev_phase e | None => st_phase (md_state md) end in
  Ok (phase, statusForPhase phase).

Definition or_nil {A} (json : A -> any) (o : option A) : any := from_option json ANil o.

Definition RuntimeDir (dataHome : string) : string := Join [Clean dataHome; "run"].
Definition SocketPath (dataHome : string) : string := Join [RuntimeDir dataHome; "atn-controld.sock"].

Definition redactedCategory (status detail : string) : any :=
  AMap (if detail == "" then {[ "status" := AStr status ]} else {[ "status" := AStr status; "detail" := AStr "[REDACTED]" ]}).

Definition readinessStatus (ready : bool) : string := if ready then "ready" else "not_ready".

Definition enabledCount (loaded : LoadedRegistry) : Z :=
  len_z (List.filter (fun kv => me_enabled kv.2) (map_to_list (rg_members (ld_registry loaded)))).

Definition addCompatibilityEvidence (result : payload) : payload :=
  let v := NewVersionFeatures in
  list_to_map
    [("schema_version", AInt (vf_schema_version v)); ("protocol_version", AStr (vf_protocol v)); ("daemon_version", AStr (vf_daemon v));
     ("min_plugin_protocol_version", AStr (vf_min_plugin v)); ("live_readiness", ABool (vf_live v));
     ("features", AStrs (vf_features v)); ("feature_groups", AStrs (vf_groups v)); ("fixture_manifest", AStr (vf_manifest v));
     ("capability_state", AMap (FeatureCapabilityState (vf_groups v)))] ∪ result.

Section server.
(** The settings of the server; the regular expressions, digests and file handles
    that the registry uses; the registry snapshot of a session (LoadSnapshot of
    Registry.v); the runner and the poster of visible messages; what session.yaml
    says of costs and escalations; and which recipient lists are nil. *)
Context (dataHome : string) (srv : server) (ru : Runtime).
Context (compile_error : string -> option string) (digest : registry_doc -> string) (opened : file_info -> file_info)
  (new_file : file_info) (meanwhile : reg_world -> reg_world) (snapshot : home -> string -> result reg_error LoadedRegistry).
Context (send : sessions -> runner_request -> sessions * (runner_result * option string)) (visible : option visible_sender).
Context (stored_of : SessionMetadata -> stored_summaries) (nil_to : EventEnvelope -> bool).

Definition loadSession (st : daemon_state) (sessionID : string) : result error (SessionMetadata * session_dir) :=
  reject sessionID == "" with NewValidationError CategoryInvalidSessionID "session_id" "session id is required";;
  try dir := SessionDir dataHome sessionID in
  match hm_sessions (dm_home st) !! sessionID with
  | None => Err (NewValidationError CategorySessionUnsafe dir (no_entry dir))
  | Some sd => try md := LoadSessionYAML sd in Ok (md, sd)
  end.

Definition session_param (r : CommandRequest) : string := stringParam r "session_id".

(** A handler that reads the session of the request. *)
Definition read_request (st : daemon_state) (r : CommandRequest)
    (answer : SessionMetadata -> session_dir -> result error payload) : daemon_state * CommandResponse :=
  (st, reply r (try loaded := loadSession st (session_param r) in answer loaded.1 loaded.2)).

(** A handler that records an event with one command of the storage package. *)
Definition record_request {C} `{!Command C} (st : daemon_state) (env : request_env) (r : CommandRequest)
    (command : SessionMetadata -> C) : daemon_state * CommandResponse :=
  match loadSession st (session_param r) with
  | Err err => (st, ErrorResponse r (daemonProtocolError err))
  | Ok (md, _) =>
      let '(w, res) := run_command (session_param r) (mk_world (hm_sessions (dm_home st)) md) (en_wall env) (command md) (en_fault env) in
      (with_sessions st (wd_sessions w), reply r (eventAppendResponse <$> res))
  end.

(** ** Reading *)

Definition tail_frames (limit : Z) (frames : list StreamFrame) : list StreamFrame :=
  let limit := if limit <=? 0 then 20 else limit in
  if limit <? len_z frames then drop (Z.to_nat (len_z frames - limit)) frames else frames.

Definition frames_json (frames : list StreamFrame) : any := AList (map (frame_json nil_to) frames).

Definition handleTailSession (st : daemon_state) (env : request_env) (r : CommandRequest) : daemon_state * CommandResponse :=
  read_request st r (fun md sd =>
    try frames := ReplayStream (ReadLogIndex sd md) (mk_replay true "" false) (en_polls env) in
    Ok {[ "frames" := frames_json (tail_frames (intParam r "limit") frames) ]}).

Definition handleStreamStatus (st : daemon_state) (env : request_env) (r : CommandRequest) : daemon_state * CommandResponse :=
  read_request st r (fun md sd =>
    try status := StreamStatusFromLogAt (en_wall env) md (ReadLogIndex sd md) (en_now env) in Ok (structToMap status)).

Definition handleTranscriptRender (st : daemon_state) (r : CommandRequest) : daemon_state * CommandResponse :=
  read_request st r (fun md sd =>
    let format := if stringParam r "format" == "" then TranscriptMarkdownFormat else stringParam r "format" in
    try content := RenderTranscript sd md (ss_cost (stored_of md)) nil_to format in
    Ok {[ "session_id" := AStr (md_id md); "format" := AStr format; "content" := AStr content ]}).

Definition handleEscalationBatches (st : daemon_state) (r : CommandRequest) : daemon_state * CommandResponse :=
  read_request st r (fun md sd =>
    try ix := ReadLogIndex sd md in
    Ok {[ "session_id" := AStr (md_id md); "batches" := AList (map batch_json (ListEscalationBatches ix)) ]}).

Definition handleLimitsShow (st : daemon_state) (r : CommandRequest) : daemon_state * CommandResponse :=
  read_request st r (fun md sd =>
    try ps := sessionPhaseStatus sd md in
    try limits := EffectiveLimits sd md in
    Ok {[ "session_id" := AStr (md_id md); "session_type" := AStr (md_session_type md); "phase" := AStr ps.1; "status" := AStr ps.2;
          "limits" := limits_json limits; "observed" := cost_summary_json (ss_cost (stored_of md));
          "escalations" := ss_escalations (stored_of md) ]}).

Definition session_fields (md : SessionMetadata) (phase : Phase) (status : Status) (limits : Limits) : payload :=
  list_to_map
    [("session_id", AStr (md_id md)); ("session_type", AStr (md_session_type md)); ("title", AStr (md_title md));
     ("moderator", AStr (md_moderator md)); ("participants", AStrs (md_participants md)); ("phase", AStr phase); ("status", AStr status);
     ("created_at", AStr (time_format (md_created_at md))); ("surface", or_nil surface_json (md_surface md));
     ("turn_mode", AStr (md_turn_mode md)); ("limits", limits_json limits); ("cost", cost_summary_json (ss_cost (stored_of md)));
     ("escalations", ss_escalations (stored_of md)); ("registry_hash", AStr (sn_source_sha256 (md_registry_snapshot md)))].

Definition handleSessionStatus (st : daemon_state) (env : request_env) (r : CommandRequest) : daemon_state * CommandResponse :=
  read_request st r (fun md sd =>
    try ps := sessionPhaseStatus sd md in
    try limits := EffectiveLimits sd md in
    let fields := session_fields md ps.1 ps.2 limits in
    if boolParam r "verbose" && (md_session_type md == SessionTypeCouncil) then
      try council := CouncilStatusFromLogAt (en_wall env) md (ReadLogIndex sd md) (en_now env) in
      Ok (<["council" := AMap council]> fields)
    else Ok fields).

(** ** Streams *)

Definition heartbeat_event (md : SessionMetadata) (ix : LogIndex) (member : string) (now : time) : EventEnvelope :=
  let '(phase, cursor) := match last (ix_events ix) with
                          | Some e => (ev_phase e, cursorFor (len_z (ix_events ix) - 1) (ev_event_id e))
                          | None => (PhaseCreated, "")
                          end in
  let suffix := member +:+ "_" +:+ unix_nano now in
  mk_event SchemaVersion ("evt_stream_subscriber_heartbeat_" +:+ suffix) ("cmd_stream_subscriber_heartbeat_" +:+ suffix) ""
    (md_id md) (md_id md) (md_session_type md) None phase "stream_subscriber_heartbeat" member [md_moderator md] now None None
    (Some {[ "member" := AStr member; "subscriber_id" := AStr ("sub_" +:+ member); "status" := AStr "heartbeat";
             "last_cursor" := AStr cursor ]}).

Definition recordStreamSubscriberHeartbeat (name : string) (w : world) (env : request_env) (member : string)
    : world * result error unit :=
  match read_session w name with
  | Err err => (w, Err err)
  | Ok ix =>
      let '(w1, res) := AppendEvent name w (heartbeat_event (wd_md w) ix member (en_now env)) (en_fault env) in
      (w1, (fun _ => tt) <$> res)
  end.

Definition replay_options (r : CommandRequest) : ReplayOptions :=
  mk_replay (boolParam r "from_start") (stringParam r "since") (boolParam r "follow").

(** The time of a follow and of its polls decides what [en_polls] has. *)
Definition handleStreamReplay (st : daemon_state) (env : request_env) (r : CommandRequest) : daemon_state * CommandResponse :=
  let sessionID := session_param r in
  let member := stringParam r "member" in
  match loadSession st sessionID with
  | Err err => (st, ErrorResponse r (daemonProtocolError err))
  | Ok (md, _) =>
      if negb (Participant md member) then
        (st, ErrorResponse r (daemonProtocolError
               (NewValidationError CategoryPrincipalInvalid "member" "member is not a session participant")))
      else
        let w := mk_world (hm_sessions (dm_home st)) md in
        let follow := boolParam r "follow" in
        let '(w1, beat) := if follow then recordStreamSubscriberHeartbeat sessionID w env member else (w, Ok tt) in
        (with_sessions st (wd_sessions w1),
         reply r (try _ := beat in
                  try frames := ReplayStreamWithAfterReplay (read_session w1 sessionID) (replay_options r) (en_after_replay env)
                                  (en_polls env) in
                  Ok {[ "frames" := frames_json frames; "follow_bounded" := ABool follow ]}))
  end.

Definition handleStreamAck (st : daemon_state) (env : request_env) (r : CommandRequest) : daemon_state * CommandResponse :=
  record_request st env r (fun _ => mk_ack (stringParam r "member") (stringParam r "cursor") (stringParam r "command_id") (en_now env)).

Definition handleDeliveryEvidence (st : daemon_state) (env : request_env) (r : CommandRequest) (kind : string)
    : daemon_state * CommandResponse :=
  record_request st env r (fun md =>
    mk_delivery kind (defaultStringParam r "reporter" (md_moderator md)) (stringParam r "escalation") (stringParam r "delivery_target")
      (stringParam r "platform") (stringParam r "message_ref") "" (stringParam r "target") (stringParam r "reason")
      (stringSliceParam r "will_retry_targets") (stringParam r "command_id") (en_now env)).

(** ** Sessions *)

Definition handleDelegationEvent (st : daemon_state) (env : request_env) (r : CommandRequest) : daemon_state * CommandResponse :=
  record_request st env r (fun _ =>
    mk_deleg_spec (delegationActionFromCommand (cr_command r)) (stringParam r "actor") (stringSliceParam r "recipients")
      (stringParam r "command_id")
      (firstNonEmpty [stringParam r "causation_event_id"; stringParam r "in_reply_to"; stringParam r "escalation"])
      (mapParam r "payload") (stringSliceParam r "artifact_source_paths") (en_ingested env) (en_now env)).

Definition actor_param (r : CommandRequest) (md : SessionMetadata) : string := defaultStringParam r "actor" (md_moderator md).

Definition handleCancel (st : daemon_state) (env : request_env) (r : CommandRequest) : daemon_state * CommandResponse :=
  record_request st env r (fun md =>
    mk_cancel (actor_param r md) (stringParam r "reason") (stringParam r "cause") (stringParam r "command_id") (en_now env)).

Definition handleBlock (st : daemon_state) (env : request_env) (r : CommandRequest) : daemon_state * CommandResponse :=
  record_request st env r (fun md =>
    mk_block (actor_param r md) (stringParam r "category") (stringParam r "reason") (stringParam r "command_id") (en_now env)).

Definition handleResume (st : daemon_state) (env : request_env) (r : CommandRequest) : daemon_state * CommandResponse :=
  record_request st env r (fun md =>
    mk_resume (actor_param r md) (stringParam r "blocked_event_id") (stringParam r "reason") (stringParam r "command_id") (en_now env)).

Definition handleLimitsExtend (st : daemon_state) (env : request_env) (r : CommandRequest) : daemon_state * CommandResponse :=
  record_request st env r (fun md =>
    mk_extend (actor_param r md) (stringParam r "authorized_by") (stringParam r "blocked_event_id")
      (default ∅ (mapParam r "changes")) (stringParam r "reason") (stringParam r "command_id") (en_now env)).

(** The command of a council, with the readiness checks and the dispatch around it. *)
Definition council_event_request (st : daemon_state) (env : request_env) (r : CommandRequest) : daemon_state * CommandResponse :=
  let sessionID := session_param r in
  match loadSession st sessionID with
  | Err err => (st, ErrorResponse r (daemonProtocolError err))
  | Ok (md, _) =>
      let '(run, res) := handleCouncilEvent sessionID (en_clock env) (en_wall env) srv (snapshot (dm_home st) sessionID) send visible
                           (mk_run (mk_world (hm_sessions (dm_home st)) md) 0 (en_faults env) [] [])
                           (mk_request (councilActionFromCommand (cr_command r)) (stringParam r "actor") (stringParam r "command_id")
                              (stringParam r "causation_event_id") (mapParam r "payload")) in
      (with_sessions st (wd_sessions (dp_world run)), reply r res)
  end.

Definition started_fields (s : started) : payload :=
  let '(md, results, dedup) := s in
  {[ "session_id" := AStr (md_id md); "results" := AList (map append_result_json results); "deduplicated" := ABool dedup ]}.

Definition council_new_request (st : daemon_state) (env : request_env) (r : CommandRequest) : daemon_state * CommandResponse :=
  let spec_now := if stringParam r "session_id" == "" then en_clock env 1%nat else en_now env in
  match council_new_spec srv (en_flags env) r (en_now env) spec_now with
  | Err err => (st, ErrorResponse r (daemonProtocolError err))
  | Ok spec =>
      let '(h, res) := handleCouncilNew compile_error digest opened new_file meanwhile (dm_home st) dataHome spec (en_wall env) ru
                         (en_registry_fault env) (en_create env) (en_cleanup env) in
      (with_home st h,
       reply r ((fun made : started * ReconcileReport =>
                   match rc_added made.2 with
                   | [] => started_fields made.1
                   | added => <["registry_reconcile" := AMap {[ "added" := AStrs added; "source_sha256" := AStr (rc_after made.2) ]}]>
                                (started_fields made.1)
                   end) <$> res))
  end.

Definition delegate_new_spec (r : CommandRequest) (limits : Limits) (now : time) : DelegationStartSpec :=
  let sessionID := session_param r in
  let moderator := stringParam r "moderator" in
  let assignee := stringParam r "assignee" in
  let participants := match stringSliceParam r "participants" with [] => compactStrings [moderator; assignee] | l => l end in
  mk_delegation_start
    (mk_spec sessionID SessionTypeDelegation (stringParam r "title") moderator participants (surfaceParam r) ∅
       (linkedAuthorityParam r) None (stringParam r "turn_mode") limits
       (or_else (stringParam r "event_id") ("evt_session_created_" +:+ sessionID))
       (or_else (stringParam r "command_id") ("cmd_delegate_new_" +:+ sessionID)) (stringParam r "correlation_id"))
    assignee (stringParam r "task") (stringParam r "context") (stringSliceParam r "acceptance") (stringSliceParam r "expected_outputs")
    (or_else (stringParam r "assignment_event_id") ("evt_task_assigned_" +:+ sessionID)) now.

Definition handleDelegateNew (st : daemon_state) (env : request_env) (r : CommandRequest) : daemon_state * CommandResponse :=
  match Load compile_error digest (hm_reg (dm_home st)) opened dataHome ru with
  | Err err => (st, ErrorResponse r (daemonProtocolError err))
  | Ok loaded =>
      match limitsParam r with
      | Err err => (st, ErrorResponse r (daemonProtocolError err))
      | Ok limits =>
          let '(h, res) := CreateDelegation (dm_home st) dataHome (Some loaded) (delegate_new_spec r limits (en_now env)) (en_wall env)
                             (en_staged env) (en_created env) ru (en_create env) (en_cleanup env) (en_fault env) in
          (with_home st h, reply r (started_fields <$> res))
      end
  end.

(** ** Exports *)

Definition with_files (st : daemon_state) (w : bundle_world) : daemon_state :=
  mk_daemon (set_nodes (dm_home st) (bw_nodes w)) (bw_bytes w) (dm_ready st) (dm_started st).

Definition bundle_result_json (b : ExportBundleResult) : any :=
  AStruct [("session_id", AStr (br_session b)); ("bundle_dir", AStr (br_dir b)); ("files", AStrs (br_files b))].

(** A bundle that is written over the files of a session is not seen by its log in
    [dm_home]; BundleTheory.v has that case. *)
Definition handleExportBundle (st : daemon_state) (env : request_env) (r : CommandRequest) : daemon_state * CommandResponse :=
  match loadSession st (session_param r) with
  | Err err => (st, ErrorResponse r (daemonProtocolError err))
  | Ok (md, sd) =>
      let '(w, res) := BuildExportBundle (mk_bundle_world (hm_fs (dm_home st)) (dm_bytes st)) ru sd md (stored_of md) nil_to
                         (stringParam r "output_path") (en_file_faults env) in
      (with_files st w, reply r ((fun b => structToMap (bundle_result_json b)) <$> res))
  end.

(** ** The daemon itself (server.go) *)

Definition statusResult (st : daemon_state) : payload :=
  let fields := {[ "daemon" := AStr "running"; "ready" := ABool (dm_ready st); "socket" := AStr (SocketPath dataHome);
                   "data_home" := AStr dataHome ]} in
  match dm_started st with
  | Some t => <["started_at" := AStr (time_format t)]> fields
  | None => fields
  end.

Definition statusReadResult (st : daemon_state) : payload :=
  addCompatibilityEvidence
    (<["operational_readiness" := AMap {[ "ready" := ABool (dm_ready st); "daemon" := AStr "running" ]}]> (statusResult st)).

Definition data_home_category (st : daemon_state) : bool * any :=
  match ValidateDataHome (hm_fs (dm_home st)) dataHome ru with
  | Err err => (false, redactedCategory "invalid" (reg_text err))
  | Ok _ => (true, redactedCategory "valid" "")
  end.

Definition registry_category (st : daemon_state) : bool * any :=
  match Load compile_error digest (hm_reg (dm_home st)) opened dataHome ru with
  | Err err => (false, redactedCategory "invalid" (reg_text err))
  | Ok loaded =>
      (true, AMap {[ "status" := AStr "valid"; "schema_version" := AInt (EffectiveSchemaVersion (ld_registry loaded));
                     "enabled_members" := AInt (enabledCount loaded) ]})
  end.

(** What VerifyStorage reports: a status and a number of events, or a status, if
    there is one, and an error. *)
Definition storage_category (env : request_env) : any :=
  match en_storage env with
  | Ok (status, count) => AMap {[ "status" := AStr status; "source_events" := AInt count ]}
  | Err (status, text) => redactedCategory (if status == "" then "invalid" else status) text
  end.

Definition healthResult (st : daemon_state) (env : request_env) : payload :=
  let data := data_home_category st in
  let reg := registry_category st in
  let ready := data.1 && reg.1 in
  {[ "ready" := ABool ready;
     "categories" := AMap {[ "data_home" := data.2; "registry" := reg.2; "storage" := storage_category env;
                             "socket" := AMap {[ "status" := AStr (en_socket env) ]}; "liveness" := AMap {[ "status" := AStr "alive" ]};
                             "readiness" := AMap {[ "status" := AStr (readinessStatus ready) ]} ]} ]}.

Definition diagnosticsReadResult (st : daemon_state) (env : request_env) : payload := addCompatibilityEvidence (healthResult st env).

(** ** Dispatch *)

Definition delegation_commands : list string :=
  ["delegate.ack"; "delegate.message"; "delegate.clarify"; "delegate.answer_clarification"; "delegate.update";
   "delegate.request_update"; "delegate.submit"; "delegate.review"; "delegate.review_question"; "delegate.review_answer";
   "delegate.review_submit"; "delegate.revise"; "delegate.accept"; "delegate.escalate"; "delegate.escalation_flush";
   "delegate.resolve_escalation"].

Definition council_commands : list string :=
  ["council.request_attendance"; "council.attend"; "council.lock_agenda"; "council.prepare"; "council.ready";
   "council.prepared_partial"; "council.poll"; "council.hand_raise"; "council.drop"; "council.grant"; "council.speak";
   "council.intervene"; "council.propose"; "council.revise"; "council.request_vote"; "council.vote"; "council.finalize";
   "council.unresolved"].

(** [None]: the command is not known. *)
Definition handleDAEMN002 (st : daemon_state) (env : request_env) (r : CommandRequest) : option (daemon_state * CommandResponse) :=
  let c := cr_command r in
  if mem_str c [FeatureVersionRead; "version.features"]
  then Some (st, SuccessResponse r (structToMap (features_json NewVersionFeatures)))
  else if c == FeatureStreamReplay then Some (handleStreamReplay st env r)
  else if c == FeatureStreamAck then Some (handleStreamAck st env r)
  else if c == FeatureStreamStatus then Some (handleStreamStatus st env r)
  else if c == "delegate.escalation_delivered" then Some (handleDeliveryEvidence st env r "delivered")
  else if c == "delegate.escalation_delivery_failed" then Some (handleDeliveryEvidence st env r "delivery_failed")
  else if c == "delegate.new" then Some (handleDelegateNew st env r)
  else if c == "council.new" then Some (council_new_request st env r)
  else if mem_str c delegation_commands then Some (handleDelegationEvent st env r)
  else if c == "delegate.escalation_batches" then Some (handleEscalationBatches st r)
  else if mem_str c council_commands then Some (council_event_request st env r)
  else if c == "cancel" then Some (handleCancel st env r)
  else if mem_str c ["block"; "delegate.block"] then Some (handleBlock st env r)
  else if c == "resume" then Some (handleResume st env r)
  else if c == "limits.show" then Some (handleLimitsShow st r)
  else if c == "limits.extend" then Some (handleLimitsExtend st env r)
  else if c == "status.session" then Some (handleSessionStatus st env r)
  else if c == FeatureTranscriptRender then Some (handleTranscriptRender st r)
  else if c == FeatureExportBundle then Some (handleExportBundle st env r)
  else if c == "tail.session" then Some (handleTailSession st env r)
  else None.

Definition unsupported_schema (r : CommandRequest) : StructuredError :=
  NewError ErrorValidation "unsupported command schema_version" ExitUsage {[ "schema_version" := AInt (cr_schema_version r) ]}.

Definition handle_request (st : daemon_state) (env : request_env) (r : CommandRequest) : daemon_state * CommandResponse :=
  let c := cr_command r in
  if negb (cr_schema_version r =? 0) && negb (cr_schema_version r =? SchemaVersion)
  then (st, ErrorResponse r (Structured (unsupported_schema r)))
  else if c == "ping" then (st, SuccessResponse r {[ "ready" := ABool (dm_ready st) ]})
  else if c == "status" then (st, SuccessResponse r (statusResult st))
  else if c == FeatureStatusRead then (st, SuccessResponse r (statusReadResult st))
  else if c == "health" then (st, SuccessResponse r (healthResult st env))
  else if c == FeatureDiagnosticsRead then (st, SuccessResponse r (diagnosticsReadResult st env))
  else if c == "shutdown" then (st, SuccessResponse r {[ "stopping" := ABool true ]})
  else match handleDAEMN002 st env r with
       | Some answer => answer
       | None => (st, ErrorResponse r (Structured (UnsupportedFeature c)))
       end.
End server.
