(* ===== verification/GrantFrame.v ===== *)
(** * What a council command can touch (daemon/council_handlers.go)

    Any property of the sessions that appends to one session, the runner and the
    poster of messages keep is kept by the whole handler of a council command: its
    readiness checks, the event itself and the dispatch after a grant. *)

From S2P Require Import Prelude GoValue GoTime Model Ids Sha256 Evidence Events EventLog Command Delegation Registry MemberRuntime SelectedRunner Council Readiness PromptEvidence PromptBuilder RunnerDispatch SpeakerDispatch GrantDispatch.

Section frame.
Context (I : sessions -> Prop) (name : string) (clock : nat -> time) (wall : time) (srv : server)
  (snapshot : result reg_error LoadedRegistry)
  (send : sessions -> runner_request -> sessions * (runner_result * option string)) (visible : option visible_sender).
Context (append_keeps : forall w e fault, I (wd_sessions w) -> I (wd_sessions (AppendEvent name w e fault).1))
  (send_keeps : forall ss q, I ss -> I (send ss q).1)
  (visible_keeps : forall post ss q, visible = Some post -> I ss -> I (post ss q).1).

Abbreviation holds st := (I (wd_sessions (dp_world st))).

Lemma read_clock_holds st : holds st -> holds (read_clock clock st).1.
Proof. done. Qed.

Lemma append_event_holds st e : holds st -> holds (append_event name st e).1.
Proof. intros H. unfold append_event. pose proof (append_keeps (dp_world st) e (default None (head (dp_faults st))) H). by destruct (AppendEvent _ _ _ _). Qed.

Lemma send_request_holds st q : holds st -> holds (send_request send st q).1.
Proof. intros H. unfold send_request. pose proof (send_keeps (wd_sessions (dp_world st)) q H). by destruct (send _ _). Qed.

Lemma run_command_holds {C} `{!Command C} w c fault t : I (wd_sessions w) -> I (wd_sessions (run_command name w t c fault).1).
Proof.
  intros H. destruct (run_command name w t c fault) as [w' r] eqn:Hrun. apply run_command_cases in Hrun as [[-> _]|(ix & e & _ & _ & Ha & _)]; [done|].
  unfold appendIdempotentEvent in Ha. cbv zeta in Ha.
  destruct (if _ == "" then _ else _); [by injection Ha as <- _|].
  match type of Ha with context [AppendEvent name w ?e ?f] => pose proof (append_keeps w e f H) end.
  destruct (AppendEvent _ _ _ _). by injection Ha as <- _.
Qed.

Lemma base_event_holds member st req typ inv source k r p : holds st -> holds (baseEvent clock member st req typ inv source k r p).1.
Proof. done. Qed.

Lemma appendTerminal_holds member st req typ inv source k r p :
  holds st -> holds (appendTerminal name clock member st req typ inv source k r p).1.1.
Proof.
  intros H. unfold appendTerminal. destruct (baseEvent _ _ _ _ _ _ _ _ _ _) as [st1 e] eqn:Hb.
  assert (Hst : holds st1) by (change st1 with (st1, e).1; rewrite <- Hb; by apply base_event_holds).
  pose proof (append_event_holds st1 (set_cost e (CostRaw (rt_cost r))) Hst). by destruct (append_event _ _ _).
Qed.

Lemma close_attempt_holds member st req typ inv source k r p out :
  holds st -> holds (close_attempt name clock member st req typ inv source k r p out).1.
Proof.
  intros H. unfold close_attempt. pose proof (appendTerminal_holds member st req typ inv source k r p H).
  by destruct (appendTerminal _ _ _ _ _ _ _ _ _ _ _) as [[]].
Qed.

(** A validator that keeps the property. *)
Definition validator_holds (req : RunnerDispatchRequest) : Prop :=
  forall validate w e, dq_validator req = Some validate -> I (wd_sessions w) -> I (validate w e).1.1.

Lemma buildSuccessTerminal_holds member st req typ inv source k r p :
  validator_holds req -> holds st -> holds (buildSuccessTerminal clock member st req typ inv source k r p).1.
Proof.
  intros Hv H. unfold buildSuccessTerminal. destruct (baseEvent _ _ _ _ _ _ _ _ _ _) as [st1 e] eqn:Hb.
  assert (Hst : holds st1) by (change st1 with (st1, e).1; rewrite <- Hb; by apply base_event_holds).
  destruct (dq_validator req) as [validate|] eqn:Hval; [|done]. unfold run_validator.
  pose proof (Hv validate (dp_world st1) (set_cost e (CostRaw (rt_cost r))) Hval Hst) as Hk.
  destruct (validate _ _) as [[ss posted] [e2|err]]; [|done].
  match goal with |- holds (let '(_, _) := ?b in _).1 => destruct b as [st3 again] eqn:Hb3 end.
  change st3 with (st3, again).1. rewrite <- Hb3. by apply base_event_holds.
Qed.

Lemma finish_attempt_holds member st req inv source maxRetries k r err out :
  validator_holds req -> holds st -> holds (finish_attempt name clock member st req inv source maxRetries k r err out).1.
Proof.
  intros Hv H. unfold finish_attempt. destruct (_ || _); [by apply close_attempt_holds|].
  destruct (_ && _); [|destruct (_ || _); [by apply close_attempt_holds | done]]. unfold finish_ok.
  destruct (negb _); [by apply close_attempt_holds|].
  match goal with |- context [buildSuccessTerminal ?c ?m ?s ?q ?t ?i ?so ?a ?re ?pp] =>
    pose proof (buildSuccessTerminal_holds m s q t i so a re pp Hv H) as Hb; destruct (buildSuccessTerminal c m s q t i so a re pp) as [st1 [terminal|e]] end;
    [|by apply close_attempt_holds].
  match goal with |- context [appendTerminal ?n ?c ?m ?s ?q ?t ?i ?so ?a ?re ?pp] =>
    pose proof (appendTerminal_holds m s q t i so a re pp Hb) as Ht; destruct (appendTerminal n c m s q t i so a re pp) as [[st2 succeeded] [a'|e]] end;
    [|done].
  pose proof (append_event_holds st2 terminal Ht). by destruct (append_event _ _ _).
Qed.

Lemma appendStarted_holds member st req inv source k : holds st -> holds (appendStarted name clock member st req inv source k).1.
Proof.
  intros H. unfold appendStarted. destruct (baseEvent _ _ _ _ _ _ _ _ _ _) as [st1 e] eqn:Hb.
  apply append_event_holds. change st1 with (st1, e).1. rewrite <- Hb. by apply base_event_holds.
Qed.

Lemma appendRetry_holds member st req k prior : holds st -> holds (appendRetry name clock member st req k prior).1.
Proof. intros H. unfold appendRetry. cbn. by apply append_event_holds. Qed.

Lemma attempt_once_holds member st req source maxRetries k prior out :
  validator_holds req -> holds st -> holds (attempt_once name clock member send st req source maxRetries k prior out).1.
Proof.
  intros Hv H. unfold attempt_once.
  assert (Hr : holds (if 1 <? k then let '(s, r) := appendRetry name clock member st req k prior in (s, append_error r) else (st, None)).1).
  { destruct (1 <? k); [|done]. pose proof (appendRetry_holds member st req k prior H). by destruct (appendRetry _ _ _ _ _ _ _). }
  destruct (if 1 <? k then _ else _) as [st0 [err|]]; [done|]. cbn [read_clock].
  match goal with |- context [appendStarted ?n ?c ?m ?s ?q ?i ?so ?a] =>
    pose proof (appendStarted_holds m s q i so a Hr) as Hs; destruct (appendStarted n c m s q i so a) as [st2 [a'|e]] end; [|done].
  match goal with |- context [send_request ?f ?s ?q] =>
    pose proof (send_request_holds s q Hs) as Hq; destruct (send_request f s q) as [st3 [r err]] end.
  by apply finish_attempt_holds.
Qed.

Lemma attempt_loop_holds member req source maxRetries : validator_holds req -> forall fuel st k prior out,
  holds st -> holds (attempt_loop name clock member send fuel st req source maxRetries k prior out).1.1.
Proof.
  intros Hv. induction fuel as [|fuel IH]; intros st k prior out H; cbn; [done|].
  pose proof (attempt_once_holds member st req source maxRetries k prior out Hv H) as Ho.
  destruct (attempt_once _ _ _ _ _ _ _ _ _ _ _) as [st' [out' err|out' err]]; [done | by apply IH].
Qed.

Lemma Dispatch_holds member kind st req : validator_holds req -> holds st -> holds (Dispatch name clock member kind send st req).1.1.
Proof. intros Hv H. unfold Dispatch. destruct (preflight _ _ _); [by apply attempt_loop_holds | done]. Qed.

(** ** The selected speaker *)

Lemma bind_holds h w p id : I (wd_sessions w) -> I (bindSelectedMemberVisibleDelivery visible h w p id).1.1.
Proof.
  intros H. unfold bindSelectedMemberVisibleDelivery. destruct (negb _); [done|]. destruct (_ == ""); [done|].
  destruct visible as [post|] eqn:Hpost; [|done]. destruct (selectedRunnerVisibleDeliveryTarget _) as [target|]; [|done].
  match goal with |- context [post ?ss ?q] => pose proof (visible_keeps post ss q eq_refl H); destruct (post ss q) as [ss' [r [err|]]] end;
    [done|]. by destruct (selectedRunnerVisibleDeliveryEvidence _ _ _ _).
Qed.

Lemma speaker_validator_holds h e prompt : validator_holds (speaker_request name wall visible h e prompt).
Proof.
  intros validate w x [= <-] H. unfold validateCanonicalSpeechTerminal. destruct (ev_payload x); [|done].
  destruct (BuildCouncilEvent _ _ _ _) as [canonical|]; [|done].
  match goal with |- context [bindSelectedMemberVisibleDelivery ?v ?h ?w ?p ?i] =>
    pose proof (bind_holds h w p i H); by destruct (bindSelectedMemberVisibleDelivery v h w p i) as [[]] end.
Qed.

Lemma append_diagnostic_holds st e p : holds st -> holds (append_diagnostic name clock st e p).1.
Proof.
  intros H. unfold append_diagnostic. cbn. match goal with |- context [append_event ?n ?s ?x] =>
    pose proof (append_event_holds s x H); by destruct (append_event n s x) end.
Qed.

Lemma Handle_holds kind h st e : holds st -> holds (Handle name clock wall kind send visible h st e).1.
Proof.
  intros H. unfold Handle. destruct (_ != _); [done|]. destruct (selectedSpeakerMember e) as [selected|]; [|done].
  destruct (selected == ""); [done|]. destruct (_ != _); [done|]. destruct (is_blank _); [done|].
  destruct (promptFor h e) as [prompt|text].
  - match goal with |- context [Dispatch ?n ?c ?m ?k ?f ?s ?q] =>
      pose proof (Dispatch_holds m k s q (speaker_validator_holds h e prompt) H) as Hd; destruct (Dispatch n c m k f s q) as [[st1 out] err] end.
    exact Hd.
  - unfold appendPromptDiagnostic. match goal with |- context [append_diagnostic ?n ?c ?s ?x ?p] =>
      pose proof (append_diagnostic_holds s x p H); by destruct (append_diagnostic n c s x p) as [st1 [err|]] end.
Qed.

(** ** The dispatch after a grant *)

Lemma prompt_evidence_holds st e ev events : holds st -> holds (appendSelectedRunnerPromptEvidence name clock st e ev events).1.
Proof.
  intros H. unfold appendSelectedRunnerPromptEvidence. destruct (selectedRunnerPromptEvidenceRecorded _ _); [done|]. cbn.
  match goal with |- context [append_event ?n ?s ?x] => pose proof (append_event_holds s x H); by destruct (append_event n s x) end.
Qed.

Lemma diagnose_holds st e errorClass reason path extra :
  holds st -> holds (appendSelectedSpeakerDispatchDiagnostic name clock st e errorClass reason path extra).1.
Proof. apply append_diagnostic_holds. Qed.

Lemma dispatch_prompted_holds st ix e member kind :
  holds st -> holds (dispatch_prompted name clock wall srv send visible st ix e member kind).1.
Proof.
  intros H. unfold dispatch_prompted. destruct (BuildSelectedRunnerPromptEnvelope _ _ _ _) as [envelope|err]; [|by apply diagnose_holds].
  pose proof (prompt_evidence_holds st e (en_evidence envelope) (ix_events ix) H) as Hp.
  destruct (appendSelectedRunnerPromptEvidence _ _ _ _ _ _) as [st1 [err|]]; [done|].
  destruct (_ == "blocked"); [by apply diagnose_holds|].
  match goal with |- context [Handle ?n ?c ?w ?k ?f ?v ?h ?s ?x] =>
    assert (Hs : holds s) by exact Hp; pose proof (Handle_holds k h s x Hs) as Hh; destruct (Handle n c w k f v h s x) as [st2 [[|err]|]] end;
    [exact Hh | by apply diagnose_holds | exact Hh].
Qed.

Lemma dispatch_holds st id :
  holds st -> holds (dispatchSelectedSpeakerAfterGrant name clock wall srv snapshot send visible st id).1.
Proof.
  intros H. unfold dispatchSelectedSpeakerAfterGrant. destruct (read_session _ _) as [ix|]; [|done].
  destruct (find_first _ _) as [e|]; [|done]. destruct (_ != _); [done|]. destruct (selectedSpeakerDispatchRecorded _ _); [done|].
  destruct (selectedSpeakerDispatchStartedWithoutTerminal _ _); [by apply diagnose_holds|].
  destruct (selectedSpeakerMember e) as [selected|]; [|by apply diagnose_holds].
  destruct (selected == ""); [by apply diagnose_holds|]. cbn [read_clock].
  match goal with |- context [if ?b then mk_run ?w ?t ?f ?s ?p else st] => assert (Hst : holds (if b then mk_run w t f s p else st)) by (by destruct b) end.
  destruct (dispatch_target _ _ _ _ _ _ _) as [[member kind]|[[reason path] extra]]; [by apply dispatch_prompted_holds | by apply diagnose_holds].
Qed.

(** ** Before the event *)

Lemma record_all_holds t specs : forall w faults results, I (wd_sessions w) -> I (wd_sessions (record_all name w t specs faults results).1.1).
Proof.
  induction specs as [|spec specs IH]; intros w faults results H; cbn; [done|].
  pose proof (run_command_holds w spec (default None (head faults)) t H) as Hr.
  destruct (run_command _ _ _ _ _) as [w' [[a dedup]|err]]; [by apply IH | done].
Qed.

Lemma timeouts_hold request terminal spec w t now faults :
  I (wd_sessions w) -> I (wd_sessions (apply_timeouts request terminal spec name w t now faults).1.1).
Proof.
  intros H. unfold apply_timeouts. destruct (negb _); [done|]. destruct (read_session _ _) as [ix|]; [|done].
  destruct (latestEventOfType _ _) as [e|]; [|done]. destruct (now <? _); [done|]. by apply record_all_holds.
Qed.

Lemma settle_holds request terminal spec st now :
  holds st -> holds (settle name wall (apply_timeouts request terminal spec) st now).1.
Proof.
  intros H. unfold settle. pose proof (timeouts_hold request terminal spec (dp_world st) wall now (dp_faults st) H).
  by destruct (apply_timeouts _ _ _ _ _ _ _ _) as [[w done] r].
Qed.

Lemma preflight_member_holds st r : holds st -> holds (selectedMemberForGrantPreflight name clock wall st r).1.
Proof. intros H. unfold selectedMemberForGrantPreflight. by destruct (_ != ""). Qed.

Lemma preflight_diagnostic_holds st r selected report :
  holds st -> holds (appendSelectedRunnerPreflightDiagnostic name clock st r selected report).1.
Proof.
  intros H. unfold appendSelectedRunnerPreflightDiagnostic.
  match goal with |- context [let '(_, _) := ?b in _] => assert (Hb : holds b.1) by (by destruct (is_blank (cq_command_id r))); destruct b as [st1 commandID] end.
  destruct (read_session _ _) as [ix|]; [|done]. cbv zeta. destruct (existsb _ _); [done|]. cbn.
  match goal with |- context [append_event ?n ?s ?x] => pose proof (append_event_holds s x Hb); by destruct (append_event n s x) end.
Qed.

Lemma preflight_holds st r : holds st -> holds (applyCouncilRuntimePreflight name clock wall srv snapshot st r).1.
Proof.
  intros H. unfold applyCouncilRuntimePreflight. destruct (negb _); [done|]. cbn [read_clock].
  match goal with |- context [mk_run ?w ?t ?f ?s ?p] => set (st0 := mk_run w t f s p); assert (H0 : holds st0) by exact H end.
  destruct (_ == "prepare").
  { pose proof (settle_holds "attendance_requested" terminalAttendanceAfter attendance_timeout_spec st0 (clock (dp_tick st)) H0) as Hs.
    unfold ApplyAttendanceTimeouts. by destruct (settle _ _ _ _ _) as [st1 [err|]]. }
  destruct (_ == "poll").
  { pose proof (settle_holds "preparation_requested" terminalPreparationAfter preparation_timeout_spec st0 (clock (dp_tick st)) H0) as Hs.
    unfold ApplyPreparationTimeouts. by destruct (settle _ _ _ _ _) as [st1 [err|]]. }
  destruct (_ == "grant"); [|done].
  pose proof (preflight_member_holds st0 r H0) as Hm. destruct (selectedMemberForGrantPreflight _ _ _ _ _) as [st1 [selected|err]]; [|done].
  destruct (read_session _ _) as [ix|]; [|done]. destruct (rr_ready _); [done|].
  match goal with |- context [appendSelectedRunnerPreflightDiagnostic ?n ?c ?s ?q ?m ?p] =>
    pose proof (preflight_diagnostic_holds s q m p Hm); by destruct (appendSelectedRunnerPreflightDiagnostic n c s q m p) as [st2 [err|]] end.
Qed.

Lemma council_event_holds st r : holds st -> holds (handleCouncilEvent name clock wall srv snapshot send visible st r).1.
Proof.
  intros H. unfold handleCouncilEvent. pose proof (preflight_holds st r H) as Hp.
  destruct (applyCouncilRuntimePreflight _ _ _ _ _ _ _) as [st1 [err|]]; [done|]. cbn [read_clock].
  match goal with |- context [run_command ?n ?w ?t ?c ?f] =>
    assert (Hw : I (wd_sessions w)) by exact Hp; pose proof (run_command_holds w c f t Hw) as Hr; destruct (run_command n w t c f) as [w1 [[a dedup]|err]] end;
    [|done].
  match goal with |- context [dispatchSelectedSpeakerAfterGrant ?n ?c ?w ?s ?sn ?f ?v ?x ?i] =>
    assert (Hx : holds x) by exact Hr; pose proof (dispatch_holds x i Hx); by destruct (dispatchSelectedSpeakerAfterGrant n c w s sn f v x i) as [st4 [err|]] end.
Qed.
End frame.
