(* ===== verification/DaemonTheory.v ===== *)
(** * What requests to the daemon do

    A request changes nothing but the session it names, and the requests that the
    daemon declares read-only change nothing at all, but for an export and for a
    replay that follows. *)

From S2P Require Import Prelude Paths GoValue GoTime Model Ids Registry Evidence Events EventLog Command Delegation Stream Council Session SessionStart SessionTheory RunnerDispatch SpeakerDispatch GrantDispatch GrantFrame Requests CouncilIntent Transcript ExportBundle CouncilStatus Protocol Daemon Fixtures RegistryTheory RunnerDispatchTheory BundleTheory.

(** ** What a request touches *)

Section scope.
Context (dataHome : string) (srv : server) (ru : Runtime).
Context (compile_error : string -> option string) (digest : registry_doc -> string) (opened : file_info -> file_info)
  (new_file : file_info) (meanwhile : reg_world -> reg_world) (snapshot : home -> string -> result reg_error LoadedRegistry).
Context (send : sessions -> runner_request -> sessions * (runner_result * option string)) (visible : option visible_sender).
Context (stored_of : SessionMetadata -> stored_summaries) (nil_to : EventEnvelope -> bool).

(** The daemon is as it was, but for the session [name]. *)
Definition only_session (name : string) (st st' : daemon_state) : Prop :=
  exists ss, st' = with_sessions st ss /\ forall n, n <> name -> ss !! n = hm_sessions (dm_home st) !! n.

Lemma with_sessions_same st : with_sessions st (hm_sessions (dm_home st)) = st.
Proof. by destruct st as [[[] ss snap] ? ? ?]. Qed.

Lemma only_session_refl name st : only_session name st st.
Proof. exists (hm_sessions (dm_home st)). split; [by rewrite with_sessions_same | done]. Qed.

Lemma record_only {C} `{!Command C} st env r (command : SessionMetadata -> C) :
  only_session (session_param r) st (record_request dataHome st env r command).1.
Proof.
  unfold record_request. destruct (loadSession _ _ _) as [[md sd]|]; [|apply only_session_refl].
  destruct (run_command _ _ _ _ _) as [w res] eqn:Hrun. exists (wd_sessions w). split; [done|].
  intros n Hn. by eapply (run_command_frame (session_param r)) in Hrun.
Qed.

Lemma replay_only st env r : only_session (session_param r) st (handleStreamReplay dataHome nil_to st env r).1.
Proof.
  unfold handleStreamReplay. destruct (loadSession _ _ _) as [[md sd]|]; [|apply only_session_refl].
  destruct (negb _); [apply only_session_refl|]. destruct (boolParam r "follow"); [|by exists (hm_sessions (dm_home st))].
  unfold recordStreamSubscriberHeartbeat. destruct (read_session _ _) as [ix|]; [|by exists (hm_sessions (dm_home st))].
  destruct (AppendEvent _ _ _ _) as [w1 res] eqn:Ha. exists (wd_sessions w1). split; [done|].
  intros n Hn. by rewrite (append_frame _ _ _ _ _ _ Ha n Hn).
Qed.

Lemma council_only st env r
    (Hsend : forall ss q n, n <> session_param r -> (send ss q).1 !! n = ss !! n)
    (Hvisible : forall post ss q n, visible = Some post -> n <> session_param r -> (post ss q).1 !! n = ss !! n) :
  only_session (session_param r) st (council_event_request dataHome srv snapshot send visible st env r).1.
Proof.
  unfold council_event_request. destruct (loadSession _ _ _) as [[md sd]|]; [|apply only_session_refl].
  set (I := fun ss : sessions => forall n, n <> session_param r -> ss !! n = hm_sessions (dm_home st) !! n).
  match goal with |- context [handleCouncilEvent ?nm ?c ?w ?s ?sn ?f ?v ?x ?q] =>
    assert (Hk : I (wd_sessions (dp_world (handleCouncilEvent nm c w s sn f v x q).1))); [apply council_event_holds|] end.
  - intros w e fault H n Hn. destruct (AppendEvent _ _ _ _) as [w' res'] eqn:Ha. cbn [fst]. by rewrite (append_frame _ _ _ _ _ _ Ha n Hn), H.
  - intros ss q H n Hn. by rewrite Hsend, H.
  - intros post ss q Hpost H n Hn. by rewrite (Hvisible post), H.
  - by intros n Hn.
  - destruct (handleCouncilEvent _ _ _ _ _ _ _ _ _) as [run res]. by exists (wd_sessions (dp_world run)).
Qed.

Abbreviation handle := (handle_request dataHome srv ru compile_error digest opened new_file meanwhile snapshot send visible stored_of nil_to).

(** The commands that start sessions, and the one that writes files. *)
Definition wide_commands : list string := ["delegate.new"; "council.new"; FeatureExportBundle].

Lemma member_of (f : string -> bool) c l : mem_str c l = true -> forallb f l = true -> f c = true.
Proof. intros Hc Hl. apply mem_str_spec, list_elem_of_In in Hc. rewrite forallb_forall in Hl. by apply Hl. Qed.

(** A command that changes the log is not declared read-only. *)
Definition writes (c : string) : bool := negb (readOnlyFeature c).

Lemma replay_quiet st env r : boolParam r "follow" = false -> (handleStreamReplay dataHome nil_to st env r).1 = st.
Proof.
  intros H. unfold handleStreamReplay. destruct (loadSession _ _ _) as [[md sd]|]; [|done]. destruct (negb _); [done|]. rewrite H.
  apply with_sessions_same.
Qed.

(** What both halves of the scope say of a handler's result. *)
Definition in_scope (st : daemon_state) (r : CommandRequest) (st' : daemon_state) : Prop :=
  (mem_str (cr_command r) wide_commands = false -> only_session (session_param r) st st') /\
  (readOnlyFeature (cr_command r) = true -> cr_command r <> FeatureExportBundle ->
   (cr_command r = FeatureStreamReplay -> boolParam r "follow" = false) -> st' = st).

Lemma unchanged_in_scope st r : in_scope st r st.
Proof. split; [intros _; apply only_session_refl | done]. Qed.

Lemma writer_in_scope st r st' : writes (cr_command r) = true -> only_session (session_param r) st st' -> in_scope st r st'.
Proof. intros Hw H. split; [done|]. unfold writes in Hw. intros Hr. by rewrite Hr in Hw. Qed.

Lemma wide_in_scope st r st' : mem_str (cr_command r) wide_commands = true ->
  (cr_command r <> FeatureExportBundle -> writes (cr_command r) = true) -> in_scope st r st'.
Proof.
  intros Hw Hx. split; [by rewrite Hw|]. intros Hr He. specialize (Hx He). unfold writes in Hx. by rewrite Hr in Hx.
Qed.

Ltac one_command E := apply String.eqb_eq in E; rewrite E.

Lemma daemn002_scope st env r answer
    (Hsend : forall ss q n, n <> session_param r -> (send ss q).1 !! n = ss !! n)
    (Hvisible : forall post ss q n, visible = Some post -> n <> session_param r -> (post ss q).1 !! n = ss !! n) :
  handleDAEMN002 dataHome srv ru compile_error digest opened new_file meanwhile snapshot send visible stored_of nil_to st env r = Some answer ->
  in_scope st r answer.1.
Proof.
  unfold handleDAEMN002. intros H.
  repeat match type of H with (if ?b then _ else _) = _ => destruct b eqn:?; [injection H as <-|] end; [..|done];
    try apply unchanged_in_scope;
    try solve [apply writer_in_scope; [|apply record_only];
               match goal with E : (_ == _) = true |- _ => one_command E; done
                             | E : mem_str _ _ = true |- _ => by apply (member_of writes _ _ E) end];
    try solve [match goal with E : (_ == _) = true |- _ => apply wide_in_scope; one_command E; done end].
  - split; [intros _; apply replay_only|]. intros _ _ Hf.
    match goal with E : (_ == FeatureStreamReplay) = true |- _ => apply String.eqb_eq in E; by apply replay_quiet, Hf end.
  - match goal with E : mem_str _ council_commands = true |- _ => apply writer_in_scope; [by apply (member_of writes _ _ E)|] end.
    by apply council_only.
Qed.

(** C7. A request touches the session it names and nothing else: no other session, no
    registry, snapshot or file, unless it starts a session or writes a bundle; and a
    request of a feature that the daemon declares read-only changes nothing at all,
    but for the bundle, and for a replay that follows, which records a heartbeat.
    What a runner or a poster of messages does meanwhile is taken to stay in the
    session. *)
Theorem request_scope st env r
    (Hsend : forall ss q n, n <> session_param r -> (send ss q).1 !! n = ss !! n)
    (Hvisible : forall post ss q n, visible = Some post -> n <> session_param r -> (post ss q).1 !! n = ss !! n) :
  let st' := (handle st env r).1 in
  (mem_str (cr_command r) wide_commands = false -> only_session (session_param r) st st') /\
  (readOnlyFeature (cr_command r) = true -> cr_command r <> FeatureExportBundle ->
   (cr_command r = FeatureStreamReplay -> boolParam r "follow" = false) -> st' = st).
Proof.
  intros st'. change (in_scope st r st'). unfold st', handle_request. destruct (_ && _); [apply unchanged_in_scope|].
  repeat match goal with |- context [if ?c == ?x then _ else _] => destruct (c == x); [apply unchanged_in_scope|] end.
  destruct (handleDAEMN002 _ _ _ _ _ _ _ _ _ _ _ _ _ _ _ _) as [answer|] eqn:Ha; [by eapply daemn002_scope | apply unchanged_in_scope].
Qed.
End scope.

(** ** A daemon with two sessions *)

Definition dx_state : daemon_state := mk_daemon (set_sessions sx_home (wd_sessions fx_w0)) ∅ true (Some fx_now).

Definition dx_env : request_env :=
  mk_env (fun n => fx_later + Z.of_nat n) fx_later [] None true false fx_now fx_now [] [] (Ok tt) (Ok []) [] (Ok ("ok", 2)) "live".

Definition dx_server : server := mk_server 0 0 None.

Definition dx_handle (r : CommandRequest) : daemon_state * CommandResponse :=
  handle_request "/home/u/.atn" dx_server wx_ru (fun _ => None) wx_digest id (wx_info KRegular 384 1000) id
    (fun _ _ => Err (RegOther "no snapshot")) nx_send None (fun _ => bx_stored) (fun _ => false) dx_state dx_env r.

Definition dx_request (command : string) (p : payload) : CommandRequest :=
  mk_command_request 1 "req_1" command (Some (<["session_id" := AStr "sess_council"]> p)).

Definition dx_cancel : CommandRequest :=
  dx_request "cancel" {[ "reason" := AStr "done"; "cause" := AStr "user_requested"; "command_id" := AStr "cmd_cancel_1" ]}.

Lemma request_scope_witness :
  cp_ok (dx_handle dx_cancel).2 = true /\ only_session "sess_council" dx_state (dx_handle dx_cancel).1.
Proof.
  split; [vm_compute; reflexivity|].
  refine (proj1 (request_scope "/home/u/.atn" dx_server wx_ru (fun _ => None) wx_digest id (wx_info KRegular 384 1000) id
    (fun _ _ => Err (RegOther "no snapshot")) nx_send None (fun _ => bx_stored) (fun _ => false) dx_state dx_env dx_cancel _ _) _).
  - intros ss q n Hn. unfold nx_send. destruct (rq_attempt q =? 1); [|reflexivity].
    destruct (AppendEvent "sess_council" (mk_world ss fx_council_md) nx_other None) as [w res] eqn:Ha.
    exact (append_frame _ _ _ _ _ _ Ha n Hn).
  - discriminate.
  - vm_compute. reflexivity.
Defined.

(** The features of a replay are declared read-only; a replay that follows appends an
    event. *)
Example following_writes :
  let r := dx_request FeatureStreamReplay {[ "member" := AStr "ann"; "follow" := ABool true ]} in
  readOnlyFeature FeatureStreamReplay = true /\ readOnlyFeature "stream.follow" = true /\ cp_ok (dx_handle r).2 = true /\
  ((fun sd => len_z (lines_of sd)) <$> hm_sessions (dm_home (dx_handle r).1) !! "sess_council") = Some 2 /\
  ((fun sd => len_z (lines_of sd)) <$> hm_sessions (dm_home dx_state) !! "sess_council") = Some 1.
Proof. vm_compute. repeat split. Qed.

(** A session that cannot be read is reported as a validation error with exit code 1. *)
Example missing_session_reported :
  let missing := mk_command_request 1 "req_2" "limits.show" (Some {[ "session_id" := AStr "sess_missing" ]}) in
  ((fun e => (se_code e, se_exit_code e)) <$> cp_error (dx_handle missing).2) = Some ("validation_error", 1).
Proof. vm_compute. reflexivity. Qed.
