(* ===== verification/Concurrency.v ===== *)
(** * Requests that overlap (daemon/server.go, storage/events.go)

    The server answers every connection in a goroutine of its own, and nothing
    excludes two commands of a session from each other.  A command is cut here at
    its accesses to the session: it loads session.yaml, reads the log and decides,
    reads the log again in AppendEvent and checks, writes the line, and writes
    session.yaml.  A schedule says which request goes on next. *)

From S2P Require Import Prelude Paths GoValue GoTime Model Ids Evidence Events EventLog LogSpec Command Delegation DelegationTheory Fixtures Closeout Lifecycle ArgumentGraph Council CouncilTheory.

(** ** AppendEvent in two parts *)

Definition append_failed {A} (category path : string) : result error A := Err (NewValidationError category path "input/output error").

(** The line of the event is appended to the file as it is then. *)
Definition append_line (sd : session_dir) (e : EventEnvelope) (fault : option append_fault) : session_dir * result error unit :=
  let written := set_channel sd (mk_channel NRegular (lines_of sd ++ [LineEvent false (norm_event e)]) false) in
  match fault with
  | Some FaultOpen => (sd, append_failed CategoryAppendFailed (channel_path sd))
  | Some (FaultWrite partial) =>
      (set_channel sd (mk_channel NRegular (lines_of sd) partial), append_failed CategoryAppendFailed (channel_path sd))
  | Some FaultChmod | Some FaultSync | Some FaultClose => (written, append_failed CategoryAppendFailed (channel_path sd))
  | Some FaultDirSync => (written, append_failed CategoryAppendFailed (sd_path sd))
  | Some FaultYaml | None => (written, Ok tt)
  end.

(** Whether the fault comes after the line was written. *)
Definition line_written (fault : option append_fault) : bool :=
  match fault with
  | Some FaultOpen | Some (FaultWrite _) => false
  | _ => true
  end.

Definition append_yaml (sd : session_dir) (md : SessionMetadata) (ix : LogIndex) (e : EventEnvelope) (fault : option append_fault)
    : session_dir * result error AppendResult :=
  let offset := len_z (ix_events ix) in
  match fault with
  | Some FaultYaml => (sd, append_failed CategoryMetadataWrite (sd_path sd))
  | _ => (set_yaml sd (project_metadata md e), Ok (mk_append_result (cursorFor offset (ev_event_id e)) offset (ev_event_id e)))
  end.

Lemma append_io_parts sd md ix e fault :
  let '(sd1, r1) := append_line sd e fault in
  let '(sd2, md2, r2) := append_io sd md ix e fault in
  match r1 with
  | Err err => sd2 = sd1 /\ r2 = Err err
  | Ok _ => append_yaml sd1 md ix e fault = (sd2, r2)
  end.
Proof. destruct fault as [[]|]; by split || done. Qed.

(** ** Requests in progress *)

Record request (C : Type) := mk_pending { rq_session : string; rq_clock : time; rq_command : C; rq_fault : option append_fault }.
Arguments mk_pending {C}.
Arguments rq_session {C}.
Arguments rq_clock {C}.
Arguments rq_command {C}.
Arguments rq_fault {C}.

(** How far a request has come; [Answered] remembers what it wrote to the log. *)
Inductive progress :=
| Arrived
| Loaded (md : SessionMetadata)
| Proposed (md : SessionMetadata) (e : EventEnvelope)
| Checked (md : SessionMetadata) (ix : LogIndex) (e : EventEnvelope)
| Written (md : SessionMetadata) (ix : LogIndex) (e : EventEnvelope)
| Answered (written : option EventEnvelope) (r : result error (AppendResult * bool)).

Definition not_replayed (a : AppendResult) : AppendResult * bool := (a, false).

Section requests.
Context {C : Type} `{!Command C}.

(** From loading the metadata to the call of AppendEvent. *)
Definition decide_step (sd : session_dir) (md : SessionMetadata) (q : request C) : progress :=
  match precheck md (rq_command q) with
  | Err err => Answered None (Err err)
  | Ok _ =>
      match ReadLogIndex sd md with
      | Err err => Answered None (Err err)
      | Ok ix =>
          match respond (rq_clock q) md ix (rq_command q) with
          | Err err => Answered None (Err err)
          | Ok (Replay a) => Answered None (Ok (a, true))
          | Ok (Propose e) =>
              let e1 := prepareEventForAppend md ix e in
              match (if ev_command_id e1 == "" then None else replay_command ix e1) with
              | Some r => Answered None ((fun a => (a, true)) <$> r)
              | None => Proposed md e1
              end
          end
      end
  end.

(** The next access of a request to its session. *)
Definition request_step (ss : sessions) (q : request C) (p : progress) : sessions * progress :=
  match ss !! rq_session q with
  | None => (ss, match p with
                 | Answered w r => Answered w r
                 | _ => Answered None (Err (NewValidationError CategorySessionUnsafe (rq_session q) "no such file or directory"))
                 end)
  | Some sd =>
      match p with
      | Arrived => (ss, match LoadSessionYAML sd with Ok md => Loaded md | Err err => Answered None (Err err) end)
      | Loaded md => (ss, decide_step sd md q)
      | Proposed md e =>
          (ss, match append_checks ss (rq_session q) sd md e with
               | Ok (ix, e') => Checked md ix e'
               | Err err => Answered None (Err err)
               end)
      | Checked md ix e =>
          let '(sd1, r) := append_line sd e (rq_fault q) in
          (<[rq_session q := sd1]> ss,
           match r with
           | Ok _ => Written md ix e
           | Err err => Answered (if line_written (rq_fault q) then Some (norm_event e) else None) (Err err)
           end)
      | Written md ix e =>
          let '(sd1, r) := append_yaml sd md ix e (rq_fault q) in
          (<[rq_session q := sd1]> ss, Answered (Some (norm_event e)) (not_replayed <$> r))
      | Answered w r => (ss, Answered w r)
      end
  end.

(** The sessions and the requests in progress. *)
Abbreviation serving := (sessions * list (request C * progress))%type.

Definition schedule_step (st : serving) (i : nat) : serving :=
  match st.2 !! i with
  | Some (q, p) => let '(ss, p') := request_step st.1 q p in (ss, <[i := (q, p')]> st.2)
  | None => st
  end.

Definition run_schedule (schedule : list nat) (st : serving) : serving := foldl schedule_step st schedule.

Definition arrive (qs : list (request C)) : list (request C * progress) := map (fun q => (q, Arrived)) qs.

(** A request served alone: the handler of daemon and storage together. *)
Definition serve (ss : sessions) (q : request C) : sessions * result error (AppendResult * bool) :=
  match ss !! rq_session q with
  | None => (ss, Err (NewValidationError CategorySessionUnsafe (rq_session q) "no such file or directory"))
  | Some sd =>
      match LoadSessionYAML sd with
      | Err err => (ss, Err err)
      | Ok md => let '(w, r) := run_command (rq_session q) (mk_world ss md) (rq_clock q) (rq_command q) (rq_fault q) in (wd_sessions w, r)
      end
  end.

Definition answer (p : progress) : option (result error (AppendResult * bool)) :=
  match p with
  | Answered _ r => Some r
  | _ => None
  end.
End requests.

(** ** Requests that do not overlap *)

Section serial.
Context {C : Type} `{!Command C}.

Fixpoint serve_all (ss : sessions) (qs : list (request C)) : sessions * list (result error (AppendResult * bool)) :=
  match qs with
  | [] => (ss, [])
  | q :: rest =>
      let '(ss1, r) := serve ss q in
      let '(ss2, rs) := serve_all ss1 rest in (ss2, r :: rs)
  end.

Definition alone (q : request C) (x : sessions * progress) : sessions * progress := request_step x.1 q x.2.

Fixpoint steps (n : nat) (q : request C) (x : sessions * progress) : sessions * progress :=
  match n with
  | O => x
  | S n' => steps n' q (alone q x)
  end.

Lemma steps_S n q x : steps (S n) q x = steps n q (alone q x).
Proof. done. Qed.

Lemma answered_stays ss q w r n : steps n q (ss, Answered w r) = (ss, Answered w r).
Proof. induction n as [|n IH]; [done|]. cbn [steps]. unfold alone, request_step. cbn [fst snd]. by destruct (ss !! _). Qed.

Lemma steps_answered q n x ss w r : alone q x = (ss, Answered w r) -> steps (S n) q x = (ss, Answered w r).
Proof. intros H. cbn [steps]. rewrite H. apply answered_stays. Qed.

Lemma set_other (ss : sessions) name sd1 sd2 : <[name := sd2]> (<[name := sd1]> ss) = <[name := sd2]> ss.
Proof. apply insert_insert_eq. Qed.

(** The part of AppendEvent: three steps. *)
Lemma append_alone ss q sd md e :
  ss !! rq_session q = Some sd ->
  let '(w, r) := AppendEvent (rq_session q) (mk_world ss md) e (rq_fault q) in
  exists written, steps 3 q (ss, Proposed md e) = (wd_sessions w, Answered written (not_replayed <$> r)).
Proof.
  intros Hsd. unfold AppendEvent. cbn [wd_sessions wd_md]. rewrite Hsd.
  assert (H1 : alone q (ss, Proposed md e) = (ss, match append_checks ss (rq_session q) sd md e with
      | Ok (ix, e') => Checked md ix e' | Err err => Answered None (Err err) end)) by (unfold alone, request_step; cbn; by rewrite Hsd).
  destruct (append_checks ss (rq_session q) sd md e) as [[ix e']|err]; [|eexists; by apply steps_answered].
  pose proof (append_io_parts sd md ix e' (rq_fault q)) as Hio.
  assert (H2 : alone q (ss, Checked md ix e') = (let '(sd1, r) := append_line sd e' (rq_fault q) in (<[rq_session q := sd1]> ss,
      match r with Ok _ => Written md ix e' | Err err => Answered (if line_written (rq_fault q) then Some (norm_event e') else None) (Err err) end)))
    by (unfold alone, request_step; cbn; by rewrite Hsd).
  destruct (append_line sd e' (rq_fault q)) as [sd1 r1]. destruct (append_io sd md ix e' (rq_fault q)) as [[sd2 md2] r2].
  rewrite steps_S, H1. destruct r1 as [u|err].
  - rewrite steps_S, H2, steps_S. cbn [steps]. unfold alone, request_step. cbn. rewrite lookup_insert_eq, Hio. cbn.
    rewrite set_other. by eexists.
  - destruct Hio as [-> ->]. eexists. by apply steps_answered.
Qed.

Lemma request_alone ss q : exists w, steps 5 q (ss, Arrived) = ((serve ss q).1, Answered w (serve ss q).2).
Proof.
  unfold serve. destruct (ss !! rq_session q) as [sd|] eqn:Hsd.
  2: { eexists. apply steps_answered. unfold alone, request_step. cbn. by rewrite Hsd. }
  assert (H1 : alone q (ss, Arrived) = (ss, match LoadSessionYAML sd with Ok md => Loaded md | Err err => Answered None (Err err) end))
    by (unfold alone, request_step; cbn; by rewrite Hsd).
  destruct (LoadSessionYAML sd) as [md|err]; [|eexists; by apply steps_answered].
  assert (H2 : alone q (ss, Loaded md) = (ss, decide_step sd md q)) by (unfold alone, request_step; cbn; by rewrite Hsd).
  rewrite steps_S, H1. unfold run_command, decide_step in *. cbn [wd_md wd_sessions]. rewrite Hsd.
  destruct (precheck md (rq_command q)) as [u|err]; [|eexists; by apply steps_answered].
  destruct (ReadLogIndex sd md) as [ix|err]; [|eexists; by apply steps_answered].
  destruct (respond (rq_clock q) md ix (rq_command q)) as [[r0|e]|]; [eexists; by apply steps_answered| |eexists; by apply steps_answered].
  unfold appendIdempotentEvent. cbn [wd_md]. destruct (if _ == "" then None else _) as [r|]; [eexists; by apply steps_answered|].
  rewrite steps_S, H2. pose proof (append_alone ss q sd md (prepareEventForAppend md ix e) Hsd) as H.
  destruct (AppendEvent _ _ _ _) as [w r]. destruct H as [written H]. exists written. exact H.
Qed.

Lemma run_schedule_one done q rest ss p n :
  run_schedule (repeat (length done) n) (ss, done ++ (q, p) :: rest) =
  let '(ss', p') := steps n q (ss, p) in (ss', done ++ (q, p') :: rest).
Proof.
  revert ss p. induction n as [|n IH]; intros ss p; [done|]. cbn [repeat run_schedule foldl].
  unfold schedule_step at 2. cbn [fst snd]. rewrite list_lookup_middle by done.
  destruct (request_step ss q p) as [ss1 p1] eqn:E. rewrite insert_app_r_alt, Nat.sub_diag by done. cbn [list_insert insert].
  fold (run_schedule (repeat (length done) n)).
  rewrite steps_S. unfold alone at 1. cbn [fst snd]. rewrite E. apply IH.
Qed.

(** The schedule that lets every request finish before the next one starts. *)
Definition one_by_one (start n : nat) : list nat := concat (map (fun i => repeat i 5) (seq start n)).

Lemma run_schedule_app s1 s2 st : run_schedule (C := C) (s1 ++ s2) st = run_schedule s2 (run_schedule s1 st).
Proof. unfold run_schedule. apply foldl_app. Qed.

Lemma one_by_one_from qs : forall done ss,
  exists ts, run_schedule (one_by_one (length done) (length qs)) (ss, done ++ arrive qs) = ((serve_all ss qs).1, done ++ ts) /\
    map (fun t => answer t.2) ts = map Some (serve_all ss qs).2 /\ map fst ts = qs.
Proof.
  induction qs as [|q qs IH]; intros done ss; [by exists []|].
  unfold one_by_one. cbn [length seq map concat arrive serve_all]. rewrite run_schedule_app, run_schedule_one.
  destruct (request_alone ss q) as [w Hw]. rewrite Hw. destruct (serve ss q) as [ss1 r]. cbn [fst snd].
  destruct (IH (done ++ [(q, Answered w r)]) ss1) as (ts & Hrun & Hr & Hq). rewrite length_app, <- !app_assoc in Hrun. cbn in Hrun.
  replace (length done + 1)%nat with (S (length done)) in Hrun by lia. unfold one_by_one in Hrun.
  fold (arrive qs). rewrite Hrun. destruct (serve_all ss1 qs) as [ss2 rs]. cbn [fst snd] in *.
  exists ((q, Answered w r) :: ts). cbn. by rewrite Hr, Hq.
Qed.

(** Requests that do not overlap are served as if each were alone: cutting the
    handlers at their accesses to the disk changes neither the sessions nor the
    answers, whatever faults there are, so the theorems about runs of commands
    hold for a server that finishes every request before the next one. *)
Theorem serial_schedule ss (qs : list (request C)) :
  let '(ss', ts) := run_schedule (one_by_one 0 (length qs)) (ss, arrive qs) in
  let '(ss1, rs) := serve_all ss qs in
  ss' = ss1 /\ map (fun t => answer t.2) ts = map Some rs.
Proof.
  destruct (one_by_one_from qs [] ss) as (ts & Hrun & Hr & _). cbn [length app] in Hrun. rewrite Hrun.
  by destruct (serve_all ss qs).
Qed.
End serial.

(** ** Requests that overlap *)

Definition written_by {C} (t : request C * progress) : option EventEnvelope :=
  match t.2 with
  | Written _ _ e => Some (norm_event e)
  | Answered w _ => w
  | _ => None
  end.

(** The log has the event that was reported, at the reported position or later. *)
Definition reported (log : list EventEnvelope) (a : AppendResult) (e : EventEnvelope) : Prop :=
  ar_event_id a = ev_event_id e /\ exists k, log !! k = Some e /\ ar_offset a <= Z.of_nat k.

Section overlap.
Context {C : Type} `{!Command C} (name : string) (md : SessionMetadata) (log0 : list EventEnvelope).

Definition request_fine (q : request C) : Prop := rq_session q = name /\ rq_fault q <> Some (FaultWrite true).

Definition progress_ok (log : list EventEnvelope) (p : progress) : Prop :=
  match p with
  | Arrived => True
  | Loaded md' | Proposed md' _ => same_session md' md
  | Checked md' ix e =>
      same_session md' md /\ envelope_issues md (norm_event e) = [] /\ ev_event_id e ∉ map ev_event_id log0 /\
      len_z (ix_events ix) <= len_z log
  | Written md' ix e => same_session md' md /\ exists k, log !! k = Some (norm_event e) /\ len_z (ix_events ix) <= Z.of_nat k
  | Answered w r => forall a, r = Ok (a, false) -> exists e, w = Some e /\ reported log a e
  end.

(** The session directory after [l] was written to its log. *)
Record dir_ok (sd : session_dir) (l : list EventEnvelope) : Prop := {
  dir_md : exists m, LoadSessionYAML sd = Ok m /\ same_session m md;
  dir_log : log_of sd = log0 ++ l;
  dir_new : Forall (fun e => envelope_issues md e = [] /\ ev_event_id e ∉ map ev_event_id log0) l;
  dir_readable : NoDup (map ev_event_id l) -> exists ix, ReadLogIndex sd md = Ok ix }.

Lemma progress_ok_grows log e p : progress_ok log p -> progress_ok (log ++ [e]) p.
Proof.
  destruct p; cbn; try done.
  - intros (H1 & H2 & H3 & H4). split_and!; try done. unfold len_z in *. rewrite length_app. lia.
  - intros (H1 & k & Hk & Hle). split; [done|]. exists k. split; [by apply lookup_app_l_Some|done].
  - intros H a Ha. destruct (H a Ha) as (e' & -> & Hid & k & Hk & Hle). exists e'. split; [done|]. split; [done|].
    exists k. split; [by apply lookup_app_l_Some|done].
Qed.

Lemma readable_log sd ix : ReadLogIndex sd md = Ok ix -> ix_events ix = log_of sd /\ ix_event_ids ix = list_to_set (map ev_event_id (log_of sd)) /\
  NoDup (map ev_event_id (log_of sd)).
Proof. intros H. apply ReadLogIndex_ok in H as ([Hnd Hids] & Hev & _). by rewrite <- Hev. Qed.

Lemma load_set_channel sd c m : LoadSessionYAML sd = Ok m -> LoadSessionYAML (set_channel sd c) = Ok m.
Proof. done. Qed.

(** The line is written. *)
Lemma dir_written sd l e :
  dir_ok sd l -> envelope_issues md e = [] -> ev_event_id e ∉ map ev_event_id log0 ->
  dir_ok (set_channel sd (mk_channel NRegular (lines_of sd ++ [LineEvent false e]) false)) (l ++ [e]).
Proof.
  intros [Hm Hlog Hnew Hread] Hv Hid. split.
  - exact Hm.
  - unfold log_of in *. cbn. unfold line_events. rewrite omap_app. cbn. rewrite app_assoc. f_equal. exact Hlog.
  - apply Forall_app. by repeat constructor.
  - rewrite map_app. intros (Hnd & Hdis & _)%NoDup_app. destruct (Hread Hnd) as [ix Hix]. eexists. apply ReadLogIndex_extend; [exact Hix| |done].
    apply readable_log in Hix as (_ & -> & _). rewrite elem_of_list_to_set, Hlog, map_app. intros [Hin|Hin]%elem_of_app; [done|].
    apply (Hdis _ Hin). by left.
Qed.

(** The write failed before a byte was on disk. *)
Lemma dir_unwritten sd l : dir_ok sd l -> dir_ok (set_channel sd (mk_channel NRegular (lines_of sd) false)) l.
Proof.
  intros [Hm Hlog Hnew Hread]. split; [exact Hm|exact Hlog|done|]. intros Hnd. destruct (Hread Hnd) as [ix Hix]. exists ix.
  revert Hix. unfold ReadLogIndex, lines_of. replace (safeSessionDirForAppend (set_channel _ _)) with (safeSessionDirForAppend sd) by done.
  intros H. run_inv H; subst; cbn; done.
Qed.

Lemma dir_yaml sd l m : dir_ok sd l -> same_session m md -> dir_ok (set_yaml sd m) l.
Proof.
  intros [(m0 & Hm & _) Hlog Hnew Hread] Hs. split; [|exact Hlog|done|exact Hread].
  exists m. split; [|done]. unfold LoadSessionYAML in *. change (safeSessionDirForAppend (set_yaml sd m)) with (safeSessionDirForAppend sd).
  by destruct (safeSessionDirForAppend sd).
Qed.

Lemma checked_ok ss sd l md' e ix e' :
  dir_ok sd l -> same_session md' md -> append_checks ss name sd md' e = Ok (ix, e') -> progress_ok (log0 ++ l) (Checked md' ix e').
Proof.
  intros Hd Hs H. apply append_checks_ok in H as (Hr & -> & Hid & Hv & _ & _). rewrite Hs in Hr. rewrite (envelope_issues_proper _ _ Hs _ _ eq_refl) in Hv.
  assert (Hfid : ev_event_id (finish_event (prepareEventForAppend md' ix e)) = ev_event_id e).
  { pose proof (prepare_fields md' ix e) as Hpf. pose proof (finish_event_fields (prepareEventForAppend md' ix e)) as Hff.
    cbv zeta in Hpf, Hff. destruct_and?. congruence. }
  apply readable_log in Hr as (Hev & Hids & _). rewrite (dir_log _ _ Hd) in Hev, Hids. cbn. split_and!; [done|by apply envelope_issues_encoded| |by rewrite Hev].
  rewrite Hfid. intros Hin. apply Hid. rewrite Hids, elem_of_list_to_set, map_app. set_solver.
Qed.

(** One step of a request: the log grows by what the request wrote. *)
Lemma step_ok ss q p sd l ss' p' :
  ss !! name = Some sd -> dir_ok sd l -> request_fine q -> progress_ok (log0 ++ l) p -> request_step ss q p = (ss', p') ->
  exists sd' l', ss' !! name = Some sd' /\ dir_ok sd' l' /\ progress_ok (log0 ++ l') p' /\
    (l' = l /\ written_by (q, p') = written_by (q, p) \/
     exists e, l' = l ++ [e] /\ written_by (q, p) = None /\ written_by (q, p') = Some e).
Proof.
  intros Hsd Hd [Hq Hf] Hp. unfold request_step. rewrite Hq, Hsd. destruct p as [|md'|md' e|md' ix e|md' ix e|w r]; cbn in Hp.
  - intros [= <- <-]. exists sd, l. destruct (dir_md _ _ Hd) as (m & -> & Hm). split_and!; [done..|by left].
  - intros [= <- <-]. exists sd, l. unfold decide_step. split; [done|]. split; [done|].
    repeat case_match; subst; cbn; split; try done; try (by left); intros a'; (discriminate || (unfold fmap, result_fmap; repeat case_match; congruence)).
  - destruct (append_checks _ _ _ _ _) as [[ix e']|] eqn:E; intros [= <- <-]; exists sd, l; (split; [done|]); (split; [done|]).
    + split; [by eapply checked_ok|by left].
    + split; [by intros|by left].
  - destruct Hp as (Hs & Hv & Hid & Hle).
    assert (Hnew : dir_ok (set_channel sd (mk_channel NRegular (lines_of sd ++ [LineEvent false (norm_event e)]) false)) (l ++ [norm_event e]))
      by by apply dir_written.
    assert (Hat : exists k, (log0 ++ l ++ [norm_event e]) !! k = Some (norm_event e) /\ len_z (ix_events ix) <= Z.of_nat k).
    { exists (length (log0 ++ l)). rewrite app_assoc, lookup_app_r, Nat.sub_diag by lia. done. }
    assert (Hdone : forall ss1 p1, (ss1, p1) = (ss', p') ->
       ss1 = <[name := set_channel sd (mk_channel NRegular (lines_of sd ++ [LineEvent false (norm_event e)]) false)]> ss ->
       written_by (q, p1) = Some (norm_event e) -> progress_ok (log0 ++ l ++ [norm_event e]) p1 ->
       exists sd' l', ss' !! name = Some sd' /\ dir_ok sd' l' /\ progress_ok (log0 ++ l') p' /\
         (l' = l /\ written_by (q, p') = written_by (q, Checked md' ix e) \/
          exists e0, l' = l ++ [e0] /\ written_by (q, Checked md' ix e) = None /\ written_by (q, p') = Some e0)).
    { intros ss1 p1 [= <- <-] -> Hw Hok. eexists _, (l ++ [norm_event e]). rewrite lookup_insert_eq. split_and!; [done|exact Hnew|done|].
      right. by exists (norm_event e). }
    destruct (rq_fault q) as [[|[]| | | | |]|] eqn:Efault; cbn [append_line line_written]; intros Hstep;
      try (by destruct Hf); try (eapply Hdone; [exact Hstep|done|done|]; cbn; (done || by intros)).
    + injection Hstep as <- <-. exists sd, l. rewrite lookup_insert_eq. split_and!; [done|done|by intros|by left].
    + injection Hstep as <- <-. eexists _, l. rewrite lookup_insert_eq. split_and!; [done|by apply dir_unwritten|by intros|by left].
  - destruct Hp as (Hs & k & Hk & Hle).
    destruct (append_yaml sd md' ix e (rq_fault q)) as [sd1 r] eqn:E. intros [= <- <-]. exists sd1, l. rewrite lookup_insert_eq.
    assert (Hd1 : dir_ok sd1 l).
    { assert (Hy : dir_ok (set_yaml sd (project_metadata md' e)) l) by (apply dir_yaml; [done|by rewrite project_metadata_same]).
      unfold append_yaml in E. destruct (rq_fault q) as [[]|]; injection E as <- <-; done. }
    split_and!; [done|done| |by left]. intros a Ha. exists (norm_event e). split; [done|].
    unfold append_yaml in E. destruct (rq_fault q) as [[]|]; injection E as <- <-; cbn in Ha; try discriminate Ha;
      injection Ha as <-; (split; [done|by exists k]).
  - intros [= <- <-]. exists sd, l. split_and!; [done|done|done|by left].
Qed.
End overlap.

(** ** Schedules *)

Section schedules.
Context {C : Type} `{!Command C}.

Lemma omap_insert {A B} (f : A -> option B) (l : list A) i x y e :
  l !! i = Some x -> f x = None -> f y = Some e -> omap f (<[i := y]> l) ≡ₚ e :: omap f l.
Proof.
  intros Hi Hx Hy. rewrite <- (take_drop_middle l i x Hi), insert_app_r_alt by (rewrite length_take; lia).
  pose proof (lookup_lt_Some _ _ _ Hi). rewrite length_take, Nat.min_l, Nat.sub_diag by lia. cbn. rewrite !omap_app. cbn. rewrite Hx, Hy.
  symmetry. apply Permutation_middle.
Qed.

Lemma omap_insert_same {A B} (f : A -> option B) (l : list A) i x y : l !! i = Some x -> f y = f x -> omap f (<[i := y]> l) = omap f l.
Proof.
  intros Hi Hxy. rewrite <- (take_drop_middle l i x Hi) at 2. rewrite <- (take_drop_middle l i x Hi) at 1.
  rewrite insert_app_r_alt by (rewrite length_take; lia).
  pose proof (lookup_lt_Some _ _ _ Hi). rewrite length_take, Nat.min_l, Nat.sub_diag by lia. cbn. rewrite !omap_app. cbn. by rewrite Hxy.
Qed.

(** What holds at any moment while the requests are served. *)
Definition serving_ok (name : string) (md : SessionMetadata) (log0 : list EventEnvelope) (st : sessions * list (request C * progress)) : Prop :=
  exists sd l, st.1 !! name = Some sd /\ dir_ok md log0 sd l /\ l ≡ₚ omap written_by st.2 /\
    Forall (fun t => request_fine name t.1 /\ progress_ok md log0 (log0 ++ l) t.2) st.2.

Lemma schedule_step_ok name md log0 st i : serving_ok name md log0 st -> serving_ok name md log0 (schedule_step st i).
Proof.
  intros (sd & l & Hsd & Hd & Hl & Hall). unfold schedule_step. destruct (st.2 !! i) as [[q p]|] eqn:Hi; [|by exists sd, l].
  rewrite Forall_forall in Hall. destruct (Hall (q, p) (list_elem_of_lookup_2 _ _ _ Hi)) as [Hq Hp].
  destruct (request_step st.1 q p) as [ss' p'] eqn:E. destruct (step_ok name md log0 _ _ _ _ _ _ _ Hsd Hd Hq Hp E) as (sd' & l' & Hsd' & Hd' & Hp' & Hw).
  exists sd', l'. cbn. split; [done|]. split; [done|]. split.
  - cbn [fst snd] in *. destruct Hw as [[-> Hw]|(e & -> & Hw & Hw')].
    + by rewrite (omap_insert_same _ _ _ _ _ Hi Hw).
    + rewrite (omap_insert _ _ _ _ _ _ Hi Hw Hw'), <- Hl. symmetry. apply Permutation_cons_append.
  - apply Forall_insert; [|done]. apply Forall_forall. intros t Ht. destruct (Hall t Ht) as [Htq Htp]. split; [done|].
    destruct Hw as [[-> _]|(e & -> & _)]; [done|]. rewrite app_assoc. by apply progress_ok_grows.
Qed.

Lemma run_schedule_ok name md log0 schedule : forall st, serving_ok name md log0 st -> serving_ok name md log0 (run_schedule schedule st).
Proof. induction schedule as [|i schedule IH]; intros st H; [done|]. apply IH. by apply schedule_step_ok. Qed.

Lemma arrived_ok name md sd ix ss qs :
  ss !! name = Some sd -> LoadSessionYAML sd = Ok md -> ReadLogIndex sd md = Ok ix -> Forall (request_fine name) qs ->
  serving_ok name md (log_of sd) (ss, arrive qs).
Proof.
  intros Hsd Hm Hix Hall. exists sd, []. split; [done|]. split.
  - split; [by exists md|by rewrite app_nil_r|constructor|by exists ix].
  - split.
    + cbn. clear Hall. induction qs as [|q qs IH]; [done|]. exact IH.
    + cbn. apply Forall_forall. intros t (q & -> & Hq)%list_elem_of_fmap. rewrite Forall_forall in Hall. split; [by apply Hall|done].
Qed.

(** C6. What overlapping requests do to a session.  However the steps of any
    requests are interleaved and whatever else fails than a write in its middle,
    the log keeps its lines and gains exactly the events that the requests wrote,
    each at or after the position it was reported at; and the log can still be
    read if and only if no two of them have the same event id.  The requests see
    stale logs, so two attempts of one command can both be written. *)
Theorem overlapping_requests name ss md sd ix qs schedule
    (Hsd : ss !! name = Some sd) (Hmd : LoadSessionYAML sd = Ok md) (Hix : ReadLogIndex sd md = Ok ix)
    (Hqs : Forall (request_fine name) qs) :
  let st := run_schedule schedule (ss, arrive qs) in
  exists sd' l, st.1 !! name = Some sd' /\ log_of sd' = log_of sd ++ l /\ l ≡ₚ omap written_by st.2 /\
    (is_ok (ReadLogIndex sd' md) = true <-> NoDup (map ev_event_id l)) /\
    forall q w a, (q, Answered w (Ok (a, false))) ∈ st.2 -> exists e, w = Some e /\ reported (log_of sd') a e.
Proof.
  cbv zeta. destruct (run_schedule_ok name md (log_of sd) schedule _ (arrived_ok _ _ _ _ _ _ Hsd Hmd Hix Hqs)) as (sd' & l & Hsd' & Hd & Hl & Hall).
  exists sd', l. split; [done|]. split; [apply Hd|]. split; [done|]. split.
  - split.
    + destruct (ReadLogIndex sd' md) as [ix'|] eqn:E; [intros _|done]. apply readable_log in E as (_ & _ & Hnd).
      rewrite (dir_log _ _ _ _ Hd), map_app in Hnd. by apply NoDup_app in Hnd as (_ & _ & Hnd).
    + intros Hnd. by destruct (dir_readable _ _ _ _ Hd Hnd) as [ix' ->].
  - intros q w a Hin. rewrite Forall_forall in Hall. destruct (Hall _ Hin) as [_ Hp]. rewrite (dir_log _ _ _ _ Hd). by apply Hp.
Qed.
End schedules.

(** ** Two requests for one vote *)

(** The council of the fixtures, with its vote requested. *)
Definition ox_sessions : sessions := wd_sessions (cx_runs cx_w_spoken (take 2 cx_consensus)).

Definition ox_vote (cmd vote : string) : request CouncilEventSpec :=
  mk_pending "sess_council" fx_later (cx_spec "vote" "ann" cmd {[ "vote" := AStr vote; "reason" := AStr "read" ]}) None.

Definition ox_run (schedule : list nat) (qs : list (request CouncilEventSpec)) : sessions * list (request CouncilEventSpec * progress) :=
  run_schedule schedule (ox_sessions, arrive qs).

Definition ox_answers (st : sessions * list (request CouncilEventSpec * progress)) : list bool :=
  map (fun t => match answer t.2 with Some r => is_ok r | None => false end) st.2.

Definition ox_log (st : sessions * list (request CouncilEventSpec * progress)) : list (string * string) :=
  match st.1 !! "sess_council" with
  | Some sd => map (fun e => (ev_command_id e, anyString (pl e) ["vote"])) (List.filter (fun e => ev_type e == "consensus_vote") (log_of sd))
  | None => []
  end.

Definition ox_readable (st : sessions * list (request CouncilEventSpec * progress)) : bool :=
  match st.1 !! "sess_council" with
  | Some sd => is_ok (ReadLogIndex sd fx_council_md)
  | None => false
  end.

Definition ox_retry : list (request CouncilEventSpec) := [ox_vote "c9" "approve"; ox_vote "c9" "approve"].
Definition ox_votes : list (request CouncilEventSpec) := [ox_vote "c9" "approve"; ox_vote "c19" "block"].
Definition ox_overlap : list nat := [0; 0; 0; 1; 1; 1; 0; 1; 0; 1]%nat.

Example ox_races :
  (let st := ox_run (one_by_one 0 2) ox_retry in (ox_answers st, ox_log st, ox_readable st)) = ([true; false], [("c9", "approve")], true) /\
  (let st := ox_run ox_overlap ox_retry in (ox_answers st, ox_log st, ox_readable st)) =
    ([true; true], [("c9", "approve"); ("c9", "approve")], false) /\
  (let st := ox_run ox_overlap ox_votes in (ox_answers st, ox_log st, ox_readable st)) =
    ([true; true], [("c9", "approve"); ("c19", "block")], true).
Proof. vm_compute. repeat split. Qed.

Definition ox_dir : session_dir := default (fx_dir fx_council_md []) (ox_sessions !! "sess_council").
Definition ox_md : SessionMetadata := default fx_council_md (sd_yaml ox_dir).
Definition ox_ix : LogIndex := match ReadLogIndex ox_dir ox_md with Ok ix => ix | Err _ => empty_index end.

Definition is_some {A} (o : option A) : bool := match o with Some _ => true | None => false end.

Lemma default_some {A} (d : A) o : is_some o = true -> o = Some (default d o).
Proof. by destruct o. Qed.

Lemma ok_value {E A} (d : A) (r : result E A) : is_ok r = true -> r = Ok (match r with Ok a => a | Err _ => d end).
Proof. by destruct r. Qed.

Lemma session_loads sd d : is_ok (LoadSessionYAML sd) = true -> LoadSessionYAML sd = Ok (default d (sd_yaml sd)).
Proof. unfold LoadSessionYAML. destruct (safeSessionDirForAppend sd); [|done]. by destruct (sd_yaml sd). Qed.

Lemma overlapping_requests_witness :
  let st := run_schedule ox_overlap (ox_sessions, arrive ox_votes) in
  exists sd' l, st.1 !! "sess_council" = Some sd' /\ log_of sd' = log_of ox_dir ++ l /\ l ≡ₚ omap written_by st.2 /\
    (is_ok (ReadLogIndex sd' ox_md) = true <-> NoDup (map ev_event_id l)) /\
    forall q w a, (q, Answered w (Ok (a, false))) ∈ st.2 -> exists e, w = Some e /\ reported (log_of sd') a e.
Proof.
  apply (overlapping_requests "sess_council" ox_sessions ox_md ox_dir ox_ix ox_votes ox_overlap).
  - apply default_some. vm_compute. reflexivity.
  - apply session_loads. vm_compute. reflexivity.
  - apply ok_value. vm_compute. reflexivity.
  - repeat constructor; discriminate.
Defined.
